(* ===== verification/_CoqProject ===== *)
-Q . S2P
Prelude.v
Phys.v
PhysInv.v
PhysSpec.v
PhysThms.v
Sync.v
Percpu.v
Slab.v
KMem.v
Vcpu.v
Service.v
Scheduler.v
SchedulerThms.v
Gdf.v
GdfThms.v
GdfBlock.v
GdfCrash.v
Virt.v
VirtTree.v
VirtThms.v
VirtHuge.v
VmLaws.v
Heap.v
HeapInv.v
HeapOps.v
HeapAlloc.v
HeapFree.v
HeapThms.v
Vma.v
VmaTree.v
VmaThms.v
VmaFault.v
Exec.v
ExecThms.v
Acpi.v
Intr.v
IntrThms.v
Entry.v
EntryThms.v
Disasm.v
DisasmThms.v
DisasmLen.v
Trap.v
Machine.v
MachineThms.v
TrapThms.v
TrapDemo.v
Boot.v
BootThms.v
BootElf.v
BootDemo.v
Smp.v
SmpThms.v
FbDrv.v
FbDrvThms.v
Handover.v
HandoverThms.v
IdeDrv.v
IdeThms.v
Ext4Drv.v
Ext4Thms.v
Ext4Demo.v
AhciDrv.v
AhciThms.v
AhciDemo.v
TermInput.v
TermScreen.v
TermEdit.v
TermThms.v
TermCmd.v
