(* ===== verification/Prelude.v ===== *)
(** * LodaxOS: verification development

    LodaxOS is a 64-bit microkernel-style system for x86-64 in Rust: a UEFI boot
    loader (src/boot) that finds the kernel on an ext4 partition and places it in
    memory; a kernel (src/kernel) with a page allocator, page tables, process
    memory areas, a slab heap, virtual CPUs grouped in gangs, user-mode drivers
    that talk through mailboxes, interrupt routing and a terminal; user-mode
    drivers (src/drivers); and the records that both sides share (src/system).

    ** Parts, and the files that model them

    Every operation of the code is one definition with the name it has in the
    source, translated from the source; PROJECT.json maps each to its lines.  A
    component is a file of definitions, and files of lemmas and theorems on them.

    - Memory management (kernel/src/mm).  [Phys] is phys.rs: the buddy allocator
      with its lists linked through the free pages, boot-time reservations,
      reference counts; [PhysInv], [PhysSpec], [PhysThms] prove it against the set
      of free pages.  [Virt] is virt.rs: page tables as words of physical memory,
      in the state monad [VM] whose failure is a panic; [VirtTree], [VirtThms],
      [VirtHuge], [VmLaws] prove it against the finite map from pages to entries.
      [Heap] is heap.rs, slab headers and free lists in memory, with its critical
      sections as separate steps; [HeapInv], [HeapOps], [HeapAlloc], [HeapFree],
      [HeapThms].  [Vma] is vma.rs, the radix tree of areas, page faults and copy
      on write; [VmaTree], [VmaThms], [VmaFault].
    - Tasks.  [Sync] is sync.rs (the spinlock, one atomic access per step);
      [Percpu] percpu.rs (slots, ready queues); [Slab] the shape shared by [Vcpu]
      (vcpu.rs) and [Service] (service.rs); [Scheduler] scheduler.rs, with
      [SchedulerThms].
    - Drivers as the kernel sees them.  [Gdf] is gdf.rs with the package format of
      system/src/lib.rs: mailboxes, calls, crash recovery; [GdfThms], [GdfBlock],
      [GdfCrash].  [Exec] is exec.rs, the ELF loader; [ExecThms].
    - Interrupts and traps.  [Acpi] and [Intr] are acpi/, intr/mod.rs and
      arch/ioapic.rs; [IntrThms].  [Entry] is the assembly of arch/idt.rs and
      arch/mod.rs as instruction lists with an interpreter, and the tables of
      arch/gdt.rs; [EntryThms].  [Trap] is the rest of arch/idt.rs: every system
      call, exceptions, device interrupts; [TrapThms], [TrapDemo].  [Disasm] is
      the instruction decoder arch/disasm.rs that fault handling relies on, with
      its clients; [DisasmThms], [DisasmLen].
    - [Machine] puts [Phys], [Virt] and [Vma] together as one machine whose
      processor walks the tables; [MachineThms].
    - Boot.  [Boot] is boot/src/load_kernel.rs; [BootThms], [BootElf], [BootDemo].
    - [Handover] is the memory map, screen mode and ACPI pointer of boot/src/main.rs
      and the first phase of kernel/src/main.rs; [HandoverThms], where the free
      pages of the kernel are traced back to the firmware's map.
    - Starting processors.  [Smp] is boot/src/mp.rs, kernel/src/ap_start.rs and
      arch/smp.rs with the trampoline the started processors run; [SmpThms].
    - User-mode drivers (drivers/src/bin).  [FbDrv] is framebuffer.rs with the
      geometry message of kernel/src/main.rs; [FbDrvThms].  [IdeDrv] is ide.rs;
      [IdeThms].  [Ext4Drv] is ext4.rs; [Ext4Thms], and [Ext4Demo], where it runs
      on the IDE driver.  [AhciDrv] is ahci.rs; [AhciThms], and [AhciDemo] with the
      kernel's PCI system call.
    - Terminal (kernel/src/katerm and serial2.rs).  [TermInput], [TermScreen],
      [TermEdit], [TermCmd]; [TermThms].

    ** Interfaces

    [KMem] states what the task-level components ask of memory management: the
    class [KernelMem] of operations and [KernelMemLaws] of laws.  [Vcpu],
    [Scheduler], [Gdf] and [Trap] (with the further operations of [TrapMem]) are
    written and proved against the classes.  [Machine] gives instances over the
    real page tables and allocator; [KMem] has a small instance for examples.
    The heap is proved against the class [HeapMem], the driver framework starts
    services through [ServiceLoader].  The file system driver is proved against
    [DiskService] and [DiskLaws], which the IDE driver implements.  Firmware and hardware that is not in the
    repository is a parameter: UEFI block devices, PCI configuration space, what a
    port or a device register returns; where a theorem needs a device to work,
    its documented behaviour is a class of laws ([AtaLaws], [HbaLaws]) with an
    instance.  What these laws say of DMA memory is what the kernel's system calls
    do: pages are cleared, may be refused, and buffers in use keep their bytes.

    ** What the theorems show

    - Conservation and exclusion: pages are never handed out twice, for every
      sequence of allocator calls; heap blocks neither, for every interleaving of
      CPUs; the lock excludes, for every interleaving.
    - Refinement: ready queues are bounded queues, free lists are a set of pages,
      page tables and radix trees are finite maps, the input line is a text with a
      cursor, a copy-on-write fault is invisible to the program, [translate] is the
      processor's walk.
    - Functional behaviour on every branch of the operations named above, failures
      included: what changes and that nothing else does.
    - Data reaches its place: files through the boot loader and through the file
      system, IDE and AHCI drivers, text onto the screen.  The file system format
      and the instruction set these are compared with are written down from their
      documentation, apart from the code; what the code does not handle is a
      hypothesis, named in the statement's comment, with a theorem that shows it
      going wrong.
    - Round trips: driver packages, mailbox messages, MADT entries, register
      frames through entry and exit, DMA buffers, instruction encodings.
    - Bounds and errors: reads of the ELF loader stay inside the file, messages
      are copied only where the driver may write, the decoder stays inside its
      buffer and panics on one kind of immediate only, the input line never indexes
      out of range, refused system calls change nothing.
    - Negative results, where the code does not do what it means to; each is also a
      finding of the manifest.

    ** Conventions, bounds and fuel

    A machine word is a [Z] with its wrap-around written out ([wrap],
    [+u64] ..): arithmetic wraps, as in a release build, and shift amounts
    are reduced modulo the width.  The profile that build.bat builds panics on
    overflow instead; where input of the decoder or a message of the framebuffer
    driver can overflow ([imm_i32], [checked_mul]), the model panics as well.
    Code under [debug_assertions] is left out.  A panic, an access outside an array and a wild
    pointer are outcomes.  Loops that
    are not structural take fuel, and the theorems say that it is enough:
    - walks over free lists and slab lists take the length of the list, which the
      invariants bound;
    - [order_for] runs at most 52 times, which is proved for every size;
    - [probe_pages] crosses at most two pages for a 32-byte message;
    - [inode_bytes] reads at most 130 sectors, enough for the 65535 bytes an
      inode's size field can say; [find_entry] gets the length of the directory,
      and each entry takes at least a byte; the recursion over extent trees has an
      explicit stack depth, and the theorems ask for the depth of the tree only;
    - [walk] of the file system driver goes one level down per step, files with
      their extents in the inode need one; [scan_dir] gets the number of 8-byte
      steps of the directory; device polling loops have the bounds of the code;
    - [scan] of the decoder's client runs once per slot of the array it fills;
    - printing numbers takes 64 digits, enough for 64 bits in any radix.

    ** Not modelled

    Logging and the text of diagnostics; arch/symtab.rs, a generated table; code
    that only drives devices (serial ports, local APIC registers, model specific
    registers) except where its effect on kernel state is part of a modelled
    operation; the rest of boot/src/main.rs and kernel/src/main.rs: firmware
    calls, the calls that start the components in order, the messages sent to
    drivers at the end of the start; calibration of the timers; the bodies of the
    shell's commands.  Locks other than [Sync] are taken for granted: operations of a component run one at a time except in the
    heap, whose critical sections are separate steps.  Lost races of the
    compare-and-swap in page tables are left out. *)
From stdpp Require Import base tactics numbers list gmap.
From Stdlib Require Import ZArith Lia Zbitwise.

Local Open Scope Z_scope.

(** [lia] after replacing quotients and remainders by their equations. *)
Ltac div_lia := Z.to_euclidean_division_equations; lia.

(** * Machine words

    A [w]-bit unsigned integer is a [Z] in [[0, 2^w)]; the wrap-around of an
    operation is written out with [wrap]. *)

Definition wrap (w : Z) (z : Z) : Z := z mod 2 ^ w.
Definition U64_MAX : Z := 2 ^ 64 - 1.
Definition U32_MAX : Z := 2 ^ 32 - 1.
Definition U16_MAX : Z := 2 ^ 16 - 1.
Definition U8_MAX : Z := 2 ^ 8 - 1.

Declare Scope word_scope.
Delimit Scope word_scope with word.
Notation "a +u64 b" := (wrap 64 (a + b)) (at level 50, left associativity) : word_scope.
Notation "a -u64 b" := (wrap 64 (a - b)) (at level 50, left associativity) : word_scope.
Notation "a *u64 b" := (wrap 64 (a * b)) (at level 40, left associativity) : word_scope.

Definition saturating_add (w a b : Z) : Z := Z.min (a + b) (2 ^ w - 1).
Definition saturating_sub (a b : Z) : Z := Z.max (a - b) 0.
Definition checked_add (w a b : Z) : option Z :=
  if a + b <? 2 ^ w then Some (a + b) else None.

(** Bitwise complement of a 64-bit word: Rust's [!x]. *)
Definition not64 (z : Z) : Z := Z.lxor z U64_MAX.

(** [u64::leading_zeros] and [u64::trailing_zeros]. *)
Definition leading_zeros64 (z : Z) : Z := if z =? 0 then 64 else 63 - Z.log2 z.

Fixpoint pos_trailing_zeros (p : positive) : nat :=
  match p with
  | xO q => S (pos_trailing_zeros q)
  | _ => O
  end.
Definition trailing_zeros64 (z : Z) : nat :=
  match z with
  | Zpos p => pos_trailing_zeros p
  | _ => 64%nat
  end.

Lemma wrap_small w z : 0 <= z < 2 ^ w -> wrap w z = z.
Proof. intros H. unfold wrap. by apply Z.mod_small. Qed.

Lemma wrap_bound w z : 0 <= w -> 0 <= wrap w z < 2 ^ w.
Proof. intros Hw. unfold wrap. apply Z.mod_pos_bound. lia. Qed.

Lemma land_not64 x k :
  0 <= x < 2 ^ 64 -> 0 <= k <= 64 ->
  Z.land x (not64 (2 ^ k - 1)) = x - x mod 2 ^ k.
Proof.
  intros Hx Hk.
  assert (Z.land x (not64 (2 ^ k - 1)) = Z.ldiff x (Z.ones k)) as ->.
  { unfold not64, U64_MAX. rewrite !Z.sub_1_r, <-!Z.ones_equiv.
    apply Z.bits_inj'. intros n Hn.
    rewrite Z.land_spec, Z.ldiff_spec, Z.lxor_spec, !Z.testbit_ones_nonneg by lia.
    destruct (Z.ltb_spec n 64).
    - by rewrite xorb_true_r.
    - rewrite (Z.bits_above_log2 x n); [done|lia|].
      destruct (decide (x = 0)) as [->|]; [simpl; lia|].
      assert (Z.log2 x < 64); [apply Z.log2_lt_pow2|]; lia. }
  rewrite Z.ldiff_ones_r by lia.
  rewrite Z.shiftl_mul_pow2, Z.shiftr_div_pow2 by lia.
  pose proof (Z.div_mod x (2 ^ k)). lia.
Qed.

(** * Bytes in memory *)

(** [n] bytes of a memory as a number, low byte first. *)
Fixpoint le_at (m : Z -> Z) (p : Z) (n : nat) : Z :=
  match n with O => 0 | S n => m p + 256 * le_at m (p + 1) n end.

(** [n] bytes written at an address. *)
Definition store_le (m : Z -> Z) (p : Z) (n : nat) (v : Z) : Z -> Z :=
  fun a => if (p <=? a) && (a <? p + Z.of_nat n) then (v / 256 ^ (a - p)) mod 256 else m a.

Lemma le_at_ext m m' n : forall p, (forall a, p <= a < p + Z.of_nat n -> m a = m' a) -> le_at m p n = le_at m' p n.
Proof.
  induction n as [|n IH]; intros p H; simpl; [done|]. rewrite (H p) by lia. rewrite (IH (p + 1)); [done|]. intros a Ha. apply H. lia.
Qed.

Lemma le_at_shift m m' n : forall p q, (forall i, 0 <= i < Z.of_nat n -> m (p + i) = m' (q + i)) -> le_at m p n = le_at m' q n.
Proof.
  induction n as [|n IH]; intros p q H; simpl; [done|].
  pose proof (H 0 ltac:(lia)) as H0. rewrite !Z.add_0_r in H0. rewrite H0, (IH (p + 1) (q + 1)); [done|].
  intros i Hi. rewrite <-!Z.add_assoc, !(Z.add_comm 1). rewrite !Z.add_assoc, <-!(Z.add_assoc _ i 1). apply H. lia.
Qed.

Lemma le_at_bound m n : (forall a, 0 <= m a < 256) -> forall p, 0 <= le_at m p n < 256 ^ Z.of_nat n.
Proof.
  intros Hm. induction n as [|n IH]; intros p; simpl le_at; [lia|].
  rewrite Nat2Z.inj_succ, Z.pow_succ_r by lia. specialize (IH (p + 1)). specialize (Hm p). lia.
Qed.

Lemma store_le_out m p n v a : ~ (p <= a < p + Z.of_nat n) -> store_le m p n v a = m a.
Proof. intros H. unfold store_le. destruct (Z.leb_spec p a), (Z.ltb_spec a (p + Z.of_nat n)); simpl; (done || lia). Qed.

Lemma le_at_digits m n : forall p v,
  (forall i, 0 <= i < Z.of_nat n -> m (p + i) = (v / 256 ^ i) mod 256) -> le_at m p n = v mod 256 ^ Z.of_nat n.
Proof.
  induction n as [|n IH]; intros p v H; simpl le_at; [by rewrite Z.mod_1_r|].
  pose proof (H 0 ltac:(lia)) as H0. rewrite Z.add_0_r, Z.pow_0_r, Z.div_1_r in H0. rewrite H0.
  rewrite (IH (p + 1) (v / 256)).
  - rewrite Nat2Z.inj_succ, Z.pow_succ_r by lia. rewrite Z.rem_mul_r by lia. done.
  - intros i Hi. rewrite <-Z.add_assoc, (Z.add_comm 1), H by lia. rewrite Z.pow_add_r, Z.pow_1_r, Z.mul_comm, <-Z.div_div by lia. done.
Qed.

Lemma le_at_store m p n v : 0 <= v < 256 ^ Z.of_nat n -> le_at (store_le m p n v) p n = v.
Proof.
  intros Hv. rewrite (le_at_digits _ n p v); [by apply Z.mod_small|]. intros i Hi. unfold store_le.
  rewrite (proj2 (Z.leb_le _ _)), (proj2 (Z.ltb_lt _ _)) by lia. cbn [andb]. do 2 f_equal. f_equal. lia.
Qed.

Lemma le_at_store_out m p n v q k : q + Z.of_nat k <= p \/ p + Z.of_nat n <= q -> le_at (store_le m p n v) q k = le_at m q k.
Proof. intros H. apply le_at_ext. intros a Ha. apply store_le_out. lia. Qed.

(** * Lists *)

Lemma elem_of_concat {A} (x : A) (ls : list (list A)) :
  x ∈ concat ls <-> exists l, l ∈ ls /\ x ∈ l.
Proof.
  rewrite list_elem_of_In, in_concat. by setoid_rewrite list_elem_of_In.
Qed.

Lemma submseteq_NoDup {A} (l k : list A) : l ⊆+ k -> NoDup k -> NoDup l.
Proof. intros [k' ->]%submseteq_Permutation Hk. by apply NoDup_app in Hk as (? & _). Qed.

(** The first index of a list that satisfies a test: the [for] loops with an
    early return. *)
Fixpoint first_index {A} (f : A -> bool) (l : list A) : option nat :=
  match l with
  | [] => None
  | x :: l => if f x then Some O else S <$> first_index f l
  end.

Lemma first_index_Some {A} (f : A -> bool) l i :
  first_index f l = Some i -> exists x, l !! i = Some x /\ f x = true /\
    forall j y, (j < i)%nat -> l !! j = Some y -> f y = false.
Proof.
  revert i. induction l as [|x l IH]; intros i; simpl; [done|].
  destruct (f x) eqn:E; [intros [= <-]; exists x; split_and!; [done..|lia]|].
  destruct (first_index f l) as [k|]; [|done]. intros [= <-].
  destruct (IH k eq_refl) as (y & Hy & Hf & Hlt). exists y. split_and!; [done..|].
  intros [|j] z Hj Hz; simpl in *; [by simplify_eq|]. apply (Hlt j); [lia|done].
Qed.

Lemma first_index_intro {A} (f : A -> bool) l i x :
  l !! i = Some x -> f x = true -> (forall j y, (j < i)%nat -> l !! j = Some y -> f y = false) ->
  first_index f l = Some i.
Proof.
  revert i. induction l as [|y l IH]; intros [|i] Hi Hf Hlt; simpl in *; [done|done|by simplify_eq; rewrite Hf|].
  rewrite (Hlt 0%nat y) by (done || lia). rewrite (IH i); [done..|]. intros j z Hj Hz. apply (Hlt (S j)); [lia|done].
Qed.

Lemma first_index_None {A} (f : A -> bool) l : first_index f l = None <-> Forall (fun x => f x = false) l.
Proof.
  induction l as [|x l IH]; simpl; [split; [constructor|done]|]. rewrite Forall_cons, <-IH.
  destruct (f x), (first_index f l); simpl; naive_solver.
Qed.

(** A scan that keeps the candidate of least weight, the first one on ties. *)
Definition argmin_step {A B} (cand : A -> option (B * Z)) (acc : option B * Z) (x : A) : option B * Z :=
  match cand x with
  | Some (b, w) => if w <? snd acc then (Some b, w) else acc
  | None => acc
  end.

Lemma argmin_fold {A B} (cand : A -> option (B * Z)) l (acc : option B * Z) :
  let r := fold_left (argmin_step cand) l acc in
  snd r <= snd acc /\
  (forall x b w, x ∈ l -> cand x = Some (b, w) -> snd r <= w) /\
  (r = acc \/ exists x b, x ∈ l /\ cand x = Some (b, snd r) /\ fst r = Some b).
Proof.
  cbv zeta. revert acc. induction l as [|x l IH]; intros acc; simpl.
  { split_and!; [lia|by intros ? ? ? ?%elem_of_nil|by left]. }
  destruct (IH (argmin_step cand acc x)) as (Hle & Hmin & Hwho).
  set (r := fold_left _ _ _) in *. clearbody r. unfold argmin_step in *.
  destruct (cand x) as [[b w]|] eqn:Ex.
  - destruct (Z.ltb_spec w (snd acc)); simpl in *.
    + split_and!; [lia| |].
      * intros y b' w' [->|Hy]%elem_of_cons Hc; [rewrite Ex in Hc; simplify_eq; done|eauto].
      * right. destruct Hwho as [->|(y & b' & Hy & Hc & Hr)]; [exists x, b|exists y, b'];
          (split_and!; [|done..]); apply elem_of_cons; auto.
    + split_and!; [lia| |].
      * intros y b' w' [->|Hy]%elem_of_cons Hc; [rewrite Ex in Hc; simplify_eq; lia|eauto].
      * destruct Hwho as [->|(y & b' & Hy & Hc & Hr)]; [by left|right; exists y, b'].
        split_and!; [apply elem_of_cons; auto|done..].
  - split_and!; [lia| |].
    + intros y b' w' [->|Hy]%elem_of_cons Hc; [congruence|eauto].
    + destruct Hwho as [->|(y & b' & Hy & Hc & Hr)]; [by left|right; exists y, b'].
      split_and!; [apply elem_of_cons; auto|done..].
Qed.

(** The scan from nothing: a minimal candidate, or none below the bound. *)
Lemma argmin_spec {A B} (cand : A -> option (B * Z)) l bound :
  match fst (fold_left (argmin_step cand) l (None, bound)) with
  | Some b => exists x w, x ∈ l /\ cand x = Some (b, w) /\
      forall y b' w', y ∈ l -> cand y = Some (b', w') -> w <= w'
  | None => forall y b' w', y ∈ l -> cand y = Some (b', w') -> bound <= w'
  end.
Proof.
  destruct (argmin_fold cand l (None, bound)) as (_ & Hmin & Hwho).
  set (r := fold_left _ _ _) in *. clearbody r. destruct Hwho as [->|(x & b & Hx & Hc & Hr)]; simpl in *.
  - exact Hmin.
  - rewrite Hr. eauto 10.
Qed.

Lemma fold_left_ext {A B} (f g : A -> B -> A) l a :
  (forall a b, f a b = g a b) -> fold_left f l a = fold_left g l a.
Proof. intros H. revert a. induction l as [|b l IH]; intros a; simpl; [done|]. by rewrite H, IH. Qed.

(** Flipping one bit. *)
Lemma lxor_pow2 a k :
  0 <= k -> Z.lxor a (2 ^ k) = if Z.testbit a k then a - 2 ^ k else a + 2 ^ k.
Proof.
  intros Hk.
  assert (forall b, Z.testbit b k = false -> Z.lxor b (2 ^ k) = b + 2 ^ k) as Hclear.
  { intros b Hb. symmetry. apply Z.add_nocarry_lxor. apply Z.bits_inj'. intros n Hn.
    rewrite Z.land_spec, Z.pow2_bits_eqb, Z.bits_0 by lia.
    destruct (Z.eqb_spec k n) as [->|]; [by rewrite Hb|by rewrite andb_false_r]. }
  destruct (Z.testbit a k) eqn:E; [|auto].
  assert (Z.testbit (a - 2 ^ k) k = false) as Hb.
  { apply Z.b2z_inj. rewrite Z.testbit_spec' by lia. apply (f_equal Z.b2z) in E.
    rewrite Z.testbit_spec' in E by lia. change (Z.b2z true) with 1 in E.
    change (Z.b2z false) with 0.
    replace (a - 2 ^ k) with (a + (-1) * 2 ^ k) by lia. rewrite Z.div_add by lia.
    revert E. generalize (a / 2 ^ k). intros q E. div_lia. }
  apply Hclear in Hb. replace (a - 2 ^ k + 2 ^ k) with a in Hb by lia.
  rewrite <-Hb at 1. by rewrite Z.lxor_assoc, Z.lxor_nilpotent, Z.lxor_0_r.
Qed.

Lemma pos_trailing_zeros_max p k :
  (2 ^ Z.of_nat k | Z.pos p) -> (k <= pos_trailing_zeros p)%nat.
Proof.
  revert k. induction p as [p _|p IH|]; intros [|k] Hk; simpl; try lia;
    rewrite Nat2Z.inj_succ, Z.pow_succ_r in Hk by lia.
  - destruct Hk as [q Hq]. lia.
  - apply le_n_S, IH. apply (Z.mul_divide_cancel_l _ _ 2); [lia|]. exact Hk.
  - destruct Hk as [q Hq]. lia.
Qed.

(** * Memory written in a loop *)

Section writes.
Context (f g : Z -> Z).

Lemma writes_other l (t : gmap Z Z) x :
  (forall i, i ∈ l -> f i <> x) -> fold_left (fun t i => <[f i := g i]> t) l t !! x = t !! x.
Proof.
  revert t. induction l as [|j l IH]; intros t Hx; [done|]. cbn [fold_left]. rewrite IH by (intros i Hi; apply Hx; by right).
  apply lookup_insert_ne. apply Hx. by left.
Qed.

Lemma writes_at l (t : gmap Z Z) i :
  NoDup l -> (forall j k, j ∈ l -> k ∈ l -> f j = f k -> j = k) -> i ∈ l ->
  fold_left (fun t i => <[f i := g i]> t) l t !! f i = Some (g i).
Proof.
  revert t. induction l as [|j l IH]; intros t Hnd Hf Hi; [by apply elem_of_nil in Hi|]. cbn [fold_left].
  apply NoDup_cons in Hnd as [Hj Hnd]. apply elem_of_cons in Hi as [->|Hi].
  - rewrite writes_other; [apply lookup_insert_eq|]. intros k Hk He. apply Hj.
    rewrite <-(Hf k j); [done|by right|by left|done].
  - apply IH; [done| |done]. intros k k' Hk Hk'. apply Hf; by right.
Qed.
End writes.
