(* ===== verification/Phys.v ===== *)
(** Physical page allocator (src/kernel/src/mm/phys.rs).

    The buddy allocator keeps one singly linked free list per order; the list
    cells ([FreeBlock]) live in the free pages themselves.  The model keeps
    that layout: [mem] is the physical memory seen as [FreeBlock] cells,
    [free_lists] the array of head pointers (0 is the null pointer), and the
    loops follow [next] pointers.  Statics of the module ([ZONE],
    [REFCOUNTS], the reservation words) are the fields of [PhysState]. *)
From stdpp Require Import base tactics numbers list gmap.
From Stdlib Require Import ZArith Lia.
From S2P Require Import Prelude.

Local Open Scope Z_scope.
Local Open Scope word_scope.

Definition PAGE_SIZE : Z := 4096.
Definition MAX_ORDER : nat := 10.
Definition BOOTINFO_HANDOFF_PAGE : Z := 0x5000.
Definition REFCOUNT_MAX_PAGES : Z := 128 * 1024 * 1024 / PAGE_SIZE.

(** [size_of::<lodaxos_system::BootInfo>()]: 128 regions of 16 bytes, a
    [usize], the 48-byte framebuffer record, eight [u64], three [u32] and the
    [MAX_CPUS = 4] AP identifiers, padded to 8 bytes. *)
Definition SIZEOF_BOOTINFO : Z := 128 * 16 + 8 + 48 + 8 * 8 + 3 * 4 + 4 * 4 + 4.

Record FreeBlock := mkFreeBlock { next : Z; order : nat }.

Record Zone := mkZone {
  base : Z;
  top : Z;
  free_lists : list Z;
  total_pages : Z;
  free_pages : Z;
}.

Record PhysState := mkPhys {
  zone : Zone;
  mem : gmap Z FreeBlock;
  REFCOUNTS : gmap Z Z;
  INITIALIZED : bool;
  BOOTINFO_RESERVED_PN : Z;
  BOOTINFO_RESERVED_PAGES : Z;
  KERNEL_RESERVED_PN : Z;
  KERNEL_RESERVED_PAGES : Z;
}.

Definition set_zone (s : PhysState) (z : Zone) : PhysState :=
  mkPhys z (mem s) (REFCOUNTS s) (INITIALIZED s) (BOOTINFO_RESERVED_PN s)
    (BOOTINFO_RESERVED_PAGES s) (KERNEL_RESERVED_PN s) (KERNEL_RESERVED_PAGES s).
Definition set_mem (s : PhysState) (m : gmap Z FreeBlock) : PhysState :=
  mkPhys (zone s) m (REFCOUNTS s) (INITIALIZED s) (BOOTINFO_RESERVED_PN s)
    (BOOTINFO_RESERVED_PAGES s) (KERNEL_RESERVED_PN s) (KERNEL_RESERVED_PAGES s).
Definition set_refcounts (s : PhysState) (r : gmap Z Z) : PhysState :=
  mkPhys (zone s) (mem s) r (INITIALIZED s) (BOOTINFO_RESERVED_PN s)
    (BOOTINFO_RESERVED_PAGES s) (KERNEL_RESERVED_PN s) (KERNEL_RESERVED_PAGES s).

Definition set_free_lists (z : Zone) (l : list Z) : Zone :=
  mkZone (base z) (top z) l (total_pages z) (free_pages z).
Definition set_free_pages (z : Zone) (n : Z) : Zone :=
  mkZone (base z) (top z) (free_lists z) (total_pages z) n.

(** ** Arithmetic helpers *)

Definition align_down (x align : Z) : Z := Z.land x (not64 (align - 1)).
Definition align_up (x align : Z) : Z :=
  Z.land (saturating_add 64 x (align - 1)) (not64 (align - 1)).
Definition block_size (order : nat) : Z := Z.shiftl 1 (Z.of_nat order) * PAGE_SIZE.

(** The range check of one reservation: [base != usize::MAX && pages != 0]
    guards the comparison. *)
Definition in_reservation (pn base pages : Z) : bool :=
  negb (base =? U64_MAX) && negb (pages =? 0) && (base <=? pn) && (pn <? base + pages).

Definition is_reserved_page (s : PhysState) (pn : Z) : bool :=
  (pn =? 0) || (pn =? BOOTINFO_HANDOFF_PAGE / PAGE_SIZE)
  || in_reservation pn (BOOTINFO_RESERVED_PN s) (BOOTINFO_RESERVED_PAGES s)
  || in_reservation pn (KERNEL_RESERVED_PN s) (KERNEL_RESERVED_PAGES s).

(** ** Free-list cells *)

(** [phys_to_block]: the cell at a physical address. *)
Definition phys_to_block (s : PhysState) (phys : Z) : FreeBlock :=
  default (mkFreeBlock 0 0) (mem s !! phys).

Definition free_list (s : PhysState) (o : nat) : Z := default 0 (free_lists (zone s) !! o).

Definition set_free_list (s : PhysState) (o : nat) (p : Z) : PhysState :=
  set_zone s (set_free_lists (zone s) (<[o := p]> (free_lists (zone s)))).

Definition write_next (s : PhysState) (p n : Z) : PhysState :=
  set_mem s (<[p := mkFreeBlock n (order (phys_to_block s p))]> (mem s)).

Definition add_free_pages (s : PhysState) (d : Z) : PhysState :=
  set_zone s (set_free_pages (zone s) (free_pages (zone s) +u64 d)).

Definition add_block (s : PhysState) (phys : Z) (o : nat) : PhysState :=
  let s1 := set_mem s (<[phys := mkFreeBlock (free_list s o) o]> (mem s)) in
  let s2 := set_free_list s1 o phys in
  add_free_pages s2 (Z.shiftl 1 (Z.of_nat o)).

Definition pop_block (s : PhysState) (o : nat) : option Z * PhysState :=
  let head := free_list s o in
  if head =? 0 then (None, s)
  else
    let s1 := set_free_list s o (next (phys_to_block s head)) in
    let s2 := write_next s1 head 0 in
    (Some head, add_free_pages s2 (- Z.shiftl 1 (Z.of_nat o))).

(** Unlinking the cell after [prev] ([prev = 0]: the head of the list). *)
Definition unlink (s : PhysState) (o : nat) (prev nxt : Z) : PhysState :=
  if prev =? 0 then set_free_list s o nxt else write_next s prev nxt.

Fixpoint remove_block_loop (fuel : nat) (s : PhysState) (target : Z) (o : nat)
    (prev curr : Z) : bool * PhysState :=
  match fuel with
  | O => (false, s)
  | S fuel =>
    if curr =? 0 then (false, s)
    else if curr =? target then
      let s1 := unlink s o prev (next (phys_to_block s curr)) in
      let s2 := write_next s1 curr 0 in
      (true, add_free_pages s2 (- Z.shiftl 1 (Z.of_nat o)))
    else remove_block_loop fuel s target o curr (next (phys_to_block s curr))
  end.

(** A list without repetitions visits at most [size (mem s)] cells, so the
    fuel lets the loop reach the null pointer. *)
Definition remove_block (s : PhysState) (target : Z) (o : nat) : bool * PhysState :=
  remove_block_loop (S (size (mem s))) s target o 0 (free_list s o).

(** ** Carving and coalescing *)

(** The order chosen by [carve_range] and [free_pages_chunked] for the block
    at [addr] when [remaining] bytes are left. *)
Definition chunk_order (addr remaining : Z) : nat :=
  let pn := addr / PAGE_SIZE in
  let align_zeros := trailing_zeros64 pn in
  let max_pages := remaining / PAGE_SIZE in
  let max_fit :=
    if max_pages <=? 1 then 0%nat
    else Z.to_nat (63 - leading_zeros64 (max_pages -u64 1)) in
  Nat.min MAX_ORDER (Nat.min align_zeros max_fit).

Fixpoint carve_loop (fuel : nat) (s : PhysState) (addr end_ : Z) : PhysState :=
  match fuel with
  | O => s
  | S fuel =>
    if addr <? end_ then
      let o := chunk_order addr (end_ - addr) in
      carve_loop fuel (add_block s addr o) (addr +u64 block_size o) end_
    else s
  end.

(** Every iteration advances by at least one page. *)
Definition range_fuel (start end_ : Z) : nat := S (Z.to_nat ((end_ - start) / PAGE_SIZE)).

Definition carve_range (s : PhysState) (start end_ : Z) : PhysState :=
  carve_loop (range_fuel start end_) s start end_.

Fixpoint coalesce_rec (fuel : nat) (s : PhysState) (addr : Z) (o : nat) : PhysState :=
  if (MAX_ORDER <=? o)%nat then add_block s addr o
  else
    match fuel with
    | O => s
    | S fuel =>
      let buddy := Z.lxor addr (block_size o) in
      let '(found, s1) := remove_block s buddy o in
      if found then coalesce_rec fuel s1 (Z.min addr buddy) (S o)
      else add_block s1 addr o
    end.

Definition coalesce (s : PhysState) (addr : Z) (o : nat) : PhysState :=
  coalesce_rec (MAX_ORDER - o) s addr o.

Definition range_overlaps (a_start a_end b_start b_end : Z) : bool :=
  (a_start <? b_end) && (a_end >? b_start).

(** [to_carve] has room for 64 pairs; a pair that does not fit is dropped. *)
Definition push_carve (to_carve : list (Z * Z)) (p : Z * Z) : list (Z * Z) :=
  if (length to_carve <? 64)%nat then to_carve ++ [p] else to_carve.

(** Phase 1 of [remove_range]: unlink every overlapping block of the list
    and record the parts that lie outside the range. *)
Fixpoint remove_range_loop (fuel : nat) (s : PhysState) (rstart rend : Z) (o : nat)
    (prev curr : Z) (to_carve : list (Z * Z)) : PhysState * list (Z * Z) :=
  match fuel with
  | O => (s, to_carve)
  | S fuel =>
    if curr =? 0 then (s, to_carve)
    else
      let cphys := curr in
      let cend := cphys +u64 block_size o in
      let nxt := next (phys_to_block s curr) in
      if range_overlaps cphys cend rstart rend then
        let s1 := unlink s o prev nxt in
        let s2 := add_free_pages s1 (- Z.shiftl 1 (Z.of_nat o)) in
        let tc1 := if cphys <? rstart then push_carve to_carve (cphys, rstart) else to_carve in
        let tc2 := if cend >? rend then push_carve tc1 (rend, cend) else tc1 in
        remove_range_loop fuel s2 rstart rend o prev nxt tc2
      else remove_range_loop fuel s rstart rend o curr nxt to_carve
  end.

Definition carve_all (s : PhysState) (to_carve : list (Z * Z)) : PhysState :=
  fold_left (fun s '(cs, ce) => carve_range s cs ce) to_carve s.

Definition remove_range (s : PhysState) (rstart rend : Z) (o : nat) : PhysState :=
  let '(s1, to_carve) :=
    remove_range_loop (S (size (mem s))) s rstart rend o 0 (free_list s o) [] in
  carve_all s1 to_carve.

Definition remove_range_all_orders (s : PhysState) (rstart rend : Z) : PhysState :=
  fold_left (fun s o => remove_range s rstart rend o) (seq 0 (S MAX_ORDER)) s.

Definition is_excluded (phys : Z) (exclude_ranges : list (Z * Z)) : bool :=
  let page_end := saturating_add 64 phys PAGE_SIZE in
  existsb (fun '(start, sz) =>
    let end_ := saturating_add 64 start sz in
    (phys <? end_) && (page_end >? start)) exclude_ranges.

(** ** Reference counts *)

Definition refcount_at (s : PhysState) (pn : Z) : Z := default 1 (REFCOUNTS s !! pn).

Definition ref_page (s : PhysState) (pn : Z) : PhysState :=
  if pn <? REFCOUNT_MAX_PAGES then
    let old := refcount_at s pn in
    let s1 := set_refcounts s (<[pn := wrap 16 (old + 1)]> (REFCOUNTS s)) in
    if old =? U16_MAX then set_refcounts s1 (<[pn := U16_MAX]> (REFCOUNTS s1)) else s1
  else s.

Definition unref_page (s : PhysState) (pn : Z) : bool * PhysState :=
  if pn >=? REFCOUNT_MAX_PAGES then (true, s)
  else
    let prev := refcount_at s pn in
    (prev =? 1, set_refcounts s (<[pn := wrap 16 (prev - 1)]> (REFCOUNTS s))).

Definition refcount (s : PhysState) (pn : Z) : Z :=
  if pn >=? REFCOUNT_MAX_PAGES then 1 else refcount_at s pn.

(** ** Allocation *)

(** A freshly allocated single page starts with reference count 1. *)
Definition reset_refcount (s : PhysState) (o : nat) (phys : Z) : PhysState :=
  if (o =? 0)%nat then
    let pn := phys / PAGE_SIZE in
    if pn <? REFCOUNT_MAX_PAGES then set_refcounts s (<[pn := 1]> (REFCOUNTS s)) else s
  else s.

(** [for cur_order in (order..higher).rev()]: the lower half of the block
    goes back to the list of its order, the upper half is split further. *)
Definition split_block (s : PhysState) (phys : Z) (o higher : nat) : Z * PhysState :=
  fold_left
    (fun '(current, s) cur_order =>
       (current +u64 block_size cur_order, add_block s current cur_order))
    (rev (seq o (higher - o))) (phys, s).

Fixpoint alloc_search (s : PhysState) (o : nat) (highers : list nat) : option Z * PhysState :=
  match highers with
  | [] => (None, s)
  | higher :: rest =>
    match pop_block s higher with
    | (Some phys, s1) =>
      let '(current, s2) := split_block s1 phys o higher in
      (Some current, reset_refcount s2 o current)
    | (None, s1) => alloc_search s1 o rest
    end
  end.

Definition alloc_order (s : PhysState) (o : nat) : option Z * PhysState :=
  if (MAX_ORDER <? o)%nat then (None, s)
  else
    match pop_block s o with
    | (Some phys, s1) => (Some phys, reset_refcount s1 o phys)
    | (None, s1) => alloc_search s1 o (seq (S o) (MAX_ORDER - o))
    end.

Definition free_order (s : PhysState) (addr : Z) (o : nat) : PhysState :=
  if (MAX_ORDER <? o)%nat || negb (addr mod PAGE_SIZE =? 0) then s
  else if is_reserved_page s (addr / PAGE_SIZE) then s
  else if (addr <? base (zone s)) || (addr +u64 block_size o >? top (zone s)) then s
  else if (o =? 0)%nat then
    let '(last, s1) := unref_page s (addr / PAGE_SIZE) in
    if last then coalesce s1 addr o else s1
  else coalesce s addr o.

Definition alloc_page (s : PhysState) : option Z * PhysState := alloc_order s 0.
Definition free_page (s : PhysState) (addr : Z) : PhysState := free_order s addr 0.

Fixpoint free_chunks_loop (fuel : nat) (s : PhysState) (current end_ : Z) : PhysState :=
  match fuel with
  | O => s
  | S fuel =>
    if current <? end_ then
      let o := chunk_order current (end_ - current) in
      free_chunks_loop fuel (free_order s current o) (current +u64 block_size o) end_
    else s
  end.

Definition free_pages_chunked (s : PhysState) (addr count : Z) : PhysState :=
  let end_ := addr +u64 (count *u64 PAGE_SIZE) in
  free_chunks_loop (range_fuel addr end_) s addr end_.

Definition alloc_pages (s : PhysState) (count : Z) : option Z * PhysState :=
  if count =? 0 then (None, s)
  else if count =? 1 then alloc_page s
  else if count >? Z.shiftl 1 (Z.of_nat MAX_ORDER) then (None, s)
  else
    let o :=
      if count <=? 1 then 0%nat
      else Nat.min (Z.to_nat (64 - leading_zeros64 (count -u64 1))) MAX_ORDER in
    let alloc_count := Z.shiftl 1 (Z.of_nat o) in
    match alloc_order s o with
    | (Some addr, s1) =>
      if alloc_count >? count then
        (Some addr, free_pages_chunked s1 (addr +u64 (count *u64 PAGE_SIZE)) (alloc_count - count))
      else (Some addr, s1)
    | (None, s1) => (None, s1)
    end.

Definition free_pages_range (s : PhysState) (addr count : Z) : PhysState :=
  if (count =? 0) || is_reserved_page s (addr / PAGE_SIZE) then s
  else free_pages_chunked s addr count.

Definition reserve_range (s : PhysState) (start size_in_pages : Z) : PhysState :=
  let rstart := align_down start PAGE_SIZE in
  let rend := align_up (saturating_add 64 start (size_in_pages *u64 PAGE_SIZE)) PAGE_SIZE in
  remove_range_all_orders s rstart rend.

Definition free_pages_count (s : PhysState) : Z := free_pages (zone s).

Fixpoint count_list (fuel : nat) (s : PhysState) (cur : Z) : nat :=
  match fuel with
  | O => O
  | S fuel => if cur =? 0 then O else S (count_list fuel s (next (phys_to_block s cur)))
  end.

Definition free_counts_per_order (s : PhysState) : list nat :=
  (fun o => count_list (S (size (mem s))) s (free_list s o)) <$> seq 0 (S MAX_ORDER).

(** ** Initialisation *)

(** The page-aligned interior of a memory region. *)
Definition region_bounds (r : Z * Z) : Z * Z :=
  (align_up (fst r) PAGE_SIZE, align_down (saturating_add 64 (fst r) (snd r)) PAGE_SIZE).

Definition grow_bounds (acc r : Z * Z) : Z * Z :=
  let '(a, b) := region_bounds r in
  if a <? b then (Z.min (fst acc) a, Z.max (snd acc) b) else acc.

Definition zone_bounds (regions : list (Z * Z)) : Z * Z :=
  let '(min_addr, max_addr) := fold_left grow_bounds regions (U64_MAX, 0) in
  (if min_addr =? U64_MAX then 0 else min_addr, max_addr).

(** One region, page by page: maximal runs of free pages are carved. *)
Fixpoint walk_region (fuel : nat) (s : PhysState) (excl : list (Z * Z))
    (addr reg_end range_start : Z) (in_range : bool) : PhysState :=
  match fuel with
  | O => s
  | S fuel =>
    if addr <? reg_end then
      let pn := addr / PAGE_SIZE in
      let free := negb (is_reserved_page s pn) && negb (is_excluded addr excl) in
      if free && negb in_range then
        walk_region fuel s excl (addr +u64 PAGE_SIZE) reg_end addr true
      else if negb free && in_range then
        walk_region fuel (carve_range s range_start addr) excl (addr +u64 PAGE_SIZE) reg_end
          range_start false
      else walk_region fuel s excl (addr +u64 PAGE_SIZE) reg_end range_start in_range
    else if in_range then carve_range s range_start reg_end else s
  end.

Definition add_region (excl : list (Z * Z)) (s : PhysState) (r : Z * Z) : PhysState :=
  let '(reg_start, reg_end) := region_bounds r in
  if reg_start >=? reg_end then s
  else walk_region (range_fuel reg_start reg_end) s excl reg_start reg_end 0 false.

Definition record_reservations (s : PhysState) (boot_info_phys kernel_start kernel_size : Z)
    : PhysState :=
  let bootinfo_pages := (SIZEOF_BOOTINFO + PAGE_SIZE - 1) / PAGE_SIZE in
  let bootinfo_base := align_down boot_info_phys PAGE_SIZE in
  let '(kpn, kpages) :=
    if kernel_size >? 0 then
      let kstart := align_down kernel_start PAGE_SIZE in
      let kend := align_up (saturating_add 64 kernel_start kernel_size) PAGE_SIZE in
      (kstart / PAGE_SIZE, (kend - kstart) / PAGE_SIZE)
    else (KERNEL_RESERVED_PN s, KERNEL_RESERVED_PAGES s) in
  mkPhys (zone s) (mem s) (REFCOUNTS s) (INITIALIZED s)
    (bootinfo_base / PAGE_SIZE) bootinfo_pages kpn kpages.

Definition empty_zone (regions : list (Z * Z)) : Zone :=
  let '(mn, mx) := zone_bounds regions in
  mkZone mn mx (replicate (S MAX_ORDER) 0) 0 0.

Definition finish_init (s : PhysState) : PhysState :=
  let z := zone s in
  mkPhys (mkZone (base z) (top z) (free_lists z) (free_pages z) (free_pages z))
    (mem s) (REFCOUNTS s) true (BOOTINFO_RESERVED_PN s) (BOOTINFO_RESERVED_PAGES s)
    (KERNEL_RESERVED_PN s) (KERNEL_RESERVED_PAGES s).

Definition init_from_regions (s : PhysState) (regions : list (Z * Z))
    (boot_info_phys kernel_start kernel_size : Z) (exclude_ranges : list (Z * Z)) : PhysState :=
  if INITIALIZED s then s
  else
    let s1 := record_reservations s boot_info_phys kernel_start kernel_size in
    let s2 := set_zone s1 (empty_zone regions) in
    let s3 := fold_left (add_region exclude_ranges) regions s2 in
    let bootinfo_pages := (SIZEOF_BOOTINFO + PAGE_SIZE - 1) / PAGE_SIZE in
    let bootinfo_base := align_down boot_info_phys PAGE_SIZE in
    let bootinfo_end := bootinfo_base +u64 (bootinfo_pages *u64 PAGE_SIZE) in
    finish_init (remove_range_all_orders s3 bootinfo_base bootinfo_end).

(** Boot-time state of the statics. *)
Definition phys_boot : PhysState :=
  mkPhys (mkZone 0 0 (replicate (S MAX_ORDER) 0) 0 0) ∅ ∅ false U64_MAX 0 U64_MAX 0.
