(* ===== verification/PhysInv.v ===== *)
(** Invariant of the physical page allocator and the specification of its
    operations: the free lists of [Phys] implement a set of free pages.

    [phys_inv s P] says that the linked lists reachable from the heads hold
    aligned, pairwise disjoint blocks whose pages are exactly the pages of
    [P] (a list without repetitions, up to permutation), and that the
    [free_pages] counter is their number. *)
From stdpp Require Import base tactics numbers list gmap sorting.
From Stdlib Require Import ZArith Lia.
From S2P Require Import Prelude Phys.

Local Open Scope Z_scope.

(** ** Linked lists in memory *)

(** [is_list m o p l]: following [next] from [p] visits the cells of [l] and
    ends at the null pointer; each cell carries the order [o]. *)
Fixpoint is_list (m : gmap Z FreeBlock) (o : nat) (p : Z) (l : list Z) : Prop :=
  match l with
  | [] => p = 0
  | a :: l' => p = a /\ a <> 0 /\ exists n, m !! a = Some (mkFreeBlock n o) /\ is_list m o n l'
  end.

Lemma is_list_frame m o p l a b :
  a ∉ l -> is_list m o p l -> is_list (<[a := b]> m) o p l.
Proof.
  revert p. induction l as [|c l IH]; simpl; intros p Ha H; [done|].
  destruct H as (-> & Hc & n & Hm & Hl).
  split; [done|]. split; [done|]. exists n.
  rewrite lookup_insert_ne by set_solver. split; [done|]. apply IH; set_solver.
Qed.

Lemma is_list_null m o l : is_list m o 0 l -> l = [].
Proof. destruct l; simpl; [done|]. intros (<- & ? & _). done. Qed.

Lemma is_list_in_mem m o p l a : is_list m o p l -> a ∈ l -> a ∈ dom m.
Proof.
  revert p. induction l as [|c l IH]; simpl; intros p H Ha; [set_solver|].
  destruct H as (-> & Hc & n & Hm & Hl).
  apply elem_of_cons in Ha as [->|Ha]; [|by eapply IH].
  by apply elem_of_dom_2 in Hm.
Qed.

Lemma is_list_fuel m o p l : is_list m o p l -> NoDup l -> (length l <= size m)%nat.
Proof.
  intros H Hnd.
  assert (size (list_to_set l : gset Z) = length l) as <- by by apply size_list_to_set.
  rewrite <-(size_dom m). apply subseteq_size.
  intros a Ha%elem_of_list_to_set. by eapply is_list_in_mem.
Qed.

(** The pointer that the cell (or head) before the suffix holds. *)
Lemma is_list_suffix m o p k l :
  is_list m o p (k ++ l) -> exists q, is_list m o q l /\ (k = [] -> p = q).
Proof.
  revert p. induction k as [|c k IH]; simpl; intros p H; [eauto|].
  destruct H as (-> & _ & n & _ & Hl). apply IH in Hl as (q & Hq & _). exists q. by split; [|intros ?].
Qed.

(** Redirecting the [next] pointer of the last cell of [k] around [c]. *)
Lemma is_list_unlink m o p k last c l :
  is_list m o p ((k ++ [last]) ++ c :: l) -> NoDup ((k ++ [last]) ++ c :: l) ->
  exists n, m !! c = Some (mkFreeBlock n o) /\
    is_list (<[last := mkFreeBlock n o]> m) o p ((k ++ [last]) ++ l) /\
    (exists n', m !! last = Some (mkFreeBlock n' o)).
Proof.
  revert p. induction k as [|d k IH]; simpl; intros p H Hnd.
  - destruct H as (-> & Hlast & n' & Hm' & Hc).
    destruct Hc as (-> & Hc & n & Hm & Hl).
    exists n. split; [done|]. split; [|eauto].
    split; [done|]. split; [done|]. exists n. rewrite lookup_insert_eq. split; [done|].
    apply is_list_frame; [|done]. apply NoDup_cons in Hnd. set_solver.
  - destruct H as (-> & Hd & n' & Hm' & Hl).
    apply NoDup_cons in Hnd as [Hdn Hnd].
    destruct (IH _ Hl Hnd) as (n & Hm & Hl' & Hlast).
    exists n. split; [done|]. split; [|done].
    split; [done|]. split; [done|]. exists n'. rewrite lookup_insert_ne; [done|].
    intros ->. apply Hdn. set_solver.
Qed.

(** ** Blocks and their pages *)

Definition block_pages (a : Z) (o : nat) : list Z := seqZ (a / PAGE_SIZE) (2 ^ Z.of_nat o).

Definition range_pages (a e : Z) : list Z := seqZ (a / PAGE_SIZE) ((e - a) / PAGE_SIZE).

(** A block of order [o] at [a]: non-null, aligned to its size, ending
    before the top of the address space. *)
Definition block_wf (o : nat) (a : Z) : Prop :=
  0 < a /\ a mod block_size o = 0 /\ a + block_size o < 2 ^ 64.

Definition order_pages (o : nat) (l : list Z) : list Z := l ≫= fun a => block_pages a o.

Definition all_pages (fls : list (list Z)) : list Z := concat (imap order_pages fls).

Lemma block_size_eq o : block_size o = 2 ^ Z.of_nat o * 4096.
Proof. unfold block_size, PAGE_SIZE. rewrite Z.shiftl_mul_pow2 by lia. lia. Qed.

Lemma block_size_S o : block_size (S o) = 2 * block_size o.
Proof. rewrite !block_size_eq, Nat2Z.inj_succ, Z.pow_succ_r by lia. lia. Qed.

Lemma block_size_pos o : 4096 <= block_size o.
Proof. rewrite block_size_eq. assert (0 < 2 ^ Z.of_nat o) by (apply Z.pow_pos_nonneg; lia). lia. Qed.

Lemma block_wf_page o a : block_wf o a -> a mod 4096 = 0.
Proof.
  intros (_ & Ha & _). rewrite block_size_eq, Z.mul_comm in Ha.
  rewrite Z.rem_mul_r in Ha by (try apply Z.pow_nonzero; lia).
  pose proof (Z.mod_pos_bound a 4096). pose proof (Z.mod_pos_bound (a / 4096) (2 ^ Z.of_nat o)).
  assert (0 < 2 ^ Z.of_nat o) by (apply Z.pow_pos_nonneg; lia). nia.
Qed.

Lemma elem_of_block_pages a o pn :
  pn ∈ block_pages a o <-> a / PAGE_SIZE <= pn < a / PAGE_SIZE + 2 ^ Z.of_nat o.
Proof. unfold block_pages. by rewrite elem_of_seqZ. Qed.

Lemma block_pages_head a o : a / PAGE_SIZE ∈ block_pages a o.
Proof. apply elem_of_block_pages. assert (0 < 2 ^ Z.of_nat o) by (apply Z.pow_pos_nonneg; lia). lia. Qed.

Lemma length_block_pages a o : Z.of_nat (length (block_pages a o)) = 2 ^ Z.of_nat o.
Proof. unfold block_pages. rewrite length_seqZ. pose proof (Z.pow_nonneg 2 (Z.of_nat o)). lia. Qed.

Lemma block_pages_split a o :
  a mod 4096 = 0 ->
  block_pages a (S o) = block_pages a o ++ block_pages (a + block_size o) o.
Proof.
  intros Ha. unfold block_pages, PAGE_SIZE.
  rewrite Nat2Z.inj_succ, Z.pow_succ_r by lia.
  replace (2 * 2 ^ Z.of_nat o) with (2 ^ Z.of_nat o + 2 ^ Z.of_nat o) by lia.
  pose proof (Z.pow_nonneg 2 (Z.of_nat o)).
  rewrite seqZ_app by lia. do 2 f_equal.
  rewrite block_size_eq, Z.div_add by lia. done.
Qed.

Lemma order_pages_cons o a l : order_pages o (a :: l) = block_pages a o ++ order_pages o l.
Proof. done. Qed.

Lemma order_pages_app o l1 l2 : order_pages o (l1 ++ l2) = order_pages o l1 ++ order_pages o l2.
Proof. apply bind_app. Qed.

Lemma elem_of_order_pages o l pn : pn ∈ order_pages o l <-> exists a, a ∈ l /\ pn ∈ block_pages a o.
Proof. unfold order_pages. rewrite list_elem_of_bind. naive_solver. Qed.

(** Replacing the list of order [o] replaces its pages. *)
Lemma all_pages_insert fls o l l' :
  fls !! o = Some l ->
  exists rest, all_pages fls ≡ₚ order_pages o l ++ rest /\
               all_pages (<[o := l']> fls) ≡ₚ order_pages o l' ++ rest.
Proof.
  intros Ho. apply list_elem_of_split_length in Ho as (k1 & k2 & -> & ->).
  exists (concat (imap order_pages k1) ++
          concat (imap (fun n => order_pages (length k1 + S n)) k2)).
  unfold all_pages. rewrite insert_app_r_alt by lia.
  rewrite Nat.sub_diag. simpl. rewrite !imap_app. simpl.
  rewrite !concat_app. simpl. rewrite Nat.add_0_r.
  split; solve_Permutation.
Qed.

Lemma elem_of_all_pages fls pn :
  pn ∈ all_pages fls <-> exists o l a, fls !! o = Some l /\ a ∈ l /\ pn ∈ block_pages a o.
Proof.
  unfold all_pages. rewrite elem_of_concat. setoid_rewrite elem_of_lookup_imap. split.
  - intros (k & (o & l & -> & Ho) & (a & Ha & Hpn)%elem_of_order_pages). eauto 10.
  - intros (o & l & a & Ho & Ha & Hpn). exists (order_pages o l). split; [eauto|].
    apply elem_of_order_pages. eauto.
Qed.

(** ** The invariant *)

Record fls_wf (fls : list (list Z)) : Prop := {
  fls_length : length fls = S MAX_ORDER;
  fls_blocks : forall o l, fls !! o = Some l -> Forall (block_wf o) l;
  fls_nodup : NoDup (all_pages fls);
}.

(** The heads and cells of [s] represent the lists [fls]. *)
Record rep (s : PhysState) (fls : list (list Z)) : Prop := {
  rep_length : length (free_lists (zone s)) = S MAX_ORDER;
  rep_lists : forall o l, fls !! o = Some l -> is_list (mem s) o (free_list s o) l;
  rep_count : free_pages (zone s) = Z.of_nat (length (all_pages fls));
}.

Definition lists_inv (s : PhysState) (fls : list (list Z)) : Prop := fls_wf fls /\ rep s fls.

Definition phys_inv (s : PhysState) (P : list Z) : Prop :=
  exists fls, lists_inv s fls /\ P ≡ₚ all_pages fls.

#[export] Instance phys_inv_proper : Proper ((=) ==> (≡ₚ) ==> iff) phys_inv.
Proof.
  intros s _ <- P Q HPQ. unfold phys_inv.
  split; intros (fls & Hinv & HP); exists fls; (split; [done|]); [by rewrite <-HPQ|by rewrite HPQ].
Qed.

Lemma phys_inv_nodup s P : phys_inv s P -> NoDup P.
Proof. intros (fls & [Hwf _] & ->). apply Hwf. Qed.

Lemma phys_inv_count s P : phys_inv s P -> free_pages_count s = Z.of_nat (length P).
Proof. intros (fls & [_ Hrep] & ->). apply Hrep. Qed.

Lemma fls_lookup fls o : fls_wf fls -> (o <= MAX_ORDER)%nat -> exists l, fls !! o = Some l.
Proof. intros [Hlen _ _] Ho. apply lookup_lt_is_Some. unfold MAX_ORDER in *. lia. Qed.

Lemma fls_lookup_le fls o l : fls_wf fls -> fls !! o = Some l -> (o <= MAX_ORDER)%nat.
Proof. intros [Hlen _ _] Ho%lookup_lt_Some. lia. Qed.

Lemma fls_block_wf fls o l a : fls_wf fls -> fls !! o = Some l -> a ∈ l -> block_wf o a.
Proof. intros Hwf Ho Ha. pose proof (fls_blocks _ Hwf _ _ Ho). by eapply Forall_forall. Qed.

(** A block address determines the block: its first page is free. *)
Lemma fls_page_free fls o l a :
  fls !! o = Some l -> a ∈ l -> a / PAGE_SIZE ∈ all_pages fls.
Proof. intros Ho Ha. apply elem_of_all_pages. exists o, l, a. eauto using block_pages_head. Qed.

Lemma fls_nodup_list fls o l : fls_wf fls -> fls !! o = Some l -> NoDup (order_pages o l).
Proof.
  intros Hwf Ho. destruct (all_pages_insert _ _ _ [] Ho) as (rest & HP & _).
  pose proof (fls_nodup _ Hwf) as Hnd. rewrite HP in Hnd. by apply NoDup_app in Hnd as (? & _).
Qed.

Lemma order_pages_NoDup o l : NoDup (order_pages o l) -> NoDup l.
Proof.
  induction l as [|a l IH]; [constructor|]. rewrite order_pages_cons.
  intros (H1 & H2 & H3)%NoDup_app. constructor; [|auto].
  intros Ha. apply (H2 (a / PAGE_SIZE)); [apply block_pages_head|].
  apply elem_of_order_pages. eauto using block_pages_head.
Qed.

Lemma fls_disjoint fls o1 o2 l1 l2 a :
  fls_wf fls -> o1 <> o2 -> fls !! o1 = Some l1 -> fls !! o2 = Some l2 -> a ∈ l1 -> a ∉ l2.
Proof.
  intros Hwf Hne H1 H2 Ha1 Ha2.
  destruct (all_pages_insert _ _ _ [] H1) as (rest & HP & HP').
  pose proof (fls_nodup _ Hwf) as Hnd. rewrite HP in Hnd.
  apply NoDup_app in Hnd as (_ & Hdisj & _).
  apply (Hdisj (a / PAGE_SIZE)); [apply elem_of_order_pages; eauto using block_pages_head|].
  assert (a / PAGE_SIZE ∈ all_pages (<[o1:=[]]> fls)) as Hin.
  { eapply (fls_page_free _ o2 l2); [|done]. by rewrite list_lookup_insert_ne. }
  by rewrite HP' in Hin.
Qed.

Lemma is_list_ext m m' o p l :
  (forall a, a ∈ l -> m' !! a = m !! a) -> is_list m o p l -> is_list m' o p l.
Proof.
  revert p. induction l as [|c l IH]; simpl; intros p Ha H; [done|].
  destruct H as (-> & Hc & n & Hm & Hl). split; [done|]. split; [done|]. exists n.
  rewrite Ha by set_solver. split; [done|]. apply IH; set_solver.
Qed.

Lemma block_wf_pages o a pn : block_wf o a -> pn ∈ block_pages a o -> 0 < pn < 2 ^ 52.
Proof.
  intros Hwf Hpn%elem_of_block_pages. pose proof (block_wf_page _ _ Hwf) as Hm.
  destruct Hwf as (Ha & _ & Hend). rewrite block_size_eq in Hend. unfold PAGE_SIZE in *.
  pose proof (Z.div_mod a 4096). nia.
Qed.

Lemma fls_pages_bound fls pn : fls_wf fls -> pn ∈ all_pages fls -> 0 < pn < 2 ^ 52.
Proof.
  intros Hwf (o & l & a & Ho & Ha & Hpn)%elem_of_all_pages.
  eapply block_wf_pages; [by eapply fls_block_wf|done].
Qed.

Lemma NoDup_bounded_length (P : list Z) (n : Z) :
  0 <= n -> NoDup P -> (forall p, p ∈ P -> 0 <= p < n) -> Z.of_nat (length P) <= n.
Proof.
  intros Hn Hnd HP. assert (P ⊆+ seqZ 0 n) as Hsub.
  { apply NoDup_submseteq; [done|]. intros p Hp%HP. apply elem_of_seqZ. lia. }
  apply submseteq_length in Hsub. rewrite length_seqZ in Hsub. lia.
Qed.

Lemma fls_count_bound fls : fls_wf fls -> Z.of_nat (length (all_pages fls)) < 2 ^ 64.
Proof.
  intros Hwf. assert (Z.of_nat (length (all_pages fls)) <= 2 ^ 52); [|lia].
  apply NoDup_bounded_length; [lia|apply Hwf|]. intros p Hp%fls_pages_bound; [lia|done].
Qed.

Lemma length_order_pages o l : Z.of_nat (length (order_pages o l)) = Z.of_nat (length l) * 2 ^ Z.of_nat o.
Proof.
  induction l as [|a l IH]; [done|].
  rewrite order_pages_cons, length_app, Nat2Z.inj_add, length_block_pages, IH. simpl length. lia.
Qed.

(** The common shape of the list operations: the list of one order changes
    from [l] to [l'], the cells of the other lists and their heads do not. *)
Lemma lists_inv_update s s' fls o l l' :
  lists_inv s fls -> fls !! o = Some l ->
  Forall (block_wf o) l' -> NoDup (all_pages (<[o := l']> fls)) ->
  length (free_lists (zone s')) = S MAX_ORDER ->
  (forall o', o' <> o -> free_list s' o' = free_list s o') ->
  (forall o' k a, o' <> o -> fls !! o' = Some k -> a ∈ k -> mem s' !! a = mem s !! a) ->
  is_list (mem s') o (free_list s' o) l' ->
  free_pages (zone s') =
    wrap 64 (free_pages (zone s) + (Z.of_nat (length l') - Z.of_nat (length l)) * 2 ^ Z.of_nat o) ->
  lists_inv s' (<[o := l']> fls).
Proof.
  intros [Hwf Hrep] Ho Hl' Hnd Hlen Hheads Hmem Hlist Hcount.
  pose proof (lookup_lt_Some _ _ _ Ho) as Hlt.
  assert (fls_wf (<[o := l']> fls)) as Hwf'.
  { split; [rewrite length_insert; apply Hwf| |done].
    intros o' k [(-> & <- & _)|(? & Hk)]%list_lookup_insert_Some; [done|]. by eapply Hwf. }
  split; [done|]. split; [done| |].
  - intros o' k [(-> & <- & _)|(Hne & Hk)]%list_lookup_insert_Some; [done|].
    rewrite Hheads by done. eapply is_list_ext; [|by apply Hrep]. intros a Ha. by eapply Hmem.
  - rewrite Hcount, (rep_count _ _ Hrep).
    destruct (all_pages_insert _ _ _ l' Ho) as (rest & HP & HP').
    pose proof (fls_count_bound _ Hwf') as Hb. rewrite HP' in Hb |- *. rewrite HP.
    rewrite !length_app, !Nat2Z.inj_add, !length_order_pages in *.
    rewrite wrap_small; lia.
Qed.

(** ** List operations *)

Lemma free_list_set s o p o' :
  length (free_lists (zone s)) = S MAX_ORDER -> (o <= MAX_ORDER)%nat ->
  free_list (set_free_list s o p) o' = if decide (o' = o) then p else free_list s o'.
Proof.
  intros Hlen Ho. unfold free_list, set_free_list. simpl.
  case_decide; subst.
  - by rewrite list_lookup_insert_eq by (rewrite Hlen; unfold MAX_ORDER in *; lia).
  - by rewrite list_lookup_insert_ne.
Qed.

Lemma shiftl_pow2 o : Z.shiftl 1 (Z.of_nat o) = 2 ^ Z.of_nat o.
Proof. rewrite Z.shiftl_mul_pow2 by lia. lia. Qed.

Lemma add_block_lists s fls o l a :
  lists_inv s fls -> fls !! o = Some l -> block_wf o a ->
  NoDup (block_pages a o ++ all_pages fls) ->
  lists_inv (add_block s a o) (<[o := a :: l]> fls) /\
  all_pages (<[o := a :: l]> fls) ≡ₚ block_pages a o ++ all_pages fls.
Proof.
  intros Hinv Ho Ha Hnd. pose proof Hinv as [Hwf Hrep].
  destruct (all_pages_insert _ _ _ (a :: l) Ho) as (rest & HP & HP').
  assert (all_pages (<[o := a :: l]> fls) ≡ₚ block_pages a o ++ all_pages fls) as HP2.
  { rewrite HP', HP, order_pages_cons. by rewrite app_assoc. }
  split; [|done].
  assert (forall o' k, fls !! o' = Some k -> a ∉ k) as Hfresh.
  { intros o' k Hk Hak. apply NoDup_app in Hnd as (_ & Hd & _).
    apply (Hd (a / PAGE_SIZE)); [apply block_pages_head|]. by eapply fls_page_free. }
  pose proof (fls_lookup_le _ _ _ Hwf Ho) as Hle. pose proof (rep_length _ _ Hrep) as Hlen.
  eapply lists_inv_update; [done|done| | | | | | |].
  - constructor; [done|]. by apply Hwf.
  - by rewrite HP2.
  - simpl. by rewrite length_insert.
  - intros o' Hne. unfold add_block, add_free_pages.
    change (free_list (set_free_list (set_mem s (<[a:=mkFreeBlock (free_list s o) o]> (mem s))) o a) o'
            = free_list s o').
    rewrite free_list_set by done. by case_decide.
  - intros o' k b Hne Hk Hb. simpl. rewrite lookup_insert_ne; [done|].
    intros ->. by eapply Hfresh.
  - change (is_list (<[a:=mkFreeBlock (free_list s o) o]> (mem s)) o
      (free_list (set_free_list (set_mem s (<[a:=mkFreeBlock (free_list s o) o]> (mem s))) o a) o) (a :: l)).
    rewrite free_list_set by done. case_decide; [|done]. simpl.
    split; [done|]. split; [by destruct Ha; lia|]. eexists. rewrite lookup_insert_eq.
    split; [done|]. apply is_list_frame; [by eapply Hfresh|]. by apply Hrep.
  - simpl. rewrite shiftl_pow2. f_equal. lia.
Qed.

Lemma pop_block_lists s fls o l :
  lists_inv s fls -> fls !! o = Some l ->
  match l with
  | [] => pop_block s o = (None, s) /\ free_list s o = 0
  | a :: l' => exists s', pop_block s o = (Some a, s') /\ lists_inv s' (<[o := l']> fls) /\
      block_wf o a /\ all_pages fls ≡ₚ block_pages a o ++ all_pages (<[o := l']> fls)
  end.
Proof.
  intros Hinv Ho. pose proof Hinv as [Hwf Hrep].
  pose proof (rep_lists _ _ Hrep _ _ Ho) as Hl. pose proof (rep_length _ _ Hrep) as Hlen.
  pose proof (fls_lookup_le _ _ _ Hwf Ho) as Hle.
  unfold pop_block. destruct l as [|a l']; simpl in Hl; [by rewrite Hl|].
  destruct Hl as (Hh & Ha & n & Hm & Hl). rewrite Hh.
  rewrite (proj2 (Z.eqb_neq a 0)) by done. eexists. split; [done|].
  destruct (all_pages_insert _ _ _ l' Ho) as (rest & HP & HP').
  assert (all_pages fls ≡ₚ block_pages a o ++ all_pages (<[o := l']> fls)) as HP2.
  { rewrite HP', HP, order_pages_cons. by rewrite app_assoc. }
  split; [|split; [eapply fls_block_wf; [done..|set_solver]|done]].
  pose proof (order_pages_NoDup _ _ (fls_nodup_list _ _ _ Hwf Ho)) as Hndl.
  apply NoDup_cons in Hndl as [Hal _].
  assert (phys_to_block s a = mkFreeBlock n o) as Hblk by by unfold phys_to_block; rewrite Hm.
  eapply lists_inv_update; [done|done| | | | | | |].
  - pose proof (fls_blocks _ Hwf _ _ Ho) as HF. by inversion HF.
  - pose proof (fls_nodup _ Hwf) as Hnd. rewrite HP2 in Hnd. by apply NoDup_app in Hnd as (_ & _ & ?).
  - simpl. by rewrite length_insert.
  - intros o' Hne. change (free_list (set_free_list s o (next (phys_to_block s a))) o' = free_list s o').
    rewrite free_list_set by done. by case_decide.
  - intros o' k b Hne Hk Hb. simpl. rewrite lookup_insert_ne; [done|].
    intros <-. eapply (fls_disjoint _ o o'); [done|congruence|done|done| |done]. set_solver.
  - change (is_list (mem (write_next (set_free_list s o (next (phys_to_block s a))) a 0)) o
      (free_list (set_free_list s o (next (phys_to_block s a))) o) l').
    rewrite free_list_set by done. case_decide; [|done].
    rewrite Hblk. simpl. by apply is_list_frame.
  - simpl. rewrite shiftl_pow2. f_equal. simpl length. lia.
Qed.

(** The [prev] pointer of a traversal that has passed the cells [k]. *)
Definition prev_of (k : list Z) : Z := default 0 (last k).

(** The cell [c] after the prefix [k] is unlinked. *)
Lemma unlink_is_list s fls o k c l :
  lists_inv s fls -> fls !! o = Some (k ++ c :: l) ->
  let s' := unlink s o (prev_of k) (next (phys_to_block s c)) in
  is_list (mem s') o (free_list s' o) (k ++ l) /\
  length (free_lists (zone s')) = S MAX_ORDER /\
  free_pages (zone s') = free_pages (zone s) /\
  (forall o', o' <> o -> free_list s' o' = free_list s o') /\
  (forall a, a ∉ k -> mem s' !! a = mem s !! a).
Proof.
  intros [Hwf Hrep] Ho. pose proof (rep_lists _ _ Hrep _ _ Ho) as Hl.
  pose proof (rep_length _ _ Hrep) as Hlen. pose proof (fls_lookup_le _ _ _ Hwf Ho) as Hle.
  pose proof (order_pages_NoDup _ _ (fls_nodup_list _ _ _ Hwf Ho)) as Hnd.
  unfold unlink, prev_of. destruct k as [|z k' _] using rev_ind; simpl.
  - destruct Hl as (Hh & Hc & n & Hm & Hl).
    assert (next (phys_to_block s c) = n) as -> by (unfold phys_to_block; by rewrite Hm).
    rewrite free_list_set by done. case_decide; [|done].
    split_and!; [done|by simpl; rewrite length_insert|done| |done].
    intros o' Hne. rewrite free_list_set by done. by case_decide.
  - rewrite last_snoc. simpl.
    apply is_list_unlink in Hl as (n & Hm & Hl & (n' & Hm')); [|done].
    assert (z <> 0) as Hz.
    { assert (block_wf o z) as [? _]; [|lia]. eapply fls_block_wf; [done..|set_solver]. }
    rewrite (proj2 (Z.eqb_neq z 0)) by done.
    assert (phys_to_block s c = mkFreeBlock n o) as -> by (unfold phys_to_block; by rewrite Hm).
    assert (phys_to_block s z = mkFreeBlock n' o) as Hz' by (unfold phys_to_block; by rewrite Hm').
    unfold write_next. rewrite Hz'. simpl. split_and!; [done..|].
    intros a Ha. rewrite lookup_insert_ne; [done|]. set_solver.
Qed.

Lemma unlink_lists s fls o k c l :
  lists_inv s fls -> fls !! o = Some (k ++ c :: l) ->
  let s' := add_free_pages (unlink s o (prev_of k) (next (phys_to_block s c)))
              (- Z.shiftl 1 (Z.of_nat o)) in
  lists_inv s' (<[o := k ++ l]> fls) /\ block_wf o c /\
  all_pages fls ≡ₚ block_pages c o ++ all_pages (<[o := k ++ l]> fls).
Proof.
  intros Hinv Ho. pose proof Hinv as [Hwf Hrep].
  destruct (unlink_is_list _ _ _ _ _ _ Hinv Ho) as (Hl & Hlen & Hcnt & Hheads & Hmem).
  destruct (all_pages_insert _ _ _ (k ++ l) Ho) as (rest & HP & HP').
  assert (all_pages fls ≡ₚ block_pages c o ++ all_pages (<[o := k ++ l]> fls)) as HP2.
  { rewrite HP', HP, !order_pages_app, order_pages_cons. solve_Permutation. }
  split; [|split; [eapply fls_block_wf; [done..|set_solver]|done]].
  eapply lists_inv_update; [done|done| | | | | | |].
  - pose proof (fls_blocks _ Hwf _ _ Ho) as HF. rewrite !Forall_app, Forall_cons in *. naive_solver.
  - pose proof (fls_nodup _ Hwf) as Hnd. rewrite HP2 in Hnd. by apply NoDup_app in Hnd as (_ & _ & ?).
  - done.
  - done.
  - intros o' k' a Hne Hk' Ha. apply Hmem.
    intros Hak. eapply (fls_disjoint _ o o'); [done|congruence|done|done| |done]. set_solver.
  - done.
  - simpl. rewrite Hcnt, shiftl_pow2. f_equal. rewrite !length_app. simpl length. lia.
Qed.

Lemma write_next_lists s fls a n :
  lists_inv s fls -> (forall o l, fls !! o = Some l -> a ∉ l) -> lists_inv (write_next s a n) fls.
Proof.
  intros [Hwf Hrep] Ha. split; [done|]. split; [by apply Hrep| |by apply Hrep].
  intros o l Ho. simpl. apply is_list_frame; [by eapply Ha|]. by apply Hrep.
Qed.

Lemma remove_block_loop_lists fuel s fls o target k l :
  lists_inv s fls -> fls !! o = Some (k ++ l) ->
  (length l < fuel)%nat -> target ∉ k ->
  match remove_block_loop fuel s target o (prev_of k) (hd 0 l) with
  | (true, s') => exists k1 k2, k ++ l = k1 ++ target :: k2 /\
      lists_inv s' (<[o := k1 ++ k2]> fls) /\ block_wf o target /\
      all_pages fls ≡ₚ block_pages target o ++ all_pages (<[o := k1 ++ k2]> fls)
  | (false, s') => s' = s /\ target ∉ k ++ l
  end.
Proof.
  intros Hinv Ho Hf Ht. pose proof Hinv as [Hwf Hrep]. revert k l Ho Hf Ht.
  induction fuel as [|fuel IH]; intros k l Ho Hf Ht; [lia|]. simpl.
  destruct l as [|c l]; simpl; [by rewrite app_nil_r|].
  assert (block_wf o c) as [Hc _] by (eapply fls_block_wf; [done..|set_solver]).
  rewrite (proj2 (Z.eqb_neq c 0)) by lia. destruct (Z.eqb_spec c target) as [->|Hne].
  - destruct (unlink_lists _ _ _ _ _ _ Hinv Ho) as (Hinv' & Hc' & HP).
    exists k, l. split; [done|]. split; [|done].
    apply (write_next_lists _ _ target 0) in Hinv'; [done|].
    intros o' l' Hl' Ha. pose proof (fls_nodup _ Hwf) as Hnd. rewrite HP in Hnd.
    apply NoDup_app in Hnd as (_ & Hd & _).
    apply (Hd (target / PAGE_SIZE)); [apply block_pages_head|]. by eapply fls_page_free.
  - specialize (IH (k ++ [c]) l). rewrite <-app_assoc in IH. simpl in IH, Hf.
    unfold prev_of in *. rewrite last_snoc in IH.
    assert (next (phys_to_block s c) = hd 0 l) as ->.
    { pose proof (rep_lists _ _ Hrep _ _ Ho) as Hl.
      apply is_list_suffix in Hl as (q & (-> & _ & n & Hm & Hl) & _).
      unfold phys_to_block. rewrite Hm. simpl. destruct l; [done|]. by destruct Hl. }
    apply IH; [done|lia|set_solver].
Qed.

Lemma remove_block_lists s fls o l target :
  lists_inv s fls -> fls !! o = Some l ->
  match remove_block s target o with
  | (true, s') => exists k1 k2, l = k1 ++ target :: k2 /\
      lists_inv s' (<[o := k1 ++ k2]> fls) /\ block_wf o target /\
      all_pages fls ≡ₚ block_pages target o ++ all_pages (<[o := k1 ++ k2]> fls)
  | (false, s') => s' = s /\ target ∉ l
  end.
Proof.
  intros Hinv Ho. pose proof Hinv as [Hwf Hrep].
  pose proof (rep_lists _ _ Hrep _ _ Ho) as Hl. unfold remove_block.
  assert (free_list s o = hd 0 l) as -> by (destruct l; [done|by destruct Hl]).
  apply (remove_block_loop_lists _ s fls o target [] l); [done..| |set_solver].
  assert (length l <= size (mem s))%nat; [|lia]. eapply is_list_fuel; [done|].
  eapply order_pages_NoDup, fls_nodup_list; done.
Qed.

(** ** Operations against the set of free pages *)

Lemma add_block_inv s P o a :
  phys_inv s P -> (o <= MAX_ORDER)%nat -> block_wf o a -> NoDup (block_pages a o ++ P) ->
  phys_inv (add_block s a o) (block_pages a o ++ P).
Proof.
  intros (fls & Hinv & HP) Ho Ha Hnd. destruct (fls_lookup fls o) as [l Hl]; [by destruct Hinv|done|].
  rewrite HP in Hnd. destruct (add_block_lists _ _ _ _ _ Hinv Hl Ha Hnd) as [Hinv' HP'].
  exists (<[o := a :: l]> fls). split; [done|]. by rewrite HP', HP.
Qed.

Lemma pop_block_inv s P o :
  phys_inv s P -> (o <= MAX_ORDER)%nat ->
  (pop_block s o = (None, s) /\ free_list s o = 0) \/
  (exists a s' P', pop_block s o = (Some a, s') /\ phys_inv s' P' /\ block_wf o a /\
     P ≡ₚ block_pages a o ++ P').
Proof.
  intros (fls & Hinv & HP) Ho. destruct (fls_lookup fls o) as [l Hl]; [by destruct Hinv|done|].
  pose proof (pop_block_lists _ _ _ _ Hinv Hl) as Hpop. destruct l as [|a l']; [by left|right].
  destruct Hpop as (s' & Hpop & Hinv' & Ha & HP'). exists a, s', (all_pages (<[o := l']> fls)).
  split_and!; [done|by exists (<[o := l']> fls)|done|by rewrite HP].
Qed.

Lemma remove_block_inv s P o a :
  phys_inv s P -> (o <= MAX_ORDER)%nat ->
  match remove_block s a o with
  | (true, s') => exists P', phys_inv s' P' /\ block_wf o a /\ P ≡ₚ block_pages a o ++ P'
  | (false, s') => s' = s
  end.
Proof.
  intros (fls & Hinv & HP) Ho. destruct (fls_lookup fls o) as [l Hl]; [by destruct Hinv|done|].
  pose proof (remove_block_lists _ _ _ _ a Hinv Hl) as Hrm.
  destruct (remove_block s a o) as [[] s']; [|by destruct Hrm].
  destruct Hrm as (k1 & k2 & -> & Hinv' & Ha & HP'). exists (all_pages (<[o := k1 ++ k2]> fls)).
  split_and!; [by exists (<[o := k1 ++ k2]> fls)|done|by rewrite HP].
Qed.

Lemma block_size_pow2 o : block_size o = 2 ^ (Z.of_nat o + 12).
Proof. rewrite block_size_eq, Z.pow_add_r by lia. done. Qed.

(** The two halves of a block of order [S o]. *)
Lemma buddy_cases o a :
  a mod block_size o = 0 ->
  (Z.lxor a (block_size o) = a + block_size o /\ a mod block_size (S o) = 0) \/
  (Z.lxor a (block_size o) = a - block_size o /\ (a - block_size o) mod block_size (S o) = 0).
Proof.
  intros Ha. rewrite block_size_S. pose proof (block_size_pos o) as Hpos.
  rewrite block_size_pow2 in *. rewrite lxor_pow2 by lia.
  apply Z.mod_divide in Ha as [q ->]; [|lia].
  destruct (Z.testbit (q * 2 ^ (Z.of_nat o + 12)) (Z.of_nat o + 12)) eqn:E;
    apply (f_equal Z.b2z) in E; rewrite Z.testbit_spec', Z.div_mul in E by lia; simpl in E.
  - right. split; [done|]. apply Z.mod_divide; [lia|]. exists (q / 2).
    assert (q = 2 * (q / 2) + 1) as Hq by div_lia. rewrite Hq at 1. lia.
  - left. split; [done|]. apply Z.mod_divide; [lia|]. exists (q / 2).
    assert (q = 2 * (q / 2)) as Hq by div_lia. rewrite Hq at 1. lia.
Qed.

(** Merging a block with its free buddy gives a well-formed block of the
    next order with the pages of both. *)
Lemma buddy_merge o a :
  block_wf o a -> block_wf o (Z.lxor a (block_size o)) ->
  block_wf (S o) (Z.min a (Z.lxor a (block_size o))) /\
  block_pages (Z.min a (Z.lxor a (block_size o))) (S o) ≡ₚ
    block_pages a o ++ block_pages (Z.lxor a (block_size o)) o.
Proof.
  intros Ha Hb. pose proof (block_size_pos o) as Hpos.
  pose proof (block_wf_page _ _ Ha) as Hpa. pose proof (block_wf_page _ _ Hb) as Hpb.
  unfold block_wf in *. destruct Ha as (Ha1 & Ha2 & Ha3). destruct Hb as (Hb1 & Hb2 & Hb3).
  destruct (buddy_cases o a Ha2) as [[E Hm]|[E Hm]]; rewrite E in *.
  - rewrite Z.min_l by lia. split.
    + split_and!; [lia|done|]. rewrite block_size_S. lia.
    + by rewrite block_pages_split.
  - rewrite Z.min_r by lia. split.
    + split_and!; [lia|done|]. rewrite block_size_S. lia.
    + rewrite block_pages_split by done. replace (a - block_size o + block_size o) with a by lia.
      apply Permutation_app_comm.
Qed.

(** The other half of the block of the next order. *)
Definition buddy (o : nat) (a : Z) : Z :=
  if a mod (2 * (2 ^ Z.of_nat o * 4096)) =? 0 then a + 2 ^ Z.of_nat o * 4096 else a - 2 ^ Z.of_nat o * 4096.

Lemma buddy_xor o a : a mod block_size o = 0 -> Z.lxor a (block_size o) = buddy o a.
Proof.
  intros Ha. pose proof (block_size_pos o). unfold buddy. rewrite <-block_size_eq, <-block_size_S.
  destruct (buddy_cases o a Ha) as [[-> E]|[-> E]]; [by rewrite E|].
  destruct (Z.eqb_spec (a mod block_size (S o)) 0) as [E'|]; [|done]. exfalso. rewrite block_size_S in *.
  apply Z.mod_divide in E as [p Hp]; [|lia]. apply Z.mod_divide in E' as [q Hq]; [|lia].
  assert (2 * (q - p) = 1) by (apply (Z.mul_reg_r _ _ (block_size o)); lia). lia.
Qed.

(** The free lists after a block has been merged into them: as long as its buddy is free, the buddy leaves its list and the
    two are a block of the next order; then the block enters the list of its order. *)
Inductive merged : list (list Z) -> Z -> nat -> list (list Z) -> Prop :=
| merged_stop fls a o l :
    fls !! o = Some l -> o = MAX_ORDER \/ buddy o a ∉ l -> merged fls a o (<[o := a :: l]> fls)
| merged_buddy fls a o k1 k2 fls' :
    (o < MAX_ORDER)%nat -> fls !! o = Some (k1 ++ buddy o a :: k2) ->
    merged (<[o := k1 ++ k2]> fls) (Z.min a (buddy o a)) (S o) fls' -> merged fls a o fls'.

Lemma coalesce_rec_lists fuel : forall s fls a o,
  lists_inv s fls -> (o <= MAX_ORDER <= o + fuel)%nat -> block_wf o a -> NoDup (block_pages a o ++ all_pages fls) ->
  exists fls', merged fls a o fls' /\ lists_inv (coalesce_rec fuel s a o) fls' /\ all_pages fls' ≡ₚ block_pages a o ++ all_pages fls.
Proof.
  induction fuel as [|fuel IH]; intros s fls a o Hinv Ho Ha Hnd;
    (destruct (fls_lookup fls o) as [l Hl]; [by destruct Hinv|lia|]); pose proof (add_block_lists _ _ _ _ _ Hinv Hl Ha Hnd) as [Hadd HPadd];
    cbn [coalesce_rec]; (destruct (Nat.leb_spec MAX_ORDER o); [exists (<[o := a :: l]> fls); split; [by constructor; [|left; lia]|done]|]); [lia|].
  pose proof (remove_block_lists s fls o l (Z.lxor a (block_size o)) Hinv Hl) as Hrm.
  rewrite (buddy_xor o a) in * by apply Ha. destruct (remove_block s _ o) as [[] s'].
  - destruct Hrm as (k1 & k2 & -> & Hinv' & Hb & HP). destruct (buddy_merge o a Ha) as [Hwf Hpages]; rewrite buddy_xor in * by apply Ha; [done|].
    assert (block_pages a o ++ all_pages fls ≡ₚ block_pages (Z.min a (buddy o a)) (S o) ++ all_pages (<[o:=k1 ++ k2]> fls)) as E
      by (by rewrite HP, Hpages, app_assoc).
    rewrite E in Hnd. destruct (IH _ _ _ (S o) Hinv' ltac:(lia) Hwf Hnd) as (fls' & Hm & Hinv2 & HP2).
    exists fls'. split; [by eapply merged_buddy|]. split; [done|]. by rewrite HP2, E.
  - destruct Hrm as [-> Hni]. exists (<[o := a :: l]> fls). split; [by constructor; [|right]|done].
Qed.

Lemma coalesce_lists s fls a o :
  lists_inv s fls -> (o <= MAX_ORDER)%nat -> block_wf o a -> NoDup (block_pages a o ++ all_pages fls) ->
  exists fls', merged fls a o fls' /\ lists_inv (coalesce s a o) fls' /\ all_pages fls' ≡ₚ block_pages a o ++ all_pages fls.
Proof. intros Hinv Ho. apply coalesce_rec_lists; [done|lia]. Qed.

(** ** Carving a range *)

Lemma pos_trailing_zeros_divide p : (2 ^ Z.of_nat (pos_trailing_zeros p) | Z.pos p).
Proof.
  induction p as [p _|p IH|]; simpl pos_trailing_zeros; [apply Z.divide_1_l| |apply Z.divide_1_l].
  rewrite Nat2Z.inj_succ, Z.pow_succ_r by lia. change (Z.pos p~0) with (2 * Z.pos p). by apply Z.mul_divide_mono_l.
Qed.

Lemma pow2_divide o t : (o <= t)%nat -> (2 ^ Z.of_nat o | 2 ^ Z.of_nat t).
Proof.
  intros Hle. exists (2 ^ (Z.of_nat t - Z.of_nat o)).
  rewrite <-Z.pow_add_r by lia. f_equal. lia.
Qed.

Lemma chunk_order_spec a e :
  0 < a -> a mod 4096 = 0 -> e mod 4096 = 0 -> a < e < 2 ^ 64 ->
  let o := chunk_order a (e - a) in
  (o <= MAX_ORDER)%nat /\ block_wf o a /\ a + block_size o <= e.
Proof.
  intros Ha Hma Hme He o. unfold chunk_order in o. cbv zeta in o.
  set (mf := if (e - a) / PAGE_SIZE <=? 1 then _ else _) in o.
  assert (o <= MAX_ORDER /\ o <= trailing_zeros64 (a / PAGE_SIZE) /\ o <= mf)%nat as (H1 & H2 & H3) by lia.
  clearbody o. unfold PAGE_SIZE in *.
  assert (1 <= (e - a) / 4096 < 2 ^ 52) as Hn by div_lia.
  assert (a / 4096 * 4096 = a) as Hpa by div_lia.
  assert (2 ^ Z.of_nat o <= (e - a) / 4096) as Hfit.
  { revert H3. subst mf. destruct (Z.leb_spec ((e - a) / 4096) 1) as [|Hgt]; intros H3.
    - replace o with 0%nat by lia. simpl. lia.
    - unfold leading_zeros64 in H3. rewrite wrap_small in H3 by lia.
      rewrite (proj2 (Z.eqb_neq ((e - a) / 4096 - 1) 0)) in H3 by lia.
      replace (63 - (63 - Z.log2 ((e - a) / 4096 - 1))) with (Z.log2 ((e - a) / 4096 - 1)) in H3 by lia.
      pose proof (Z.log2_nonneg ((e - a) / 4096 - 1)).
      pose proof (Z.log2_spec ((e - a) / 4096 - 1) ltac:(lia)) as [Hlog _].
      assert (2 ^ Z.of_nat o <= 2 ^ Z.log2 ((e - a) / 4096 - 1)); [|lia].
      apply Z.pow_le_mono_r; lia. }
  assert (2 ^ Z.of_nat o | a / 4096) as Hdiv.
  { destruct (a / 4096) as [|p|p] eqn:E; [lia| |lia]. simpl in H2.
    eapply Z.divide_trans; [exact (pow2_divide _ _ H2)|apply pos_trailing_zeros_divide]. }
  rewrite block_size_eq. split; [done|]. split; [|div_lia].
  unfold block_wf. rewrite block_size_eq. split_and!; [done| |div_lia].
  apply Z.mod_divide; [pose proof (Z.pow_pos_nonneg 2 (Z.of_nat o)); lia|].
  rewrite <-Hpa. by apply Z.mul_divide_mono_r.
Qed.

Lemma range_pages_step a e o :
  a mod 4096 = 0 -> a + block_size o <= e ->
  range_pages a e = block_pages a o ++ range_pages (a + block_size o) e.
Proof.
  intros Ha Hle. unfold range_pages, block_pages, PAGE_SIZE. rewrite block_size_eq in *.
  pose proof (Z.pow_nonneg 2 (Z.of_nat o)).
  rewrite Z.div_add by lia. rewrite <-seqZ_app by div_lia. f_equal. div_lia.
Qed.

Lemma range_pages_nil a e : e <= a -> range_pages a e = [].
Proof.
  intros H. unfold range_pages, PAGE_SIZE. assert ((e - a) / 4096 <= 0) by div_lia.
  destruct (decide ((e - a) / 4096 = 0)) as [->|]; [done|]. by rewrite seqZ_nil by lia.
Qed.

(** Every block of [fls'] is a block of [fls] or lies inside [[a, e)]. *)
Definition blocks_from (fls fls' : list (list Z)) (a e : Z) : Prop :=
  forall o l' b, fls' !! o = Some l' -> b ∈ l' ->
    (exists l, fls !! o = Some l /\ b ∈ l) \/ (a <= b /\ b + block_size o <= e).

Lemma carve_loop_lists fuel s fls a e :
  lists_inv s fls -> 0 < a -> a mod 4096 = 0 -> e mod 4096 = 0 -> e < 2 ^ 64 ->
  (e - a) / 4096 < Z.of_nat fuel -> NoDup (range_pages a e ++ all_pages fls) ->
  exists fls', lists_inv (carve_loop fuel s a e) fls' /\
    all_pages fls' ≡ₚ range_pages a e ++ all_pages fls /\ blocks_from fls fls' a e.
Proof.
  revert s fls a. induction fuel as [|fuel IH]; intros s fls a Hinv Ha Hma Hme He Hf Hnd;
    simpl; (destruct (Z.ltb_spec a e); [|exists fls; rewrite range_pages_nil by done;
      split_and!; [done..|]; intros o l b ? ?; eauto]).
  { assert (0 < (e - a) / 4096) by div_lia. lia. }
  pose proof (chunk_order_spec a e Ha Hma Hme ltac:(lia)) as (Ho & Hwf & Hle). cbv zeta in *.
  set (o := chunk_order a (e - a)) in *. clearbody o. pose proof (block_size_pos o) as Hpos.
  rewrite (range_pages_step a e o) in * by done. rewrite <-app_assoc in Hnd.
  destruct (fls_lookup fls o) as [l Hl]; [by destruct Hinv|done|].
  rewrite wrap_small by lia.
  destruct (add_block_lists s fls o l a) as [Hinv' HP']; [done..| |].
  { rewrite (Permutation_app_comm (range_pages _ _)), app_assoc in Hnd.
    by apply NoDup_app in Hnd as (? & _). }
  destruct (IH (add_block s a o) (<[o := a :: l]> fls) (a + block_size o)) as (fls' & Hi & HP & Hb);
    [done|lia| |done|done| | |].
  - rewrite block_size_eq, Z.mod_add by lia. done.
  - rewrite block_size_eq in *. div_lia.
  - assert (range_pages (a + block_size o) e ++ all_pages (<[o := a :: l]> fls) ≡ₚ
      block_pages a o ++ range_pages (a + block_size o) e ++ all_pages fls) as ->; [|done].
    rewrite HP'. solve_Permutation.
  - exists fls'. split; [done|]. split; [rewrite HP, HP'; solve_Permutation|].
    intros o' l' b Hl' Hbl'. destruct (Hb _ _ _ Hl' Hbl') as [(k & Hk & Hbk)|?]; [|right; lia].
    apply list_lookup_insert_Some in Hk as [(-> & <- & _)|(? & Hk)]; [|eauto].
    apply elem_of_cons in Hbk as [->|]; [right; lia|eauto].
Qed.

Lemma carve_range_lists s fls a e :
  lists_inv s fls -> 0 < a -> a mod 4096 = 0 -> e mod 4096 = 0 -> e < 2 ^ 64 ->
  NoDup (range_pages a e ++ all_pages fls) ->
  exists fls', lists_inv (carve_range s a e) fls' /\
    all_pages fls' ≡ₚ range_pages a e ++ all_pages fls /\ blocks_from fls fls' a e.
Proof. intros. apply carve_loop_lists; try done. unfold range_fuel, PAGE_SIZE. lia. Qed.

(** ** Allocation *)

(** The lists do not depend on the reference counts and reservation words. *)
Lemma lists_inv_ext s s' fls : zone s' = zone s -> mem s' = mem s -> lists_inv s fls -> lists_inv s' fls.
Proof.
  intros Hz Hm [Hwf Hrep]. split; [done|].
  unfold free_list in *. split; [rewrite Hz; apply Hrep| |rewrite Hz; apply Hrep].
  intros o l Ho. unfold free_list. rewrite Hz, Hm. by apply Hrep.
Qed.

Lemma phys_inv_ext s s' P : zone s' = zone s -> mem s' = mem s -> phys_inv s P -> phys_inv s' P.
Proof. intros Hz Hm (fls & Hinv & HP). exists fls. split; [by eapply lists_inv_ext|done]. Qed.

Lemma reset_refcount_ext s o a :
  zone (reset_refcount s o a) = zone s /\ mem (reset_refcount s o a) = mem s.
Proof. unfold reset_refcount. repeat case_match; done. Qed.

Lemma block_wf_halves o a : block_wf (S o) a -> block_wf o a /\ block_wf o (a + block_size o).
Proof.
  unfold block_wf. rewrite block_size_S. intros (Ha & Hm & He). pose proof (block_size_pos o).
  apply Z.mod_divide in Hm as [q Hq]; [|lia]. subst a.
  split; (split_and!; [lia| |lia]); apply Z.mod_divide; try lia;
    [exists (2 * q)|exists (2 * q + 1)]; lia.
Qed.

Lemma split_block_inv o m s P phys :
  phys_inv s P -> (o + m <= MAX_ORDER)%nat -> block_wf (o + m) phys ->
  NoDup (block_pages phys (o + m) ++ P) ->
  let '(c, s') := split_block s phys o (o + m) in
  exists P', phys_inv s' P' /\ block_wf o c /\
    block_pages phys (o + m) ++ P ≡ₚ block_pages c o ++ P'.
Proof.
  unfold split_block. replace (o + m - o)%nat with m by lia.
  revert s P phys. induction m as [|m IH]; intros s P phys Hinv Hle Hwf Hnd.
  { simpl. rewrite Nat.add_0_r in *. eauto. }
  rewrite seq_S, rev_app_distr. simpl. rewrite Nat.add_succ_r in *.
  pose proof (block_wf_page _ _ Hwf) as Hpa. destruct (block_wf_halves _ _ Hwf) as [Hlo Hhi].
  pose proof Hhi as (Hc & _ & Hend). pose proof (block_size_pos (o + m)).
  rewrite wrap_small by lia. rewrite block_pages_split in * by done. rewrite <-app_assoc in Hnd.
  assert (NoDup (block_pages (phys + block_size (o + m)) (o + m) ++ block_pages phys (o + m) ++ P)) as Hnd'.
  { assert (block_pages (phys + block_size (o + m)) (o + m) ++ block_pages phys (o + m) ++ P ≡ₚ
      block_pages phys (o + m) ++ block_pages (phys + block_size (o + m)) (o + m) ++ P) as ->; [|done].
    solve_Permutation. }
  assert (phys_inv (add_block s phys (o + m)) (block_pages phys (o + m) ++ P)) as Hinv'.
  { apply add_block_inv; [done|lia|done|]. by apply NoDup_app in Hnd' as (_ & _ & ?). }
  specialize (IH _ _ _ Hinv' ltac:(lia) Hhi Hnd').
  destruct (fold_left _ _ _) as [c s']. destruct IH as (P' & ? & ? & HP'). exists P'.
  split_and!; [done..|]. rewrite <-HP'. solve_Permutation.
Qed.

(** What a successful allocation of a block of order [o] gives. *)
Definition alloc_ok (P : list Z) (o : nat) (a : Z) (s' : PhysState) : Prop :=
  exists P', phys_inv s' P' /\ P ≡ₚ block_pages a o ++ P' /\ block_wf o a /\
    (o = 0%nat -> refcount s' (a / PAGE_SIZE) = 1).

Lemma alloc_ok_reset P P' o a s' :
  phys_inv s' P' -> P ≡ₚ block_pages a o ++ P' -> block_wf o a ->
  alloc_ok P o a (reset_refcount s' o a).
Proof.
  intros Hinv HP Hwf. exists P'. destruct (reset_refcount_ext s' o a) as [Hz Hm].
  split_and!; [by eapply phys_inv_ext|done|done|]. intros ->.
  unfold refcount, reset_refcount, refcount_at. simpl.
  destruct (Z.ltb_spec (a / PAGE_SIZE) REFCOUNT_MAX_PAGES);
    destruct (Z.geb_spec (a / PAGE_SIZE) REFCOUNT_MAX_PAGES); simpl; try done; try lia.
  by rewrite lookup_insert_eq.
Qed.

Lemma alloc_search_inv s P o highers :
  phys_inv s P -> Forall (fun h => (o < h <= MAX_ORDER)%nat) highers ->
  match alloc_search s o highers with
  | (Some a, s') => alloc_ok P o a s'
  | (None, s') => s' = s /\ Forall (fun h => free_list s h = 0) highers
  end.
Proof.
  intros Hinv. induction highers as [|h hs IH]; simpl; intros Hh; [done|].
  apply Forall_cons in Hh as [Hh Hhs].
  destruct (pop_block_inv s P h Hinv) as [[-> Hz]|(a & s' & P' & -> & Hinv' & Hwf & HP)]; [lia| |].
  - specialize (IH Hhs). destruct (alloc_search s o hs) as [[a|] s']; [done|].
    destruct IH. split; [done|]. by constructor.
  - pose proof (phys_inv_nodup _ _ Hinv) as Hnd. rewrite HP in Hnd.
    replace h with (o + (h - o))%nat in * by lia.
    pose proof (split_block_inv o (h - o) s' P' a Hinv' ltac:(lia) Hwf Hnd) as Hsplit.
    destruct (split_block _ _ _ _) as [c s'']. destruct Hsplit as (P'' & Hinv'' & Hc & HP'').
    eapply alloc_ok_reset; [done| |done]. by rewrite HP.
Qed.

Lemma alloc_order_inv s P o :
  phys_inv s P -> (o <= MAX_ORDER)%nat ->
  match alloc_order s o with
  | (Some a, s') => alloc_ok P o a s'
  | (None, s') => s' = s /\ forall h, (o <= h <= MAX_ORDER)%nat -> free_list s h = 0
  end.
Proof.
  intros Hinv Ho. unfold alloc_order. destruct (Nat.ltb_spec MAX_ORDER o); [lia|].
  destruct (pop_block_inv s P o Hinv Ho) as [[-> Hz]|(a & s' & P' & -> & Hinv' & Hwf & HP)];
    [|by eapply alloc_ok_reset].
  pose proof (alloc_search_inv s P o (seq (S o) (MAX_ORDER - o)) Hinv) as Hs.
  destruct (alloc_search _ _ _) as [[a|] s']; [apply Hs|destruct Hs as [-> Hs]];
    try (apply Forall_forall; intros h Hh%elem_of_seq; lia).
  split; [done|]. intros h Hh. destruct (decide (h = o)) as [->|]; [done|].
  rewrite Forall_forall in Hs. apply Hs. apply elem_of_seq. lia.
Qed.

(** ** Freeing *)

Lemma unref_page_ext s pn :
  zone (snd (unref_page s pn)) = zone s /\ mem (snd (unref_page s pn)) = mem s.
Proof. unfold unref_page. by case_match. Qed.

(** The guards of [free_order] in front of the merge. *)
Definition free_allowed (s : PhysState) (a : Z) (o : nat) : Prop :=
  a mod PAGE_SIZE = 0 /\ is_reserved_page s (a / PAGE_SIZE) = false /\
  base (zone s) <= a /\ a + block_size o <= top (zone s).

Lemma free_order_lists s fls a o :
  lists_inv s fls -> (o <= MAX_ORDER)%nat -> block_wf o a -> NoDup (block_pages a o ++ all_pages fls) ->
  free_allowed s a o -> (o = 0%nat -> refcount s (a / PAGE_SIZE) = 1) ->
  exists fls', merged fls a o fls' /\ lists_inv (free_order s a o) fls' /\ all_pages fls' ≡ₚ block_pages a o ++ all_pages fls.
Proof.
  intros Hinv Ho Hwf Hnd (Hm & Hres & Hb & Ht) Hrc. pose proof (block_size_pos o).
  pose proof Hwf as (Ha & _ & Hend).
  unfold free_order. destruct (Nat.ltb_spec MAX_ORDER o); [lia|]. rewrite Hm. simpl.
  rewrite Hres, wrap_small by lia. rewrite (proj2 (Z.ltb_ge _ _)) by lia. simpl.
  destruct (Z.gtb_spec (a + block_size o) (top (zone s))); [lia|].
  destruct (Nat.eqb_spec o 0) as [->|]; [|by apply coalesce_lists].
  destruct (unref_page_ext s (a / PAGE_SIZE)) as [Hz Hme].
  assert (fst (unref_page s (a / PAGE_SIZE)) = true) as Ht1.
  { specialize (Hrc eq_refl). unfold unref_page, refcount in *. case_match; [done|]. cbn [fst]. by rewrite Hrc. }
  destruct (unref_page s (a / PAGE_SIZE)) as [last s1]. cbn [fst snd] in *. subst last.
  apply coalesce_lists; [|lia|done|done]. by eapply lists_inv_ext.
Qed.

Lemma free_order_inv s P a o :
  phys_inv s P -> (o <= MAX_ORDER)%nat -> block_wf o a -> NoDup (block_pages a o ++ P) ->
  free_allowed s a o -> (o = 0%nat -> refcount s (a / PAGE_SIZE) = 1) ->
  phys_inv (free_order s a o) (block_pages a o ++ P).
Proof.
  intros (fls & Hinv & HP) Ho Hwf Hnd Hal Hrc. rewrite HP in Hnd.
  destruct (free_order_lists _ _ _ _ Hinv Ho Hwf Hnd Hal Hrc) as (fls' & _ & Hinv' & HP'). exists fls'. split; [done|]. by rewrite HP', HP.
Qed.

(** In every other case the free lists are left alone. *)
Lemma free_order_skip s a o :
  ~ free_allowed s a o \/ (o = 0%nat /\ refcount s (a / PAGE_SIZE) <> 1) \/ (MAX_ORDER < o)%nat ->
  0 <= a -> a + block_size o < 2 ^ 64 ->
  zone (free_order s a o) = zone s /\ mem (free_order s a o) = mem s.
Proof.
  intros Hno Ha Hend. unfold free_order, free_allowed in *. pose proof (block_size_pos o).
  destruct (Nat.ltb_spec MAX_ORDER o); [done|]. simpl.
  destruct (Z.eqb_spec (a mod PAGE_SIZE) 0); [|done]. simpl.
  destruct (is_reserved_page s (a / PAGE_SIZE)) eqn:Er; [done|].
  rewrite wrap_small by lia.
  destruct (Z.ltb_spec a (base (zone s))); [done|]. simpl.
  destruct (Z.gtb_spec (a + block_size o) (top (zone s))); [done|].
  destruct Hno as [Hno|[[-> Hrc]|?]]; [by destruct Hno| |lia]. simpl.
  destruct (unref_page_ext s (a / PAGE_SIZE)) as [Hz Hme].
  assert (fst (unref_page s (a / PAGE_SIZE)) = false) as Ht1.
  { unfold unref_page, refcount in *. case_match; [done|]. simpl. by apply Z.eqb_neq. }
  destruct (unref_page s (a / PAGE_SIZE)) as [last s1]. simpl in *. by subst last.
Qed.

(** ** Removing a range *)

Section remove_range.
Context (rs re : Z).
Hypothesis Hrs : rs mod 4096 = 0.
Hypothesis Hre : re mod 4096 = 0.
Hypothesis Hrange : 0 <= rs <= re.
Hypothesis Htop : re < 2 ^ 64.

(** Page numbers outside [[rs, re)]. *)
Definition outside (pn : Z) : Prop := ~ (rs / PAGE_SIZE <= pn < re / PAGE_SIZE).
#[local] Instance outside_dec pn : Decision (outside pn).
Proof. unfold outside. apply _. Defined.

Definition avoids (o : nat) (a : Z) : Prop := a + block_size o <= rs \/ re <= a.
#[local] Instance avoids_dec o a : Decision (avoids o a).
Proof. unfold avoids. apply _. Defined.

(** The parts of a block that are carved again. *)
Definition pieces (o : nat) (c : Z) : list (Z * Z) :=
  (if c <? rs then [(c, rs)] else []) ++
  (if c + block_size o >? re then [(re, c + block_size o)] else []).

Definition piece_pages (ps : list (Z * Z)) : list Z := ps ≫= fun p => range_pages (fst p) (snd p).

Lemma piece_pages_cons a e ps : piece_pages ((a, e) :: ps) = range_pages a e ++ piece_pages ps.
Proof. done. Qed.

Lemma range_overlaps_avoids o a :
  range_overlaps a (a + block_size o) rs re = bool_decide (~ avoids o a).
Proof.
  unfold range_overlaps, avoids.
  destruct (Z.ltb_spec a re), (Z.gtb_spec (a + block_size o) rs); simpl; symmetry;
    (apply bool_decide_eq_true || apply bool_decide_eq_false); lia.
Qed.

Lemma filter_all {A} (Q : A -> Prop) `{!forall x, Decision (Q x)} (l : list A) :
  Forall Q l -> filter Q l = l.
Proof. induction 1; [done|]. rewrite filter_cons_True by done. by f_equal. Qed.

Lemma filter_none {A} (Q : A -> Prop) `{!forall x, Decision (Q x)} (l : list A) :
  Forall (fun x => ~ Q x) l -> filter Q l = [].
Proof. induction 1; [done|]. by rewrite filter_cons_False. Qed.

Lemma block_pages_outside o c :
  block_wf o c -> ~ avoids o c -> filter outside (block_pages c o) = piece_pages (pieces o c).
Proof.
  intros Hwf Hov. pose proof (block_wf_page _ _ Hwf) as Hpc. destruct Hwf as (Hc & _ & Hend).
  unfold avoids in Hov. unfold pieces, piece_pages, range_pages, block_pages, PAGE_SIZE.
  rewrite block_size_eq in *.
  pose proof (Z.pow_nonneg 2 (Z.of_nat o) ltac:(lia)) as Hpow. revert Hov Hend Hpow.
  generalize (2 ^ Z.of_nat o). intros n Hov Hend Hpow.
  assert (exists c' r' e', c = c' * 4096 /\ rs = r' * 4096 /\ re = e' * 4096)
    as (c' & r' & e' & Ec & Er & Ee).
  { exists (c / 4096), (rs / 4096), (re / 4096). div_lia. }
  assert (forall x, outside x <-> ~ (r' <= x < e')) as Hout.
  { intros x. unfold outside, PAGE_SIZE. rewrite Er, Ee, !Z.div_mul by lia. done. }
  rewrite Ec, Z.div_mul by lia.
  set (n1 := Z.max 0 (r' - c')). set (n3 := Z.max 0 (c' + n - e')).
  assert (seqZ c' n = seqZ c' n1 ++ seqZ (c' + n1) (n - n1 - n3) ++ seqZ (c' + n - n3) n3) as ->.
  { replace (c' + n - n3) with (c' + n1 + (n - n1 - n3)) by lia.
    rewrite <-!seqZ_app by lia. f_equal. lia. }
  rewrite !filter_app.
  rewrite (filter_all _ (seqZ c' n1))
    by (apply Forall_forall; intros x Hx%elem_of_seqZ; apply Hout; lia).
  rewrite filter_none by (apply Forall_forall; intros x Hx%elem_of_seqZ; rewrite Hout; lia).
  rewrite filter_all by (apply Forall_forall; intros x Hx%elem_of_seqZ; apply Hout; lia).
  rewrite bind_app. simpl. f_equal.
  - subst n1. destruct (Z.ltb_spec (c' * 4096) rs); simpl; [|by rewrite Z.max_l by lia].
    rewrite app_nil_r, Z.div_mul by lia. f_equal. div_lia.
  - subst n3. destruct (Z.gtb_spec (c' * 4096 + n * 4096) re); simpl; [|by rewrite Z.max_l by lia].
    rewrite app_nil_r. f_equal; div_lia.
Qed.

Lemma push_carve_fold tc ps :
  (length tc + length ps <= 64)%nat -> fold_left push_carve ps tc = tc ++ ps.
Proof.
  revert tc. induction ps as [|p ps IH]; simpl; intros tc Hlen; [by rewrite app_nil_r|].
  unfold push_carve at 2. destruct (Nat.ltb_spec (length tc) 64); [|lia].
  rewrite IH by (rewrite length_app; simpl; lia). by rewrite <-app_assoc.
Qed.

Lemma push_pieces tc o c :
  (let tc1 := if c <? rs then push_carve tc (c, rs) else tc in
   if c + block_size o >? re then push_carve tc1 (re, c + block_size o) else tc1) =
  fold_left push_carve (pieces o c) tc.
Proof. unfold pieces. by destruct (c <? rs), (c + block_size o >? re). Qed.

Lemma remove_range_loop_lists fuel s fls o k l tc :
  lists_inv s fls -> fls !! o = Some (k ++ l) -> (length l < fuel)%nat ->
  let '(s', tc') := remove_range_loop fuel s rs re o (prev_of k) (hd 0 l) tc in
  let l' := filter (fun a => ~ avoids o a) l in
  let fls' := <[o := k ++ filter (avoids o) l]> fls in
  lists_inv s' fls' /\ tc' = fold_left push_carve (l' ≫= pieces o) tc /\
  all_pages fls ≡ₚ order_pages o l' ++ all_pages fls'.
Proof.
  revert s fls k l tc. induction fuel as [|fuel IH]; intros s fls k l tc Hinv Ho Hf; [lia|].
  pose proof Hinv as [Hwf Hrep]. cbn [remove_range_loop].
  destruct l as [|c l]; [simpl; by rewrite list_insert_id|].
  cbn [hd] in *. assert (block_wf o c) as Hc by (eapply fls_block_wf; [done..|set_solver]).
  pose proof Hc as (Hc0 & _ & Hc1). pose proof (block_size_pos o) as Hpos.
  rewrite (proj2 (Z.eqb_neq c 0)) by lia. rewrite wrap_small by lia.
  rewrite range_overlaps_avoids, push_pieces.
  assert (next (phys_to_block s c) = hd 0 l) as Hnx.
  { pose proof (rep_lists _ _ Hrep _ _ Ho) as Hl.
    apply is_list_suffix in Hl as (q & (-> & _ & n & Hm & Hl) & _).
    unfold phys_to_block. rewrite Hm. simpl. destruct l; [done|]. by destruct Hl. }
  simpl in Hf. case_bool_decide as Hav.
  - destruct (unlink_lists _ _ _ _ _ _ Hinv Ho) as (Hinv' & _ & HP). rewrite Hnx in *.
    rewrite (filter_cons_True (fun a => ~ avoids o a)), (filter_cons_False (avoids o)) by done.
    specialize (IH _ _ k l (fold_left push_carve (pieces o c) tc) Hinv').
    rewrite list_lookup_insert_eq in IH by by eapply lookup_lt_Some.
    specialize (IH eq_refl ltac:(lia)). destruct (remove_range_loop _ _ _ _ _ _ _ _) as [s' tc'].
    rewrite list_insert_insert_eq in IH. destruct IH as (Hi & -> & HP').
    split_and!; [done|by rewrite bind_cons, fold_left_app|].
    by rewrite HP, HP', order_pages_cons, app_assoc.
  - assert (avoids o c) as Hav' by (destruct (decide (avoids o c)); tauto).
    rewrite (filter_cons_False (fun a => ~ avoids o a)), (filter_cons_True (avoids o)) by auto.
    rewrite Hnx. specialize (IH s fls (k ++ [c]) l tc Hinv).
    unfold prev_of in *. rewrite last_snoc in IH. rewrite <-!app_assoc in IH. simpl in IH.
    by apply IH; [|lia].
Qed.

(** At most one block of a list contains a given page, so at most two
    blocks are cut and [to_carve] never overflows. *)
Lemma page_in_one_block o l pn :
  NoDup (order_pages o l) -> (length (filter (fun c => pn ∈ block_pages c o) l) <= 1)%nat.
Proof.
  induction l as [|c l IH]; [simpl; lia|]. rewrite order_pages_cons.
  intros (_ & Hd & Hnd)%NoDup_app. rewrite filter_cons. case_decide as Hin; [|auto].
  rewrite filter_none; [simpl; lia|]. apply Forall_forall. intros b Hb Hpn.
  apply (Hd pn Hin). apply elem_of_order_pages. eauto.
Qed.

Lemma pieces_length o l :
  Forall (block_wf o) l -> Forall (fun a => ~ avoids o a) l -> NoDup (order_pages o l) ->
  (length (l ≫= pieces o) <= 2)%nat.
Proof.
  intros Hwf Hav Hnd.
  pose proof (page_in_one_block o l (rs / 4096 - 1) Hnd) as HL.
  pose proof (page_in_one_block o l (re / 4096) Hnd) as HR.
  enough (length (l ≫= pieces o) <= length (filter (fun c => (rs / 4096 - 1)%Z ∈ block_pages c o) l)
    + length (filter (fun c => (re / 4096)%Z ∈ block_pages c o) l))%nat by lia.
  clear HL HR Hnd. induction l as [|c l IH]; [simpl; lia|].
  apply Forall_cons in Hwf as [Hc Hwf]. apply Forall_cons in Hav as [Hav Havs].
  specialize (IH Hwf Havs). rewrite bind_cons, length_app, !filter_cons.
  pose proof (block_wf_page _ _ Hc) as Hpc. destruct Hc as (Hc0 & _ & Hc1).
  unfold avoids in Hav. unfold pieces at 1. rewrite length_app. rewrite block_size_eq in *.
  assert (c < rs -> (rs / 4096 - 1)%Z ∈ block_pages c o) as HL.
  { intros. apply elem_of_block_pages. unfold PAGE_SIZE.
    revert Hav. generalize (2 ^ Z.of_nat o). intros. div_lia. }
  assert (re < c + 2 ^ Z.of_nat o * 4096 -> (re / 4096)%Z ∈ block_pages c o) as HR.
  { intros ?. apply elem_of_block_pages. unfold PAGE_SIZE.
    revert Hav H. generalize (2 ^ Z.of_nat o). intros. div_lia. }
  destruct (Z.ltb_spec c rs), (Z.gtb_spec (c + 2 ^ Z.of_nat o * 4096) re); simpl;
    repeat case_decide; simpl; solve [lia|tauto].
Qed.

Lemma order_pages_outside o l :
  Forall (block_wf o) l -> Forall (fun a => ~ avoids o a) l ->
  filter outside (order_pages o l) = piece_pages (l ≫= pieces o).
Proof.
  induction l as [|c l IH]; [done|]. intros [Hc Hwf]%Forall_cons [Hav Havs]%Forall_cons.
  rewrite order_pages_cons, filter_app, block_pages_outside, IH by done.
  unfold piece_pages. by rewrite bind_cons, bind_app.
Qed.

Definition piece_ok (p : Z * Z) : Prop :=
  0 < fst p /\ fst p mod 4096 = 0 /\ snd p mod 4096 = 0 /\ snd p < 2 ^ 64 /\
  (snd p <= rs \/ re <= fst p).

Lemma pieces_ok o c : block_wf o c -> ~ avoids o c -> Forall piece_ok (pieces o c).
Proof.
  intros Hc Hav. pose proof (block_wf_page _ _ Hc) as Hpc. destruct Hc as (Hc0 & _ & Hc1).
  unfold avoids in Hav. unfold pieces, piece_ok. apply Forall_app. split.
  - destruct (c <? rs); constructor; [|constructor]. simpl. split_and!; (done || lia).
  - destruct (Z.gtb_spec (c + block_size o) re); constructor; [|constructor]. simpl.
    rewrite block_size_eq, Z.mod_add by lia. rewrite block_size_eq in *. split_and!; (done || lia).
Qed.

(** Carving the recorded parts adds their pages; the new blocks avoid the range. *)
Lemma carve_all_lists s fls ps :
  lists_inv s fls -> Forall piece_ok ps -> NoDup (piece_pages ps ++ all_pages fls) ->
  exists fls', lists_inv (carve_all s ps) fls' /\
    all_pages fls' ≡ₚ piece_pages ps ++ all_pages fls /\
    (forall o l' b, fls' !! o = Some l' -> b ∈ l' ->
       (exists l, fls !! o = Some l /\ b ∈ l) \/ avoids o b).
Proof.
  revert s fls. induction ps as [|[a e] ps IH]; intros s fls Hinv Hps Hnd.
  { exists fls. split_and!; [done..|eauto]. }
  apply Forall_cons in Hps as [(Ha & Hma & Hme & He & Hout) Hps].
  cbn [fst snd] in *. rewrite piece_pages_cons in *. rewrite <-app_assoc in Hnd.
  assert (NoDup (piece_pages ps ++ range_pages a e ++ all_pages fls)) as Hnd'.
  { assert (piece_pages ps ++ range_pages a e ++ all_pages fls ≡ₚ
      range_pages a e ++ piece_pages ps ++ all_pages fls) as ->; [solve_Permutation|done]. }
  destruct (carve_range_lists s fls a e) as (fls1 & Hi1 & HP1 & Hb1); [done..| |].
  { by apply NoDup_app in Hnd' as (_ & _ & ?). }
  destruct (IH (carve_range s a e) fls1) as (fls' & Hi & HP & Hb); [done|done|by rewrite HP1|].
  exists fls'. split; [done|]. split.
  - rewrite HP, HP1. solve_Permutation.
  - intros o l' b Hl' Hbl'. destruct (Hb _ _ _ Hl' Hbl') as [(l1 & Hl1 & Hbl1)|?]; [|by right].
    destruct (Hb1 _ _ _ Hl1 Hbl1) as [?|?]; [by left|right; unfold avoids; lia].
Qed.

Lemma remove_range_lists s fls o :
  lists_inv s fls -> (o <= MAX_ORDER)%nat ->
  exists fls', lists_inv (remove_range s rs re o) fls' /\
    filter outside (all_pages fls') ≡ₚ filter outside (all_pages fls) /\
    (forall o' l' b, fls' !! o' = Some l' -> b ∈ l' -> avoids o' b \/
       (o' <> o /\ exists l, fls !! o' = Some l /\ b ∈ l)).
Proof.
  intros Hinv Ho. pose proof Hinv as [Hwf Hrep].
  destruct (fls_lookup fls o Hwf Ho) as [l Hl]. unfold remove_range.
  pose proof (rep_lists _ _ Hrep _ _ Hl) as Hlist.
  pose proof (fls_nodup_list _ _ _ Hwf Hl) as Hndl.
  assert (free_list s o = hd 0 l) as -> by (destruct l; [done|by destruct Hlist]).
  pose proof (remove_range_loop_lists (S (size (mem s))) s fls o [] l [] Hinv Hl) as Hloop.
  change (prev_of []) with 0 in Hloop. cbv zeta in Hloop.
  destruct (remove_range_loop _ _ _ _ _ _ _ _) as [s1 tc].
  set (l1 := filter (fun a => ~ avoids o a) l) in *. set (l2 := filter (avoids o) l) in *.
  destruct Hloop as (Hinv1 & -> & HP).
  { assert (length l <= size (mem s))%nat; [|lia].
    eapply is_list_fuel; [done|]. by eapply order_pages_NoDup. }
  assert (Forall (block_wf o) l1) as Hwf1 by (apply Forall_forall; intros x [_ Hx]%list_elem_of_filter; by eapply fls_block_wf).
  assert (Forall (fun a => ~ avoids o a) l1) as Hav1 by (apply Forall_forall; by intros x [? _]%list_elem_of_filter).
  assert (NoDup (order_pages o l1 ++ all_pages (<[o := l2]> fls))) as Hnd.
  { rewrite <-HP. apply Hwf. }
  assert (NoDup (order_pages o l1)) as Hnd1 by by apply NoDup_app in Hnd as (? & _).
  rewrite push_carve_fold by (pose proof (pieces_length o l1 Hwf1 Hav1 Hnd1); simpl; lia).
  simpl. destruct (carve_all_lists s1 (<[o := l2]> fls) (l1 ≫= pieces o)) as (fls' & Hi & HP' & Hb).
  - done.
  - apply Forall_bind. rewrite Forall_forall in *. intros c Hc. apply pieces_ok; auto.
  - rewrite <-order_pages_outside by done.
    apply NoDup_app in Hnd as (_ & Hd & Hnd2). apply NoDup_app.
    split_and!; [by apply NoDup_filter| |done]. intros x [_ Hx]%list_elem_of_filter. auto.
  - exists fls'. split; [done|]. split.
    + rewrite HP', <-order_pages_outside, filter_app by done.
      rewrite HP, filter_app.
      rewrite (filter_all outside (filter outside _)); [done|].
      apply Forall_forall. by intros x [? _]%list_elem_of_filter.
    + intros o' l' b Hl' Hbl'. destruct (Hb _ _ _ Hl' Hbl') as [(k & Hk & Hbk)|?]; [|by left].
      apply list_lookup_insert_Some in Hk as [(-> & <- & _)|(? & Hk)]; [left|right; eauto].
      by apply list_elem_of_filter in Hbk as [? _].
Qed.

Lemma avoids_outside o b pn :
  block_wf o b -> avoids o b -> pn ∈ block_pages b o -> outside pn.
Proof.
  intros Hb Hav Hpn%elem_of_block_pages. pose proof (block_wf_page _ _ Hb) as Hpb.
  unfold avoids, outside, PAGE_SIZE in *. rewrite block_size_eq in *. revert Hav Hpn.
  generalize (2 ^ Z.of_nat o). intros. div_lia.
Qed.

Lemma remove_range_orders_inv s P k :
  phys_inv s P -> (k <= S MAX_ORDER)%nat ->
  exists fls, lists_inv (fold_left (fun s o => remove_range s rs re o) (seq 0 k) s) fls /\
    filter outside (all_pages fls) ≡ₚ filter outside P /\
    (forall o l b, (o < k)%nat -> fls !! o = Some l -> b ∈ l -> avoids o b).
Proof.
  intros (fls0 & Hinv0 & HP0). induction k as [|k IH]; intros Hk.
  { exists fls0. simpl. rewrite HP0. split_and!; [done..|lia]. }
  destruct IH as (fls & Hinv & HP & Hav); [lia|]. rewrite seq_S, fold_left_app. simpl.
  destruct (remove_range_lists _ fls k Hinv) as (fls' & Hinv' & HP' & Hb); [lia|].
  exists fls'. split; [done|]. split; [by rewrite HP', HP|].
  intros o l b Ho Hl Hbl. destruct (Hb _ _ _ Hl Hbl) as [?|(Hne & k' & Hk' & Hbk)]; [done|].
  eapply Hav; [lia|done..].
Qed.

Lemma remove_range_all_orders_inv s P :
  phys_inv s P -> phys_inv (remove_range_all_orders s rs re) (filter outside P).
Proof.
  intros Hinv. destruct (remove_range_orders_inv s P (S MAX_ORDER) Hinv) as (fls & Hi & HP & Hav); [lia|].
  exists fls. split; [done|]. rewrite <-HP. rewrite filter_all; [done|].
  apply Forall_forall. intros pn (o & l & a & Ho & Ha & Hpn)%elem_of_all_pages.
  assert (o <= MAX_ORDER)%nat by (eapply fls_lookup_le; [by destruct Hi|done]).
  eapply avoids_outside; [|eapply Hav; [|done..]; lia|done].
  eapply fls_block_wf; [by destruct Hi|done..].
Qed.
End remove_range.

#[export] Existing Instance outside_dec.

(** ** Alignment *)

Lemma align_down_page x : 0 <= x < 2 ^ 64 -> align_down x PAGE_SIZE = x - x mod 4096.
Proof. intros Hx. unfold align_down, PAGE_SIZE. by apply (land_not64 x 12); lia. Qed.

Lemma align_up_page x :
  0 <= x -> align_up x PAGE_SIZE = Z.min (x + 4095) (2 ^ 64 - 1) - Z.min (x + 4095) (2 ^ 64 - 1) mod 4096.
Proof. intros Hx. unfold align_up, saturating_add, PAGE_SIZE. apply (land_not64 _ 12); lia. Qed.

Lemma reserve_bounds start n :
  0 <= start < 2 ^ 64 -> 0 <= n -> n * 4096 < 2 ^ 64 ->
  let rs := align_down start PAGE_SIZE in
  let re := align_up (saturating_add 64 start (wrap 64 (n * PAGE_SIZE))) PAGE_SIZE in
  rs mod 4096 = 0 /\ re mod 4096 = 0 /\ 0 <= rs <= re /\ re < 2 ^ 64.
Proof.
  intros Hs Hn Hn2. cbv zeta. rewrite (wrap_small 64 (n * PAGE_SIZE)) by (unfold PAGE_SIZE; lia).
  unfold saturating_add. rewrite align_down_page, align_up_page by (unfold PAGE_SIZE; lia).
  unfold PAGE_SIZE. div_lia.
Qed.
