(* ===== verification/PhysSpec.v ===== *)
(** Correctness of the physical page allocator: the public operations of
    [Phys] against the set of free pages, initialisation included. *)
From stdpp Require Import base tactics numbers list gmap sorting.
From Stdlib Require Import ZArith Lia.
From S2P Require Import Prelude Phys PhysInv.

Local Open Scope Z_scope.

(** ** Frame: what the list operations leave alone *)

(** Everything of the state but the lists, the memory and the counters. *)
Definition statics (s : PhysState) :=
  (REFCOUNTS s, INITIALIZED s,
   (BOOTINFO_RESERVED_PN s, BOOTINFO_RESERVED_PAGES s, KERNEL_RESERVED_PN s, KERNEL_RESERVED_PAGES s),
   (base (zone s), top (zone s))).

Lemma statics_bounds s s' :
  statics s' = statics s -> base (zone s') = base (zone s) /\ top (zone s') = top (zone s).
Proof. unfold statics. by intros [=]. Qed.

Lemma unlink_statics s o p n : statics (unlink s o p n) = statics s.
Proof. unfold unlink. by case_match. Qed.

Lemma pop_block_statics s o : statics (snd (pop_block s o)) = statics s.
Proof. unfold pop_block. by case_match. Qed.

Lemma remove_block_statics s t o : statics (snd (remove_block s t o)) = statics s.
Proof.
  unfold remove_block. generalize (S (size (mem s))) as fuel, 0 as prev, (free_list s o) as curr.
  induction fuel as [|fuel IH]; intros prev curr; simpl; [done|].
  repeat case_match; simpl; [done| |apply IH]. exact (unlink_statics s o prev _).
Qed.

Lemma carve_range_statics s a e : statics (carve_range s a e) = statics s.
Proof.
  unfold carve_range. generalize (range_fuel a e) as fuel. intros fuel. revert s a.
  induction fuel as [|fuel IH]; intros s a; simpl; [done|]. case_match; [|done]. by rewrite IH.
Qed.

Lemma coalesce_statics s a o : statics (coalesce s a o) = statics s.
Proof.
  unfold coalesce. generalize (MAX_ORDER - o)%nat as fuel. intros fuel. revert s a o.
  induction fuel as [|fuel IH]; intros s a o; cbn [coalesce_rec]; [by case_match|].
  case_match; [done|].
  pose proof (remove_block_statics s (Z.lxor a (block_size o)) o) as Hrm.
  destruct (remove_block _ _ _) as [[] s1]; simpl in Hrm; [by rewrite IH|done].
Qed.

Lemma carve_all_statics s tc : statics (carve_all s tc) = statics s.
Proof.
  unfold carve_all. revert s. induction tc as [|[x y] tc IH]; intros s; simpl; [done|].
  by rewrite IH, carve_range_statics.
Qed.

Lemma remove_range_loop_statics fuel s a e o prev curr tc :
  statics (fst (remove_range_loop fuel s a e o prev curr tc)) = statics s.
Proof.
  revert s prev curr tc. induction fuel as [|fuel IH]; intros s prev curr tc; cbn [remove_range_loop]; [done|].
  case_match; [done|]. case_match; [|apply IH].
  rewrite IH. exact (unlink_statics s o prev _).
Qed.

Lemma remove_range_statics s a e o : statics (remove_range s a e o) = statics s.
Proof.
  unfold remove_range. pose proof (remove_range_loop_statics (S (size (mem s))) s a e o 0 (free_list s o) []) as H.
  destruct (remove_range_loop _ _ _ _ _ _ _ _) as [s1 tc]. simpl in H. by rewrite carve_all_statics.
Qed.

Lemma remove_range_all_orders_statics s a e : statics (remove_range_all_orders s a e) = statics s.
Proof.
  unfold remove_range_all_orders. generalize (seq 0 (S MAX_ORDER)) as os. intros os. revert s.
  induction os as [|o os IH]; intros s; simpl; [done|]. by rewrite IH, remove_range_statics.
Qed.

Create Rewrite HintDb phys.
#[export] Hint Rewrite unlink_statics pop_block_statics remove_block_statics carve_range_statics
  coalesce_statics remove_range_statics remove_range_all_orders_statics : phys.

Lemma is_reserved_page_statics s s' pn :
  statics s' = statics s -> is_reserved_page s' pn = is_reserved_page s pn.
Proof. unfold statics, is_reserved_page. intros [=]. congruence. Qed.

(** ** Initialisation *)

Lemma carve_range_inv s P a e :
  phys_inv s P -> 0 < a -> a mod 4096 = 0 -> e mod 4096 = 0 -> e < 2 ^ 64 ->
  NoDup (range_pages a e ++ P) -> phys_inv (carve_range s a e) (range_pages a e ++ P).
Proof.
  intros (fls & Hinv & HP) Ha Hma Hme He Hnd. rewrite HP in *.
  destruct (carve_range_lists s fls a e) as (fls' & Hi & HP' & _); [done..|].
  exists fls'. split; [done|]. by rewrite HP'.
Qed.

(** The test of the region walk: neither reserved nor in an excluded range. *)
Definition page_free (s : PhysState) (excl : list (Z * Z)) (pn : Z) : bool :=
  negb (is_reserved_page s pn) && negb (is_excluded (pn * PAGE_SIZE) excl).

Definition free_part (s : PhysState) (excl : list (Z * Z)) (l : list Z) : list Z :=
  filter (fun pn => page_free s excl pn = true) l.

Lemma free_part_statics s s' excl l :
  statics s' = statics s -> free_part s' excl l = free_part s excl l.
Proof.
  intros Hs. unfold free_part. apply list_filter_iff. intros pn. unfold page_free.
  by rewrite (is_reserved_page_statics s s').
Qed.

Lemma free_part_cons s excl pn l :
  free_part s excl (pn :: l) =
  if page_free s excl pn then pn :: free_part s excl l else free_part s excl l.
Proof. unfold free_part. rewrite filter_cons. by destruct (page_free s excl pn). Qed.

Lemma range_pages_snoc a e :
  a mod 4096 = 0 -> e mod 4096 = 0 -> a <= e ->
  range_pages a (e + 4096) = range_pages a e ++ [e / 4096].
Proof.
  intros Ha He Hle. unfold range_pages, PAGE_SIZE.
  replace ((e + 4096 - a) / 4096) with ((e - a) / 4096 + 1) by div_lia.
  rewrite seqZ_app by div_lia. f_equal. change (seqZ ?x 1) with [Z.of_nat 0 + x]. f_equal. div_lia.
Qed.

Lemma range_pages_cons a e :
  a mod 4096 = 0 -> a + 4096 <= e -> range_pages a e = a / 4096 :: range_pages (a + 4096) e.
Proof. intros Ha He. by rewrite (range_pages_step a e 0). Qed.

Lemma walk_region_inv fuel s P excl addr reg_end rs (in_range : bool) :
  phys_inv s P -> 0 <= addr <= reg_end -> addr mod 4096 = 0 -> reg_end mod 4096 = 0 ->
  reg_end < 2 ^ 64 -> (reg_end - addr) / 4096 < Z.of_nat fuel ->
  (in_range = true -> 0 < rs <= addr /\ rs mod 4096 = 0) ->
  let pages := (if in_range then range_pages rs addr else []) ++
    free_part s excl (range_pages addr reg_end) ++ P in
  NoDup pages ->
  statics (walk_region fuel s excl addr reg_end rs in_range) = statics s /\
  phys_inv (walk_region fuel s excl addr reg_end rs in_range) pages.
Proof.
  revert s P addr rs in_range. induction fuel as [|fuel IH]; intros s P addr rs in_range
    Hinv Haddr Hma Hme He Hf Hrs pages Hnd; [div_lia|].
  cbn [walk_region]. subst pages. destruct (Z.ltb_spec addr reg_end) as [Hlt|Hge].
  2:{ replace addr with reg_end in * by lia. rewrite (range_pages_nil reg_end reg_end) in * by lia.
      simpl in *. destruct in_range; [|done]. destruct Hrs as [Hrs Hmrs]; [done|].
      split; [by autorewrite with phys|]. by apply carve_range_inv; [|lia|..]. }
  assert (addr + 4096 <= reg_end) by div_lia. rewrite wrap_small by (unfold PAGE_SIZE; lia).
  change PAGE_SIZE with 4096.
  assert (negb (is_reserved_page s (addr / 4096)) && negb (is_excluded addr excl)
    = page_free s excl (addr / 4096)) as ->.
  { unfold page_free, PAGE_SIZE. do 3 f_equal. div_lia. }
  rewrite (range_pages_cons addr reg_end), free_part_cons in Hnd |- * by lia.
  assert (0 < addr \/ page_free s excl (addr / 4096) = false) as Hpos.
  { destruct (decide (addr = 0)) as [->|]; [by right|left; lia]. }
  destruct (page_free s excl (addr / 4096)) eqn:Hok, in_range; cbn [negb andb].
  - (* the run goes on *)
    destruct Hrs as [Hrs Hmrs]; [done|].
    specialize (IH s P (addr + 4096) rs true). cbv zeta in IH.
    rewrite range_pages_snoc, <-app_assoc in IH by lia. apply IH; (done || div_lia).
  - (* a run starts *)
    specialize (IH s P (addr + 4096) addr true). cbv zeta in IH.
    rewrite range_pages_snoc, (range_pages_nil addr addr) in IH by lia.
    destruct Hpos; [|done]. apply IH; (done || div_lia).
  - (* a run ends *)
    destruct Hrs as [Hrs Hmrs]; [done|].
    assert (statics (carve_range s rs addr) = statics s) as Hst by by autorewrite with phys.
    assert (free_part s excl (range_pages (addr + 4096) reg_end) ++ range_pages rs addr ++ P ≡ₚ
      range_pages rs addr ++ free_part s excl (range_pages (addr + 4096) reg_end) ++ P) as Heq
      by solve_Permutation.
    specialize (IH (carve_range s rs addr) (range_pages rs addr ++ P) (addr + 4096) rs false).
    cbv zeta in IH. rewrite (free_part_statics s), Hst in IH by done. simpl in IH. rewrite Heq in IH.
    apply IH; try (done || div_lia).
    apply carve_range_inv; try (done || lia). rewrite <-Heq in Hnd. by apply NoDup_app in Hnd as (_ & _ & ?).
  - apply IH; (done || div_lia).
Qed.

Definition region_pages (r : Z * Z) : list Z :=
  range_pages (fst (region_bounds r)) (snd (region_bounds r)).

(** A region descriptor is a pair of 64-bit words. *)
Definition region_ok (r : Z * Z) : Prop := 0 <= fst r < 2 ^ 64 /\ 0 <= snd r < 2 ^ 64.

Lemma region_bounds_ok r :
  region_ok r ->
  let '(a, b) := region_bounds r in
  0 <= a /\ a mod 4096 = 0 /\ b mod 4096 = 0 /\ b < 2 ^ 64.
Proof.
  intros [Hs Hl]. unfold region_bounds, saturating_add.
  rewrite align_up_page, align_down_page by lia. div_lia.
Qed.

Lemma add_region_inv excl s P r :
  phys_inv s P -> region_ok r -> NoDup (free_part s excl (region_pages r) ++ P) ->
  statics (add_region excl s r) = statics s /\
  phys_inv (add_region excl s r) (free_part s excl (region_pages r) ++ P).
Proof.
  intros Hinv Hr%region_bounds_ok Hnd. unfold add_region, region_pages in *.
  destruct (region_bounds r) as [a b]. cbn [fst snd] in *. destruct Hr as (Ha & Hma & Hmb & Hb).
  destruct (Z.geb_spec a b); [by rewrite range_pages_nil in * by lia|].
  apply (walk_region_inv _ s P excl a b 0 false); try (done || lia).
  unfold range_fuel, PAGE_SIZE. lia.
Qed.

Lemma free_part_app s excl l1 l2 :
  free_part s excl (l1 ++ l2) = free_part s excl l1 ++ free_part s excl l2.
Proof. apply filter_app. Qed.

Lemma add_regions_inv excl regions s P :
  phys_inv s P -> Forall region_ok regions ->
  NoDup (free_part s excl (regions ≫= region_pages) ++ P) ->
  statics (fold_left (add_region excl) regions s) = statics s /\
  phys_inv (fold_left (add_region excl) regions s)
    (free_part s excl (regions ≫= region_pages) ++ P).
Proof.
  revert s P. induction regions as [|r rs IH]; intros s P Hinv Hok Hnd; [done|].
  apply Forall_cons in Hok as [Hr Hok]. rewrite bind_cons, free_part_app in *. cbn [fold_left].
  assert ((free_part s excl (region_pages r) ++ free_part s excl (rs ≫= region_pages)) ++ P ≡ₚ
    free_part s excl (rs ≫= region_pages) ++ free_part s excl (region_pages r) ++ P) as Heq
    by solve_Permutation.
  rewrite Heq in Hnd |- *.
  destruct (add_region_inv excl s P r) as [Hst Hinv']; [done..| |].
  { by apply NoDup_app in Hnd as (_ & _ & ?). }
  rewrite <-Hst, <-!(free_part_statics _ _ excl (rs ≫= region_pages) Hst) in *. by apply IH.
Qed.

Lemma empty_zone_inv s regions : phys_inv (set_zone s (empty_zone regions)) [].
Proof.
  exists (replicate (S MAX_ORDER) []). unfold empty_zone.
  destruct (zone_bounds regions) as [mn mx].
  assert (forall o (l : list Z), replicate (S MAX_ORDER) [] !! o = Some l -> l = []) as Hnil.
  { intros o l [? _]%lookup_replicate. congruence. }
  split; [|done]. split; split; try done.
  - intros o l Ho. by rewrite (Hnil o l Ho).
  - constructor.
  - intros o l Ho. pose proof Ho as [_ Hlt]%lookup_replicate. rewrite (Hnil o l Ho).
    change (default 0 (replicate (S MAX_ORDER) 0 !! o) = 0). by rewrite (lookup_replicate_2 (S MAX_ORDER) 0 o Hlt).
Qed.

Definition bootinfo_pages : Z := (SIZEOF_BOOTINFO + PAGE_SIZE - 1) / PAGE_SIZE.

(** The final [remove_range] over the BootInfo pages removes nothing: the
    walk has already skipped them as reserved. *)
Lemma free_part_outside_bootinfo s excl l bip ks ksz s' :
  0 <= bip -> bip + 4096 < 2 ^ 64 ->
  (forall pn, is_reserved_page s' pn = is_reserved_page (record_reservations s bip ks ksz) pn) ->
  let bb := align_down bip PAGE_SIZE in
  let be := wrap 64 (bb + wrap 64 (bootinfo_pages * PAGE_SIZE)) in
  bb mod 4096 = 0 /\ be mod 4096 = 0 /\ 0 <= bb <= be /\ be < 2 ^ 64 /\
  filter (outside bb be) (free_part s' excl l) = free_part s' excl l.
Proof.
  intros Hb0 Hb Hst bb be.
  assert (bb = bip - bip mod 4096) as Ebb by (apply align_down_page; lia).
  assert (be = bb + 4096) as Ebe.
  { unfold be. change (wrap 64 (bootinfo_pages * PAGE_SIZE)) with 4096. apply wrap_small. div_lia. }
  split_and!; [div_lia..|]. apply filter_all, Forall_forall. intros pn [Hpn _]%list_elem_of_filter.
  unfold page_free in Hpn. apply andb_true_iff in Hpn as [Hpn%negb_true_iff _].
  rewrite Hst in Hpn.
  unfold outside. intros Hin. unfold is_reserved_page in Hpn.
  assert (in_reservation pn (bb / PAGE_SIZE) 1 = true) as Hr.
  { unfold in_reservation, U64_MAX, PAGE_SIZE in *.
    repeat (apply andb_true_iff; split); try done;
      [apply negb_true_iff, Z.eqb_neq|apply Z.leb_le|apply Z.ltb_lt]; div_lia. }
  replace (BOOTINFO_RESERVED_PN _) with (bb / PAGE_SIZE) in Hpn
    by (unfold record_reservations; by destruct (ksz >? 0)).
  replace (BOOTINFO_RESERVED_PAGES _) with 1 in Hpn
    by (unfold record_reservations; by destruct (ksz >? 0)).
  by rewrite Hr, orb_true_r in Hpn.
Qed.

Lemma finish_init_spec s excl l (b t : Z) :
  phys_inv s (free_part s excl l) -> base (zone s) = b -> top (zone s) = t ->
  phys_inv (finish_init s) (free_part (finish_init s) excl l) /\
  INITIALIZED (finish_init s) = true /\
  total_pages (zone (finish_init s)) = free_pages (zone (finish_init s)) /\
  (base (zone (finish_init s)), top (zone (finish_init s))) = (b, t).
Proof.
  intros (fls & [Hwf [H1 H2 H3]] & HP) <- <-. split; [|done].
  exists fls. split; [|done]. split; [done|]. by split.
Qed.

Lemma init_from_regions_eq s regions bip ks ksz excl :
  INITIALIZED s = false ->
  init_from_regions s regions bip ks ksz excl =
  finish_init (remove_range_all_orders
    (fold_left (add_region excl) regions
       (set_zone (record_reservations s bip ks ksz) (empty_zone regions)))
    (align_down bip PAGE_SIZE)
    (wrap 64 (align_down bip PAGE_SIZE + wrap 64 (bootinfo_pages * PAGE_SIZE)))).
Proof. intros Hi. unfold init_from_regions. rewrite Hi. reflexivity. Qed.

Lemma init_from_regions_inv s regions bip ks ksz excl :
  INITIALIZED s = false -> Forall region_ok regions -> 0 <= bip -> bip + 4096 < 2 ^ 64 ->
  NoDup (regions ≫= region_pages) ->
  let s' := init_from_regions s regions bip ks ksz excl in
  phys_inv s' (free_part s' excl (regions ≫= region_pages)) /\
  INITIALIZED s' = true /\ total_pages (zone s') = free_pages (zone s') /\
  (base (zone s'), top (zone s')) = zone_bounds regions.
Proof.
  intros Hi Hok Hb0 Hb Hnd. cbv zeta. rewrite init_from_regions_eq by done. clear Hi.
  set (s2 := set_zone (record_reservations s bip ks ksz) (empty_zone regions)).
  destruct (add_regions_inv excl regions s2 []) as [Hst Hinv];
    [apply empty_zone_inv|done|rewrite app_nil_r; by apply NoDup_filter|].
  rewrite app_nil_r in Hinv. set (s3 := fold_left (add_region excl) regions s2) in *.
  clearbody s3. rewrite <-(free_part_statics _ _ _ _ Hst) in Hinv.
  destruct (free_part_outside_bootinfo s excl (regions ≫= region_pages) bip ks ksz s3)
    as (Hm1 & Hm2 & Hle & Htop & Hfil); [done..| |].
  { intros pn. by rewrite (is_reserved_page_statics s2 s3 pn Hst). }
  set (be := wrap 64 _) in *. clearbody be.
  pose proof (remove_range_all_orders_inv _ _ Hm1 Hm2 Hle Htop _ _ Hinv) as Hinv4.
  rewrite Hfil in Hinv4.
  pose proof (remove_range_all_orders_statics s3 (align_down bip PAGE_SIZE) be) as Hst4.
  rewrite <-(free_part_statics _ _ _ _ Hst4) in Hinv4. rewrite Hst in Hst4.
  apply statics_bounds in Hst4 as [Hbase Ht].
  replace (zone_bounds regions) with (base (zone s2), top (zone s2)).
  { by apply finish_init_spec. }
  simpl. unfold empty_zone. by destruct (zone_bounds regions).
Qed.

(** ** Freeing runs of pages *)

(** [free_order] touches at most the reference count of the page it frees. *)
Lemma free_order_frame s a o :
  exists r, statics (free_order s a o) = statics (set_refcounts s r) /\
    forall pn, pn <> a / PAGE_SIZE -> r !! pn = REFCOUNTS s !! pn.
Proof.
  assert (exists r, statics s = statics (set_refcounts s r) /\
    forall pn, pn <> a / PAGE_SIZE -> r !! pn = REFCOUNTS s !! pn) as Hsame by by exists (REFCOUNTS s).
  unfold free_order. repeat (case_match; [done|]). case_match; [|by autorewrite with phys].
  unfold unref_page. destruct (_ >=? _); [by autorewrite with phys|].
  exists (<[a / PAGE_SIZE := wrap 16 (refcount_at s (a / PAGE_SIZE) - 1)]> (REFCOUNTS s)).
  split; [case_match; by autorewrite with phys|]. intros pn Hpn. by rewrite lookup_insert_ne.
Qed.

(** The pages that [free_order] accepts: inside the zone, not reserved. *)
Definition freeable (s : PhysState) (pn : Z) : Prop :=
  is_reserved_page s pn = false /\ base (zone s) <= pn * PAGE_SIZE /\
  (pn + 1) * PAGE_SIZE <= top (zone s).

Lemma free_order_frame_page s a o pn :
  (freeable (free_order s a o) pn <-> freeable s pn) /\
  (pn <> a / PAGE_SIZE -> refcount (free_order s a o) pn = refcount s pn).
Proof.
  destruct (free_order_frame s a o) as (r & Hst & Hr). split.
  - unfold freeable. apply statics_bounds in Hst as Hb. destruct Hb as [-> ->].
    by rewrite (is_reserved_page_statics _ _ pn Hst).
  - intros Hpn. unfold refcount, refcount_at. unfold statics in Hst. injection Hst as -> _ _ _ _ _ _ _.
    simpl. by rewrite Hr.
Qed.

Lemma freeable_allowed s a o :
  block_wf o a -> Forall (freeable s) (block_pages a o) -> free_allowed s a o.
Proof.
  intros Hwf Hf. pose proof (block_wf_page _ _ Hwf) as Hm. rewrite Forall_forall in Hf.
  destruct (Hf (a / PAGE_SIZE)) as (Hr & Hb & _); [apply block_pages_head|].
  pose proof (Z.pow_pos_nonneg 2 (Z.of_nat o) ltac:(lia) ltac:(lia)).
  destruct (Hf (a / PAGE_SIZE + 2 ^ Z.of_nat o - 1)) as (_ & _ & Ht); [apply elem_of_block_pages; lia|].
  unfold free_allowed. rewrite block_size_eq. unfold PAGE_SIZE in *. split_and!; try done; div_lia.
Qed.

(** Whatever the guards and counts say, freeing a block adds a part of it. *)
Lemma free_order_weak s P a o :
  phys_inv s P -> (o <= MAX_ORDER)%nat -> block_wf o a -> NoDup (block_pages a o ++ P) ->
  exists Q, Q ⊆+ block_pages a o /\ phys_inv (free_order s a o) (Q ++ P) /\
    (Forall (freeable s) (block_pages a o) -> (o = 0%nat -> refcount s (a / PAGE_SIZE) = 1) ->
     Q = block_pages a o).
Proof.
  intros Hinv Ho Hwf Hnd. pose proof Hwf as (Ha & Hma & Hend).
  assert (Decision (free_allowed s a o)) as Hdec by (unfold free_allowed; apply _).
  assert ((free_allowed s a o /\ (o = 0%nat -> refcount s (a / PAGE_SIZE) = 1)) \/
    (~ free_allowed s a o \/ (o = 0%nat /\ refcount s (a / PAGE_SIZE) <> 1))) as [[Hal Hrc]|Hno].
  { destruct Hdec; [|by right; left]. destruct (decide (o = 0%nat)); [|left; tauto].
    destruct (decide (refcount s (a / PAGE_SIZE) = 1)); [left; tauto|right; tauto]. }
  - exists (block_pages a o). split; [done|]. split; [by apply free_order_inv|done].
  - exists []. split; [apply submseteq_nil_l|].
    destruct (free_order_skip s a o) as [Hz Hm]; [tauto|lia|done|].
    split; [by eapply phys_inv_ext|]. intros Hf%freeable_allowed Hrc; [|done]. tauto.
Qed.

Lemma free_chunks_loop_inv fuel s P c e :
  phys_inv s P -> 0 < c -> c mod 4096 = 0 -> e mod 4096 = 0 -> e < 2 ^ 64 ->
  (e - c) / 4096 < Z.of_nat fuel -> NoDup (range_pages c e ++ P) ->
  exists Q, Q ⊆+ range_pages c e /\ phys_inv (free_chunks_loop fuel s c e) (Q ++ P) /\
    (Forall (fun pn => freeable s pn /\ refcount s pn = 1) (range_pages c e) -> Q ≡ₚ range_pages c e).
Proof.
  revert s P c. induction fuel as [|fuel IH]; intros s P c Hinv Hc Hmc Hme He Hf Hnd.
  { exists []. rewrite range_pages_nil by div_lia. done. }
  cbn [free_chunks_loop]. destruct (Z.ltb_spec c e) as [Hlt|Hge].
  2:{ exists []. by rewrite range_pages_nil by lia. }
  destruct (chunk_order_spec c e) as (Ho & Hwf & Hle); [lia..|].
  set (o := chunk_order c (e - c)) in *. clearbody o.
  pose proof (block_size_pos o). rewrite wrap_small by lia.
  rewrite (range_pages_step c e o) in * by lia. rewrite <-app_assoc in Hnd.
  assert (range_pages (c + block_size o) e ++ block_pages c o ++ P ≡ₚ
    block_pages c o ++ range_pages (c + block_size o) e ++ P) as Heq by solve_Permutation.
  rewrite <-Heq in Hnd.
  destruct (free_order_weak s P c o) as (Q1 & HQ1 & Hinv1 & Hex1); [done..| |].
  { by apply NoDup_app in Hnd as (_ & _ & ?). }
  destruct (IH (free_order s c o) (Q1 ++ P) (c + block_size o)) as (Q2 & HQ2 & Hinv2 & Hex2);
    try (done || lia).
  { rewrite block_size_eq, Z.mod_add by lia. done. }
  { rewrite block_size_eq in *. div_lia. }
  { eapply submseteq_NoDup; [|exact Hnd]. by repeat apply submseteq_app. }
  exists (Q2 ++ Q1). split; [rewrite Permutation_app_comm; by apply submseteq_app|].
  split; [by rewrite <-app_assoc|]. intros [Hf1 Hf2]%Forall_app.
  rewrite Hex1, Hex2; [by rewrite Permutation_app_comm| |eapply Forall_impl; [exact Hf1|by intros ? []]|].
  - apply Forall_forall. intros pn Hpn. rewrite Forall_forall in Hf2.
    destruct (free_order_frame_page s c o pn) as [Hfr Hrc].
    split; [apply Hfr, (Hf2 pn Hpn)|]. rewrite Hrc; [apply (Hf2 pn Hpn)|].
    intros ->. apply NoDup_app in Hnd as (_ & Hd & _). apply (Hd _ Hpn).
    apply elem_of_app. left. apply block_pages_head.
  - intros _. rewrite Forall_forall in Hf1. apply Hf1, block_pages_head.
Qed.

(** ** Allocation and release interleaved *)

Lemma split_block_statics s p o h : statics (snd (split_block s p o h)) = statics s.
Proof.
  unfold split_block. generalize (rev (seq o (h - o))) as os. intros os. revert s p.
  induction os as [|c os IH]; intros s p; simpl; [done|]. by rewrite IH.
Qed.

(** [alloc_order] sets at most the reference count of the page it returns. *)
Definition alloc_frame (s s' : PhysState) (a : Z) : Prop :=
  exists r, statics s' = statics (set_refcounts s r) /\
    forall pn, pn <> a / PAGE_SIZE -> r !! pn = REFCOUNTS s !! pn.

Lemma reset_refcount_frame s s1 o a : statics s1 = statics s -> alloc_frame s (reset_refcount s1 o a) a.
Proof.
  intros Hst. unfold reset_refcount, alloc_frame.
  case_match; [case_match|]; [|by exists (REFCOUNTS s)..].
  exists (<[a / PAGE_SIZE := 1]> (REFCOUNTS s)). split; [|intros; by rewrite lookup_insert_ne].
  unfold statics in *. simpl. by injection Hst as -> -> -> -> -> -> -> ->.
Qed.

Lemma alloc_search_frame s o hs a s' :
  alloc_search s o hs = (Some a, s') -> alloc_frame s s' a.
Proof.
  assert (forall s0, statics s0 = statics s -> alloc_search s0 o hs = (Some a, s') -> alloc_frame s s' a) as H;
    [|by apply H]. induction hs as [|h hs IH]; intros s0 Hst; simpl; [done|].
  pose proof (pop_block_statics s0 h) as Hp. destruct (pop_block s0 h) as [[p|] s1]; simpl in Hp.
  - pose proof (split_block_statics s1 p o h) as Hs. destruct (split_block s1 p o h) as [c s2].
    intros [= <- <-]. apply reset_refcount_frame. simpl in Hs. congruence.
  - apply IH. congruence.
Qed.

Lemma alloc_order_frame s o a s' : alloc_order s o = (Some a, s') -> alloc_frame s s' a.
Proof.
  unfold alloc_order. case_match; [done|]. pose proof (pop_block_statics s o) as Hp.
  destruct (pop_block s o) as [[p|] s1] eqn:E; simpl in Hp.
  - intros [= <- <-]. by apply reset_refcount_frame.
  - unfold pop_block in E. case_match; simplify_eq. apply alloc_search_frame.
Qed.

Lemma frame_page s s' a pn :
  alloc_frame s s' a ->
  (freeable s' pn <-> freeable s pn) /\ (pn <> a / PAGE_SIZE -> refcount s' pn = refcount s pn).
Proof.
  intros (r & Hst & Hr). split.
  - unfold freeable. apply statics_bounds in Hst as Hb. destruct Hb as [-> ->].
    by rewrite (is_reserved_page_statics _ _ pn Hst).
  - intros Hpn. unfold refcount, refcount_at. unfold statics in Hst. injection Hst as -> _ _ _ _ _ _ _.
    simpl. by rewrite Hr.
Qed.

(** A client of the allocator: it asks for blocks of any order, and gives
    back blocks it holds. *)
Definition Client : Type := PhysState * list (Z * nat).

Inductive client_step : Client -> Client -> Prop :=
| step_alloc s h o a s' :
    alloc_order s o = (Some a, s') -> client_step (s, h) (s', (a, o) :: h)
| step_alloc_none s h o s' :
    alloc_order s o = (None, s') -> client_step (s, h) (s', h)
| step_free s h1 h2 a o :
    client_step (s, h1 ++ (a, o) :: h2) (free_order s a o, h1 ++ h2).

Definition held_pages (h : list (Z * nat)) : list Z := h ≫= fun '(a, o) => block_pages a o.

Record client_inv (P0 : list Z) (c : Client) (P : list Z) : Prop := {
  ci_free : phys_inv (fst c) P;
  ci_pages : held_pages (snd c) ++ P ≡ₚ P0;
  ci_wf : Forall (fun '(a, o) => (o <= MAX_ORDER)%nat /\ block_wf o a) (snd c);
  ci_freeable : Forall (freeable (fst c)) P0;
  ci_nodup : NoDup P0;
  ci_refs : Forall (fun '(a, o) => o = 0%nat -> refcount (fst c) (a / PAGE_SIZE) = 1) (snd c);
}.

Lemma held_pages_app h1 h2 : held_pages (h1 ++ h2) = held_pages h1 ++ held_pages h2.
Proof. apply bind_app. Qed.

Lemma held_pages_cons a o h : held_pages ((a, o) :: h) = block_pages a o ++ held_pages h.
Proof. done. Qed.

(** Held blocks other than [a] keep their counts. *)
Lemma frame_refs s s' a h :
  alloc_frame s s' a -> a / PAGE_SIZE ∉ held_pages h ->
  Forall (fun '(b, o) => o = 0%nat -> refcount s (b / PAGE_SIZE) = 1) h ->
  Forall (fun '(b, o) => o = 0%nat -> refcount s' (b / PAGE_SIZE) = 1) h.
Proof.
  intros Hf Ha. rewrite !Forall_forall. intros Hh [b o] Hb Ho. specialize (Hh _ Hb Ho).
  destruct (frame_page s s' a (b / PAGE_SIZE) Hf) as [_ ->]; [done|].
  intros Heq. apply Ha. rewrite <-Heq. unfold held_pages. apply list_elem_of_bind.
  exists (b, o). split; [apply block_pages_head|done].
Qed.

Lemma client_step_inv P0 c c' P :
  client_inv P0 c P -> client_step c c' -> exists P', client_inv P0 c' P'.
Proof.
  intros [Hinv Hpg Hwf Hfr Hnd Hrefs] Hstep. destruct Hstep as [s h o a s' E|s h o s' E|s h1 h2 a o]; cbn [fst snd] in *.
  - assert (o <= MAX_ORDER)%nat as Ho.
    { unfold alloc_order in E. destruct (Nat.ltb_spec MAX_ORDER o); [done|lia]. }
    pose proof (alloc_order_inv s P o Hinv Ho) as Hal. rewrite E in Hal.
    destruct Hal as (P' & Hinv' & HP & Hawf & Hrc). pose proof (alloc_order_frame _ _ _ _ E) as Hframe.
    exists P'. split; cbn [fst snd]; [done| |by constructor| |done|].
    + rewrite held_pages_cons, <-Hpg, HP. solve_Permutation.
    + eapply Forall_impl; [exact Hfr|]. intros pn. by apply frame_page with (a := a).
    + constructor; [done|]. eapply frame_refs; [done| |done]. intros Hin.
      rewrite <-Hpg, HP in Hnd. apply NoDup_app in Hnd as (_ & Hd & _). apply (Hd _ Hin).
      apply elem_of_app. left. apply block_pages_head.
  - assert (s' = s) as ->; [|by exists P].
    unfold alloc_order in E. destruct (Nat.ltb_spec MAX_ORDER o) as [|Ho]; [by simplify_eq|].
    pose proof (alloc_order_inv s P o Hinv Ho) as Hal. unfold alloc_order in Hal.
    destruct (Nat.ltb_spec MAX_ORDER o); [lia|]. rewrite E in Hal. by destruct Hal.
  - rewrite held_pages_app, held_pages_cons in Hpg.
    assert (block_pages a o ++ held_pages (h1 ++ h2) ++ P ≡ₚ P0) as Hpg'.
    { rewrite <-Hpg, held_pages_app. solve_Permutation. }
    assert (held_pages (h1 ++ h2) ++ block_pages a o ++ P ≡ₚ P0) as Hpg2.
    { rewrite <-Hpg'. solve_Permutation. }
    apply Forall_app in Hwf as [Hwf1 [[Ho Hawf] Hwf2]%Forall_cons].
    apply Forall_app in Hrefs as [Hr1 [Hra Hr2]%Forall_cons].
    exists (block_pages a o ++ P). split; cbn [fst snd]; [|done|by apply Forall_app| |done|].
    + apply free_order_inv; try done.
      * rewrite <-Hpg2 in Hnd. by apply NoDup_app in Hnd as (_ & _ & ?).
      * apply freeable_allowed; [done|]. rewrite <-Hpg' in Hfr. by apply Forall_app in Hfr as [? _].
    + eapply Forall_impl; [exact Hfr|]. intros pn. by apply free_order_frame_page.
    + eapply frame_refs; [apply free_order_frame| |by apply Forall_app].
      intros Hin. rewrite <-Hpg2 in Hnd. apply NoDup_app in Hnd as (_ & Hd & _). apply (Hd _ Hin).
      apply elem_of_app. left. apply block_pages_head.
Qed.

Lemma client_steps_inv P0 c c' :
  rtc client_step c c' -> (exists P, client_inv P0 c P) -> exists P', client_inv P0 c' P'.
Proof. induction 1 as [|c1 c2 c3 Hs _ IH]; [done|]. intros [P HP]. eapply IH, client_step_inv; done. Qed.

(** ** Bounds of the zone *)

Lemma grow_bounds_spec acc q :
  fst (grow_bounds acc q) <= fst acc /\ snd acc <= snd (grow_bounds acc q) /\
  (fst (region_bounds q) < snd (region_bounds q) ->
   fst (grow_bounds acc q) <= fst (region_bounds q) /\ snd (region_bounds q) <= snd (grow_bounds acc q)).
Proof.
  unfold grow_bounds. destruct (region_bounds q) as [a b]. destruct (Z.ltb_spec a b); simpl; lia.
Qed.

Lemma zone_bounds_fold regions acc r :
  let acc' := fold_left grow_bounds regions acc in
  fst acc' <= fst acc /\ snd acc <= snd acc' /\
  (r ∈ regions -> fst (region_bounds r) < snd (region_bounds r) ->
   fst acc' <= fst (region_bounds r) /\ snd (region_bounds r) <= snd acc').
Proof.
  cbv zeta. revert acc. induction regions as [|q regions IH]; intros acc; cbn [fold_left].
  { split_and!; [lia..|]. by intros ?%elem_of_nil. }
  destruct (IH (grow_bounds acc q)) as (H1 & H2 & H3).
  pose proof (grow_bounds_spec acc q) as (H4 & H5 & H6). split_and!; [lia..|].
  intros [->|Hr]%elem_of_cons Hlt; [|auto]. specialize (H6 Hlt). lia.
Qed.

Lemma zone_bounds_cover regions r pn :
  Forall region_ok regions -> r ∈ regions -> pn ∈ region_pages r ->
  fst (zone_bounds regions) <= pn * 4096 /\ (pn + 1) * 4096 <= snd (zone_bounds regions).
Proof.
  intros Hok Hr Hpn%elem_of_seqZ. rewrite Forall_forall in Hok.
  specialize (Hok _ Hr). apply region_bounds_ok in Hok.
  pose proof (zone_bounds_fold regions (U64_MAX, 0) r) as Hf. cbv zeta in Hf. unfold zone_bounds.
  destruct (fold_left _ _ _) as [mn mx]. destruct Hf as (_ & _ & Hf).
  destruct (region_bounds r) as [a b]. cbn [fst snd] in *. unfold PAGE_SIZE in *.
  destruct Hok as (Ha & Hma & Hmb & Hb). destruct Hf; [done|div_lia|].
  destruct (Z.eqb_spec mn U64_MAX) as [->|]; cbn [fst snd]; [unfold U64_MAX in *|]; div_lia.
Qed.

Lemma init_freeable s regions bip ks ksz excl :
  INITIALIZED s = false -> Forall region_ok regions -> 0 <= bip -> bip + 4096 < 2 ^ 64 ->
  NoDup (regions ≫= region_pages) ->
  let s' := init_from_regions s regions bip ks ksz excl in
  Forall (freeable s') (free_part s' excl (regions ≫= region_pages)).
Proof.
  intros Hi Hok Hb0 Hb Hnd s'.
  destruct (init_from_regions_inv s regions bip ks ksz excl) as (_ & _ & _ & Hz); [done..|].
  fold s' in Hz. clearbody s'. apply Forall_forall. intros pn [Hfree Hpn]%list_elem_of_filter.
  apply list_elem_of_bind in Hpn as (r & Hpn & Hr).
  pose proof (zone_bounds_cover regions r pn Hok Hr Hpn) as Hc.
  unfold freeable, PAGE_SIZE. rewrite <-Hz in Hc. split; [|exact Hc].
  unfold page_free in Hfree. by apply andb_true_iff in Hfree as [?%negb_true_iff _].
Qed.

(** ** Runs of pages *)

Lemma heads_null_empty s P :
  phys_inv s P -> (forall h, (h <= MAX_ORDER)%nat -> free_list s h = 0) -> P = [].
Proof.
  intros (fls & [Hwf Hrep] & HP) Hz. apply Permutation_nil_r. rewrite HP.
  assert (all_pages fls = []) as ->; [|done].
  destruct (all_pages fls) as [|pn l] eqn:E; [done|]. exfalso.
  assert (pn ∈ all_pages fls) as Hin by (rewrite E; left).
  apply elem_of_all_pages in Hin as (o & k & a & Ho & Ha & _).
  pose proof (rep_lists _ _ Hrep _ _ Ho) as Hl.
  rewrite Hz in Hl by by eapply fls_lookup_le. apply is_list_null in Hl as ->. set_solver.
Qed.

(** The order [alloc_pages] asks for. *)
Definition pages_order (count : Z) : nat :=
  if count <=? 1 then 0%nat else Nat.min (Z.to_nat (64 - leading_zeros64 (wrap 64 (count - 1)))) MAX_ORDER.

Lemma pages_order_spec count :
  2 <= count <= 1024 ->
  (1 <= pages_order count <= MAX_ORDER)%nat /\ count <= 2 ^ Z.of_nat (pages_order count) < 2 * count.
Proof.
  intros Hc. unfold pages_order. destruct (Z.leb_spec count 1); [lia|].
  rewrite wrap_small by lia. unfold leading_zeros64. destruct (Z.eqb_spec (count - 1) 0); [lia|].
  replace (64 - (63 - Z.log2 (count - 1))) with (Z.succ (Z.log2 (count - 1))) by lia.
  pose proof (Z.log2_spec (count - 1) ltac:(lia)) as Hl.
  pose proof (Z.log2_nonneg (count - 1)) as Hn.
  assert (Z.log2 (count - 1) < 10) by (apply Z.log2_lt_pow2; lia).
  unfold MAX_ORDER. rewrite Nat.min_l by lia. rewrite Z2Nat.id by lia.
  rewrite Z.pow_succ_r in * by lia. lia.
Qed.

Lemma block_pages_prefix a o count :
  a mod 4096 = 0 -> 0 <= count <= 2 ^ Z.of_nat o ->
  block_pages a o = range_pages a (a + count * 4096) ++ range_pages (a + count * 4096) (a + block_size o).
Proof.
  intros Ha Hc. unfold block_pages, range_pages, PAGE_SIZE. rewrite block_size_eq.
  rewrite Z.div_add by lia.
  replace ((a + count * 4096 - a) / 4096) with count by div_lia.
  replace ((a + 2 ^ Z.of_nat o * 4096 - (a + count * 4096)) / 4096) with (2 ^ Z.of_nat o - count) by div_lia.
  rewrite <-seqZ_app by lia. f_equal. lia.
Qed.

Lemma free_pages_chunked_inv s P a n :
  phys_inv s P -> 0 < a -> a mod 4096 = 0 -> 0 <= n -> a + n * 4096 < 2 ^ 64 ->
  NoDup (range_pages a (a + n * 4096) ++ P) ->
  exists Q, Q ⊆+ range_pages a (a + n * 4096) /\ phys_inv (free_pages_chunked s a n) (Q ++ P) /\
    (Forall (fun pn => freeable s pn /\ refcount s pn = 1) (range_pages a (a + n * 4096)) ->
     Q ≡ₚ range_pages a (a + n * 4096)).
Proof.
  intros Hinv Ha Hma Hn Hend Hnd. unfold free_pages_chunked.
  rewrite (wrap_small 64 (n * PAGE_SIZE)), wrap_small by (unfold PAGE_SIZE; lia).
  change (n * PAGE_SIZE) with (n * 4096). apply free_chunks_loop_inv; try done.
  - rewrite Z.mod_add by lia. done.
  - unfold range_fuel, PAGE_SIZE. lia.
Qed.

Definition page_clean (s : PhysState) (pn : Z) : Prop := freeable s pn /\ refcount s pn = 1.

(** The tail of the block, given back page run by page run. *)
Lemma alloc_trim s P P' a o count s1 :
  phys_inv s1 P' -> P ≡ₚ block_pages a o ++ P' -> block_wf o a -> NoDup P ->
  alloc_frame s s1 a -> 1 <= count <= 2 ^ Z.of_nat o -> (o <= MAX_ORDER)%nat ->
  exists P2, phys_inv (free_pages_chunked s1 (a + count * 4096) (2 ^ Z.of_nat o - count)) P2 /\
    range_pages a (a + count * 4096) ++ P2 ⊆+ P /\
    (Forall (page_clean s) P -> range_pages a (a + count * 4096) ++ P2 ≡ₚ P).
Proof.
  intros Hinv HP Hwf Hnd Hfr Hc Ho. pose proof (block_wf_page _ _ Hwf) as Hma.
  pose proof Hwf as (Ha & _ & Hend).
  rewrite (block_pages_prefix a o count) in HP by lia. rewrite block_size_eq in HP, Hend.
  set (tail := range_pages (a + count * 4096) (a + 2 ^ Z.of_nat o * 4096)) in *.
  assert (a + 2 ^ Z.of_nat o * 4096 = a + count * 4096 + (2 ^ Z.of_nat o - count) * 4096) as Het by lia.
  rewrite HP, <-app_assoc in Hnd.
  destruct (free_pages_chunked_inv s1 P' (a + count * 4096) (2 ^ Z.of_nat o - count))
    as (Q & HQ & HinvQ & Hex); rewrite <-?Het; try (done || lia).
  { rewrite Z.mod_add by lia. done. }
  { by apply NoDup_app in Hnd as (_ & _ & ?). }
  rewrite <-Het in HQ, Hex. fold tail in HQ, Hex.
  exists (Q ++ P'). split; [done|]. split.
  - rewrite HP, <-!app_assoc. apply submseteq_app; [done|]. by apply submseteq_app.
  - intros Hcl. rewrite HP, <-!app_assoc in *. rewrite Hex; [done|].
    apply Forall_app in Hcl as [_ [Hcl _]%Forall_app].
    apply Forall_forall. intros pn Hpn. rewrite Forall_forall in Hcl. destruct (Hcl _ Hpn) as [Hf Hr].
    destruct (frame_page s s1 a pn Hfr) as [Hff Hrc]. split; [by apply Hff|]. rewrite Hrc; [done|].
    intros ->. apply NoDup_app in Hnd as (_ & Hd & _). apply (Hd (a / PAGE_SIZE)).
    + unfold range_pages. apply elem_of_seqZ. unfold PAGE_SIZE. div_lia.
    + apply elem_of_app. by left.
Qed.

Definition alloc_pages_ok (s : PhysState) (P : list Z) (count a : Z) (s' : PhysState) : Prop :=
  0 < a /\ a mod PAGE_SIZE = 0 /\ exists P', phys_inv s' P' /\
    range_pages a (a + count * PAGE_SIZE) ++ P' ⊆+ P /\
    (Forall (page_clean s) P -> range_pages a (a + count * PAGE_SIZE) ++ P' ≡ₚ P).

Lemma alloc_ok_pages s P o a s' :
  alloc_ok P o a s' -> alloc_pages_ok s P (2 ^ Z.of_nat o) a s'.
Proof.
  intros (P' & Hinv & HP & Hwf & _). pose proof (block_wf_page _ _ Hwf). split; [apply Hwf|].
  split; [done|]. exists P'. split; [done|].
  replace (range_pages a (a + 2 ^ Z.of_nat o * PAGE_SIZE)) with (block_pages a o); [by rewrite HP|].
  pose proof (Z.pow_nonneg 2 (Z.of_nat o)).
  rewrite (block_pages_prefix a o (2 ^ Z.of_nat o)), (range_pages_nil (_ + _) _), app_nil_r; [done| |lia..].
  rewrite block_size_eq. lia.
Qed.

Lemma alloc_pages_inv s P count :
  phys_inv s P -> 1 <= count <= 1024 ->
  match alloc_pages s count with
  | (Some a, s') => alloc_pages_ok s P count a s'
  | (None, s') => s' = s /\ forall h, (pages_order count <= h <= MAX_ORDER)%nat -> free_list s h = 0
  end.
Proof.
  intros Hinv Hc. unfold alloc_pages. rewrite (proj2 (Z.eqb_neq count 0)) by lia.
  destruct (Z.eqb_spec count 1) as [->|].
  { pose proof (alloc_order_inv s P 0 Hinv) as Hal. unfold alloc_page.
    destruct (alloc_order s 0) as [[a|] s1]; [|apply Hal; lia].
    apply (alloc_ok_pages s P 0 a s1). apply Hal. lia. }
  change (Z.shiftl 1 (Z.of_nat MAX_ORDER)) with 1024.
  destruct (Z.gtb_spec count 1024); [lia|]. fold (pages_order count). cbv zeta.
  destruct (pages_order_spec count) as [Ho Hcount]; [lia|].
  set (o := pages_order count) in *. clearbody o. rewrite shiftl_pow2.
  pose proof (alloc_order_inv s P o Hinv) as Hal.
  destruct (alloc_order s o) as [[a|] s1] eqn:E; [|apply Hal; lia].
  specialize (Hal ltac:(lia)). destruct (Z.gtb_spec (2 ^ Z.of_nat o) count) as [Hgt|Hle].
  2:{ replace count with (2 ^ Z.of_nat o) by lia. by apply alloc_ok_pages. }
  destruct Hal as (P' & Hinv' & HP & Hwf & _). pose proof Hwf as (Ha & _ & Hend).
  rewrite block_size_eq in Hend. pose proof (block_wf_page _ _ Hwf).
  rewrite (wrap_small 64 (count * PAGE_SIZE)), wrap_small by (unfold PAGE_SIZE; lia).
  split; [done|]. split; [done|]. change PAGE_SIZE with 4096.
  eapply alloc_trim; try done; [by eapply phys_inv_nodup|by eapply alloc_order_frame|lia|lia].
Qed.

(** ** Counters *)

Lemma count_list_length fuel s o p l :
  is_list (mem s) o p l -> (length l < fuel)%nat -> count_list fuel s p = length l.
Proof.
  revert p l. induction fuel as [|fuel IH]; intros p l Hl Hf; [lia|]. cbn [count_list].
  destruct l as [|a l]; simpl in *; [by subst|]. destruct Hl as (-> & Ha & n & Hm & Hl).
  rewrite (proj2 (Z.eqb_neq a 0)) by done. unfold phys_to_block. rewrite Hm. simpl.
  rewrite (IH n l); [done|done|lia].
Qed.

(** Weighted sum over the orders. *)
Fixpoint order_sum (o : nat) (counts : list nat) : Z :=
  match counts with
  | [] => 0
  | c :: cs => Z.of_nat c * 2 ^ Z.of_nat o + order_sum (S o) cs
  end.

Lemma order_sum_pages fls k :
  order_sum k (length <$> fls) = Z.of_nat (length (concat (imap (fun n => order_pages (k + n)) fls))).
Proof.
  revert k. induction fls as [|l fls IH]; intros k; [done|]. cbn [fmap list_fmap order_sum imap concat].
  rewrite length_app, Nat2Z.inj_add, length_order_pages, Nat.add_0_r, IH. do 4 f_equal.
  apply imap_ext. intros i x _. simpl. by rewrite Nat.add_succ_r.
Qed.

Lemma free_counts_lengths s fls :
  lists_inv s fls -> free_counts_per_order s = length <$> fls.
Proof.
  intros [Hwf Hrep]. unfold free_counts_per_order. apply list_eq. intros o.
  rewrite !list_lookup_fmap. destruct (fls !! o) as [l|] eqn:Ho.
  - pose proof (fls_lookup_le _ _ _ Hwf Ho). rewrite lookup_seq_lt by lia. cbn [fmap option_fmap option_map Nat.add]. f_equal.
    pose proof (rep_lists _ _ Hrep _ _ Ho) as Hl. eapply count_list_length; [done|].
    pose proof (is_list_fuel _ _ _ _ Hl (order_pages_NoDup _ _ (fls_nodup_list _ _ _ Hwf Ho))). lia.
  - apply lookup_ge_None in Ho. rewrite (fls_length _ Hwf) in Ho. by rewrite lookup_seq_ge by lia.
Qed.
