(* ===== verification/PhysThms.v ===== *)
(** The properties of the physical page allocator (src/kernel/src/mm/phys.rs)
    and their instances on a small machine of eight free pages. *)
From stdpp Require Import base tactics numbers list gmap sorting relations.
From Stdlib Require Import ZArith Lia.
From S2P Require Import Prelude Phys PhysInv PhysSpec.

Local Open Scope Z_scope.

(** ** A concrete machine

    One region of eight pages at 0x10000 (page numbers 16 to 23), BootInfo at
    0x40000, no kernel image. *)

Definition demo_regions : list (Z * Z) := [(0x10000, 0x8000)].
Definition demo : PhysState := init_from_regions phys_boot demo_regions 0x40000 0 0 [].

Lemma demo_region_ok : Forall region_ok demo_regions.
Proof. repeat constructor; simpl; lia. Qed.

Lemma demo_nodup : NoDup (demo_regions ≫= region_pages).
Proof. apply (bool_decide_unpack (NoDup _)). vm_compute. exact I. Qed.

Lemma demo_inv : phys_inv demo (seqZ 16 8).
Proof.
  destruct (init_from_regions_inv phys_boot demo_regions 0x40000 0 0 []) as (Hinv & _);
    [done|apply demo_region_ok|lia|lia|apply demo_nodup|].
  replace (seqZ 16 8) with
    (free_part (init_from_regions phys_boot demo_regions 0x40000 0 0 []) [] (demo_regions ≫= region_pages));
    [exact Hinv|]. vm_compute. reflexivity.
Qed.

Lemma demo_freeable : Forall (freeable demo) (seqZ 16 8).
Proof. apply (bool_decide_unpack (Forall (freeable demo) (seqZ 16 8))). vm_compute. exact I. Qed.

(** ** Initialisation *)

(** C1: Initialisation from pairwise disjoint memory regions builds well-formed
    free lists that hold exactly the page-aligned interior of the regions less
    the reserved and excluded pages; every free page can be released again, the
    total equals the free count, the zone spans the regions, and the allocator
    is marked initialised. *)
Theorem init_from_regions_correct s regions bip ks ksz excl :
  INITIALIZED s = false -> Forall region_ok regions -> 0 <= bip -> bip + 4096 < 2 ^ 64 ->
  NoDup (regions ≫= region_pages) ->
  let s' := init_from_regions s regions bip ks ksz excl in
  let P := free_part s' excl (regions ≫= region_pages) in
  phys_inv s' P /\ Forall (freeable s') P /\ total_pages (zone s') = Z.of_nat (length P) /\
  (base (zone s'), top (zone s')) = zone_bounds regions /\ INITIALIZED s' = true.
Proof.
  intros Hi Hok Hb0 Hb Hnd. cbv zeta.
  destruct (init_from_regions_inv s regions bip ks ksz excl) as (Hinv & Hini & Htot & Hz); [done..|].
  pose proof (init_freeable s regions bip ks ksz excl Hi Hok Hb0 Hb Hnd) as Hf.
  split; [done|]. split; [done|]. split; [|done]. rewrite Htot. by apply phys_inv_count.
Qed.

Lemma init_from_regions_correct_witness :
  let s' := init_from_regions phys_boot demo_regions 0x40000 0 0 [] in
  phys_inv s' (free_part s' [] (demo_regions ≫= region_pages)).
Proof.
  apply (init_from_regions_correct phys_boot demo_regions 0x40000 0 0 []);
    [reflexivity|apply demo_region_ok|lia|lia|apply demo_nodup].
Defined.

(** ** Allocation and release *)

(** C2: Conservation.  Whatever sequence of [alloc_order] calls a client makes,
    interleaved with [free_order] of blocks it holds, the blocks it holds and the
    free pages always partition the pages that were free at the start: no page is
    handed out twice, none is lost, and none appears from elsewhere. *)
Theorem client_conservation s P0 s' held :
  phys_inv s P0 -> Forall (freeable s) P0 -> rtc client_step (s, []) (s', held) ->
  exists P, phys_inv s' P /\ held_pages held ++ P ≡ₚ P0 /\ NoDup (held_pages held ++ P) /\
    Forall (fun '(a, o) => block_wf o a) held.
Proof.
  intros Hinv Hf Hsteps. pose proof (phys_inv_nodup _ _ Hinv) as Hnd.
  destruct (client_steps_inv P0 _ _ Hsteps) as [P [H1 H2 H3 H4 H5 H6]].
  { exists P0. by split. }
  exists P. split_and!; [done|done|by rewrite H2|]. eapply Forall_impl; [exact H3|]. by intros [a o] [_ ?].
Qed.

Lemma client_conservation_witness :
  let s1 := snd (alloc_order demo 0) in let s2 := snd (alloc_order s1 1) in
  exists P, phys_inv (free_order s2 0x17000 0) P /\ held_pages [(0x14000, 1%nat)] ++ P ≡ₚ seqZ 16 8.
Proof.
  cbv zeta. set (s1 := snd (alloc_order demo 0)). set (s2 := snd (alloc_order s1 1)).
  destruct (client_conservation demo (seqZ 16 8) (free_order s2 0x17000 0) [(0x14000, 1%nat)])
    as (P & HP & Hpart & _); [apply demo_inv|apply demo_freeable| |by exists P].
  eapply rtc_l; [apply (step_alloc demo [] 0 0x17000 s1); vm_compute; reflexivity|].
  eapply rtc_l; [apply (step_alloc s1 [(0x17000, 0%nat)] 1 0x14000 s2); vm_compute; reflexivity|].
  apply rtc_once, (step_free s2 [(0x14000, 1%nat)] [] 0x17000 0).
Defined.

(** [alloc_order] takes an aligned block of exactly [2^order] free pages out of
    the free set (with reference count 1 when it is a single page); it fails, and
    changes nothing, only when every list of that order and above is empty. *)
Theorem alloc_order_correct s P o :
  phys_inv s P -> (o <= MAX_ORDER)%nat ->
  match alloc_order s o with
  | (Some a, s') =>
    exists P', phys_inv s' P' /\ P ≡ₚ block_pages a o ++ P' /\ block_wf o a /\
      (o = 0%nat -> refcount s' (a / PAGE_SIZE) = 1)
  | (None, s') => s' = s /\ forall h, (o <= h <= MAX_ORDER)%nat -> free_list s h = 0
  end.
Proof. apply alloc_order_inv. Qed.

Lemma alloc_order_correct_witness :
  exists P', phys_inv (snd (alloc_order demo 1)) P' /\ seqZ 16 8 ≡ₚ block_pages 0x14000 1 ++ P'.
Proof.
  pose proof (alloc_order_correct demo (seqZ 16 8) 1 demo_inv ltac:(unfold MAX_ORDER; lia)) as H.
  assert (fst (alloc_order demo 1) = Some 0x14000) as E by (vm_compute; reflexivity).
  destruct (alloc_order demo 1) as [[a|] s']; simpl in E; [|discriminate E].
  injection E as ->. destruct H as (P' & H1 & H2 & _). by exists P'.
Defined.

(** C3: [free_order] of a block that is not free, on pages that pass the guards
    (and with one reference when it is a single page), merges it into the free
    lists: as long as the buddy of the block is free, up to the largest order, the
    buddy leaves its list and the two become one block of the next order; the block
    that results, whose buddy is not free, enters the list of its order, and no
    other block moves.  The free set grows by exactly the pages of the block, and
    so does the counter. *)
Theorem free_order_correct s fls a o :
  lists_inv s fls -> (o <= MAX_ORDER)%nat -> block_wf o a -> NoDup (block_pages a o ++ all_pages fls) ->
  Forall (freeable s) (block_pages a o) -> (o = 0%nat -> refcount s (a / PAGE_SIZE) = 1) ->
  exists fls', merged fls a o fls' /\ lists_inv (free_order s a o) fls' /\
    all_pages fls' ≡ₚ block_pages a o ++ all_pages fls /\
    free_pages_count (free_order s a o) = free_pages_count s + 2 ^ Z.of_nat o.
Proof.
  intros Hinv Ho Hwf Hnd Hf Hrc.
  destruct (free_order_lists s fls a o) as (fls' & Hm & Hinv' & HP); try done; [by apply freeable_allowed|].
  exists fls'. split; [done|]. split; [done|]. split; [done|].
  rewrite (phys_inv_count (free_order s a o) (all_pages fls')), (phys_inv_count s (all_pages fls)) by (by eexists).
  rewrite HP, length_app, Nat2Z.inj_add, length_block_pages. lia.
Qed.

(** The free set after the block at 0x14000 has been taken out of [demo]. *)
Lemma demo_taken : phys_inv (snd (alloc_order demo 1)) (seqZ 16 4 ++ seqZ 22 2).
Proof.
  pose proof (alloc_order_inv demo (seqZ 16 8) 1 demo_inv ltac:(unfold MAX_ORDER; lia)) as H.
  assert (fst (alloc_order demo 1) = Some 0x14000) as E by (vm_compute; reflexivity).
  destruct (alloc_order demo 1) as [[a|] s']; simpl in E; [|discriminate E].
  injection E as ->. destruct H as (P' & H1 & H2 & _). simpl.
  assert (seqZ 16 8 ≡ₚ block_pages 0x14000 1 ++ seqZ 16 4 ++ seqZ 22 2) as Hsplit
    by (change (seqZ 16 4 ++ [20; 21] ++ seqZ 22 2 ≡ₚ [20; 21] ++ seqZ 16 4 ++ seqZ 22 2); solve_Permutation).
  rewrite Hsplit in H2. apply Permutation_app_inv_l in H2. by rewrite H2.
Qed.

Lemma free_order_correct_witness :
  exists fls fls', seqZ 16 4 ++ seqZ 22 2 ≡ₚ all_pages fls /\ merged fls 0x14000 1 fls' /\
    lists_inv (free_order (snd (alloc_order demo 1)) 0x14000 1) fls'.
Proof.
  destruct demo_taken as (fls & Hinv & HP). exists fls.
  destruct (free_order_correct (snd (alloc_order demo 1)) fls 0x14000 1) as (fls' & Hm & Hi & _).
  - exact Hinv.
  - unfold MAX_ORDER. lia.
  - unfold block_wf. vm_compute. split_and!; reflexivity.
  - rewrite <-HP. apply (bool_decide_unpack (NoDup _)). vm_compute. exact I.
  - apply (bool_decide_unpack (Forall (freeable (snd (alloc_order demo 1))) (block_pages 0x14000 1))).
    vm_compute. exact I.
  - discriminate.
  - exists fls'. split; [exact HP|]. split; [exact Hm|exact Hi].
Defined.

(** A single page is refused only when no page at all is free: fragmentation
    never makes [alloc_page] fail. *)
Theorem alloc_page_complete s P :
  phys_inv s P -> (fst (alloc_page s) = None <-> P = []).
Proof.
  intros Hinv. unfold alloc_page. pose proof (alloc_order_inv s P 0 Hinv ltac:(lia)) as H.
  destruct (alloc_order s 0) as [[a|] s'] eqn:E; simpl.
  - split; [done|]. intros ->. destruct H as (P' & _ & HP & _).
    apply Permutation_nil_l in HP. symmetry in HP. apply app_eq_nil in HP as [Hb _].
    pose proof (block_pages_head a 0) as Hh. rewrite Hb in Hh. set_solver.
  - split; [|done]. intros _. destruct H as [_ Hz]. apply (heads_null_empty s P Hinv). intros h Hh. apply Hz. lia.
Qed.

Lemma alloc_page_complete_witness : fst (alloc_page demo) = None <-> seqZ 16 8 = [].
Proof. exact (alloc_page_complete demo (seqZ 16 8) demo_inv). Defined.

(** ** Runs of pages *)

(** [alloc_pages] returns [count] consecutive pages that were free; the part of
    the block beyond them never becomes free twice, and when all free pages carry one
    reference the pages handed out and the pages still free are exactly the old free
    set.  Failure changes nothing and means no block of the needed order exists. *)
Theorem alloc_pages_correct s P count :
  phys_inv s P -> 1 <= count <= 1024 ->
  match alloc_pages s count with
  | (Some a, s') => alloc_pages_ok s P count a s'
  | (None, s') => s' = s /\ forall h, (pages_order count <= h <= MAX_ORDER)%nat -> free_list s h = 0
  end.
Proof. apply alloc_pages_inv. Qed.

Lemma alloc_pages_correct_witness :
  alloc_pages_ok demo (seqZ 16 8) 3 0x10000 (snd (alloc_pages demo 3)).
Proof.
  pose proof (alloc_pages_correct demo (seqZ 16 8) 3 demo_inv ltac:(lia)) as H.
  assert (fst (alloc_pages demo 3) = Some 0x10000) as E by (vm_compute; reflexivity).
  destruct (alloc_pages demo 3) as [[a|] s']; simpl in E; [|discriminate E].
  injection E as ->. exact H.
Defined.

(** [free_pages] of a run of pages that are all releasable and carry one
    reference puts exactly the run back, however it is cut into blocks. *)
Theorem free_pages_range_correct s P a n :
  phys_inv s P -> 0 < a -> a mod PAGE_SIZE = 0 -> 0 < n -> a + n * PAGE_SIZE < 2 ^ 64 ->
  NoDup (range_pages a (a + n * PAGE_SIZE) ++ P) ->
  Forall (page_clean s) (range_pages a (a + n * PAGE_SIZE)) ->
  phys_inv (free_pages_range s a n) (range_pages a (a + n * PAGE_SIZE) ++ P).
Proof.
  change PAGE_SIZE with 4096. intros Hinv Ha Hma Hn Hend Hnd Hcl. unfold free_pages_range.
  assert (is_reserved_page s (a / PAGE_SIZE) = false) as ->.
  { rewrite Forall_forall in Hcl. apply (Hcl (a / PAGE_SIZE)). unfold range_pages.
    apply elem_of_seqZ. unfold PAGE_SIZE. div_lia. }
  rewrite (proj2 (Z.eqb_neq n 0)) by lia. simpl.
  destruct (free_pages_chunked_inv s P a n) as (Q & _ & HQ & Hex); [done|lia..|done|].
  by rewrite <-Hex.
Qed.

Definition demo_empty : PhysState := reserve_range demo 0x10000 8.

Lemma demo_empty_inv : phys_inv demo_empty [].
Proof.
  unfold demo_empty, reserve_range. change (@nil Z) with (filter (outside 0x10000 0x18000) (seqZ 16 8)).
  change (align_down 0x10000 PAGE_SIZE) with 0x10000.
  change (align_up (saturating_add 64 0x10000 (wrap 64 (8 * PAGE_SIZE))) PAGE_SIZE) with 0x18000.
  apply remove_range_all_orders_inv; [reflexivity|reflexivity|lia|lia|apply demo_inv].
Qed.

Lemma free_pages_range_correct_witness :
  phys_inv (free_pages_range demo_empty 0x11000 5) (range_pages 0x11000 (0x11000 + 5 * PAGE_SIZE) ++ []).
Proof.
  apply (free_pages_range_correct demo_empty [] 0x11000 5).
  - apply demo_empty_inv.
  - lia.
  - reflexivity.
  - lia.
  - reflexivity.
  - apply (bool_decide_unpack (NoDup _)). vm_compute. exact I.
  - apply (bool_decide_unpack (Forall (page_clean demo_empty) (seqZ 17 5))). vm_compute. exact I.
Defined.

(** [reserve_range] removes exactly the pages that the byte range touches from the
    free set: blocks that straddle its ends are cut and the rest of them stays free. *)
Theorem reserve_range_correct s P start n :
  phys_inv s P -> 0 <= start < 2 ^ 64 -> 0 <= n -> n * PAGE_SIZE < 2 ^ 64 ->
  let rs := align_down start PAGE_SIZE in
  let re := align_up (saturating_add 64 start (n * PAGE_SIZE)) PAGE_SIZE in
  phys_inv (reserve_range s start n) (filter (outside rs re) P).
Proof.
  intros Hinv Hs Hn Hn2 rs re. unfold reserve_range.
  destruct (reserve_bounds start n) as (H1 & H2 & H3 & H4); [done..|].
  rewrite wrap_small in * by (unfold PAGE_SIZE in *; lia). by apply remove_range_all_orders_inv.
Qed.

Lemma reserve_range_correct_witness :
  phys_inv (reserve_range demo 0x12000 3) (filter (outside 0x12000 0x15000) (seqZ 16 8)).
Proof.
  apply (reserve_range_correct demo (seqZ 16 8) 0x12000 3); [apply demo_inv|lia|lia|reflexivity].
Defined.

(** The per-order census agrees with the page counter: the block counts weighted by
    the block sizes add up to [free_pages_count], which is the number of free pages. *)
Theorem free_counts_sum s P :
  phys_inv s P ->
  order_sum 0 (free_counts_per_order s) = free_pages_count s /\
  free_pages_count s = Z.of_nat (length P).
Proof.
  intros Hinv. split; [|by apply phys_inv_count]. rewrite (phys_inv_count _ _ Hinv).
  destruct Hinv as (fls & Hli & ->). by rewrite (free_counts_lengths _ _ Hli), order_sum_pages.
Qed.

Lemma free_counts_sum_witness : order_sum 0 (free_counts_per_order demo) = 8.
Proof. destruct (free_counts_sum demo (seqZ 16 8) demo_inv) as [-> ->]. reflexivity. Defined.

(** ** Reference counts *)

Lemma refcount_ref s pn :
  0 <= pn < REFCOUNT_MAX_PAGES -> 0 <= refcount s pn < U16_MAX ->
  refcount (ref_page s pn) pn = refcount s pn + 1.
Proof.
  intros Hpn Hc. unfold refcount, refcount_at in *.
  destruct (Z.geb_spec pn REFCOUNT_MAX_PAGES); [lia|].
  unfold ref_page. rewrite (proj2 (Z.ltb_lt _ _)) by lia. unfold refcount_at, U16_MAX in *.
  rewrite (proj2 (Z.eqb_neq _ _)) by lia. simpl. rewrite lookup_insert_eq. simpl.
  apply wrap_small. lia.
Qed.

Lemma ref_page_ext s pn :
  zone (ref_page s pn) = zone s /\ mem (ref_page s pn) = mem s /\
  (forall q, is_reserved_page (ref_page s pn) q = is_reserved_page s q).
Proof. unfold ref_page. repeat case_match; done. Qed.

Lemma free_page_shared s a :
  0 <= a -> a / PAGE_SIZE < REFCOUNT_MAX_PAGES -> free_allowed s a 0 ->
  1 < refcount s (a / PAGE_SIZE) <= U16_MAX ->
  zone (free_page s a) = zone s /\ mem (free_page s a) = mem s /\
  (forall q, is_reserved_page (free_page s a) q = is_reserved_page s q) /\
  refcount (free_page s a) (a / PAGE_SIZE) = refcount s (a / PAGE_SIZE) - 1.
Proof.
  intros Ha Hpn (Hm & Hr & Hb & Ht) Hc. unfold free_page, free_order.
  change (MAX_ORDER <? 0)%nat with false. rewrite Hm. cbn [orb negb Z.eqb Nat.eqb]. rewrite Hr.
  rewrite (proj2 (Z.ltb_ge _ _)) by lia.
  change (block_size 0) with 4096 in *.
  assert (a < 2 ^ 40) by (unfold REFCOUNT_MAX_PAGES, PAGE_SIZE in Hpn; div_lia).
  rewrite wrap_small by lia. destruct (Z.gtb_spec (a + 4096) (top (zone s))); [lia|].
  cbn [orb]. unfold refcount, refcount_at, unref_page in *.
  destruct (Z.geb_spec (a / PAGE_SIZE) REFCOUNT_MAX_PAGES); [lia|].
  unfold refcount_at. rewrite (proj2 (Z.eqb_neq _ 1)) by lia. simpl.
  split_and!; [done..|]. rewrite lookup_insert_eq. simpl. unfold U16_MAX in Hc. apply wrap_small. lia.
Qed.

Lemma free_allowed_ext s s' a o :
  zone s' = zone s -> (forall q, is_reserved_page s' q = is_reserved_page s q) ->
  free_allowed s a o -> free_allowed s' a o.
Proof. unfold free_allowed. by intros -> ->. Qed.

Lemma free_page_iter s P a k j :
  phys_inv s P -> 0 <= a -> a / PAGE_SIZE < REFCOUNT_MAX_PAGES -> free_allowed s a 0 ->
  refcount s (a / PAGE_SIZE) = Z.of_nat (S k) -> Z.of_nat (S k) <= U16_MAX -> (j <= k)%nat ->
  let s' := Nat.iter j (fun s => free_page s a) s in
  phys_inv s' P /\ free_allowed s' a 0 /\ refcount s' (a / PAGE_SIZE) = Z.of_nat (S k - j).
Proof.
  intros Hinv Ha Hpn Hal Hrc Hk. induction j as [|j IH]; intros Hj; [by rewrite Nat.sub_0_r|].
  destruct IH as (Hi & Hal' & Hr); [lia|]. cbv zeta. rewrite !Nat.iter_succ.
  set (s' := Nat.iter j _ s) in *.
  destruct (free_page_shared s' a) as (Hz & Hm & Hres & Hr'); [done|done|done|lia|].
  split; [by eapply phys_inv_ext|]. split; [by eapply free_allowed_ext|]. rewrite Hr', Hr. lia.
Qed.

Lemma ref_page_iter s P a k :
  phys_inv s P -> 0 <= a -> a / PAGE_SIZE < REFCOUNT_MAX_PAGES -> free_allowed s a 0 ->
  refcount s (a / PAGE_SIZE) = 1 -> Z.of_nat k < U16_MAX ->
  let s' := Nat.iter k (fun s => ref_page s (a / PAGE_SIZE)) s in
  phys_inv s' P /\ free_allowed s' a 0 /\ refcount s' (a / PAGE_SIZE) = Z.of_nat (S k).
Proof.
  intros Hinv Ha Hpn Hal Hrc. induction k as [|k IH]; intros Hk; [done|].
  destruct IH as (Hi & Hal' & Hr); [lia|]. cbv zeta. rewrite !Nat.iter_succ.
  set (s' := Nat.iter k _ s) in *. destruct (ref_page_ext s' (a / PAGE_SIZE)) as (Hz & Hm & Hres).
  split; [by eapply phys_inv_ext|]. split; [by eapply free_allowed_ext|].
  rewrite refcount_ref; [lia| |lia]. split; [|done]. unfold PAGE_SIZE in *. div_lia.
Qed.

(** Sharing.  A page allocated once and referenced [k] more times (copy-on-write)
    stays out of the free set through [k] releases; the release after those, and only
    that one, gives it back. *)
Theorem shared_page_released_last s P a k :
  phys_inv s P -> block_wf 0 a -> a / PAGE_SIZE ∉ P -> freeable s (a / PAGE_SIZE) ->
  a / PAGE_SIZE < REFCOUNT_MAX_PAGES -> refcount s (a / PAGE_SIZE) = 1 -> Z.of_nat k < U16_MAX ->
  let shared := Nat.iter k (fun s => ref_page s (a / PAGE_SIZE)) s in
  let released j := Nat.iter j (fun s => free_page s a) shared in
  (forall j, (j <= k)%nat -> phys_inv (released j) P) /\
  phys_inv (released (S k)) (a / PAGE_SIZE :: P).
Proof.
  intros Hinv Hwf Hnin Hf Hpn Hrc Hk shared released. pose proof Hwf as (Ha & _ & _).
  assert (free_allowed s a 0) as Hal.
  { apply freeable_allowed; [done|]. constructor; [|constructor]. exact Hf. }
  destruct (ref_page_iter s P a k) as (Hi & Hal' & Hr); [done|lia|done..|]. fold shared in Hi, Hal', Hr.
  assert (Z.of_nat (S k) <= U16_MAX) by lia.
  split; [intros j Hj; apply (free_page_iter shared P a k j); (done || lia)|].
  destruct (free_page_iter shared P a k k) as (Hi2 & Hal2 & Hr2); [done|lia|done..|].
  unfold released. rewrite Nat.iter_succ. set (last := Nat.iter k _ shared) in *.
  change (a / PAGE_SIZE :: P) with (block_pages a 0 ++ P). unfold free_page at 1.
  apply free_order_inv; try done; [unfold MAX_ORDER; lia| |].
  - apply NoDup_cons. split; [done|]. by eapply phys_inv_nodup.
  - intros _. rewrite Hr2. replace (S k - k)%nat with 1%nat by lia. done.
Qed.

Lemma shared_page_released_last_witness :
  phys_inv (Nat.iter 2 (fun s => free_page s 0x11000)
    (Nat.iter 1 (fun s => ref_page s (0x11000 / PAGE_SIZE)) demo_empty)) [17].
Proof.
  assert (phys_inv demo_empty []) as H1 by apply demo_empty_inv.
  assert (freeable demo_empty (0x11000 / PAGE_SIZE)) as H2
    by (apply (bool_decide_unpack (freeable demo_empty 17)); vm_compute; exact I).
  assert (refcount demo_empty (0x11000 / PAGE_SIZE) = 1) as H3 by (vm_compute; reflexivity).
  revert H1 H2 H3. generalize demo_empty. intros s H1 H2 H3.
  refine (proj2 (shared_page_released_last s [] 0x11000 1 H1 _ _ H2 _ H3 _)).
  - unfold block_wf. vm_compute. split_and!; reflexivity.
  - set_solver.
  - reflexivity.
  - reflexivity.
Defined.

(** Excess pages can be lost.  A page freed singly keeps reference count 0 in the free
    lists, and a block allocation does not reset the counts of its pages; when
    [alloc_pages] gives that page back as excess, [free_order] takes the count from 0 to
    65535 and drops the page: here seven of eight free pages are asked for and no page
    is free afterwards. *)
Theorem alloc_pages_loses_excess :
  let s := free_page (snd (alloc_page demo)) 0x17000 in
  fst (alloc_page demo) = Some 0x17000 /\ free_pages_count s = 8 /\
  fst (alloc_pages s 7) = Some 0x10000 /\ free_pages_count (snd (alloc_pages s 7)) = 0 /\
  refcount (snd (alloc_pages s 7)) 23 = U16_MAX.
Proof. vm_compute. split_and!; reflexivity. Qed.

(** [carve_range] and [free_pages_chunked] never use the block that exactly fits: a
    naturally aligned run of [2^k] pages ([1 <= k <= 10]) starts with a block of half
    its size. *)
Theorem chunk_order_halves a k :
  (1 <= k <= MAX_ORDER)%nat -> 0 < a -> a mod block_size k = 0 ->
  chunk_order a (block_size k) = (k - 1)%nat.
Proof.
  intros Hk Ha Hma. unfold chunk_order. rewrite block_size_eq in *. unfold PAGE_SIZE.
  rewrite Z.div_mul by lia.
  assert (2 <= 2 ^ Z.of_nat k <= 1024) as Hp.
  { split; [change 2 with (2 ^ 1) at 1|change 1024 with (2 ^ 10)]; apply Z.pow_le_mono_r; unfold MAX_ORDER in *; lia. }
  destruct (Z.leb_spec (2 ^ Z.of_nat k) 1); [lia|]. rewrite wrap_small by lia.
  unfold leading_zeros64. destruct (Z.eqb_spec (2 ^ Z.of_nat k - 1) 0); [lia|].
  rewrite Z.sub_1_r, Z.log2_pred_pow2 by lia.
  assert (k <= trailing_zeros64 (a / 4096))%nat; [|lia].
  assert (exists q, a / 4096 = q * 2 ^ Z.of_nat k) as [q Hq].
  { apply Z.mod_divide in Hma as [q Hq]; [|lia]. exists q.
    rewrite Hq, Z.mul_assoc, Z.div_mul by lia. done. }
  destruct (a / 4096) as [|p|p] eqn:E; simpl; [unfold MAX_ORDER in *; lia| |div_lia].
  apply pos_trailing_zeros_max. by exists q.
Qed.

Lemma chunk_order_halves_witness : chunk_order 0x400000 (block_size 10) = 9%nat.
Proof. apply (chunk_order_halves 0x400000 10); [unfold MAX_ORDER; lia|lia|reflexivity]. Defined.
