(* ===== verification/Sync.v ===== *)
(** The interrupt-disabling spinlock (src/kernel/src/sync.rs).

    [IrqSaveSpinLock] is modelled at the granularity of its atomic accesses:
    every CPU runs [lock], [try_lock] or the guard's [drop] one access at a
    time, and the steps of different CPUs interleave freely.  A CPU's RFLAGS
    register is a 64-bit word; bit 9 is the interrupt flag. *)
From stdpp Require Import base tactics numbers list relations.
From Stdlib Require Import ZArith Lia.
From S2P Require Import Prelude.

Local Open Scope Z_scope.

(** ** Interrupt flag *)

Definition IF_BIT : Z := 0x200.

Definition interrupts_enabled (rflags : Z) : bool := negb (Z.land rflags IF_BIT =? 0).

(** [pushfq; pop; cli]: the saved word and the register afterwards. *)
Definition save_and_disable_interrupts (rflags : Z) : Z * Z := (rflags, Z.ldiff rflags IF_BIT).

(** The two calls into the x86_64 crate, on the current register: [enable]
    ([interrupts::enable]) and [write] ([rflags::write] of the truncated word). *)
Class RFlagsOps := { rf_enable : Z -> Z; rf_write : Z -> Z -> Z }.

(** Their documented effect on the interrupt flag. *)
Class RFlagsLaws `{!RFlagsOps} : Prop := {
  enable_sets : forall current, interrupts_enabled (rf_enable current) = true;
  write_sets : forall saved current,
    interrupts_enabled (rf_write saved current) = interrupts_enabled saved;
}.

Definition restore_interrupts `{!RFlagsOps} (saved current : Z) : Z :=
  if interrupts_enabled saved then rf_enable current else rf_write saved current.

(** ** One CPU inside the lock code *)

Inductive Phase :=
| Outside
| Spinning (saved : Z)     (* lock(): flags saved, before a successful exchange *)
| Trying (saved : Z)       (* try_lock(): flags saved, before its exchange *)
| Holding (saved : Z)      (* a guard is live *)
| Restoring (saved : Z).   (* lock word released (or try_lock failed), flags not yet restored *)

Record Cpu := mkCpu { phase : Phase; rflags : Z }.

(** [LockedState]: the flag and the protected value. *)
Record LockedState (T : Type) := mkLocked { locked : bool; value : T }.
Arguments mkLocked {T}.
Arguments locked {T}.
Arguments value {T}.

(** [IrqSaveSpinLock::new]. *)
Definition new_lock {T} (v : T) : LockedState T := mkLocked false v.

(** [compare_exchange(false, true)]: success and the new flag. *)
Definition compare_exchange {T} (l : LockedState T) : bool * LockedState T :=
  if locked l then (false, l) else (true, mkLocked true (value l)).

(** ** The accesses of the three operations *)

Definition lock_enter (c : Cpu) : Cpu :=
  let '(saved, flags) := save_and_disable_interrupts (rflags c) in mkCpu (Spinning saved) flags.

(** One turn of the loop of [lock]; [weak] is a spurious failure of
    [compare_exchange_weak]. *)
Definition lock_spin {T} (weak : bool) (saved : Z) (c : Cpu) (l : LockedState T) : Cpu * LockedState T :=
  if weak then (c, l)
  else
    let '(ok, l') := compare_exchange l in
    if ok then (mkCpu (Holding saved) (rflags c), l') else (c, l').

Definition try_enter (c : Cpu) : Cpu :=
  let '(saved, flags) := save_and_disable_interrupts (rflags c) in mkCpu (Trying saved) flags.

Definition try_exchange {T} (saved : Z) (c : Cpu) (l : LockedState T) : Cpu * LockedState T :=
  let '(ok, l') := compare_exchange l in
  if ok then (mkCpu (Holding saved) (rflags c), l') else (mkCpu (Restoring saved) (rflags c), l').

(** [Drop for IrqSaveGuard]: the release store, then the flags. *)
Definition drop_store {T} (saved : Z) (c : Cpu) (l : LockedState T) : Cpu * LockedState T :=
  (mkCpu (Restoring saved) (rflags c), mkLocked false (value l)).

Definition drop_restore `{!RFlagsOps} (saved : Z) (c : Cpu) : Cpu :=
  mkCpu Outside (restore_interrupts saved (rflags c)).

Section machine.
Context {T : Type} `{!RFlagsOps}.

Record Machine := mkMachine { cpus : list Cpu; cell : LockedState T }.

(** Steps of the machine: CPU [i] performs its next access, changes its own
    flags outside the lock code, or writes the value through a guard. *)
Inductive step : Machine -> Machine -> Prop :=
| step_lock i c cs l : cs !! i = Some c -> phase c = Outside ->
    step (mkMachine cs l) (mkMachine (<[i := lock_enter c]> cs) l)
| step_try i c cs l : cs !! i = Some c -> phase c = Outside ->
    step (mkMachine cs l) (mkMachine (<[i := try_enter c]> cs) l)
| step_spin i c cs l saved weak : cs !! i = Some c -> phase c = Spinning saved ->
    let r := lock_spin weak saved c l in
    step (mkMachine cs l) (mkMachine (<[i := fst r]> cs) (snd r))
| step_exchange i c cs l saved : cs !! i = Some c -> phase c = Trying saved ->
    let r := try_exchange saved c l in
    step (mkMachine cs l) (mkMachine (<[i := fst r]> cs) (snd r))
| step_store i c cs l saved : cs !! i = Some c -> phase c = Holding saved ->
    let r := drop_store saved c l in
    step (mkMachine cs l) (mkMachine (<[i := fst r]> cs) (snd r))
| step_restore i c cs l saved : cs !! i = Some c -> phase c = Restoring saved ->
    step (mkMachine cs l) (mkMachine (<[i := drop_restore saved c]> cs) l)
| step_write i c cs l saved v : cs !! i = Some c -> phase c = Holding saved ->
    step (mkMachine cs l) (mkMachine cs (mkLocked (locked l) v))
| step_flags i c cs l rf : cs !! i = Some c -> phase c = Outside ->
    step (mkMachine cs l) (mkMachine (<[i := mkCpu Outside rf]> cs) l).

Definition holding (c : Cpu) : bool := if phase c is Holding _ then true else false.
Definition holders (m : Machine) : nat := length (filter (fun c => holding c = true) (cpus m)).

(** Exactly one holder when the flag is set, none when it is clear; a CPU
    inside the lock code runs with interrupts disabled. *)
Record lock_inv (m : Machine) : Prop := {
  li_holders : holders m = if locked (cell m) then 1%nat else 0%nat;
  li_flags : forall i c, cpus m !! i = Some c -> phase c <> Outside -> interrupts_enabled (rflags c) = false;
}.

Definition b2n (b : bool) : nat := if b then 1%nat else 0%nat.

Lemma holders_insert cs l l' i c c' :
  cs !! i = Some c ->
  (holders (mkMachine (<[i := c']> cs) l') + b2n (holding c) =
   holders (mkMachine cs l) + b2n (holding c'))%nat.
Proof.
  intros Hi. unfold holders. cbn [cpus]. apply list_elem_of_split_length in Hi as (k1 & k2 & -> & ->).
  rewrite insert_app_r_alt by lia. rewrite Nat.sub_diag. simpl.
  rewrite !filter_app, !length_app, !filter_cons.
  destruct (holding c), (holding c'); simpl; lia.
Qed.

Lemma disabled_after_save rf : interrupts_enabled (Z.ldiff rf IF_BIT) = false.
Proof.
  unfold interrupts_enabled, IF_BIT. apply negb_false_iff, Z.eqb_eq.
  rewrite Z.ldiff_land, <-Z.land_assoc. change (Z.land (Z.lnot 0x200) 0x200) with 0. apply Z.land_0_r.
Qed.

(** The shape of every step: one CPU and the lock word change. *)
Lemma lock_inv_insert cs l l' i c c' :
  lock_inv (mkMachine cs l) -> cs !! i = Some c ->
  (b2n (locked l') + b2n (holding c) = b2n (locked l) + b2n (holding c'))%nat ->
  (phase c' <> Outside -> interrupts_enabled (rflags c') = false) ->
  lock_inv (mkMachine (<[i := c']> cs) l').
Proof.
  intros [Hh Hf] Hi Hb Hc'. split; cbn [cell cpus] in *.
  - pose proof (holders_insert cs l l' i c c' Hi). unfold b2n in *.
    destruct (locked l), (locked l'), (holding c), (holding c'); lia.
  - intros j d [(-> & <- & _)|(_ & Hj)]%list_lookup_insert_Some Hp; [auto|by eapply Hf].
Qed.

Lemma step_inv m m' : lock_inv m -> step m m' -> lock_inv m'.
Proof.
  intros Hinv Hstep. destruct Hstep as
    [i c cs l Hi Hp|i c cs l Hi Hp|i c cs l saved weak Hi Hp|i c cs l saved Hi Hp
    |i c cs l saved Hi Hp|i c cs l saved Hi Hp|i c cs l saved v Hi Hp|i c cs l rf Hi Hp];
    try subst r; pose proof (li_flags _ Hinv i c Hi) as Hc; pose proof (li_holders _ Hinv) as Hh;
    rewrite ?Hp in Hc; cbn [cell] in Hh.
  1-2: eapply lock_inv_insert; [done..|unfold holding; by rewrite Hp|intros _; apply disabled_after_save].
  - unfold lock_spin, compare_exchange.
    destruct weak; [simpl; by rewrite list_insert_id|].
    destruct (locked l) eqn:El; [simpl; by rewrite list_insert_id|].
    eapply lock_inv_insert; [done..|unfold holding; by rewrite Hp, El|intros _; by apply Hc].
  - unfold try_exchange, compare_exchange. destruct (locked l) eqn:El;
      (eapply lock_inv_insert; [done..|unfold holding; simpl; by rewrite Hp, El|intros _; by apply Hc]).
  - eapply lock_inv_insert; [done..| |intros _; by apply Hc]. unfold holding. rewrite Hp. simpl.
    pose proof (holders_insert cs l l i c (mkCpu Outside 0) Hi) as Hcnt. unfold holding in Hcnt. rewrite Hp in Hcnt.
    simpl in *. destruct (locked l); simpl; lia.
  - eapply lock_inv_insert; [done..|unfold holding; by rewrite Hp|done].
  - destruct Hinv as [H1 H2]. by split.
  - eapply lock_inv_insert; [done..|unfold holding; by rewrite Hp|done].
Qed.

(** The machine at boot: no CPU in the lock code. *)
Definition boot_machine (flags : list Z) (v : T) : Machine :=
  mkMachine (mkCpu Outside <$> flags) (new_lock v).

Lemma boot_inv flags v : lock_inv (boot_machine flags v).
Proof.
  split; simpl.
  - unfold holders. simpl. induction flags as [|f fs IH]; [done|]. by rewrite fmap_cons, filter_cons.
  - intros i c Hi. rewrite list_lookup_fmap in Hi. destruct (flags !! i); simplify_eq/=. done.
Qed.

Lemma steps_inv m m' : rtc step m m' -> lock_inv m -> lock_inv m'.
Proof. induction 1; eauto using step_inv. Qed.

(** A CPU that holds pins the holder count, so a second one contradicts it. *)
Lemma holder_unique m i j c d si sj :
  lock_inv m -> cpus m !! i = Some c -> cpus m !! j = Some d ->
  phase c = Holding si -> phase d = Holding sj -> i = j.
Proof.
  intros [Hh _] Hi Hj Hc Hd. destruct m as [cs l]. cbn [cpus cell] in *.
  destruct (decide (i = j)) as [|Hne]; [done|].
  pose proof (holders_insert cs l l i c (mkCpu Outside 0) Hi) as H1.
  assert (<[i := mkCpu Outside 0]> cs !! j = Some d) as Hj' by by rewrite list_lookup_insert_ne.
  pose proof (holders_insert _ l l j d (mkCpu Outside 0) Hj') as H2.
  unfold holding in H1, H2. rewrite Hc in H1. rewrite Hd in H2. simpl in *. destruct (locked l); lia.
Qed.

Lemma holder_locked m i c si :
  lock_inv m -> cpus m !! i = Some c -> phase c = Holding si -> locked (cell m) = true.
Proof.
  intros [Hh _] Hi Hc. destruct m as [cs l]. cbn [cpus cell] in *.
  pose proof (holders_insert cs l l i c (mkCpu Outside 0) Hi) as H1.
  unfold holding in H1. rewrite Hc in H1. simpl in *. destruct (locked l); [done|lia].
Qed.

(** The flags word a CPU has to restore. *)
Definition saved_of (p : Phase) : option Z :=
  match p with
  | Outside => None
  | Spinning r | Trying r | Holding r | Restoring r => Some r
  end.

(** C4: Mutual exclusion.  However the CPUs interleave [lock], [try_lock] and guard drops,
    at most one guard is live; while it is, the lock word is set and that CPU runs with
    interrupts disabled. *)
Theorem spinlock_mutual_exclusion flags v m i j c d si sj :
  rtc step (boot_machine flags v) m ->
  cpus m !! i = Some c -> phase c = Holding si ->
  locked (cell m) = true /\ interrupts_enabled (rflags c) = false /\
  (cpus m !! j = Some d -> phase d = Holding sj -> i = j).
Proof.
  intros Hs Hi Hc. pose proof (steps_inv _ _ Hs (boot_inv flags v)) as Hinv. split_and!.
  - by eapply holder_locked.
  - eapply li_flags; [done..|]. by rewrite Hc.
  - intros Hj Hd. by eapply holder_unique.
Qed.

(** Interrupt state.  From the moment a CPU has saved its flags in [lock] or [try_lock] until
    it leaves the lock code, no step of any CPU loses them; when it leaves, after a drop or
    a failed [try_lock], its interrupt flag is the one it entered with. *)
Theorem spinlock_restores_interrupts `{!RFlagsLaws} m m' i c rf :
  step m m' -> cpus m !! i = Some c -> saved_of (phase c) = Some rf ->
  exists c', cpus m' !! i = Some c' /\
    (saved_of (phase c') = Some rf \/
     (phase c' = Outside /\ interrupts_enabled (rflags c') = interrupts_enabled rf)).
Proof.
  intros Hstep Hi Hr.
  assert (forall k c0 (c1 : Cpu), cpus m !! k = Some c0 ->
    (k = i -> saved_of (phase c1) = Some rf \/
       (phase c1 = Outside /\ interrupts_enabled (rflags c1) = interrupts_enabled rf)) ->
    exists c', <[k := c1]> (cpus m) !! i = Some c' /\
      (saved_of (phase c') = Some rf \/
       (phase c' = Outside /\ interrupts_enabled (rflags c') = interrupts_enabled rf))) as Hins.
  { intros k c0 c1 Hk Hc1. destruct (decide (k = i)) as [->|Hne].
    - exists c1. rewrite list_lookup_insert_eq by by eapply lookup_lt_Some. auto.
    - exists c. rewrite list_lookup_insert_ne by done. auto. }
  destruct Hstep; try subst r; cbn [cpus] in *; try (eapply Hins; [done|]; intros ->; simplify_eq);
    repeat match goal with Hp : phase ?c = _ |- _ => rewrite Hp in Hr end; simplify_eq/=; eauto.
  - unfold lock_spin, compare_exchange. left.
    destruct weak, (locked l); simpl; try done; by match goal with Hp : phase _ = _ |- _ => rewrite Hp end.
  - unfold try_exchange, compare_exchange. destruct (locked l); simpl; auto.
  - right. split; [done|]. unfold restore_interrupts. destruct (interrupts_enabled rf) eqn:E.
    + apply enable_sets.
    + by rewrite write_sets.
Qed.
End machine.

(** ** Two CPUs contending *)

#[local] Instance demo_rflags : RFlagsOps :=
  {| rf_enable := fun current => Z.lor current IF_BIT; rf_write := fun saved _ => saved |}.

#[local] Instance demo_rflags_laws : RFlagsLaws.
Proof.
  split; [|done]. intros current. unfold interrupts_enabled. simpl.
  rewrite Z.land_lor_distr_l, Z.land_diag. apply negb_true_iff, Z.eqb_neq. intros [_ H]%Z.lor_eq_0_iff.
  discriminate H.
Qed.

(** CPU 0 holds the lock, CPU 1 spins. *)
Definition demo_contended : Machine (T := nat) :=
  mkMachine [mkCpu (Holding 0x202) 0x2; mkCpu (Spinning 0x202) 0x2] (mkLocked true 7%nat).

Lemma demo_contended_reachable : rtc step (boot_machine [0x202; 0x202] 7%nat) demo_contended.
Proof.
  eapply rtc_l; [eapply (step_lock 0); reflexivity|].
  eapply rtc_l; [eapply (step_lock 1); reflexivity|].
  apply rtc_once.
  exact (step_spin 0 (mkCpu (Spinning 0x202) 0x2)
    [mkCpu (Spinning 0x202) 0x2; mkCpu (Spinning 0x202) 0x2] (new_lock 7%nat) 0x202 false eq_refl eq_refl).
Qed.

Lemma spinlock_mutual_exclusion_witness :
  locked (cell demo_contended) = true /\ interrupts_enabled 0x2 = false.
Proof.
  destruct (spinlock_mutual_exclusion [0x202; 0x202] 7%nat demo_contended 0 0 (mkCpu (Holding 0x202) 0x2)
    (mkCpu (Holding 0x202) 0x2) 0x202 0x202 demo_contended_reachable eq_refl eq_refl) as (H1 & H2 & _).
  split; [exact H1|exact H2].
Defined.

Lemma spinlock_restores_interrupts_witness :
  exists c', cpus (mkMachine (T := nat) [mkCpu Outside 0x202; mkCpu Outside 0x2] (mkLocked false 7%nat)) !! 0%nat = Some c' /\
    (saved_of (phase c') = Some 0x202 \/
     (phase c' = Outside /\ interrupts_enabled (rflags c') = interrupts_enabled 0x202)).
Proof.
  refine (spinlock_restores_interrupts (T := nat)
    (mkMachine [mkCpu (Restoring 0x202) 0x2; mkCpu Outside 0x2] (mkLocked false 7%nat)) _
    0 (mkCpu (Restoring 0x202) 0x2) 0x202 _ eq_refl eq_refl).
  exact (step_restore 0 (mkCpu (Restoring 0x202) 0x2)
    [mkCpu (Restoring 0x202) 0x2; mkCpu Outside 0x2] (mkLocked false 7%nat) 0x202 eq_refl eq_refl).
Defined.
