(* ===== verification/Percpu.v ===== *)
(** Per-CPU state and ready queues (src/kernel/src/percpu.rs).

    [ReadyQueue] is the 256-entry ring with free-running 64-bit cursors; the
    record [PerCpu] has the scheduler-visible fields of a slot, [Percpu] the
    two static tables [PERCPU] and [APIC_TO_SLOT].  A Rust panic (an index
    out of range, or [expect] on [None]) is the value [None]. *)
From stdpp Require Import base tactics numbers list gmap.
From Stdlib Require Import ZArith Lia.
From S2P Require Import Prelude.

Local Open Scope Z_scope.
Local Open Scope word_scope.

Definition MAX_CPUS : nat := 4.
Definition QUEUE_CAPACITY : Z := 256.

(** ** The ready queue *)

Record QueueInner := mkQueue { buf : list Z; head : Z; tail : Z; dropped : Z }.

Definition ReadyQueue_empty : QueueInner := mkQueue (replicate 256 0) 0 0 0.

Definition queue_push (q : QueueInner) (id : Z) : bool * QueueInner :=
  let next := tail q -u64 head q in
  if next >=? QUEUE_CAPACITY then (false, mkQueue (buf q) (head q) (tail q) (dropped q +u64 1))
  else
    let idx := Z.to_nat (tail q mod QUEUE_CAPACITY) in
    (true, mkQueue (<[idx := id]> (buf q)) (head q) (tail q +u64 1) (dropped q)).

Definition queue_pop (q : QueueInner) : option Z * QueueInner :=
  if head q =? tail q then (None, q)
  else
    let idx := Z.to_nat (head q mod QUEUE_CAPACITY) in
    (Some (default 0 (buf q !! idx)), mkQueue (buf q) (head q +u64 1) (tail q) (dropped q)).

Definition queue_peek (q : QueueInner) : option Z :=
  if head q =? tail q then None
  else Some (default 0 (buf q !! Z.to_nat (head q mod QUEUE_CAPACITY))).

Definition dropped_count (q : QueueInner) : Z := dropped q.

(** The queue holds the ids [l], oldest first. *)
Record queue_rep (q : QueueInner) (l : list Z) : Prop := {
  qr_buf : length (buf q) = 256%nat;
  qr_head : 0 <= head q < 2 ^ 64;
  qr_tail : tail q = wrap 64 (head q + Z.of_nat (length l));
  qr_len : (length l <= 256)%nat;
  qr_elems : forall i x, l !! i = Some x ->
    buf q !! Z.to_nat (wrap 64 (head q + Z.of_nat i) mod QUEUE_CAPACITY) = Some x;
}.

Lemma wrap_mod_256 z : wrap 64 z mod 256 = z mod 256.
Proof. unfold wrap. change (2 ^ 64) with (2 ^ 56 * 256). rewrite Z.mul_comm, Z.rem_mul_r by lia. div_lia. Qed.

Lemma queue_len q l :
  queue_rep q l -> wrap 64 (tail q - head q) = Z.of_nat (length l).
Proof.
  intros [_ Hh -> Hl _]. unfold wrap. rewrite Zminus_mod_idemp_l.
  replace (head q + Z.of_nat (length l) - head q) with (Z.of_nat (length l)) by lia.
  apply Z.mod_small. lia.
Qed.

Lemma queue_empty_iff q l : queue_rep q l -> (head q = tail q <-> l = []).
Proof.
  intros Hq. pose proof (queue_len q l Hq) as Hlen. destruct Hq as [_ Hh Ht Hl _]. split.
  - intros E. rewrite E, Z.sub_diag in Hlen. destruct l; [done|]. discriminate Hlen.
  - intros ->. rewrite Ht. simpl. by rewrite Z.add_0_r, wrap_small.
Qed.

(** Positions of distinct queued elements are distinct slots. *)
Lemma slot_distinct h i j :
  0 <= h -> (i < 256)%nat -> (j < 256)%nat -> i <> j ->
  Z.to_nat (wrap 64 (h + Z.of_nat i) mod QUEUE_CAPACITY) <>
  Z.to_nat (wrap 64 (h + Z.of_nat j) mod QUEUE_CAPACITY).
Proof. unfold QUEUE_CAPACITY. rewrite !wrap_mod_256. intros. div_lia. Qed.

Lemma slot_lt h : (Z.to_nat (h mod QUEUE_CAPACITY) < 256)%nat.
Proof. unfold QUEUE_CAPACITY. pose proof (Z.mod_pos_bound h 256). lia. Qed.

Lemma queue_push_rep q l id :
  queue_rep q l ->
  let '(ok, q') := queue_push q id in
  if (length l <? 256)%nat then ok = true /\ queue_rep q' (l ++ [id]) /\ dropped q' = dropped q
  else ok = false /\ queue_rep q' l /\ dropped q' = wrap 64 (dropped q + 1).
Proof.
  intros Hq. unfold queue_push. rewrite (queue_len q l Hq). destruct Hq as [Hb Hh Ht Hl He].
  unfold QUEUE_CAPACITY at 1. destruct (Nat.ltb_spec (length l) 256), (Z.geb_spec (Z.of_nat (length l)) 256);
    try lia; [|by split_and!].
  split; [done|]. split; [|done]. split; simpl.
  - by rewrite length_insert.
  - done.
  - rewrite Ht, length_app. unfold wrap. rewrite Zplus_mod_idemp_l. simpl. f_equal. lia.
  - rewrite length_app. simpl. lia.
  - intros i x Hi. rewrite Ht. apply lookup_app_Some in Hi as [Hi|[Hge Hi]].
    + pose proof (lookup_lt_Some _ _ _ Hi). rewrite list_lookup_insert_ne; [auto|].
      apply slot_distinct; lia.
    + destruct (i - length l)%nat as [|n] eqn:E; [|done]. injection Hi as <-.
      replace i with (length l) by lia. apply list_lookup_insert_eq. rewrite Hb. apply slot_lt.
Qed.

Lemma queue_pop_rep q l :
  queue_rep q l ->
  match l with
  | [] => queue_pop q = (None, q)
  | x :: l' => fst (queue_pop q) = Some x /\ queue_rep (snd (queue_pop q)) l' /\
               dropped (snd (queue_pop q)) = dropped q
  end.
Proof.
  intros Hq. pose proof (queue_empty_iff q l Hq) as He. unfold queue_pop.
  destruct l as [|x l']; [by rewrite (proj2 (Z.eqb_eq _ _)) by tauto|].
  rewrite (proj2 (Z.eqb_neq _ _)) by naive_solver. cbn [fst snd]. destruct Hq as [Hb Hh Ht Hl Hel].
  split.
  - specialize (Hel 0%nat x eq_refl). rewrite Z.add_0_r, (wrap_small 64) in Hel by done. by rewrite Hel.
  - split; [|done]. simpl in Hl. split; simpl; [done|by apply wrap_bound| |lia|].
    + rewrite Ht. simpl length. unfold wrap. rewrite Zplus_mod_idemp_l. f_equal. lia.
    + intros i y Hi. specialize (Hel (S i) y Hi). unfold QUEUE_CAPACITY in *. rewrite !wrap_mod_256 in *.
      rewrite <-Hel. do 2 f_equal. rewrite Zplus_mod, wrap_mod_256, <-Zplus_mod. f_equal. lia.
Qed.

(** ** Slots *)

Record PerCpu := mkPerCpu {
  apic_id : Z;
  online : bool;
  kernel_ready : bool;
  kernel_stack_top : Z;
  cpu_ticks : Z;
  current_task_ : Z;
  current_vcpu_ : Z;
  idle_vcpu_id : Z;
  task_count_ : Z;
  ready_queue : QueueInner;
  self_ptr : Z;
  need_resched : bool;
  timer_fires : Z;
  pending_tlb_flush : Z;
  saved_cr3 : Z;
}.

Definition PerCpu_new : PerCpu :=
  mkPerCpu U32_MAX false false 0 0 0 0 U32_MAX 0 ReadyQueue_empty 0 false 0 0 0.

Definition with_apic_id (p : PerCpu) (v : Z) : PerCpu :=
  mkPerCpu v (online p) (kernel_ready p) (kernel_stack_top p) (cpu_ticks p) (current_task_ p)
    (current_vcpu_ p) (idle_vcpu_id p) (task_count_ p) (ready_queue p) (self_ptr p) (need_resched
    p) (timer_fires p) (pending_tlb_flush p) (saved_cr3 p).
Definition with_online (p : PerCpu) (v : bool) : PerCpu :=
  mkPerCpu (apic_id p) v (kernel_ready p) (kernel_stack_top p) (cpu_ticks p) (current_task_ p)
    (current_vcpu_ p) (idle_vcpu_id p) (task_count_ p) (ready_queue p) (self_ptr p) (need_resched
    p) (timer_fires p) (pending_tlb_flush p) (saved_cr3 p).
Definition with_kernel_ready (p : PerCpu) (v : bool) : PerCpu :=
  mkPerCpu (apic_id p) (online p) v (kernel_stack_top p) (cpu_ticks p) (current_task_ p)
    (current_vcpu_ p) (idle_vcpu_id p) (task_count_ p) (ready_queue p) (self_ptr p) (need_resched
    p) (timer_fires p) (pending_tlb_flush p) (saved_cr3 p).
Definition with_kernel_stack_top (p : PerCpu) (v : Z) : PerCpu :=
  mkPerCpu (apic_id p) (online p) (kernel_ready p) v (cpu_ticks p) (current_task_ p)
    (current_vcpu_ p) (idle_vcpu_id p) (task_count_ p) (ready_queue p) (self_ptr p) (need_resched p)
    (timer_fires p) (pending_tlb_flush p) (saved_cr3 p).
Definition with_current_task (p : PerCpu) (v : Z) : PerCpu :=
  mkPerCpu (apic_id p) (online p) (kernel_ready p) (kernel_stack_top p) (cpu_ticks p) v
    (current_vcpu_ p) (idle_vcpu_id p) (task_count_ p) (ready_queue p) (self_ptr p) (need_resched
    p) (timer_fires p) (pending_tlb_flush p) (saved_cr3 p).
Definition with_current_vcpu (p : PerCpu) (v : Z) : PerCpu :=
  mkPerCpu (apic_id p) (online p) (kernel_ready p) (kernel_stack_top p) (cpu_ticks p)
    (current_task_ p) v (idle_vcpu_id p) (task_count_ p) (ready_queue p) (self_ptr p) (need_resched
    p) (timer_fires p) (pending_tlb_flush p) (saved_cr3 p).
Definition with_idle_vcpu_id (p : PerCpu) (v : Z) : PerCpu :=
  mkPerCpu (apic_id p) (online p) (kernel_ready p) (kernel_stack_top p) (cpu_ticks p)
    (current_task_ p) (current_vcpu_ p) v (task_count_ p) (ready_queue p) (self_ptr p)
    (need_resched p) (timer_fires p) (pending_tlb_flush p) (saved_cr3 p).
Definition with_task_count (p : PerCpu) (v : Z) : PerCpu :=
  mkPerCpu (apic_id p) (online p) (kernel_ready p) (kernel_stack_top p) (cpu_ticks p)
    (current_task_ p) (current_vcpu_ p) (idle_vcpu_id p) v (ready_queue p) (self_ptr p)
    (need_resched p) (timer_fires p) (pending_tlb_flush p) (saved_cr3 p).
Definition with_ready_queue (p : PerCpu) (v : QueueInner) : PerCpu :=
  mkPerCpu (apic_id p) (online p) (kernel_ready p) (kernel_stack_top p) (cpu_ticks p)
    (current_task_ p) (current_vcpu_ p) (idle_vcpu_id p) (task_count_ p) v (self_ptr p)
    (need_resched p) (timer_fires p) (pending_tlb_flush p) (saved_cr3 p).
Definition with_need_resched (p : PerCpu) (v : bool) : PerCpu :=
  mkPerCpu (apic_id p) (online p) (kernel_ready p) (kernel_stack_top p) (cpu_ticks p)
    (current_task_ p) (current_vcpu_ p) (idle_vcpu_id p) (task_count_ p) (ready_queue p) (self_ptr
    p) v (timer_fires p) (pending_tlb_flush p) (saved_cr3 p).

Definition with_pending_tlb_flush (p : PerCpu) (v : Z) : PerCpu :=
  mkPerCpu (apic_id p) (online p) (kernel_ready p) (kernel_stack_top p) (cpu_ticks p)
    (current_task_ p) (current_vcpu_ p) (idle_vcpu_id p) (task_count_ p) (ready_queue p) (self_ptr
    p) (need_resched p) (timer_fires p) v (saved_cr3 p).

(** The static tables. *)
Record Percpu := mkPercpu { PERCPU : list PerCpu; APIC_TO_SLOT : list Z; BSP_APIC_ID : Z }.

Definition percpu_boot : Percpu :=
  mkPercpu (replicate MAX_CPUS PerCpu_new) (replicate 256 0xFF) U32_MAX.

Definition slot_of (cpu : nat) : nat := (cpu mod MAX_CPUS)%nat.

Definition slot (s : Percpu) (i : nat) : PerCpu := default PerCpu_new (PERCPU s !! i).

Definition set_slot (s : Percpu) (i : nat) (p : PerCpu) : Percpu :=
  mkPercpu (<[i := p]> (PERCPU s)) (APIC_TO_SLOT s) (BSP_APIC_ID s).

(** [find_slot]: an existing slot with this APIC ID, else claim the first
    offline slot. *)
Definition find_slot (s : Percpu) (id : Z) : option nat * Percpu :=
  match first_index (fun p => apic_id p =? id) (PERCPU s) with
  | Some i => (Some i, s)
  | None =>
    match first_index (fun p => negb (online p)) (PERCPU s) with
    | Some i => (Some i, set_slot s i (with_online (slot s i) true))
    | None => (None, s)
    end
  end.

(** [slot_for]: [None] is the panic of [expect]. *)
Definition slot_for (s : Percpu) (id : Z) : option (nat * Percpu) :=
  match find_slot s id with
  | (Some i, s') => Some (i, s')
  | (None, _) => None
  end.

Definition apic_id_to_slot (s : Percpu) (id : Z) : option (nat * Percpu) :=
  if id <? 256 then
    let sl := default 0xFF (APIC_TO_SLOT s !! Z.to_nat id) in
    if negb (sl =? 0xFF) then Some (Z.to_nat sl, s) else slot_for s id
  else slot_for s id.

Definition mark_online_for_slot (s : Percpu) (id : Z) (i : nat) : option Percpu :=
  let tbl :=
    if id <? 256 then <[Z.to_nat id := wrap 8 (Z.of_nat i)]> (APIC_TO_SLOT s) else APIC_TO_SLOT s in
  match PERCPU s !! i with
  | Some p =>
    Some (mkPercpu (<[i := with_online (with_apic_id p id) true]> (PERCPU s)) tbl (BSP_APIC_ID s))
  | None => None
  end.

Definition mark_online (s : Percpu) (id : Z) : option Percpu :=
  match slot_for s id with
  | Some (i, s1) => mark_online_for_slot s1 id i
  | None => None
  end.

Definition is_online (s : Percpu) (cpu : nat) : bool := online (slot s (slot_of cpu)).

Definition release_all_aps (s : Percpu) : Percpu :=
  mkPercpu ((fun p => with_kernel_ready p true) <$> PERCPU s) (APIC_TO_SLOT s) (BSP_APIC_ID s).

(** [wait_for_kernel_ready] polls the flag; [reads] are the values the
    successive loads observe, at most 10,000,000 of them. *)
Definition wait_polls : nat := N.to_nat 10000000.
Definition wait_for_kernel_ready (reads : list bool) : bool :=
  existsb (fun b => b) (take wait_polls reads).

Definition set_bsp_apic_id (s : Percpu) (id : Z) : Percpu :=
  mkPercpu (PERCPU s) (APIC_TO_SLOT s) id.
Definition is_bsp (s : Percpu) (current_apic_id : Z) : bool :=
  if BSP_APIC_ID s =? U32_MAX then true else current_apic_id =? BSP_APIC_ID s.

(** ** Scheduler state of a CPU *)

Definition current_task (s : Percpu) (cpu : nat) : Z := current_task_ (slot s (slot_of cpu)).
Definition set_current (s : Percpu) (cpu : nat) (id : Z) : Percpu :=
  set_slot s (slot_of cpu) (with_current_task (slot s (slot_of cpu)) id).
Definition current_vcpu (s : Percpu) (cpu : nat) : Z := current_vcpu_ (slot s (slot_of cpu)).
Definition set_current_vcpu (s : Percpu) (cpu : nat) (id : Z) : Percpu :=
  set_slot s (slot_of cpu) (with_current_vcpu (slot s (slot_of cpu)) id).
Definition task_count (s : Percpu) (cpu : nat) : Z := task_count_ (slot s (slot_of cpu)).
Definition set_task_count (s : Percpu) (cpu : nat) (n : Z) : Percpu :=
  set_slot s (slot_of cpu) (with_task_count (slot s (slot_of cpu)) n).
Definition add_task_count (s : Percpu) (cpu : nat) (delta : Z) : Percpu :=
  let p := slot s (slot_of cpu) in
  if delta >=? 0 then set_slot s (slot_of cpu) (with_task_count p (task_count_ p +u64 delta))
  else set_slot s (slot_of cpu) (with_task_count p (task_count_ p -u64 (- delta))).
Definition set_idle_vcpu (s : Percpu) (cpu : nat) (id : Z) : Percpu :=
  set_slot s (slot_of cpu) (with_idle_vcpu_id (slot s (slot_of cpu)) id).
Definition idle_vcpu (s : Percpu) (cpu : nat) : Z := idle_vcpu_id (slot s (slot_of cpu)).

(** The queue operations through [rq(cpu)]. *)
Definition rq (s : Percpu) (cpu : nat) : QueueInner := ready_queue (slot s (slot_of cpu)).
Definition set_rq (s : Percpu) (cpu : nat) (q : QueueInner) : Percpu :=
  set_slot s (slot_of cpu) (with_ready_queue (slot s (slot_of cpu)) q).
Definition rq_push (s : Percpu) (cpu : nat) (id : Z) : bool * Percpu :=
  let '(ok, q) := queue_push (rq s cpu) id in (ok, set_rq s cpu q).
Definition rq_pop (s : Percpu) (cpu : nat) : option Z * Percpu :=
  let '(r, q) := queue_pop (rq s cpu) in (r, set_rq s cpu q).

(** [find_least_loaded]: accumulator of the loop and the loop over the slots. *)
Record Best := mkBest { best : nat; best_count : Z; found : bool }.

Definition least_step (s : Percpu) (acc : Best) (cpu : nat) : Best :=
  let p := slot s cpu in
  if negb (online p) then acc
  else if task_count_ p <? best_count acc then mkBest cpu (task_count_ p) true
  else mkBest (best acc) (best_count acc) true.

Definition find_least_loaded (s : Percpu) : nat :=
  let acc := fold_left (least_step s) (seq 0 MAX_CPUS) (mkBest 0 U64_MAX false) in
  if negb (found acc) then 0%nat else best acc.

(** ** The queue as a bounded FIFO *)

Inductive QueueOp := OpPush (id : Z) | OpPop | OpPeek | OpDropped.
Inductive QueueResult := RPush (ok : bool) | RId (r : option Z) | RCount (n : Z).

Definition queue_exec (q : QueueInner) (op : QueueOp) : QueueResult * QueueInner :=
  match op with
  | OpPush id => let '(ok, q') := queue_push q id in (RPush ok, q')
  | OpPop => let '(r, q') := queue_pop q in (RId r, q')
  | OpPeek => (RId (queue_peek q), q)
  | OpDropped => (RCount (dropped_count q), q)
  end.

(** Specification: a list of at most 256 ids and a drop counter. *)
Definition fifo_exec (f : list Z * Z) (op : QueueOp) : QueueResult * (list Z * Z) :=
  let '(l, d) := f in
  match op with
  | OpPush id =>
    if (length l <? 256)%nat then (RPush true, (l ++ [id], d)) else (RPush false, (l, wrap 64 (d + 1)))
  | OpPop => (RId (hd_error l), (tl l, d))
  | OpPeek => (RId (hd_error l), (l, d))
  | OpDropped => (RCount d, (l, d))
  end.

Fixpoint run_ops {S : Type} (exec : S -> QueueOp -> QueueResult * S) (s : S) (ops : list QueueOp) : list QueueResult :=
  match ops with
  | [] => []
  | op :: ops => let '(r, s') := exec s op in r :: run_ops exec s' ops
  end.

Lemma queue_peek_rep q l : queue_rep q l -> queue_peek q = hd_error l.
Proof.
  intros Hq. pose proof (queue_pop_rep q l Hq) as Hp. unfold queue_peek, queue_pop in *.
  destruct l as [|x l]; destruct (head q =? tail q); simpl in *; [done|by simplify_eq|by destruct Hp|].
  by destruct Hp as [[= ->] _].
Qed.

Lemma queue_exec_sim q l d op :
  queue_rep q l -> dropped q = d ->
  let '(r, q') := queue_exec q op in
  let '(r', (l', d')) := fifo_exec (l, d) op in
  r = r' /\ queue_rep q' l' /\ dropped q' = d'.
Proof.
  intros Hq <-. destruct op as [id| | |]; simpl.
  - pose proof (queue_push_rep q l id Hq) as H. destruct (queue_push q id) as [ok q'].
    destruct (length l <? 256)%nat; by destruct H as (-> & ? & ?).
  - pose proof (queue_pop_rep q l Hq) as H. destruct (queue_pop q) as [r q'].
    destruct l as [|x l]; simpl in *; [by simplify_eq|]. destruct H as (-> & ? & ?). done.
  - by rewrite (queue_peek_rep q l Hq).
  - done.
Qed.

Lemma run_ops_sim q l d ops :
  queue_rep q l -> dropped q = d -> run_ops queue_exec q ops = run_ops fifo_exec (l, d) ops.
Proof.
  revert q l d. induction ops as [|op ops IH]; intros q l d Hq Hd; [done|]. cbn [run_ops].
  pose proof (queue_exec_sim q l d op Hq Hd) as H. destruct (queue_exec q op) as [r q'].
  destruct (fifo_exec (l, d) op) as [r' [l' d']]. destruct H as (-> & Hq' & Hd'). by rewrite (IH q' l' d').
Qed.

Lemma empty_rep (h : Z) (b : list Z) (d : Z) :
  0 <= h < 2 ^ 64 -> length b = 256%nat -> queue_rep (mkQueue b h h d) [].
Proof. intros Hh Hb. split; simpl; try done; [by rewrite Z.add_0_r, wrap_small|lia]. Qed.

(** C5: The ready queue refines a bounded FIFO: from any empty queue, wherever its free-running
    cursors stand (their wrap-around past [2^64] included), every sequence of pushes, pops,
    peeks and drop-count reads gives the results of a list of at most 256 ids. *)
Theorem ready_queue_refines_fifo b h d ops :
  0 <= h < 2 ^ 64 -> length b = 256%nat ->
  run_ops queue_exec (mkQueue b h h d) ops = run_ops fifo_exec ([], d) ops.
Proof. intros Hh Hb. apply run_ops_sim; [by apply empty_rep|done]. Qed.

Lemma ready_queue_refines_fifo_witness :
  run_ops queue_exec (mkQueue (replicate 256 0) U64_MAX U64_MAX 0) [OpPush 5; OpPush 6; OpPop; OpPop; OpPop] =
  run_ops fifo_exec ([], 0) [OpPush 5; OpPush 6; OpPop; OpPop; OpPop].
Proof. apply (ready_queue_refines_fifo (replicate 256 0) U64_MAX 0); [unfold U64_MAX; lia|reflexivity]. Defined.

(** ** Slot registration *)

(** APIC ID [id] is registered at slot [i]. *)
Definition registered (s : Percpu) (id : Z) (i : nat) : Prop :=
  APIC_TO_SLOT s !! Z.to_nat id = Some (Z.of_nat i) /\
  exists p, PERCPU s !! i = Some p /\ apic_id p = id /\ online p = true.

Record percpu_wf (s : Percpu) : Prop := {
  pw_slots : length (PERCPU s) = MAX_CPUS;
  pw_table : length (APIC_TO_SLOT s) = 256%nat;
  pw_entries : forall id v, 0 <= id < 256 -> APIC_TO_SLOT s !! Z.to_nat id = Some v -> v <> 0xFF ->
    exists i, v = Z.of_nat i /\ registered s id i;
}.

Lemma slot_of_small c : (c < MAX_CPUS)%nat -> slot_of c = c.
Proof. apply Nat.mod_small. Qed.

Lemma percpu_boot_wf : percpu_wf percpu_boot.
Proof.
  split; [done..|]. intros id v Hid Hv Hne. unfold percpu_boot in Hv.
  apply lookup_replicate in Hv as [-> _]. done.
Qed.

(** The chosen slot carries the ID already or was offline. *)
Lemma slot_for_spec s id i s1 :
  slot_for s id = Some (i, s1) ->
  APIC_TO_SLOT s1 = APIC_TO_SLOT s /\ length (PERCPU s1) = length (PERCPU s) /\
  (exists p, PERCPU s !! i = Some p /\ (apic_id p = id \/ online p = false)) /\
  (forall j, j <> i -> PERCPU s1 !! j = PERCPU s !! j).
Proof.
  unfold slot_for, find_slot.
  destruct (first_index (fun p => apic_id p =? id) (PERCPU s)) as [k|] eqn:E1.
  - intros [= <- <-]. apply first_index_Some in E1 as (p & Hp & Hid%Z.eqb_eq & _). split_and!; eauto.
  - destruct (first_index (fun p => negb (online p)) (PERCPU s)) as [k|] eqn:E2; [|done].
    intros [= <- <-]. apply first_index_Some in E2 as (p & Hp & Ho%negb_true_iff & _).
    split_and!; [done|simpl; by rewrite length_insert|eauto|].
    intros j Hj. simpl. by rewrite list_lookup_insert_ne.
Qed.

Lemma mark_online_spec s id s' :
  percpu_wf s -> 0 <= id < 256 -> mark_online s id = Some s' ->
  exists i, registered s' id i /\ percpu_wf s' /\
    (forall id' j, 0 <= id' < 256 -> id' <> id -> registered s id' j -> i <> j /\ registered s' id' j).
Proof.
  intros [Hsl Htb Hent] Hid. unfold mark_online.
  destruct (slot_for s id) as [[i s1]|] eqn:E; [|done].
  apply slot_for_spec in E as (Ht1 & Hl1 & (p & Hp & Hpo) & Hoth).
  unfold mark_online_for_slot. rewrite Ht1, (proj2 (Z.ltb_lt id 256)) by lia.
  pose proof (lookup_lt_Some _ _ _ Hp) as Hlt.
  destruct (PERCPU s1 !! i) as [q|] eqn:Eq; [|done]. intros [= <-].
  rewrite wrap_small by (unfold MAX_CPUS in *; lia).
  assert (forall id' j, 0 <= id' < 256 -> id' <> id -> registered s id' j -> i <> j) as Hne.
  { intros id' j Hid' Hd (_ & r & Hr & Hrid & Hro) ->. rewrite Hp in Hr. simplify_eq.
    destruct Hpo; [done|congruence]. }
  set (s' := mkPercpu _ _ _).
  assert (registered s' id i) as Hreg.
  { split; simpl; [apply list_lookup_insert_eq; lia|].
    exists (with_online (with_apic_id q id) true). split; [|done]. apply list_lookup_insert_eq. lia. }
  assert (forall id' j, 0 <= id' < 256 -> id' <> id -> registered s id' j -> registered s' id' j) as Hkeep.
  { intros id' j Hid' Hd Hr. pose proof (Hne id' j Hid' Hd Hr) as Hij.
    destruct Hr as (Htab & r & Hr & Hr2). split; simpl.
    - rewrite list_lookup_insert_ne by lia. done.
    - exists r. rewrite list_lookup_insert_ne, Hoth by done. done. }
  exists i. split; [done|]. split; [|eauto]. split; simpl; [by rewrite length_insert, Hl1|by rewrite length_insert|].
  intros id' v Hid' Hv Hvne. destruct (decide (id' = id)) as [->|Hd].
  - rewrite list_lookup_insert_eq in Hv by lia. simplify_eq. eauto.
  - rewrite list_lookup_insert_ne in Hv by lia. destruct (Hent id' v Hid' Hv Hvne) as (j & -> & Hr). eauto.
Qed.

Lemma registered_lookup s id i :
  percpu_wf s -> 0 <= id < 256 -> registered s id i -> apic_id_to_slot s id = Some (i, s).
Proof.
  intros Hwf Hid (Ht & p & Hp & _). unfold apic_id_to_slot. rewrite (proj2 (Z.ltb_lt id 256)) by lia.
  rewrite Ht. simpl. pose proof (lookup_lt_Some _ _ _ Hp) as Hlt. rewrite (pw_slots _ Hwf) in Hlt.
  unfold MAX_CPUS in Hlt. rewrite (proj2 (Z.eqb_neq _ _)) by lia. simpl. by rewrite Nat2Z.id.
Qed.

(** CPU registration.  [mark_online] of an APIC ID below 256 keeps the tables consistent, the
    constant-time lookup then finds its slot without side effect, and every CPU registered
    before keeps its own, different slot. *)
Theorem mark_online_registers s id s' :
  percpu_wf s -> 0 <= id < 256 -> mark_online s id = Some s' ->
  percpu_wf s' /\ exists i, registered s' id i /\ apic_id_to_slot s' id = Some (i, s') /\
    (forall id' j, 0 <= id' < 256 -> id' <> id -> registered s id' j ->
       i <> j /\ apic_id_to_slot s' id' = Some (j, s')).
Proof.
  intros Hwf Hid Hm. destruct (mark_online_spec s id s' Hwf Hid Hm) as (i & Hr & Hwf' & Hoth).
  split; [done|]. exists i. split_and!; [done|by apply registered_lookup|].
  intros id' j Hid' Hne Hj. destruct (Hoth id' j Hid' Hne Hj) as [? ?].
  split; [done|]. by apply registered_lookup.
Qed.

Definition two_cpus : Percpu := default percpu_boot (mark_online percpu_boot 0 ≫= fun s => mark_online s 7).

Lemma mark_online_registers_witness :
  exists s1, mark_online percpu_boot 0 = Some s1 /\ percpu_wf s1.
Proof.
  exists (default percpu_boot (mark_online percpu_boot 0)). split; [vm_compute; reflexivity|].
  apply (mark_online_registers percpu_boot 0); [apply percpu_boot_wf|lia|vm_compute; reflexivity].
Defined.

(** Looking up an APIC ID that was never registered is not a pure lookup: each call claims one
    more slot (marks it online with no CPU behind it), so after one registration three
    lookups of the same unknown ID use up the table and the fourth one panics. *)
Theorem unknown_lookup_exhausts_slots :
  exists s1 s2 s3,
    apic_id_to_slot (default percpu_boot (mark_online percpu_boot 0)) 9 = Some (1%nat, s1) /\
    apic_id_to_slot s1 9 = Some (2%nat, s2) /\ apic_id_to_slot s2 9 = Some (3%nat, s3) /\
    apic_id_to_slot s3 9 = None /\ mark_online s3 9 = None /\
    online <$> PERCPU s3 = [true; true; true; true].
Proof. do 3 eexists. split_and!; vm_compute; reflexivity. Qed.

(** ** Load balancing *)

Lemma least_fold s cpus acc :
  (forall c, c ∈ cpus -> 0 <= task_count_ (slot s c) < U64_MAX) ->
  let r := fold_left (least_step s) cpus acc in
  (found r = true <-> found acc = true \/ exists c, c ∈ cpus /\ online (slot s c) = true) /\
  best_count r <= best_count acc /\
  (forall c, c ∈ cpus -> online (slot s c) = true -> best_count r <= task_count_ (slot s c)) /\
  (r = mkBest (best acc) (best_count acc) (found r) \/
   (best r ∈ cpus /\ online (slot s (best r)) = true /\ best_count r = task_count_ (slot s (best r)))).
Proof.
  cbv zeta. revert acc. induction cpus as [|c cpus IH]; intros acc Hb; cbn [fold_left].
  { split_and!; [naive_solver set_solver|lia|set_solver|left; by destruct acc]. }
  destruct (IH (least_step s acc c)) as (Hf & Hle & Hmin & Hwho); [set_solver|].
  set (r := fold_left (least_step s) cpus (least_step s acc c)) in *. clearbody r.
  unfold least_step in *. destruct (online (slot s c)) eqn:Eo; cbn [negb] in *.
  - destruct (Z.ltb_spec (task_count_ (slot s c)) (best_count acc)); cbn [best best_count found] in *.
    + split_and!; [naive_solver set_solver|lia| |].
      * intros d [->|Hd]%elem_of_cons Ho; auto.
      * right. destruct Hwho as [->|(H1 & H2 & H3)]; simpl; [split_and!; (done || set_solver)|split_and!; (done || set_solver)].
    + split_and!; [naive_solver set_solver|lia| |].
      * intros d [->|Hd]%elem_of_cons Ho; [lia|auto].
      * destruct Hwho as [Hr|(H1 & H2 & H3)]; [by left|right; split_and!; (done || set_solver)].
  - split_and!; [|lia| |].
    + rewrite Hf. split; [naive_solver set_solver|]. intros [?|(d & Hd & Ho)]; [by left|].
      apply elem_of_cons in Hd as [->|Hd]; [congruence|eauto].
    + intros d [->|Hd]%elem_of_cons Ho; [congruence|auto].
    + destruct Hwho as [Hr|(H1 & H2 & H3)]; [by left|right; split_and!; (done || set_solver)].
Qed.

(** [find_least_loaded] picks an online CPU whose task count is minimal among the online CPUs,
    and CPU 0 when none is online. *)
Theorem find_least_loaded_minimal s :
  (forall c, (c < MAX_CPUS)%nat -> 0 <= task_count_ (slot s c) < U64_MAX) ->
  let b := find_least_loaded s in
  (forall c, (c < MAX_CPUS)%nat -> online (slot s c) = true ->
     (b < MAX_CPUS)%nat /\ online (slot s b) = true /\ task_count_ (slot s b) <= task_count_ (slot s c)) /\
  ((forall c, (c < MAX_CPUS)%nat -> online (slot s c) = false) -> b = 0%nat).
Proof.
  intros Hb. cbv zeta. unfold find_least_loaded.
  assert (forall c, c ∈ seq 0 MAX_CPUS <-> (c < MAX_CPUS)%nat) as Hseq
    by (intros c; rewrite elem_of_seq; lia).
  destruct (least_fold s (seq 0 MAX_CPUS) (mkBest 0 U64_MAX false)) as (Hf & Hle & Hmin & Hwho).
  { intros c Hc%Hseq. auto. }
  set (r := fold_left _ _ _) in *. clearbody r. cbn [best best_count found] in *. split.
  - intros c Hc Ho. assert (found r = true) as Hfound by (apply Hf; right; exists c; by rewrite Hseq).
    rewrite Hfound. simpl. specialize (Hmin c (proj2 (Hseq c) Hc) Ho). specialize (Hb c Hc).
    destruct Hwho as [Hr|(H1 & H2 & H3)]; [rewrite Hr in Hmin; simpl in Hmin; lia|].
    split_and!; [by apply Hseq|done|lia].
  - intros Hoff. destruct (found r) eqn:E; [|done].
    destruct (proj1 Hf eq_refl) as [?|(c & Hc%Hseq & Ho)]; [done|]. by rewrite Hoff in Ho.
Qed.

Lemma find_least_loaded_minimal_witness :
  let s := add_task_count two_cpus 0 3 in
  find_least_loaded s = 1%nat /\ online (slot s (find_least_loaded s)) = true.
Proof.
  cbv zeta. split; [vm_compute; reflexivity|].
  destruct (find_least_loaded_minimal (add_task_count two_cpus 0 3)) as [H _].
  - intros c Hc. unfold MAX_CPUS in Hc.
    assert (c = 0 \/ c = 1 \/ c = 2 \/ c = 3)%nat as [-> | [-> | [-> | ->]]] by lia;
      vm_compute; split; [discriminate|reflexivity|discriminate|reflexivity
                         |discriminate|reflexivity|discriminate|reflexivity].
  - apply (H 1%nat); [unfold MAX_CPUS; lia|vm_compute; reflexivity].
Defined.
