(* ===== verification/Slab.v ===== *)
(** Fixed-size tables of optional entries with a live count: the shape shared
    by the vCPU slab (src/kernel/src/vcpu.rs) and the service table
    (src/kernel/src/service.rs).  An entry is allocated at the lowest free
    index; [count] caches the number of live entries. *)
From stdpp Require Import base tactics numbers list.
From Stdlib Require Import ZArith Lia.
From S2P Require Import Prelude.

Section slab.
Context {A : Type}.
Implicit Types (l : list (option A)).

Definition is_none (o : option A) : bool := if o is None then true else false.

(** [for i in 0..MAX { if entries[i].is_none() { .. } }] *)
Definition first_free (l : list (option A)) : option nat := first_index is_none l.

Fixpoint live (l : list (option A)) : nat :=
  match l with
  | [] => 0
  | Some _ :: l => S (live l)
  | None :: l => live l
  end.

Lemma live_le l : live l <= length l.
Proof. induction l as [|[x|] l IH]; simpl; lia. Qed.

Lemma first_free_None l : first_free l = None <-> live l = length l.
Proof.
  unfold first_free. induction l as [|[x|] l IH]; simpl; [done| |].
  - destruct (first_index is_none l); simpl; split; intros H; try done; [|f_equal; by apply IH].
    assert (Some n = None) by (apply IH; lia). done.
  - pose proof (live_le l). split; [done|lia].
Qed.

Lemma first_free_Some l i :
  first_free l = Some i -> l !! i = Some None /\ forall j, j < i -> exists x, l !! j = Some (Some x).
Proof.
  intros H. pose proof H as Hi. apply first_index_Some in H as (o & Ho & Hn & Hlt).
  destruct o; [done|]. split; [done|]. intros j Hj.
  destruct (l !! j) as [[x|]|] eqn:E; [eauto|specialize (Hlt j None Hj E); done|].
  apply lookup_ge_None in E. apply lookup_lt_Some in Ho. lia.
Qed.

Lemma live_insert l i o o' :
  l !! i = Some o ->
  live (<[i := o']> l) + (if o is Some _ then 1 else 0) = live l + (if o' is Some _ then 1 else 0).
Proof.
  revert i. induction l as [|e l IH]; intros [|i] Hi; simpl in *; [done..| |].
  - injection Hi as ->. destruct o, o'; simpl; lia.
  - specialize (IH i Hi). destruct e; simpl; lia.
Qed.

(** Well-formed table of capacity [n]: [count] is the number of live
    entries and [key] (the entry's id field) is its index. *)
Record slab_wf (n : nat) (key : A -> Z) (l : list (option A)) (count : Z) : Prop := {
  sw_length : length l = n;
  sw_count : count = Z.of_nat (live l);
  sw_keys : forall i x, l !! i = Some (Some x) -> key x = Z.of_nat i;
}.

Lemma slab_wf_insert n key l count i x :
  slab_wf n key l count -> l !! i = Some None -> key x = Z.of_nat i ->
  slab_wf n key (<[i := Some x]> l) (count + 1)%Z.
Proof.
  intros [Hl Hc Hk] Hi Hx. split; [by rewrite length_insert| |].
  - pose proof (live_insert l i None (Some x) Hi) as Hlv. simpl in Hlv. lia.
  - intros j y [(-> & [= <-] & _)|(_ & Hj)]%list_lookup_insert_Some; [congruence|by eapply Hk].
Qed.

Lemma slab_wf_delete n key l count i x :
  slab_wf n key l count -> l !! i = Some (Some x) ->
  slab_wf n key (<[i := None]> l) (count - 1)%Z /\ (1 <= count)%Z.
Proof.
  intros [Hl Hc Hk] Hi. pose proof (live_insert l i (Some x) None Hi) as Hlv. simpl in Hlv.
  split; [|lia]. split; [by rewrite length_insert|lia|].
  intros j y [(-> & [=] & _)|(_ & Hj)]%list_lookup_insert_Some. by eapply Hk.
Qed.

Lemma slab_wf_update n key l count i x y :
  slab_wf n key l count -> l !! i = Some (Some x) -> key y = key x ->
  slab_wf n key (<[i := Some y]> l) count.
Proof.
  intros [Hl Hc Hk] Hi Hy. pose proof (live_insert l i (Some x) (Some y) Hi) as Hlv. simpl in Hlv.
  split; [by rewrite length_insert|lia|].
  intros j z [(-> & [= <-] & _)|(_ & Hj)]%list_lookup_insert_Some; [rewrite Hy|]; by eapply Hk.
Qed.

(** A full table: no free index, and the count has reached the capacity. *)
Lemma slab_full n key l count :
  slab_wf n key l count -> (count < Z.of_nat n)%Z <-> exists i, first_free l = Some i.
Proof.
  intros [Hl -> _]. pose proof (live_le l). destruct (first_free l) as [i|] eqn:E.
  - assert (live l <> length l) by (intros H1%first_free_None; congruence). split; [eauto|lia].
  - apply first_free_None in E. split; [lia|by intros [i [=]]].
Qed.

Lemma slab_wf_empty n key : slab_wf n key (replicate n None) 0.
Proof.
  split; [by rewrite length_replicate| |].
  - induction n; simpl; lia.
  - by intros i x [? _]%lookup_replicate.
Qed.
End slab.
