(* ===== verification/KMem.v ===== *)
(** The interface between the task-level components ([Vcpu], [Scheduler],
    [Gdf]) and memory management (src/kernel/src/mm): the calls they make into
    [virt], [phys] and the heap, on an abstract memory state [M], and the laws
    their theorems rely on.  [FlatMem] is an instance over the real page
    allocator model and a flat table of leaf entries. *)
From stdpp Require Import base tactics numbers list gmap.
From Stdlib Require Import ZArith Lia.
From S2P Require Import Prelude Phys.

Local Open Scope Z_scope.

Definition HIGHER_HALF : Z := 0xFFFF800000000000.
Definition KERNEL_STACK_SIZE : Z := 16384.
Definition PRESENT : Z := 1.

(** [pte & virt::PRESENT != 0]. *)
Definition pte_present (pte : Z) : bool := negb (Z.land pte PRESENT =? 0).

Class KernelMem (M : Type) := {
  kernel_pml4 : M -> Z;
  pml4_address : M -> Z;                         (* CR3 of the calling CPU *)
  read_pte : M -> Z -> Z -> option Z;            (* pml4, virt *)
  write_pte : M -> Z -> Z -> Z -> M;             (* pml4, virt, new entry *)
  tlb_shootdown_range : M -> Z -> Z -> M;
  map_contiguous : M -> Z -> Z -> Z -> Z -> M;   (* pml4, virt, phys, pages; flags DATA *)
  unmap : M -> Z -> M;
  free_pml4 : M -> Z -> M;
  pages_alloc : M -> Z -> option Z * M;          (* phys::alloc_pages *)
  pages_free : M -> Z -> Z -> M;                 (* phys::free_pages *)
  write_bytes : M -> Z -> Z -> Z -> M;           (* address, byte, length *)
  write_u64 : M -> Z -> Z -> M;
  drop_process_mem : M -> Z -> M;                (* drop(Box::from_raw(ptr)) *)
}.

(** A leaf entry of [pml4] for [virt] is present. *)
Definition mapped {M} `{!KernelMem M} (m : M) (pml4 virt : Z) : Prop :=
  exists pte, read_pte m pml4 virt = Some pte /\ pte_present pte = true.

(** Clearing an entry, invalidating TLBs, and releasing memory that holds no
    page table never make an address mapped. *)
Class KernelMemLaws (M : Type) `{!KernelMem M} : Prop := {
  clear_unmaps : forall (m : M) p v, ~ mapped (write_pte m p v 0) p v;
  clear_mono : forall (m : M) p v v', mapped (write_pte m p v 0) p v' -> mapped m p v';
  clear_pml4 : forall (m : M) p v, kernel_pml4 (write_pte m p v 0) = kernel_pml4 m;
  shootdown_mono : forall (m : M) s e p v, mapped (tlb_shootdown_range m s e) p v -> mapped m p v;
  free_mono : forall (m : M) a n p v, mapped (pages_free m a n) p v -> mapped m p v;
  drop_mono : forall (m : M) a p v, mapped (drop_process_mem m a) p v -> mapped m p v;
}.

(** ** A flat instance

    Leaf entries by (table, page), the allocator of [Phys], CR3. *)
Record FlatMem := mkFlat {
  fm_ptes : gmap (Z * Z) Z;
  fm_phys : PhysState;
  fm_kpml4 : Z;
  fm_cr3 : Z;
}.

Definition flat_key (p v : Z) : Z * Z := (p, v / PAGE_SIZE).

Definition flat_map (m : FlatMem) (p v a n : Z) : FlatMem :=
  mkFlat (foldr (fun i t => <[flat_key p (v + i * PAGE_SIZE) := a + i * PAGE_SIZE + 3]> t)
    (fm_ptes m) (seqZ 0 n)) (fm_phys m) (fm_kpml4 m) (fm_cr3 m).

#[export] Instance FlatMem_ops : KernelMem FlatMem := {|
  kernel_pml4 := fm_kpml4;
  pml4_address := fm_cr3;
  read_pte := fun m p v => fm_ptes m !! flat_key p v;
  write_pte := fun m p v pte =>
    if fm_ptes m !! flat_key p v is Some _
    then mkFlat (<[flat_key p v := pte]> (fm_ptes m)) (fm_phys m) (fm_kpml4 m) (fm_cr3 m) else m;
  tlb_shootdown_range := fun m _ _ => m;
  map_contiguous := flat_map;
  unmap := fun m v =>
    mkFlat (delete (flat_key (fm_cr3 m) v) (fm_ptes m)) (fm_phys m) (fm_kpml4 m) (fm_cr3 m);
  free_pml4 := fun m p => mkFlat (filter (fun '((q, _), _) => q <> p) (fm_ptes m))
    (fm_phys m) (fm_kpml4 m) (fm_cr3 m);
  pages_alloc := fun m n =>
    let '(r, s) := alloc_pages (fm_phys m) n in (r, mkFlat (fm_ptes m) s (fm_kpml4 m) (fm_cr3 m));
  pages_free := fun m a n =>
    mkFlat (fm_ptes m) (free_pages_range (fm_phys m) a n) (fm_kpml4 m) (fm_cr3 m);
  write_bytes := fun m _ _ _ => m;
  write_u64 := fun m _ _ => m;
  drop_process_mem := fun m _ => m;
|}.

#[export] Instance FlatMem_laws : KernelMemLaws FlatMem.
Proof.
  assert (forall (m : FlatMem) p v, write_pte m p v 0 =
    if fm_ptes m !! flat_key p v is Some _
    then mkFlat (<[flat_key p v := 0]> (fm_ptes m)) (fm_phys m) (fm_kpml4 m) (fm_cr3 m) else m) as Hw by done.
  split; try done.
  - intros m p v (pte & Hr & Hp). rewrite Hw in Hr. simpl in Hr.
    destruct (fm_ptes m !! flat_key p v) eqn:E; simpl in Hr; [rewrite lookup_insert_eq in Hr|congruence].
    by simplify_eq.
  - intros m p v v' (pte & Hr & Hp). rewrite Hw in Hr. simpl in Hr.
    destruct (fm_ptes m !! flat_key p v) eqn:E; simpl in Hr; [|by exists pte].
    apply lookup_insert_Some in Hr as [[_ <-]|[_ Hr]]; [done|by exists pte].
  - intros m p v. rewrite Hw. by destruct (fm_ptes m !! flat_key p v).
Qed.
