(* ===== verification/Vcpu.v ===== *)
(** The vCPU slab (src/kernel/src/vcpu.rs): 128 optional vCPU records with a
    live count.  Releasing a vCPU unmaps its kernel stack and gives the frames
    and its process memory back, through the interface of [KMem]. *)
From stdpp Require Import base tactics numbers list sets.
From Stdlib Require Import ZArith Lia.
From S2P Require Import Prelude Phys KMem Slab.

Local Open Scope Z_scope.
Local Open Scope word_scope.

(** [arch::idt::TrapFrame]. *)
Record TrapFrame := mkFrame {
  r15 : Z; r14 : Z; r13 : Z; r12 : Z; r11 : Z; r10 : Z; r9 : Z; r8 : Z;
  rax : Z; rbx : Z; rcx : Z; rdx : Z; rbp : Z; rsi : Z; rdi : Z;
  vector : Z; error_code : Z; rip : Z; cs : Z; rflags : Z; rsp : Z; ss : Z;
}.

(** A frame whose registers other than [rdi] and the return state are zero. *)
Definition frame_of (rdi rip cs rflags rsp ss : Z) : TrapFrame :=
  mkFrame 0 0 0 0 0 0 0 0 0 0 0 0 0 0 rdi 0 0 rip cs rflags rsp ss.

Definition set_rsp (f : TrapFrame) (v : Z) : TrapFrame :=
  mkFrame (r15 f) (r14 f) (r13 f) (r12 f) (r11 f) (r10 f) (r9 f) (r8 f) (rax f) (rbx f) (rcx f) (rdx f)
    (rbp f) (rsi f) (rdi f) (vector f) (error_code f) (rip f) (cs f) (rflags f) v (ss f).
Definition set_ss (f : TrapFrame) (v : Z) : TrapFrame :=
  mkFrame (r15 f) (r14 f) (r13 f) (r12 f) (r11 f) (r10 f) (r9 f) (r8 f) (rax f) (rbx f) (rcx f) (rdx f)
    (rbp f) (rsi f) (rdi f) (vector f) (error_code f) (rip f) (cs f) (rflags f) (rsp f) v.

(** The 512 bytes of FXSAVE state. *)
Definition FpuState : Type := list Z.
Definition FPU_STATE_INIT : FpuState :=
  <[29%nat := 0xFF]> (<[28%nat := 0xFF]> (<[25%nat := 0x1F]> (<[24%nat := 0x80]>
  (<[4%nat := 0xFF]> (<[1%nat := 0x03]> (<[0%nat := 0x7F]> (replicate 512 0))))))).

Definition GANG_UNSCHEDULED : Z := 0.
Definition FRAME_MAGIC : Z := 0xDEADBEEFCAFEBABE.
Definition MAX_VCPUS : nat := 128.

Inductive VcpuState := Ready | Running | Halted | Blocked | Terminated | VIdle.
Inductive VcpuType := Normal | HardwareDriver | AbstractionDriver | TIdle.

#[export] Instance VcpuState_eq_dec : EqDecision VcpuState.
Proof. solve_decision. Defined.
#[export] Instance VcpuType_eq_dec : EqDecision VcpuType.
Proof. solve_decision. Defined.

Record Vcpu := mkVcpu {
  id : Z;
  gang_id : Z;
  vcpu_type : VcpuType;
  state : VcpuState;
  affinity : Z;
  saved_frame : TrapFrame;
  frame_magic : Z;
  kernel_stack_top : Z;
  pml4 : Z;
  vruntime : Z;
  fpu_state : FpuState;
  process_mem : Z;   (* raw pointer, 0 is null *)
}.

Definition set_state (v : Vcpu) (x : VcpuState) : Vcpu :=
  mkVcpu (id v) (gang_id v) (vcpu_type v) x (affinity v) (saved_frame v) (frame_magic v)
    (kernel_stack_top v) (pml4 v) (vruntime v) (fpu_state v) (process_mem v).
Definition set_vruntime (v : Vcpu) (x : Z) : Vcpu :=
  mkVcpu (id v) (gang_id v) (vcpu_type v) (state v) (affinity v) (saved_frame v) (frame_magic v)
    (kernel_stack_top v) (pml4 v) x (fpu_state v) (process_mem v).
Definition set_frame (v : Vcpu) (x : TrapFrame) : Vcpu :=
  mkVcpu (id v) (gang_id v) (vcpu_type v) (state v) (affinity v) x (frame_magic v)
    (kernel_stack_top v) (pml4 v) (vruntime v) (fpu_state v) (process_mem v).
Definition set_magic (v : Vcpu) (x : Z) : Vcpu :=
  mkVcpu (id v) (gang_id v) (vcpu_type v) (state v) (affinity v) (saved_frame v) x
    (kernel_stack_top v) (pml4 v) (vruntime v) (fpu_state v) (process_mem v).
Definition set_fpu (v : Vcpu) (x : FpuState) : Vcpu :=
  mkVcpu (id v) (gang_id v) (vcpu_type v) (state v) (affinity v) (saved_frame v) (frame_magic v)
    (kernel_stack_top v) (pml4 v) (vruntime v) x (process_mem v).
Definition set_gang (v : Vcpu) (x : Z) : Vcpu :=
  mkVcpu (id v) x (vcpu_type v) (state v) (affinity v) (saved_frame v) (frame_magic v)
    (kernel_stack_top v) (pml4 v) (vruntime v) (fpu_state v) (process_mem v).
Definition set_stack (v : Vcpu) (x : Z) : Vcpu :=
  mkVcpu (id v) (gang_id v) (vcpu_type v) (state v) (affinity v) (saved_frame v) (frame_magic v)
    x (pml4 v) (vruntime v) (fpu_state v) (process_mem v).
Definition set_pml4 (v : Vcpu) (x : Z) : Vcpu :=
  mkVcpu (id v) (gang_id v) (vcpu_type v) (state v) (affinity v) (saved_frame v) (frame_magic v)
    (kernel_stack_top v) x (vruntime v) (fpu_state v) (process_mem v).
Definition set_process_mem (v : Vcpu) (x : Z) : Vcpu :=
  mkVcpu (id v) (gang_id v) (vcpu_type v) (state v) (affinity v) (saved_frame v) (frame_magic v)
    (kernel_stack_top v) (pml4 v) (vruntime v) (fpu_state v) x.

Record VcpuSlab := mkSlab { vcpus : list (option Vcpu); count : Z; initialized : bool }.

Definition vcpu_slab_boot : VcpuSlab := mkSlab (replicate MAX_VCPUS None) 0 false.

Definition vcpu_init (s : VcpuSlab) : VcpuSlab := mkSlab (vcpus s) 0 true.
Definition vcpu_is_initialized (s : VcpuSlab) : bool := initialized s.

Definition fresh_vcpu (i : nat) (gang pml4_ affinity_ : Z) (ty : VcpuType) : Vcpu :=
  mkVcpu (Z.of_nat i) gang ty Halted affinity_ (frame_of 0 0 0x08 0x202 0 0x10) 0 0 pml4_ 0
    FPU_STATE_INIT 0.

Definition vcpu_alloc (s : VcpuSlab) (gang pml4_ affinity_ : Z) (ty : VcpuType)
    : option Z * VcpuSlab :=
  if count s >=? Z.of_nat MAX_VCPUS then (None, s)
  else
    match first_free (vcpus s) with
    | Some i =>
      (Some (Z.of_nat i),
       mkSlab (<[i := Some (fresh_vcpu i gang pml4_ affinity_ ty)]> (vcpus s)) (count s +u64 1) (initialized s))
    | None => (None, s)
    end.

(** [get] and the read accessor [with]: the entry, [None] out of range. *)
Definition vcpu_get (s : VcpuSlab) (vid : Z) : option Vcpu :=
  let idx := Z.to_nat vid in
  if (idx <? MAX_VCPUS)%nat then default None (vcpus s !! idx) else None.

Definition vcpu_with {R} (s : VcpuSlab) (vid : Z) (f : option Vcpu -> R) : R := f (vcpu_get s vid).

(** [with_mut]: the closure sees the entry and may replace it. *)
Definition vcpu_set (s : VcpuSlab) (vid : Z) (v : Vcpu) : VcpuSlab :=
  mkSlab (<[Z.to_nat vid := Some v]> (vcpus s)) (count s) (initialized s).

Definition vcpu_with_mut {R} (s : VcpuSlab) (vid : Z) (f : option Vcpu -> R * option Vcpu)
    : R * VcpuSlab :=
  match vcpu_get s vid with
  | Some v =>
    match f (Some v) with
    | (r, Some v') => (r, vcpu_set s vid v')
    | (r, None) => (r, s)
    end
  | None => (fst (f None), s)
  end.

(** The common closure [if let Some(vcpu) = v { .. }]. *)
Definition vcpu_update (s : VcpuSlab) (vid : Z) (f : Vcpu -> Vcpu) : VcpuSlab :=
  match vcpu_get s vid with
  | Some v => vcpu_set s vid (f v)
  | None => s
  end.

Definition get_vcpu_type (s : VcpuSlab) (vid : Z) : VcpuType :=
  vcpu_with s vid (fun v => if v is Some x then vcpu_type x else TIdle).

(** [with_process_mut]: [None] is the panic. *)
Definition with_process_mut {R} (s : VcpuSlab) (vid : Z) (f : Z -> R) : option R :=
  match vcpu_get s vid with
  | Some v => if process_mem v =? 0 then None else Some (f (process_mem v))
  | None => None
  end.

Definition vcpu_count (s : VcpuSlab) : Z := count s.

Section free.
Context {M : Type} `{!KernelMem M}.

(** Clearing one present leaf entry of the kernel tables. *)
Definition clear_entry (kpml4 : Z) (m : M) (addr : Z) : M :=
  match read_pte m kpml4 addr with
  | Some pte => if pte_present pte then write_pte m kpml4 addr 0 else m
  | None => m
  end.

Definition STACK_PAGES : Z := KERNEL_STACK_SIZE / PAGE_SIZE.

(** The kernel stack: guard page and stack pages unmapped, TLBs shot down,
    the frames freed. *)
Definition release_stack (m : M) (stack_top : Z) : M :=
  let stack_virt_base := stack_top -u64 KERNEL_STACK_SIZE in
  let stack_phys := stack_virt_base -u64 HIGHER_HALF -u64 PAGE_SIZE in
  let kpml4 := kernel_pml4 m in
  let guard_addr := stack_virt_base -u64 PAGE_SIZE in
  let m1 := clear_entry kpml4 m guard_addr in
  let m2 := fold_left (fun m p => clear_entry kpml4 m (stack_virt_base +u64 (p *u64 PAGE_SIZE)))
              (seqZ 0 STACK_PAGES) m1 in
  let m3 := tlb_shootdown_range m2 guard_addr (stack_virt_base +u64 KERNEL_STACK_SIZE) in
  pages_free m3 stack_phys (STACK_PAGES + 1).

Definition release_resources (m : M) (v : Vcpu) : M :=
  let m1 :=
    if negb (bool_decide (vcpu_type v = TIdle)) && negb (kernel_stack_top v =? 0)
    then release_stack m (kernel_stack_top v) else m in
  if process_mem v =? 0 then m1 else drop_process_mem m1 (process_mem v).

Definition vcpu_free (s : VcpuSlab) (m : M) (vid : Z) : VcpuSlab * M :=
  let idx := Z.to_nat vid in
  if (idx <? MAX_VCPUS)%nat then
    match vcpus s !! idx with
    | Some (Some v) =>
      (mkSlab (<[idx := None]> (vcpus s)) (saturating_sub (count s) 1) (initialized s),
       release_resources m v)
    | _ => (s, m)
    end
  else (s, m).
End free.

(** ** Slab invariant *)

Definition vcpu_wf (s : VcpuSlab) : Prop := slab_wf MAX_VCPUS id (vcpus s) (count s).

Lemma vcpu_boot_wf : vcpu_wf vcpu_slab_boot.
Proof. apply slab_wf_empty. Qed.

Lemma vcpu_get_lookup s vid :
  vcpu_wf s -> 0 <= vid -> vcpu_get s vid = default None (vcpus s !! Z.to_nat vid).
Proof.
  intros Hwf Hv. unfold vcpu_get. destruct (Nat.ltb_spec (Z.to_nat vid) MAX_VCPUS); [done|].
  by rewrite lookup_ge_None_2 by (rewrite (sw_length _ _ _ _ Hwf); lia).
Qed.

Lemma vcpu_get_Some s vid v :
  vcpu_wf s -> 0 <= vid -> vcpu_get s vid = Some v ->
  vcpus s !! Z.to_nat vid = Some (Some v) /\ vid < 128 /\ id v = vid.
Proof.
  intros Hwf Hv Hg. rewrite vcpu_get_lookup in Hg by done.
  destruct (vcpus s !! Z.to_nat vid) as [o|] eqn:E; simpl in Hg; [|done]. subst o.
  pose proof (lookup_lt_Some _ _ _ E) as Hlt. rewrite (sw_length _ _ _ _ Hwf) in Hlt. unfold MAX_VCPUS in Hlt.
  split_and!; [done|lia|]. rewrite (sw_keys _ _ _ _ Hwf _ _ E). lia.
Qed.

Lemma vcpu_update_wf s vid f :
  vcpu_wf s -> 0 <= vid -> (forall v, id (f v) = id v) -> vcpu_wf (vcpu_update s vid f).
Proof.
  intros Hwf Hv Hf. unfold vcpu_update. destruct (vcpu_get s vid) as [v|] eqn:E; [|done].
  apply vcpu_get_Some in E as (Hl & _ & _); [|done..].
  by apply (slab_wf_update _ _ _ _ _ v).
Qed.

Lemma vcpu_get_insert s vid o c i x :
  vcpu_wf s -> 0 <= vid -> (i < MAX_VCPUS)%nat ->
  vcpu_get (mkSlab (<[i := o]> (vcpus s)) c x) vid = if decide (vid = Z.of_nat i) then o else vcpu_get s vid.
Proof.
  intros Hwf Hv Hi. unfold vcpu_get. cbn [vcpus]. case_decide as Hd.
  - subst vid. rewrite Nat2Z.id. destruct (Nat.ltb_spec i MAX_VCPUS); [|lia].
    rewrite list_lookup_insert_eq; [done|]. rewrite (sw_length _ _ _ _ Hwf). lia.
  - destruct (Nat.ltb_spec (Z.to_nat vid) MAX_VCPUS); [|done].
    rewrite list_lookup_insert_ne; [done|lia].
Qed.

Lemma vcpu_get_update s vid f vid' :
  vcpu_wf s -> 0 <= vid -> 0 <= vid' ->
  vcpu_get (vcpu_update s vid f) vid' =
  if decide (vid' = vid) then f <$> vcpu_get s vid else vcpu_get s vid'.
Proof.
  intros Hwf Hv Hv'. unfold vcpu_update. destruct (vcpu_get s vid) as [v|] eqn:E.
  - apply vcpu_get_Some in E as (_ & Hlt & _); [|done..].
    unfold vcpu_set. rewrite vcpu_get_insert by (done || (unfold MAX_VCPUS; lia)).
    repeat case_decide; try done; lia.
  - by case_decide; subst.
Qed.

(** The number of live vCPUs fits its counter. *)
Lemma vcpu_count_bound s : vcpu_wf s -> 0 <= count s <= 128.
Proof.
  intros [Hl Hc _]. pose proof (live_le (vcpus s)). rewrite Hl in *. unfold MAX_VCPUS in *. lia.
Qed.

Lemma vcpu_alloc_spec s g p a ty :
  vcpu_wf s ->
  match vcpu_alloc s g p a ty with
  | (Some vid, s') =>
    0 <= vid < 128 /\ vcpu_wf s' /\ count s' = count s + 1 /\
    (forall j, 0 <= j < vid -> vcpu_get s j <> None) /\ vcpu_get s vid = None /\
    (forall j, 0 <= j -> vcpu_get s' j = if decide (j = vid) then Some (fresh_vcpu (Z.to_nat vid) g p a ty) else vcpu_get s j)
  | (None, s') => s' = s /\ forall j, 0 <= j < 128 -> vcpu_get s j <> None
  end.
Proof.
  intros Hwf. unfold vcpu_alloc. pose proof (slab_full _ _ _ _ Hwf) as Hfull.
  pose proof (vcpu_count_bound s Hwf) as Hcb.
  destruct (Z.geb_spec (count s) (Z.of_nat MAX_VCPUS)) as [Hge|Hlt].
  - split; [done|]. intros j Hj Hn. rewrite vcpu_get_lookup in Hn by (done || lia).
    assert (live (vcpus s) = length (vcpus s)) as Hlv%first_free_None.
    { rewrite (sw_length _ _ _ _ Hwf). pose proof (sw_count _ _ _ _ Hwf). unfold MAX_VCPUS in *. lia. }
    unfold first_free in Hlv. rewrite first_index_None, Forall_forall in Hlv.
    destruct (vcpus s !! Z.to_nat j) as [o|] eqn:E; simpl in Hn.
    + subst o. specialize (Hlv None (list_elem_of_lookup_2 _ _ _ E)). done.
    + apply lookup_ge_None in E. rewrite (sw_length _ _ _ _ Hwf) in E. unfold MAX_VCPUS in E. lia.
  - destruct (proj1 Hfull Hlt) as [i Hi]. rewrite Hi.
    apply first_free_Some in Hi as (Hl & Hlow). pose proof (lookup_lt_Some _ _ _ Hl) as Hil.
    rewrite (sw_length _ _ _ _ Hwf) in Hil. unfold MAX_VCPUS in Hlt, Hil.
    rewrite wrap_small by lia. split_and!; [lia|lia| |done| | |].
    + by apply slab_wf_insert.
    + intros j Hj. rewrite vcpu_get_lookup by (done || lia).
      destruct (Hlow (Z.to_nat j)) as [x ->]; [lia|done].
    + rewrite vcpu_get_lookup, Nat2Z.id, Hl by (done || lia). done.
    + intros j Hj. rewrite vcpu_get_insert, Nat2Z.id by (done || (unfold MAX_VCPUS; lia)). done.
Qed.

(** [vcpu::alloc] takes the lowest free id, fills in a halted vCPU with an unsaved frame, leaves
    every other vCPU alone and keeps the slab consistent; it fails, without effect, exactly
    when all 128 ids are live. *)
Theorem vcpu_alloc_correct s g p a ty :
  vcpu_wf s ->
  match vcpu_alloc s g p a ty with
  | (Some vid, s') =>
    0 <= vid < 128 /\ vcpu_wf s' /\ count s' = count s + 1 /\
    (forall j, 0 <= j < vid -> vcpu_get s j <> None) /\ vcpu_get s vid = None /\
    (forall j, 0 <= j -> vcpu_get s' j = if decide (j = vid) then Some (fresh_vcpu (Z.to_nat vid) g p a ty) else vcpu_get s j)
  | (None, s') => s' = s /\ forall j, 0 <= j < 128 -> vcpu_get s j <> None
  end.
Proof. apply vcpu_alloc_spec. Qed.

Definition one_vcpu : VcpuSlab := snd (vcpu_alloc vcpu_slab_boot 1 0x1000 1 Normal).

Lemma vcpu_alloc_correct_witness :
  vcpu_wf one_vcpu /\ vcpu_get one_vcpu 0 = Some (fresh_vcpu 0 1 0x1000 1 Normal).
Proof.
  pose proof (vcpu_alloc_correct vcpu_slab_boot 1 0x1000 1 Normal vcpu_boot_wf) as H.
  assert (fst (vcpu_alloc vcpu_slab_boot 1 0x1000 1 Normal) = Some 0) as E by (vm_compute; reflexivity).
  unfold one_vcpu. destruct (vcpu_alloc _ _ _ _ _) as [r s']. simpl in E. subst r.
  destruct H as (_ & H1 & _ & _ & _ & H2). split; [exact H1|]. rewrite H2 by lia. reflexivity.
Defined.

(** ** Release *)

Section free_spec.
Context {M : Type} `{!KernelMem M, !KernelMemLaws M}.

Lemma clear_entry_mono (k k' : Z) (m : M) a v :
  k' = k -> mapped (clear_entry k m a) k' v -> mapped m k' v.
Proof.
  intros ->. unfold clear_entry. destruct (read_pte m k a) as [pte|]; [|done].
  destruct (pte_present pte); [apply clear_mono|done].
Qed.

Lemma clear_entry_unmaps (k : Z) (m : M) a : ~ mapped (clear_entry k m a) k a.
Proof.
  unfold clear_entry. destruct (read_pte m k a) as [pte|] eqn:E.
  - destruct (pte_present pte) eqn:Ep; [apply clear_unmaps|].
    intros (x & Hx & Hp). rewrite E in Hx. simplify_eq. congruence.
  - intros (x & Hx & _). congruence.
Qed.

Lemma clear_entries (k : Z) (addr : Z -> Z) ps (m : M) v :
  mapped (fold_left (fun m p => clear_entry k m (addr p)) ps m) k v ->
  mapped m k v /\ forall p, p ∈ ps -> v <> addr p.
Proof.
  revert m. induction ps as [|q ps IH]; intros m Hm; simpl in *; [split; [done|set_solver]|].
  apply IH in Hm as [Hm Hps]. split; [by eapply clear_entry_mono|].
  intros p [->|Hp]%elem_of_cons; [|auto]. intros ->. by eapply clear_entry_unmaps.
Qed.

(** The pages of a kernel stack: the guard page, then the stack itself. *)
Definition stack_page (stack_top i : Z) : Z :=
  if i =? 0 then wrap 64 (wrap 64 (stack_top - KERNEL_STACK_SIZE) - PAGE_SIZE)
  else wrap 64 (wrap 64 (stack_top - KERNEL_STACK_SIZE) + wrap 64 ((i - 1) * PAGE_SIZE)).

Lemma release_stack_unmaps (m : M) top i :
  0 <= i <= STACK_PAGES -> ~ mapped (release_stack m top) (kernel_pml4 m) (stack_page top i).
Proof.
  intros Hi Hm. unfold release_stack in Hm. cbv zeta in Hm.
  apply free_mono, shootdown_mono, clear_entries in Hm as [Hm Hps].
  unfold stack_page in *. destruct (Z.eqb_spec i 0) as [->|Hne].
  - by eapply clear_entry_unmaps.
  - apply (Hps (i - 1)); [apply elem_of_seqZ; lia|done].
Qed.

Lemma vcpu_free_spec s (m : M) vid :
  vcpu_wf s -> 0 <= vid ->
  let s' := fst (vcpu_free s m vid) in
  let m' := snd (vcpu_free s m vid) in
  vcpu_wf s' /\
  (forall j, 0 <= j -> vcpu_get s' j = if decide (j = vid) then None else vcpu_get s j) /\
  (vcpu_get s vid = None -> s' = s /\ m' = m) /\
  (forall v i, vcpu_get s vid = Some v -> vcpu_type v <> TIdle -> kernel_stack_top v <> 0 ->
     0 <= i <= STACK_PAGES -> ~ mapped m' (kernel_pml4 m) (stack_page (kernel_stack_top v) i)).
Proof.
  intros Hwf Hv. cbv zeta. unfold vcpu_free. destruct (vcpu_get s vid) as [v|] eqn:E.
  - apply vcpu_get_Some in E as (Hl & Hlt & _); [|done..].
    destruct (Nat.ltb_spec (Z.to_nat vid) MAX_VCPUS); [|unfold MAX_VCPUS in *; lia]. rewrite Hl. cbn [fst snd].
    destruct (slab_wf_delete _ _ _ _ _ _ Hwf Hl) as [Hdel Hpos].
    split_and!; [unfold vcpu_wf; simpl; unfold saturating_sub; by rewrite Z.max_l by lia| |done|].
    + intros j Hj. rewrite vcpu_get_insert by done. rewrite Z2Nat.id by lia. done.
    + intros v' i [= <-] Hty Hst Hi. unfold release_resources.
      rewrite bool_decide_eq_false_2, (proj2 (Z.eqb_neq (kernel_stack_top v) 0)) by done. simpl.
      intros Hm. eapply (release_stack_unmaps m); [exact Hi|].
      destruct (process_mem v =? 0); [done|]. by eapply drop_mono.
  - assert (vcpus s !! Z.to_nat vid = Some None \/ vcpus s !! Z.to_nat vid = None) as Hn.
    { rewrite vcpu_get_lookup in E by done. destruct (vcpus s !! Z.to_nat vid) as [[]|]; simpl in E; auto. done. }
    assert ((if (Z.to_nat vid <? MAX_VCPUS)%nat then
       match vcpus s !! Z.to_nat vid with
       | Some (Some v) => (mkSlab (<[Z.to_nat vid := None]> (vcpus s)) (saturating_sub (count s) 1) (initialized s),
                           release_resources m v)
       | _ => (s, m)
       end else (s, m)) = (s, m)) as ->.
    { destruct (Z.to_nat vid <? MAX_VCPUS)%nat; [|done]. by destruct Hn as [-> | ->]. }
    cbn [fst snd]. split_and!; [done| |done|done]. intros j Hj. by case_decide; subst.
Qed.

(** [vcpu::free] removes exactly that vCPU and keeps the slab consistent (releasing an unused id
    changes nothing); for a vCPU with a kernel stack, neither the guard page nor any stack
    page is mapped in the kernel tables afterwards. *)
Theorem vcpu_free_correct s (m : M) vid :
  vcpu_wf s -> 0 <= vid ->
  let s' := fst (vcpu_free s m vid) in
  let m' := snd (vcpu_free s m vid) in
  vcpu_wf s' /\
  (forall j, 0 <= j -> vcpu_get s' j = if decide (j = vid) then None else vcpu_get s j) /\
  (vcpu_get s vid = None -> s' = s /\ m' = m) /\
  (forall v i, vcpu_get s vid = Some v -> vcpu_type v <> TIdle -> kernel_stack_top v <> 0 ->
     0 <= i <= STACK_PAGES -> ~ mapped m' (kernel_pml4 m) (stack_page (kernel_stack_top v) i)).
Proof. apply vcpu_free_spec. Qed.
End free_spec.

Lemma vcpu_free_correct_witness :
  let s := vcpu_update one_vcpu 0 (fun v => set_stack v 0xFFFF800000018000) in
  let m := mkFlat {[flat_key 0 0xFFFF800000014000 := 3]} (phys_boot) 0 0 in
  vcpu_get (fst (vcpu_free s m 0)) 0 = None /\
  ~ mapped (snd (vcpu_free s m 0)) 0 0xFFFF800000014000.
Proof.
  cbv zeta. set (s := vcpu_update one_vcpu 0 _). set (m := mkFlat _ _ _ _).
  assert (vcpu_wf one_vcpu) as Hwf.
  { pose proof (vcpu_alloc_spec vcpu_slab_boot 1 0x1000 1 Normal vcpu_boot_wf) as H.
    unfold one_vcpu. destruct (vcpu_alloc _ _ _ _ _) as [[vid|] s']; simpl;
      [by destruct H as (_ & H & _)|]. destruct H as [-> _]. apply vcpu_boot_wf. }
  destruct (vcpu_free_correct (M := FlatMem) s m 0) as (_ & H1 & _ & H2).
  - apply vcpu_update_wf; [exact Hwf|lia|reflexivity].
  - lia.
  - split; [rewrite (H1 0) by lia; reflexivity|].
    apply (H2 (set_stack (fresh_vcpu 0 1 0x1000 1 Normal) 0xFFFF800000018000) 1);
      [vm_compute; reflexivity|discriminate|discriminate|vm_compute; split; discriminate].
Defined.
