(* ===== verification/Service.v ===== *)
(** The driver service table (src/kernel/src/service.rs): 32 optional service
    records, each with fixed-capacity lists of the MMIO windows, interrupt
    vectors and DMA buffers that crash recovery has to release. *)
From stdpp Require Import base tactics numbers list sets.
From Stdlib Require Import ZArith Lia.
From S2P Require Import Prelude Slab.

Local Open Scope Z_scope.
Local Open Scope word_scope.

Definition MAX_SERVICES : nat := 32.
Definition MAX_MMIO : nat := 16.
Definition MAX_IRQ : nat := 8.
Definition MAX_DMA : nat := 8.

Inductive ServiceState := Loaded | SRunning | Crashed | Restarting | Stopped.
Inductive RestartPolicy := Always | OnFailure (n : Z) | Never.

#[export] Instance ServiceState_eq_dec : EqDecision ServiceState.
Proof. solve_decision. Defined.

Record ServiceResources := mkResources {
  mmio : list (Z * Z * Z);
  mmio_count : nat;
  irq : list Z;
  irq_count : nat;
  dma : list (Z * Z);
  dma_count : nat;
}.

Definition resources_empty : ServiceResources :=
  mkResources (replicate MAX_MMIO (0, 0, 0)) 0 (replicate MAX_IRQ 0) 0 (replicate MAX_DMA (0, 0)) 0.

Record Service := mkService {
  sid : Z;
  name : list Z;
  sstate : ServiceState;
  vcpu_id : Z;
  spml4 : Z;
  resources : ServiceResources;
  restart_policy : RestartPolicy;
  restart_count : Z;
}.

Definition set_resources (s : Service) (r : ServiceResources) : Service :=
  mkService (sid s) (name s) (sstate s) (vcpu_id s) (spml4 s) r (restart_policy s) (restart_count s).
Definition set_sstate (s : Service) (x : ServiceState) : Service :=
  mkService (sid s) (name s) x (vcpu_id s) (spml4 s) (resources s) (restart_policy s) (restart_count s).
Definition set_vcpu_id (s : Service) (x : Z) : Service :=
  mkService (sid s) (name s) (sstate s) x (spml4 s) (resources s) (restart_policy s) (restart_count s).
Definition set_spml4 (s : Service) (x : Z) : Service :=
  mkService (sid s) (name s) (sstate s) (vcpu_id s) x (resources s) (restart_policy s) (restart_count s).
Definition set_restart_count (s : Service) (x : Z) : Service :=
  mkService (sid s) (name s) (sstate s) (vcpu_id s) (spml4 s) (resources s) (restart_policy s) x.

(** ** Resource tracking *)

Definition track_mmio (s : Service) (phys virt pages : Z) : bool * Service :=
  let r := resources s in
  if (MAX_MMIO <=? mmio_count r)%nat then (false, s)
  else
    let idx := mmio_count r in
    (true, set_resources s (mkResources (<[idx := (phys, virt, pages)]> (mmio r)) (S idx)
                              (irq r) (irq_count r) (dma r) (dma_count r))).

Definition track_irq (s : Service) (vector : Z) : bool * Service :=
  let r := resources s in
  if (MAX_IRQ <=? irq_count r)%nat then (false, s)
  else
    let idx := irq_count r in
    (true, set_resources s (mkResources (mmio r) (mmio_count r)
                              (<[idx := vector]> (irq r)) (S idx) (dma r) (dma_count r))).

Definition track_dma (s : Service) (phys pages : Z) : bool * Service :=
  let r := resources s in
  if (MAX_DMA <=? dma_count r)%nat then (false, s)
  else
    let idx := dma_count r in
    (true, set_resources s (mkResources (mmio r) (mmio_count r) (irq r) (irq_count r)
                              (<[idx := (phys, pages)]> (dma r)) (S idx))).

(** [untrack_dma]: the first match is overwritten by the last entry. *)
Definition untrack_dma (s : Service) (phys : Z) : bool * Service :=
  let r := resources s in
  match first_index (fun e => fst e =? phys) (take (dma_count r) (dma r)) with
  | Some i =>
    let last := (dma_count r - 1)%nat in
    let d1 := <[i := default (0, 0) (dma r !! last)]> (dma r) in
    let d2 := <[last := (0, 0)]> d1 in
    (true, set_resources s (mkResources (mmio r) (mmio_count r) (irq r) (irq_count r) d2 last))
  | None => (false, s)
  end.

Definition clear_resources (s : Service) : Service := set_resources s resources_empty.

(** ** The table *)

Record ServiceTable := mkServices { entries : list (option Service); scount : Z }.

Definition service_table_boot : ServiceTable := mkServices (replicate MAX_SERVICES None) 0.

Definition service_init (t : ServiceTable) : ServiceTable := mkServices (entries t) 0.

(** At most 31 bytes of the name, zero-padded to 32. *)
Definition entry_name (nm : list Z) : list Z :=
  let len := Nat.min (length nm) 31 in take len nm ++ replicate (32 - len) 0.

Definition fresh_service (i : nat) (nm : list Z) (pml4 : Z) : Service :=
  mkService (Z.of_nat i) (entry_name nm) Loaded 0 pml4 resources_empty (OnFailure 3) 0.

Definition service_alloc (t : ServiceTable) (nm : list Z) (pml4 : Z) : option Z * ServiceTable :=
  if scount t >=? Z.of_nat MAX_SERVICES then (None, t)
  else
    match first_free (entries t) with
    | Some i =>
      (Some (Z.of_nat i), mkServices (<[i := Some (fresh_service i nm pml4)]> (entries t)) (scount t +u64 1))
    | None => (None, t)
    end.

Definition service_free (t : ServiceTable) (i : Z) : ServiceTable :=
  let idx := Z.to_nat i in
  if (idx <? MAX_SERVICES)%nat then
    match entries t !! idx with
    | Some (Some _) => mkServices (<[idx := None]> (entries t)) (saturating_sub (scount t) 1)
    | _ => t
    end
  else t.

Definition service_get (t : ServiceTable) (i : Z) : option Service :=
  let idx := Z.to_nat i in
  if (idx <? MAX_SERVICES)%nat then default None (entries t !! idx) else None.

(** [with_mut] with a closure that changes the record it is given. *)
Definition service_update (t : ServiceTable) (i : Z) (f : Service -> Service) : ServiceTable :=
  match service_get t i with
  | Some s => mkServices (<[Z.to_nat i := Some (f s)]> (entries t)) (scount t)
  | None => t
  end.

Definition find_by_vcpu (t : ServiceTable) (vid : Z) : option Z :=
  Z.of_nat <$> first_index (fun o => if o is Some s then vcpu_id s =? vid else false) (entries t).

(** The comparison of [find_by_name]. *)
Definition name_matches (nm : list Z) (s : Service) : bool :=
  let len := Nat.min (length nm) 31 in
  bool_decide (take len (name s) = take len nm)
  && ((len =? 31)%nat || (default 0 (name s !! len) =? 0)).

Definition find_by_name (t : ServiceTable) (nm : list Z) : option Z :=
  Z.of_nat <$> first_index (fun o => if o is Some s then name_matches nm s else false) (entries t).

Definition service_count (t : ServiceTable) : Z := scount t.

(** ** Resource lists *)

Record resources_wf (r : ServiceResources) : Prop := {
  rw_mmio : length (mmio r) = MAX_MMIO /\ (mmio_count r <= MAX_MMIO)%nat;
  rw_irq : length (irq r) = MAX_IRQ /\ (irq_count r <= MAX_IRQ)%nat;
  rw_dma : length (dma r) = MAX_DMA /\ (dma_count r <= MAX_DMA)%nat;
}.

Definition tracked_dma (s : Service) : list (Z * Z) := take (dma_count (resources s)) (dma (resources s)).

Lemma take_insert_snoc {A} (l : list A) n x :
  (n < length l)%nat -> take (S n) (<[n := x]> l) = take n l ++ [x].
Proof.
  intros Hn. rewrite (take_S_r _ _ x) by by apply list_lookup_insert_eq.
  by rewrite take_insert_ge by lia.
Qed.

(** Overwriting index [i] of the first [n + 1] elements by the last one. *)
Lemma swap_remove {A} (l : list A) n i x y :
  (i <= n)%nat -> l !! i = Some x -> l !! n = Some y ->
  take (S n) l ≡ₚ x :: take n (<[i := y]> l).
Proof.
  intros Hi Hx Hy. rewrite (take_S_r _ _ _ Hy). destruct (decide (i = n)) as [->|Hne].
  - rewrite take_insert_ge by lia. assert (x = y) as -> by congruence. solve_Permutation.
  - assert (take n l !! i = Some x) as Hti by by rewrite lookup_take_lt by lia.
    rewrite take_insert_lt by lia.
    apply list_elem_of_split_length in Hti as (k1 & k2 & E & Hk). rewrite E, Hk.
    rewrite insert_app_r_alt, Nat.sub_diag by lia. simpl. solve_Permutation.
Qed.

Lemma first_index_split {A} (f : A -> bool) l i :
  first_index f l = Some i -> exists x, l !! i = Some x /\ f x = true.
Proof. intros (x & ? & ? & _)%first_index_Some. eauto. Qed.

Lemma untrack_dma_spec s phys :
  resources_wf (resources s) ->
  match untrack_dma s phys with
  | (true, s') => exists pages, tracked_dma s ≡ₚ (phys, pages) :: tracked_dma s' /\
                    resources_wf (resources s') /\ mmio (resources s') = mmio (resources s) /\
                    irq (resources s') = irq (resources s)
  | (false, s') => s' = s /\ Forall (fun e => fst e <> phys) (tracked_dma s)
  end.
Proof.
  intros [Hm Hq [Hl Hc]]. unfold untrack_dma, tracked_dma.
  set (r := resources s) in *. destruct (first_index _ _) as [i|] eqn:E.
  - apply first_index_split in E as ([p pages] & Hi & Hp%Z.eqb_eq). simpl in Hp. subst p.
    apply lookup_take_Some in Hi as [Hi Hlt].
    destruct (dma_count r) as [|n] eqn:En; [lia|]. simpl. rewrite Nat.sub_0_r.
    destruct (lookup_lt_is_Some_2 (dma r) n) as [y Hy]; [lia|]. rewrite Hy. simpl.
    exists pages. rewrite (swap_remove (dma r) n i (phys, pages) y) by (done || lia).
    split_and!; [by rewrite (take_insert_ge _ n n) by lia| |done|done].
    split; simpl; [done..|]. rewrite !length_insert. split; [done|lia].
  - split; [done|]. apply first_index_None in E. eapply Forall_impl; [exact E|].
    intros x Hx. by apply Z.eqb_neq in Hx.
Qed.

(** DMA bookkeeping.  Tracking a buffer appends it (and is refused only when eight are tracked);
    untracking removes exactly one entry with that address, or reports that there is none, and
    touches nothing else; tracking then untracking a fresh address restores the list. *)
Theorem dma_tracking_correct s phys pages :
  resources_wf (resources s) ->
  match track_dma s phys pages with
  | (true, s') =>
    resources_wf (resources s') /\ tracked_dma s' = tracked_dma s ++ [(phys, pages)] /\
    (Forall (fun e => fst e <> phys) (tracked_dma s) ->
       fst (untrack_dma s' phys) = true /\ tracked_dma (snd (untrack_dma s' phys)) ≡ₚ tracked_dma s)
  | (false, s') => s' = s /\ length (tracked_dma s) = MAX_DMA
  end /\
  match untrack_dma s phys with
  | (true, s') => exists n, tracked_dma s ≡ₚ (phys, n) :: tracked_dma s' /\ resources_wf (resources s')
  | (false, s') => s' = s /\ Forall (fun e => fst e <> phys) (tracked_dma s)
  end.
Proof.
  intros Hwf. pose proof Hwf as [Hm Hq [Hl Hc]]. split.
  2:{ pose proof (untrack_dma_spec s phys Hwf) as H. destruct (untrack_dma s phys) as [[] s']; [|done].
      destruct H as (n & H1 & H2 & _). eauto. }
  unfold track_dma. destruct (Nat.leb_spec MAX_DMA (dma_count (resources s))) as [Hge|Hlt].
  { split; [done|]. unfold tracked_dma. rewrite length_take. lia. }
  set (s' := set_resources s _).
  assert (tracked_dma s' = tracked_dma s ++ [(phys, pages)]) as Ht
    by (unfold tracked_dma, s'; simpl; apply take_insert_snoc; lia).
  assert (resources_wf (resources s')) as Hwf'.
  { split; simpl; [done..|]. rewrite length_insert. lia. }
  split_and!; [done|done|]. intros Hfresh.
  pose proof (untrack_dma_spec s' phys Hwf') as H. destruct (untrack_dma s' phys) as [[] s2].
  - destruct H as (n & HP & _). split; [done|]. simpl. rewrite Ht in HP.
    assert ((phys, n) ∈ tracked_dma s ++ [(phys, pages)]) as Hin by (rewrite HP; left).
    apply elem_of_app in Hin as [Hin|Hin%list_elem_of_singleton].
    + rewrite Forall_forall in Hfresh. by apply Hfresh in Hin.
    + injection Hin as ->. rewrite Permutation_app_comm in HP. simpl in HP. by apply Permutation_cons_inv in HP.
  - destruct H as [_ H]. rewrite Ht in H. apply Forall_app in H as [_ H].
    apply Forall_cons in H as [H _]. by destruct H.
Qed.

Lemma dma_tracking_correct_witness :
  let s := fresh_service 0 [100; 105; 115; 107] 0x1000 in
  fst (untrack_dma (snd (track_dma s 0x9000 2)) 0x9000) = true.
Proof.
  cbv zeta. destruct (dma_tracking_correct (fresh_service 0 [100; 105; 115; 107] 0x1000) 0x9000 2) as [H _].
  - split; split; reflexivity || (unfold MAX_MMIO, MAX_IRQ, MAX_DMA; simpl; lia).
  - simpl in H. destruct H as (_ & _ & H). apply H. constructor.
Defined.

(** ** Lookup by name *)

Definition service_wf (t : ServiceTable) : Prop :=
  slab_wf MAX_SERVICES sid (entries t) (scount t) /\
  forall i s, entries t !! i = Some (Some s) -> exists nm, name s = entry_name nm /\ Forall (fun b => b <> 0) nm.

Lemma name_matches_entry nm nm' s :
  name s = entry_name nm' -> Forall (fun b => b <> 0) nm -> Forall (fun b => b <> 0) nm' ->
  name_matches nm s = true <-> take 31 nm = take 31 nm'.
Proof.
  intros Hs Hnz Hnz'. unfold name_matches. rewrite Hs. unfold entry_name.
  set (len := Nat.min (length nm) 31). set (len' := Nat.min (length nm') 31).
  assert (take 31 nm = take len nm) as -> by (unfold len; rewrite Nat.min_comm, <-take_take, (take_ge nm (length nm)); done).
  assert (take 31 nm' = take len' nm') as -> by (unfold len'; rewrite Nat.min_comm, <-take_take, (take_ge nm' (length nm')); done).
  assert (length (take len nm) = len) as Hl by (rewrite length_take; lia).
  assert (length (take len' nm') = len') as Hl' by (rewrite length_take; lia).
  rewrite andb_true_iff, bool_decide_eq_true, orb_true_iff, Nat.eqb_eq, Z.eqb_eq. split.
  - intros [Htk Hend]. destruct (Nat.lt_trichotomy len len') as [Hlt|[Heq|Hgt]].
    + destruct Hend as [?|Hz]; [lia|]. exfalso.
      rewrite lookup_app_l in Hz by lia. rewrite lookup_take_lt in Hz by lia.
      destruct (lookup_lt_is_Some_2 nm' len) as [b Hb]; [lia|]. rewrite Hb in Hz. simpl in Hz. subst b.
      rewrite Forall_lookup in Hnz'. by apply (Hnz' _ _ Hb).
    + rewrite take_app_le in Htk by lia. rewrite <-Htk, Heq. by rewrite take_take, Nat.min_id.
    + exfalso. assert (take len nm !! len' = Some 0) as H0.
      { rewrite <-Htk, lookup_take_lt by lia. rewrite lookup_app_r by lia. rewrite Hl', Nat.sub_diag.
        apply lookup_replicate_2. lia. }
      rewrite lookup_take_lt in H0 by lia. rewrite Forall_lookup in Hnz. by apply (Hnz _ _ H0).
  - intros Heq. assert (len = len') as Hll by congruence. rewrite Hll in Heq |- *.
    split; [rewrite take_app_le by lia; rewrite Heq; by rewrite take_take, Nat.min_id|].
    right. rewrite lookup_app_r by lia. rewrite Hl', Nat.sub_diag.
    destruct (32 - len')%nat eqn:E; [lia|done].
Qed.

(** Lookup by name.  With NUL-free names, [find_by_name] returns the lowest slot whose service was
    registered under the same name up to its first 31 bytes, and [None] exactly when there is
    none; in particular a name just registered is found. *)
Theorem find_by_name_correct t nm :
  service_wf t -> Forall (fun b => b <> 0) nm ->
  match find_by_name t nm with
  | Some i => exists s nm', service_get t i = Some s /\ name s = entry_name nm' /\ take 31 nm' = take 31 nm /\
      (forall j s', (Z.of_nat j < i) -> entries t !! j = Some (Some s') -> name s' <> entry_name nm)
  | None => forall j s', entries t !! j = Some (Some s') -> name s' <> entry_name nm
  end.
Proof.
  intros [Hwf Hnames] Hnz. unfold find_by_name.
  assert (forall s', name s' = entry_name nm -> name_matches nm s' = true) as Hself
    by (intros s' Hs'; by apply (name_matches_entry nm nm s')).
  destruct (first_index _ (entries t)) as [i|] eqn:E; simpl.
  - apply first_index_Some in E as (o & Hi & Ho & Hlt). destruct o as [s|]; [|done].
    destruct (Hnames _ _ Hi) as (nm' & Hs & Hnz'). exists s, nm'. split_and!.
    + unfold service_get. rewrite Nat2Z.id, Hi. pose proof (lookup_lt_Some _ _ _ Hi) as Hb.
      rewrite (sw_length _ _ _ _ Hwf) in Hb. by rewrite (proj2 (Nat.ltb_lt _ _)).
    + done.
    + symmetry. by apply (name_matches_entry nm nm' s).
    + intros j s' Hj Hs' Hn. specialize (Hlt j (Some s') ltac:(lia) Hs'). simpl in Hlt.
      rewrite Hself in Hlt by done. done.
  - intros j s' Hs' Hn. apply first_index_None in E. rewrite Forall_lookup in E.
    specialize (E _ _ Hs'). simpl in E. rewrite Hself in E by done. done.
Qed.

Lemma find_by_name_correct_witness :
  exists s nm', service_get (snd (service_alloc service_table_boot [97; 98] 0x1000)) 0 = Some s /\
    name s = entry_name nm' /\ take 31 nm' = take 31 [97; 98].
Proof.
  set (t := snd (service_alloc service_table_boot [97; 98] 0x1000)).
  pose proof (find_by_name_correct t [97; 98]) as H.
  assert (find_by_name t [97; 98] = Some 0) as E by (vm_compute; reflexivity).
  rewrite E in H. destruct H as (s & nm' & H1 & H2 & H3 & _).
  - split.
    + apply (slab_wf_insert MAX_SERVICES sid (replicate MAX_SERVICES None) 0 0 (fresh_service 0 [97; 98] 0x1000));
        [apply slab_wf_empty|reflexivity|reflexivity].
    + intros i s Hi. destruct i as [|i]; [injection Hi as <-; exists [97; 98]; split; [reflexivity|]|].
      * repeat constructor; discriminate.
      * exfalso. simpl in Hi. change (replicate 31 (@None Service) !! i = Some (Some s)) in Hi.
        apply lookup_replicate in Hi as [Hi _]. discriminate Hi.
  - repeat constructor; discriminate.
  - exists s, nm'. split; [exact H1|]. split; [exact H2|exact H3].
Defined.
