(* ===== verification/Scheduler.v ===== *)
(** The gang scheduler (src/kernel/src/scheduler.rs).

    [Sched] collects what the scheduler works on: the gang table, the vCPU
    slab, the per-CPU slots, the memory behind the interface of [KMem], the
    TSS stack pointers and the inter-processor interrupts sent.
    [schedule_inner] is split at the numbered comments of the source. *)
From stdpp Require Import base tactics numbers list sets.
From Stdlib Require Import ZArith Lia.
From S2P Require Import Prelude Phys KMem Slab Percpu Vcpu.

Local Open Scope Z_scope.
Local Open Scope word_scope.

Definition VRUNTIME_TICK : Z := 20.
Definition VRUNTIME_BIAS : Z := 8.
Definition IRETQ_FRAME_SIZE : Z := 24.
Definition RFLAGS_IF : Z := 0x202.
Definition MAX_GANGS : nat := 32.
Definition MAX_VCPUS_PER_GANG : nat := 8.
Definition IPI_VECTOR : Z := 0x81.
Definition MAX_PML4_PHYS : Z := 4 * 1024 * 1024 * 1024.

Inductive GangState := Active | GHalted.

Record Gang := mkGang {
  gid : Z;
  gname : list Z;
  symtab_phys : Z;
  symtab_size : Z;
  strtab_phys : Z;
  vcpu_ids : list (option Z);
  vcpu_total : Z;        (* vcpu_count *)
  gvruntime : Z;         (* vruntime *)
  running_count : Z;
  gstate : GangState;
}.

Definition set_running (g : Gang) (n : Z) : Gang :=
  mkGang (gid g) (gname g) (symtab_phys g) (symtab_size g) (strtab_phys g) (vcpu_ids g) (vcpu_total g)
    (gvruntime g) n (gstate g).
Definition set_gvruntime (g : Gang) (v : Z) : Gang :=
  mkGang (gid g) (gname g) (symtab_phys g) (symtab_size g) (strtab_phys g) (vcpu_ids g) (vcpu_total g)
    v (running_count g) (gstate g).
Definition set_members (g : Gang) (ids : list (option Z)) (n : Z) : Gang :=
  mkGang (gid g) (gname g) (symtab_phys g) (symtab_size g) (strtab_phys g) ids n
    (gvruntime g) (running_count g) (gstate g).

Record GangTable := mkGangs { gangs : list (option Gang); gcount : nat; ginit : bool }.

Definition gang_table_boot : GangTable := mkGangs (replicate MAX_GANGS None) 0 false.
Definition gang_at (t : GangTable) (i : nat) : option Gang := default None (gangs t !! i).
Definition set_gang_at (t : GangTable) (i : nat) (g : option Gang) : GangTable :=
  mkGangs (<[i := g]> (gangs t)) (gcount t) (ginit t).

Record Sched (M : Type) := mkSched {
  gt : GangTable;
  slab : VcpuSlab;
  pc : Percpu;
  mm : M;
  tss_rsp0 : list Z;             (* per CPU slot *)
  ipis : list (Z * Z);           (* (APIC ID, vector), newest first *)
}.
Arguments mkSched {M}.
Arguments gt {M}.
Arguments slab {M}.
Arguments pc {M}.
Arguments mm {M}.
Arguments tss_rsp0 {M}.
Arguments ipis {M}.

Definition with_gt {M} (s : Sched M) (t : GangTable) : Sched M :=
  mkSched t (slab s) (pc s) (mm s) (tss_rsp0 s) (ipis s).
Definition with_slab {M} (s : Sched M) (v : VcpuSlab) : Sched M :=
  mkSched (gt s) v (pc s) (mm s) (tss_rsp0 s) (ipis s).
Definition with_pc {M} (s : Sched M) (p : Percpu) : Sched M :=
  mkSched (gt s) (slab s) p (mm s) (tss_rsp0 s) (ipis s).
Definition with_mm {M} (s : Sched M) (m : M) : Sched M :=
  mkSched (gt s) (slab s) (pc s) m (tss_rsp0 s) (ipis s).

(** ** Tables *)

Definition scheduler_init (t : GangTable) : GangTable := mkGangs (gangs t) 0 true.

(** Gang 0 is reserved. *)
Definition reserve_zero (t : GangTable) : GangTable :=
  if (gcount t =? 0)%nat then mkGangs (gangs t) 1 (ginit t) else t.

(** [min_gang_vruntime]: over the indices below [count]. *)
Definition min_gang_vruntime (t : GangTable) : Z :=
  let mn := fold_left (fun mn i =>
    match gang_at t i with
    | Some g => if gstate g is Active then (if gvruntime g <? mn then gvruntime g else mn) else mn
    | None => mn
    end) (seq 0 (gcount t)) U64_MAX in
  if mn =? U64_MAX then 0 else mn.

Definition count_free_cores (p : Percpu) : Z :=
  fold_left (fun n cpu =>
    if online (slot p cpu) && (wrap 32 (current_vcpu_ (slot p cpu)) =? idle_vcpu p cpu) then n + 1 else n)
    (seq 0 MAX_CPUS) 0.

(** [pick_vcpu]: the ready member with the least vruntime, first in slot order. *)
Definition pick_step (v : VcpuSlab) (acc : option Z * Z) (o : option Z) : option Z * Z :=
  match o with
  | Some vid =>
    match vcpu_get v vid with
    | Some c =>
      if bool_decide (state c = Ready) && (vruntime c <? snd acc) then (Some vid, vruntime c) else acc
    | None => acc
    end
  | None => acc
  end.

Definition pick_vcpu (v : VcpuSlab) (g : Gang) : option Z :=
  fst (fold_left (pick_step v) (vcpu_ids g) (None, U64_MAX)).

Section scheduler.
Context {M : Type} `{!KernelMem M}.
Implicit Types (s : Sched M).

(** ** Gang creation *)

Definition free_vcpus s (ids : list Z) : Sched M :=
  fold_left (fun s vid => let '(v, m) := vcpu_free (slab s) (mm s) vid in with_mm (with_slab s v) m) ids s.

Definition gang_frame (entry arg sp : Z) : TrapFrame := frame_of arg entry 0x1B RFLAGS_IF sp 0x23.

(** The stack and frame of one new member. *)
Definition setup_member s (vid gang entry arg pages : Z) : Sched M :=
  let alloc_base := HIGHER_HALF +u64 pages in
  let stack_base := alloc_base +u64 PAGE_SIZE in
  let stack_top := stack_base +u64 KERNEL_STACK_SIZE in
  let kp := kernel_pml4 (mm s) in
  let m1 := write_bytes (mm s) stack_base 0 KERNEL_STACK_SIZE in
  let m2 := map_contiguous m1 kp stack_base (pages +u64 PAGE_SIZE) 2 in
  let iretq_frame := stack_top -u64 IRETQ_FRAME_SIZE in
  let m3 := write_u64 m2 iretq_frame entry in
  let m4 := write_u64 m3 (iretq_frame +u64 8) 0x1B in
  let m5 := write_u64 m4 (iretq_frame +u64 16) RFLAGS_IF in
  with_mm (with_slab s (vcpu_update (slab s) vid (fun v =>
    set_gang (set_pml4 (set_stack (set_frame (set_state v Ready)
      (gang_frame entry arg iretq_frame)) stack_top) kp) gang))) m5.

(** Members [i..n), [made] the ids created so far; [None] undoes them. *)
Fixpoint create_members (n : nat) s (gang entry arg : Z) (made : list Z) : option (list Z) * Sched M :=
  match n with
  | O => (Some made, s)
  | S n =>
    match vcpu_alloc (slab s) gang (kernel_pml4 (mm s)) U64_MAX Normal with
    | (None, v) => (None, free_vcpus (with_slab s v) made)
    | (Some vid, v) =>
      let s1 := with_slab s v in
      match pages_alloc (mm s1) 3 with
      | (None, m) => (None, free_vcpus (with_mm s1 m) (vid :: made))
      | (Some pages, m) =>
        create_members n (setup_member (with_mm s1 m) vid gang entry arg pages) gang entry arg (made ++ [vid])
      end
    end
  end.

Definition push_all s (cpu : nat) (ids : list Z) : Sched M :=
  fold_left (fun s vid => with_pc s (snd (rq_push (pc s) cpu vid))) ids s.

Definition create_gang s (n_vcpus entry arg : Z) (nm : list Z) (syms : option (Z * Z * Z))
    : option Z * Sched M :=
  let s0 := with_gt s (reserve_zero (gt s)) in
  if (MAX_GANGS <=? gcount (gt s0))%nat then (None, s0)
  else
    let gang := Z.of_nat (gcount (gt s0)) in
    let len := Nat.min (length nm) 32 in
    let gang_name := take len nm ++ replicate (32 - len) 0 in
    let '(sp, sz, st) := default (0, 0, 0) syms in
    let n := Nat.min (Z.to_nat n_vcpus) MAX_VCPUS_PER_GANG in
    match create_members n s0 gang entry arg [] with
    | (None, s1) => (None, s1)
    | (Some ids, s1) =>
      let best_cpu := find_least_loaded (pc s1) in
      let s2 := push_all s1 best_cpu ids in
      let s3 := with_pc s2 (add_task_count (pc s2) best_cpu (Z.of_nat n)) in
      let g := mkGang gang gang_name sp sz st
        ((Some <$> ids) ++ replicate (MAX_VCPUS_PER_GANG - n) None) n_vcpus
        (saturating_sub (min_gang_vruntime (gt s3)) (VRUNTIME_BIAS *u64 n_vcpus)) 0 Active in
      let t := set_gang_at (gt s3) (gcount (gt s3)) (Some g) in
      (Some gang, with_gt s3 (mkGangs (gangs t) (S (gcount t)) (ginit t)))
    end.

Definition driver_gang_name : list Z :=
  [100; 114; 105; 118; 101; 114; 95; 118; 99; 112; 117] ++ replicate 21 32.

Definition register_driver_vcpu s (vid : Z) : bool * Sched M :=
  let total := STACK_PAGES + 1 in
  match pages_alloc (mm s) total with
  | (None, m) => (false, with_mm s m)
  | (Some pages, m) =>
    let alloc_base := HIGHER_HALF +u64 pages in
    let stack_base := alloc_base +u64 PAGE_SIZE in
    let stack_top := stack_base +u64 KERNEL_STACK_SIZE in
    let m1 := map_contiguous m (kernel_pml4 m) stack_base (pages +u64 PAGE_SIZE) STACK_PAGES in
    let m2 := write_bytes m1 stack_base 0 KERNEL_STACK_SIZE in
    let s1 := with_gt (with_mm s m2) (reserve_zero (gt s)) in
    if (MAX_GANGS <=? gcount (gt s1))%nat then
      let m3 := fold_left (fun m p => unmap m (alloc_base +u64 (p *u64 PAGE_SIZE))) (seqZ 0 total) m2 in
      (false, with_mm s1 (pages_free m3 pages total))
    else
      let gang := gcount (gt s1) in
      let v := vcpu_update (slab s1) vid (fun v => set_gang (set_stack v stack_top) (Z.of_nat gang)) in
      let g := mkGang (Z.of_nat gang) driver_gang_name 0 0 0
        (Some vid :: replicate (MAX_VCPUS_PER_GANG - 1) None) 1 0 0 Active in
      let t := set_gang_at (gt s1) gang (Some g) in
      (true, with_slab (with_gt s1 (mkGangs (gangs t) (S gang) (ginit t))) v)
  end.

(** ** The scheduling decision *)

(** Step 0, one member slot: a terminated vCPU is freed with its tables. *)
Definition cleanup_slot (acc : list (option Z) * Z * Sched M) (o : option Z)
    : list (option Z) * Z * Sched M :=
  let '(ids, cnt, s) := acc in
  match o with
  | Some vid =>
    match vcpu_get (slab s) vid with
    | Some v =>
      if bool_decide (state v = Terminated) then
        let '(sl, m) := vcpu_free (slab s) (mm s) vid in
        let m1 := if pml4 v =? 0 then m else free_pml4 m (pml4 v) in
        (ids ++ [None], saturating_sub cnt 1, with_mm (with_slab s sl) m1)
      else (ids ++ [o], cnt, s)
    | None => (ids ++ [o], cnt, s)
    end
  | None => (ids ++ [None], cnt, s)
  end.

Definition cleanup_gang s (i : nat) : Sched M :=
  match gang_at (gt s) i with
  | Some g =>
    let '(ids, cnt, s1) := fold_left cleanup_slot (vcpu_ids g) ([], vcpu_total g, s) in
    if forallb (fun o => if o is Some _ then false else true) ids
    then with_gt s1 (set_gang_at (gt s1) i None)
    else with_gt s1 (set_gang_at (gt s1) i (Some (set_members g ids cnt)))
  | None => with_gt s (set_gang_at (gt s) i None)
  end.

Definition cleanup s : Sched M := fold_left cleanup_gang (seq 1 (gcount (gt s) - 1)) s.

(** Step 1: the frame as saved; ring-0 frames get the kernel stack pointer
    computed from the address of the frame. *)
Definition saved_copy (frame : TrapFrame) (frame_addr : Z) : TrapFrame :=
  if Z.land (cs frame) 3 =? 0 then set_ss (set_rsp frame (frame_addr +u64 160)) 0x10
  else set_rsp frame (rsp frame).

Definition save_current s (cur : Z) (frame : TrapFrame) (frame_addr : Z) (fpu : FpuState) : Sched M :=
  match vcpu_get (slab s) cur with
  | Some v =>
    let v1 := set_fpu (set_magic (set_frame v (saved_copy frame frame_addr)) FRAME_MAGIC) fpu in
    if bool_decide (state v1 = Halted) then with_slab s (vcpu_set (slab s) cur v1)
    else
      let g := Z.to_nat (gang_id v1) in
      match (if (0 <? g)%nat && (g <? MAX_GANGS)%nat then gang_at (gt s) g else None) with
      | Some gang =>
        let w := Z.max (vcpu_total gang) 1 in
        let gang1 := set_running
          (set_gvruntime gang (saturating_add 64 (gvruntime gang) (VRUNTIME_TICK * 100 / w)))
          (saturating_sub (running_count gang) 1) in
        let v2 := set_state (set_vruntime v1 (saturating_add 64 (vruntime v1) VRUNTIME_TICK)) Ready in
        with_gt (with_slab s (vcpu_set (slab s) cur v2)) (set_gang_at (gt s) g (Some gang1))
      | None => with_slab s (vcpu_set (slab s) cur v1)
      end
  | None => s
  end.

(** Step 2: the active gang with an available member and least vruntime. *)
Definition avail (g : Gang) : Z := saturating_sub (vcpu_total g) (running_count g).

Definition best_step (t : GangTable) (acc : option nat * Z) (i : nat) : option nat * Z :=
  match gang_at t i with
  | Some g =>
    if gstate g is Active then
      if (avail g >? 0) && (gvruntime g <? snd acc) then (Some i, gvruntime g) else acc
    else acc
  | None => acc
  end.

Definition best_gang (t : GangTable) : option nat :=
  fst (fold_left (best_step t) (seq 1 (gcount t - 1)) (None, U64_MAX)).

(** Step 3: vCPUs per core. *)
Definition per_core (free_cores demand : Z) : Z :=
  if free_cores >=? demand then 1
  else if free_cores >? 0 then (demand + free_cores - 1) / free_cores
  else 1.

(** Step 5: extra vCPUs onto this CPU's queue. *)
Fixpoint push_extras (n : nat) s (gi : nat) (g : Gang) (cpu : nat) : Sched M * Gang :=
  match n with
  | O => (s, g)
  | S n =>
    match pick_vcpu (slab s) g with
    | Some eid =>
      let g1 := set_running g (wrap 32 (running_count g + 1)) in
      push_extras n (with_pc s (snd (rq_push (pc s) cpu eid))) gi g1 cpu
    | None => push_extras n s gi g cpu
    end
  end.

(** Step 6: the checks on a loaded frame; [None] rejects it, otherwise the
    frame with its stack selector repaired. *)
Definition rip_canonical (rip : Z) : bool :=
  (Z.shiftr rip 47 =? 0x1FFFF) || (Z.shiftr rip 47 =? 0).

Definition validate_frame (f : TrapFrame) : option TrapFrame :=
  let ring := Z.land (cs f) 3 in
  let ok0 := negb (rsp f =? 0) && ((ring =? 3) || (ring =? 0)) in
  let cs_valid := (cs f =? 0x08) || (cs f =? 0x1B) in
  let rip_ok := if rip f =? 0 then true else rip_canonical (rip f) in
  if ok0 && cs_valid && rip_ok then
    let f1 := if (ring =? 3) && negb (ss f =? 0x23) && negb (ss f =? 0x2B) then set_ss f 0x23 else f in
    let f2 := if (ring =? 0) && negb (ss f1 =? 0x10) && negb (ss f1 =? 0x18) then set_ss f1 0x10 else f1 in
    Some f2
  else None.

(** Result: the new state, the frame and FPU image to return to, whether a
    switch happens and the PML4 to load (0: keep). *)
Record Decision := mkDecision {
  d_state : Sched M; d_frame : TrapFrame; d_fpu : FpuState; d_switched : bool; d_pml4 : Z;
}.

Definition go_idle s (cpu : nat) (idle : Z) (frame : TrapFrame) (fpu_out : FpuState) : Decision :=
  mkDecision (with_pc s (set_current_vcpu (pc s) cpu idle)) frame fpu_out false 0.

(** The end of the function: switch to [next], already marked running. *)
Definition commit s (cpu : nat) (idle next next_pml4 next_stack_top : Z) (frame : TrapFrame)
    (fpu_out : FpuState) : Decision :=
  let s1 := with_pc s (set_current_vcpu (pc s) cpu next) in
  let need_switch := negb (next_pml4 =? pml4_address (mm s1)) && negb (next_pml4 =? 0) in
  let s2 :=
    if next_stack_top =? 0 then s1
    else
      let sl := (cpu mod MAX_CPUS)%nat in
      mkSched (gt s1) (slab s1)
        (set_slot (pc s1) sl (with_kernel_stack_top (slot (pc s1) sl) next_stack_top))
        (mm s1) (<[sl := next_stack_top]> (tss_rsp0 s1)) (ipis s1) in
  if need_switch && ((next_pml4 >=? MAX_PML4_PHYS) || (next_pml4 =? 0))
  then go_idle s2 cpu idle frame fpu_out
  else mkDecision s2 frame fpu_out true (if need_switch then next_pml4 else 0).

(** Step 6: load [next] and check it. *)
Definition load_next s (cpu : nat) (idle next : Z) (frame : TrapFrame) (fpu_out : FpuState) : Decision :=
  match vcpu_get (slab s) next with
  | None => go_idle s cpu idle frame fpu_out
  | Some v =>
    let magic_ok := frame_magic v =? FRAME_MAGIC in
    let s1 := with_slab s (vcpu_set (slab s) next (set_magic (set_state v Running) 0)) in
    let f := saved_frame v in
    let is_idle := bool_decide (get_vcpu_type (slab s1) next = TIdle) in
    if negb is_idle && negb magic_ok then go_idle s1 cpu idle f (fpu_state v)
    else if is_idle then commit s1 cpu idle next (pml4 v) (Vcpu.kernel_stack_top v) f (fpu_state v)
    else
      match validate_frame f with
      | None => go_idle s1 cpu idle f (fpu_state v)
      | Some f' => commit s1 cpu idle next (pml4 v) (Vcpu.kernel_stack_top v) f' (fpu_state v)
      end
  end.

(** [schedule_inner]; [fpu] is what FXSAVE stores, [fpu_out] the caller's buffer. *)
Definition schedule_inner s (cpu : nat) (frame : TrapFrame) (frame_addr : Z)
    (fpu fpu_out : FpuState) : Decision :=
  if (gcount (gt s) <? 1)%nat then mkDecision s frame fpu_out false 0
  else
    let s0 := cleanup s in
    let idle := idle_vcpu (pc s0) cpu in
    let cur := wrap 32 (current_vcpu (pc s0) cpu) in
    let s1 := if cur =? idle then s0 else save_current s0 cur frame frame_addr fpu in
    match best_gang (gt s1) with
    | None => go_idle s1 cpu idle frame fpu_out
    | Some gi =>
      match gang_at (gt s1) gi with
      | None => go_idle s1 cpu idle frame fpu_out
      | Some g =>
        let demand := avail g in
        let pcore := per_core (count_free_cores (pc s1)) demand in
        match pick_vcpu (slab s1) g with
        | None => go_idle s1 cpu idle frame fpu_out
        | Some next =>
          let g1 := set_running g (wrap 32 (running_count g + 1)) in
          let '(s2, g2) :=
            if pcore >? 1
            then push_extras (Z.to_nat (Z.min (pcore - 1) (avail g1))) s1 gi g1 cpu
            else (s1, g1) in
          let s3 := with_gt s2 (set_gang_at (gt s2) gi (Some g2)) in
          load_next s3 cpu idle next frame fpu_out
        end
      end
    end.

(** [block_current] up to the context switch it ends in. *)
Definition block_current s (cpu : nat) (frame : TrapFrame) (frame_addr : Z)
    (fpu fpu_out : FpuState) : Decision :=
  let cur := wrap 32 (current_vcpu (pc s) cpu) in
  let idle := idle_vcpu (pc s) cpu in
  if cur =? idle then mkDecision s frame fpu_out false 0
  else
    let s1 :=
      match vcpu_get (slab s) cur with
      | Some v =>
        let g := Z.to_nat (gang_id v) in
        let s' := with_slab s (vcpu_set (slab s) cur (set_state v Halted)) in
        match (if (0 <? g)%nat && (g <? MAX_GANGS)%nat then gang_at (gt s) g else None) with
        | Some gang =>
          with_gt s' (set_gang_at (gt s) g (Some (set_running gang (saturating_sub (running_count gang) 1))))
        | None => s'
        end
      | None => s
      end in
    schedule_inner s1 cpu frame frame_addr fpu fpu_out.

(** ** Wake and steal *)

Definition wake s (vid64 : Z) : Sched M :=
  let vid := wrap 32 vid64 in
  match vcpu_get (slab s) vid with
  | Some v =>
    if bool_decide (state v = Halted) then
      let s1 := with_slab s (vcpu_set (slab s) vid (set_vruntime (set_state v Ready) 0)) in
      let target := find_least_loaded (pc s1) in
      if (MAX_CPUS <=? target)%nat then s1
      else
        let p1 := snd (rq_push (pc s1) target vid) in
        let p2 := add_task_count p1 target 1 in
        if is_online p2 target then
          let sl := slot p2 target in
          mkSched (gt s1) (slab s1) (set_slot p2 target (with_need_resched sl true)) (mm s1) (tss_rsp0 s1)
            ((apic_id sl, IPI_VECTOR) :: ipis s1)
        else with_pc s1 p2
    else s
  | None => s
  end.

Definition fat_step (p : Percpu) (hungry : nat) (acc : option nat * Z) (cpu : nat) : option nat * Z :=
  if (cpu =? hungry)%nat then acc
  else
    let cnt := task_count p cpu in
    if (cnt >? snd acc) && (cnt >=? 2) then (Some cpu, cnt) else acc.

(** [steal_task]; [irq_on] is [interrupts::are_enabled()], [got_lock] the
    outcome of [try_lock]. *)
Definition steal_task s (irq_on got_lock : bool) (hungry : nat) : bool * Sched M :=
  if negb irq_on then (false, s)
  else if negb got_lock then (false, s)
  else
    match fst (fold_left (fat_step (pc s) hungry) (seq 0 MAX_CPUS) (None, 0)) with
    | None => (false, s)
    | Some source =>
      match rq_pop (pc s) source with
      | (None, _) => (false, s)
      | (Some vid, p1) =>
        let p2 := snd (rq_push p1 hungry (wrap 32 vid)) in
        let p3 := add_task_count p2 source (-1) in
        (true, with_pc s (add_task_count p3 hungry 1))
      end
    end.

(** ** Idle vCPU of a CPU *)

(** [init_idle_vcpu]; [rip_] is the address of the HLT loop, [sp] the current
    stack pointer; [None] is the panic of [expect]. *)
Definition init_idle_vcpu s (cpu : nat) (rip_ sp : Z) : option (Sched M) :=
  match vcpu_alloc (slab s) GANG_UNSCHEDULED (pml4_address (mm s)) (Z.shiftl 1 (Z.of_nat cpu)) TIdle with
  | (None, _) => None
  | (Some vid, v) =>
    let v1 := vcpu_update v vid (fun c => set_frame (set_state c VIdle) (frame_of 0 rip_ 0x08 0x202 sp 0x10)) in
    let p1 := set_slot (pc s) cpu (with_kernel_stack_top (slot (pc s) cpu) sp) in
    let p2 := set_idle_vcpu p1 cpu vid in
    let p3 := set_current_vcpu p2 cpu vid in
    Some (with_pc (with_slab s v1) (set_task_count p3 cpu 1))
  end.

Definition current_vcpu_id s (cpu : nat) : Z := wrap 32 (current_vcpu (pc s) cpu).
End scheduler.
