(* ===== verification/SchedulerThms.v ===== *)
(** Properties of the gang scheduler model [Scheduler]. *)
From stdpp Require Import base tactics numbers list sets.
From Stdlib Require Import ZArith Lia.
From S2P Require Import Prelude Phys PhysThms KMem Slab Percpu Vcpu Scheduler.

Local Open Scope Z_scope.

(** ** Choice of gang and vCPU *)

(** Gang [i] may be scheduled: active, with a member not running. *)
Definition eligible (t : GangTable) (i : nat) (g : Gang) : Prop :=
  (1 <= i < gcount t)%nat /\ gang_at t i = Some g /\ gstate g = Active /\ 0 < avail g.

(** vCPU [vid] of gang [g] is ready. *)
Definition ready_member (v : VcpuSlab) (g : Gang) (vid : Z) (c : Vcpu) : Prop :=
  Some vid ∈ vcpu_ids g /\ vcpu_get v vid = Some c /\ state c = Ready.

Definition gang_cand (t : GangTable) (i : nat) : option (nat * Z) :=
  match gang_at t i with
  | Some g => if gstate g is Active then if avail g >? 0 then Some (i, gvruntime g) else None else None
  | None => None
  end.

Definition vcpu_cand (v : VcpuSlab) (o : option Z) : option (Z * Z) :=
  match o with
  | Some vid =>
    match vcpu_get v vid with
    | Some c => if bool_decide (state c = Ready) then Some (vid, vruntime c) else None
    | None => None
    end
  | None => None
  end.

Lemma best_gang_argmin t :
  best_gang t = fst (fold_left (argmin_step (gang_cand t)) (seq 1 (gcount t - 1)) (None, U64_MAX)).
Proof.
  unfold best_gang. f_equal. apply fold_left_ext. intros acc i. unfold best_step, argmin_step, gang_cand.
  destruct (gang_at t i) as [g|]; [|done]. destruct (gstate g); [|done]. by destruct (avail g >? 0).
Qed.

Lemma pick_vcpu_argmin v g :
  pick_vcpu v g = fst (fold_left (argmin_step (vcpu_cand v)) (vcpu_ids g) (None, U64_MAX)).
Proof.
  unfold pick_vcpu. f_equal. apply fold_left_ext. intros acc o. unfold pick_step, argmin_step, vcpu_cand.
  destruct o as [vid|]; [|done]. destruct (vcpu_get v vid) as [c|]; [|done].
  by destruct (bool_decide (state c = Ready)).
Qed.

Lemma gang_cand_eligible t i b w :
  i ∈ seq 1 (gcount t - 1) -> (gang_cand t i = Some (b, w) <-> b = i /\ exists g, eligible t i g /\ gvruntime g = w).
Proof.
  intros Hi%elem_of_seq. unfold gang_cand, eligible. destruct (gang_at t i) as [g|].
  2:{ split; [done|]. intros (_ & g & (_ & [=] & _) & _). }
  destruct (gstate g) eqn:E.
  2:{ split; [done|]. intros (_ & g' & (_ & [= <-] & ? & _) & _). congruence. }
  destruct (Z.gtb_spec (avail g) 0).
  2:{ split; [done|]. intros (_ & g' & (_ & [= <-] & _ & ?) & _). lia. }
  split; [intros [= <- <-]; split; [done|]; exists g; split_and!; (done || lia)|].
  intros (-> & g' & (_ & [= <-] & _) & <-). done.
Qed.

Lemma vcpu_cand_ready v g o vid w :
  o ∈ vcpu_ids g -> (vcpu_cand v o = Some (vid, w) <-> o = Some vid /\ exists c, ready_member v g vid c /\ vruntime c = w).
Proof.
  intros Ho. unfold vcpu_cand, ready_member. destruct o as [vid'|]; [|split; [done|by intros [? _]]].
  destruct (vcpu_get v vid') as [c|] eqn:E.
  2:{ split; [done|]. intros ([= <-] & c & (_ & Hc & _) & _). congruence. }
  case_bool_decide as Hr.
  2:{ split; [done|]. intros ([= <-] & c' & (_ & Hc & ?) & _). congruence. }
  split.
  - intros [= <- <-]. split; [done|]. exists c. by rewrite E.
  - intros ([= <-] & c' & (_ & Hc & _) & <-). congruence.
Qed.

Lemma best_gang_spec t :
  match best_gang t with
  | Some i => exists g, eligible t i g /\ forall j g', eligible t j g' -> gvruntime g <= gvruntime g'
  | None => forall j g', eligible t j g' -> U64_MAX <= gvruntime g'
  end.
Proof.
  rewrite best_gang_argmin. pose proof (argmin_spec (gang_cand t) (seq 1 (gcount t - 1)) U64_MAX) as H.
  assert (forall j g', eligible t j g' -> j ∈ seq 1 (gcount t - 1)) as Hin
    by (intros j g' (? & _); apply elem_of_seq; lia).
  destruct (fst (fold_left _ _ _)) as [i|].
  - destruct H as (x & w & Hx & Hc & Hmin). apply gang_cand_eligible in Hc as (-> & g & He & <-); [|done].
    exists g. split; [done|]. intros j g' Hj. apply (Hmin j j); [eauto|]. apply gang_cand_eligible; eauto.
  - intros j g' Hj. apply (H j j); [eauto|]. apply gang_cand_eligible; eauto.
Qed.

Lemma pick_vcpu_spec v g :
  match pick_vcpu v g with
  | Some vid => exists c, ready_member v g vid c /\
      forall vid' c', ready_member v g vid' c' -> vruntime c <= vruntime c'
  | None => forall vid' c', ready_member v g vid' c' -> U64_MAX <= vruntime c'
  end.
Proof.
  rewrite pick_vcpu_argmin. pose proof (argmin_spec (vcpu_cand v) (vcpu_ids g) U64_MAX) as H.
  destruct (fst (fold_left _ _ _)) as [vid|].
  - destruct H as (x & w & Hx & Hc & Hmin). apply (vcpu_cand_ready v g) in Hc as (-> & c & Hr & <-); [|done].
    exists c. split; [done|]. intros vid' c' Hr'. pose proof Hr' as (Hin & _).
    apply (Hmin (Some vid') vid'); [done|]. apply (vcpu_cand_ready v g); eauto.
  - intros vid' c' Hr'. pose proof Hr' as (Hin & _).
    apply (H (Some vid') vid'); [done|]. apply (vcpu_cand_ready v g); eauto.
Qed.

(** C6: The scheduling decision is a minimum: [schedule_inner] considers the active gang with an idle
    member whose virtual runtime is least, and in it the ready vCPU of least virtual runtime; it
    finds none only when there is none (below the saturation value). *)
Theorem schedule_picks_minimum t v :
  match best_gang t with
  | Some i =>
    exists g, eligible t i g /\ (forall j g', eligible t j g' -> gvruntime g <= gvruntime g') /\
    match pick_vcpu v g with
    | Some vid => exists c, ready_member v g vid c /\
        forall vid' c', ready_member v g vid' c' -> vruntime c <= vruntime c'
    | None => forall vid' c', ready_member v g vid' c' -> U64_MAX <= vruntime c'
    end
  | None => forall j g', eligible t j g' -> U64_MAX <= gvruntime g'
  end.
Proof.
  pose proof (best_gang_spec t) as H. destruct (best_gang t) as [i|]; [|done].
  destruct H as (g & He & Hmin). exists g. split_and!; [done..|]. apply pick_vcpu_spec.
Qed.

(** ** What a context switch loads *)

(** A frame [iretq] can return to: known code selector, matching stack
    selector, stack pointer set, canonical instruction pointer. *)
Definition frame_safe (f : TrapFrame) : Prop :=
  rsp f <> 0 /\ (rip f = 0 \/ rip_canonical (rip f) = true) /\
  ((cs f = 0x1B /\ (ss f = 0x23 \/ ss f = 0x2B)) \/ (cs f = 0x08 /\ (ss f = 0x10 \/ ss f = 0x18))).

Lemma validate_frame_safe f f' :
  validate_frame f = Some f' -> frame_safe f' /\ rip f' = rip f /\ rsp f' = rsp f /\ cs f' = cs f.
Proof.
  unfold validate_frame. destruct (_ && _ && _) eqn:E; [|done]. intros [= <-].
  apply andb_true_iff in E as [E Hrip]. apply andb_true_iff in E as [E Hcs].
  apply andb_true_iff in E as [Hrsp%negb_true_iff%Z.eqb_neq _].
  assert (rip f = 0 \/ rip_canonical (rip f) = true) as Hrip'
    by (destruct (Z.eqb_spec (rip f) 0); [by left|by right]).
  unfold frame_safe. apply orb_true_iff in Hcs as [Hcs%Z.eqb_eq|Hcs%Z.eqb_eq]; rewrite Hcs; simpl.
  - destruct (Z.eqb_spec (ss f) 0x10), (Z.eqb_spec (ss f) 0x18); simpl; rewrite ?Hcs; split_and!; auto.
  - destruct (Z.eqb_spec (ss f) 0x23), (Z.eqb_spec (ss f) 0x2B); simpl; rewrite ?Hcs; split_and!; auto.
Qed.

Lemma vcpu_get_set s vid v v' : vcpu_get s vid = Some v -> vcpu_get (vcpu_set s vid v') vid = Some v'.
Proof.
  unfold vcpu_get, vcpu_set. simpl. destruct (_ <? _)%nat; [|done].
  destruct (vcpus s !! Z.to_nat vid) eqn:E; simpl; [|done]. intros ->.
  by rewrite list_lookup_insert_eq by by eapply lookup_lt_Some.
Qed.

Lemma slot_set_eq p i x : (i < length (PERCPU p))%nat -> slot (set_slot p i x) i = x.
Proof. intros Hi. unfold slot, set_slot. simpl. by rewrite list_lookup_insert_eq. Qed.

Lemma slot_of_lt cpu p : length (PERCPU p) = MAX_CPUS -> (slot_of cpu < length (PERCPU p))%nat.
Proof. intros ->. unfold slot_of, MAX_CPUS. pose proof (Nat.mod_upper_bound cpu 4). lia. Qed.

Lemma length_set_slot p i x : length (PERCPU (set_slot p i x)) = length (PERCPU p).
Proof. apply length_insert. Qed.

Lemma length_rq_push p cpu vid : length (PERCPU (snd (rq_push p cpu vid))) = length (PERCPU p).
Proof. unfold rq_push. destruct (queue_push _ _). apply length_set_slot. Qed.

Section schedule.
Context {M : Type} `{!KernelMem M}.
Implicit Types (s : Sched M).

Definition cpus_ok s : Prop := length (PERCPU (pc s)) = MAX_CPUS.

(** What the caller of [schedule_inner] is told when the vCPU [v0] is switched to. *)
Definition switched_to (cpu : nat) (d : Decision (M := M)) (v0 : Vcpu) : Prop :=
  vcpu_get (slab (d_state d)) (current_vcpu (pc (d_state d)) cpu) = Some (set_magic (set_state v0 Running) 0) /\
  d_fpu d = fpu_state v0 /\
  (if decide (vcpu_type v0 = TIdle) then d_frame d = saved_frame v0
   else frame_magic v0 = FRAME_MAGIC /\ validate_frame (saved_frame v0) = Some (d_frame d) /\ frame_safe (d_frame d)) /\
  d_pml4 d = (if decide (pml4 v0 = 0 \/ pml4 v0 = pml4_address (mm (d_state d))) then 0 else pml4 v0) /\ d_pml4 d < MAX_PML4_PHYS.

Lemma commit_ok s cpu idle next f fo v0 :
  let v := set_magic (set_state v0 Running) 0 in
  cpus_ok s -> vcpu_get (slab s) next = Some v -> fo = fpu_state v0 ->
  (if decide (vcpu_type v0 = TIdle) then f = saved_frame v0
   else frame_magic v0 = FRAME_MAGIC /\ validate_frame (saved_frame v0) = Some f /\ frame_safe f) ->
  let d := commit s cpu idle next (pml4 v0) (Vcpu.kernel_stack_top v0) f fo in
  d_switched d = true -> current_vcpu (pc (d_state d)) cpu = next /\ switched_to cpu d v0.
Proof.
  cbv zeta. intros Hlen Hv Hfo Hf. unfold commit.
  pose proof (slot_of_lt cpu (pc s) Hlen) as Hlt. set (st := Vcpu.kernel_stack_top v0).
  set (s2 := if st =? 0 then _ else _).
  assert (current_vcpu (pc s2) cpu = next /\ slab s2 = slab s /\ mm s2 = mm s) as (Hcur & Hsl & Hmm).
  { unfold s2. destruct (st =? 0); simpl; (split; [|done]); unfold current_vcpu, set_current_vcpu.
    - by rewrite slot_set_eq.
    - fold (slot_of cpu). rewrite slot_set_eq by (rewrite length_set_slot; done). simpl.
      by rewrite slot_set_eq. }
  destruct (_ && (_ || _)) eqn:E; [done|]. intros _. unfold switched_to. cbn [d_state d_fpu d_frame d_pml4].
  rewrite Hcur, Hsl, Hmm. split; [done|]. split; [done|]. split; [done|]. split; [done|].
  cbn [mm with_pc] in *. destruct (Z.eqb_spec (pml4 v0) (pml4_address (mm s))), (Z.eqb_spec (pml4 v0) 0); cbn [negb andb] in *;
    try (rewrite decide_True by auto; split; [done|unfold MAX_PML4_PHYS; lia]).
  rewrite decide_False by (by intros [?|?]).
  rewrite orb_false_r in E. split; [done|]. destruct (Z.geb_spec (pml4 v0) MAX_PML4_PHYS); [done|lia].
Qed.

Lemma load_next_ok s cpu idle next f fo :
  cpus_ok s -> let d := load_next s cpu idle next f fo in d_switched d = true ->
  exists v0, vcpu_get (slab s) next = Some v0 /\ current_vcpu (pc (d_state d)) cpu = next /\ switched_to cpu d v0.
Proof.
  intros Hlen. cbv zeta. unfold load_next. destruct (vcpu_get (slab s) next) as [v0|] eqn:E; [|done].
  set (v := set_magic (set_state v0 Running) 0). set (s1 := with_slab s _).
  assert (vcpu_get (slab s1) next = Some v) as Hv by (unfold s1; simpl; by eapply vcpu_get_set).
  assert (get_vcpu_type (slab s1) next = vcpu_type v0) as -> by (unfold get_vcpu_type, vcpu_with; by rewrite Hv).
  case_bool_decide as Hty; simpl.
  - intros Hsw. exists v0. split; [done|]. apply commit_ok; try done. by rewrite decide_True.
  - destruct (Z.eqb_spec (frame_magic v0) FRAME_MAGIC) as [Hmag|]; simpl; [|done].
    destruct (validate_frame (saved_frame v0)) as [f'|] eqn:Ev; [|done]. intros Hsw. exists v0. split; [done|].
    apply commit_ok; try done. rewrite decide_False by done. split; [done|]. split; [done|]. by eapply validate_frame_safe.
Qed.

(** The vCPU that was running, as it is saved. *)
Definition saved_as (f : TrapFrame) (fa : Z) (fpu : FpuState) (v v0 : Vcpu) : Prop :=
  saved_frame v0 = saved_copy f fa /\ frame_magic v0 = FRAME_MAGIC /\ fpu_state v0 = fpu /\ pml4 v0 = pml4 v /\ vcpu_type v0 = vcpu_type v.

Lemma vcpu_get_set_any sl vid v j w :
  vcpu_get (vcpu_set sl vid v) j = Some w -> vcpu_get sl j = Some w \/ (Z.to_nat j = Z.to_nat vid /\ w = v).
Proof.
  unfold vcpu_get, vcpu_set. simpl. destruct (_ <? _)%nat; [|done]. intros H.
  destruct (decide (Z.to_nat vid = Z.to_nat j)) as [E|E].
  - rewrite E in H. destruct (decide (Z.to_nat j < length (vcpus sl))%nat) as [Hl|Hl].
    + rewrite list_lookup_insert_eq in H by done. injection H as <-. by right.
    + rewrite list_insert_ge in H by lia. by left.
  - rewrite list_lookup_insert_ne in H by done. by left.
Qed.

Lemma vcpu_free_get sl (m : M) vid j w : vcpu_get (fst (vcpu_free sl m vid)) j = Some w -> vcpu_get sl j = Some w.
Proof.
  unfold vcpu_free, vcpu_get. destruct (Z.to_nat vid <? MAX_VCPUS)%nat; [|done].
  destruct (vcpus sl !! Z.to_nat vid) as [[v|]|] eqn:E; [|done..]. simpl. destruct (_ <? _)%nat; [|done]. intros H.
  destruct (decide (Z.to_nat vid = Z.to_nat j)) as [E'|E'].
  - rewrite E' in *. rewrite list_lookup_insert_eq in H by (by eapply lookup_lt_Some). done.
  - by rewrite list_lookup_insert_ne in H.
Qed.

Lemma cleanup_slot_get ids acc j w :
  vcpu_get (slab (snd (fold_left cleanup_slot ids acc))) j = Some w -> vcpu_get (slab (snd acc)) j = Some w.
Proof.
  revert acc. induction ids as [|o ids IH]; intros [[l c] s]; simpl; [done|]. intros H%IH. simpl in H.
  destruct o as [vid|]; [|done]. destruct (vcpu_get _ vid) as [v|]; [|done]. case_bool_decide; [|done].
  pose proof (vcpu_free_get (slab s) (mm s) vid j w) as Hf. destruct (vcpu_free _ _ _). by apply Hf.
Qed.

Lemma cleanup_get s j w : vcpu_get (slab (cleanup s)) j = Some w -> vcpu_get (slab s) j = Some w.
Proof.
  unfold cleanup. generalize (seq 1 (gcount (gt s) - 1)) as l. intros l. revert s.
  induction l as [|i l IH]; intros s; simpl; [done|]. intros H%IH. clear IH. unfold cleanup_gang in H.
  destruct (gang_at _ _) as [g|]; [|done]. pose proof (cleanup_slot_get (vcpu_ids g) ([], vcpu_total g, s) j w) as Hg.
  destruct (fold_left cleanup_slot _ _) as [[ids c] s1]. simpl in Hg. destruct (forallb _ _); by apply Hg.
Qed.

Lemma save_current_get s cur f fa fpu j w :
  vcpu_get (slab (save_current s cur f fa fpu)) j = Some w ->
  exists v, vcpu_get (slab s) j = Some v /\ (w = v \/ Z.to_nat j = Z.to_nat cur /\ saved_as f fa fpu v w).
Proof.
  unfold save_current. destruct (vcpu_get (slab s) cur) as [v|] eqn:E; [|intros; by exists w; auto].
  assert (forall v', saved_as f fa fpu v v' -> vcpu_get (vcpu_set (slab s) cur v') j = Some w ->
    exists v, vcpu_get (slab s) j = Some v /\ (w = v \/ Z.to_nat j = Z.to_nat cur /\ saved_as f fa fpu v w)) as H.
  { intros v' Hs [H|[Hj ->]]%vcpu_get_set_any; [by exists w; auto|]. exists v. split; [|by right].
    unfold vcpu_get in *. by rewrite Hj. }
  repeat case_match; by apply H.
Qed.

Lemma cleanup_slot_pc ids acc : pc (snd (fold_left cleanup_slot ids acc)) = pc (snd acc).
Proof.
  revert acc. induction ids as [|o ids IH]; intros [[l c] s]; simpl; [done|]. rewrite IH. simpl.
  destruct o as [vid|]; [|done]. destruct (vcpu_get _ _) as [v|]; [|done]. case_bool_decide; [|done].
  by destruct (vcpu_free _ _ _).
Qed.

Lemma cleanup_gang_pc s i : pc (cleanup_gang s i) = pc s.
Proof.
  unfold cleanup_gang. destruct (gang_at _ _) as [g|]; [|done].
  pose proof (cleanup_slot_pc (vcpu_ids g) ([], vcpu_total g, s)) as H. simpl in H.
  destruct (fold_left cleanup_slot _ _) as [[ids c] s1]. simpl in H. by destruct (forallb _ _).
Qed.

Lemma cleanup_pc s : pc (cleanup s) = pc s.
Proof.
  unfold cleanup. generalize (seq 1 (gcount (gt s) - 1)) as l. intros l. revert s.
  induction l as [|i l IH]; intros s; simpl; [done|]. by rewrite IH, cleanup_gang_pc.
Qed.

Lemma save_current_pc s cur f fa fpu : pc (save_current s cur f fa fpu) = pc s.
Proof.
  unfold save_current. destruct (vcpu_get _ _) as [v|]; [|done]. case_bool_decide; [done|].
  by repeat case_match.
Qed.

Lemma push_extras_keep n s gi g cpu :
  slab (fst (push_extras n s gi g cpu)) = slab s /\
  length (PERCPU (pc (fst (push_extras n s gi g cpu)))) = length (PERCPU (pc s)).
Proof.
  revert s g. induction n as [|n IH]; intros s g; simpl; [done|].
  destruct (pick_vcpu (slab s) g) as [eid|]; [|apply IH].
  specialize (IH (with_pc s (snd (rq_push (pc s) cpu eid))) (set_running g (wrap 32 (running_count g + 1)))).
  destruct IH as [-> ->]. split; [done|]. apply length_rq_push.
Qed.

(** The gang, the member and the extras that a decision rests on. *)
Lemma schedule_inner_next s cpu f fa fpu fo :
  let d := schedule_inner s cpu f fa fpu fo in d_switched d = true ->
  exists s1 g next s3 idle,
    (forall w, vcpu_get (slab s1) next = Some w -> exists v, vcpu_get (slab s) next = Some v /\
      (w = v \/ Z.to_nat next = Z.to_nat (wrap 32 (current_vcpu (pc s) cpu)) /\ saved_as f fa fpu v w)) /\
    pick_vcpu (slab s1) g = Some next /\ slab s3 = slab s1 /\ (cpus_ok s -> cpus_ok s3) /\
    d = load_next s3 cpu idle next f fo.
Proof.
  cbv zeta. unfold schedule_inner. case_match; [done|]. rewrite cleanup_pc.
  set (s1 := if _ =? _ then _ else _).
  assert (pc s1 = pc s) as Hpc.
  { unfold s1. case_match; [apply cleanup_pc|]. rewrite save_current_pc. apply cleanup_pc. }
  assert (forall j w, vcpu_get (slab s1) j = Some w -> exists v, vcpu_get (slab s) j = Some v /\
      (w = v \/ Z.to_nat j = Z.to_nat (wrap 32 (current_vcpu (pc s) cpu)) /\ saved_as f fa fpu v w)) as Hget.
  { intros j w. unfold s1. case_match; [intros Hw%cleanup_get; exists w; auto|].
    intros (v & Hv%cleanup_get & Hw)%save_current_get. by exists v. }
  clearbody s1. destruct (best_gang (gt s1)) as [gi|]; [|done].
  destruct (gang_at (gt s1) gi) as [g|]; [|done].
  destruct (pick_vcpu (slab s1) g) as [next|] eqn:Ep; [|done].
  set (r := if _ >? _ then _ else _).
  assert (slab (fst r) = slab s1 /\ length (PERCPU (pc (fst r))) = length (PERCPU (pc s1))) as [Hr1 Hr2].
  { unfold r. destruct (_ >? _); [apply push_extras_keep|done]. }
  destruct r as [s2 g2]. simpl in Hr1, Hr2. intros _.
  exists s1, g, next, (with_gt s2 (set_gang_at (gt s2) gi (Some g2))), (idle_vcpu (pc s) cpu).
  split_and!; [apply Hget|done|done| |done]. unfold cpus_ok. simpl. rewrite Hr2, Hpc. done.
Qed.

(** C7: Context-switch safety.  Whenever [schedule_inner] asks for a switch, the CPU's current vCPU is one
    that existed, either as it was or, if it is the one that ran before, as it has just been saved.  It
    was ready and is now marked running with its canary cleared.  Unless it is an idle vCPU, its saved
    frame carried the canary, and the frame handed back is that frame, checked: one [iretq] accepts
    (code and stack selectors of one privilege level, stack pointer set, canonical address).  Its FPU
    image is handed back too, and its page table, below 4 GiB, unless that is loaded already. *)
Theorem schedule_switch_safe s cpu f fa fpu fo :
  length (PERCPU (pc s)) = MAX_CPUS ->
  let d := schedule_inner s cpu f fa fpu fo in d_switched d = true ->
  let next := current_vcpu (pc (d_state d)) cpu in
  exists v v0, vcpu_get (slab s) next = Some v /\
    (v0 = v \/ Z.to_nat next = Z.to_nat (wrap 32 (current_vcpu (pc s) cpu)) /\ saved_as f fa fpu v v0) /\
    state v0 = Ready /\ switched_to cpu d v0.
Proof.
  intros Hlen. cbv zeta. intros Hsw.
  destruct (schedule_inner_next s cpu f fa fpu fo Hsw) as (s1 & g & next & s3 & idle & Hget & Hp & Hs3 & Hok & Hd).
  rewrite Hd in *. destruct (load_next_ok s3 cpu idle next f fo (Hok Hlen) Hsw) as (v0 & Hv0 & -> & Hto).
  rewrite Hs3 in Hv0. destruct (Hget v0 Hv0) as (v & Hv & Hor). exists v, v0. split_and!; [done|done| |done].
  pose proof (pick_vcpu_spec (slab s1) g) as Hps. rewrite Hp in Hps.
  destruct Hps as (c & (_ & Hc & Hr) & _). congruence.
Qed.

(** Emulated mode never spreads a gang.  The vCPUs that [schedule_inner] adds to the CPU's queue beside
    the one it loads are all that same vCPU: it is still marked ready while the extras are picked.
    (The comment there promises the gang's other vCPUs.)  Every queued id is counted as running. *)
Theorem extras_repeat_next n s gi g cpu next l :
  pick_vcpu (slab s) g = Some next -> length (PERCPU (pc s)) = MAX_CPUS ->
  queue_rep (rq (pc s) cpu) l -> (length l + n <= 256)%nat -> running_count g + Z.of_nat n < 2 ^ 32 ->
  0 <= running_count g ->
  let '(s', g') := push_extras n s gi g cpu in
  queue_rep (rq (pc s') cpu) (l ++ replicate n next) /\
  running_count g' = running_count g + Z.of_nat n.
Proof.
  revert s g l. induction n as [|n IH]; intros s g l Hp Hlen Hq Hl Hr Hr0; simpl.
  { by rewrite app_nil_r, Z.add_0_r. }
  rewrite Hp. rewrite (wrap_small 32) by lia. set (s1 := with_pc s _). set (g1 := set_running g _).
  assert (queue_rep (rq (pc s1) cpu) (l ++ [next])) as Hq1.
  { unfold s1. simpl. unfold rq_push. pose proof (queue_push_rep _ _ next Hq) as H.
    destruct (queue_push (rq (pc s) cpu) next) as [ok q]. rewrite (proj2 (Nat.ltb_lt _ _)) in H by lia.
    unfold rq, set_rq. simpl. rewrite slot_set_eq by by apply slot_of_lt. simpl. by destruct H as (_ & ? & _). }
  specialize (IH s1 g1 (l ++ [next])).
  destruct (push_extras n s1 gi g1 cpu) as [s' g']. destruct IH as [H1 H2]; try done.
  - unfold s1. simpl. by rewrite length_rq_push.
  - rewrite length_app. simpl. lia.
  - simpl. lia.
  - simpl. lia.
  - rewrite <-app_assoc in H1. simpl in H1, H2. split; [done|]. rewrite H2. lia.
Qed.
End schedule.

(** ** A machine with one CPU and 64 free pages *)

Definition sched_mem : FlatMem :=
  mkFlat ∅ (init_from_regions phys_boot [(0x100000, 0x40000)] 0x40000 0 0 []) 0x1000 0x1000.

Definition sched_boot : Sched FlatMem :=
  mkSched (scheduler_init gang_table_boot) vcpu_slab_boot (default percpu_boot (mark_online percpu_boot 0))
    sched_mem (replicate 4 0) [].

(** CPU 0 with its idle vCPU (id 0). *)
Definition sched_idle : Sched FlatMem := default sched_boot (init_idle_vcpu sched_boot 0 0xFFFF800000200000 0xFFFF800000300000).

(** A driver vCPU (id 1) with a saved frame, in gang 1. *)
Definition driver_frame : TrapFrame := frame_of 0 0x401000 0x1B 0x202 0x7FFFF000 0x99.

Definition sched_driver : Sched FlatMem :=
  let s := with_slab sched_idle (snd (vcpu_alloc (slab sched_idle) 0 0x5000 1 HardwareDriver)) in
  let s1 := snd (register_driver_vcpu s 1) in
  with_slab s1 (vcpu_update (slab s1) 1 (fun v =>
    set_magic (set_frame (set_state v Ready) driver_frame) FRAME_MAGIC)).

Definition idle_frame : TrapFrame := frame_of 0 0xFFFF800000200000 0x08 0x202 0 0x10.

Lemma schedule_switch_safe_witness :
  let d := schedule_inner sched_driver 0 idle_frame 0 [] [] in
  d_switched d = true /\ d_pml4 d = 0x5000 /\ ss (d_frame d) = 0x23 /\ exists v0, state v0 = Ready /\ switched_to 0 d v0.
Proof.
  cbv zeta. split; [vm_compute; reflexivity|]. split; [vm_compute; reflexivity|].
  split; [vm_compute; reflexivity|].
  destruct (schedule_switch_safe sched_driver 0 idle_frame 0 [] []) as (v & v0 & _ & _ & Hr & Hs); [vm_compute; reflexivity..|].
  exists v0. split; [exact Hr|exact Hs].
Defined.

Lemma extras_repeat_next_witness :
  exists g, gang_at (gt sched_driver) 1 = Some g /\
  let '(s', g') := push_extras 2 sched_driver 1 g 0 in
  queue_rep (rq (pc s') 0) ([] ++ replicate 2 1) /\ running_count g' = running_count g + Z.of_nat 2.
Proof.
  exists (default (mkGang 0 [] 0 0 0 [] 0 0 0 Active) (gang_at (gt sched_driver) 1)).
  split; [vm_compute; reflexivity|].
  apply (extras_repeat_next 2 sched_driver 1 _ 0 1 []).
  - vm_compute. reflexivity.
  - vm_compute. reflexivity.
  - assert (rq (pc sched_driver) 0 = mkQueue (replicate 256 0) 0 0 0) as -> by (vm_compute; reflexivity).
    apply empty_rep; [lia|reflexivity].
  - simpl. lia.
  - vm_compute. reflexivity.
  - vm_compute. discriminate.
Defined.

(** A gang made by [create_gang] never runs: its vCPUs are ready but their frames are never stamped with
    the canary, so the first decision that picks one rejects it and leaves it marked running; the
    next decision finds no ready vCPU in the gang at all. *)
Theorem created_gang_never_runs :
  let '(r, s) := create_gang sched_idle 1 0x401000 0 [] None in
  let d1 := schedule_inner s 0 idle_frame 0 [] [] in
  let d2 := schedule_inner (d_state d1) 0 idle_frame 0 [] [] in
  r = Some 1 /\ (state <$> vcpu_get (slab s) 1) = Some Ready /\
  d_switched d1 = false /\ (state <$> vcpu_get (slab (d_state d1)) 1) = Some Running /\
  (running_count <$> gang_at (gt (d_state d1)) 1) = Some 1 /\
  d_switched d2 = false /\ current_vcpu (pc (d_state d2)) 0 = 0 /\
  (state <$> vcpu_get (slab (d_state d2)) 1) = Some Running.
Proof. vm_compute. split_and!; reflexivity. Qed.

(** [create_gang] records the requested number of vCPUs although it creates at most eight: the gang looks
    available when all its vCPUs run, so it is chosen while the ready vCPU of another gang is
    passed over, and the CPU goes idle. *)
Theorem oversized_gang_starves :
  let s0 := snd (create_gang sched_idle 9 0x401000 0 [] None) in
  let s1 := with_gt s0 (set_gang_at (gt s0) 1 ((fun g => set_running g 8) <$> gang_at (gt s0) 1)) in
  let ids := [1; 2; 3; 4; 5; 6; 7; 8] in
  let s2 := with_slab s1 (fold_left (fun v i => vcpu_update v i (fun c => set_state c Running)) ids (slab s1)) in
  let s3 := with_slab s2 (snd (vcpu_alloc (slab s2) 0 0x5000 1 HardwareDriver)) in
  let s4 := snd (register_driver_vcpu s3 9) in
  let s5 := with_slab s4 (vcpu_update (slab s4) 9 (fun v =>
    set_magic (set_frame (set_state v Ready) driver_frame) FRAME_MAGIC)) in
  let d := schedule_inner s5 0 idle_frame 0 [] [] in
  (vcpu_total <$> gang_at (gt s0) 1) = Some 9 /\ fst (create_gang sched_idle 9 0x401000 0 [] None) = Some 1 /\
  (vcpu_ids <$> gang_at (gt s0) 1) = Some (Some <$> ids) /\
  best_gang (gt s5) = Some 1%nat /\ d_switched d = false /\
  (state <$> vcpu_get (slab s5) 9) = Some Ready.
Proof. vm_compute. split_and!; reflexivity. Qed.

(** ** Work stealing *)

Lemma slot_set_ne p i j x : i <> j -> slot (set_slot p i x) j = slot p j.
Proof. intros Hne. unfold slot, set_slot. simpl. by rewrite list_lookup_insert_ne. Qed.

(** The view of one CPU that stealing changes. *)
Definition view (p : Percpu) (c : nat) : QueueInner * Z := (rq p c, task_count p c).

Lemma rq_push_view p c d vid :
  (c < MAX_CPUS)%nat -> (d < MAX_CPUS)%nat -> length (PERCPU p) = MAX_CPUS ->
  view (snd (rq_push p c vid)) d =
  if decide (d = c) then (snd (queue_push (rq p c) vid), task_count p c) else view p d.
Proof.
  intros Hc Hd Hl. unfold view, rq_push, rq, task_count, set_rq, rq. rewrite !slot_of_small by done.
  destruct (queue_push _ _) as [ok q]. cbn [snd]. case_decide as E; subst; [|by rewrite !slot_set_ne].
  rewrite !slot_set_eq by by rewrite Hl. done.
Qed.

Lemma rq_pop_view p c d :
  (c < MAX_CPUS)%nat -> (d < MAX_CPUS)%nat -> length (PERCPU p) = MAX_CPUS ->
  view (snd (rq_pop p c)) d = if decide (d = c) then (snd (queue_pop (rq p c)), task_count p c) else view p d.
Proof.
  intros Hc Hd Hl. unfold view, rq_pop, rq, task_count, set_rq, rq. rewrite !slot_of_small by done.
  destruct (queue_pop _) as [r q]. cbn [snd]. case_decide as E; subst; [|by rewrite !slot_set_ne].
  rewrite !slot_set_eq by by rewrite Hl. done.
Qed.

Lemma add_count_view p c d n :
  (c < MAX_CPUS)%nat -> (d < MAX_CPUS)%nat -> length (PERCPU p) = MAX_CPUS ->
  view (add_task_count p c n) d =
  if decide (d = c) then (rq p c, wrap 64 (task_count p c + n)) else view p d.
Proof.
  intros Hc Hd Hl. unfold view, add_task_count, rq, task_count. rewrite !slot_of_small by done.
  replace (task_count_ (slot p c) - - n) with (task_count_ (slot p c) + n) by lia.
  destruct (_ >=? _); (case_decide as E; subst; [|by rewrite !slot_set_ne]);
    (rewrite !slot_set_eq by (by rewrite Hl)); done.
Qed.

Lemma length_add_count p c n : length (PERCPU (add_task_count p c n)) = length (PERCPU p).
Proof. unfold add_task_count. case_match; apply length_set_slot. Qed.

Lemma length_rq_pop p c : length (PERCPU (snd (rq_pop p c))) = length (PERCPU p).
Proof. unfold rq_pop. destruct (queue_pop _). apply length_set_slot. Qed.

(** The victim: most tasks, at least two, never the thief. *)
Lemma fattest_spec p hungry c :
  fst (fold_left (fat_step p hungry) (seq 0 MAX_CPUS) (None, 0)) = Some c ->
  (c < MAX_CPUS)%nat /\ c <> hungry /\ 2 <= task_count p c /\
  forall d, (d < MAX_CPUS)%nat -> d <> hungry -> task_count p d <= task_count p c.
Proof.
  assert (forall l acc, let r := fold_left (fat_step p hungry) l acc in
    (r = acc \/ exists c, fst r = Some c /\ snd r = task_count p c /\ c ∈ l /\ c <> hungry /\ 2 <= task_count p c) /\
    snd acc <= snd r /\
    (forall d, d ∈ l -> d <> hungry -> task_count p d <= Z.max (snd r) 1)) as Hfold.
  { induction l as [|x l IH]; intros acc; cbn [fold_left].
    { split; [by left|]. split; [lia|]. by intros d ?%elem_of_nil. }
    destruct (IH (fat_step p hungry acc x)) as (Hw & Hle & Hmax). unfold fat_step in *.
    destruct (Nat.eqb_spec x hungry) as [->|Hne].
    - split; [|split; [done|]].
      + destruct Hw as [?|(y & H1 & H2 & H3 & H4)]; [by left|right; exists y; split_and!; try done; set_solver].
      + intros d [->|Hd]%elem_of_cons Hdn; [done|auto].
    - destruct (Z.gtb_spec (task_count p x) (snd acc)), (Z.geb_spec (task_count p x) 2); cbn [andb fst snd] in *;
        (split; [|split; [lia|intros d [->|Hd]%elem_of_cons Hdn; [lia|auto]]]).
      1: right; destruct Hw as [->|(y & H1 & H2 & H3 & H4)];
           [exists x; split_and!; (done || set_solver)|exists y; split_and!; try done; set_solver].
      all: destruct Hw as [?|(y & H1 & H2 & H3 & H4)]; [by left|right; exists y; split_and!; try done; set_solver]. }
  intros Hc. destruct (Hfold (seq 0 MAX_CPUS) (None, 0)) as ([Hr|(y & H1 & H2 & H3 & H4 & H5)] & _ & Hmax).
  { rewrite Hr in Hc. done. }
  rewrite H1 in Hc. injection Hc as ->. apply elem_of_seq in H3. split_and!; [lia|done|done|].
  intros d Hd Hdn. specialize (Hmax d). rewrite elem_of_seq in Hmax. specialize (Hmax ltac:(lia) Hdn). lia.
Qed.

Section steal.
Context {M : Type} `{!KernelMem M}.

(** Work stealing takes the oldest vCPU of the busiest other CPU (one with at least two tasks) and appends
    it to the thief's queue, when that queue has room: both task counts follow, no other CPU changes,
    so no vCPU is lost or duplicated. *)
Theorem steal_task_moves (s s' : Sched M) hungry (L : nat -> list Z) :
  length (PERCPU (pc s)) = MAX_CPUS -> (hungry < MAX_CPUS)%nat ->
  (forall c, (c < MAX_CPUS)%nat -> queue_rep (rq (pc s) c) (L c)) -> (length (L hungry) < 256)%nat ->
  steal_task s true true hungry = (true, s') ->
  exists src x l, (src < MAX_CPUS)%nat /\ src <> hungry /\ L src = x :: l /\
    2 <= task_count (pc s) src /\
    (forall d, (d < MAX_CPUS)%nat -> d <> hungry -> task_count (pc s) d <= task_count (pc s) src) /\
    queue_rep (rq (pc s') src) l /\ queue_rep (rq (pc s') hungry) (L hungry ++ [wrap 32 x]) /\
    task_count (pc s') src = wrap 64 (task_count (pc s) src - 1) /\
    task_count (pc s') hungry = wrap 64 (task_count (pc s) hungry + 1) /\
    (forall d, (d < MAX_CPUS)%nat -> d <> src -> d <> hungry -> view (pc s') d = view (pc s) d).
Proof.
  intros Hlen Hh HL Hroom. unfold steal_task. cbn [negb].
  destruct (fst (fold_left _ _ _)) as [src|] eqn:Ef; [|done].
  apply fattest_spec in Ef as (Hsrc & Hne & H2 & Hmax).
  pose proof (queue_pop_rep _ _ (HL src Hsrc)) as Hpop.
  pose proof (fun d => rq_pop_view (pc s) src d Hsrc) as Hv1. pose proof (length_rq_pop (pc s) src) as Hl1.
  destruct (rq_pop (pc s) src) as [r p1] eqn:Ep. cbn [snd] in Hv1, Hl1.
  assert (r = fst (queue_pop (rq (pc s) src))) as -> by
    (unfold rq_pop in Ep; destruct (queue_pop (rq (pc s) src)); by injection Ep as <- _).
  destruct (L src) as [|x l] eqn:EL; [by rewrite Hpop|]. destruct Hpop as (Hr & Hq1 & _). rewrite Hr.
  intros [= <-]. cbn [pc with_pc].
  set (p2 := snd (rq_push p1 hungry (wrap 32 x))). set (p3 := add_task_count p2 src (-1)).
  assert (length (PERCPU p2) = MAX_CPUS) as Hl2 by (unfold p2; rewrite length_rq_push; congruence).
  assert (length (PERCPU p3) = MAX_CPUS) as Hl3 by (unfold p3; by rewrite length_add_count).
  assert (forall d, (d < MAX_CPUS)%nat -> view (add_task_count p3 hungry 1) d =
    if decide (d = hungry) then (snd (queue_push (rq (pc s) hungry) (wrap 32 x)), wrap 64 (task_count (pc s) hungry + 1))
    else if decide (d = src) then (snd (queue_pop (rq (pc s) src)), wrap 64 (task_count (pc s) src - 1))
    else view (pc s) d) as Hview.
  { assert (forall d, (d < MAX_CPUS)%nat -> view p2 d =
      if decide (d = hungry) then (snd (queue_push (rq p1 hungry) (wrap 32 x)), task_count p1 hungry) else view p1 d) as Hv2.
    { intros d Hd. apply rq_push_view; [done|done|congruence]. }
    intros d Hd. rewrite add_count_view by done.
    assert (forall c, (c < MAX_CPUS)%nat -> view p3 c =
      if decide (c = src) then (rq p2 src, wrap 64 (task_count p2 src + -1)) else view p2 c) as Hv3
      by (intros c Hc; by apply add_count_view).
    pose proof (Hv3 hungry Hh) as Eh. rewrite decide_False, Hv2, decide_True in Eh by done.
    pose proof (Hv2 src Hsrc) as Es. rewrite decide_False, Hv1, decide_True in Es by done.
    pose proof (Hv1 hungry Hh Hlen) as Eh1. rewrite decide_False in Eh1 by done.
    unfold view in Eh, Es, Eh1. injection Eh as Eh_q Eh_c. injection Es as Es_q Es_c. injection Eh1 as Eh1_q Eh1_c.
    case_decide as E1; [subst d; rewrite Eh_q, Eh_c, Eh1_q, Eh1_c; done|]. rewrite Hv3 by done.
    case_decide as E2; [subst d; rewrite Es_q, Es_c; done|].
    rewrite Hv2, decide_False, Hv1, decide_False by done. done. }
  exists src, x, l. split; [done|]. split; [done|]. split; [done|]. split; [done|]. split; [done|].
  pose proof (Hview src Hsrc) as Es. rewrite decide_False, decide_True in Es by done.
  pose proof (Hview hungry Hh) as Eh. rewrite decide_True in Eh by done.
  unfold view in Es, Eh. injection Es as Es_q Es_c. injection Eh as Eh_q Eh_c.
  rewrite Es_q, Es_c, Eh_q, Eh_c. split_and!; try done.
  - pose proof (queue_push_rep _ _ (wrap 32 x) (HL hungry Hh)) as Hp.
    destruct (queue_push _ _) as [ok q]. rewrite (proj2 (Nat.ltb_lt _ _)) in Hp by done. by destruct Hp as (_ & ? & _).
  - intros d Hd Hds Hdh. rewrite Hview, !decide_False by done. done.
Qed.
End steal.

Definition steal_demo : Sched FlatMem :=
  let p1 := snd (rq_push (pc sched_idle) 0 5) in
  let p2 := snd (rq_push p1 0 6) in
  with_pc sched_idle (set_task_count p2 0 2).

Lemma steal_demo_queues c :
  (c < MAX_CPUS)%nat -> queue_rep (rq (pc steal_demo) c) (if (c =? 0)%nat then [5; 6] else []).
Proof.
  intros Hc. assert (queue_rep (mkQueue (replicate 256 0) 0 0 0) []) as H0 by (apply empty_rep; [lia|reflexivity]).
  unfold MAX_CPUS in Hc. destruct c as [|c].
  - pose proof (queue_push_rep _ _ 5 H0) as H1. destruct (queue_push _ 5) as [ok1 q1] eqn:E1.
    destruct H1 as (_ & H1 & _). pose proof (queue_push_rep _ _ 6 H1) as H2.
    destruct (queue_push q1 6) as [ok2 q2] eqn:E2. destruct H2 as (_ & H2 & _).
    assert (rq (pc steal_demo) 0 = q2) as ->; [|exact H2].
    vm_compute in E1. injection E1 as _ <-. vm_compute in E2. injection E2 as _ <-. vm_compute. reflexivity.
  - assert (c = 0 \/ c = 1 \/ c = 2)%nat as [-> | [-> | ->]] by lia;
      match goal with |- queue_rep ?q _ => replace q with (mkQueue (replicate 256 0) 0 0 0) by (vm_compute; reflexivity) end;
      exact H0.
Qed.

Lemma steal_task_moves_witness :
  exists src x l, src <> 1%nat /\ (fun c => if (c =? 0)%nat then [5; 6] else []) src = x :: l /\
    queue_rep (rq (pc (snd (steal_task steal_demo true true 1))) src) l.
Proof.
  destruct (steal_task_moves steal_demo (snd (steal_task steal_demo true true 1)) 1
    (fun c => if (c =? 0)%nat then [5; 6] else [])) as (src & x & l & _ & H1 & H2 & _ & _ & H3 & _).
  - vm_compute. reflexivity.
  - unfold MAX_CPUS. lia.
  - apply steal_demo_queues.
  - simpl. lia.
  - vm_compute. reflexivity.
  - exists src, x, l. split; [exact H1|]. split; [exact H2|exact H3].
Defined.
