(* ===== verification/Gdf.v ===== *)
(** The driver framework (src/kernel/src/gdf.rs): the driver table with one
    mailbox per driver, commands and responses, service start and stop, crash
    recovery with deferred restarts, and parsing of the driver package
    (src/system/src/lib.rs).

    [Gdf] adds the framework's tables to the scheduler state.  Page-table
    forking, the ELF loader and process memory are the interface
    [ServiceLoader]. *)
From stdpp Require Import base tactics numbers list sets.
From Stdlib Require Import ZArith Lia.
From S2P Require Import Prelude Phys KMem Slab Percpu Vcpu Service Scheduler.

Local Open Scope Z_scope.
Local Open Scope word_scope.

Inductive DriverClass := Hardware | Abstraction.

Definition MAX_DRIVERS : nat := 16.
Definition SERVICE_STACK_SIZE : Z := 16384.
Definition MAX_CRASH_COUNT : Z := 5.
Definition MAX_DEFERRED_RESTARTS : nat := 8.
Definition MAILBOX_IDLE : Z := 0.
Definition MAILBOX_PENDING : Z := 1.
Definition MAILBOX_RESPONSE : Z := 2.
Definition WRITABLE : Z := 2.

Record CrashCounter := mkCounter { cc_name : list Z; cc_count : Z }.

Record DeferredRestart := mkRestart { dr_name : list Z; dr_elf : list Z; dr_class : DriverClass }.

Record DriverPkgMeta := mkMeta { pm_name : list Z; pm_elf : list Z; pm_class : DriverClass }.

Record Mailbox := mkMailbox { cmd : Z; flags : Z; arg0 : Z; arg1 : Z; arg2 : Z; result : Z }.
Definition Mailbox_empty : Mailbox := mkMailbox 0 0 0 0 0 0.

Record DriverEntry := mkDriver {
  dname : list Z;
  dvcpu : Z;
  mailbox : Mailbox;
  dstate : Z;
  dtype : VcpuType;
  caller_vcpu : Z;
  blocked_buf_ptr : Z;
  dpml4 : Z;
}.

Definition set_mailbox (d : DriverEntry) (m : Mailbox) : DriverEntry :=
  mkDriver (dname d) (dvcpu d) m (dstate d) (dtype d) (caller_vcpu d) (blocked_buf_ptr d) (dpml4 d).
Definition set_caller (d : DriverEntry) (c : Z) : DriverEntry :=
  mkDriver (dname d) (dvcpu d) (mailbox d) (dstate d) (dtype d) c (blocked_buf_ptr d) (dpml4 d).
Definition set_buf (d : DriverEntry) (p : Z) : DriverEntry :=
  mkDriver (dname d) (dvcpu d) (mailbox d) (dstate d) (dtype d) (caller_vcpu d) p (dpml4 d).
Definition set_flags (m : Mailbox) (f : Z) : Mailbox :=
  mkMailbox (cmd m) f (arg0 m) (arg1 m) (arg2 m) (result m).

Record DriverTable := mkDrivers { dentries : list (option DriverEntry); dcount : Z }.
Definition driver_table_boot : DriverTable := mkDrivers (replicate MAX_DRIVERS None) 0.

(** The first entry that satisfies a test, with its index. *)
Definition driver_where (f : DriverEntry -> bool) (t : DriverTable) : option (nat * DriverEntry) :=
  match first_index (fun o => if o is Some d then f d else false) (dentries t) with
  | Some i => match dentries t !! i with Some (Some d) => Some (i, d) | _ => None end
  | None => None
  end.

Definition set_driver (t : DriverTable) (i : nat) (d : option DriverEntry) : DriverTable :=
  mkDrivers (<[i := d]> (dentries t)) (dcount t).

(** [name[..len] == d.name[..len] && (len == 31 || d.name[len] == 0)]. *)
Definition driver_named (nm : list Z) (d : DriverEntry) : bool :=
  let len := Nat.min (length nm) 31 in
  bool_decide (take len (dname d) = take len nm)
  && ((len =? 31)%nat || (default 0 (dname d !! len) =? 0)).

(** ** Crash counters and deferred restarts *)

Definition bump_crash_count (t : list (option CrashCounter)) (nm : list Z) : Z * list (option CrashCounter) :=
  match first_index (fun o => if o is Some c then bool_decide (cc_name c = nm) else false) t with
  | Some i =>
    match t !! i with
    | Some (Some c) =>
      let n := wrap 32 (cc_count c + 1) in (n, <[i := Some (mkCounter nm n)]> t)
    | _ => (1, t)
    end
  | None =>
    match first_free t with
    | Some i => (1, <[i := Some (mkCounter nm 1)]> t)
    | None => (1, t)
    end
  end.

Definition push_deferred_restart (q : list (option DeferredRestart)) (r : DeferredRestart)
    : list (option DeferredRestart) :=
  match first_free q with
  | Some i => <[i := Some r]> q
  | None => q
  end.

(** [q.iter_mut().find_map(|s| s.take())] *)
Definition take_deferred (q : list (option DeferredRestart)) : option DeferredRestart * list (option DeferredRestart) :=
  match first_index (fun o => if o is Some _ then true else false) q with
  | Some i => (default None (q !! i), <[i := None]> q)
  | None => (None, q)
  end.

(** ** The driver table alone *)

Definition padded (nm : list Z) : list Z :=
  let len := Nat.min (length nm) 31 in take len nm ++ replicate (32 - len) 0.

Definition register_driver (t : DriverTable) (v : VcpuSlab) (nm : list Z) (vid : Z) (ty : VcpuType)
    : bool * DriverTable :=
  if dcount t >=? Z.of_nat MAX_DRIVERS then (false, t)
  else
    let entry := padded nm in
    match driver_where (fun d => bool_decide (dname d = entry)) t with
    | Some _ => (false, t)
    | None =>
      match vcpu_get v vid with
      | None => (false, t)
      | Some c =>
        match first_free (dentries t) with
        | Some i =>
          (true, mkDrivers (<[i := Some (mkDriver entry vid Mailbox_empty 1 ty 0 0 (pml4 c))]> (dentries t))
                   (dcount t +u64 1))
        | None => (false, t)
        end
      end
    end.

Definition pkg_name (p : list (option DriverPkgMeta)) (i : nat) : option (list Z) :=
  match p !! i with Some (Some e) => Some (pm_name e) | _ => None end.
Definition pkg_class (p : list (option DriverPkgMeta)) (i : nat) : option DriverClass :=
  match p !! i with Some (Some e) => Some (pm_class e) | _ => None end.

Definition gdf_find_by_name (t : DriverTable) (nm : list Z) : option nat :=
  fst <$> driver_where (driver_named nm) t.
Definition gdf_find_by_vcpu (t : DriverTable) (vid : Z) : option nat :=
  fst <$> driver_where (fun d => dvcpu d =? vid) t.

Definition poll_result (t : DriverTable) (nm : list Z) : option Z :=
  match driver_where (driver_named nm) t with
  | Some (_, d) => if flags (mailbox d) =? MAILBOX_IDLE then Some (result (mailbox d)) else None
  | None => None
  end.

Definition gdf_recv (t : DriverTable) (vid : Z) : option (Z * Z * Z * Z) * DriverTable :=
  match driver_where (fun d => (dvcpu d =? vid) && (flags (mailbox d) =? MAILBOX_PENDING)) t with
  | Some (i, d) =>
    let mb := mailbox d in
    (Some (cmd mb, arg0 mb, arg1 mb, arg2 mb),
     set_driver t i (Some (set_mailbox d (set_flags mb MAILBOX_RESPONSE))))
  | None => (None, t)
  end.

Definition set_blocked_buf (t : DriverTable) (vid buf : Z) : DriverTable :=
  match driver_where (fun d => dvcpu d =? vid) t with
  | Some (i, d) => set_driver t i (Some (set_buf d buf))
  | None => t
  end.

(** ** Package manifest *)

Definition DRIVER_PKG_MAGIC : list Z := [76; 79; 68; 65; 88; 80; 75; 71].
Definition SIZEOF_PKG_HEADER : Z := 12.
Definition SIZEOF_PKG_ENTRY : Z := 44.

(** Little-endian [u32] at a byte offset. *)
Definition read_u32 (b : list Z) (off : Z) : Z :=
  let byte i := default 0 (b !! Z.to_nat (off + i)) in
  byte 0 + 256 * byte 1 + 65536 * byte 2 + 16777216 * byte 3.

Definition read_bytes (b : list Z) (off n : Z) : list Z := take (Z.to_nat n) (drop (Z.to_nat off) b).

Record DriverPkgEntry := mkPkgEntry { pe_name : list Z; pe_class : Z; pe_offset : Z; pe_size : Z }.

Definition pkg_entry (b : list Z) (i : nat) : DriverPkgEntry :=
  let off := SIZEOF_PKG_HEADER + Z.of_nat i * SIZEOF_PKG_ENTRY in
  mkPkgEntry (read_bytes b off 32) (read_u32 b (off + 32)) (read_u32 b (off + 36)) (read_u32 b (off + 40)).

(** The manifest checks: [None] when the package is rejected as a whole. *)
Definition pkg_entries (b : list Z) : option (list DriverPkgEntry) :=
  let len := Z.of_nat (length b) in
  if len <? SIZEOF_PKG_HEADER then None
  else if negb (bool_decide (take 8 b = DRIVER_PKG_MAGIC)) then None
  else
    let count := read_u32 b 8 in
    let manifest_end := SIZEOF_PKG_HEADER + count * SIZEOF_PKG_ENTRY in
    if manifest_end >? len then None else Some (pkg_entry b <$> seq 0 (Z.to_nat count)).

(** One entry: its ELF bytes and class, [None] when it is skipped. *)
Definition entry_elf (b : list Z) (e : DriverPkgEntry) : option (list Z * DriverClass) :=
  let elf_end := pe_offset e + pe_size e in
  if elf_end >? Z.of_nat (length b) then None
  else
    let elf := read_bytes b (pe_offset e) (pe_size e) in
    if pe_class e =? 0 then Some (elf, Hardware)
    else if pe_class e =? 1 then Some (elf, Abstraction)
    else None.

(** The name up to the first NUL, at most 31 bytes. *)
Definition c_name (max : nat) (nm : list Z) : list Z :=
  let len := Nat.min (default 32%nat (first_index (fun c => c =? 0) nm)) max in
  take len nm ++ replicate (32 - len) 0.

(** ** Services *)

Class ServiceLoader (M : Type) := {
  fork_pml4 : M -> Z -> option Z * M;
  new_process_mem : M -> Z -> Z * M;
  load_elf : M -> list Z -> Z -> Z -> Z -> option (Z * Z) * M;  (* binary, stack size, pml4, process memory -> entry, stack top *)
  copy_elf : M -> list Z -> option (list Z) * M;                (* heap copy; None when out of memory *)
}.

Record Gdf (M : Type) := mkGdf {
  sys : Sched M;
  services : ServiceTable;
  drivers : DriverTable;
  counters : list (option CrashCounter);
  deferred : list (option DeferredRestart);
  pkg_meta : list (option DriverPkgMeta);
}.
Arguments mkGdf {M}.
Arguments sys {M}.
Arguments services {M}.
Arguments drivers {M}.
Arguments counters {M}.
Arguments deferred {M}.
Arguments pkg_meta {M}.

Definition with_sys {M} (g : Gdf M) (s : Sched M) : Gdf M :=
  mkGdf s (services g) (drivers g) (counters g) (deferred g) (pkg_meta g).
Definition with_services {M} (g : Gdf M) (t : ServiceTable) : Gdf M :=
  mkGdf (sys g) t (drivers g) (counters g) (deferred g) (pkg_meta g).
Definition with_drivers {M} (g : Gdf M) (t : DriverTable) : Gdf M :=
  mkGdf (sys g) (services g) t (counters g) (deferred g) (pkg_meta g).
Definition with_counters {M} (g : Gdf M) (c : list (option CrashCounter)) : Gdf M :=
  mkGdf (sys g) (services g) (drivers g) c (deferred g) (pkg_meta g).
Definition with_deferred {M} (g : Gdf M) (q : list (option DeferredRestart)) : Gdf M :=
  mkGdf (sys g) (services g) (drivers g) (counters g) q (pkg_meta g).
Definition with_meta {M} (g : Gdf M) (p : list (option DriverPkgMeta)) : Gdf M :=
  mkGdf (sys g) (services g) (drivers g) (counters g) (deferred g) p.

Section gdf.
Context {M : Type} `{!KernelMem M}.
Implicit Types (g : Gdf M).

(** [send_cmd]: every page of the 32-byte message must be present and
    writable in the driver's tables; the message covers at most two pages. *)
Fixpoint buf_writable (fuel : nat) (m : M) (p page buf_end : Z) : bool :=
  match fuel with
  | O => true
  | S fuel =>
    if page <? buf_end then
      match read_pte m p page with
      | Some pte =>
        if negb (pte_present pte) || (Z.land pte WRITABLE =? 0) then false
        else buf_writable fuel m p (page +u64 0x1000) buf_end
      | None => false
      end
    else true
  end.

Definition pending_mailbox (mb : Mailbox) (c a0 a1 a2 : Z) : Mailbox :=
  mkMailbox c MAILBOX_PENDING a0 a1 a2 U64_MAX.

(** The four words of a message, written at the receive buffer. *)
Definition write_message (m : M) (ptr c a0 a1 a2 : Z) : M :=
  write_u64 (write_u64 (write_u64 (write_u64 m ptr c) (ptr +u64 8) a0) (ptr +u64 16) a1) (ptr +u64 24) a2.

Definition send_cmd g (nm : list Z) (c a0 a1 a2 : Z) : bool * Gdf M :=
  match driver_where (driver_named nm) (drivers g) with
  | None => (false, g)
  | Some (i, d) =>
    if negb (flags (mailbox d) =? MAILBOX_IDLE) then (false, g)
    else
      let d1 := set_mailbox d (pending_mailbox (mailbox d) c a0 a1 a2) in
      let ptr := blocked_buf_ptr d1 in
      let commit_driver d' := with_drivers g (set_driver (drivers g) i (Some d')) in
      if ptr =? 0 then
        let g1 := commit_driver d1 in (true, with_sys g1 (wake (sys g1) (dvcpu d1)))
      else if ptr >=? HIGHER_HALF then (false, commit_driver (set_buf d1 0))
      else if negb (buf_writable 2 (mm (sys g)) (dpml4 d1) (Z.land ptr (not64 0xFFF)) (ptr +u64 32))
      then (false, commit_driver (set_buf d1 0))
      else
        let g1 := commit_driver (set_buf d1 0) in
        let s1 := with_mm (sys g1) (write_message (mm (sys g1)) ptr c a0 a1 a2) in
        (true, with_sys g1 (wake s1 (dvcpu d1)))
  end.

Definition set_rax (f : TrapFrame) (v : Z) : TrapFrame :=
  mkFrame (r15 f) (r14 f) (r13 f) (r12 f) (r11 f) (r10 f) (r9 f) (r8 f) v (rbx f) (rcx f) (rdx f)
    (rbp f) (rsi f) (rdi f) (vector f) (error_code f) (rip f) (cs f) (rflags f) (rsp f) (ss f).

Definition send_response g (vid r : Z) : bool * Gdf M :=
  match driver_where (fun d => dvcpu d =? vid) (drivers g) with
  | None => (false, g)
  | Some (i, d) =>
    let mb := mailbox d in
    let caller := caller_vcpu d in
    let d1 := set_caller (set_mailbox d (mkMailbox (cmd mb) MAILBOX_IDLE (arg0 mb) (arg1 mb) (arg2 mb) r)) 0 in
    let g1 := with_drivers g (set_driver (drivers g) i (Some d1)) in
    if caller =? 0 then (true, g1)
    else
      let s1 := with_slab (sys g1) (vcpu_update (slab (sys g1)) caller
        (fun v => set_frame v (set_rax (saved_frame v) r))) in
      (true, with_sys g1 (wake s1 caller))
  end.

(** [driver_call] up to blocking the caller: [None] when refused, otherwise
    the state in which [block_current] runs. *)
Definition driver_call g (cpu : nat) (target : list Z) (c a0 a1 a2 : Z) : option (Gdf M) :=
  if (length target =? 0)%nat then None
  else
    let nm := padded target in
    let caller := current_vcpu_id (sys g) cpu in
    match driver_where (fun d => bool_decide (dname d = nm) && negb (dvcpu d =? caller)) (drivers g) with
    | None => None
    | Some (i, d) =>
      let mb := mailbox d in
      if negb (flags mb =? MAILBOX_IDLE) then None
      else
        let d1 := set_caller (set_mailbox d (mkMailbox c MAILBOX_PENDING a0 a1 a2 (result mb))) caller in
        let g1 := with_drivers g (set_driver (drivers g) i (Some d1)) in
        Some (with_sys g1 (wake (sys g1) (dvcpu d1)))
    end.

(** ** Resource tracking of the calling driver *)

Definition track_with g (vid : Z) (f : Service -> bool * Service) : bool * Gdf M :=
  match find_by_vcpu (services g) vid with
  | None => (false, g)
  | Some i =>
    match service_get (services g) i with
    | Some s =>
      let '(ok, s1) := f s in (ok, with_services g (service_update (services g) i (fun _ => s1)))
    | None => (false, g)
    end
  end.

Definition track_service_mmio g (vid phys virt pages : Z) : bool * Gdf M :=
  track_with g vid (fun s => track_mmio s phys virt pages).
Definition track_service_irq g (vid vector : Z) : bool * Gdf M := track_with g vid (fun s => track_irq s vector).
Definition track_service_dma g (vid phys pages : Z) : bool * Gdf M :=
  track_with g vid (fun s => track_dma s phys pages).

Definition untrack_service_dma g (vid phys : Z) : option Z * Gdf M :=
  match find_by_vcpu (services g) vid with
  | None => (None, g)
  | Some i =>
    match service_get (services g) i with
    | Some s =>
      let r := resources s in
      match first_index (fun e => fst e =? phys) (take (dma_count r) (dma r)) with
      | Some k =>
        (Some (snd (default (0, 0) (dma r !! k))),
         with_services g (service_update (services g) i (fun s => snd (untrack_dma s phys))))
      | None => (None, g)
      end
    | None => (None, g)
    end
  end.

(** ** Stop, crash, restart *)

Definition unmap_range (m : M) (virt pages : Z) : M :=
  fold_left (fun m p => unmap m (virt +u64 (p *u64 0x1000))) (seqZ 0 pages) m.

Definition cleanup_resources g (sid : Z) : Gdf M :=
  match service_get (services g) sid with
  | None => g
  | Some s =>
    let r := resources s in
    let mm0 := mm (sys g) in
    let m1 :=
      if spml4 s =? 0 then mm0
      else fold_left (fun m '(_, virt, pages) =>
             if negb (virt =? 0) && (pages >? 0) then unmap_range m virt pages else m)
             (take (mmio_count r) (mmio r)) mm0 in
    let m2 := fold_left (fun m '(phys, pages) =>
             if negb (phys =? 0) && (pages >? 0) then pages_free m phys pages else m)
             (take (dma_count r) (dma r)) m1 in
    with_sys (with_services g (service_update (services g) sid clear_resources)) (with_mm (sys g) m2)
  end.

Definition stop_service g (sid : Z) : Gdf M :=
  cleanup_resources (with_services g (service_update (services g) sid (fun s => set_sstate s Stopped))) sid.

(** Removing a vCPU from every gang, dropping gangs that become empty. *)
Definition drop_member (vid : Z) (o : option Gang) : option Gang :=
  match o with
  | Some ga =>
    let ids := (fun i => if bool_decide (i = Some vid) then None else i) <$> vcpu_ids ga in
    let removed := Z.of_nat (length (filter (fun i => i = Some vid) (vcpu_ids ga))) in
    if forallb (fun i => if i is Some _ then false else true) ids then None
    else Some (set_members ga ids (saturating_sub (vcpu_total ga) removed))
  | None => None
  end.

Definition should_restart (p : RestartPolicy) (n : Z) : bool :=
  match p with
  | Always => true
  | OnFailure k => n <=? k
  | Never => false
  end.

Definition find_meta (p : list (option DriverPkgMeta)) (nm : list Z) : option DriverPkgMeta :=
  match first_index (fun o => if o is Some e then bool_decide (pm_name e = nm) else false) p with
  | Some i => default None (p !! i)
  | None => None
  end.

Definition mark_stopped g (sid : Z) : Gdf M :=
  with_services g (service_update (services g) sid (fun s => set_sstate s Stopped)).

(** The driver-table and vCPU part of crash handling. *)
Definition retire_vcpu g (sid vid : Z) : Gdf M :=
  let g1 :=
    match driver_where (fun d => dvcpu d =? vid) (drivers g) with
    | Some (i, _) =>
      with_drivers g (mkDrivers (<[i := None]> (dentries (drivers g))) (saturating_sub (dcount (drivers g)) 1))
    | None => g
    end in
  let old_pml4 := match service_get (services g1) sid with Some s => spml4 s | None => 0 end in
  let g2 := with_services g1 (service_update (services g1) sid (fun s => set_spml4 s 0)) in
  let s2 := with_slab (sys g2) (vcpu_update (slab (sys g2)) vid
    (fun v => set_pml4 (set_state v Terminated) old_pml4)) in
  let t := gt s2 in
  with_sys g2 (with_gt s2 (mkGangs (drop_member vid <$> gangs t) (gcount t) (ginit t))).

Definition handle_crash g (vid : Z) : Gdf M :=
  match find_by_vcpu (services g) vid with
  | None => g
  | Some sid =>
    let g1 := with_services g (service_update (services g) sid
      (fun s => set_restart_count (set_sstate s Crashed) (wrap 32 (restart_count s + 1)))) in
    let '(policy, rcount, nm) :=
      match service_get (services g1) sid with
      | Some s => (restart_policy s, restart_count s, c_name 32 (name s))
      | None => (Never, 0, replicate 32 0)
      end in
    let g2 := retire_vcpu (cleanup_resources g1 sid) sid vid in
    let '(crashes, ct) := bump_crash_count (counters g2) nm in
    let g3 := with_counters g2 ct in
    if crashes >? MAX_CRASH_COUNT then mark_stopped g3 sid
    else if should_restart policy rcount then
      match find_meta (pkg_meta g3) nm with
      | Some e =>
        let t1 := service_update (services g3) sid (fun s => clear_resources (set_sstate s Restarting)) in
        let g4 := with_services g3 (service_free t1 sid) in
        with_deferred g4 (push_deferred_restart (deferred g4) (mkRestart nm (pm_elf e) (pm_class e)))
      | None => mark_stopped g3 sid
      end
    else mark_stopped g3 sid
  end.

(** ** Exception return *)

Definition switch_frame_to_idle g (cpu : nat) (frame : TrapFrame) : TrapFrame * Gdf M :=
  let idle := idle_vcpu (pc (sys g)) cpu in
  let f := match vcpu_get (slab (sys g)) idle with Some v => saved_frame v | None => frame end in
  (f, with_sys g (with_pc (sys g) (set_current_vcpu (pc (sys g)) cpu idle))).

Definition driver_frame_ok (f : TrapFrame) : bool :=
  let ring := Z.land (cs f) 3 in
  let cs_valid := (cs f =? 0x08) || (cs f =? 0x1B) in
  let ss_valid :=
    if ring =? 0 then (ss f =? 0x10) || (ss f =? 0x18)
    else if ring =? 3 then (ss f =? 0x23) || (ss f =? 0x2B) else false in
  let rip_ok := (rip f =? 0) || rip_canonical (rip f) in
  negb ((rsp f =? 0) || negb cs_valid || negb ss_valid || negb rip_ok).

Definition is_driver (ty : VcpuType) : bool :=
  bool_decide (ty = HardwareDriver) || bool_decide (ty = AbstractionDriver).

Definition repush s (cpu : nat) (ids : list Z) : Sched M := push_all s cpu ids.

(** The queue scan: [temp] holds the popped non-drivers, at most 64 ids are
    looked at. *)
Fixpoint scan_drivers (fuel : nat) (s : Sched M) (cpu : nat) (temp : list Z)
    : option (Z * TrapFrame * Z * Z) * Sched M :=
  match fuel with
  | O => (None, repush s cpu temp)
  | S fuel =>
    match rq_pop (pc s) cpu with
    | (None, _) => (None, repush s cpu temp)
    | (Some next, p1) =>
      let s1 := with_pc s p1 in
      let vid := wrap 32 next in
      if is_driver (get_vcpu_type (slab s1) vid) then
        match vcpu_get (slab s1) vid with
        | Some v =>
          if bool_decide (state v = Ready) && driver_frame_ok (saved_frame v) then
            let s2 := with_slab s1 (vcpu_set (slab s1) vid (set_magic (set_state v Running) 0)) in
            let s3 := repush s2 cpu temp in
            (Some (vid, saved_frame v, pml4 v, Vcpu.kernel_stack_top v),
             with_pc s3 (set_current_vcpu (pc s3) cpu vid))
          else scan_drivers fuel (repush s1 cpu temp) cpu []
        | None => scan_drivers fuel (repush s1 cpu temp) cpu []
        end
      else if (length temp <? 64)%nat then scan_drivers fuel s1 cpu (temp ++ [next])
      else scan_drivers fuel (with_pc s1 (snd (rq_push (pc s1) cpu next))) cpu temp
    end
  end.

Definition switch_frame_to_next_driver g (cpu : nat) (frame : TrapFrame)
    : option (Z * Z) * TrapFrame * Gdf M :=
  match scan_drivers 64 (sys g) cpu [] with
  | (Some (_, f, p, k), s) => (Some (p, k), f, with_sys g s)
  | (None, s) => (None, frame, with_sys g s)
  end.

(** ** Starting services *)

Context `{!ServiceLoader M}.

Definition class_type (c : DriverClass) : VcpuType :=
  match c with Hardware => HardwareDriver | Abstraction => AbstractionDriver end.

(** The register state a driver starts with. *)
Definition start_frame (f : TrapFrame) (entry sp : Z) : TrapFrame :=
  mkFrame (r15 f) (r14 f) (r13 f) (r12 f) (r11 f) (r10 f) (r9 f) (r8 f) (rax f) (rbx f) (rcx f) 0
    (rbp f) 0 0 (vector f) (error_code f) entry 0x1B 0x202 (sp -u64 8) 0x23.

Definition start_service g (nm binary : list Z) (class : DriverClass) : option Z * Gdf M :=
  let set_mem g m := with_sys g (with_mm (sys g) m) in
  let m0 := mm (sys g) in
  match fork_pml4 m0 (kernel_pml4 m0) with
  | (None, m1) => (None, set_mem g m1)
  | (Some sp, m1) =>
    let '(pmem, m2) := new_process_mem m1 sp in
    match load_elf m2 binary SERVICE_STACK_SIZE sp pmem with
    | (None, m3) => (None, set_mem g (drop_process_mem (free_pml4 m3 sp) pmem))
    | (Some (entry, stack_top), m3) =>
      let g1 := set_mem g m3 in
      match service_alloc (services g1) nm sp with
      | (None, t) => (None, set_mem (with_services g1 t) (drop_process_mem (mm (sys g1)) pmem))
      | (Some sid, t) =>
        let g2 := with_services g1 t in
        match vcpu_alloc (slab (sys g2)) GANG_UNSCHEDULED sp U64_MAX (class_type class) with
        | (None, v) =>
          (None, set_mem (with_sys g2 (with_slab (sys g2) v)) (drop_process_mem (mm (sys g2)) pmem))
        | (Some vid, v) =>
          let v1 := vcpu_update v vid (fun c =>
            set_state (set_magic (set_frame (set_process_mem c pmem)
              (start_frame (saved_frame c) entry stack_top)) FRAME_MAGIC) Ready) in
          let g3 := with_sys g2 (with_slab (sys g2) v1) in
          let g4 := with_services g3 (service_update (services g3) sid
            (fun s => set_sstate (set_vcpu_id s vid) SRunning)) in
          let g5 := with_drivers g4 (snd (register_driver (drivers g4) (slab (sys g4)) nm vid (class_type class))) in
          let '(ok, s5) := register_driver_vcpu (sys g5) vid in
          let g6 := with_sys g5 s5 in
          if negb ok then (None, g6)
          else
            let best_cpu := find_least_loaded (pc s5) in
            let p1 := snd (rq_push (pc s5) best_cpu vid) in
            let p2 := set_task_count p1 best_cpu (task_count p1 best_cpu +u64 1) in
            (Some sid, with_sys g6 (with_pc s5 p2))
        end
      end
    end
  end.

(** At most [MAX_DEFERRED_RESTARTS] requests are queued, and starting a
    service queues none. *)
Fixpoint drain_deferred (fuel : nat) g : Gdf M :=
  match fuel with
  | O => g
  | S fuel =>
    match take_deferred (deferred g) with
    | (None, _) => g
    | (Some e, q) =>
      drain_deferred fuel (snd (start_service (with_deferred g q) (dr_name e) (dr_elf e) (dr_class e)))
    end
  end.

Definition process_deferred_restarts g : Gdf M := drain_deferred (S MAX_DEFERRED_RESTARTS) g.

(** One manifest entry of the package: start it and remember it for restarts. *)
Definition init_entry (b : list Z) g (ie : nat * DriverPkgEntry) : Gdf M :=
  let '(i, e) := ie in
  match entry_elf b e with
  | None => g
  | Some (src, class) =>
    match copy_elf (mm (sys g)) src with
    | (None, m) => with_sys g (with_mm (sys g) m)
    | (Some elf, m) =>
      let g1 := with_sys g (with_mm (sys g) m) in
      match start_service g1 (pe_name e) elf class with
      | (Some _, g2) =>
        if (i <? MAX_DRIVERS)%nat
        then with_meta g2 (<[i := Some (mkMeta (c_name 31 (pe_name e)) elf class)]> (pkg_meta g2))
        else g2
      | (None, g2) => g2
      end
    end
  end.

Definition init_from_package g (b : list Z) : Gdf M :=
  match pkg_entries b with
  | None => g
  | Some es => fold_left (init_entry b) (imap (fun i e => (i, e)) es) g
  end.
End gdf.
