(* ===== verification/GdfThms.v ===== *)
(** Properties of the driver framework model [Gdf]. *)
From stdpp Require Import base tactics numbers list sets.
From Stdlib Require Import ZArith Lia.
From S2P Require Import Prelude Phys KMem Slab Percpu Vcpu Service Scheduler SchedulerThms Gdf.

Local Open Scope Z_scope.

(** ** The package format

    [pkg_build] is the packaging tool (src/drivers/pkg.py): header, one
    44-byte entry per driver with the absolute offset of its ELF, padding to
    eight bytes, the ELF images. *)

Definition u32_le (n : Z) : list Z :=
  [n mod 256; n / 256 mod 256; n / 65536 mod 256; n / 16777216 mod 256].

(** A driver to package: name, class, ELF bytes. *)
Notation PkgDriver := (list Z * Z * list Z)%type.

Definition ljust (nm : list Z) : list Z := take 32 (nm ++ replicate 32 0).

Definition data_offset (count : Z) : Z :=
  let o := 12 + count * 44 in if o mod 8 =? 0 then o else o + (8 - o mod 8).

Definition entry_bytes (off : Z) (d : PkgDriver) : list Z :=
  let '(nm, cls, data) := d in ljust nm ++ u32_le cls ++ u32_le off ++ u32_le (Z.of_nat (length data)).

Fixpoint build_entries (off : Z) (ds : list PkgDriver) : list Z :=
  match ds with
  | [] => []
  | d :: ds => entry_bytes off d ++ build_entries (off + Z.of_nat (length (snd d))) ds
  end.

Definition pkg_build (ds : list PkgDriver) : list Z :=
  let count := Z.of_nat (length ds) in
  let off := data_offset count in
  DRIVER_PKG_MAGIC ++ u32_le count ++ build_entries off ds
    ++ replicate (Z.to_nat (off - (12 + count * 44))) 0 ++ (ds ≫= snd).

Lemma read_u32_at pre n post :
  0 <= n < 2 ^ 32 -> read_u32 (pre ++ u32_le n ++ post) (Z.of_nat (length pre)) = n.
Proof.
  intros Hn. unfold read_u32.
  assert (forall i x, u32_le n !! i = Some x ->
    (pre ++ u32_le n ++ post) !! Z.to_nat (Z.of_nat (length pre) + Z.of_nat i) = Some x) as Hl.
  { intros i x Hx. replace (Z.to_nat _) with (length pre + i)%nat by lia.
    rewrite lookup_app_r, Nat.add_sub', lookup_app_l by (try lia; eapply lookup_lt_Some; exact Hx). done. }
  pose proof (Hl 0%nat _ eq_refl) as H0. pose proof (Hl 1%nat _ eq_refl) as H1.
  pose proof (Hl 2%nat _ eq_refl) as H2. pose proof (Hl 3%nat _ eq_refl) as H3.
  change (Z.of_nat 0) with 0 in H0. change (Z.of_nat 1) with 1 in H1.
  change (Z.of_nat 2) with 2 in H2. change (Z.of_nat 3) with 3 in H3.
  rewrite H0, H1, H2, H3. simpl. div_lia.
Qed.

Lemma read_bytes_at pre x post n :
  n = Z.of_nat (length x) -> read_bytes (pre ++ x ++ post) (Z.of_nat (length pre)) n = x.
Proof.
  intros ->. unfold read_bytes. rewrite !Nat2Z.id, drop_app_length, take_app_length. done.
Qed.

Lemma length_ljust nm : length (ljust nm) = 32%nat.
Proof. unfold ljust. rewrite length_take, length_app, length_replicate. lia. Qed.

Lemma length_entry_bytes off d : length (entry_bytes off d) = 44%nat.
Proof. destruct d as [[nm cls] data]. unfold entry_bytes. rewrite !length_app, length_ljust. done. Qed.

Lemma length_build_entries off ds : length (build_entries off ds) = (44 * length ds)%nat.
Proof.
  revert off. induction ds as [|d ds IH]; intros off; simpl; [done|].
  rewrite length_app, length_entry_bytes, IH. lia.
Qed.

(** Total size of the ELF images. *)
Definition data_size (ds : list PkgDriver) : Z := Z.of_nat (length (ds ≫= snd)).

Lemma data_size_cons d ds : data_size (d :: ds) = Z.of_nat (length (snd d)) + data_size ds.
Proof. unfold data_size. rewrite bind_cons, length_app. lia. Qed.

Lemma build_entries_app off ds1 ds2 :
  build_entries off (ds1 ++ ds2) = build_entries off ds1 ++ build_entries (off + data_size ds1) ds2.
Proof.
  revert off. induction ds1 as [|d ds1 IH]; intros off; simpl; [by rewrite Z.add_0_r|].
  rewrite IH, <-app_assoc, data_size_cons. do 3 f_equal. lia.
Qed.

Lemma data_offset_ge count : 0 <= count -> 12 + count * 44 <= data_offset count.
Proof. intros H. unfold data_offset. destruct (_ =? _); [lia|]. pose proof (Z.mod_pos_bound (12 + count * 44) 8). lia. Qed.

Lemma data_size_app ds1 ds2 : data_size (ds1 ++ ds2) = data_size ds1 + data_size ds2.
Proof. unfold data_size. rewrite bind_app, length_app. lia. Qed.

(** The package as: everything before an entry, the entry, what follows; and
    everything before an ELF image, the image, what follows. *)
Lemma pkg_build_entry ds1 d ds2 :
  let ds := ds1 ++ d :: ds2 in
  let off := data_offset (Z.of_nat (length ds)) + data_size ds1 in
  exists pre post, pkg_build ds = pre ++ entry_bytes off d ++ post /\
    Z.of_nat (length pre) = 12 + 44 * Z.of_nat (length ds1).
Proof.
  cbv zeta. unfold pkg_build. set (ds := ds1 ++ d :: ds2). set (o := data_offset _).
  replace (build_entries o ds) with (build_entries o ds1 ++ build_entries (o + data_size ds1) (d :: ds2))
    by (unfold ds; by rewrite build_entries_app).
  cbn [build_entries].
  exists (DRIVER_PKG_MAGIC ++ u32_le (Z.of_nat (length ds)) ++ build_entries o ds1). eexists.
  rewrite <-!app_assoc. split; [reflexivity|]. rewrite !length_app, length_build_entries. simpl. lia.
Qed.

Lemma pkg_build_data ds1 d ds2 :
  let ds := ds1 ++ d :: ds2 in
  exists pre post, pkg_build ds = pre ++ snd d ++ post /\
    Z.of_nat (length pre) = data_offset (Z.of_nat (length ds)) + data_size ds1.
Proof.
  cbv zeta. unfold pkg_build. set (ds := ds1 ++ d :: ds2). set (o := data_offset _).
  assert (ds ≫= snd = (ds1 ≫= snd) ++ snd d ++ (ds2 ≫= snd)) as -> by (unfold ds; by rewrite bind_app).
  exists (DRIVER_PKG_MAGIC ++ u32_le (Z.of_nat (length ds)) ++ build_entries o ds
    ++ replicate (Z.to_nat (o - (12 + Z.of_nat (length ds) * 44))) 0 ++ (ds1 ≫= snd)). eexists.
  rewrite <-!app_assoc. split; [reflexivity|].
  rewrite !length_app, length_build_entries, length_replicate. unfold data_size. simpl length.
  pose proof (data_offset_ge (Z.of_nat (length ds))). fold o in H. lia.
Qed.

Lemma length_pkg_build ds :
  Z.of_nat (length (pkg_build ds)) = data_offset (Z.of_nat (length ds)) + data_size ds.
Proof.
  unfold pkg_build. rewrite !length_app, length_build_entries, length_replicate. unfold data_size. simpl length.
  pose proof (data_offset_ge (Z.of_nat (length ds))). lia.
Qed.

Definition pkg_class_of (cls : Z) : option DriverClass :=
  if cls =? 0 then Some Hardware else if cls =? 1 then Some Abstraction else None.

(** C8: Package round trip.  For every list of drivers whose package stays below 4 GiB, the kernel's manifest
    parser recovers from the packaging tool's output exactly the entries, in order, with each ELF
    image bit for bit for the two supported classes; other classes are skipped.  The offset in an
    entry counts from the start of the package. *)
Theorem package_roundtrip ds :
  Z.of_nat (length (pkg_build ds)) < 2 ^ 32 ->
  Forall (fun d => 0 <= snd (fst d) < 2 ^ 32) ds ->
  exists es, pkg_entries (pkg_build ds) = Some es /\ length es = length ds /\
    forall i nm cls data, ds !! i = Some (nm, cls, data) ->
      exists e, es !! i = Some e /\ pe_name e = ljust nm /\ pe_class e = cls /\
        pe_size e = Z.of_nat (length data) /\
        entry_elf (pkg_build ds) e = (fun c => (data, c)) <$> pkg_class_of cls.
Proof.
  intros Hsz Hcls. pose proof (length_pkg_build ds) as Hlen.
  pose proof (data_offset_ge (Z.of_nat (length ds)) ltac:(lia)) as Hoff.
  assert (0 <= data_size ds) by (unfold data_size; lia).
  assert (read_u32 (pkg_build ds) 8 = Z.of_nat (length ds)) as Hcount.
  { unfold pkg_build. apply (read_u32_at DRIVER_PKG_MAGIC). lia. }
  exists (pkg_entry (pkg_build ds) <$> seq 0 (length ds)). split; [|split].
  - unfold pkg_entries. unfold SIZEOF_PKG_HEADER, SIZEOF_PKG_ENTRY. rewrite Hcount, Nat2Z.id.
    rewrite (proj2 (Z.ltb_ge _ _)) by lia.
    destruct (Z.gtb_spec (12 + Z.of_nat (length ds) * 44) (Z.of_nat (length (pkg_build ds)))); [lia|].
    by rewrite bool_decide_eq_true_2.
  - by rewrite length_fmap, length_seq.
  - intros i nm cls data Hi. exists (pkg_entry (pkg_build ds) i).
    rewrite list_lookup_fmap, lookup_seq_lt by by eapply lookup_lt_Some.
    split; [done|]. rewrite Forall_forall in Hcls.
    pose proof (Hcls _ (list_elem_of_lookup_2 _ _ _ Hi)) as Hc. simpl in Hc.
    apply list_elem_of_split_length in Hi as (ds1 & ds2 & -> & ->).
    rewrite data_size_app in *. set (ds := ds1 ++ (nm, cls, data) :: ds2) in *.
    assert (data_size ((nm, cls, data) :: ds2) = Z.of_nat (length data) + data_size ds2) as Hd
      by apply data_size_cons.
    assert (0 <= data_size ds1 /\ 0 <= data_size ds2) as [? ?] by (unfold data_size; lia).
    destruct (pkg_build_entry ds1 (nm, cls, data) ds2) as (pre & post & Hb & Hp). fold ds in Hb.
    destruct (pkg_build_data ds1 (nm, cls, data) ds2) as (pre' & post' & Hb' & Hp'). fold ds in Hb', Hp'.
    set (off := data_offset (Z.of_nat (length ds)) + data_size ds1) in *.
    unfold pkg_entry, SIZEOF_PKG_HEADER, SIZEOF_PKG_ENTRY.
    replace (12 + Z.of_nat (length ds1) * 44) with (Z.of_nat (length pre)) by lia.
    assert (pkg_build ds = pre ++ ljust nm ++ u32_le cls ++ u32_le off ++ u32_le (Z.of_nat (length data)) ++ post) as HB.
    { rewrite Hb. unfold entry_bytes. by rewrite <-!app_assoc. }
    assert (read_bytes (pkg_build ds) (Z.of_nat (length pre)) 32 = ljust nm) as ->.
    { rewrite HB. apply read_bytes_at. by rewrite length_ljust. }
    assert (read_u32 (pkg_build ds) (Z.of_nat (length pre) + 32) = cls) as ->.
    { rewrite HB, app_assoc. replace (_ + 32) with (Z.of_nat (length (pre ++ ljust nm)))
        by (rewrite length_app, length_ljust; lia). by apply read_u32_at. }
    assert (read_u32 (pkg_build ds) (Z.of_nat (length pre) + 36) = off) as ->.
    { rewrite HB, !app_assoc, <-(app_assoc _ (u32_le (Z.of_nat (length data)))), <-(app_assoc _ (u32_le off)).
      replace (_ + 36) with (Z.of_nat (length ((pre ++ ljust nm) ++ u32_le cls)))
        by (rewrite !length_app, length_ljust; simpl length; lia). apply read_u32_at. lia. }
    assert (read_u32 (pkg_build ds) (Z.of_nat (length pre) + 40) = Z.of_nat (length data)) as ->.
    { rewrite HB, !app_assoc, <-(app_assoc _ (u32_le (Z.of_nat (length data)))).
      replace (_ + 40) with (Z.of_nat (length (((pre ++ ljust nm) ++ u32_le cls) ++ u32_le off)))
        by (rewrite !length_app, length_ljust; simpl length; lia). apply read_u32_at. lia. }
    split_and!; try done. unfold entry_elf. cbn [pe_offset pe_size pe_class].
    destruct (Z.gtb_spec (off + Z.of_nat (length data)) (Z.of_nat (length (pkg_build ds)))); [lia|].
    rewrite <-Hp'. rewrite Hb'. simpl snd. rewrite read_bytes_at by done.
    unfold pkg_class_of. by destruct (cls =? 0), (cls =? 1).
Qed.

Lemma package_roundtrip_witness :
  let ds := [([97; 98], 0, [1; 2; 3]); ([99], 1, [4; 5])] in
  exists es, pkg_entries (pkg_build ds) = Some es /\ length es = 2%nat.
Proof.
  cbv zeta. destruct (package_roundtrip [([97; 98], 0, [1; 2; 3]); ([99], 1, [4; 5])]) as (es & H1 & H2 & _).
  - vm_compute. reflexivity.
  - repeat constructor; simpl; lia.
  - exists es. split; [exact H1|exact H2].
Defined.

(** ** Mailboxes *)

(** Entry [i] of the table is [d], answers to the name [nm], and no other
    entry has that name or that vCPU. *)
Record solo (t : DriverTable) (nm : list Z) (i : nat) (d : DriverEntry) : Prop := {
  so_entry : dentries t !! i = Some (Some d);
  so_named : driver_named nm d = true;
  so_only : forall j d', dentries t !! j = Some (Some d') ->
    driver_named nm d' = true \/ dvcpu d' = dvcpu d -> j = i;
}.

Lemma driver_where_only f t i d :
  dentries t !! i = Some (Some d) -> f d = true ->
  (forall j d', dentries t !! j = Some (Some d') -> f d' = true -> j = i) ->
  driver_where f t = Some (i, d).
Proof.
  intros Hi Hf Honly. unfold driver_where.
  destruct (first_index _ (dentries t)) as [k|] eqn:E.
  - apply first_index_Some in E as (o & Hk & Ho & _). destruct o as [d'|]; [|done].
    rewrite Hk. assert (k = i) as -> by by eapply Honly. congruence.
  - apply first_index_None in E. rewrite Forall_lookup in E. specialize (E _ _ Hi). simpl in E. congruence.
Qed.

Lemma driver_where_none f t :
  (forall j d', dentries t !! j = Some (Some d') -> f d' = false) -> driver_where f t = None.
Proof.
  intros H. unfold driver_where. destruct (first_index _ (dentries t)) as [k|] eqn:E; [|done].
  apply first_index_Some in E as (o & Hk & Ho & _). destruct o as [d'|]; [|done].
  rewrite (H _ _ Hk) in Ho. done.
Qed.

Lemma solo_name t nm i d : solo t nm i d -> driver_where (driver_named nm) t = Some (i, d).
Proof. intros [Hi Hn Ho]. apply driver_where_only; eauto. Qed.

Lemma solo_vcpu t nm i d : solo t nm i d -> driver_where (fun e => dvcpu e =? dvcpu d) t = Some (i, d).
Proof.
  intros [Hi Hn Ho]. apply driver_where_only; [done|apply Z.eqb_refl|].
  intros j d' Hj He%Z.eqb_eq. eauto.
Qed.

Lemma solo_set t nm i d d' :
  solo t nm i d -> dname d' = dname d -> dvcpu d' = dvcpu d -> solo (set_driver t i (Some d')) nm i d'.
Proof.
  intros [Hi Hn Ho] Hname Hvc. split.
  - simpl. apply list_lookup_insert_eq. by eapply lookup_lt_Some.
  - unfold driver_named in *. by rewrite Hname.
  - intros j e. simpl. intros [(-> & [= <-] & _)|(_ & Hj)]%list_lookup_insert_Some Hor; [done|].
    eapply Ho; [done|]. by rewrite <-Hvc.
Qed.

(** Receiving from the solo entry. *)
Lemma solo_recv t nm i d :
  solo t nm i d ->
  gdf_recv t (dvcpu d) =
  if flags (mailbox d) =? MAILBOX_PENDING
  then (Some (cmd (mailbox d), arg0 (mailbox d), arg1 (mailbox d), arg2 (mailbox d)),
        set_driver t i (Some (set_mailbox d (set_flags (mailbox d) MAILBOX_RESPONSE))))
  else (None, t).
Proof.
  intros Hs. pose proof Hs as [Hi Hn Ho]. unfold gdf_recv. destruct (flags (mailbox d) =? MAILBOX_PENDING) eqn:E.
  - rewrite (driver_where_only _ t i d); [done|done|by rewrite Z.eqb_refl, E|].
    intros j d' Hj [He%Z.eqb_eq _]%andb_true_iff. eauto.
  - rewrite driver_where_none; [done|]. intros j d' Hj. destruct (dvcpu d' =? dvcpu d) eqn:Ed; [|done].
    apply Z.eqb_eq in Ed. assert (j = i) as -> by eauto. rewrite Hi in Hj. simplify_eq. by rewrite E.
Qed.

Section mailbox.
Context {M : Type} `{!KernelMem M}.
Implicit Types (g : Gdf M).

Lemma solo_send_busy g nm i d c a0 a1 a2 :
  solo (drivers g) nm i d -> flags (mailbox d) <> MAILBOX_IDLE -> send_cmd g nm c a0 a1 a2 = (false, g).
Proof.
  intros Hs Hf. unfold send_cmd. rewrite (solo_name _ _ _ _ Hs).
  by rewrite (proj2 (Z.eqb_neq _ _)) by done.
Qed.

Lemma solo_send_idle g nm i d c a0 a1 a2 :
  solo (drivers g) nm i d -> flags (mailbox d) = MAILBOX_IDLE -> blocked_buf_ptr d = 0 ->
  let d1 := set_mailbox d (pending_mailbox (mailbox d) c a0 a1 a2) in
  fst (send_cmd g nm c a0 a1 a2) = true /\
  drivers (snd (send_cmd g nm c a0 a1 a2)) = set_driver (drivers g) i (Some d1).
Proof.
  intros Hs Hf Hb. cbv zeta. unfold send_cmd. rewrite (solo_name _ _ _ _ Hs), Hf. cbn [negb Z.eqb MAILBOX_IDLE].
  cbn [blocked_buf_ptr set_mailbox]. by rewrite Hb.
Qed.

Lemma solo_response g nm i d r :
  solo (drivers g) nm i d ->
  let mb := mailbox d in
  let d1 := set_caller (set_mailbox d (mkMailbox (cmd mb) MAILBOX_IDLE (arg0 mb) (arg1 mb) (arg2 mb) r)) 0 in
  fst (send_response g (dvcpu d) r) = true /\
  drivers (snd (send_response g (dvcpu d) r)) = set_driver (drivers g) i (Some d1).
Proof.
  intros Hs. cbv zeta. unfold send_response. rewrite (solo_vcpu _ _ _ _ Hs). by destruct (caller_vcpu d =? 0).
Qed.

(** C9: Mailbox round trip.  An idle driver accepts a command; until it answers, every further command is
    refused without effect; its next receive yields exactly that command, once; its answer makes
    the mailbox idle again and polling returns exactly the answer. *)
Theorem mailbox_roundtrip g nm i d c a0 a1 a2 r :
  solo (drivers g) nm i d -> flags (mailbox d) = MAILBOX_IDLE -> blocked_buf_ptr d = 0 ->
  let g1 := snd (send_cmd g nm c a0 a1 a2) in
  let '(msg, t2) := gdf_recv (drivers g1) (dvcpu d) in
  let g2 := with_drivers g1 t2 in
  let g3 := snd (send_response g2 (dvcpu d) r) in
  fst (send_cmd g nm c a0 a1 a2) = true /\ poll_result (drivers g1) nm = None /\
  (forall c' x y z, send_cmd g1 nm c' x y z = (false, g1)) /\
  msg = Some (c, a0, a1, a2) /\ gdf_recv t2 (dvcpu d) = (None, t2) /\
  (forall c' x y z, send_cmd g2 nm c' x y z = (false, g2)) /\
  fst (send_response g2 (dvcpu d) r) = true /\ poll_result (drivers g3) nm = Some r /\
  (forall c' x y z, fst (send_cmd g3 nm c' x y z) = true).
Proof.
  intros Hs Hf Hb. cbv zeta. destruct (solo_send_idle g nm i d c a0 a1 a2 Hs Hf Hb) as [Hok Hd1].
  set (g1 := snd (send_cmd g nm c a0 a1 a2)) in *.
  set (d1 := set_mailbox d (pending_mailbox (mailbox d) c a0 a1 a2)) in *.
  assert (solo (drivers g1) nm i d1) as Hs1 by (rewrite Hd1; by eapply solo_set).
  change (dvcpu d) with (dvcpu d1). rewrite (solo_recv _ _ _ _ Hs1). cbn [d1 flags mailbox set_mailbox pending_mailbox Z.eqb MAILBOX_PENDING].
  cbn [Pos.eqb]. set (d2 := set_mailbox d1 (set_flags (mailbox d1) MAILBOX_RESPONSE)).
  set (t2 := set_driver (drivers g1) i (Some d2)). set (g2 := with_drivers g1 t2).
  assert (solo (drivers g2) nm i d2) as Hs2 by by eapply solo_set.
  destruct (solo_response g2 nm i d2 r Hs2) as [Hok2 Hd3]. cbv zeta in Hd3.
  set (g3 := snd (send_response g2 (dvcpu d2) r)) in *. set (d3 := set_caller _ 0) in Hd3.
  assert (solo (drivers g3) nm i d3) as Hs3 by (rewrite Hd3; by eapply solo_set).
  split_and!.
  - done.
  - unfold poll_result. by rewrite (solo_name _ _ _ _ Hs1).
  - intros c' x y z. by eapply solo_send_busy.
  - done.
  - exact (solo_recv t2 nm i d2 Hs2).
  - intros c' x y z. by eapply solo_send_busy.
  - done.
  - change (poll_result (drivers g3) nm = Some r). unfold poll_result. by rewrite (solo_name _ _ _ _ Hs3).
  - intros c' x y z. change (fst (send_cmd g3 nm c' x y z) = true).
    by destruct (solo_send_idle g3 nm i d3 c' x y z Hs3 eq_refl Hb) as [? _].
Qed.

(** A refused message is not dropped.  When the receive buffer a driver left is not writable, [send_cmd]
    reports failure (and logs that the message is dropped), but the mailbox stays pending: further
    commands are refused, and the driver's next receive delivers the message that was reported lost. *)
Theorem refused_message_stays_pending g nm i d c a0 a1 a2 :
  solo (drivers g) nm i d -> flags (mailbox d) = MAILBOX_IDLE ->
  blocked_buf_ptr d <> 0 -> blocked_buf_ptr d < HIGHER_HALF ->
  buf_writable 2 (mm (sys g)) (dpml4 d) (Z.land (blocked_buf_ptr d) (not64 0xFFF)) (wrap 64 (blocked_buf_ptr d + 32)) = false ->
  let g1 := snd (send_cmd g nm c a0 a1 a2) in
  fst (send_cmd g nm c a0 a1 a2) = false /\
  (forall c' x y z, send_cmd g1 nm c' x y z = (false, g1)) /\
  fst (gdf_recv (drivers g1) (dvcpu d)) = Some (c, a0, a1, a2).
Proof.
  intros Hs Hf Hb Hh Hw. cbv zeta.
  set (d1 := set_buf (set_mailbox d (pending_mailbox (mailbox d) c a0 a1 a2)) 0).
  assert (send_cmd g nm c a0 a1 a2 = (false, with_drivers g (set_driver (drivers g) i (Some d1)))) as ->.
  { unfold send_cmd. rewrite (solo_name _ _ _ _ Hs), Hf. cbn [negb Z.eqb MAILBOX_IDLE].
    cbn [blocked_buf_ptr set_mailbox dpml4]. rewrite (proj2 (Z.eqb_neq _ _)) by done.
    destruct (Z.geb_spec (blocked_buf_ptr d) HIGHER_HALF); [lia|]. by rewrite Hw. }
  cbn [fst snd]. assert (solo (drivers (with_drivers g (set_driver (drivers g) i (Some d1)))) nm i d1) as Hs1
    by by eapply solo_set.
  split; [done|]. split; [intros c' x y z; by eapply solo_send_busy|].
  change (dvcpu d) with (dvcpu d1). by rewrite (solo_recv _ _ _ _ Hs1).
Qed.
End mailbox.

(** ** A machine with one registered driver *)

Definition demo_name : list Z := [107; 98; 100].

Definition gdf_demo : Gdf FlatMem :=
  mkGdf sched_driver service_table_boot
    (snd (register_driver driver_table_boot (slab sched_driver) demo_name 1 HardwareDriver))
    (replicate MAX_DRIVERS None) (replicate MAX_DEFERRED_RESTARTS None) (replicate MAX_DRIVERS None).

Definition demo_driver : DriverEntry :=
  mkDriver (padded demo_name) 1 Mailbox_empty 1 HardwareDriver 0 0 0x5000.

Lemma demo_drivers : drivers gdf_demo = mkDrivers (Some demo_driver :: replicate 15 None) 1.
Proof. vm_compute. reflexivity. Qed.

(** A table whose only entry is the first. *)
Lemma solo_single nm d c : driver_named nm d = true -> solo (mkDrivers (Some d :: replicate 15 None) c) nm 0 d.
Proof.
  intros Hn. split; [done|done|]. intros [|j] d' Hj _; [done|]. change (replicate 15 (@None DriverEntry) !! j = Some (Some d')) in Hj.
  by apply lookup_replicate in Hj as [[=] _].
Qed.

Lemma mailbox_roundtrip_witness :
  let g1 := snd (send_cmd gdf_demo demo_name 7 1 2 3) in
  fst (send_cmd gdf_demo demo_name 7 1 2 3) = true /\
  fst (gdf_recv (drivers g1) 1) = Some (7, 1, 2, 3).
Proof.
  cbv zeta. pose proof (mailbox_roundtrip gdf_demo demo_name 0 demo_driver 7 1 2 3 9) as H. cbv zeta in H.
  change (dvcpu demo_driver) with 1 in H.
  destruct (gdf_recv (drivers (snd (send_cmd gdf_demo demo_name 7 1 2 3))) 1) as [msg t2].
  destruct H as (H1 & _ & _ & H2 & _).
  - rewrite demo_drivers. apply solo_single. vm_compute. reflexivity.
  - reflexivity.
  - reflexivity.
  - split; [exact H1|exact H2].
Defined.

(** The driver waits with its buffer at an address that is not mapped. *)
Definition gdf_waiting : Gdf FlatMem := with_drivers gdf_demo (set_blocked_buf (drivers gdf_demo) 1 0x7000).

Lemma refused_message_stays_pending_witness :
  let g1 := snd (send_cmd gdf_waiting demo_name 7 1 2 3) in
  fst (send_cmd gdf_waiting demo_name 7 1 2 3) = false /\
  fst (gdf_recv (drivers g1) 1) = Some (7, 1, 2, 3).
Proof.
  cbv zeta. destruct (refused_message_stays_pending gdf_waiting demo_name 0 (set_buf demo_driver 0x7000) 7 1 2 3)
    as (H1 & _ & H2).
  - assert (drivers gdf_waiting = mkDrivers (Some (set_buf demo_driver 0x7000) :: replicate 15 None) 1) as ->
      by (vm_compute; reflexivity).
    apply solo_single. vm_compute. reflexivity.
  - reflexivity.
  - discriminate.
  - reflexivity.
  - vm_compute. reflexivity.
  - split; [exact H1|exact H2].
Defined.
