(* ===== verification/GdfBlock.v ===== *)
(** Calls between drivers: [driver_call] blocks its caller and [send_response]
    wakes it.  The two orders of blocking and answering are separate
    sequences of steps here. *)
From stdpp Require Import base tactics numbers list sets.
From Stdlib Require Import ZArith Lia.
From S2P Require Import Prelude Phys KMem Slab Percpu Vcpu Service Scheduler SchedulerThms Gdf GdfThms.

Local Open Scope Z_scope.
Local Open Scope word_scope.

Section blocking.
Context {M : Type} `{!KernelMem M}.
Implicit Types (s : Sched M) (g : Gdf M).

(** ** Halted vCPUs stay halted *)

Lemma vcpu_get_set_same s x w v v' :
  Z.to_nat x = Z.to_nat w -> vcpu_get (slab s) w = Some v -> vcpu_get (vcpu_set (slab s) x v') w = Some v'.
Proof.
  intros He Hg. assert (vcpu_set (slab s) x v' = vcpu_set (slab s) w v') as -> by (unfold vcpu_set; by rewrite He).
  by eapply vcpu_get_set.
Qed.

Lemma vcpu_get_set_other s x w v' :
  Z.to_nat x <> Z.to_nat w -> vcpu_get (vcpu_set (slab s) x v') w = vcpu_get (slab s) w.
Proof. intros Hne. unfold vcpu_get, vcpu_set. simpl. by rewrite list_lookup_insert_ne. Qed.

Definition halted s (w : Z) : Prop := exists v, vcpu_get (slab s) w = Some v /\ state v = Halted.

Lemma vcpu_get_alias s x w : Z.to_nat x = Z.to_nat w -> vcpu_get (slab s) x = vcpu_get (slab s) w.
Proof. intros He. unfold vcpu_get. by rewrite He. Qed.

(** A write to a vCPU that is not halted, or that leaves it halted. *)
Lemma halted_set s s' x w v v' :
  halted s w -> vcpu_get (slab s) x = Some v -> state v <> Halted \/ state v' = Halted ->
  slab s' = vcpu_set (slab s) x v' -> halted s' w.
Proof.
  intros (u & Hu & Hst) Hx Hor Hs. unfold halted. rewrite Hs. destruct (decide (Z.to_nat x = Z.to_nat w)) as [He|Hne].
  - rewrite (vcpu_get_alias s x w He) in Hx. destruct Hor as [Hn|Hv']; [congruence|].
    exists v'. split; [by eapply vcpu_get_set_same|done].
  - exists u. by rewrite vcpu_get_set_other.
Qed.

Lemma halted_slab s s' w : slab s' = slab s -> halted s w -> halted s' w.
Proof. intros Hs (v & Hv & Hst). exists v. by rewrite Hs. Qed.

Lemma halted_cleanup_slot ids acc w : halted (snd acc) w -> halted (snd (fold_left cleanup_slot ids acc)) w.
Proof.
  revert acc. induction ids as [|o ids IH]; intros [[l c] s] Hh; simpl; [done|]. apply IH. simpl.
  destruct o as [x|]; [|done]. destruct (vcpu_get (slab s) x) as [v|] eqn:Ex; [|done].
  case_bool_decide as Ht; [|done]. simpl in Hh. destruct Hh as (u & Hu & Hst).
  destruct (vcpu_free (slab s) (mm s) x) as [sl m] eqn:Ef. simpl. exists u. split; [|done]. simpl.
  assert (Z.to_nat x <> Z.to_nat w) as Hne.
  { intros He. rewrite (vcpu_get_alias s x w He) in Ex. congruence. }
  unfold vcpu_free in Ef. destruct (_ <? _)%nat; [|by simplify_eq].
  destruct (vcpus (slab s) !! Z.to_nat x) as [[]|]; simplify_eq; [|done..].
  unfold vcpu_get in *. simpl. by rewrite list_lookup_insert_ne.
Qed.

Lemma halted_cleanup s w : halted s w -> halted (cleanup s) w.
Proof.
  unfold cleanup. generalize (seq 1 (gcount (gt s) - 1)) as l. intros l. revert s.
  induction l as [|i l IH]; intros s Hh; simpl; [done|]. apply IH. unfold cleanup_gang.
  destruct (gang_at _ _) as [ga|]; [|done].
  pose proof (halted_cleanup_slot (vcpu_ids ga) ([], vcpu_total ga, s) w Hh) as H.
  destruct (fold_left cleanup_slot _ _) as [[ids c] s1]. simpl in H. by destruct (forallb _ _).
Qed.

Lemma halted_save s cur f fa fpu w : halted s w -> halted (save_current s cur f fa fpu) w.
Proof.
  intros Hh. unfold save_current. destruct (vcpu_get (slab s) cur) as [v|] eqn:E; [|done].
  case_bool_decide as Hst; [by eapply (halted_set s); eauto|].
  destruct (if (0 <? _)%nat && _ then _ else _); eapply (halted_set s); eauto.
Qed.

Lemma halted_go_idle s cpu idle f fo w : halted s w -> halted (d_state (go_idle s cpu idle f fo)) w.
Proof. done. Qed.

Lemma halted_commit s cpu idle next p st f fo w : halted s w -> halted (d_state (commit s cpu idle next p st f fo)) w.
Proof. intros Hh. unfold commit. by destruct (_ && (_ || _)), (st =? 0). Qed.

Lemma halted_load s cpu idle next f fo w v :
  halted s w -> vcpu_get (slab s) next = Some v -> state v <> Halted ->
  halted (d_state (load_next s cpu idle next f fo)) w.
Proof.
  intros Hh Hv Hn. unfold load_next. rewrite Hv. set (s1 := with_slab s _).
  assert (halted s1 w) as Hs1 by (eapply (halted_set s); [done|done|by left|done]).
  destruct (negb _ && negb _); [done|]. destruct (bool_decide _); [by apply halted_commit|].
  destruct (validate_frame _); [by apply halted_commit|done].
Qed.

Lemma halted_schedule s cpu f fa fpu fo w : halted s w -> halted (d_state (schedule_inner s cpu f fa fpu fo)) w.
Proof.
  intros Hh. unfold schedule_inner. case_match; [done|]. set (s1 := if _ =? _ then _ else _).
  assert (halted s1 w) as Hs1.
  { unfold s1. case_match; [|apply halted_save]; by apply halted_cleanup. }
  clearbody s1. destruct (best_gang (gt s1)) as [gi|]; [|done].
  destruct (gang_at (gt s1) gi) as [ga|]; [|done].
  pose proof (pick_vcpu_spec (slab s1) ga) as Hp. destruct (pick_vcpu (slab s1) ga) as [next|]; [|done].
  destruct Hp as (v & (_ & Hv & Hst) & _). set (r := if _ >? _ then _ else _).
  assert (slab (fst r) = slab s1) as Hr by (unfold r; destruct (_ >? _); [apply push_extras_keep|done]).
  destruct r as [s2 g2]. simpl in Hr. eapply (halted_load _ _ _ _ _ _ _ v); simpl; [|by rewrite Hr|congruence].
  by eapply halted_slab.
Qed.

(** ** Wake *)

(** Waking touches halted vCPUs only. *)
Lemma wake_other s x w v :
  vcpu_get (slab s) w = Some v -> state v <> Halted -> vcpu_get (slab (wake s x)) w = Some v.
Proof.
  intros Hv Hst. unfold wake. destruct (vcpu_get (slab s) (wrap 32 x)) as [u|] eqn:Eu; [|done].
  case_bool_decide as Hu; [|done]. set (s1 := with_slab s _).
  assert (vcpu_get (slab s1) w = Some v) as Hs1.
  { simpl. rewrite vcpu_get_set_other; [done|]. intros He. rewrite (vcpu_get_alias s _ w He) in Eu. congruence. }
  clearbody s1. repeat (case_match; [done|]). done.
Qed.

Lemma wake_halted s x v :
  0 <= x < 2 ^ 32 -> vcpu_get (slab s) x = Some v -> state v = Halted ->
  vcpu_get (slab (wake s x)) x = Some (set_vruntime (set_state v Ready) 0).
Proof.
  intros Hx Hv Hst. unfold wake. rewrite wrap_small, Hv, bool_decide_eq_true_2 by done.
  set (s1 := with_slab s _). assert (vcpu_get (slab s1) x = Some (set_vruntime (set_state v Ready) 0)) as Hs1
    by (by eapply vcpu_get_set_same).
  clearbody s1. repeat (case_match; [done|]). done.
Qed.

(** All that waking does to the vCPUs and the gangs. *)
Lemma wake_tables s x :
  0 <= x < 2 ^ 32 ->
  slab (wake s x) = vcpu_update (slab s) x (fun v => if bool_decide (state v = Halted) then set_vruntime (set_state v Ready) 0 else v) /\
  gt (wake s x) = gt s.
Proof.
  intros Hx. unfold wake, vcpu_update. rewrite wrap_small by done. destruct (vcpu_get (slab s) x) as [v|] eqn:Ev; [|done].
  case_bool_decide; [|split; [|done]].
  - set (s1 := with_slab s _). repeat (case_match; [done|]). done.
  - unfold vcpu_get in Ev. unfold vcpu_set. destruct (slab s) as [l c i]. cbn [vcpus] in *.
    rewrite list_insert_id; [done|]. destruct (_ <? _)%nat; [|done]. destruct (l !! Z.to_nat x) as [o|]; simpl in Ev; [by subst o|done].
Qed.

(** Waking does not change which vCPU a CPU runs. *)
Lemma slot_set_map {A} (fld : PerCpu -> A) p i x j :
  fld x = fld (slot p i) -> fld (slot (set_slot p i x) j) = fld (slot p j).
Proof.
  intros He. destruct (decide (i = j)) as [->|Hne]; [|by rewrite slot_set_ne].
  destruct (Nat.lt_ge_cases j (length (PERCPU p))) as [Hlt|Hge]; [by rewrite slot_set_eq|].
  unfold slot, set_slot. simpl. by rewrite list_insert_ge.
Qed.

Lemma wake_running s x cpu :
  current_vcpu (pc (wake s x)) cpu = current_vcpu (pc s) cpu /\ idle_vcpu (pc (wake s x)) cpu = idle_vcpu (pc s) cpu.
Proof.
  assert (forall (fld : PerCpu -> Z), (forall c q, fld (with_ready_queue c q) = fld c) -> (forall c n, fld (with_task_count c n) = fld c) ->
    (forall c b, fld (with_need_resched c b) = fld c) -> forall j, fld (slot (pc (wake s x)) j) = fld (slot (pc s) j)) as H.
  { intros fld H1 H2 H3 j. unfold wake. destruct (vcpu_get _ _) as [v|]; [|done]. case_bool_decide; [|done].
    set (s1 := with_slab s _). change (pc s) with (pc s1). clearbody s1. destruct (_ <=? _)%nat; [done|].
    set (t := find_least_loaded (pc s1)). set (p2 := add_task_count _ t 1).
    assert (fld (slot p2 j) = fld (slot (pc s1) j)) as Hp2.
    { unfold p2, add_task_count. change (1 >=? 0) with true. cbn match. rewrite (slot_set_map fld) by apply H2.
      unfold rq_push. destruct (queue_push _ _) as [b q]. cbn [snd]. unfold set_rq.
      by rewrite (slot_set_map fld) by apply H1. }
    destruct (is_online p2 t); cbn [pc with_pc]; [|done]. by rewrite (slot_set_map fld) by apply H3. }
  unfold current_vcpu, idle_vcpu. by split; apply H.
Qed.

(** ** Calls *)

Lemma named_padded nm d : dname d = padded nm -> driver_named nm d = true.
Proof.
  intros He. unfold driver_named. rewrite He. unfold padded. set (len := Nat.min (length nm) 31).
  assert (length (take len nm) = len) as Hl by (rewrite length_take; lia).
  apply andb_true_iff. split.
  - apply bool_decide_eq_true. rewrite take_app_le by lia. by rewrite take_ge by lia.
  - rewrite lookup_app_r, Hl, Nat.sub_diag, lookup_replicate_2 by lia. apply orb_true_r.
Qed.

(** The target's entry after the call. *)
Definition called (d : DriverEntry) (caller c a0 a1 a2 : Z) : DriverEntry :=
  set_caller (set_mailbox d (mkMailbox c MAILBOX_PENDING a0 a1 a2 (result (mailbox d)))) caller.

Lemma driver_call_spec g cpu nm i d c a0 a1 a2 :
  solo (drivers g) nm i d -> dname d = padded nm -> nm <> [] -> flags (mailbox d) = MAILBOX_IDLE ->
  let caller := current_vcpu_id (sys g) cpu in
  dvcpu d <> caller ->
  driver_call g cpu nm c a0 a1 a2 =
  Some (with_sys (with_drivers g (set_driver (drivers g) i (Some (called d caller c a0 a1 a2)))) (wake (sys g) (dvcpu d))).
Proof.
  intros [Hi Hn Ho] Hname Hnm Hf. cbv zeta. intros Hne. unfold driver_call.
  destruct (Nat.eqb_spec (length nm) 0) as [?%nil_length_inv|_]; [done|].
  rewrite (driver_where_only _ _ i d); [by rewrite Hf|done| |].
  - rewrite bool_decide_eq_true_2 by done. by rewrite (proj2 (Z.eqb_neq _ _)).
  - intros j d' Hj [Hd%bool_decide_eq_true _]%andb_true_iff. eapply Ho; [done|]. left. by apply named_padded.
Qed.

(** The state after the target received the command and answered [r]. *)
Definition answered g (vid r : Z) : Gdf M :=
  snd (send_response (with_drivers g (snd (gdf_recv (drivers g) vid))) vid r).

(** The caller's record after the answer was stored in its saved frame. *)
Definition rax_stored s (caller r : Z) : Sched M :=
  with_slab s (vcpu_update (slab s) caller (fun v => set_frame v (set_rax (saved_frame v) r))).

Lemma rax_stored_get s caller r v :
  vcpu_get (slab s) caller = Some v ->
  vcpu_get (slab (rax_stored s caller r)) caller = Some (set_frame v (set_rax (saved_frame v) r)).
Proof. intros Hv. unfold rax_stored, vcpu_update. simpl. rewrite Hv. by eapply vcpu_get_set. Qed.

Lemma answered_spec g nm i d caller c a0 a1 a2 r :
  solo (drivers g) nm i (called d caller c a0 a1 a2) -> caller <> 0 ->
  fst (gdf_recv (drivers g) (dvcpu d)) = Some (c, a0, a1, a2) /\
  sys (answered g (dvcpu d) r) = wake (rax_stored (sys g) caller r) caller /\
  exists d', solo (drivers (answered g (dvcpu d) r)) nm i d' /\ flags (mailbox d') = MAILBOX_IDLE /\
    result (mailbox d') = r /\ caller_vcpu d' = 0.
Proof.
  intros Hs Hc. change (dvcpu d) with (dvcpu (called d caller c a0 a1 a2)). unfold answered.
  rewrite (solo_recv _ _ _ _ Hs). cbn [flags mailbox called set_caller set_mailbox]. simpl Z.eqb. cbn match. cbn [fst snd].
  split; [done|]. set (d2 := set_mailbox _ _). set (g2 := with_drivers g _).
  assert (solo (drivers g2) nm i d2) as Hs2 by by eapply solo_set.
  pose proof (solo_vcpu _ _ _ _ Hs2) as Hv. change (dvcpu d2) with (dvcpu (called d caller c a0 a1 a2)) in Hv.
  unfold send_response. rewrite Hv. change (caller_vcpu d2) with caller.
  rewrite (proj2 (Z.eqb_neq _ _)) by done. split; [done|]. eexists. split; [simpl; by eapply solo_set|done].
Qed.

(** Blocking the vCPU that runs on a CPU halts it. *)
Lemma blocks_running s cpu w frame fa fpu fo :
  wrap 32 (current_vcpu (pc s) cpu) = w -> w <> idle_vcpu (pc s) cpu ->
  (exists v, vcpu_get (slab s) w = Some v) ->
  halted (d_state (block_current s cpu frame fa fpu fo)) w.
Proof.
  intros Hcur Hidle [v Hv]. unfold block_current. rewrite Hcur, (proj2 (Z.eqb_neq _ _)), Hv by done.
  apply halted_schedule. set (s' := with_slab s _).
  assert (halted s' w) as Hh by (exists (set_state v Halted); split; [by eapply vcpu_get_set|done]).
  destruct (if (0 <? _)%nat && _ then _ else _); done.
Qed.

(** Receiving and answering change the answering driver's entry only. *)
Lemma answered_other g nm i d r j :
  solo (drivers g) nm i d -> j <> i -> dentries (drivers (answered g (dvcpu d) r)) !! j = dentries (drivers g) !! j.
Proof.
  intros Hs Hji. unfold answered. rewrite (solo_recv _ _ _ _ Hs).
  assert (forall g' d', solo (drivers g') nm i d' -> dvcpu d' = dvcpu d ->
    dentries (drivers (snd (send_response g' (dvcpu d) r))) !! j = dentries (drivers g') !! j) as Hresp.
  { intros g' d' Hs' <-. rewrite (proj2 (solo_response g' nm i d' r Hs')). simpl. by rewrite list_lookup_insert_ne. }
  destruct (_ =? _); cbn [snd].
  - set (d2 := set_mailbox d _). erewrite (Hresp _ d2); [|by eapply solo_set|done].
    simpl. by rewrite list_lookup_insert_ne.
  - by erewrite (Hresp _ d).
Qed.

(** A driver call completes.  The call leaves the command pending at the target with the caller recorded;
    once the caller is halted, the target receives exactly that command, and its answer makes
    the caller ready again with the answer in its saved RAX and the mailbox idle. *)
Theorem driver_call_completes g g' cpu nm i d c a0 a1 a2 r v :
  solo (drivers g) nm i d -> dname d = padded nm -> nm <> [] -> flags (mailbox d) = MAILBOX_IDLE ->
  let caller := current_vcpu_id (sys g) cpu in
  dvcpu d <> caller -> caller <> 0 ->
  driver_call g cpu nm c a0 a1 a2 = Some g' ->
  forall s, vcpu_get (slab s) caller = Some v -> state v = Halted ->
  let g1 := answered (with_sys g' s) (dvcpu d) r in
  fst (gdf_recv (drivers g') (dvcpu d)) = Some (c, a0, a1, a2) /\
  poll_result (drivers g1) nm = Some r /\
  exists v', vcpu_get (slab (sys g1)) caller = Some v' /\ state v' = Ready /\ rax (saved_frame v') = r.
Proof.
  intros Hs Hname Hnm Hf. cbv zeta. intros Hne Hc Hcall s Hv Hst.
  rewrite (driver_call_spec g cpu nm i d c a0 a1 a2 Hs Hname Hnm Hf Hne) in Hcall. injection Hcall as <-.
  set (caller := current_vcpu_id (sys g) cpu) in *.
  set (g' := with_sys (with_sys _ _) s).
  assert (solo (drivers g') nm i (called d caller c a0 a1 a2)) as Hs' by by eapply solo_set.
  destruct (answered_spec g' nm i d caller c a0 a1 a2 r Hs' Hc) as (Hr & Hsys & d' & Hd' & Hi & Hres & _).
  split; [exact Hr|]. split; [unfold poll_result; by rewrite (solo_name _ _ _ _ Hd'), Hi, Hres|].
  rewrite Hsys. eexists. split; [|split].
  - apply wake_halted; [apply wrap_bound; lia|by apply rax_stored_get|done].
  - done.
  - done.
Qed.

(** Lost wake-up.  When the target answers after the call has woken it and before the caller has blocked,
    the answer finds the caller still running, so it wakes nobody and forgets the caller; the
    caller then halts, with no driver left that will wake it. *)
Theorem driver_call_lost_wakeup g g' cpu nm i d c a0 a1 a2 r v frame fa fpu fo :
  solo (drivers g) nm i d -> dname d = padded nm -> nm <> [] -> flags (mailbox d) = MAILBOX_IDLE ->
  let caller := current_vcpu_id (sys g) cpu in
  dvcpu d <> caller -> caller <> 0 -> caller <> idle_vcpu (pc (sys g)) cpu ->
  vcpu_get (slab (sys g)) caller = Some v -> state v = Running ->
  (forall j e, dentries (drivers g) !! j = Some (Some e) -> caller_vcpu e <> caller) ->
  driver_call g cpu nm c a0 a1 a2 = Some g' ->
  let g1 := answered g' (dvcpu d) r in
  let s2 := d_state (block_current (sys g1) cpu frame fa fpu fo) in
  (exists v', vcpu_get (slab s2) caller = Some v' /\ state v' = Halted) /\
  (forall j e, dentries (drivers g1) !! j = Some (Some e) -> caller_vcpu e <> caller).
Proof.
  intros Hs Hname Hnm Hf. cbv zeta. intros Hne Hc Hidle Hv Hst Hothers Hcall.
  rewrite (driver_call_spec g cpu nm i d c a0 a1 a2 Hs Hname Hnm Hf Hne) in Hcall. injection Hcall as <-.
  set (caller := current_vcpu_id (sys g) cpu) in *. set (g' := with_sys _ _).
  assert (solo (drivers g') nm i (called d caller c a0 a1 a2)) as Hs' by by eapply solo_set.
  destruct (answered_spec g' nm i d caller c a0 a1 a2 r Hs' Hc) as (_ & Hsys & d' & Hd' & _ & _ & Hz).
  set (g1 := answered g' (dvcpu d) r) in *. split.
  - rewrite Hsys. assert (vcpu_get (slab (sys g')) caller = Some v) as Hv1 by (apply wake_other; [done|congruence]).
    assert (vcpu_get (slab (wake (rax_stored (sys g') caller r) caller)) caller =
      Some (set_frame v (set_rax (saved_frame v) r))) as Hv2
      by (apply wake_other; [by apply rax_stored_get|simpl; congruence]).
    destruct (wake_running (rax_stored (sys g') caller r) caller cpu) as [Hcur Hid].
    destruct (wake_running (sys g) (dvcpu d) cpu) as [Hcur' Hid'].
    apply blocks_running; [|by rewrite Hid; unfold rax_stored, g'; simpl; rewrite Hid'|by eexists].
    rewrite Hcur. unfold rax_stored, g'. simpl. by rewrite Hcur'.
  - intros j e Hj. destruct (decide (j = i)) as [->|Hji].
    + destruct Hd' as [Hi' _ _]. rewrite Hi' in Hj. simplify_eq. by rewrite Hz.
    + apply (Hothers j). unfold g1 in Hj.
      change (dvcpu d) with (dvcpu (called d caller c a0 a1 a2)) in Hj.
      rewrite (answered_other g' nm i _ r j Hs' Hji) in Hj. simpl in Hj. by rewrite list_lookup_insert_ne in Hj.
Qed.
End blocking.

(** ** Driver 2 runs on CPU 0 and calls driver 1 *)

Definition sched_caller : Sched FlatMem :=
  let s := with_slab sched_driver (snd (vcpu_alloc (slab sched_driver) 0 0x6000 1 HardwareDriver)) in
  let s1 := with_slab s (vcpu_update (slab s) 2 (fun v => set_state v Running)) in
  with_pc s1 (set_current_vcpu (pc s1) 0 2).

Definition gdf_caller : Gdf FlatMem := with_sys gdf_demo sched_caller.

Definition caller_vcpu2 : Vcpu := set_state (fresh_vcpu 2 0 0x6000 1 HardwareDriver) Running.

Definition gdf_called : Gdf FlatMem := default gdf_caller (driver_call gdf_caller 0 demo_name 7 1 2 3).

(** The caller halted. *)
Definition sched_blocked : Sched FlatMem :=
  with_slab sched_caller (vcpu_update (slab sched_caller) 2 (fun v => set_state v Halted)).

Lemma caller_drivers : drivers gdf_caller = mkDrivers (Some demo_driver :: replicate 15 None) 1.
Proof. vm_compute. reflexivity. Qed.

Lemma demo_solo : solo (drivers gdf_caller) demo_name 0 demo_driver.
Proof. rewrite caller_drivers. apply solo_single. vm_compute. reflexivity. Qed.

Lemma driver_call_completes_witness :
  let g1 := answered (with_sys gdf_called sched_blocked) 1 42 in
  exists v', vcpu_get (slab (sys g1)) 2 = Some v' /\ state v' = Ready /\ rax (saved_frame v') = 42.
Proof.
  cbv zeta. destruct (driver_call_completes gdf_caller gdf_called 0 demo_name 0 demo_driver 7 1 2 3 42
    (set_state caller_vcpu2 Halted)) with (s := sched_blocked) as (_ & _ & H).
  - exact demo_solo.
  - vm_compute. reflexivity.
  - discriminate.
  - reflexivity.
  - vm_compute. discriminate.
  - vm_compute. discriminate.
  - vm_compute. reflexivity.
  - vm_compute. reflexivity.
  - reflexivity.
  - exact H.
Defined.

Lemma driver_call_lost_wakeup_witness :
  let g1 := answered gdf_called 1 42 in
  let s2 := d_state (block_current (sys g1) 0 idle_frame 0 [] []) in
  exists v', vcpu_get (slab s2) 2 = Some v' /\ state v' = Halted.
Proof.
  cbv zeta. destruct (driver_call_lost_wakeup gdf_caller gdf_called 0 demo_name 0 demo_driver 7 1 2 3 42
    caller_vcpu2 idle_frame 0 [] []) as [H _].
  - exact demo_solo.
  - vm_compute. reflexivity.
  - discriminate.
  - reflexivity.
  - vm_compute. discriminate.
  - vm_compute. discriminate.
  - vm_compute. discriminate.
  - vm_compute. reflexivity.
  - reflexivity.
  - intros j e Hj. assert (j = 0%nat) as ->.
    { destruct j as [|j]; [reflexivity|]. rewrite caller_drivers in Hj.
      change (replicate 15 (@None DriverEntry) !! j = Some (Some e)) in Hj. by apply lookup_replicate in Hj as [[=] _]. }
    rewrite caller_drivers in Hj. injection Hj as <-. vm_compute. discriminate.
  - vm_compute. reflexivity.
  - exact H.
Defined.
