(* ===== verification/GdfCrash.v ===== *)
(** Crash recovery: what [handle_crash] does to the crashed driver's vCPU,
    service and restart request, and the frame an exception returns to. *)
From stdpp Require Import base tactics numbers list sets.
From Stdlib Require Import ZArith Lia.
From S2P Require Import Prelude Phys KMem Slab Percpu Vcpu Service Scheduler SchedulerThms Gdf GdfThms GdfBlock.

Local Open Scope Z_scope.
Local Open Scope word_scope.

(** ** Service records *)

Lemma service_get_update t i f :
  service_get (service_update t i f) i = f <$> service_get t i.
Proof.
  unfold service_update. destruct (service_get t i) as [s|] eqn:E; [|done]. unfold service_get in *. simpl.
  destruct (_ <? _)%nat; [|done]. destruct (entries t !! Z.to_nat i) eqn:El; simpl in E; [|done].
  by rewrite list_lookup_insert_eq by by eapply lookup_lt_Some.
Qed.

Lemma service_get_free t i : service_get (service_free t i) i = None.
Proof.
  unfold service_free, service_get. destruct (Z.to_nat i <? MAX_SERVICES)%nat eqn:E; [|done].
  destruct (entries t !! Z.to_nat i) as [[s|]|] eqn:El; simpl; [|by rewrite El..].
  by rewrite list_lookup_insert_eq by by eapply lookup_lt_Some.
Qed.

Section crash.
Context {M : Type} `{!KernelMem M, !KernelMemLaws M}.
Implicit Types (s : Sched M) (g : Gdf M).

(** ** The vCPU of a crashed driver *)

(** No gang lists [w]; listed ids are [u32] values. *)
Definition unlisted s (w : Z) : Prop :=
  forall i ga x, gang_at (gt s) i = Some ga -> Some x ∈ vcpu_ids ga -> 0 <= x /\ x <> w.

Lemma cleanup_slot_unlisted ids acc w :
  (forall x, Some x ∈ ids -> 0 <= x /\ x <> w) -> 0 <= w -> vcpu_wf (slab (snd acc)) ->
  let '(l', _, s') := fold_left cleanup_slot ids acc in
  vcpu_wf (slab s') /\ vcpu_get (slab s') w = vcpu_get (slab (snd acc)) w /\ gt s' = gt (snd acc) /\
  (forall x, Some x ∈ l' -> Some x ∈ fst (fst acc) \/ Some x ∈ ids).
Proof.
  revert acc. induction ids as [|o ids IH]; intros [[l c] s] Hids Hw Hwf; [simpl; auto|].
  cbn [fold_left]. set (acc' := cleanup_slot (l, c, s) o).
  assert (vcpu_wf (slab (snd acc')) /\ vcpu_get (slab (snd acc')) w = vcpu_get (slab s) w /\
    gt (snd acc') = gt s /\ (forall x, Some x ∈ fst (fst acc') -> Some x ∈ l \/ Some x = o)) as (H1 & H2 & H3 & H4).
  { unfold acc', cleanup_slot. destruct o as [x|]; [|simpl; set_solver].
    destruct (vcpu_get (slab s) x) as [v|] eqn:Ex; [|simpl; set_solver].
    case_bool_decide; [|simpl; set_solver]. destruct (Hids x) as [Hx0 Hxw]; [set_solver|].
    destruct (vcpu_free_spec (slab s) (mm s) x Hwf Hx0) as (Hwf' & Hget & _). destruct (vcpu_free (slab s) (mm s) x) as [sl m].
    simpl in *. split_and!; [done| |done|set_solver]. rewrite Hget by done. by rewrite decide_False by congruence. }
  specialize (IH acc'). destruct (fold_left cleanup_slot ids acc') as [[l' c'] s'].
  destruct IH as (K1 & K2 & K3 & K4); [set_solver|done|done|].
  cbn [fst snd]. split_and!; [done|congruence|congruence|]. intros x Hx. destruct (K4 x Hx) as [Hx'|Hx']; [|set_solver].
  destruct (H4 x Hx') as [?|?]; set_solver.
Qed.

Lemma cleanup_gang_unlisted s i w :
  unlisted s w -> 0 <= w -> vcpu_wf (slab s) ->
  unlisted (cleanup_gang s i) w /\ vcpu_wf (slab (cleanup_gang s i)) /\
  vcpu_get (slab (cleanup_gang s i)) w = vcpu_get (slab s) w.
Proof.
  intros Hu Hw Hwf.
  assert (forall s' o, gt s' = gt s -> (forall ga x, o = Some ga -> Some x ∈ vcpu_ids ga -> 0 <= x /\ x <> w) ->
    unlisted (with_gt s' (set_gang_at (gt s') i o)) w) as Hset.
  { intros s' o Hgt Ho j ga x Hj Hx. unfold gang_at, set_gang_at in Hj. simpl in Hj. rewrite Hgt in Hj.
    destruct (decide (j = i)) as [->|Hne]; [|rewrite list_lookup_insert_ne in Hj by done; by eapply Hu].
    destruct (decide (i < length (gangs (gt s)))%nat).
    - rewrite list_lookup_insert_eq in Hj by done. eauto.
    - rewrite list_insert_ge in Hj by lia. by eapply Hu. }
  unfold cleanup_gang. destruct (gang_at (gt s) i) as [ga|] eqn:Eg; [|split; [by apply Hset|done]].
  pose proof (cleanup_slot_unlisted (vcpu_ids ga) ([], vcpu_total ga, s) w) as H.
  destruct (fold_left cleanup_slot _ _) as [[ids c] s1]. simpl in H.
  destruct H as (H1 & H2 & H3 & H4); [intros x; by eapply Hu|done|done|].
  destruct (forallb _ _); (split; [apply Hset; [done|]|done]); [done|].
  intros ga' x [= <-] Hx. simpl in Hx. destruct (H4 x Hx) as [?|?]; [set_solver|by eapply Hu].
Qed.

Lemma cleanup_unlisted s w :
  unlisted s w -> 0 <= w -> vcpu_wf (slab s) ->
  unlisted (cleanup s) w /\ vcpu_wf (slab (cleanup s)) /\ vcpu_get (slab (cleanup s)) w = vcpu_get (slab s) w.
Proof.
  unfold cleanup. generalize (seq 1 (gcount (gt s) - 1)) as l. intros l. revert s.
  induction l as [|i l IH]; intros s Hu Hw Hwf; simpl; [done|].
  destruct (cleanup_gang_unlisted s i w Hu Hw Hwf) as (H1 & H2 & H3).
  destruct (IH _ H1 Hw H2) as (K1 & K2 & K3). split_and!; [done|done|congruence].
Qed.

(** Only the retirement step changes the scheduler's tables. *)
Lemma handle_crash_sys g vid sid :
  find_by_vcpu (services g) vid = Some sid ->
  exists g0, sys (handle_crash g vid) = sys (retire_vcpu g0 sid vid) /\ slab (sys g0) = slab (sys g) /\ gt (sys g0) = gt (sys g).
Proof.
  intros Hf. unfold handle_crash. rewrite Hf. set (g1 := with_services g _).
  destruct (match service_get (services g1) sid with Some s => _ | None => _ end) as [[policy rc] nm].
  exists (cleanup_resources g1 sid).
  assert (slab (sys (cleanup_resources g1 sid)) = slab (sys g) /\ gt (sys (cleanup_resources g1 sid)) = gt (sys g)) as Hc
    by (unfold cleanup_resources; by destruct (service_get (services g1) sid)).
  split; [|done]. destruct (bump_crash_count _ _) as [n ct]. destruct (_ >? _); [done|].
  destruct (should_restart _ _); [|done]. by destruct (find_meta _ _).
Qed.

Lemma retire_vcpu_sys g sid vid v :
  vcpu_wf (slab (sys g)) -> 0 <= vid -> vcpu_get (slab (sys g)) vid = Some v ->
  (forall i ga x, gang_at (gt (sys g)) i = Some ga -> Some x ∈ vcpu_ids ga -> 0 <= x) ->
  let s := sys (retire_vcpu g sid vid) in
  vcpu_wf (slab s) /\ unlisted s vid /\
  exists v', vcpu_get (slab s) vid = Some v' /\ state v' = Terminated.
Proof.
  intros Hwf Hv Hg Hids. cbv zeta. unfold retire_vcpu. set (g1 := match _ with Some _ => _ | None => _ end).
  assert (sys g1 = sys g) as Hs by (unfold g1; by case_match; [case_match|]).
  simpl. rewrite Hs. split; [|split].
  - by apply vcpu_update_wf.
  - intros i ga x Hi Hx. unfold gang_at in Hi. simpl in Hi. rewrite list_lookup_fmap in Hi.
    destruct (gangs (gt (sys g)) !! i) as [[ga0|]|] eqn:E; simpl in Hi; [|done..].
    case_match; [done|]. simplify_eq. simpl in Hx.
    apply list_elem_of_fmap in Hx as (o & Ho & Hin). case_bool_decide as Hd; [done|]. subst o.
    split; [|congruence]. eapply (Hids i ga0); [unfold gang_at; by rewrite E|done].
  - rewrite vcpu_get_update by done. rewrite decide_True by done. rewrite Hg. by eexists.
Qed.

(** The vCPU of a crashed driver is never released.  [handle_crash] marks it terminated and removes it
    from every gang; the scheduler's clean-up pass, to which the release is left, walks gang
    members only, so after any number of passes the vCPU still holds its slot, with its stack and
    page tables. *)
Theorem crashed_vcpu_leaks g vid sid v :
  vcpu_wf (slab (sys g)) -> 0 <= vid -> find_by_vcpu (services g) vid = Some sid ->
  vcpu_get (slab (sys g)) vid = Some v ->
  (forall i ga x, gang_at (gt (sys g)) i = Some ga -> Some x ∈ vcpu_ids ga -> 0 <= x) ->
  let s := sys (handle_crash g vid) in
  exists v', state v' = Terminated /\ forall n, vcpu_get (slab (Nat.iter n cleanup s)) vid = Some v'.
Proof.
  intros Hwf Hv Hf Hg Hids. cbv zeta. destruct (handle_crash_sys g vid sid Hf) as (g0 & -> & Hsl & Hgt).
  destruct (retire_vcpu_sys g0 sid vid v) as (Hwf' & Hu & v' & Hv' & Ht); [by rewrite Hsl|done|by rewrite Hsl|by rewrite Hgt|].
  exists v'. split; [done|]. intros n.
  assert (unlisted (Nat.iter n cleanup (sys (retire_vcpu g0 sid vid))) vid /\
    vcpu_wf (slab (Nat.iter n cleanup (sys (retire_vcpu g0 sid vid)))) /\
    vcpu_get (slab (Nat.iter n cleanup (sys (retire_vcpu g0 sid vid)))) vid = Some v') as (_ & _ & ?); [|done].
  induction n as [|n IH]; [done|]. destruct IH as (I1 & I2 & I3). rewrite !Nat.iter_succ.
  destruct (cleanup_unlisted _ vid I1 Hv I2) as (J1 & J2 & J3). split_and!; [done|done|congruence].
Qed.
(** ** Restarts *)

(** Crashes recorded under a name. *)
Definition crash_count (t : list (option CrashCounter)) (nm : list Z) : option Z :=
  i ← first_index (fun o => if o is Some c then bool_decide (cc_name c = nm) else false) t;
  o ← t !! i; cc_count <$> o.

Lemma bump_recorded t nm n :
  crash_count t nm = Some n -> 0 <= n < 2 ^ 32 - 1 ->
  fst (bump_crash_count t nm) = n + 1 /\ crash_count (snd (bump_crash_count t nm)) nm = Some (n + 1).
Proof.
  unfold crash_count, bump_crash_count. intros Hc Hn.
  destruct (first_index _ t) as [i|] eqn:E; simpl in Hc; [|done].
  destruct (t !! i) as [[c|]|] eqn:Ei; simpl in Hc; [|done..]. injection Hc as Hc.
  rewrite Hc, wrap_small by lia. simpl. split; [done|].
  apply first_index_Some in E as (o & Ho & Hf & Hlt). rewrite Ei in Ho. injection Ho as <-.
  erewrite (first_index_intro _ _ i); simpl; [| | |].
  - rewrite list_lookup_insert_eq by by eapply lookup_lt_Some. done.
  - apply list_lookup_insert_eq. by eapply lookup_lt_Some.
  - simpl. by apply bool_decide_eq_true.
  - intros j y Hj Hy. rewrite list_lookup_insert_ne in Hy by lia. by eapply Hlt.
Qed.

(** The service record and restart queue when the decision is taken. *)
Lemma crash_prefix g sid vid f svc :
  service_get (services g) sid = Some svc ->
  let g2 := retire_vcpu (cleanup_resources (with_services g (service_update (services g) sid f)) sid) sid vid in
  (exists svc', service_get (services g2) sid = Some svc') /\
  counters g2 = counters g /\ deferred g2 = deferred g /\ pkg_meta g2 = pkg_meta g.
Proof.
  intros Hs. cbv zeta. set (g1 := with_services g _).
  assert (service_get (services g1) sid = Some (f svc)) as H1 by (simpl; by rewrite service_get_update, Hs).
  set (gc := cleanup_resources g1 sid).
  assert ((exists x, service_get (services gc) sid = Some x) /\
    counters gc = counters g /\ deferred gc = deferred g /\ pkg_meta gc = pkg_meta g) as ((x & Hx) & Hc).
  { unfold gc, cleanup_resources. rewrite H1. simpl. split; [|done]. exists (clear_resources (f svc)).
    change (service_update (services g) sid f) with (services g1). by rewrite service_get_update, H1. }
  clearbody gc. unfold retire_vcpu. set (gr := match _ with Some _ => _ | None => _ end).
  assert (services gr = services gc /\ counters gr = counters gc /\ deferred gr = deferred gc /\ pkg_meta gr = pkg_meta gc)
    as (K1 & K2 & K3 & K4) by (unfold gr; by repeat case_match).
  simpl. rewrite K1, K2, K3, K4. split; [|done]. exists (set_spml4 x 0). by rewrite service_get_update, Hx.
Qed.

(** Restart decision.  Every crash of a recorded driver adds one to its persistent count.  From the sixth
    crash on the service is stopped and nothing is queued; before that, when the policy allows a
    restart and the package has the driver, its service slot is freed and exactly one restart
    request with its ELF and class is queued. *)
Theorem crash_restart_limit g vid sid svc n :
  find_by_vcpu (services g) vid = Some sid -> service_get (services g) sid = Some svc ->
  let nm := c_name 32 (name svc) in
  crash_count (counters g) nm = Some n -> 0 <= n < 2 ^ 32 - 1 ->
  let g' := handle_crash g vid in
  crash_count (counters g') nm = Some (n + 1) /\
  (MAX_CRASH_COUNT <= n ->
     deferred g' = deferred g /\ exists svc', service_get (services g') sid = Some svc' /\ sstate svc' = Stopped) /\
  (forall e, n < MAX_CRASH_COUNT -> should_restart (restart_policy svc) (wrap 32 (restart_count svc + 1)) = true ->
     find_meta (pkg_meta g) nm = Some e ->
     service_get (services g') sid = None /\
     deferred g' = push_deferred_restart (deferred g) (mkRestart nm (pm_elf e) (pm_class e))).
Proof.
  intros Hf Hs. cbv zeta. intros Hc Hn. destruct (bump_recorded _ _ _ Hc Hn) as [Hb1 Hb2].
  unfold handle_crash. rewrite Hf. set (f := fun x : Service => set_restart_count (set_sstate x Crashed) _).
  assert (service_get (services (with_services g (service_update (services g) sid f))) sid = Some (f svc)) as ->
    by (simpl; by rewrite service_get_update, Hs).
  change (restart_policy (f svc)) with (restart_policy svc). change (name (f svc)) with (name svc).
  change (restart_count (f svc)) with (wrap 32 (restart_count svc + 1)).
  destruct (crash_prefix g sid vid f svc Hs) as ((svc2 & Hs2) & K1 & K2 & K3).
  set (g2 := retire_vcpu _ sid vid) in *. rewrite K1. destruct (bump_crash_count _ _) as [m ct]. simpl in Hb1, Hb2. subst m.
  set (g3 := with_counters g2 ct).
  clearbody f. assert (forall g4, g4 = mark_stopped g3 sid -> counters g4 = ct /\ deferred g4 = deferred g /\
    exists svc', service_get (services g4) sid = Some svc' /\ sstate svc' = Stopped) as Hstop.
  { intros g4 ->. split_and!; [done|done|]. exists (set_sstate svc2 Stopped). split; [|done].
    unfold mark_stopped. cbn [services with_services].
    rewrite service_get_update. change (services g3) with (services g2). by rewrite Hs2. }
  clearbody g2. destruct (Z.gtb_spec (n + 1) MAX_CRASH_COUNT).
  - destruct (Hstop _ eq_refl) as (-> & H1 & H2). split_and!; [done|done|]. intros e Hlt. unfold MAX_CRASH_COUNT in *. lia.
  - split; [|split].
    + destruct (should_restart _ _); [|done]. by destruct (find_meta _ _).
    + unfold MAX_CRASH_COUNT in *. lia.
    + intros e _ -> He. change (pkg_meta g3) with (pkg_meta g2). rewrite K3, He. simpl.
      by rewrite service_get_free, K2.
Qed.
(** ** Returning from the exception *)

Lemma driver_frame_ok_safe f : driver_frame_ok f = true -> frame_safe f.
Proof.
  unfold driver_frame_ok. intros H%negb_true_iff.
  apply orb_false_iff in H as [H Hrip%negb_false_iff]. apply orb_false_iff in H as [H Hss%negb_false_iff].
  apply orb_false_iff in H as [Hrsp%Z.eqb_neq Hcs%negb_false_iff].
  split; [done|]. split; [apply orb_true_iff in Hrip as [?%Z.eqb_eq|?]; auto|].
  apply orb_true_iff in Hcs as [Hcs%Z.eqb_eq|Hcs%Z.eqb_eq]; rewrite Hcs in *; [right|left]; (split; [done|]);
    simpl in Hss; apply orb_true_iff in Hss as [?%Z.eqb_eq|?%Z.eqb_eq]; auto.
Qed.

Lemma push_all_keep s cpu ids :
  slab (push_all s cpu ids) = slab s /\ length (PERCPU (pc (push_all s cpu ids))) = length (PERCPU (pc s)).
Proof.
  unfold push_all. revert s. induction ids as [|x ids IH]; intros s; simpl; [done|].
  destruct (IH (with_pc s (snd (rq_push (pc s) cpu x)))) as [-> ->]. split; [done|]. apply length_rq_push.
Qed.

Lemma scan_drivers_spec fuel s cpu temp :
  cpus_ok s ->
  let '(r, s') := scan_drivers fuel s cpu temp in
  match r with
  | Some (vid, f, p, k) => exists v, vcpu_get (slab s) vid = Some v /\ is_driver (vcpu_type v) = true /\
      state v = Ready /\ driver_frame_ok (saved_frame v) = true /\
      f = saved_frame v /\ p = pml4 v /\ k = Vcpu.kernel_stack_top v /\
      slab s' = vcpu_set (slab s) vid (set_magic (set_state v Running) 0) /\ current_vcpu (pc s') cpu = vid
  | None => slab s' = slab s
  end.
Proof.
  revert s temp. induction fuel as [|fuel IH]; intros s temp Hc; simpl; [apply push_all_keep|].
  pose proof (length_rq_pop (pc s) cpu) as Hlen. destruct (rq_pop (pc s) cpu) as [[next|] p1]; [|apply push_all_keep].
  simpl in Hlen. set (vid := wrap 32 next). set (s1 := with_pc s p1).
  assert (forall s2 temp', slab s2 = slab s -> length (PERCPU (pc s2)) = length (PERCPU (pc s)) ->
    let '(r, s') := scan_drivers fuel s2 cpu temp' in
    match r with
    | Some (vid, f, p, k) => exists v, vcpu_get (slab s) vid = Some v /\ is_driver (vcpu_type v) = true /\
        state v = Ready /\ driver_frame_ok (saved_frame v) = true /\
        f = saved_frame v /\ p = pml4 v /\ k = Vcpu.kernel_stack_top v /\
        slab s' = vcpu_set (slab s) vid (set_magic (set_state v Running) 0) /\ current_vcpu (pc s') cpu = vid
    | None => slab s' = slab s
    end) as Hrec.
  { intros s2 temp' Hs2 Hl2. rewrite <-Hs2. apply IH. unfold cpus_ok in *. congruence. }
  destruct (is_driver _) eqn:Ed.
  - assert (slab (repush s1 cpu temp) = slab s /\
      length (PERCPU (pc (repush s1 cpu temp))) = length (PERCPU (pc s))) as [Hp1 Hp2]
      by (unfold repush; destruct (push_all_keep s1 cpu temp) as [-> ->]; done).
    destruct (vcpu_get (slab s) vid) as [v|] eqn:Ev; [|by apply Hrec].
    destruct (bool_decide _ && _) eqn:Eb; [|by apply Hrec].
    apply andb_true_iff in Eb as [Hr%bool_decide_eq_true Hf]. exists v. unfold get_vcpu_type, vcpu_with in Ed.
    rewrite Ev in Ed. set (s2 := with_slab s1 _). destruct (push_all_keep s2 cpu temp) as [Hq1 Hq2].
    split_and!; try done. unfold current_vcpu, set_current_vcpu. simpl.
    rewrite slot_set_eq; [done|]. apply slot_of_lt. unfold cpus_ok in Hc. unfold repush. rewrite Hq2. simpl. congruence.
  - destruct (_ <? _)%nat; apply Hrec; try done. simpl. by rewrite length_rq_push.
Qed.

(** Return from a driver crash.  [switch_frame_to_next_driver] returns either to a driver vCPU that was ready
    with a frame [iretq] accepts, whose page table and kernel stack it reports, which is now marked running
    and is the CPU's current vCPU; or to nobody, leaving the frame and every vCPU unchanged. *)
Theorem next_driver_safe g cpu frame :
  cpus_ok (sys g) ->
  let '(r, f, g') := switch_frame_to_next_driver g cpu frame in
  match r with
  | Some (p, k) => exists vid v, vcpu_get (slab (sys g)) vid = Some v /\ is_driver (vcpu_type v) = true /\
      state v = Ready /\ f = saved_frame v /\ frame_safe f /\ p = pml4 v /\ k = Vcpu.kernel_stack_top v /\
      vcpu_get (slab (sys g')) vid = Some (set_magic (set_state v Running) 0) /\ current_vcpu (pc (sys g')) cpu = vid
  | None => f = frame /\ slab (sys g') = slab (sys g)
  end.
Proof.
  intros Hc. unfold switch_frame_to_next_driver. pose proof (scan_drivers_spec 64 (sys g) cpu [] Hc) as H.
  destruct (scan_drivers 64 (sys g) cpu []) as [[[[[vid f] p] k]|] s']; [|done].
  destruct H as (v & H1 & H2 & H3 & H4 & -> & -> & -> & H5 & H6). exists vid, v. simpl. rewrite H5.
  split_and!; try done; [by apply driver_frame_ok_safe|by eapply vcpu_get_set].
Qed.
(** ** The whole of crash handling *)

(** What crash handling leaves of the driver on [vid] that ran as service [sid]:
    its vCPU is terminated and in no gang, its entry in the driver table is empty,
    the crash is counted, and either the service is stopped with no restart
    queued, or its slot is free and the restart of its program is queued.
    Every other vCPU is as it was, but [r], which is resumed. *)
Record crash_treated g g' (vid sid : Z) (svc : Service) (r : Z) : Prop := {
  ct_terminated : exists v', vcpu_get (slab (sys g')) vid = Some v' /\ state v' = Terminated;
  ct_unlisted : unlisted (sys g') vid;
  ct_driver : forall i d, driver_where (fun d => dvcpu d =? vid) (drivers g) = Some (i, d) -> dentries (drivers g') !! i = Some None;
  ct_counted : forall n, crash_count (counters g) (c_name 32 (name svc)) = Some n -> 0 <= n < 2 ^ 32 - 1 ->
    crash_count (counters g') (c_name 32 (name svc)) = Some (n + 1);
  ct_service : match service_get (services g') sid with
    | Some svc' => sstate svc' = Stopped /\ deferred g' = deferred g
    | None => exists e, find_meta (pkg_meta g) (c_name 32 (name svc)) = Some e /\
        deferred g' = push_deferred_restart (deferred g) (mkRestart (c_name 32 (name svc)) (pm_elf e) (pm_class e))
    end;
  ct_others : forall x, Z.to_nat x <> Z.to_nat vid -> Z.to_nat x <> Z.to_nat r -> vcpu_get (slab (sys g')) x = vcpu_get (slab (sys g)) x;
}.

(** The tables of vCPUs and drivers. *)
Lemma handle_crash_tables g vid sid :
  find_by_vcpu (services g) vid = Some sid ->
  (exists p, slab (sys (handle_crash g vid)) = vcpu_update (slab (sys g)) vid (fun v => set_pml4 (set_state v Terminated) p)) /\
  pc (sys (handle_crash g vid)) = pc (sys g) /\
  dentries (drivers (handle_crash g vid)) =
    match driver_where (fun d => dvcpu d =? vid) (drivers g) with Some (i, _) => <[i := None]> (dentries (drivers g)) | None => dentries (drivers g) end.
Proof.
  intros Hf. unfold handle_crash. rewrite Hf. set (g1 := with_services g _).
  destruct (match service_get (services g1) sid with Some s => _ | None => _ end) as [[policy rc] nm].
  assert (slab (sys (cleanup_resources g1 sid)) = slab (sys g) /\ pc (sys (cleanup_resources g1 sid)) = pc (sys g) /\
    drivers (cleanup_resources g1 sid) = drivers g) as (H1 & H2 & H3)
    by (unfold cleanup_resources; by destruct (service_get (services g1) sid)).
  set (gc := cleanup_resources g1 sid) in *. clearbody gc.
  assert ((exists p, slab (sys (retire_vcpu gc sid vid)) = vcpu_update (slab (sys g)) vid (fun v => set_pml4 (set_state v Terminated) p)) /\
    pc (sys (retire_vcpu gc sid vid)) = pc (sys g) /\ dentries (drivers (retire_vcpu gc sid vid)) =
    match driver_where (fun d => dvcpu d =? vid) (drivers g) with Some (i, _) => <[i := None]> (dentries (drivers g)) | None => dentries (drivers g) end) as Hr.
  { unfold retire_vcpu. rewrite H3. rewrite <- H1, <- H2. destruct (driver_where _ _) as [[i d]|]; (split; [by eexists|done || (split; [done|]; cbn; by rewrite H3)]). }
  set (gr := retire_vcpu gc sid vid) in *. clearbody gr.
  destruct (bump_crash_count _ _) as [n ct]. destruct (_ >? _); [done|].
  destruct (should_restart _ _); [|done]. by destruct (find_meta _ _).
Qed.

Lemma crash_decision g vid sid svc :
  find_by_vcpu (services g) vid = Some sid -> service_get (services g) sid = Some svc ->
  let nm := c_name 32 (name svc) in
  let g' := handle_crash g vid in
  counters g' = snd (bump_crash_count (counters g) nm) /\
  match service_get (services g') sid with
  | Some svc' => sstate svc' = Stopped /\ deferred g' = deferred g
  | None => exists e, find_meta (pkg_meta g) nm = Some e /\ deferred g' = push_deferred_restart (deferred g) (mkRestart nm (pm_elf e) (pm_class e))
  end.
Proof.
  intros Hf Hs. cbv zeta. unfold handle_crash. rewrite Hf. set (f := fun x : Service => set_restart_count (set_sstate x Crashed) _).
  assert (service_get (services (with_services g (service_update (services g) sid f))) sid = Some (f svc)) as ->
    by (simpl; by rewrite service_get_update, Hs).
  change (name (f svc)) with (name svc).
  destruct (crash_prefix g sid vid f svc Hs) as ((svc2 & Hs2) & K1 & K2 & K3).
  set (g2 := retire_vcpu _ sid vid) in *. rewrite K1. destruct (bump_crash_count _ _) as [m ct]. clearbody f g2. set (g3 := with_counters g2 ct).
  assert (counters (mark_stopped g3 sid) = ct /\ match service_get (services (mark_stopped g3 sid)) sid with
    | Some svc' => sstate svc' = Stopped /\ deferred (mark_stopped g3 sid) = deferred g | None => False end) as Hstop.
  { split; [done|]. unfold mark_stopped. cbn [services with_services deferred]. rewrite service_get_update.
    change (services g3) with (services g2). rewrite Hs2. by split. }
  assert (forall k, k = mark_stopped g3 sid -> counters k = ct /\ match service_get (services k) sid with
    | Some svc' => sstate svc' = Stopped /\ deferred k = deferred g
    | None => exists e, find_meta (pkg_meta g) (c_name 32 (name svc)) = Some e /\
        deferred k = push_deferred_restart (deferred g) (mkRestart (c_name 32 (name svc)) (pm_elf e) (pm_class e)) end) as Hk.
  { intros k ->. destruct Hstop as [-> H]. split; [done|]. revert H. by destruct (service_get (services (mark_stopped g3 sid)) sid). }
  destruct (_ >? _); [by apply Hk|]. destruct (should_restart _ _); [|by apply Hk].
  change (pkg_meta g3) with (pkg_meta g2). rewrite K3. destruct (find_meta _ _) as [e|]; [|by apply Hk].
  cbn [counters with_deferred with_services services deferred]. rewrite service_get_free. split; [done|]. exists e. split; [done|]. by rewrite <- K2.
Qed.

Lemma crash_treated_ok g vid sid svc v :
  vcpu_wf (slab (sys g)) -> 0 <= vid -> find_by_vcpu (services g) vid = Some sid -> service_get (services g) sid = Some svc ->
  vcpu_get (slab (sys g)) vid = Some v ->
  (forall i ga x, gang_at (gt (sys g)) i = Some ga -> Some x ∈ vcpu_ids ga -> 0 <= x) ->
  crash_treated g (handle_crash g vid) vid sid svc vid.
Proof.
  intros Hwf Hv Hf Hs Hg Hids. destruct (handle_crash_tables g vid sid Hf) as ((p & Hsl) & _ & Hd).
  destruct (crash_decision g vid sid svc Hf Hs) as [Hc Hdec].
  destruct (handle_crash_sys g vid sid Hf) as (g0 & Hs0 & Hsl0 & Hgt0).
  destruct (retire_vcpu_sys g0 sid vid v) as (_ & Hu & v' & Hv' & Ht); [by rewrite Hsl0|done|by rewrite Hsl0|by rewrite Hgt0|].
  split.
  - exists v'. by rewrite Hs0.
  - by rewrite Hs0.
  - intros i d Hi. rewrite Hd, Hi. unfold driver_where in Hi. destruct (first_index _ _) as [j|] eqn:E; [|done].
    destruct (dentries (drivers g) !! j) as [[d'|]|] eqn:Ej; [|done..]. injection Hi as <- _. apply list_lookup_insert_eq. by eapply lookup_lt_Some.
  - intros n Hn Hb. rewrite Hc. by destruct (bump_recorded _ _ _ Hn Hb).
  - done.
  - intros x Hx _. rewrite Hsl. unfold vcpu_update. destruct (vcpu_get _ vid); [|done]. by apply vcpu_get_set_other.
Qed.

(** ** The search for a driver to resume *)

Lemma push_all_tables s cpu ids j : gt (push_all s cpu ids) = gt s /\ idle_vcpu (pc (push_all s cpu ids)) j = idle_vcpu (pc s) j.
Proof.
  unfold push_all. revert s. induction ids as [|x ids IH]; intros s; simpl; [done|].
  destruct (IH (with_pc s (snd (rq_push (pc s) cpu x)))) as [-> ->]. split; [done|]. cbn [pc with_pc]. unfold rq_push, set_rq, idle_vcpu.
  destruct (queue_push _ _) as [b q]. cbn [snd]. by apply (slot_set_map idle_vcpu_id).
Qed.

Lemma length_scan_drivers fuel s cpu temp : length (PERCPU (pc (snd (scan_drivers fuel s cpu temp)))) = length (PERCPU (pc s)).
Proof.
  revert s temp. induction fuel as [|fuel IH]; intros s temp; cbn [scan_drivers]; [apply push_all_keep|].
  pose proof (length_rq_pop (pc s) cpu) as Hpop. destruct (rq_pop (pc s) cpu) as [[next|] p1]; [|apply push_all_keep].
  cbn [snd] in Hpop. cbv zeta. set (s1 := with_pc s p1). destruct (push_all_keep s1 cpu temp) as [_ Hr]. unfold repush.
  destruct (is_driver _); [|destruct (_ <? _)%nat; rewrite IH; [done|]; cbn [pc with_pc]; by rewrite length_rq_push].
  destruct (vcpu_get _ _) as [v|]; [|by rewrite IH, Hr]. destruct (bool_decide _ && _); [|by rewrite IH, Hr].
  set (s2 := with_slab s1 _). destruct (push_all_keep s2 cpu temp) as [_ Hq]. cbn [snd pc with_pc]. unfold set_current_vcpu, set_slot.
  cbn [PERCPU]. by rewrite length_insert, Hq.
Qed.

Lemma scan_drivers_tables fuel s cpu temp j :
  gt (snd (scan_drivers fuel s cpu temp)) = gt s /\ idle_vcpu (pc (snd (scan_drivers fuel s cpu temp))) j = idle_vcpu (pc s) j.
Proof.
  revert s temp. induction fuel as [|fuel IH]; intros s temp; cbn [scan_drivers]; [apply push_all_tables|].
  assert (idle_vcpu (snd (rq_pop (pc s) cpu)) j = idle_vcpu (pc s) j) as Hpop.
  { unfold rq_pop, set_rq, idle_vcpu. destruct (queue_pop _) as [b q]. cbn [snd]. by apply (slot_set_map idle_vcpu_id). }
  destruct (rq_pop (pc s) cpu) as [[next|] p1]; [|apply push_all_tables]. cbn [snd] in Hpop. cbv zeta. set (s1 := with_pc s p1).
  assert (forall s2 temp', gt s2 = gt s -> idle_vcpu (pc s2) j = idle_vcpu p1 j ->
    gt (snd (scan_drivers fuel s2 cpu temp')) = gt s /\ idle_vcpu (pc (snd (scan_drivers fuel s2 cpu temp'))) j = idle_vcpu (pc s) j) as Hrec.
  { intros s2 temp' <- Hi. rewrite <- Hpop, <- Hi. apply IH. }
  destruct (push_all_tables s1 cpu temp j) as [Hr1 Hr2]. destruct (is_driver _).
  - destruct (vcpu_get _ _) as [v|]; [|by apply Hrec]. destruct (bool_decide _ && _); [|by apply Hrec].
    set (s2 := with_slab s1 _). destruct (push_all_tables s2 cpu temp j) as [Hq1 Hq2]. cbn [snd gt pc with_pc].
    unfold repush. rewrite Hq1. split; [done|]. rewrite <- Hpop. change p1 with (pc s2). rewrite <- Hq2.
    unfold set_current_vcpu, idle_vcpu. by apply (slot_set_map idle_vcpu_id).
  - destruct (_ <? _)%nat; apply Hrec; try done. cbn [pc with_pc]. unfold rq_push, set_rq, idle_vcpu.
    destruct (queue_push _ _) as [b q]. cbn [snd]. by apply (slot_set_map idle_vcpu_id).
Qed.
End crash.

(** ** Witnesses *)

Definition crash_service : Service :=
  mkService 0 (entry_name demo_name) SRunning 1 0x5000 resources_empty (OnFailure 3) 0.

(** Driver 1 runs as service 0, has crashed [n] times and is in the package. *)
Definition gdf_crashing (n : Z) : Gdf FlatMem :=
  mkGdf sched_driver (mkServices (Some crash_service :: replicate 31 None) 1) (drivers gdf_demo)
    (Some (mkCounter (padded demo_name) n) :: replicate 15 None) (replicate MAX_DEFERRED_RESTARTS None)
    (Some (mkMeta (padded demo_name) [1; 2; 3] Hardware) :: replicate 15 None).

Definition vcpu_or_fresh (o : option Vcpu) : Vcpu := default (fresh_vcpu 0 0 0 0 Normal) o.

(** Checkers for the slab invariant and for gang member ids. *)
Definition wf_check (t : VcpuSlab) : bool :=
  (length (vcpus t) =? MAX_VCPUS)%nat && (count t =? Z.of_nat (live (vcpus t))) &&
  forallb (fun p => if snd p is Some x then id x =? Z.of_nat (fst p) else true) (imap pair (vcpus t)).

Lemma wf_check_sound t : wf_check t = true -> vcpu_wf t.
Proof.
  unfold wf_check. intros [[Hl%Nat.eqb_eq Hc%Z.eqb_eq]%andb_true_iff Hk]%andb_true_iff. split; [done|done|].
  intros i x Hi. rewrite forallb_forall in Hk. apply Z.eqb_eq. apply (Hk (i, Some x)).
  apply list_elem_of_In, list_elem_of_lookup. exists i. by rewrite list_lookup_imap, Hi.
Qed.

Definition ids_check (t : GangTable) : bool :=
  forallb (fun o => if o is Some ga then forallb (fun p => if p is Some y then 0 <=? y else true) (vcpu_ids ga) else true)
    (gangs t).

Lemma ids_check_sound t i ga x : ids_check t = true -> gang_at t i = Some ga -> Some x ∈ vcpu_ids ga -> 0 <= x.
Proof.
  unfold ids_check, gang_at. rewrite forallb_forall. intros H Hi Hx.
  destruct (gangs t !! i) as [o|] eqn:E; simpl in Hi; [|done]. subst o.
  specialize (H (Some ga)). rewrite forallb_forall in H. apply Z.leb_le. apply (H (proj1 (list_elem_of_In _ _) (list_elem_of_lookup_2 _ _ _ E)) (Some x)).
  by apply list_elem_of_In.
Qed.

Lemma crashed_vcpu_leaks_witness :
  exists v', state v' = Terminated /\
    forall n, vcpu_get (slab (Nat.iter n cleanup (sys (handle_crash (gdf_crashing 0) 1)))) 1 = Some v'.
Proof.
  apply (crashed_vcpu_leaks (gdf_crashing 0) 1 0 (vcpu_or_fresh (vcpu_get (slab sched_driver) 1))).
  - apply wf_check_sound. vm_compute. reflexivity.
  - lia.
  - vm_compute. reflexivity.
  - vm_compute. reflexivity.
  - intros i ga x. apply ids_check_sound. vm_compute. reflexivity.
Defined.

Lemma crash_restart_limit_witness :
  deferred (handle_crash (gdf_crashing 5) 1) = deferred (gdf_crashing 5) /\
  deferred (handle_crash (gdf_crashing 4) 1) =
    push_deferred_restart (deferred (gdf_crashing 4)) (mkRestart (padded demo_name) [1; 2; 3] Hardware).
Proof.
  split.
  - destruct (crash_restart_limit (gdf_crashing 5) 1 0 crash_service 5) as (_ & H & _);
      [vm_compute; reflexivity..|lia|]. apply H. vm_compute. discriminate.
  - destruct (crash_restart_limit (gdf_crashing 4) 1 0 crash_service 4) as (_ & _ & H);
      [vm_compute; reflexivity..|lia|].
    apply (H (mkMeta (padded demo_name) [1; 2; 3] Hardware)); vm_compute; reflexivity.
Defined.

(** Driver 1 queued on CPU 0 with a valid frame. *)
Definition gdf_queued : Gdf FlatMem :=
  let s := with_slab sched_driver (vcpu_update (slab sched_driver) 1 (fun v => set_frame v (set_ss driver_frame 0x23))) in
  with_sys gdf_demo (with_pc s (snd (rq_push (pc s) 0 1))).

Lemma next_driver_safe_witness :
  let g := gdf_queued in
  let '(r, f, g') := switch_frame_to_next_driver g 0 idle_frame in
  r <> None /\ frame_safe f /\ current_vcpu (pc (sys g')) 0 = 1.
Proof.
  cbv zeta. set (g := gdf_queued). pose proof (next_driver_safe g 0 idle_frame) as H.
  assert (let '(r, _, g') := switch_frame_to_next_driver g 0 idle_frame in
    (if r is Some _ then true else false) = true /\ current_vcpu (pc (sys g')) 0 = 1) as Hr
    by (vm_compute; split; reflexivity).
  destruct (switch_frame_to_next_driver g 0 idle_frame) as [[r f] g']. destruct Hr as [Hr Hcur].
  destruct r as [[p k]|]; [|discriminate Hr].
  destruct H as (vid & v & _ & _ & _ & _ & Hs & _); [vm_compute; reflexivity|].
  split; [discriminate|]. split; [exact Hs|exact Hcur].
Defined.
