(* ===== verification/Virt.v ===== *)
(** Page tables (src/kernel/src/mm/virt.rs).

    The tables are words of physical memory: [words] holds the 64-bit word at
    a physical address, and page-table pages come from the allocator of
    [Phys].  The kernel reaches physical memory through the direct map at
    [HIGHER_HALF], which is what [phys_to_virtual] computes, so a table is
    named here by its physical address.

    Operations run in [VM], a state monad whose failure is a panic.  They
    model one CPU changing a set of tables at a time: the compare-and-swap of
    [ensure_table] succeeds at once and its split is not raced. *)
From stdpp Require Import base tactics numbers list gmap.
From Stdlib Require Import ZArith Lia.
From S2P Require Import Prelude Phys KMem Percpu.

Local Open Scope Z_scope.
Local Open Scope word_scope.

Definition PHYS_ADDR_MASK : Z := 0x000FFFFFFFFFF000.
Definition NO_EXECUTE : Z := Z.shiftl 1 63.
Definition ENTRY_FLAG_MASK : Z := Z.lor NO_EXECUTE 0xFFF.
Definition DIRECT_MAP_SIZE : Z := 0x0000800000000000.
Definition USER_IMAGE_BASE : Z := 0x20000000.
Definition WRITABLE : Z := 2.
Definition USER : Z := 4.
Definition CACHE_DISABLE : Z := 16.
Definition PS : Z := 128.
Definition COW : Z := 2048.
Definition DATA : Z := Z.lor (Z.lor PRESENT WRITABLE) NO_EXECUTE.
Definition CODE : Z := Z.lor PRESENT WRITABLE.
Definition KATERM_STACK_VIRT : Z := 0xFFFFF00000000000.
Definition HUGE_1G_MASK : Z := 0x000FFFC000000000.
Definition HUGE_2M_MASK : Z := 0x000FFFFFFE000000.

Definition has (e flag : Z) : bool := negb (Z.land e flag =? 0).

Record Virt := mkVirt {
  vphys : PhysState;
  words : gmap Z Z;
  cr3 : Z;
  KERNEL_PML4 : Z;
  PT_INITIALIZED : bool;
  KATERM_STACK_TOP : Z;
  vpc : Percpu;
  invlpgs : list Z;        (* local TLB flushes, latest first *)
  ipi_count : Z;           (* broadcasts of [IPI_VECTOR] *)
}.

Definition with_vphys (s : Virt) (p : PhysState) : Virt :=
  mkVirt p (words s) (cr3 s) (KERNEL_PML4 s) (PT_INITIALIZED s) (KATERM_STACK_TOP s) (vpc s) (invlpgs s) (ipi_count s).
Definition with_words (s : Virt) (w : gmap Z Z) : Virt :=
  mkVirt (vphys s) w (cr3 s) (KERNEL_PML4 s) (PT_INITIALIZED s) (KATERM_STACK_TOP s) (vpc s) (invlpgs s) (ipi_count s).
Definition with_cr3 (s : Virt) (c : Z) : Virt :=
  mkVirt (vphys s) (words s) c (KERNEL_PML4 s) (PT_INITIALIZED s) (KATERM_STACK_TOP s) (vpc s) (invlpgs s) (ipi_count s).
Definition with_flush (s : Virt) (a : Z) : Virt :=
  mkVirt (vphys s) (words s) (cr3 s) (KERNEL_PML4 s) (PT_INITIALIZED s) (KATERM_STACK_TOP s) (vpc s) (a :: invlpgs s) (ipi_count s).
Definition with_vpc (s : Virt) (p : Percpu) : Virt :=
  mkVirt (vphys s) (words s) (cr3 s) (KERNEL_PML4 s) (PT_INITIALIZED s) (KATERM_STACK_TOP s) p (invlpgs s) (ipi_count s).
Definition with_ipi (s : Virt) : Virt :=
  mkVirt (vphys s) (words s) (cr3 s) (KERNEL_PML4 s) (PT_INITIALIZED s) (KATERM_STACK_TOP s) (vpc s) (invlpgs s) (ipi_count s + 1).
Definition with_init (s : Virt) (k : Z) : Virt :=
  mkVirt (vphys s) (words s) (cr3 s) k true (KATERM_STACK_TOP s) (vpc s) (invlpgs s) (ipi_count s).
Definition with_katerm_top (s : Virt) (t : Z) : Virt :=
  mkVirt (vphys s) (words s) (cr3 s) (KERNEL_PML4 s) (PT_INITIALIZED s) t (vpc s) (invlpgs s) (ipi_count s).

(** ** The monad *)

Definition VM (A : Type) : Type := Virt -> option (A * Virt).
Definition vret {A} (x : A) : VM A := fun s => Some (x, s).
Definition vbind {A B} (m : VM A) (k : A -> VM B) : VM B :=
  fun s => match m s with Some (x, s') => k x s' | None => None end.
Definition vpanic {A} : VM A := fun _ => None.
Definition vget {A} (f : Virt -> A) : VM A := fun s => Some (f s, s).
Definition vmod (f : Virt -> Virt) : VM unit := fun s => Some (tt, f s).

Declare Scope vm_scope.
Delimit Scope vm_scope with vm.
Notation "'let*' x := m 'in' k" := (vbind m (fun x => k)) (at level 200, x name, right associativity) : vm_scope.
Notation "m ;; k" := (vbind m (fun _ => k)) (at level 100, k at level 200, right associativity) : vm_scope.
Local Open Scope vm_scope.

Fixpoint vfor {A} (l : list A) (f : A -> VM unit) : VM unit :=
  match l with
  | [] => vret tt
  | x :: l => f x ;; vfor l f
  end.

(** A loop whose body can fail with [None] (the [?] operator). *)
Fixpoint vfor_opt {A} (l : list A) (f : A -> VM (option unit)) : VM (option unit) :=
  match l with
  | [] => vret (Some tt)
  | x :: l => let* r := f x in if r is Some _ then vfor_opt l f else vret None
  end.

Definition vexpect {A} (m : VM (option A)) : VM A :=
  let* r := m in if r is Some x then vret x else vpanic.

(** ** Words, tables, allocation *)

Definition rd (a : Z) : VM Z := vget (fun s => default 0 (words s !! a)).
Definition wr (a v : Z) : VM unit := vmod (fun s => with_words s (<[a := v]> (words s))).
Definition slot_addr (table idx : Z) : Z := table + 8 * idx.

Definition alloc : VM (option Z) :=
  fun s => let '(r, p) := alloc_page (vphys s) in Some (r, with_vphys s p).
Definition release (a : Z) : VM unit := vmod (fun s => with_vphys s (free_page (vphys s) a)).

(** [phys_to_virtual], as the physical address of the table. *)
Definition phys_to_virtual (addr : Z) : VM Z :=
  if addr >=? HIGHER_HALF then vret (addr - HIGHER_HALF)
  else
    let phys := Z.land addr PHYS_ADDR_MASK in
    if phys >=? DIRECT_MAP_SIZE then vpanic else vret phys.

Definition indices : list Z := seqZ 0 512.

(** [*table = PageTable::new_zeroed()]. *)
Definition zero_words (w : gmap Z Z) (table : Z) : gmap Z Z :=
  fold_left (fun w i => <[slot_addr table i := 0]> w) indices w.
Definition new_zeroed (table : Z) : VM unit := vmod (fun s => with_words s (zero_words (words s) table)).

Definition is_table_empty (table : Z) : VM bool :=
  vget (fun s => forallb (fun i => default 0 (words s !! slot_addr table i) =? 0) indices).

Definition index_for_addr (virt : Z) (level : Z) : Z := Z.land (Z.shiftr virt (12 + level * 9)) 0x1FF.

(** ** TLB maintenance; [cpu] is the caller's slot *)

Definition set_pending_flush (cpu : nat) (addr : Z) : VM unit :=
  vmod (fun s =>
    let prev := pending_tlb_flush (slot (vpc s) cpu) in
    let v := if negb (prev =? 0) && negb (prev =? addr) && negb (prev =? U64_MAX) then U64_MAX else addr in
    with_vpc s (set_slot (vpc s) cpu (with_pending_tlb_flush (slot (vpc s) cpu) v))).

Definition invlpg (a : Z) : VM unit := vmod (fun s => with_flush s a).
Definition send_ipi_others : VM unit := vmod with_ipi.

Definition pend_others (cpu : nat) (addr : Z) : VM unit :=
  vfor (seq 0 MAX_CPUS) (fun i =>
    let* p := vget vpc in
    if negb (i =? cpu)%nat && is_online p i then set_pending_flush i addr else vret tt).

Definition tlb_shootdown (cpu : nat) (addr : Z) : VM unit :=
  pend_others cpu addr ;; invlpg addr ;; send_ipi_others.

Definition flush_page_all (cpu : nat) (virt : Z) : VM unit := tlb_shootdown cpu virt.

Definition tlb_flush_and_shootdown (cpu : nat) (virt : Z) : VM unit := invlpg virt ;; tlb_shootdown cpu virt.

(** The flush loop covers whole pages of [page_start, page_end). *)
Definition tlb_shootdown_range (cpu : nat) (start end_ : Z) : VM unit :=
  let page_start := Z.land start (not64 (PAGE_SIZE - 1)) in
  let page_end := Z.land (end_ +u64 (PAGE_SIZE - 1)) (not64 (PAGE_SIZE - 1)) in
  let last_page := if page_end >? page_start then page_end - PAGE_SIZE else page_start in
  pend_others cpu last_page ;;
  vfor (seqZ 0 ((page_end - page_start) / PAGE_SIZE)) (fun i => invlpg (page_start + i * PAGE_SIZE)) ;;
  send_ipi_others.

(** The interrupt entry (src/kernel/src/arch/idt.rs) of a CPU with a pending
    flush: the addresses it invalidates; [None] is a full flush. *)
Definition take_pending (p : Percpu) (cpu : nat) : option (list Z) * Percpu :=
  let pending := pending_tlb_flush (slot p cpu) in
  (if pending =? 0 then Some [] else if pending =? U64_MAX then None else Some [pending],
   set_slot p cpu (with_pending_tlb_flush (slot p cpu) 0)).

(** ** Walking and extending the tables *)

(** The flags a split keeps: NX and the low bits without PRESENT and PS. *)
Definition split_flags (e : Z) : Z :=
  Z.lor (Z.land e NO_EXECUTE) (Z.land (Z.land e 0xFFF) (not64 (Z.lor 1 PS))).

(** Filling the table that replaces a huge page: [step] bytes per entry. *)
Definition fill_split (table base step flags : Z) : VM unit :=
  vfor indices (fun i => wr (slot_addr table i) (Z.lor (base + i * step) flags)).

Definition alloc_table : VM Z :=
  let* page := vexpect alloc in
  let* t := phys_to_virtual page in
  new_zeroed t ;; vret page.

(** Splitting the huge page that the entry at [ea] maps; [level] as the callers
    pass it. *)
Definition split_entry (ea flags level addr : Z) : VM unit :=
  let* new_page := alloc_table in
  let* new_table := phys_to_virtual new_page in
  let* e := rd ea in
  let child_flags := if has e USER then Z.land flags USER else 0 in
  (if level =? 2 then
     fill_split new_table (Z.land e HUGE_1G_MASK) 0x200000 (Z.lor (Z.lor (split_flags e) child_flags) PS)
   else if (level =? 1) || (level =? 0) then
     fill_split new_table (Z.land e HUGE_2M_MASK) 0x1000 (Z.lor (split_flags e) child_flags)
   else vpanic) ;;
  wr ea (Z.lor (Z.lor new_page flags) PRESENT) ;;
  invlpg (Z.land addr (not64 (Z.shiftl 1 (12 + level * 9) - 1))).

Definition ensure_table (ea flags level addr : Z) : VM Z :=
  let* cur := rd ea in
  (if pte_present cur then vret tt
   else
     let* page := alloc_table in
     wr ea (Z.lor (Z.lor page flags) PRESENT)) ;;
  let* e := rd ea in
  (if has e PS then split_entry ea flags level addr else vret tt) ;;
  let* e := rd ea in
  vret (Z.land e PHYS_ADDR_MASK).

(** [ensure_table] and the propagation of USER that follows it. *)
Definition descend (table idx table_flags user level virt : Z) : VM Z :=
  let* next := ensure_table (slot_addr table idx) table_flags level virt in
  let* e := rd (slot_addr table idx) in
  wr (slot_addr table idx) (Z.lor e user) ;;
  phys_to_virtual next.

(** The page table for [virt] below [pml4], created on the way. *)
Definition leaf_table (pml4 virt flags : Z) : VM Z :=
  let table_flags := Z.lor WRITABLE (Z.land flags USER) in
  let user := Z.land flags USER in
  let* pdp := descend pml4 (index_for_addr virt 3) table_flags user 2 virt in
  let* pd := descend pdp (index_for_addr virt 2) table_flags user 1 virt in
  descend pd (index_for_addr virt 1) table_flags user 0 virt.

Definition map_page (pml4 virt phys flags : Z) : VM unit :=
  let* pt := leaf_table pml4 virt flags in
  wr (slot_addr pt (index_for_addr virt 0)) (Z.lor phys flags).

(** The page-table slot for [virt]: the walk shared by [read_pte] and
    [write_pte], which stops at an entry of the first two levels with PS. *)
Definition pte_slot (pml4_phys virt : Z) : VM (option Z) :=
  let* pml4 := phys_to_virtual (Z.land pml4_phys PHYS_ADDR_MASK) in
  let* pdp_entry := rd (slot_addr pml4 (index_for_addr virt 3)) in
  if negb (pte_present pdp_entry) then vret None
  else if has pdp_entry PS then vret None
  else
    let* pdp := phys_to_virtual (Z.land pdp_entry PHYS_ADDR_MASK) in
    let* pd_entry := rd (slot_addr pdp (index_for_addr virt 2)) in
    if negb (pte_present pd_entry) then vret None
    else if has pd_entry PS then vret None
    else
      let* pd := phys_to_virtual (Z.land pd_entry PHYS_ADDR_MASK) in
      let* pt_phys := rd (slot_addr pd (index_for_addr virt 1)) in
      if negb (pte_present pt_phys) then vret None
      else
        let* pt := phys_to_virtual (Z.land pt_phys PHYS_ADDR_MASK) in
        vret (Some (slot_addr pt (index_for_addr virt 0))).

Definition read_pte (pml4_phys virt : Z) : VM (option Z) :=
  let* r := pte_slot pml4_phys virt in
  match r with
  | Some a => let* e := rd a in vret (Some e)
  | None => vret None
  end.

Definition write_pte (pml4_phys virt new_pte : Z) : VM (option unit) :=
  let* r := pte_slot pml4_phys virt in
  match r with
  | Some a => wr a new_pte ;; invlpg virt ;; vret (Some tt)
  | None => vret None
  end.

Definition map_page_explicit (cpu : nat) (pml4_phys virt phys flags : Z) : VM unit :=
  let* old_pte := read_pte pml4_phys virt in
  let* pml4 := phys_to_virtual pml4_phys in
  map_page pml4 virt phys flags ;;
  if (if old_pte is Some p then pte_present p else false) then tlb_shootdown cpu virt else vret tt.

Definition map_pages_from_phys (pml4_phys virt_start : Z) (phys_pages : list Z) (flags : Z) : VM unit :=
  let* pml4 := phys_to_virtual pml4_phys in
  vfor (imap pair phys_pages) (fun p =>
    map_page pml4 (virt_start +u64 (Z.of_nat (fst p) * PAGE_SIZE)) (snd p) flags).

(** One batch of [map_contiguous] per page table; the number of batches is at
    most the number of pages. *)
Fixpoint map_batches (fuel : nat) (pml4 virt phys remaining flags : Z) : VM unit :=
  match fuel with
  | O => vret tt
  | S fuel =>
    if remaining >? 0 then
      let pt_idx := index_for_addr virt 0 in
      let batch := Z.min (512 - pt_idx) remaining in
      let* pt := leaf_table pml4 virt flags in
      vfor (seqZ 0 batch) (fun i => wr (slot_addr pt (pt_idx + i)) (Z.lor (phys + i * PAGE_SIZE) flags)) ;;
      match checked_add 64 virt (batch * PAGE_SIZE), checked_add 64 phys (batch * PAGE_SIZE) with
      | Some v, Some p => map_batches fuel pml4 v p (remaining - batch) flags
      | _, _ => vpanic
      end
    else vret tt
  end.

Definition map_contiguous (pml4_phys virt_start phys_start num_pages flags : Z) : VM unit :=
  if num_pages =? 0 then vret tt
  else
    let map_len := num_pages * PAGE_SIZE in
    if map_len >=? 2 ^ 64 then vpanic
    else
      match checked_add 64 virt_start (map_len - PAGE_SIZE), checked_add 64 phys_start (map_len - PAGE_SIZE) with
      | Some _, Some _ =>
        let* pml4 := phys_to_virtual pml4_phys in
        map_batches (Z.to_nat num_pages) pml4 virt_start phys_start num_pages flags
      | _, _ => vpanic
      end.

Definition pages_of (size : Z) : Z := (size +u64 (PAGE_SIZE - 1)) / PAGE_SIZE.

Definition map_region (pml4_phys phys_start size flags : Z) : VM unit :=
  let* pml4 := phys_to_virtual pml4_phys in
  vfor (seqZ 0 (pages_of size)) (fun p =>
    let pa := phys_start +u64 (p * PAGE_SIZE) in
    map_page pml4 pa pa flags ;; map_page pml4 (HIGHER_HALF +u64 pa) pa flags).

Definition map_region_higher_half (pml4_phys phys_start size flags : Z) : VM unit :=
  let* pml4 := phys_to_virtual pml4_phys in
  vfor (seqZ 0 (pages_of size)) (fun p =>
    let pa := phys_start +u64 (p * PAGE_SIZE) in map_page pml4 (HIGHER_HALF +u64 pa) pa flags).

(** ** Queries *)

Definition is_nx (pml4_phys virt : Z) : VM bool :=
  let* pml4 := phys_to_virtual (Z.land pml4_phys PHYS_ADDR_MASK) in
  let* e4 := rd (slot_addr pml4 (index_for_addr virt 3)) in
  if negb (pte_present e4) then vret true
  else if has e4 PS then vret (has e4 NO_EXECUTE)
  else
    let* pdp := phys_to_virtual (Z.land e4 PHYS_ADDR_MASK) in
    let* e3 := rd (slot_addr pdp (index_for_addr virt 2)) in
    if negb (pte_present e3) then vret true
    else if has e3 PS then vret (has e3 NO_EXECUTE)
    else
      let* pd := phys_to_virtual (Z.land e3 PHYS_ADDR_MASK) in
      let* e2 := rd (slot_addr pd (index_for_addr virt 1)) in
      if negb (pte_present e2) then vret true
      else if has e2 PS then vret (has e2 NO_EXECUTE)
      else
        let* pt := phys_to_virtual (Z.land e2 PHYS_ADDR_MASK) in
        let* e1 := rd (slot_addr pt (index_for_addr virt 0)) in
        if negb (pte_present e1) then vret true else vret (has e1 NO_EXECUTE).

Definition translate (virt : Z) : VM (option Z) :=
  let* ready := vget PT_INITIALIZED in
  if negb ready then vret None
  else
    let* c := vget cr3 in
    let* pml4 := phys_to_virtual (Z.land c PHYS_ADDR_MASK) in
    let* pdp_entry := rd (slot_addr pml4 (index_for_addr virt 3)) in
    if negb (pte_present pdp_entry) then vret None
    else if has pdp_entry PS then
      vret (Some (Z.lor (Z.land pdp_entry HUGE_1G_MASK) (Z.land virt 0x3FFFFFFF)))
    else
      let* pdp := phys_to_virtual (Z.land pdp_entry PHYS_ADDR_MASK) in
      let* pd_entry := rd (slot_addr pdp (index_for_addr virt 2)) in
      if negb (pte_present pd_entry) then vret None
      else if has pd_entry PS then
        vret (Some (Z.lor (Z.land pd_entry HUGE_2M_MASK) (Z.land virt 0x1FFFFF)))
      else
        let* pd := phys_to_virtual (Z.land pd_entry PHYS_ADDR_MASK) in
        let* pt_phys := rd (slot_addr pd (index_for_addr virt 1)) in
        if negb (pte_present pt_phys) then vret None
        else
          let* pt := phys_to_virtual (Z.land pt_phys PHYS_ADDR_MASK) in
          let* page_entry := rd (slot_addr pt (index_for_addr virt 0)) in
          if negb (pte_present page_entry) then vret None
          else vret (Some (Z.lor (Z.land page_entry PHYS_ADDR_MASK) (Z.land virt 0xFFF))).

Definition current_pml4 : VM Z := vget cr3.
Definition switch_pml4 (pml4_phys : Z) : VM unit := vmod (fun s => with_cr3 s pml4_phys).

(** ** Unmapping *)

(** [if is_table_empty(t)]: the parent slot is cleared and the table is to be
    freed. *)
Definition drop_if_empty (table phys slot_a : Z) (up : VM (list Z)) : VM (list Z) :=
  let* empty := is_table_empty table in
  if empty then
    wr slot_a 0 ;;
    let* rest := up in vret (phys :: rest)
  else vret [].

Definition unmap (cpu : nat) (virt : Z) : VM unit :=
  let* ready := vget PT_INITIALIZED in
  if negb ready then vret tt
  else
    let* c := vget cr3 in
    let* pml4 := phys_to_virtual (Z.land c PHYS_ADDR_MASK) in
    let pml4_slot := slot_addr pml4 (index_for_addr virt 3) in
    let* pdp_entry := rd pml4_slot in
    if negb (pte_present pdp_entry) then vret tt
    else if has pdp_entry PS then wr pml4_slot 0 ;; invlpg virt ;; tlb_shootdown cpu virt
    else
      let* pdp := phys_to_virtual (Z.land pdp_entry PHYS_ADDR_MASK) in
      let pdp_slot := slot_addr pdp (index_for_addr virt 2) in
      let* pd_entry := rd pdp_slot in
      if negb (pte_present pd_entry) then vret tt
      else if has pd_entry PS then wr pdp_slot 0 ;; invlpg virt ;; tlb_shootdown cpu virt
      else
        let* pd := phys_to_virtual (Z.land pd_entry PHYS_ADDR_MASK) in
        let pd_slot := slot_addr pd (index_for_addr virt 1) in
        let* pt_entry := rd pd_slot in
        if negb (pte_present pt_entry) then vret tt
        else
          let* pt := phys_to_virtual (Z.land pt_entry PHYS_ADDR_MASK) in
          wr (slot_addr pt (index_for_addr virt 0)) 0 ;;
          let* to_free :=
            drop_if_empty pt (Z.land pt_entry PHYS_ADDR_MASK) pd_slot
              (drop_if_empty pd (Z.land pd_entry PHYS_ADDR_MASK) pdp_slot
                (drop_if_empty pdp (Z.land pdp_entry PHYS_ADDR_MASK) pml4_slot (vret []))) in
          invlpg virt ;; tlb_shootdown cpu virt ;;
          vfor to_free (fun p => if p =? 0 then vret tt else release p).

Definition unmap_from_huge_page (cpu : nat) (virt : Z) : VM unit :=
  let* ready := vget PT_INITIALIZED in
  if negb ready then vret tt
  else
    let* c := vget cr3 in
    let* pml4 := phys_to_virtual (Z.land c PHYS_ADDR_MASK) in
    let pml4_slot := slot_addr pml4 (index_for_addr virt 3) in
    let* pdp_entry := rd pml4_slot in
    if negb (pte_present pdp_entry) then vret tt
    else if has pdp_entry PS then wr pml4_slot 0 ;; tlb_flush_and_shootdown cpu virt
    else
      let* pdp := phys_to_virtual (Z.land pdp_entry PHYS_ADDR_MASK) in
      let pdp_slot := slot_addr pdp (index_for_addr virt 2) in
      let* pd_entry := rd pdp_slot in
      if negb (pte_present pd_entry) then vret tt
      else if has pd_entry PS then
        let huge_phys_base := Z.land pd_entry PHYS_ADDR_MASK in
        let huge_flags := Z.land (Z.land pd_entry ENTRY_FLAG_MASK) (not64 PS) in
        let* r := alloc in
        match r with
        | None => vret tt
        | Some pt_page =>
          new_zeroed pt_page ;;
          fill_split pt_page huge_phys_base PAGE_SIZE huge_flags ;;
          wr pdp_slot (Z.lor pt_page (Z.land (Z.land pd_entry ENTRY_FLAG_MASK) (not64 PS))) ;;
          let* pt := phys_to_virtual pt_page in
          wr (slot_addr pt (index_for_addr virt 0)) 0 ;;
          tlb_flush_and_shootdown cpu virt
        end
      else
        let* pd := phys_to_virtual (Z.land pd_entry PHYS_ADDR_MASK) in
        let* pt_entry := rd (slot_addr pd (index_for_addr virt 1)) in
        if negb (pte_present pt_entry) then vret tt
        else
          let* pt := phys_to_virtual (Z.land pt_entry PHYS_ADDR_MASK) in
          wr (slot_addr pt (index_for_addr virt 0)) 0 ;;
          tlb_flush_and_shootdown cpu virt.

(** ** Copying address spaces *)

Definition vref_page (pn : Z) : VM unit := vmod (fun s => with_vphys s (ref_page (vphys s) pn)).

(** A leaf entry in the copy: writable user pages become read-only with COW
    and their frame gets one more reference. *)
Definition copy_leaf (cow : bool) (entry : Z) : VM Z :=
  if cow && has entry WRITABLE && has entry USER then
    vref_page (Z.land entry PHYS_ADDR_MASK / PAGE_SIZE) ;;
    vret (Z.lor (Z.land entry (not64 WRITABLE)) COW)
  else vret entry.

(** [level] is 0 for a page table, 2 for a PDP. *)
Fixpoint copy_table_recursive (level : nat) (src_phys : Z) (cow : bool) : VM (option Z) :=
  let* src := phys_to_virtual src_phys in
  let* r := alloc in
  match r with
  | None => vret None
  | Some new_phys =>
    let* new := phys_to_virtual new_phys in
    new_zeroed new ;;
    let* ok := vfor_opt indices (fun i =>
      let* entry := rd (slot_addr src i) in
      if negb (pte_present entry) then vret (Some tt)
      else
        match level with
        | O => let* e := copy_leaf cow entry in wr (slot_addr new i) e ;; vret (Some tt)
        | S level' =>
          if has entry PS then
            let* e := copy_leaf cow entry in wr (slot_addr new i) e ;; vret (Some tt)
          else
            let* child := copy_table_recursive level' (Z.land entry PHYS_ADDR_MASK) cow in
            match child with
            | Some child_dst =>
              wr (slot_addr new i) (Z.lor child_dst (Z.land entry ENTRY_FLAG_MASK)) ;; vret (Some tt)
            | None => vret None
            end
        end) in
    vret (if ok is Some _ then Some new_phys else None)
  end.

Definition copy_kernel_low_identity (src dst : Z) : VM (option unit) :=
  let* pml4_entry := rd (slot_addr src 0) in
  if negb (pte_present pml4_entry) || has pml4_entry PS then vret (Some tt)
  else
    let* src_pdp := phys_to_virtual (Z.land pml4_entry PHYS_ADDR_MASK) in
    let* pdp_entry := rd (slot_addr src_pdp 0) in
    if negb (pte_present pdp_entry) || has pdp_entry PS then vret (Some tt)
    else
      let* r1 := alloc in
      match r1 with
      | None => vret None
      | Some new_pdp_phys =>
        let* r2 := alloc in
        match r2 with
        | None => release new_pdp_phys ;; vret None
        | Some new_pd_phys =>
          let* new_pdp := phys_to_virtual new_pdp_phys in
          let* new_pd := phys_to_virtual new_pd_phys in
          new_zeroed new_pdp ;; new_zeroed new_pd ;;
          let* src_pd := phys_to_virtual (Z.land pdp_entry PHYS_ADDR_MASK) in
          let* ok := vfor_opt (seqZ 0 (Z.shiftr USER_IMAGE_BASE 21)) (fun i =>
            let* entry := rd (slot_addr src_pd i) in
            if pte_present entry && negb (has entry PS) then
              let* child := copy_table_recursive 0 (Z.land entry PHYS_ADDR_MASK) false in
              match child with
              | Some child_dst =>
                wr (slot_addr new_pd i) (Z.lor child_dst (Z.land entry ENTRY_FLAG_MASK)) ;; vret (Some tt)
              | None => vret None
              end
            else wr (slot_addr new_pd i) entry ;; vret (Some tt)) in
          match ok with
          | None => vret None
          | Some _ =>
            wr (slot_addr new_pdp 0) (Z.lor new_pd_phys (Z.land pdp_entry ENTRY_FLAG_MASK)) ;;
            wr (slot_addr dst 0) (Z.lor new_pdp_phys (Z.land pml4_entry ENTRY_FLAG_MASK)) ;;
            vret (Some tt)
          end
        end
      end.

Definition fork_pml4 (src_phys : Z) : VM (option Z) :=
  let* src := phys_to_virtual src_phys in
  let* r := alloc in
  match r with
  | None => vret None
  | Some new_phys =>
    let* new := phys_to_virtual new_phys in
    new_zeroed new ;;
    let* k := vget KERNEL_PML4 in
    let fork_from_kernel := src_phys =? k in
    let* low := if fork_from_kernel then copy_kernel_low_identity src new else vret (Some tt) in
    match low with
    | None => vret None
    | Some _ =>
      let* ok := vfor_opt indices (fun i =>
        if fork_from_kernel && (i <? 256) then vret (Some tt)
        else
          let* entry := rd (slot_addr src i) in
          if negb (pte_present entry) then vret (Some tt)
          else if i >=? 256 then wr (slot_addr new i) entry ;; vret (Some tt)
          else if has entry PS then wr (slot_addr new i) entry ;; vret (Some tt)
          else
            let* child := copy_table_recursive 2 (Z.land entry PHYS_ADDR_MASK) true in
            match child with
            | Some child_dst =>
              wr (slot_addr new i) (Z.lor child_dst (Z.land entry ENTRY_FLAG_MASK)) ;; vret (Some tt)
            | None => vret None
            end) in
      vret (if ok is Some _ then Some new_phys else None)
    end
  end.

Fixpoint free_table_recursive (level : nat) (table_phys : Z) : VM unit :=
  let* table := phys_to_virtual table_phys in
  vfor indices (fun i =>
    let* entry := rd (slot_addr table i) in
    if negb (pte_present entry) then vret tt
    else
      match level with
      | O => vret tt
      | S level' =>
        if has entry PS then vret tt else free_table_recursive level' (Z.land entry PHYS_ADDR_MASK)
      end) ;;
  release table_phys.

(** The reload of CR3 when the freed table is the loaded one is logged as a
    flush of everything. *)
Definition free_pml4 (pml4_phys : Z) : VM unit :=
  let* table := phys_to_virtual pml4_phys in
  vfor (seqZ 0 256) (fun i =>
    let* entry := rd (slot_addr table i) in
    if pte_present entry && negb (has entry PS)
    then free_table_recursive 2 (Z.land entry PHYS_ADDR_MASK) else vret tt) ;;
  release pml4_phys ;;
  let* c := vget cr3 in
  if pml4_phys =? c then invlpg U64_MAX else vret tt.

(** ** Boot: tables built through the firmware's identity map *)

Definition id_alloc_table : VM Z := let* page := vexpect alloc in new_zeroed page ;; vret page.

Definition id_ensure_table (ea flags level : Z) : VM Z :=
  let* cur := rd ea in
  (if pte_present cur then vret tt
   else let* page := id_alloc_table in wr ea (Z.lor (Z.lor page flags) PRESENT)) ;;
  let* e := rd ea in
  (if has e PS then
     let* new_page := id_alloc_table in
     (if level =? 2 then
        fill_split new_page (Z.land e HUGE_1G_MASK) 0x200000 (Z.lor (Z.lor (split_flags e) PRESENT) PS)
      else if (level =? 1) || (level =? 0) then
        fill_split new_page (Z.land e HUGE_2M_MASK) 0x1000 (Z.lor (split_flags e) PRESENT)
      else vpanic) ;;
     wr ea (Z.lor (Z.lor new_page flags) PRESENT)
   else vret tt) ;;
  let* e := rd ea in
  vret (Z.land e PHYS_ADDR_MASK).

Definition id_map_page (pml4 virt phys flags : Z) : VM unit :=
  let* pdp := id_ensure_table (slot_addr pml4 (index_for_addr virt 3)) WRITABLE 2 in
  let* pd := id_ensure_table (slot_addr pdp (index_for_addr virt 2)) WRITABLE 1 in
  let* pt := id_ensure_table (slot_addr pd (index_for_addr virt 1)) WRITABLE 0 in
  wr (slot_addr pt (index_for_addr virt 0)) (Z.lor phys flags).

Definition id_map_huge_2mb (pml4 virt phys flags : Z) : VM unit :=
  let* pdp := id_ensure_table (slot_addr pml4 (index_for_addr virt 3)) WRITABLE 2 in
  let* pd := id_ensure_table (slot_addr pdp (index_for_addr virt 2)) WRITABLE 1 in
  wr (slot_addr pd (index_for_addr virt 1)) (Z.lor (Z.lor phys flags) PS).

(** [while addr < bound { map 4 KB; addr += PAGE_SIZE }]: the next address. *)
Fixpoint map_small (fuel : nat) (pml4 addr bound flags : Z) : VM Z :=
  match fuel with
  | O => vret addr
  | S fuel =>
    if addr <? bound then
      id_map_page pml4 (HIGHER_HALF +u64 addr) addr flags ;; map_small fuel pml4 (addr +u64 PAGE_SIZE) bound flags
    else vret addr
  end.

(** [while addr + 2 MB <= end { map 2 MB; addr += 2 MB }] *)
Fixpoint map_huge (fuel : nat) (pml4 addr region_end flags : Z) : VM Z :=
  match fuel with
  | O => vret addr
  | S fuel =>
    if addr + 0x200000 <=? region_end then
      id_map_huge_2mb pml4 (HIGHER_HALF +u64 addr) addr flags ;;
      map_huge fuel pml4 (addr +u64 0x200000) region_end flags
    else vret addr
  end.

(** One region in the higher half: 4 KB pages up to a 2 MB boundary, 2 MB
    pages, the rest in 4 KB pages.  The fuel is the number of pages of the
    region, which bounds each loop. *)
Definition map_span (pml4 start size flags : Z) : VM unit :=
  let region_end := start +u64 size in
  let fuel := Z.to_nat (size / PAGE_SIZE + 1) in
  let aligned := Z.land (start +u64 0x1FFFFF) (not64 0x1FFFFF) in
  let* a1 := map_small fuel pml4 start (Z.min aligned region_end) flags in
  let* a2 := map_huge fuel pml4 a1 region_end flags in
  let* _ := map_small fuel pml4 a2 region_end flags in
  vret tt.

(** The identity map of the first 4 GB in 2 MB pages; the page that holds the
    LAPIC registers is not cached. *)
Definition identity_entry (phys : Z) : Z :=
  let flags := Z.lor (Z.lor WRITABLE PRESENT) PS in
  Z.lor phys (if (phys <=? 0xFEE00000) && (0xFEE00000 <? phys + 0x200000) then Z.lor flags CACHE_DISABLE else flags).

Definition build_identity (pml4 : Z) : VM unit :=
  let* pdp_page := id_alloc_table in
  vfor (seqZ 0 4) (fun pdp_idx =>
    let* pd_page := id_alloc_table in
    vfor indices (fun e => wr (slot_addr pd_page e) (identity_entry (pdp_idx * 0x40000000 + e * 0x200000))) ;;
    wr (slot_addr pdp_page pdp_idx) (Z.lor (Z.lor pd_page WRITABLE) PRESENT)) ;;
  wr (slot_addr pml4 0) (Z.lor (Z.lor pdp_page WRITABLE) PRESENT).

Definition init (regions : list (Z * Z)) (fb_phys kernel_phys : option (Z * Z)) : VM unit :=
  let* ready := vget PT_INITIALIZED in
  if ready then vret tt
  else
    let* pml4 := id_alloc_table in
    vfor regions (fun r => map_span pml4 (fst r) (snd r) DATA) ;;
    (if kernel_phys is Some (kstart, ksize) then map_span pml4 kstart ksize CODE else vret tt) ;;
    build_identity pml4 ;;
    (if fb_phys is Some (fb_base, fb_size) then
       vfor (seqZ 0 (pages_of fb_size)) (fun p =>
         let pa := fb_base +u64 (p * PAGE_SIZE) in id_map_page pml4 (HIGHER_HALF +u64 pa) pa DATA)
     else vret tt) ;;
    vmod (fun s => with_init (with_cr3 s pml4) pml4).

(** ** The rescue address space of the terminal *)

(** A copy of the table at [src] whose present entries are copied by [f];
    [f] gets the new table and the index. *)
Definition rescue_copy (src_phys : Z) (f : Z -> Z -> Z -> VM unit) : VM Z :=
  let* src := phys_to_virtual src_phys in
  let* new_page := alloc_table in
  let* new := phys_to_virtual new_page in
  vfor indices (fun i =>
    let* e := rd (slot_addr src i) in
    if pte_present e then f new i e else vret tt) ;;
  vret new_page.

(** Huge pages are copied as they are, tables recursively. *)
Definition rescue_sub (copy : Z -> VM Z) (new i e : Z) : VM unit :=
  if has e PS then wr (slot_addr new i) e
  else
    let* child := copy (Z.land e PHYS_ADDR_MASK) in
    wr (slot_addr new i) (Z.lor child (Z.land e ENTRY_FLAG_MASK)).

(** All 512 entries, present or not. *)
Definition rescue_all (src_phys : Z) : VM Z :=
  let* src := phys_to_virtual src_phys in
  let* new_page := alloc_table in
  let* new := phys_to_virtual new_page in
  vfor indices (fun i => let* e := rd (slot_addr src i) in wr (slot_addr new i) e) ;;
  vret new_page.

Definition rescue_pd (src : Z) : VM Z := rescue_copy src (rescue_sub rescue_all).
Definition rescue_pdp (src : Z) : VM Z := rescue_copy src (rescue_sub rescue_pd).

(** PML4 slot 0: the four PDs of the identity map, copied entry by entry. *)
Definition rescue_identity (src new : Z) : VM unit :=
  let* e := rd (slot_addr src 0) in
  if pte_present e && negb (has e PS) then
    let* src_pdp := phys_to_virtual (Z.land e PHYS_ADDR_MASK) in
    let* new_page := alloc_table in
    let* new_pdp := phys_to_virtual new_page in
    vfor (seqZ 0 4) (fun i =>
      let* pe := rd (slot_addr src_pdp i) in
      if negb (pte_present pe) || has pe PS then vret tt
      else
        let* pd := rescue_all (Z.land pe PHYS_ADDR_MASK) in
        wr (slot_addr new_pdp i) (Z.lor pd (Z.land pe ENTRY_FLAG_MASK))) ;;
    wr (slot_addr new 0) (Z.lor new_page (Z.land e ENTRY_FLAG_MASK))
  else vret tt.

Definition katerm_pml4_init (kernel_pml4_phys : Z) : VM Z :=
  let* src := phys_to_virtual kernel_pml4_phys in
  let* new_page := alloc_table in
  let* new := phys_to_virtual new_page in
  vfor (seqZ 256 256) (fun i =>
    let* e := rd (slot_addr src i) in
    if pte_present e then
      let* pdp := rescue_pdp (Z.land e PHYS_ADDR_MASK) in
      wr (slot_addr new i) (Z.lor pdp (Z.land e ENTRY_FLAG_MASK))
    else vret tt) ;;
  rescue_identity src new ;;
  let* stack_page := vexpect alloc in
  map_page new KATERM_STACK_VIRT stack_page (Z.lor PRESENT WRITABLE) ;;
  vmod (fun s => with_katerm_top s (KATERM_STACK_VIRT + PAGE_SIZE)) ;;
  vret new_page.
