(* ===== verification/VirtTree.v ===== *)
(** The tree of page tables that a PML4 roots, and how extending it changes
    what addresses map to.

    [tree w root T] relates the memory words [w] to a finite map [T] from
    index paths (most significant index first) to table addresses: [T] holds
    exactly the tables reachable from [root], at pairwise distinct pages. *)
From stdpp Require Import base tactics numbers list gmap.
From Stdlib Require Import ZArith Lia.
From S2P Require Import Prelude Phys PhysInv PhysSpec KMem Percpu Virt.

Local Open Scope Z_scope.

(** ** Entries as bit fields *)

Lemma page_low page x : page mod 4096 = 0 -> 0 <= x < 4096 -> Z.land page x = 0.
Proof.
  intros Hp Hx. replace page with (page / 4096 * 2 ^ 12) by div_lia. apply Z.bits_inj'. intros n Hn.
  rewrite Z.land_spec, Z.bits_0. destruct (Z.lt_ge_cases n 12).
  - by rewrite Z.mul_pow2_bits_low.
  - rewrite <-(Z.mod_small x (2 ^ 12)), Z.mod_pow2_bits_high by lia. apply andb_false_r.
Qed.

Lemma mask_bits n : 0 <= n -> Z.testbit PHYS_ADDR_MASK n = (12 <=? n) && (n <? 52).
Proof.
  intros Hn. change PHYS_ADDR_MASK with (Z.shiftl (Z.ones 40) 12). rewrite Z.shiftl_spec by lia.
  destruct (Z.leb_spec 12 n); [|by rewrite Z.testbit_neg_r by lia].
  rewrite Z.testbit_ones_nonneg by lia. destruct (Z.ltb_spec (n - 12) 40), (Z.ltb_spec n 52); try lia; done.
Qed.

Lemma page_mask page : page mod 4096 = 0 -> 0 <= page < 2 ^ 52 -> Z.land page PHYS_ADDR_MASK = page.
Proof.
  intros Hp Hb. apply Z.bits_inj'. intros n Hn. rewrite Z.land_spec, mask_bits by done.
  destruct (Z.leb_spec 12 n); simpl.
  - destruct (Z.ltb_spec n 52); [apply andb_true_r|]. rewrite andb_false_r.
    by rewrite <-(Z.mod_small page (2 ^ 52)), Z.mod_pow2_bits_high by lia.
  - rewrite andb_false_r. replace page with (page / 4096 * 2 ^ 12) by div_lia. by rewrite Z.mul_pow2_bits_low.
Qed.

Lemma low_mask x : 0 <= x < 4096 -> Z.land x PHYS_ADDR_MASK = 0.
Proof. intros Hx. rewrite Z.land_comm. by apply page_low. Qed.

(** An entry that points to a table, and one that maps a huge page. *)
Definition is_child (e : Z) : bool := pte_present e && negb (has e PS).
Definition is_huge (e : Z) : bool := pte_present e && has e PS.

Lemma child_or e : is_child e = false -> is_huge e = false -> pte_present e = false.
Proof. unfold is_child, is_huge. by destruct (pte_present e), (has e PS). Qed.

(** The entry written for a new table. *)
Lemma new_entry_ok page f :
  page mod 4096 = 0 -> 0 <= page < 2 ^ 52 -> f = 2 \/ f = 6 ->
  let e := Z.lor (Z.lor page f) PRESENT in is_child e = true /\ Z.land e PHYS_ADDR_MASK = page.
Proof.
  intros Hp Hb Hf. cbv zeta. unfold is_child, pte_present, has. rewrite !Z.land_lor_distr_l.
  rewrite (page_mask page), !(page_low page) by (done || (unfold PRESENT, PS; lia)).
  destruct Hf as [-> | ->]; (split; [done|]); by rewrite !Z.lor_0_r.
Qed.

(** Adding USER to an entry changes neither its kind nor its target. *)
Lemma user_entry_ok e u :
  u = 0 \/ u = 4 ->
  is_child (Z.lor e u) = is_child e /\ is_huge (Z.lor e u) = is_huge e /\
  Z.land (Z.lor e u) PHYS_ADDR_MASK = Z.land e PHYS_ADDR_MASK.
Proof.
  intros Hu. unfold is_child, is_huge, pte_present, has. rewrite !Z.land_lor_distr_l.
  assert (Z.land u PRESENT = 0 /\ Z.land u PS = 0 /\ Z.land u PHYS_ADDR_MASK = 0) as (-> & -> & ->)
    by by destruct Hu as [-> | ->].
  by rewrite !Z.lor_0_r.
Qed.

Lemma user_bit flags : Z.land flags USER = 0 \/ Z.land flags USER = 4.
Proof.
  change USER with (2 ^ 2). destruct (Z.testbit flags 2) eqn:E; [right|left]; apply Z.bits_inj'; intros n Hn;
    rewrite Z.land_spec, Z.pow2_bits_eqb by lia; (destruct (Z.eqb_spec 2 n) as [<-|]; [rewrite E|rewrite andb_false_r]).
  - done.
  - change 4 with (2 ^ 2). rewrite Z.pow2_bits_eqb by lia. by destruct (Z.eqb_spec 2 n).
  - by rewrite Z.bits_0.
  - by rewrite Z.bits_0.
Qed.

Lemma index_bound v k : 0 <= index_for_addr v k < 512.
Proof.
  unfold index_for_addr. change 511 with (Z.ones 9). rewrite Z.land_ones by lia. apply Z.mod_pos_bound. lia.
Qed.

(** ** Words *)

Definition entry (w : gmap Z Z) (t i : Z) : Z := default 0 (w !! slot_addr t i).

(** A page the direct map reaches. *)
Definition table_ok (t : Z) : Prop := t mod 4096 = 0 /\ 0 <= t < DIRECT_MAP_SIZE.

Lemma slot_addr_inj t t' i i' :
  table_ok t -> table_ok t' -> 0 <= i < 512 -> 0 <= i' < 512 -> slot_addr t i = slot_addr t' i' -> t = t' /\ i = i'.
Proof. unfold table_ok, slot_addr. intros. div_lia. Qed.

Lemma entry_insert w t i e t' i' :
  table_ok t -> table_ok t' -> 0 <= i < 512 -> 0 <= i' < 512 ->
  entry (<[slot_addr t i := e]> w) t' i' = if decide (t = t' /\ i = i') then e else entry w t' i'.
Proof.
  intros Ht Ht' Hi Hi'. unfold entry. case_decide as Hd.
  - destruct Hd as [<- <-]. by rewrite lookup_insert_eq.
  - rewrite lookup_insert_ne; [done|]. intros He. apply Hd. by apply slot_addr_inj.
Qed.

Lemma entry_zero w t t' i :
  table_ok t -> table_ok t' -> 0 <= i < 512 -> entry (zero_words w t) t' i = if decide (t = t') then 0 else entry w t' i.
Proof.
  intros Ht Ht' Hi. unfold zero_words.
  assert (forall l w, Forall (fun j => 0 <= j < 512) l ->
    entry (fold_left (fun w i => <[slot_addr t i := 0]> w) l w) t' i =
    if decide (t = t' /\ i ∈ l) then 0 else entry w t' i) as H.
  { clear w. induction l as [|j l IH]; intros w Hl; simpl; [by rewrite decide_False by set_solver|].
    apply Forall_cons in Hl as [Hj Hl]. rewrite IH, entry_insert by done.
    repeat case_decide; try done; set_solver. }
  assert (i ∈ indices) by (unfold indices; apply elem_of_seqZ; lia).
  rewrite H; [by repeat case_decide; tauto|]. apply Forall_forall. intros j Hj%elem_of_seqZ. lia.
Qed.

Lemma table_mask t : table_ok t -> Z.land t PHYS_ADDR_MASK = t.
Proof. intros [Ha Hb]. apply page_mask; [done|]. unfold DIRECT_MAP_SIZE in Hb. lia. Qed.

Lemma phys_to_virtual_ok t s : table_ok t -> phys_to_virtual t s = Some (t, s).
Proof.
  intros [Hm Hb]. unfold phys_to_virtual. destruct (Z.geb_spec t HIGHER_HALF) as [H|H]; [unfold HIGHER_HALF, DIRECT_MAP_SIZE in *; lia|].
  rewrite page_mask by (done || (unfold DIRECT_MAP_SIZE in *; lia)). by destruct (Z.geb_spec t DIRECT_MAP_SIZE); [lia|].
Qed.

(** ** The tree *)

Record tree (w : gmap Z Z) (root : Z) (T : gmap (list Z) Z) : Prop := {
  t_root : T !! [] = Some root;
  t_table : forall p t, T !! p = Some t -> table_ok t;
  t_len : forall p t, T !! p = Some t -> (length p <= 3)%nat;
  t_inj : forall p q t, T !! p = Some t -> T !! q = Some t -> p = q;
  t_closed : forall p i c, T !! (p ++ [i]) = Some c -> 0 <= i < 512 /\ exists t, T !! p = Some t;
  t_child : forall p t i, T !! p = Some t -> (length p < 3)%nat -> 0 <= i < 512 ->
    T !! (p ++ [i]) = if is_child (entry w t i) then Some (Z.land (entry w t i) PHYS_ADDR_MASK) else None;
}.

Lemma tree_prefix w root T p q t : tree w root T -> T !! (p ++ q) = Some t -> exists t', T !! p = Some t'.
Proof.
  intros HT. revert t. induction q as [|i q IH] using rev_ind; intros t Hq; [rewrite app_nil_r in Hq; eauto|].
  rewrite app_assoc in Hq. destruct (t_closed _ _ _ HT _ _ _ Hq) as (_ & t' & Ht'). eauto.
Qed.

(** Changing an entry without changing which table it points to. *)
Lemma tree_update w root T p t i e :
  tree w root T -> T !! p = Some t -> 0 <= i < 512 ->
  ((length p < 3)%nat -> is_child e = is_child (entry w t i) /\ Z.land e PHYS_ADDR_MASK = Z.land (entry w t i) PHYS_ADDR_MASK) ->
  tree (<[slot_addr t i := e]> w) root T.
Proof.
  intros HT Hp Hi He. pose proof HT as [H1 H2 H3 H4 H5 H6]. split; try done. intros q t' j Hq Hlen Hj.
  rewrite entry_insert by eauto. rewrite (H6 q t' j) by done. case_decide as Hd; [|done].
  destruct Hd as [<- <-]. assert (q = p) as -> by eauto. destruct He as [-> ->]; done.
Qed.

(** Hanging a zeroed page below a slot that had no table. *)
Lemma tree_extend w root T p t i c e :
  tree w root T -> T !! p = Some t -> (length p < 3)%nat -> 0 <= i < 512 -> is_child (entry w t i) = false ->
  table_ok c -> (forall q, T !! q <> Some c) -> is_child e = true -> Z.land e PHYS_ADDR_MASK = c ->
  tree (<[slot_addr t i := e]> (zero_words w c)) root (<[p ++ [i] := c]> T).
Proof.
  intros HT Hp Hlen Hi Hno Hc Hfresh He Hec. pose proof HT as [H1 H2 H3 H4 H5 H6].
  assert (T !! (p ++ [i]) = None) as Hnone by (rewrite (H6 p t i) by done; by rewrite Hno).
  assert (t <> c) as Htc by (intros <-; by eapply Hfresh).
  split.
  - rewrite lookup_insert_ne; [done|]. by destruct p.
  - intros q t' [[<- <-]|[_ Hq]]%lookup_insert_Some; eauto.
  - intros q t' [[<- _]|[_ Hq]]%lookup_insert_Some; [rewrite length_app; simpl; lia|eauto].
  - intros q q' t' [[<- <-]|[Hq Hq2]]%lookup_insert_Some [[<- ?]|[Hq' Hq2']]%lookup_insert_Some; [done| | |eauto].
    + by destruct (Hfresh q').
    + destruct (Hfresh q). congruence.
  - intros q j c' [[Heq <-]|[_ Hq]]%lookup_insert_Some.
    + apply app_inj_tail in Heq as [<- <-]. split; [done|]. exists t. rewrite lookup_insert_ne; [done|].
      intros Heq. apply (f_equal length) in Heq. rewrite length_app in Heq. simpl in Heq. lia.
    + destruct (H5 q j c' Hq) as [Hj [t' Ht']]. split; [done|]. destruct (decide (q = p ++ [i])) as [->|Hne].
      * congruence.
      * exists t'. by rewrite lookup_insert_ne.
  - intros q t' j [[<- <-]|[Hq Hq2]]%lookup_insert_Some Hql Hj.
    + rewrite entry_insert by eauto. rewrite decide_False by tauto. rewrite entry_zero by done.
      rewrite decide_True by done. rewrite lookup_insert_ne by (intros Heq; apply (f_equal length) in Heq; rewrite !length_app in Heq; simpl in Heq; lia).
      change (is_child 0) with false. cbn match. destruct (T !! ((p ++ [i]) ++ [j])) eqn:E; [|done].
      apply H5 in E as (_ & t' & Ht'). congruence.
    + assert (t' <> c) as Htc' by (intros ->; by eapply Hfresh).
      rewrite entry_insert by eauto. case_decide as Hd.
      * destruct Hd as [<- <-]. assert (q = p) as -> by eauto. by rewrite lookup_insert_eq, He, Hec.
      * rewrite entry_zero by eauto. rewrite decide_False by done. rewrite lookup_insert_ne; [by apply H6|].
        intros Heq. apply app_inj_tail in Heq as [<- <-]. rewrite Hp in Hq2. apply Hd. split; congruence.
Qed.

(** ** What growing a tree keeps *)

Record grow (w : gmap Z Z) (T : gmap (list Z) Z) (w' : gmap Z Z) (T' : gmap (list Z) Z) : Prop := {
  g_sub : forall p t, T !! p = Some t -> T' !! p = Some t;
  g_leaf : forall q t j, length q = 3%nat -> T' !! q = Some t -> 0 <= j < 512 ->
    entry w' t j = if T !! q is Some _ then entry w t j else 0;
  g_huge : forall q t j, (length q < 3)%nat -> T' !! q = Some t -> 0 <= j < 512 -> is_huge (entry w' t j) = true ->
    T !! q = Some t /\ is_huge (entry w t j) = true;
}.

Lemma grow_refl w T : grow w T w T.
Proof. split; [done| |done]. intros q t j _ ->. done. Qed.

Lemma grow_trans w1 T1 w2 T2 w3 T3 : grow w1 T1 w2 T2 -> grow w2 T2 w3 T3 -> grow w1 T1 w3 T3.
Proof.
  intros [A1 A2 A3] [B1 B2 B3]. split; [eauto| |].
  - intros q t j Hl Hq Hj. rewrite (B2 q t j) by done. destruct (T2 !! q) as [t2|] eqn:E2.
    + assert (t2 = t) as -> by (apply B1 in E2; congruence). by apply A2.
    + destruct (T1 !! q) as [t1|] eqn:E1; [apply A1 in E1; congruence|done].
  - intros q t j Hl Hq Hj Hh. destruct (B3 q t j) as [H1 H2]; [done..|]. by apply A3.
Qed.

(** Changing the flags of an entry above the leaves. *)
Lemma grow_update w root T p t i e :
  tree w root T -> T !! p = Some t -> (length p < 3)%nat -> 0 <= i < 512 ->
  is_huge e = is_huge (entry w t i) -> grow w T (<[slot_addr t i := e]> w) T.
Proof.
  intros HT Hp Hl Hi He. pose proof (t_table _ _ _ HT) as Htab. split; [done| |].
  - intros q t' j Hq3 Hq Hj. rewrite Hq, entry_insert by eauto. case_decide as Hd; [|done].
    destruct Hd as [<- <-]. assert (p = q) as -> by by eapply t_inj. lia.
  - intros q t' j Hq3 Hq Hj. rewrite entry_insert by eauto. case_decide as Hd; [|done].
    destruct Hd as [<- <-]. by rewrite He.
Qed.

Lemma grow_extend w root T p t i c e :
  tree w root T -> T !! p = Some t -> (length p < 3)%nat -> 0 <= i < 512 -> is_child (entry w t i) = false ->
  table_ok c -> (forall q, T !! q <> Some c) -> is_child e = true ->
  grow w T (<[slot_addr t i := e]> (zero_words w c)) (<[p ++ [i] := c]> T).
Proof.
  intros HT Hp Hl Hi Hno Hc Hfresh He. pose proof (t_table _ _ _ HT) as Htab.
  assert (T !! (p ++ [i]) = None) as Hnone by (rewrite (t_child _ _ _ HT p t i) by done; by rewrite Hno).
  assert (t <> c) as Htc by (intros <-; by eapply Hfresh). split.
  - intros q t' Hq. rewrite lookup_insert_ne; [done|]. congruence.
  - intros q t' j Hq3 [[<- <-]|[Hne Hq]]%lookup_insert_Some Hj.
    + rewrite Hnone, entry_insert by eauto. rewrite decide_False by tauto.
      rewrite entry_zero by done. by rewrite decide_True.
    + rewrite Hq, entry_insert by eauto. case_decide as Hd.
      * destruct Hd as [<- <-]. assert (p = q) as -> by by eapply t_inj. lia.
      * rewrite entry_zero by eauto. rewrite decide_False; [done|]. intros ->. by eapply Hfresh.
  - intros q t' j Hq3 [[<- <-]|[Hne Hq]]%lookup_insert_Some Hj.
    + rewrite entry_insert by eauto. rewrite decide_False by tauto.
      rewrite entry_zero by done. by rewrite decide_True.
    + rewrite entry_insert by eauto. case_decide as Hd.
      * unfold is_child, is_huge in *. by destruct (pte_present e), (has e PS).
      * rewrite entry_zero by eauto. rewrite decide_False; [done|]. intros ->. by eapply Hfresh.
Qed.
