(* ===== verification/VirtThms.v ===== *)
(** Mapping, reading back and unmapping pages: the operations of [Virt] on
    the trees of [VirtTree]. *)
From stdpp Require Import base tactics numbers list gmap.
From Stdlib Require Import ZArith Lia.
From S2P Require Import Prelude Phys PhysInv PhysSpec PhysThms KMem Percpu Virt VirtTree.

Local Open Scope Z_scope.
Local Opaque zero_words.

(** A tree of tables beside the free pages [P] of the allocator. *)
Record vinv (s : Virt) (P : list Z) (root : Z) (T : gmap (list Z) Z) : Prop := {
  vi_tree : tree (words s) root T;
  vi_phys : phys_inv (vphys s) P;
  vi_taken : forall p t, T !! p = Some t -> t / PAGE_SIZE ∉ P;
  vi_small : forall pn, pn ∈ P -> 0 < pn < DIRECT_MAP_SIZE / PAGE_SIZE;
}.

Lemma alloc_page_ok p P :
  phys_inv p P -> P <> [] ->
  exists a p' P', alloc_page p = (Some a, p') /\ phys_inv p' P' /\ P ≡ₚ a / PAGE_SIZE :: P' /\ a mod 4096 = 0 /\ 0 < a.
Proof.
  intros Hinv Hne. unfold alloc_page. pose proof (alloc_order_inv p P 0 Hinv ltac:(lia)) as H.
  destruct (alloc_order p 0) as [[a|] p'].
  - destruct H as (P' & Hinv' & HP & Hwf & _). exists a, p', P'. pose proof (block_wf_page _ _ Hwf).
    split_and!; [done|done| |done|apply Hwf]. rewrite HP. unfold block_pages. simpl. done.
  - destruct Hne. destruct H as [_ Hz]. apply (heads_null_empty p P Hinv). intros h Hh. apply Hz. lia.
Qed.

Lemma alloc_table_ok s P root T :
  vinv s P root T -> P <> [] ->
  exists c p' P', alloc_table s = Some (c, with_words (with_vphys s p') (zero_words (words s) c)) /\
    phys_inv p' P' /\ P ≡ₚ c / PAGE_SIZE :: P' /\ table_ok c.
Proof.
  intros [HT Hph Htk Hsm] Hne. destruct (alloc_page_ok _ _ Hph Hne) as (c & p' & P' & Ha & Hinv & HP & Hm & Hc).
  assert (table_ok c) as Hok.
  { split; [done|]. specialize (Hsm (c / PAGE_SIZE)). rewrite HP in Hsm.
    unfold DIRECT_MAP_SIZE, PAGE_SIZE in *. specialize (Hsm ltac:(set_solver)). div_lia. }
  exists c, p', P'. split; [|done]. unfold alloc_table, vexpect, alloc, vbind. rewrite Ha.
  unfold vret. rewrite (phys_to_virtual_ok c) by done. done.
Qed.

Lemma rd_entry s t i : rd (slot_addr t i) s = Some (entry (words s) t i, s).
Proof. done. Qed.

Lemma vbind_some {A B} (m : VM A) (k : A -> VM B) s x s' : m s = Some (x, s') -> vbind m k s = k x s'.
Proof. unfold vbind. by intros ->. Qed.

Lemma ensure_ok s P root T p t i f lvl addr :
  vinv s P root T -> T !! p = Some t -> (length p < 3)%nat -> 0 <= i < 512 -> f = 2 \/ f = 6 ->
  is_huge (entry (words s) t i) = false -> P <> [] ->
  exists s' P' T' c, ensure_table (slot_addr t i) f lvl addr s = Some (c, s') /\ vinv s' P' root T' /\
    grow (words s) T (words s') T' /\ T' !! (p ++ [i]) = Some c /\ (length P <= S (length P'))%nat /\
    cr3 s' = cr3 s /\ PT_INITIALIZED s' = PT_INITIALIZED s.
Proof.
  intros Hv Hp Hl Hi Hf Hh Hne. pose proof Hv as [HT Hph Htk Hsm].
  unfold ensure_table. rewrite (vbind_some _ _ _ _ _ (rd_entry s t i)).
  destruct (pte_present (entry (words s) t i)) eqn:Hpres.
  - assert (has (entry (words s) t i) PS = false) as Hps by (unfold is_huge in Hh; by rewrite Hpres in Hh).
    exists s, P, T, (Z.land (entry (words s) t i) PHYS_ADDR_MASK).
    split; [unfold vbind at 1, vret at 1; rewrite (vbind_some _ _ _ _ _ (rd_entry s t i)), Hps;
      unfold vbind, vret; by rewrite rd_entry|].
    split_and!; [done|apply grow_refl| |lia|done|done].
    rewrite (t_child _ _ _ HT p t i) by done. unfold is_child. by rewrite Hpres, Hps.
  - destruct (alloc_table_ok s P root T Hv Hne) as (c & p' & P' & Ha & Hinv & HP & Hok).
    set (e := Z.lor (Z.lor c f) PRESENT).
    pose proof Hok as [Hal Hbd]. unfold DIRECT_MAP_SIZE in Hbd.
    destruct (new_entry_ok c f Hal ltac:(lia) Hf) as [He1 He2]. fold e in He1, He2.
    assert (is_child (entry (words s) t i) = false) as Hno by (unfold is_child; rewrite Hpres; reflexivity).
    assert (forall q, T !! q <> Some c) as Hfresh by (intros q Hq; apply (Htk q c Hq); rewrite HP; by left).
    set (s1 := with_words (with_vphys s p') (zero_words (words s) c)) in *.
    set (s2 := with_words s1 (<[slot_addr t i := e]> (words s1))).
    assert (entry (words s2) t i = e) as Hent by (unfold entry; cbn [words with_words s2]; by rewrite lookup_insert_eq).
    assert (tree (words s2) root (<[p ++ [i] := c]> T)) as HT' by by apply (tree_extend _ _ _ p t i c e).
    exists s2, P', (<[p ++ [i] := c]> T), c. split; [|split_and!].
    + unfold vbind at 1 2. rewrite Ha. unfold wr, vmod. fold e. fold s2.
      rewrite (vbind_some _ _ _ _ _ (rd_entry s2 t i)), Hent.
      assert (has e PS = false) as -> by (unfold is_child in He1; by destruct (pte_present e), (has e PS)).
      unfold vbind, vret. by rewrite rd_entry, Hent, He2.
    + split; [done|done| |].
      * intros q t' [[<- <-]|[_ Hq]]%lookup_insert_Some.
        -- apply phys_inv_nodup in Hph. rewrite HP in Hph. by apply NoDup_cons in Hph as [? _].
        -- intros Hin. apply (Htk q t' Hq). rewrite HP. by right.
      * intros pn Hpn. apply Hsm. rewrite HP. by right.
    + by eapply grow_extend.
    + apply lookup_insert_eq.
    + by rewrite HP.
    + done.
    + done.
Qed.

(** One level of the walk: the table below slot [i] of the table at path [p]. *)
Lemma descend_ok s P root T p t i f u lvl addr :
  vinv s P root T -> T !! p = Some t -> (length p < 3)%nat -> 0 <= i < 512 -> f = 2 \/ f = 6 -> u = 0 \/ u = 4 ->
  is_huge (entry (words s) t i) = false -> P <> [] ->
  exists s' P' T' c, descend t i f u lvl addr s = Some (c, s') /\ vinv s' P' root T' /\
    grow (words s) T (words s') T' /\ T' !! (p ++ [i]) = Some c /\ (length P <= S (length P'))%nat /\
    cr3 s' = cr3 s /\ PT_INITIALIZED s' = PT_INITIALIZED s.
Proof.
  intros Hv Hp Hl Hi Hf Hu Hh Hne.
  destruct (ensure_ok s P root T p t i f lvl addr Hv Hp Hl Hi Hf Hh Hne)
    as (s1 & P1 & T1 & c & He & Hv1 & Hg1 & Hc & Hlen & Hcr & Hin).
  pose proof Hv1 as [HT1 Hph1 Htk1 Hsm1]. assert (T1 !! p = Some t) as Hp1 by by eapply g_sub.
  destruct (user_entry_ok (entry (words s1) t i) u Hu) as (Hu1 & Hu2 & Hu3).
  set (s2 := with_words s1 (<[slot_addr t i := Z.lor (entry (words s1) t i) u]> (words s1))).
  exists s2, P1, T1, c. split; [|split_and!; [|..|done|done|done|done]].
  - unfold descend, vbind. rewrite He, rd_entry. unfold wr, vmod. fold s2. by apply phys_to_virtual_ok, (t_table _ _ _ HT1 _ _ Hc).
  - split; [|done..]. by apply (tree_update _ _ _ p).
  - eapply grow_trans; [done|]. by eapply grow_update.
Qed.

(** ** Paths *)

(** The indices of an address down to its page table. *)
Definition path3 (v : Z) : list Z := [index_for_addr v 3; index_for_addr v 2; index_for_addr v 1].

(** The entries a walk from table [t] along [js] reads. *)
Fixpoint walk (w : gmap Z Z) (t : Z) (js : list Z) : list Z :=
  match js with
  | [] => []
  | i :: js => let e := entry w t i in e :: if is_child e then walk w (Z.land e PHYS_ADDR_MASK) js else []
  end.

(** No huge page on the way to the page table of [v]. *)
Definition no_huge (s : Virt) (root v : Z) : bool := forallb (fun e => negb (is_huge e)) (walk (words s) root (path3 v)).

Definition plain (w : gmap Z Z) (T : gmap (list Z) Z) (v : Z) : Prop :=
  forall q i r t, path3 v = q ++ i :: r -> T !! q = Some t -> is_huge (entry w t i) = false.

Lemma path3_bound v q i r : path3 v = q ++ i :: r -> 0 <= i < 512.
Proof.
  intros Heq. assert (i ∈ path3 v) as Hin by (rewrite Heq; set_solver). unfold path3 in Hin.
  repeat (apply elem_of_cons in Hin as [->|Hin]; [apply index_bound|]). by apply elem_of_nil in Hin.
Qed.

Lemma walk_plain w root T p t js :
  tree w root T -> T !! p = Some t -> (length (p ++ js) <= 3)%nat ->
  forallb (fun e => negb (is_huge e)) (walk w t js) = true ->
  forall q i r t', js = q ++ i :: r -> T !! (p ++ q) = Some t' -> is_huge (entry w t' i) = false.
Proof.
  intros HT. revert p t. induction js as [|j js IH]; intros p t Hp Hl Hw q i r t' Heq Hq; [by destruct q|].
  simpl in Hw. apply andb_true_iff in Hw as [Hj%negb_true_iff Hw]. rewrite length_app in Hl. simpl in Hl.
  destruct q as [|j' q]; simpl in Heq; injection Heq as <- ->; [rewrite app_nil_r in Hq; congruence|].
  rewrite (app_assoc p [j] q : p ++ j :: q = _) in Hq.
  destruct (tree_prefix _ _ _ _ _ _ HT Hq) as [c Hc]. pose proof Hc as Hcc.
  destruct (t_closed _ _ _ HT _ _ _ Hc) as [Hjb _].
  rewrite (t_child _ _ _ HT p t j) in Hcc by (done || lia). destruct (is_child (entry w t j)); [|done].
  injection Hcc as Hcc. rewrite Hcc in Hw. eapply (IH (p ++ [j]) c); [done| |done|done|done]. rewrite !length_app in *. simpl in *. lia.
Qed.

Lemma no_huge_plain s root T v : tree (words s) root T -> no_huge s root v = true -> plain (words s) T v.
Proof.
  intros HT Hn q i r t Heq Hq. by apply (walk_plain _ root T [] root (path3 v) HT (t_root _ _ _ HT) ltac:(simpl; lia) Hn q i r).
Qed.

Lemma grow_plain w T w' T' v : grow w T w' T' -> plain w T v -> plain w' T' v.
Proof.
  intros Hg Hpl q i r t Heq Hq. destruct (is_huge (entry w' t i)) eqn:E; [|done].
  assert (length q < 3)%nat as Hl by (apply (f_equal length) in Heq; rewrite length_app in Heq; simpl in Heq; lia).
  assert (0 <= i < 512) as Hi. by by eapply path3_bound.
  destruct (g_huge _ _ _ _ Hg q t i Hl Hq Hi E) as [Hq' Hh]. by rewrite (Hpl q i r t Heq Hq') in Hh.
Qed.

(** ** Mapping *)

Lemma plain_at w T v q i r t : plain w T v -> path3 v = q ++ i :: r -> T !! q = Some t -> is_huge (entry w t i) = false.
Proof. intros H Heq Ht. by eapply H. Qed.

Lemma cons_ne {A} (P : list A) n : (S n <= length P)%nat -> P <> [].
Proof. destruct P; simpl; [lia|done]. Qed.

Lemma leaf_table_ok s P root T v flags :
  vinv s P root T -> plain (words s) T v -> (3 <= length P)%nat ->
  exists s' P' T' c, leaf_table root v flags s = Some (c, s') /\ vinv s' P' root T' /\
    grow (words s) T (words s') T' /\ T' !! path3 v = Some c /\ (length P <= 3 + length P')%nat /\
    cr3 s' = cr3 s /\ PT_INITIALIZED s' = PT_INITIALIZED s.
Proof.
  intros Hv Hpl HP. unfold leaf_table. set (u := Z.land flags USER). set (f := Z.lor WRITABLE u).
  assert (u = 0 \/ u = 4) as Hu by apply user_bit.
  assert (f = 2 \/ f = 6) as Hf by (unfold f; by destruct Hu as [-> | ->]; [left|right]).
  pose proof (t_root _ _ _ (vi_tree _ _ _ _ Hv)) as Hr.
  destruct (descend_ok s P root T [] root (index_for_addr v 3) f u 2 v Hv Hr ltac:(simpl; lia) (index_bound v 3) Hf Hu
    (plain_at _ _ v [] _ _ _ Hpl eq_refl Hr) (cons_ne P 2 HP)) as (s1 & P1 & T1 & c1 & D1 & Hv1 & G1 & Hc1 & L1 & C1 & I1).
  assert (plain (words s1) T1 v) as Hpl1 by by eapply grow_plain.
  destruct (descend_ok s1 P1 root T1 [index_for_addr v 3] c1 (index_for_addr v 2) f u 1 v Hv1 Hc1 ltac:(simpl; lia)
    (index_bound v 2) Hf Hu (plain_at _ _ v [index_for_addr v 3] _ _ _ Hpl1 eq_refl Hc1) (cons_ne P1 1 ltac:(lia)))
    as (s2 & P2 & T2 & c2 & D2 & Hv2 & G2 & Hc2 & L2 & C2 & I2).
  assert (plain (words s2) T2 v) as Hpl2 by by eapply grow_plain.
  destruct (descend_ok s2 P2 root T2 [index_for_addr v 3; index_for_addr v 2] c2 (index_for_addr v 1) f u 0 v Hv2 Hc2
    ltac:(simpl; lia) (index_bound v 1) Hf Hu
    (plain_at _ _ v [index_for_addr v 3; index_for_addr v 2] _ _ _ Hpl2 eq_refl Hc2) (cons_ne P2 0 ltac:(lia)))
    as (s3 & P3 & T3 & c3 & D3 & Hv3 & G3 & Hc3 & L3 & C3 & I3).
  exists s3, P3, T3, c3. split; [unfold vbind; by rewrite D1, D2, D3|]. split_and!; [done| |done|lia|congruence|congruence].
  eapply grow_trans; [done|]. by eapply grow_trans.
Qed.

(** One step of a walk along a plain path. *)
Lemma plain_step w root T v q t i r :
  tree w root T -> plain w T v -> path3 v = q ++ i :: r -> T !! q = Some t ->
  (pte_present (entry w t i) = false /\ T !! path3 v = None) \/
  (pte_present (entry w t i) = true /\ has (entry w t i) PS = false /\
   T !! (q ++ [i]) = Some (Z.land (entry w t i) PHYS_ADDR_MASK)).
Proof.
  intros HT Hpl Heq Hq. pose proof (plain_at _ _ v q i r t Hpl Heq Hq) as Hh.
  pose proof (path3_bound _ _ _ _ Heq) as Hi.
  assert (length q < 3)%nat as Hl by (apply (f_equal length) in Heq; rewrite length_app in Heq; simpl in Heq; lia).
  pose proof (t_child _ _ _ HT q t i Hq Hl Hi) as Hc. unfold is_child, is_huge in *.
  destruct (pte_present (entry w t i)); [right|left].
  - simpl in Hh. rewrite Hh in *. done.
  - split; [done|]. simpl in Hc. rewrite Heq. destruct (T !! (q ++ i :: r)) as [c|] eqn:E; [|done].
    rewrite (app_assoc q [i] r : q ++ i :: r = _) in E. apply (tree_prefix _ _ _ _ _ _ HT) in E as [c' Hc']. congruence.
Qed.

(** Running a walk: read the next entry of a plain path, leave when it is
    absent, go to the table it points to otherwise. *)
Ltac walk_step HT Hpl q Ht H :=
  rewrite (vbind_some _ _ _ _ _ (phys_to_virtual_ok _ _ (t_table _ _ _ HT _ _ Ht)));
  rewrite (vbind_some _ _ _ _ _ (rd_entry _ _ _));
  destruct (plain_step _ _ _ _ q _ _ _ HT Hpl eq_refl Ht) as [[-> ->]|(-> & H)];
  [reflexivity|]; try rewrite (proj1 H); apply proj2 in H; cbn [negb app] in H |- *.

(** The page-table slot of an address, read off the tree. *)
Lemma pte_slot_tree s root T v :
  tree (words s) root T -> plain (words s) T v ->
  pte_slot root v s = Some ((fun t => slot_addr t (index_for_addr v 0)) <$> T !! path3 v, s).
Proof.
  intros HT Hpl. pose proof (t_root _ _ _ HT) as Hr. unfold pte_slot. rewrite (table_mask root) by by eapply t_table.
  walk_step HT Hpl (@nil Z) Hr H1. walk_step HT Hpl [index_for_addr v 3] H1 H2.
  walk_step HT Hpl [index_for_addr v 3; index_for_addr v 2] H2 H3.
  rewrite (vbind_some _ _ _ _ _ (phys_to_virtual_ok _ _ (t_table _ _ _ HT _ _ H3))). unfold path3. by rewrite H3.
Qed.

(** The entry for [v] when it is present. *)
Definition page_entry (s : Virt) (root v : Z) : option Z :=
  match read_pte root v s with
  | Some (Some e, _) => if pte_present e then Some e else None
  | _ => None
  end.

Definition leaf (w : gmap Z Z) (T : gmap (list Z) Z) (v : Z) : option Z :=
  t ← T !! path3 v;
  let e := entry w t (index_for_addr v 0) in if pte_present e then Some e else None.

Lemma read_pte_tree s root T v :
  tree (words s) root T -> plain (words s) T v ->
  read_pte root v s = Some ((fun t => entry (words s) t (index_for_addr v 0)) <$> T !! path3 v, s).
Proof.
  intros HT Hpl. unfold read_pte. rewrite (vbind_some _ _ _ _ _ (pte_slot_tree s root T v HT Hpl)).
  by destruct (T !! path3 v).
Qed.

Lemma page_entry_leaf s root T v :
  tree (words s) root T -> plain (words s) T v -> page_entry s root v = leaf (words s) T v.
Proof.
  intros HT Hpl. unfold page_entry, leaf. rewrite (read_pte_tree s root T v HT Hpl). by destruct (T !! path3 v).
Qed.

Lemma grow_leaf w T w' T' v : grow w T w' T' -> leaf w' T' v = leaf w T v.
Proof.
  intros Hg. unfold leaf. destruct (T' !! path3 v) as [t|] eqn:E; simpl.
  - rewrite (g_leaf _ _ _ _ Hg (path3 v) t (index_for_addr v 0) eq_refl E (index_bound v 0)).
    destruct (T !! path3 v) as [t0|] eqn:E0; [|done]. apply (g_sub _ _ _ _ Hg) in E0.
    assert (t0 = t) as -> by congruence. done.
  - destruct (T !! path3 v) as [t0|] eqn:E0; [|done]. apply (g_sub _ _ _ _ Hg) in E0. congruence.
Qed.

(** Addresses of one page have the same four indices. *)
Definition same_page (v v' : Z) : Prop := path3 v = path3 v' /\ index_for_addr v 0 = index_for_addr v' 0.

(** Writing one page-table entry changes the mapping of that page only. *)
Lemma leaf_write w root T v t e v' :
  tree w root T -> T !! path3 v = Some t -> ~ same_page v v' ->
  leaf (<[slot_addr t (index_for_addr v 0) := e]> w) T v' = leaf w T v'.
Proof.
  intros HT Ht Hns. unfold leaf. destruct (T !! path3 v') as [t'|] eqn:E; [|done]. simpl.
  rewrite entry_insert by (eauto using index_bound || by eapply t_table). case_decide as Hd; [|done].
  destruct Hd as [<- Hi]. destruct Hns. split; [by eapply t_inj|done].
Qed.

(** Entries of leaf tables are not part of the tree's structure. *)
Lemma write_leaf_plain w root T v t i e v' :
  tree w root T -> T !! path3 v = Some t -> 0 <= i < 512 -> plain w T v' -> plain (<[slot_addr t i := e]> w) T v'.
Proof.
  intros HT Ht Hi Hpl q j r t' Heq Hq.
  assert (0 <= j < 512) as Hj. by by eapply path3_bound.
  rewrite entry_insert by (done || by eapply t_table). case_decide as Hd; [|by eapply Hpl].
  destruct Hd as [<- <-]. assert (path3 v = q) as Hpq by by eapply t_inj.
  apply (f_equal length) in Heq. rewrite length_app, <-Hpq in Heq. simpl in Heq. lia.
Qed.


(** [translate] agrees with the entry of the page. *)
Lemma translate_tree s root T v :
  tree (words s) root T -> plain (words s) T v -> PT_INITIALIZED s = true -> cr3 s = root ->
  translate v s = Some ((fun e => Z.lor (Z.land e PHYS_ADDR_MASK) (Z.land v 0xFFF)) <$> leaf (words s) T v, s).
Proof.
  intros HT Hpl Hin Hcr. pose proof (t_root _ _ _ HT) as Hr. unfold translate, leaf.
  unfold vbind at 1, vget at 1. rewrite Hin. cbn [negb]. unfold vbind at 1, vget at 1. rewrite Hcr.
  rewrite (table_mask root) by by eapply t_table.
  walk_step HT Hpl (@nil Z) Hr H1. walk_step HT Hpl [index_for_addr v 3] H1 H2.
  walk_step HT Hpl [index_for_addr v 3; index_for_addr v 2] H2 H3.
  rewrite (vbind_some _ _ _ _ _ (phys_to_virtual_ok _ _ (t_table _ _ _ HT _ _ H3))).
  rewrite (vbind_some _ _ _ _ _ (rd_entry _ _ _)). unfold path3. rewrite H3. simpl.
  by destruct (pte_present _).
Qed.

(** Writing the leaf entry of a mapped path. *)
Lemma vinv_write_leaf s P root T v t e :
  vinv s P root T -> T !! path3 v = Some t ->
  vinv (with_words s (<[slot_addr t (index_for_addr v 0) := e]> (words s))) P root T.
Proof.
  intros [HT Hph Htk Hsm] Ht. split; [|done..].
  apply (tree_update _ _ _ (path3 v)); [done|done|apply index_bound|simpl; lia].
Qed.

Lemma entry_value pa flags :
  pa mod 4096 = 0 -> 0 <= pa < 2 ^ 52 -> Z.land flags PHYS_ADDR_MASK = 0 ->
  Z.land (Z.lor pa flags) PHYS_ADDR_MASK = pa.
Proof. intros Ha Hb Hf. by rewrite Z.land_lor_distr_l, Hf, page_mask, Z.lor_0_r. Qed.

Lemma page_offset pa v : pa mod 4096 = 0 -> Z.lor pa (Z.land v 0xFFF) = pa + v mod 4096.
Proof.
  intros Ha. change 4095 with (Z.ones 12). rewrite Z.land_ones by lia. change (2 ^ 12) with 4096.
  pose proof (Z.mod_pos_bound v 4096 ltac:(lia)). pose proof (Z.add_lor_land pa (v mod 4096)) as H1.
  rewrite (page_low pa) in H1 by (done || lia). lia.
Qed.

(** C10: [map_page] maps the page and nothing else.  Given three free pages and no huge page on the way, it
    does not panic, keeps the tables a tree of distinct allocated pages, makes [read_pte] return
    the new entry and [translate] (under the mapped tables) the new frame with the page offset,
    and leaves the present mapping of every other page as it was. *)
Theorem map_page_correct s P root T v pa flags :
  vinv s P root T -> no_huge s root v = true -> (3 <= length P)%nat ->
  pa mod 4096 = 0 -> 0 <= pa < 2 ^ 52 -> pte_present (Z.lor pa flags) = true -> Z.land flags PHYS_ADDR_MASK = 0 ->
  exists s' P' T', map_page root v pa flags s = Some (tt, s') /\ vinv s' P' root T' /\
    read_pte root v s' = Some (Some (Z.lor pa flags), s') /\
    (PT_INITIALIZED s = true -> cr3 s = root -> translate v s' = Some (Some (pa + v mod 4096), s')) /\
    (forall v', ~ same_page v v' -> no_huge s root v' = true -> page_entry s' root v' = page_entry s root v').
Proof.
  intros Hv Hnh HP Hal Hpa Hpres Hfl. pose proof (no_huge_plain s root T v (vi_tree _ _ _ _ Hv) Hnh) as Hpl.
  destruct (leaf_table_ok s P root T v flags Hv Hpl HP) as (s1 & P1 & T1 & c & Hlt & Hv1 & Hg & Hc & _ & Hcr & Hin).
  set (s2 := with_words s1 (<[slot_addr c (index_for_addr v 0) := Z.lor pa flags]> (words s1))).
  pose proof (vinv_write_leaf s1 P1 root T1 v c (Z.lor pa flags) Hv1 Hc) as Hv2. fold s2 in Hv2.
  pose proof (vi_tree _ _ _ _ Hv1) as HT1. pose proof (vi_tree _ _ _ _ Hv2) as HT2.
  assert (forall v', plain (words s) T v' -> plain (words s2) T1 v') as Hpls.
  { intros v' Hp'. apply (write_leaf_plain _ root _ v); [done|done|apply index_bound|by eapply grow_plain]. }
  assert (entry (words s2) c (index_for_addr v 0) = Z.lor pa flags) as Hent
    by (unfold entry; cbn [words with_words s2]; by rewrite lookup_insert_eq).
  exists s2, P1, T1. split; [unfold map_page; by rewrite (vbind_some _ _ _ _ _ Hlt)|]. split; [done|]. split; [|split].
  - rewrite (read_pte_tree s2 root T1 v HT2 (Hpls v Hpl)), Hc. cbn [fmap option_fmap option_map]. by rewrite Hent.
  - intros Hi Hr. rewrite (translate_tree s2 root T1 v HT2 (Hpls v Hpl)) by (simpl; congruence).
    unfold leaf. rewrite Hc. cbn [mbind option_bind]. rewrite Hent, Hpres. cbn [fmap option_fmap option_map].
    by rewrite entry_value, page_offset.
  - intros v' Hns Hnh'. pose proof (no_huge_plain s root T v' (vi_tree _ _ _ _ Hv) Hnh') as Hp'.
    rewrite (page_entry_leaf s2 root T1 v' HT2 (Hpls v' Hp')), (page_entry_leaf s root T v' (vi_tree _ _ _ _ Hv) Hp').
    rewrite <-(grow_leaf _ _ _ _ v' Hg). by eapply leaf_write.
Qed.

(** ** Unmapping *)

(** Removing an empty table. *)
Lemma tree_shrink w root T p t i c :
  tree w root T -> T !! p = Some t -> T !! (p ++ [i]) = Some c -> (forall j, 0 <= j < 512 -> entry w c j = 0) ->
  tree (<[slot_addr t i := 0]> w) root (delete (p ++ [i]) T).
Proof.
  intros HT Hp Hc Hz. pose proof HT as [H1 H2 H3 H4 H5 H6].
  destruct (H5 p i c Hc) as [Hi _]. pose proof (H3 _ _ Hc) as Hl. rewrite length_app in Hl. simpl in Hl.
  assert (forall j t', T !! ((p ++ [i]) ++ [j]) <> Some t') as Hleaf.
  { intros j t' Hj. destruct (H5 _ _ _ Hj) as [Hjb _]. pose proof (H3 _ _ Hj) as Hl'. rewrite !length_app in Hl'. simpl in Hl'.
    rewrite (H6 _ c j Hc) in Hj by (done || (rewrite length_app; simpl; lia)). by rewrite Hz in Hj. }
  split.
  - rewrite lookup_delete_ne; [done|]. by destruct p.
  - intros q t' [_ Hq]%lookup_delete_Some; eauto.
  - intros q t' [_ Hq]%lookup_delete_Some; eauto.
  - intros q q' t' [_ Hq]%lookup_delete_Some [_ Hq']%lookup_delete_Some; eauto.
  - intros q j c' [Hne Hq]%lookup_delete_Some. destruct (H5 q j c' Hq) as [Hj [t' Ht']]. split; [done|].
    exists t'. rewrite lookup_delete_ne; [done|]. intros <-. by eapply Hleaf.
  - intros q t' j [Hne Hq]%lookup_delete_Some Hql Hj. rewrite entry_insert by eauto. case_decide as Hd.
    + destruct Hd as [<- <-]. assert (q = p) as -> by eauto. by rewrite lookup_delete_eq.
    + rewrite lookup_delete_ne; [by apply H6|]. intros Heq. apply app_inj_tail in Heq as [<- <-].
      apply Hd. split; [congruence|done].
Qed.

(** Mappings and huge pages when part of a tree is removed. *)
Record shrink (w : gmap Z Z) (T : gmap (list Z) Z) (w' : gmap Z Z) (T' : gmap (list Z) Z) : Prop := {
  sh_sub : forall p t, T' !! p = Some t -> T !! p = Some t;
  sh_leaf : forall v, leaf w' T' v = leaf w T v;
  sh_plain : forall v, plain w T v -> plain w' T' v;
}.

Lemma shrink_refl w T : shrink w T w T.
Proof. done. Qed.

Lemma shrink_trans w1 T1 w2 T2 w3 T3 : shrink w1 T1 w2 T2 -> shrink w2 T2 w3 T3 -> shrink w1 T1 w3 T3.
Proof. intros [A1 A2 A3] [B1 B2 B3]. split; [eauto| |eauto]. intros v. by rewrite B2. Qed.

Lemma shrink_table w root T p t i c :
  tree w root T -> T !! p = Some t -> T !! (p ++ [i]) = Some c -> (forall j, 0 <= j < 512 -> entry w c j = 0) ->
  shrink w T (<[slot_addr t i := 0]> w) (delete (p ++ [i]) T).
Proof.
  intros HT Hp Hc Hz. pose proof HT as [H1 H2 H3 H4 H5 H6]. destruct (H5 p i c Hc) as [Hi _].
  pose proof (H3 _ _ Hc) as Hl. rewrite length_app in Hl. simpl in Hl. split.
  - by intros q t' [_ Hq]%lookup_delete_Some.
  - intros v. unfold leaf. destruct (decide (path3 v = p ++ [i])) as [->|Hne].
    + rewrite lookup_delete_eq, Hc. simpl. by rewrite Hz by apply index_bound.
    + rewrite lookup_delete_ne by done. destruct (T !! path3 v) as [t'|] eqn:E; [|done]. simpl.
      rewrite entry_insert by (eauto using index_bound). case_decide as Hd; [|done].
      destruct Hd as [<- _]. assert (path3 v = p) as Hv by eauto. apply (f_equal length) in Hv. simpl in Hv. lia.
  - intros v Hpl q j r t' Heq [_ Hq]%lookup_delete_Some. pose proof (path3_bound _ _ _ _ Heq).
    rewrite entry_insert by eauto. case_decide; [done|]. by eapply Hpl.
Qed.

(** What an operation on translations leaves alone. *)
Definition same_mem (s s' : Virt) : Prop :=
  words s' = words s /\ vphys s' = vphys s /\ cr3 s' = cr3 s /\ PT_INITIALIZED s' = PT_INITIALIZED s.

Lemma vfor_same_mem {A} (l : list A) (f : A -> VM unit) s :
  (forall x s, exists s', f x s = Some (tt, s') /\ same_mem s s') -> exists s', vfor l f s = Some (tt, s') /\ same_mem s s'.
Proof.
  intros Hf. revert s. induction l as [|x l IH]; intros s; simpl; [by exists s|].
  destruct (Hf x s) as (s1 & H1 & K1). rewrite (vbind_some _ _ _ _ _ H1).
  destruct (IH s1) as (s2 & H2 & K2). exists s2. split; [done|]. unfold same_mem in *. intuition congruence.
Qed.

Lemma pend_others_mem cpu a s : exists s', pend_others cpu a s = Some (tt, s') /\ same_mem s s'.
Proof.
  apply vfor_same_mem. intros i s0. unfold vbind, vget. destruct (_ && _); [|by exists s0].
  eexists. split; [reflexivity|done].
Qed.

Lemma shootdown_mem cpu a s : exists s', tlb_shootdown cpu a s = Some (tt, s') /\ same_mem s s'.
Proof.
  destruct (pend_others_mem cpu a s) as (s1 & H1 & K1). unfold tlb_shootdown. rewrite (vbind_some _ _ _ _ _ H1).
  eexists. split; [reflexivity|done].
Qed.

(** A state reached by removing the tables on [path] that are empty; [l] lists them. *)
Record dropped (s : Virt) (root : Z) (T : gmap (list Z) Z) (path l : list Z) (s' : Virt) (T' : gmap (list Z) Z) : Prop := {
  dr_tree : tree (words s') root T';
  dr_shrink : shrink (words s) T (words s') T';
  dr_phys : vphys s' = vphys s;
  dr_regs : cr3 s' = cr3 s /\ PT_INITIALIZED s' = PT_INITIALIZED s;
  dr_nodup : NoDup l;
  dr_gone : forall x, x ∈ l <-> exists q, T !! q = Some x /\ T' !! q = None;
  dr_only : forall q t, T !! q = Some t -> T' !! q = None ->
    q <> [] /\ forall j, 0 <= j < 512 -> entry (words s) t j <> 0 -> q ++ [j] `prefix_of` path;
  dr_kept : forall q t, q <> [] -> q `prefix_of` path -> T' !! q = Some t -> exists j, 0 <= j < 512 /\ entry (words s') t j <> 0;
}.

Lemma dropped_none s root T path :
  tree (words s) root T ->
  (forall q t, q <> [] -> q `prefix_of` path -> T !! q = Some t -> exists j, 0 <= j < 512 /\ entry (words s) t j <> 0) ->
  dropped s root T path [] s T.
Proof.
  intros HT Hk. split; [done|apply shrink_refl|done|done|constructor| |congruence|done].
  intros x. split; [by intros Hx%elem_of_nil|]. intros (q & Hq & Hn). congruence.
Qed.

(** A table above another one is not empty. *)
Lemma parent_entry w root T q j t c :
  tree w root T -> T !! q = Some t -> T !! (q ++ [j]) = Some c -> 0 <= j < 512 /\ entry w t j <> 0.
Proof.
  intros HT Hq Hc. destruct (t_closed _ _ _ HT _ _ _ Hc) as [Hj _]. split; [done|]. intros He.
  pose proof (t_len _ _ _ HT _ _ Hc) as Hl. rewrite length_app in Hl. simpl in Hl.
  rewrite (t_child _ _ _ HT q t j Hq) in Hc by (done || lia). by rewrite He in Hc.
Qed.

Lemma prefix_snoc (q p : list Z) i : q `prefix_of` p ++ [i] -> q = p ++ [i] \/ q `prefix_of` p.
Proof.
  intros [k Hk]. destruct k as [|x k _] using rev_ind; [left; by rewrite app_nil_r in Hk|right].
  rewrite app_assoc in Hk. apply app_inj_tail in Hk as [-> _]. by exists k.
Qed.

Lemma drop_if_empty_ok s root T p t i c up :
  tree (words s) root T -> T !! p = Some t -> T !! (p ++ [i]) = Some c ->
  (forall s1, tree (words s1) root (delete (p ++ [i]) T) ->
     exists l s' T', up s1 = Some (l, s') /\ dropped s1 root (delete (p ++ [i]) T) p l s' T') ->
  exists l s' T', drop_if_empty c c (slot_addr t i) up s = Some (l, s') /\ dropped s root T (p ++ [i]) l s' T'.
Proof.
  intros HT Hp Hc Hup. unfold drop_if_empty, is_table_empty. unfold vbind at 1, vget.
  destruct (forallb _ indices) eqn:E.
  2: { exists [], s, T. split; [done|]. apply dropped_none; [done|]. intros q t' _ [k Hk] Hq. destruct k as [|j k].
    - rewrite app_nil_r in Hk. subst q. assert (t' = c) as -> by congruence.
      apply not_true_iff_false in E. rewrite forallb_forall in E.
      assert (exists j, j ∈ indices /\ (entry (words s) c j =? 0) = false) as (j & Hj%elem_of_seqZ & He%Z.eqb_neq).
      { assert (Exists (not ∘ (fun j => (entry (words s) c j =? 0) = true)) indices) as Hx.
        { apply not_Forall_Exists; [apply _|]. intros Hf. apply E. intros j Hj%list_elem_of_In. rewrite Forall_forall in Hf. by apply Hf. }
        apply Exists_exists in Hx as (j & Hj & Hn). exists j. split; [done|]. by apply not_true_iff_false. }
      exists j. split; [lia|done].
    - exists j. destruct (tree_prefix _ _ _ (q ++ [j]) k c HT) as [t1 Ht1]; [by rewrite <-app_assoc; simpl; rewrite <-Hk|].
      by eapply parent_entry. }
  assert (forall j, 0 <= j < 512 -> entry (words s) c j = 0) as Hz.
  { intros j Hj. rewrite forallb_forall in E. apply Z.eqb_eq, E, list_elem_of_In, elem_of_seqZ. lia. }
  set (s1 := with_words s (<[slot_addr t i := 0]> (words s))).
  pose proof (tree_shrink (words s) root T p t i c HT Hp Hc Hz) as HT1.
  destruct (Hup s1 HT1) as (l & s' & T' & Hu & [D1 D2 D3 D4 D5 D6 D7 D8]).
  assert (T' !! (p ++ [i]) = None) as Hgone.
  { destruct (T' !! (p ++ [i])) eqn:Eg; [|done]. apply (sh_sub _ _ _ _ D2) in Eg. by rewrite lookup_delete_eq in Eg. }
  exists (c :: l), s', T'. split; [unfold vbind, wr, vmod; fold s1; by rewrite Hu|]. split; [done| |done|done| | | |].
  - eapply shrink_trans; [|done]. by eapply shrink_table.
  - constructor; [|done]. intros (q & [Hne Hq]%lookup_delete_Some & _)%D6. apply Hne. by apply (t_inj _ _ _ HT _ _ c).
  - intros x. rewrite elem_of_cons, D6. split.
    + intros [->|(q & [_ Hq]%lookup_delete_Some & Hn)]; eauto.
    + intros (q & Hq & Hn). destruct (decide (q = p ++ [i])) as [->|Hne]; [left; congruence|right].
      exists q. by rewrite lookup_delete_ne.
  - intros q t' Hq Hn. destruct (decide (q = p ++ [i])) as [->|Hne].
    + split; [by destruct p|]. intros j Hj He. assert (t' = c) as -> by congruence. by rewrite Hz in He.
    + destruct (D7 q t') as [Hq0 Ho]; [by rewrite lookup_delete_ne|done|]. split; [done|]. intros j Hj He.
      destruct (decide (t = t' /\ i = j)) as [[<- <-]|Hd].
      * by rewrite (t_inj _ _ _ HT q p t Hq Hp).
      * apply prefix_app_r, Ho; [done|]. unfold s1. cbn [words with_words]. destruct (t_closed _ _ _ HT _ _ _ Hc) as [Hi _].
        rewrite entry_insert by (eauto using t_table). by rewrite decide_False.
  - intros q t' Hq0 [->|Hpre]%prefix_snoc Hq; [congruence|by eapply D8].
Qed.

(** Releasing the removed tables. *)
Lemma release_all s P root T l :
  vinv s P root T -> NoDup l -> (forall x, x ∈ l -> table_ok x /\ x / PAGE_SIZE ∉ P /\ forall q, T !! q <> Some x) ->
  exists s' P', vfor l (fun p => if p =? 0 then vret tt else release p) s = Some (tt, s') /\ vinv s' P' root T /\
    words s' = words s /\ (Forall (fun x => page_clean (vphys s) (x / PAGE_SIZE)) l -> P' ≡ₚ ((fun x => x / PAGE_SIZE) <$> l) ++ P).
Proof.
  revert s P. induction l as [|x l IH]; intros s P Hv Hnd Hl; [exists s, P; by split_and!|].
  apply NoDup_cons in Hnd as [Hx Hnd]. destruct (Hl x) as (Hok & Hfree & Hnot); [by left|].
  assert (forall y, y ∈ l -> table_ok y /\ y / PAGE_SIZE <> x / PAGE_SIZE) as Hne.
  { intros y Hy. destruct (Hl y) as (Hoky & _ & _); [by right|]. split; [done|]. intros He. apply Hx.
    assert (x = y) as ->; [|done]. unfold table_ok, PAGE_SIZE in *. div_lia. }
  assert (forall y, y ∈ l -> table_ok y /\ y / PAGE_SIZE ∉ P /\ forall q, T !! q <> Some y) as Hl'
    by (intros y Hy; apply Hl; by right).
  simpl. destruct (Z.eqb_spec x 0) as [->|Hx0]; [rewrite (vbind_some _ _ s tt s eq_refl)|].
  { destruct (IH s P Hv Hnd Hl') as (s' & P' & H1 & H2 & H3 & _). exists s', P'. split_and!; try done.
    intros [[[Hr _] _] _]%Forall_cons. done. }
  destruct Hv as [HT Hph Htk Hsm]. pose proof Hok as [Hal Hbd]. unfold DIRECT_MAP_SIZE in Hbd.
  destruct (free_order_weak (vphys s) P x 0 Hph) as (Q & HQ & Hph' & HQall).
  { lia. }
  { unfold block_wf. rewrite block_size_eq. change (2 ^ Z.of_nat 0 * 4096) with 4096. split_and!; [lia|done|lia]. }
  { unfold block_pages. simpl. apply NoDup_cons. split; [done|]. by eapply phys_inv_nodup. }
  assert (forall pn, pn ∈ Q -> pn = x / PAGE_SIZE) as HQ1.
  { intros pn Hpn. apply (elem_of_submseteq _ _ _ Hpn) in HQ. unfold block_pages in HQ. simpl in HQ.
    by apply list_elem_of_singleton in HQ. }
  unfold release at 1. rewrite (vbind_some _ _ s tt (with_vphys s (free_page (vphys s) x)) eq_refl).
  destruct (IH (with_vphys s (free_page (vphys s) x)) (Q ++ P)) as (s' & P' & Hr & Hv' & Hw & HP'); [|done| |].
  - split; [done|done| |].
    + intros q t Hq [Hin%HQ1|Hin]%elem_of_app; [|by eapply Htk]. apply (Hnot q).
      assert (t = x) as <-; [|done]. destruct (t_table _ _ _ HT _ _ Hq) as [? _]. unfold PAGE_SIZE in *. div_lia.
    + intros pn [->%HQ1|Hin]%elem_of_app; [|by apply Hsm]. unfold DIRECT_MAP_SIZE, PAGE_SIZE. div_lia.
  - intros y Hy. destruct (Hl' y Hy) as (H1 & H2 & H3). split_and!; [done| |done].
    intros [Hin%HQ1|Hin]%elem_of_app; [by apply (Hne y Hy)|done].
  - exists s', P'. split_and!; try done. intros [[Hf Hrc] Hcl]%Forall_cons.
    rewrite HP', HQall.
    + change (block_pages x 0) with [x / PAGE_SIZE]. simpl. solve_Permutation.
    + by apply Forall_singleton.
    + done.
    + rewrite Forall_forall in *. intros y Hy. destruct (Hne y Hy) as [_ Hn]. destruct (Hcl y Hy) as [Hf' Hrc'].
      cbn [vphys with_vphys]. destruct (free_order_frame_page (vphys s) x 0 (y / PAGE_SIZE)) as [H1 H2].
      unfold free_page. split; [by apply H1|]. by rewrite H2.
Qed.

(** The part of [unmap] that edits tables: clearing the slot of [v] and
    dropping the tables that become empty. *)
Lemma drop_chain_ok s P root T v pd pdp pt :
  vinv s P root T -> T !! [index_for_addr v 3] = Some pdp -> T !! [index_for_addr v 3; index_for_addr v 2] = Some pd ->
  T !! path3 v = Some pt ->
  exists l s' T',
    drop_if_empty pt pt (slot_addr pd (index_for_addr v 1))
      (drop_if_empty pd pd (slot_addr pdp (index_for_addr v 2))
        (drop_if_empty pdp pdp (slot_addr root (index_for_addr v 3)) (vret []))) s = Some (l, s') /\
    dropped s root T (path3 v) l s' T'.
Proof.
  intros [HT _ _ _] Hpdp Hpd Hpt. pose proof (t_root _ _ _ HT) as Hr.
  apply (drop_if_empty_ok s root T [index_for_addr v 3; index_for_addr v 2]); [done..|]. intros s1 HT1.
  apply (drop_if_empty_ok s1 root _ [index_for_addr v 3]); [done|by rewrite lookup_delete_ne..|]. intros s2 HT2.
  apply (drop_if_empty_ok s2 root _ []); [done|by rewrite !lookup_delete_ne..|]. intros s3 HT3.
  exists [], s3, (delete [index_for_addr v 3] (delete [index_for_addr v 3; index_for_addr v 2] (delete (path3 v) T))).
  split; [done|]. apply dropped_none; [done|]. by intros q t Hq [k [-> _]%eq_sym%app_eq_nil].
Qed.

Lemma leaf_cleared w T v t :
  T !! path3 v = Some t -> leaf (<[slot_addr t (index_for_addr v 0) := 0]> w) T v = None.
Proof. intros Ht. unfold leaf, entry. rewrite Ht. simpl. by rewrite lookup_insert_eq. Qed.

(** [unmap] once its walk has found the page table. *)
Definition unmap_tail (cpu : nat) (v root pdp pd pt : Z) : VM unit :=
  (wr (slot_addr pt (index_for_addr v 0)) 0 ;;
   let* to_free :=
     drop_if_empty pt pt (slot_addr pd (index_for_addr v 1))
       (drop_if_empty pd pd (slot_addr pdp (index_for_addr v 2))
         (drop_if_empty pdp pdp (slot_addr root (index_for_addr v 3)) (vret []))) in
   invlpg v ;; tlb_shootdown cpu v ;;
   vfor to_free (fun p => if p =? 0 then vret tt else release p))%vm.

Lemma unmap_walk s root T cpu v :
  tree (words s) root T -> plain (words s) T v -> PT_INITIALIZED s = true -> cr3 s = root ->
  unmap cpu v s =
  match T !! [index_for_addr v 3], T !! [index_for_addr v 3; index_for_addr v 2], T !! path3 v with
  | Some pdp, Some pd, Some pt => unmap_tail cpu v root pdp pd pt s
  | _, _, _ => Some (tt, s)
  end.
Proof.
  intros HT Hpl Hin Hcr. pose proof (t_root _ _ _ HT) as Hr.
  unfold unmap. unfold vbind at 1, vget at 1. rewrite Hin. cbn [negb]. unfold vbind at 1, vget at 1. rewrite Hcr.
  rewrite (table_mask root) by by eapply t_table.
  rewrite (vbind_some _ _ _ _ _ (phys_to_virtual_ok _ _ (t_table _ _ _ HT _ _ Hr))). cbv zeta.
  rewrite (vbind_some _ _ _ _ _ (rd_entry _ _ _)).
  destruct (plain_step _ _ _ _ [] _ _ _ HT Hpl eq_refl Hr) as [[-> Hn]|(-> & -> & H1)]; [rewrite Hn; by repeat case_match|]. cbn [negb app] in H1 |- *.
  rewrite (vbind_some _ _ _ _ _ (phys_to_virtual_ok _ _ (t_table _ _ _ HT _ _ H1))).
  rewrite (vbind_some _ _ _ _ _ (rd_entry _ _ _)).
  destruct (plain_step _ _ _ _ [index_for_addr v 3] _ _ _ HT Hpl eq_refl H1) as [[-> Hn]|(-> & -> & H2)]; [rewrite Hn; by repeat case_match|].
  cbn [negb app] in H2 |- *.
  rewrite (vbind_some _ _ _ _ _ (phys_to_virtual_ok _ _ (t_table _ _ _ HT _ _ H2))).
  rewrite (vbind_some _ _ _ _ _ (rd_entry _ _ _)).
  destruct (plain_step _ _ _ _ [index_for_addr v 3; index_for_addr v 2] _ _ _ HT Hpl eq_refl H2) as [[-> Hn]|(-> & _ & H3)];
    [rewrite Hn; by repeat case_match|]. cbn [negb app] in H3 |- *.
  rewrite (vbind_some _ _ _ _ _ (phys_to_virtual_ok _ _ (t_table _ _ _ HT _ _ H3))).
  unfold path3. by rewrite H1, H2, H3.
Qed.

(** The tables left and the free pages after [unmap]: from the tree only tables on the way to [v] whose every entry led to [v]
    are gone; those still there are not empty; and the pages of the tables that are gone are free. *)
Record unmapped (s : Virt) (P : list Z) (T : gmap (list Z) Z) (v : Z) (s' : Virt) (P' : list Z) (T' : gmap (list Z) Z) : Prop := {
  um_sub : T' ⊆ T;
  um_gone : forall q t, T !! q = Some t -> T' !! q = None ->
    q <> [] /\ forall j, 0 <= j < 512 -> entry (words s) t j <> 0 -> q ++ [j] `prefix_of` path3 v ++ [index_for_addr v 0];
  um_kept : forall q t, q <> [] -> q `prefix_of` path3 v -> T' !! q = Some t -> exists j, 0 <= j < 512 /\ entry (words s') t j <> 0;
  um_free : exists l, NoDup l /\ (forall t, t ∈ l <-> exists q, T !! q = Some t /\ T' !! q = None) /\
    (Forall (fun t => page_clean (vphys s) (t / PAGE_SIZE)) l -> P' ≡ₚ ((fun t => t / PAGE_SIZE) <$> l) ++ P);
}.

Lemma unmap_tail_ok s P root T cpu v pdp pd pt :
  vinv s P root T -> T !! [index_for_addr v 3] = Some pdp -> T !! [index_for_addr v 3; index_for_addr v 2] = Some pd ->
  T !! path3 v = Some pt ->
  let w1 := <[slot_addr pt (index_for_addr v 0) := 0]> (words s) in
  exists s' P' T', unmap_tail cpu v root pdp pd pt s = Some (tt, s') /\ vinv s' P' root T' /\
    shrink w1 T (words s') T' /\ unmapped s P T v s' P' T'.
Proof.
  intros Hv H1 H2 H3. cbv zeta. pose proof (vinv_write_leaf s P root T v pt 0 Hv H3) as Hv1.
  set (s1 := with_words s _) in Hv1.
  destruct (drop_chain_ok s1 P root T v pd pdp pt Hv1 H1 H2 H3) as (l & s2 & T2 & Hd & [D1 D2 D3 D4 D5 D6 D7 D8]).
  destruct (shootdown_mem cpu v (with_flush s2 v)) as (s3 & Hs3 & (K1 & K2 & K3 & K4)).
  destruct Hv1 as [HT1 Hph1 Htk1 Hsm1]. cbn [vphys words with_flush] in K1, K2.
  destruct (release_all s3 P root T2 l) as (s4 & P4 & Hr & Hv4 & Hw4 & HP4).
  - split; [by rewrite K1|by rewrite K2, D3| |done]. intros q t Hq. apply (Htk1 q). by apply (sh_sub _ _ _ _ D2).
  - done.
  - intros x (q & Hq & Hn)%D6. split_and!; [by apply (t_table _ _ _ HT1 q)|by eapply Htk1|].
    intros q' Hq'. pose proof (sh_sub _ _ _ _ D2 _ _ Hq') as Hq2. rewrite (t_inj _ _ _ HT1 _ _ _ Hq Hq2) in Hn. congruence.
  - exists s4, P4, T2. split; [|split; [done|]].
    { unfold unmap_tail. unfold vbind at 1, wr, vmod. fold s1. rewrite (vbind_some _ _ _ _ _ Hd).
      unfold vbind at 1, invlpg, vmod. by rewrite (vbind_some _ _ _ _ _ Hs3). }
    rewrite Hw4, K1. split; [exact D2|]. split.
    + apply map_subseteq_spec. apply D2.
    + intros q t Hq Hn. destruct (D7 q t Hq Hn) as [Hq0 Ho]. split; [done|]. intros j Hj He.
      destruct (decide (pt = t /\ index_for_addr v 0 = j)) as [[<- <-]|Hdd].
      * by rewrite (t_inj _ _ _ HT1 _ _ _ Hq H3).
      * apply prefix_app_r, Ho; [done|]. unfold s1. cbn [words with_words].
        rewrite entry_insert by (eauto using t_table, index_bound). by rewrite decide_False.
    + intros q t. rewrite Hw4, K1. apply D8.
    + exists l. split; [done|]. split; [done|]. intros Hcl. apply HP4. by rewrite K2, D3.
Qed.

(** C11: [unmap] removes the page and nothing else, and gives back exactly the tables that it emptied.  With no huge page on
    the way it does not panic, the page is no longer mapped afterwards, every other page keeps its mapping, and the tables
    that remain are a tree of distinct allocated pages, none of them free.  If the page had a page table, then no table on the
    way to the page is left empty; a table is gone only if all its entries led to the page; and the pages of the tables that are
    gone, where they are pages of the allocator with one reference, are exactly the pages that became free. *)
Theorem unmap_correct s P root T cpu v :
  vinv s P root T -> PT_INITIALIZED s = true -> cr3 s = root -> no_huge s root v = true ->
  exists s' P' T', unmap cpu v s = Some (tt, s') /\ vinv s' P' root T' /\ page_entry s' root v = None /\
    (forall v', ~ same_page v v' -> no_huge s root v' = true -> page_entry s' root v' = page_entry s root v') /\
    (if T !! path3 v is Some _ then unmapped s P T v s' P' T' else s' = s /\ P' = P /\ T' = T).
Proof.
  intros Hv Hin Hcr Hnh. pose proof Hv as [HT Hph Htk Hsm]. pose proof (t_root _ _ _ HT) as Hr.
  pose proof (no_huge_plain s root T v HT Hnh) as Hpl.
  rewrite (unmap_walk s root T cpu v HT Hpl Hin Hcr).
  destruct (T !! path3 v) as [pt|] eqn:H3.
  2: { exists s, P, T. split_and!; [by repeat case_match|done| |done..].
    rewrite (page_entry_leaf s root T v HT Hpl). unfold leaf. by rewrite H3. }
  destruct (tree_prefix _ _ _ [index_for_addr v 3; index_for_addr v 2] [index_for_addr v 1] _ HT H3) as [pd H2].
  destruct (tree_prefix _ _ _ [index_for_addr v 3] [index_for_addr v 2] _ HT H2) as [pdp H1]. rewrite H1, H2.
  destruct (unmap_tail_ok s P root T cpu v pdp pd pt Hv H1 H2 H3) as (s' & P' & T' & Hu & Hv' & Hsh & Hum).
  assert (forall v', plain (words s) T v' -> page_entry s' root v' = leaf (<[slot_addr pt (index_for_addr v 0) := 0]> (words s)) T v')
    as Hpe.
  { intros v' Hp'. rewrite (page_entry_leaf s' root T' v'); [apply Hsh|apply Hv'|].
    apply (sh_plain _ _ _ _ Hsh). apply (write_leaf_plain _ root _ v); [done|done|apply index_bound|done]. }
  exists s', P', T'. split_and!; [done|done| | |done].
  - rewrite Hpe by done. by apply leaf_cleared.
  - intros v' Hns Hnh'. pose proof (no_huge_plain s root T v' HT Hnh') as Hp'. rewrite Hpe by done.
    rewrite (page_entry_leaf s root T v' HT Hp'). by eapply leaf_write.
Qed.

(** ** A machine with an empty PML4 at 0x8000 and eight free pages *)

Definition virt_demo : Virt :=
  mkVirt demo ∅ 0x8000 0x8000 true 0 (default percpu_boot (mark_online percpu_boot 0)) [] 0.

Lemma virt_demo_inv : vinv virt_demo (seqZ 16 8) 0x8000 {[ [] := 0x8000 ]}.
Proof.
  split; [split|exact demo_inv| |].
  - apply lookup_singleton_eq.
  - intros p t [_ <-]%lookup_singleton_Some. split; [done|]. unfold DIRECT_MAP_SIZE. lia.
  - intros p t [<- _]%lookup_singleton_Some. simpl. lia.
  - by intros p q t [<- _]%lookup_singleton_Some [<- _]%lookup_singleton_Some.
  - intros p i c [He _]%lookup_singleton_Some. by destruct p.
  - intros p t i [<- <-]%lookup_singleton_Some _ _. by rewrite lookup_singleton_ne.
  - intros p t [_ <-]%lookup_singleton_Some [? ?]%elem_of_seqZ. unfold PAGE_SIZE in *. div_lia.
  - intros pn Hpn%elem_of_seqZ. unfold DIRECT_MAP_SIZE, PAGE_SIZE. div_lia.
Qed.

Lemma map_page_correct_witness :
  exists s', map_page 0x8000 0x401000 0x9000 7 virt_demo = Some (tt, s') /\
    translate 0x401000 s' = Some (Some 0x9000, s').
Proof.
  destruct (map_page_correct virt_demo (seqZ 16 8) 0x8000 {[ [] := 0x8000 ]} 0x401000 0x9000 7)
    as (s' & P' & T' & H1 & _ & _ & H2 & _).
  - exact virt_demo_inv.
  - vm_compute. reflexivity.
  - vm_compute. lia.
  - reflexivity.
  - lia.
  - reflexivity.
  - reflexivity.
  - exists s'. split; [exact H1|]. apply H2; reflexivity.
Defined.

(** The page 0x401000 mapped there, with three new tables. *)
Lemma virt_demo_mapped :
  exists s P T, map_page 0x8000 0x401000 0x9000 7 virt_demo = Some (tt, s) /\ vinv s P 0x8000 T /\ is_Some (T !! path3 0x401000).
Proof.
  destruct (leaf_table_ok virt_demo (seqZ 16 8) 0x8000 {[ [] := 0x8000 ]} 0x401000 7) as (s1 & P1 & T1 & c & Hlt & Hv1 & _ & Hc & _).
  - exact virt_demo_inv.
  - by apply (no_huge_plain virt_demo 0x8000); [apply virt_demo_inv|vm_compute].
  - vm_compute. lia.
  - eexists _, P1, T1. split; [unfold map_page; by rewrite (vbind_some _ _ _ _ _ Hlt)|]. split; [by apply vinv_write_leaf|by eexists].
Qed.

(** Unmapping the page gives the three tables back. *)
Lemma unmap_correct_witness :
  exists s s', map_page 0x8000 0x401000 0x9000 7 virt_demo = Some (tt, s) /\ unmap 0 0x401000 s = Some (tt, s') /\
    page_entry s' 0x8000 0x401000 = None /\ free_pages_count (vphys s) = 5 /\ free_pages_count (vphys s') = 8.
Proof.
  destruct virt_demo_mapped as (s & P & T & Hm & Hv & Ht).
  assert (Hc : free_pages_count (vphys s) = 5 /\ (snd <$> unmap 0 0x401000 s) ≫= (fun s' => Some (free_pages_count (vphys s'))) = Some 8 /\
    PT_INITIALIZED s = true /\ cr3 s = 0x8000 /\ no_huge s 0x8000 0x401000 = true).
  { enough ((fun s => (free_pages_count (vphys s), (snd <$> unmap 0 0x401000 s) ≫= (fun s' => Some (free_pages_count (vphys s'))),
      PT_INITIALIZED s, cr3 s, no_huge s 0x8000 0x401000)) <$> (snd <$> map_page 0x8000 0x401000 0x9000 7 virt_demo) = Some (5, Some 8, true, 0x8000, true)) as E.
    - rewrite Hm in E. cbn [fmap option_fmap option_map snd] in E. injection E as E1 E2 E3 E4 E5. split_and!; assumption.
    - vm_compute. reflexivity. }
  destruct Hc as (Hc & Hu & Hi & Hr & Hn).
  destruct (unmap_correct s P 0x8000 T 0 0x401000 Hv Hi Hr Hn) as (s' & P' & T' & H1 & _ & H2 & _).
  exists s, s'. split; [exact Hm|]. split; [exact H1|]. split; [exact H2|]. split; [exact Hc|].
  rewrite H1 in Hu. injection Hu as Hu. exact Hu.
Defined.
