(* ===== verification/VirtHuge.v ===== *)
(** Huge pages and TLB shootdown: what the operations of [Virt] do to 2 MB
    mappings, and which addresses other CPUs invalidate. *)
From stdpp Require Import base tactics numbers list gmap.
From Stdlib Require Import ZArith Lia.
From S2P Require Import Prelude Phys PhysInv PhysSpec PhysThms KMem Percpu Virt VirtTree VirtThms.

Local Open Scope Z_scope.
Local Opaque zero_words.

(** ** Unmapping inside a 2 MB page *)

Lemma flush_and_shootdown_mem cpu a s : exists s', tlb_flush_and_shootdown cpu a s = Some (tt, s') /\ same_mem s s'.
Proof.
  destruct (shootdown_mem cpu a (with_flush s a)) as (s' & H & K). exists s'. split; [|done].
  unfold tlb_flush_and_shootdown. unfold vbind, invlpg, vmod. exact H.
Qed.

(** The three entries above a page of the table [root]. *)
Definition pml4e (s : Virt) (root v : Z) : Z := entry (words s) root (index_for_addr v 3).
Definition pdpe (s : Virt) (root v : Z) : Z :=
  entry (words s) (Z.land (pml4e s root v) PHYS_ADDR_MASK) (index_for_addr v 2).
Definition pde (s : Virt) (root v : Z) : Z :=
  entry (words s) (Z.land (pdpe s root v) PHYS_ADDR_MASK) (index_for_addr v 1).

(** [unmap_from_huge_page] looks for the PS bit one level too high: in an
    address mapped by a 2 MB page it neither splits nor unmaps, but clears a
    word of the memory that the page maps. *)
Theorem huge_page_not_split s cpu root v :
  PT_INITIALIZED s = true -> cr3 s = root -> table_ok root ->
  is_child (pml4e s root v) = true -> table_ok (Z.land (pml4e s root v) PHYS_ADDR_MASK) ->
  is_child (pdpe s root v) = true -> table_ok (Z.land (pdpe s root v) PHYS_ADDR_MASK) ->
  is_huge (pde s root v) = true -> table_ok (Z.land (pde s root v) PHYS_ADDR_MASK) ->
  exists s', unmap_from_huge_page cpu v s = Some (tt, s') /\
    words s' = <[slot_addr (Z.land (pde s root v) PHYS_ADDR_MASK) (index_for_addr v 0) := 0]> (words s) /\
    (Z.land (pde s root v) PHYS_ADDR_MASK <> Z.land (pml4e s root v) PHYS_ADDR_MASK ->
     Z.land (pde s root v) PHYS_ADDR_MASK <> Z.land (pdpe s root v) PHYS_ADDR_MASK ->
     Z.land (pde s root v) PHYS_ADDR_MASK <> root -> pde s' root v = pde s root v).
Proof.
  intros Hin Hcr Hr H4 T4 H3 T3 H2 T2. unfold is_child, is_huge in *.
  apply andb_true_iff in H4 as [P4 S4%negb_true_iff]. apply andb_true_iff in H3 as [P3 S3%negb_true_iff].
  apply andb_true_iff in H2 as [P2 S2].
  set (b := Z.land (pde s root v) PHYS_ADDR_MASK) in *.
  set (s1 := with_words s (<[slot_addr b (index_for_addr v 0) := 0]> (words s))).
  destruct (flush_and_shootdown_mem cpu v s1) as (s' & Hf & (K1 & _)). exists s'. split; [|split; [done|]].
  - unfold unmap_from_huge_page. unfold vbind at 1, vget at 1. rewrite Hin. cbn [negb].
    unfold vbind at 1, vget at 1. rewrite Hcr, (table_mask root) by done.
    rewrite (vbind_some _ _ _ _ _ (phys_to_virtual_ok _ _ Hr)). cbv zeta.
    rewrite (vbind_some _ _ _ _ _ (rd_entry _ _ _)). fold (pml4e s root v). rewrite P4, S4. cbn [negb].
    rewrite (vbind_some _ _ _ _ _ (phys_to_virtual_ok _ _ T4)).
    rewrite (vbind_some _ _ _ _ _ (rd_entry _ _ _)). fold (pdpe s root v). rewrite P3, S3. cbn [negb].
    rewrite (vbind_some _ _ _ _ _ (phys_to_virtual_ok _ _ T3)).
    rewrite (vbind_some _ _ _ _ _ (rd_entry _ _ _)). fold (pde s root v). rewrite P2. cbn [negb]. fold b.
    rewrite (vbind_some _ _ _ _ _ (phys_to_virtual_ok _ _ T2)). unfold vbind, wr, vmod. exact Hf.
  - intros N4 N3 Nr. unfold pde, pdpe, pml4e. rewrite K1. cbn [words with_words s1].
    rewrite (entry_insert _ b _ 0 root) by (done || apply index_bound). rewrite decide_False by tauto. fold (pml4e s root v).
    rewrite (entry_insert _ b _ 0 (Z.land (pml4e s root v) PHYS_ADDR_MASK)) by (done || apply index_bound).
    rewrite decide_False by tauto. fold (pdpe s root v).
    rewrite (entry_insert _ b _ 0 (Z.land (pdpe s root v) PHYS_ADDR_MASK)) by (done || apply index_bound).
    by rewrite decide_False by tauto.
Qed.

(** ** Splitting a 2 MB page *)

(** The mask that [ensure_table] calls 2 MB aligned keeps bits 25 and up. *)
Lemma huge_2m_mask b : 0 <= b < 2 ^ 52 -> Z.land b HUGE_2M_MASK = b - b mod 0x2000000.
Proof.
  intros Hb. assert (Z.land b HUGE_2M_MASK = Z.land (Z.land b (not64 (2 ^ 25 - 1))) (Z.ones 52)) as ->.
  { rewrite <-Z.land_assoc. f_equal. }
  rewrite land_not64 by lia. rewrite Z.land_ones by lia. change (2 ^ 25) with 0x2000000.
  apply Z.mod_small. div_lia.
Qed.

(** The frame that page [i] of a split 2 MB page gets is the one it was mapped
    to only when the huge page starts on a 32 MB boundary. *)
Theorem split_changes_frames e i :
  0 <= e < 2 ^ 52 -> Z.land e PHYS_ADDR_MASK mod 0x200000 = 0 ->
  (Z.land e HUGE_2M_MASK + i * 0x1000 = Z.land e PHYS_ADDR_MASK + i * 0x1000 <-> Z.land e PHYS_ADDR_MASK mod 0x2000000 = 0).
Proof.
  intros He Hal.
  assert (0 <= Z.land e PHYS_ADDR_MASK < 2 ^ 52) as Hb.
  { change PHYS_ADDR_MASK with (Z.land PHYS_ADDR_MASK (Z.ones 52)). rewrite Z.land_assoc, Z.land_ones by lia.
    apply Z.mod_pos_bound. lia. }
  assert (Z.land e HUGE_2M_MASK = Z.land (Z.land e PHYS_ADDR_MASK) HUGE_2M_MASK) as ->
    by (rewrite <-Z.land_assoc; f_equal).
  rewrite huge_2m_mask by done. lia.
Qed.

(** ** Shootdown *)

(** The flag of one CPU after a request for address [a]. *)
Definition pend_value (prev a : Z) : Z :=
  if negb (prev =? 0) && negb (prev =? a) && negb (prev =? U64_MAX) then U64_MAX else a.

Lemma pend_loop cpu a l s :
  NoDup l -> length (PERCPU (vpc s)) = MAX_CPUS -> Forall (fun i => (i < MAX_CPUS)%nat) l ->
  exists s', vfor l (fun i =>
      (let* p := vget vpc in if negb (i =? cpu)%nat && is_online p i then set_pending_flush i a else vret tt)%vm) s
      = Some (tt, s') /\
    length (PERCPU (vpc s')) = MAX_CPUS /\
    forall j, (j < MAX_CPUS)%nat -> slot (vpc s') j =
      if bool_decide (j ∈ l) && negb (j =? cpu)%nat && is_online (vpc s) j
      then with_pending_tlb_flush (slot (vpc s) j) (pend_value (pending_tlb_flush (slot (vpc s) j)) a)
      else slot (vpc s) j.
Proof.
  revert s. induction l as [|i l IH]; intros s Hnd Hlen Hl; simpl; [by exists s|].
  apply NoDup_cons in Hnd as [Hi Hnd]. apply Forall_cons in Hl as [Hib Hl].
  set (s1 := if negb (i =? cpu)%nat && is_online (vpc s) i then
    with_vpc s (set_slot (vpc s) i (with_pending_tlb_flush (slot (vpc s) i)
      (pend_value (pending_tlb_flush (slot (vpc s) i)) a))) else s).
  assert (forall j, (j < MAX_CPUS)%nat -> j <> i -> slot (vpc s1) j = slot (vpc s) j) as Hother.
  { intros j Hj Hne. unfold s1. destruct (_ && _); [|done]. unfold slot, set_slot. simpl. by rewrite list_lookup_insert_ne. }
  assert (length (PERCPU (vpc s1)) = MAX_CPUS) as Hlen1
    by (unfold s1; destruct (_ && _); [unfold set_slot; simpl; by rewrite length_insert|done]).
  destruct (IH s1 Hnd Hlen1 Hl) as (s' & H1 & H2 & H3). exists s'. split; [|split; [done|]].
  - unfold vbind at 1, vget. unfold vbind at 1. unfold s1 in H1. destruct (negb (i =? cpu)%nat && is_online (vpc s) i); exact H1.
  - intros j Hj. rewrite H3 by done. destruct (decide (j = i)) as [->|Hne].
    + rewrite (bool_decide_eq_false_2 (i ∈ l)), (bool_decide_eq_true_2 (i ∈ i :: l)) by (done || by left). simpl.
      unfold s1. destruct (_ && _); [|done]. unfold slot, set_slot. simpl. by rewrite list_lookup_insert_eq by lia.
    + unfold is_online, slot_of in *. rewrite !Nat.mod_small in * by done. rewrite Hother by done.
      assert (bool_decide (j ∈ l) = bool_decide (j ∈ i :: l)) as ->; [|done]. apply bool_decide_ext. set_solver.
Qed.

Lemma vfor_vpc l (f : Z -> Z) s : exists s', vfor l (fun k => invlpg (f k)) s = Some (tt, s') /\ vpc s' = vpc s.
Proof.
  revert s. induction l as [|x l IH]; intros s; simpl; [by exists s|]. unfold vbind, invlpg at 1, vmod.
  destruct (IH (with_flush s (f x))) as (s' & H1 & H2). by exists s'.
Qed.

(** A range shootdown reaches only its last page.  After [tlb_shootdown_range] over two or more pages, another
    online CPU that had nothing pending invalidates the last page of the range at its next
    interrupt and no other page of it. *)
Theorem shootdown_range_last_page s cpu start n i :
  length (PERCPU (vpc s)) = MAX_CPUS -> (i < MAX_CPUS)%nat -> i <> cpu -> is_online (vpc s) i = true ->
  pending_tlb_flush (slot (vpc s) i) = 0 ->
  start mod PAGE_SIZE = 0 -> 0 <= start -> 2 <= n -> start + n * PAGE_SIZE <= U64_MAX - PAGE_SIZE ->
  exists s', tlb_shootdown_range cpu start (start + n * PAGE_SIZE) s = Some (tt, s') /\
    fst (take_pending (vpc s') i) = Some [start + (n - 1) * PAGE_SIZE].
Proof.
  intros Hlen Hi Hne Hon Hpend Hal Hst Hn Hend. unfold PAGE_SIZE, U64_MAX in *.
  assert (Z.land start (not64 (4096 - 1)) = start) as Hps.
  { change (4096 - 1) with (2 ^ 12 - 1). rewrite land_not64 by lia. change (2 ^ 12) with 4096. lia. }
  assert (Z.land (wrap 64 (start + n * 4096 + (4096 - 1))) (not64 (4096 - 1)) = start + n * 4096) as Hpe.
  { rewrite wrap_small by lia. change (4096 - 1) with (2 ^ 12 - 1). rewrite land_not64 by lia.
    change (2 ^ 12) with 4096. div_lia. }
  unfold tlb_shootdown_range, PAGE_SIZE. cbv zeta. rewrite Hps, Hpe.
  destruct (Z.gtb_spec (start + n * 4096) start); [|lia].
  destruct (pend_loop cpu (start + n * 4096 - 4096) (seq 0 MAX_CPUS) s) as (s1 & H1 & H2 & H3);
    [apply NoDup_seq|done|apply Forall_forall; intros j Hj%elem_of_seq; lia|].
  unfold pend_others. rewrite (vbind_some _ _ _ _ _ H1).
  destruct (vfor_vpc (seqZ 0 ((start + n * 4096 - start) / 4096)) (fun k => start + k * 4096) s1) as (s2 & H4 & H5).
  rewrite (vbind_some _ _ _ _ _ H4). eexists. split; [reflexivity|]. cbn [vpc with_ipi]. unfold take_pending. rewrite H5, H3 by done.
  rewrite (bool_decide_eq_true_2 (i ∈ seq 0 MAX_CPUS)) by (apply elem_of_seq; lia).
  rewrite (proj2 (Nat.eqb_neq i cpu)), Hon, Hpend by done. simpl.
  replace (start + n * 4096 - 4096) with (start + (n - 1) * 4096) by lia.
  change (pend_value 0 (start + (n - 1) * 4096)) with (start + (n - 1) * 4096).
  unfold U64_MAX. rewrite !(proj2 (Z.eqb_neq (start + (n - 1) * 4096) _)) by lia. done.
Qed.

(** CPUs 0 and 1 online. *)
Definition virt_two : Virt :=
  with_vpc virt_demo (default percpu_boot (mark_online (vpc virt_demo) 1)).

Lemma shootdown_range_last_page_witness :
  exists s', tlb_shootdown_range 0 0x10000 0x14000 virt_two = Some (tt, s') /\
    fst (take_pending (vpc s') 1) = Some [0x13000].
Proof.
  apply (shootdown_range_last_page virt_two 0 0x10000 4 1); try (vm_compute; reflexivity); try (unfold PAGE_SIZE, U64_MAX, MAX_CPUS; lia).
Defined.
