(* ===== verification/VmLaws.v ===== *)
(** What operations on page tables do to the page allocator: queries and
    updates of entries leave it alone, mapping only takes pages.  The laws are
    closed under the constructs of the [VM] monad, so they follow from the
    shape of an operation. *)
From stdpp Require Import base tactics numbers list gmap.
From Stdlib Require Import ZArith Lia.
From S2P Require Import Prelude Phys PhysInv PhysSpec KMem Percpu Virt.

Local Open Scope Z_scope.
Local Opaque zero_words indices.

(** ** Operations that leave the page allocator alone *)

Definition keeps_phys {A} (m : VM A) : Prop := forall s x s', m s = Some (x, s') -> vphys s' = vphys s.

Lemma keeps_bind {A B} (m : VM A) (k : A -> VM B) : keeps_phys m -> (forall x, keeps_phys (k x)) -> keeps_phys (vbind m k).
Proof.
  intros Hm Hk s x s'. unfold vbind. destruct (m s) as [[y s1]|] eqn:E; [|done]. intros H. rewrite (Hk y s1 x s' H). by eapply Hm.
Qed.

Lemma keeps_ret {A} (x : A) : keeps_phys (vret x).
Proof. by intros s y s' [= <- <-]. Qed.
Lemma keeps_panic {A} : keeps_phys (@vpanic A).
Proof. by intros s y s'. Qed.
Lemma keeps_get {A} (f : Virt -> A) : keeps_phys (vget f).
Proof. by intros s y s' [= <- <-]. Qed.
Lemma keeps_mod f : (forall s, vphys (f s) = vphys s) -> keeps_phys (vmod f).
Proof. intros H s y s' [= <- <-]. apply H. Qed.
Lemma keeps_for {A} (l : list A) f : (forall x, keeps_phys (f x)) -> keeps_phys (vfor l f).
Proof. intros H. induction l as [|x l IH]; simpl; [apply keeps_ret|]. by apply keeps_bind. Qed.

Ltac keeps :=
  repeat match goal with
  | |- forall _, _ => intros ?
  | |- keeps_phys (vbind _ _) => apply keeps_bind
  | |- keeps_phys (vret _) => apply keeps_ret
  | |- keeps_phys vpanic => apply keeps_panic
  | |- keeps_phys (vget _) => apply keeps_get
  | |- keeps_phys (vfor _ _) => apply keeps_for
  | |- keeps_phys (vmod _) => apply keeps_mod; reflexivity
  | |- keeps_phys (match ?x with _ => _ end) => destruct x
  end.

(** ** Operations that only take pages *)

Definition takes {A} (m : VM A) : Prop :=
  forall s P x s', phys_inv (vphys s) P -> m s = Some (x, s') -> exists P', P' ⊆+ P /\ phys_inv (vphys s') P'.

Lemma takes_keeps {A} (m : VM A) : keeps_phys m -> takes m.
Proof. intros Hm s P x s' HP He. exists P. split; [done|]. by rewrite (Hm s x s' He). Qed.

Lemma takes_bind {A B} (m : VM A) (k : A -> VM B) : takes m -> (forall x, takes (k x)) -> takes (vbind m k).
Proof.
  intros Hm Hk s P x s' HP. unfold vbind. destruct (m s) as [[y s1]|] eqn:E; [|done]. intros He.
  destruct (Hm s P y s1 HP E) as (P1 & Hs1 & HP1). destruct (Hk y s1 P1 x s' HP1 He) as (P2 & Hs2 & HP2).
  exists P2. split; [by etrans|done].
Qed.

Lemma takes_alloc : takes alloc.
Proof.
  intros s P x s' HP. unfold alloc, alloc_page. pose proof (alloc_order_inv (vphys s) P 0 HP ltac:(lia)) as Ha.
  destruct (alloc_order (vphys s) 0) as [[a|] p']; intros [= <- <-].
  - destruct Ha as (P' & Hinv & HP' & _). exists P'. split; [|done]. rewrite HP'. by apply submseteq_inserts_l.
  - destruct Ha as [-> _]. by exists P.
Qed.

Lemma takes_expect {A} (m : VM (option A)) : takes m -> takes (vexpect m).
Proof. intros Hm. apply takes_bind; [done|]. intros [x|]; apply takes_keeps; [apply keeps_ret|apply keeps_panic]. Qed.

Lemma keeps_rd a : keeps_phys (rd a).
Proof. apply keeps_get. Qed.
Lemma keeps_wr a v : keeps_phys (wr a v).
Proof. apply keeps_mod. reflexivity. Qed.
Lemma keeps_invlpg a : keeps_phys (invlpg a).
Proof. apply keeps_mod. reflexivity. Qed.
Lemma keeps_new_zeroed t : keeps_phys (new_zeroed t).
Proof. apply keeps_mod. reflexivity. Qed.
Lemma keeps_phys_to_virtual a : keeps_phys (phys_to_virtual a).
Proof. unfold phys_to_virtual. keeps. Qed.

Create HintDb vm_laws.
#[export] Hint Resolve keeps_ret keeps_panic keeps_get keeps_rd keeps_wr keeps_invlpg keeps_new_zeroed keeps_phys_to_virtual keeps_for : vm_laws.
#[export] Hint Resolve takes_keeps takes_alloc takes_expect : vm_laws.

(** Walks down the binds of an operation whose steps are in the database. *)
Ltac vm_laws :=
  repeat match goal with
  | |- takes (vbind _ _) => apply takes_bind; [|intros ?]
  | |- takes _ => progress cbv zeta
  | |- takes (match ?x with _ => _ end) => destruct x
  | |- keeps_phys (vbind _ _) => apply keeps_bind; [|intros ?]
  | |- keeps_phys (match ?x with _ => _ end) => destruct x
  end; auto with vm_laws.

Lemma takes_alloc_table : takes alloc_table.
Proof.
  apply takes_bind; [auto with vm_laws|intros page]. apply takes_bind; [auto with vm_laws|intros t].
  apply takes_bind; auto with vm_laws.
Qed.
#[export] Hint Resolve takes_alloc_table : vm_laws.

Lemma keeps_fill t base step f : keeps_phys (fill_split t base step f).
Proof. apply keeps_for. auto with vm_laws. Qed.
#[export] Hint Resolve keeps_fill : vm_laws.

Lemma takes_split ea f lvl v : takes (split_entry ea f lvl v).
Proof. apply takes_bind; [auto with vm_laws|intros page]. vm_laws. Qed.
#[export] Hint Resolve takes_split : vm_laws.

Lemma takes_ensure ea f lvl v : takes (ensure_table ea f lvl v).
Proof. apply takes_bind; [auto with vm_laws|intros cur]. vm_laws. Qed.
#[export] Hint Resolve takes_ensure : vm_laws.

Lemma takes_descend t i f u lvl v : takes (descend t i f u lvl v).
Proof. apply takes_bind; [auto with vm_laws|intros next]. vm_laws. Qed.
#[export] Hint Resolve takes_descend : vm_laws.

Lemma takes_leaf_table pml4 v f : takes (leaf_table pml4 v f).
Proof. unfold leaf_table. vm_laws. Qed.
#[export] Hint Resolve takes_leaf_table : vm_laws.

Lemma takes_batches fuel pml4 v p n f : takes (map_batches fuel pml4 v p n f).
Proof.
  revert v p n. induction fuel as [|fuel IH]; intros v p n; cbn [map_batches]; [auto with vm_laws|]. vm_laws.
Qed.
#[export] Hint Resolve takes_batches : vm_laws.

Lemma takes_map_contiguous pml4 v p n f : takes (map_contiguous pml4 v p n f).
Proof. unfold map_contiguous. vm_laws. Qed.
#[export] Hint Resolve takes_map_contiguous : vm_laws.

Lemma keeps_is_nx pml4 v : keeps_phys (is_nx pml4 v).
Proof. unfold is_nx. vm_laws. Qed.
#[export] Hint Resolve keeps_is_nx : vm_laws.
