(* ===== verification/Heap.v ===== *)
(** The kernel heap (src/kernel/src/mm/heap.rs): nine slab caches over the
    page allocator, and direct page allocation for large or strongly aligned
    requests.

    Slab headers live in the first bytes of their pages ([slabs], by virtual
    address) and free objects hold the link of the free list ([links]).  The
    page allocator and the page tables are the interface [HeapMem].  Cache
    locks are released around the page allocator, so the slow path is split
    at that point: [new_slab] builds a slab nobody else sees, [install]
    publishes it in whatever state the cache then is. *)
From stdpp Require Import base tactics numbers list gmap.
From Stdlib Require Import ZArith Lia.
From S2P Require Import Prelude Phys KMem.

Local Open Scope Z_scope.
Local Open Scope word_scope.

(** Beyond [KernelMem], the heap calls [phys::alloc_order]. *)
Class HeapMem (M : Type) `{!KernelMem M} := {
  order_alloc : M -> nat -> option Z * M;
}.

Record Slab := mkSlab {
  free_head : Z;
  slab_base : Z;
  snext : Z;
  sprev : Z;
  sorder : nat;
  total_objs : Z;
  free_objs : Z;
}.

Definition set_links (s : Slab) (n p : Z) : Slab :=
  mkSlab (free_head s) (slab_base s) n p (sorder s) (total_objs s) (free_objs s).
Definition set_free (s : Slab) (hd n : Z) : Slab :=
  mkSlab hd (slab_base s) (snext s) (sprev s) (sorder s) (total_objs s) n.

(** [size_of::<Slab>()]: four pointers, a [u8] and two [u16], padded to 8. *)
Definition SLAB_HEADER : Z := 40.

Record KmemCache := mkCache {
  obj_size : Z;
  slab_order : nat;
  objs_per_slab : Z;
  partial : Z;
  cfree : Z;
  full : Z;
}.

Definition new_const (size : Z) (order : nat) (objs : Z) : KmemCache := mkCache size order objs 0 0 0.

(** The three slab lists of a cache. *)
Inductive Which := WPartial | WFree | WFull.
#[export] Instance Which_eq_dec : EqDecision Which.
Proof. solve_decision. Defined.

Definition list_head (c : KmemCache) (w : Which) : Z :=
  match w with WPartial => partial c | WFree => cfree c | WFull => full c end.
Definition set_list_head (c : KmemCache) (w : Which) (p : Z) : KmemCache :=
  match w with
  | WPartial => mkCache (obj_size c) (slab_order c) (objs_per_slab c) p (cfree c) (full c)
  | WFree => mkCache (obj_size c) (slab_order c) (objs_per_slab c) (partial c) p (full c)
  | WFull => mkCache (obj_size c) (slab_order c) (objs_per_slab c) (partial c) (cfree c) p
  end.

Record Heap (M : Type) := mkHeap {
  hm : M;
  slabs : gmap Z Slab;
  links : gmap Z Z;
  caches : list KmemCache;
  initialized : bool;
}.
Arguments mkHeap {M}.
Arguments hm {M}.
Arguments slabs {M}.
Arguments links {M}.
Arguments caches {M}.
Arguments initialized {M}.

Section heap.
Context {M : Type} `{!KernelMem M, !HeapMem M}.
Implicit Types (h : Heap M).

Definition with_hm h (m : M) : Heap M := mkHeap m (slabs h) (links h) (caches h) (initialized h).
Definition with_slabs h (t : gmap Z Slab) : Heap M := mkHeap (hm h) t (links h) (caches h) (initialized h).
Definition with_links h (t : gmap Z Z) : Heap M := mkHeap (hm h) (slabs h) t (caches h) (initialized h).
Definition with_caches h (t : list KmemCache) : Heap M := mkHeap (hm h) (slabs h) (links h) t (initialized h).

(** ** Slabs *)

Definition slab_at h (a : Z) : Slab := default (mkSlab 0 0 0 0 0 0 0) (slabs h !! a).
Definition put_slab h (a : Z) (s : Slab) : Heap M := with_slabs h (<[a := s]> (slabs h)).
Definition link_at h (a : Z) : Z := default 0 (links h !! a).

(** [Slab::init]: the chain of all objects, then the header; 0 is null. *)
Definition slab_init h (base : Z) (order : nat) (size : Z) : Z * Heap M :=
  let objects_start := base + SLAB_HEADER in
  let slab_bytes := Z.shiftl 1 (Z.of_nat order) * PAGE_SIZE in
  if (slab_bytes <=? SLAB_HEADER) || (size <? 8) then (0, h)
  else
    let total := wrap 16 ((slab_bytes - SLAB_HEADER) / size) in
    let chain := fold_left (fun t i =>
      <[objects_start + i * size := if i + 1 <? total then objects_start + (i + 1) * size else 0]> t)
      (seqZ 0 total) (links h) in
    (base, put_slab (with_links h chain) base (mkSlab objects_start base 0 0 order total total)).

Definition alloc_obj h (a : Z) : Z * Heap M :=
  let s := slab_at h a in
  if free_objs s =? 0 then (0, h)
  else
    let obj := free_head s in
    (obj, put_slab h a (set_free s (link_at h obj) (free_objs s - 1))).

Definition free_obj h (a obj : Z) : Heap M :=
  let s := slab_at h a in
  put_slab (with_links h (<[obj := free_head s]> (links h))) a (set_free s obj (wrap 16 (free_objs s + 1))).

Definition is_full (s : Slab) : bool := free_objs s =? 0.
Definition is_empty (s : Slab) : bool := free_objs s =? total_objs s.

Definition contains (s : Slab) (obj : Z) : bool :=
  let end_ := slab_base s + Z.shiftl 1 (Z.of_nat (sorder s)) * PAGE_SIZE in
  (obj >=? slab_base s) && (obj <? end_).

(** ** Slab lists *)

Definition cache_at h (i : nat) : KmemCache := default (new_const 0 0 0) (caches h !! i).
Definition put_head h (i : nat) (w : Which) (p : Z) : Heap M :=
  with_caches h (<[i := set_list_head (cache_at h i) w p]> (caches h)).

(** [push_partial_ptr], [push_full_ptr] and [push_free_ptr]. *)
Definition push_ptr h (i : nat) (w : Which) (a : Z) : Heap M :=
  let old := list_head (cache_at h i) w in
  let h1 := put_slab h a (set_links (slab_at h a) old 0) in
  let h2 := if old =? 0 then h1
            else let o := slab_at h1 old in put_slab h1 old (set_links o (snext o) a) in
  put_head h2 i w a.

(** [remove_partial_ptr] and [remove_full_ptr]. *)
Definition remove_ptr h (i : nat) (w : Which) (a : Z) : Heap M :=
  let prev := sprev (slab_at h a) in
  let next := snext (slab_at h a) in
  let h1 := if prev =? 0 then put_head h i w next
            else let p := slab_at h prev in put_slab h prev (set_links p next (sprev p)) in
  let h2 := if next =? 0 then h1
            else let n := slab_at h1 next in put_slab h1 next (set_links n (snext n) prev) in
  put_slab h2 a (set_links (slab_at h2 a) 0 0).

(** A list has at most as many cells as there are slabs. *)
Definition list_fuel h : nat := S (size (slabs h)).

Fixpoint find_in (fuel : nat) h (cur obj : Z) : Z :=
  match fuel with
  | O => 0
  | S fuel =>
    if cur =? 0 then 0
    else if contains (slab_at h cur) obj then cur
    else find_in fuel h (snext (slab_at h cur)) obj
  end.

Definition find_slab_ptr h (i : nat) (obj : Z) : Z :=
  let r := find_in (list_fuel h) h (partial (cache_at h i)) obj in
  if r =? 0 then find_in (list_fuel h) h (full (cache_at h i)) obj else r.

Fixpoint on_list (fuel : nat) h (cur a : Z) : bool :=
  match fuel with
  | O => false
  | S fuel =>
    if cur =? 0 then false else if cur =? a then true else on_list fuel h (snext (slab_at h cur)) a
  end.

Definition remove_from_any_list h (i : nat) (a : Z) : Heap M :=
  if on_list (list_fuel h) h (partial (cache_at h i)) a then remove_ptr h i WPartial a
  else if on_list (list_fuel h) h (full (cache_at h i)) a then remove_ptr h i WFull a
  else h.

(** ** Allocation from a cache *)

(** One object of the first partial slab, else of the first free slab. *)
Definition alloc_fast h (i : nat) : option (Z * Heap M) :=
  let c := cache_at h i in
  if negb (partial c =? 0) then
    let a := partial c in
    let '(obj, h1) := alloc_obj h a in
    Some (obj, if is_full (slab_at h1 a) then push_ptr (remove_ptr h1 i WPartial a) i WFull a else h1)
  else if negb (cfree c =? 0) then
    let a := cfree c in
    let h1 := put_head h i WFree (snext (slab_at h a)) in
    let n := cfree (cache_at h1 i) in
    let h2 := if n =? 0 then h1 else put_slab h1 n (set_links (slab_at h1 n) (snext (slab_at h1 n)) 0) in
    let h3 := put_slab h2 a (set_links (slab_at h2 a) 0 0) in
    let '(obj, h4) := alloc_obj h3 a in
    Some (obj, push_ptr h4 i (if is_full (slab_at h4 a) then WFull else WPartial) a)
  else None.

(** A slab of fresh pages with one object taken; [None] is out of memory. *)
Definition new_slab h (i : nat) : option (Z * Z) * Heap M :=
  let c := cache_at h i in
  match order_alloc (hm h) (slab_order c) with
  | (None, m) => (None, with_hm h m)
  | (Some phys_addr, m) =>
    let virt_base := HIGHER_HALF +u64 phys_addr in
    let m1 := map_contiguous m (kernel_pml4 m) virt_base phys_addr (Z.shiftl 1 (Z.of_nat (slab_order c))) in
    let '(slab, h1) := slab_init (with_hm h m1) virt_base (slab_order c) (obj_size c) in
    let '(obj, h2) := alloc_obj h1 slab in
    (Some (slab, obj), h2)
  end.

Definition unmap_pages (m : M) (base n : Z) : M :=
  fold_left (fun m p => unmap m (base +u64 (p *u64 PAGE_SIZE))) (seqZ 0 n) m.

(** Publishing the slab, or giving its pages back when another CPU was faster. *)
Definition install h (i : nat) (slab obj : Z) : Z * Heap M :=
  match alloc_fast h i with
  | Some (real_obj, h1) =>
    let n := Z.shiftl 1 (Z.of_nat (slab_order (cache_at h i))) in
    (real_obj, with_hm h1 (pages_free (unmap_pages (hm h1) slab n) (slab -u64 HIGHER_HALF) n))
  | None => (obj, push_ptr h i (if is_full (slab_at h slab) then WFull else WPartial) slab)
  end.

Definition cache_alloc h (i : nat) : Z * Heap M :=
  match alloc_fast h i with
  | Some r => r
  | None =>
    match new_slab h i with
    | (None, h1) => (0, h1)
    | (Some (slab, obj), h1) => install h1 i slab obj
    end
  end.

Definition cache_free h (i : nat) (obj : Z) : Heap M :=
  let a := find_slab_ptr h i obj in
  if a =? 0 then h
  else
    let was_full := is_full (slab_at h a) in
    let h1 := free_obj h a obj in
    let now_empty := is_empty (slab_at h1 a) in
    let h2 := if was_full && negb now_empty then push_ptr (remove_ptr h1 i WFull a) i WPartial a else h1 in
    if now_empty then
      let h3 := remove_from_any_list h2 i a in
      let s := slab_at h3 a in
      let n := Z.shiftl 1 (Z.of_nat (sorder s)) in
      let m1 := unmap_pages (hm h3) (slab_base s) n in
      with_hm h3 (pages_free m1 (slab_base s -u64 HIGHER_HALF) n)
    else h2.

(** ** The allocator *)

Definition sizes : list Z := [32; 64; 128; 256; 512; 1024; 2048; 4096; 8192].

Definition cache_params (size : Z) : nat * Z :=
  match first_index (fun o =>
    let avail := Z.shiftl 1 (Z.of_nat o) * PAGE_SIZE - SLAB_HEADER in
    (avail >=? size) && (wrap 16 (avail / size) >=? 1)) (seq 0 5) with
  | Some o => (o, wrap 16 ((Z.shiftl 1 (Z.of_nat o) * PAGE_SIZE - SLAB_HEADER) / size))
  | None => (4%nat, 1)
  end.

Definition caches_boot : list KmemCache :=
  [new_const 32 0 127; new_const 64 0 63; new_const 128 0 31; new_const 256 0 15; new_const 512 0 7;
   new_const 1024 0 3; new_const 2048 0 1; new_const 4096 1 1; new_const 8192 2 1].

Definition heap_init h : Heap M :=
  if initialized h then h
  else mkHeap (hm h) (slabs h) (links h)
    ((fun size => let '(o, n) := cache_params size in new_const size o n) <$> sizes) true.

Definition cache_index (size : Z) : option nat :=
  if size <=? 32 then Some 0%nat
  else if size <=? 64 then Some 1%nat
  else if size <=? 128 then Some 2%nat
  else if size <=? 256 then Some 3%nat
  else if size <=? 512 then Some 4%nat
  else if size <=? 1024 then Some 5%nat
  else if size <=? 2048 then Some 6%nat
  else if size <=? 4096 then Some 7%nat
  else if size <=? 8192 then Some 8%nat
  else None.

(** The sum is that of [usize]; with overflow checks it panics where it wraps here. *)
Definition pages_for (size : Z) : Z := (size +u64 PAGE_SIZE -u64 1) / PAGE_SIZE.

(** [1usize << o]: the shift amount is taken modulo the width (with overflow checks it panics from 64 on). *)
Definition shl_usize (o : nat) : Z := wrap 64 (Z.shiftl 1 (Z.of_nat o mod 64)).

(** [while (1usize << o) < pages { o += 1 }]. *)
Fixpoint order_for (fuel : nat) (o : nat) (pages : Z) : nat :=
  match fuel with
  | O => o
  | S fuel => if shl_usize o <? pages then order_for fuel (S o) pages else o
  end.

(** Whole pages, mapped in the kernel tables. *)
Definition alloc_direct h (size : Z) : Z * Heap M :=
  let pages := pages_for size in
  let order := order_for 64 0 pages in
  if (10 <? order)%nat then (0, h)
  else
    match order_alloc (hm h) order with
    | (None, m) => (0, with_hm h m)
    | (Some phys_addr, m) =>
      let virt_base := HIGHER_HALF +u64 phys_addr in
      (virt_base, with_hm h (map_contiguous m (kernel_pml4 m) virt_base phys_addr pages))
    end.

Definition kmalloc_aligned h (size align : Z) : Z * Heap M :=
  if align >? 16 then alloc_direct h size
  else
    match cache_index size with
    | Some i => cache_alloc h i
    | None => alloc_direct h size
    end.

Definition kmalloc h (size : Z) : Z * Heap M := kmalloc_aligned h size 1.

Definition kfree h (ptr size : Z) : Heap M :=
  match cache_index size with
  | Some i => cache_free h i ptr
  | None =>
    let pages := pages_for size in
    let order := order_for 64 0 pages in
    if (10 <? order)%nat then h
    else
      with_hm h (pages_free (unmap_pages (hm h) ptr pages) (ptr -u64 HIGHER_HALF) (Z.shiftl 1 (Z.of_nat order)))
  end.

(** [GlobalAlloc]. *)
Definition heap_alloc h (size align : Z) : Z * Heap M :=
  if negb (initialized h) then (0, h) else kmalloc_aligned h size align.
Definition heap_dealloc h (ptr size : Z) : Heap M :=
  if ptr =? 0 then h else if negb (initialized h) then h else kfree h ptr size.

(** ** Statistics *)

Record SlabCacheStat := mkStat { st_size : Z; st_slabs : Z * Z * Z; st_total : Z; st_free : Z }.

Fixpoint walk_list (fuel : nat) h (cur : Z) : Z * Z * Z :=
  match fuel with
  | O => (0, 0, 0)
  | S fuel =>
    if cur =? 0 then (0, 0, 0)
    else
      let s := slab_at h cur in
      let '(n, t, f) := walk_list fuel h (snext s) in (n + 1, t + total_objs s, f + free_objs s)
  end.

Definition cache_stat h (size : Z) (c : KmemCache) : SlabCacheStat :=
  let '(np, tp, fp) := walk_list (list_fuel h) h (partial c) in
  let '(nf, tf, ff) := walk_list (list_fuel h) h (full c) in
  let '(ne, te, fe) := walk_list (list_fuel h) h (cfree c) in
  mkStat size (np, nf, ne) (tp + tf + te) (fp + ff + fe).

Definition slab_stats h : list SlabCacheStat :=
  if negb (initialized h) then replicate 9 (mkStat 0 (0, 0, 0) 0 0)
  else zip_with (cache_stat h) sizes (caches h).
End heap.
