(* ===== verification/HeapInv.v ===== *)
(** Invariant of the kernel heap: the slab lists, the free objects of every
    slab and the pages behind them.

    The heap's view of the page allocator is [held m C]: the pages of [C] are
    the heap's until it gives them back. *)
From stdpp Require Import base tactics numbers list gmap sorting.
From Stdlib Require Import ZArith Lia.
From S2P Require Import Prelude Phys PhysInv PhysSpec KMem Heap.

Local Open Scope Z_scope.

(** Block addresses stay inside the direct map. *)
Definition direct_block (o : nat) (a : Z) : Prop := block_wf o a /\ a + block_size o <= 2 ^ 47.

Class HeapMemLaws (M : Type) `{!KernelMem M, !HeapMem M} := {
  held : M -> list Z -> Prop;
  held_nodup : forall m C, held m C -> NoDup C;
  held_perm : forall m C C', C ≡ₚ C' -> held m C -> held m C';
  held_forget : forall m D C, held m (D ++ C) -> held m C;
  held_alloc : forall m o C, (o <= MAX_ORDER)%nat -> held m C ->
    match order_alloc m o with
    | (Some a, m') => held m' (block_pages a o ++ C) /\ direct_block o a
    | (None, m') => held m' C
    end;
  held_map : forall m p v a n C, held m C -> held (map_contiguous m p v a n) C;
  held_unmap : forall m v C, held m C -> held (unmap m v) C;
  held_free : forall m o a C, (o <= MAX_ORDER)%nat -> direct_block o a ->
    held m (block_pages a o ++ C) -> held (pages_free m a (2 ^ Z.of_nat o)) C;
}.

(** ** Doubly linked lists of slabs *)

Fixpoint is_dl (m : gmap Z Slab) (prev p : Z) (l : list Z) : Prop :=
  match l with
  | [] => p = 0
  | a :: l' => p = a /\ a <> 0 /\ exists s, m !! a = Some s /\ sprev s = prev /\ is_dl m a (snext s) l'
  end.

Lemma is_dl_frame m prev p l a s : a ∉ l -> is_dl m prev p l -> is_dl (<[a := s]> m) prev p l.
Proof.
  revert prev p. induction l as [|b l IH]; intros prev p Ha H; [done|]. destruct H as (-> & Hb & t & Ht & Hp & Hl).
  apply not_elem_of_cons in Ha as [Hab Ha]. split_and!; [done..|]. exists t.
  rewrite lookup_insert_ne by done. split_and!; [done..|by apply IH].
Qed.

(** A list does not depend on the fields that are not links. *)
Lemma is_dl_data m prev p l a s s' :
  m !! a = Some s -> snext s' = snext s -> sprev s' = sprev s -> is_dl m prev p l -> is_dl (<[a := s']> m) prev p l.
Proof.
  intros Ha Hn Hp. revert prev p. induction l as [|b l IH]; intros prev p H; [done|].
  destruct H as (-> & Hb & t & Ht & Hpt & Hl). split_and!; [done..|]. destruct (decide (a = b)) as [->|Hne].
  - assert (t = s) as -> by congruence. exists s'. rewrite lookup_insert_eq. split_and!; [done|congruence|].
    rewrite Hn. by apply IH.
  - exists t. rewrite lookup_insert_ne by done. split_and!; [done..|by apply IH].
Qed.

(** Setting the back link of the first cell. *)
Lemma is_dl_prev m prev p l q s :
  is_dl m prev p l -> p <> 0 -> m !! p = Some s -> NoDup l -> is_dl (<[p := set_links s (snext s) q]> m) q p l.
Proof.
  destruct l as [|b l]; [by intros -> ?|]. intros (-> & Hb & t & Ht & Hpt & Hl) _ Hs [Hbl _]%NoDup_cons.
  assert (t = s) as -> by congruence. split_and!; [done..|]. exists (set_links s (snext s) q).
  rewrite lookup_insert_eq. split_and!; [done..|]. by apply is_dl_frame.
Qed.

(** Only links change between the two maps. *)
Definition same_data (m m' : gmap Z Slab) : Prop :=
  forall a s, m !! a = Some s -> exists n p, m' !! a = Some (set_links s n p).

Lemma same_data_refl m : same_data m m.
Proof. intros a s Hs. exists (snext s), (sprev s). by destruct s. Qed.

Lemma same_data_trans m1 m2 m3 : same_data m1 m2 -> same_data m2 m3 -> same_data m1 m3.
Proof.
  intros H1 H2 a s Hs. destruct (H1 a s Hs) as (n & p & Ha). destruct (H2 _ _ Ha) as (n' & p' & Ha').
  by exists n', p'.
Qed.

Lemma same_data_insert m a s n p : m !! a = Some s -> same_data m (<[a := set_links s n p]> m).
Proof.
  intros Hs b t Ht. destruct (decide (a = b)) as [->|Hne].
  - rewrite lookup_insert_eq. assert (t = s) as -> by congruence. by exists n, p.
  - rewrite lookup_insert_ne by done. exists (snext t), (sprev t). by destruct t.
Qed.

Lemma is_dl_head m prev p l : is_dl m prev p l -> (p = 0 <-> l = []).
Proof. destruct l; simpl; [tauto|]. intros (-> & Hz & _). split; [done|discriminate]. Qed.

Lemma is_dl_lookup m prev p l a : is_dl m prev p l -> a ∈ l -> exists s, m !! a = Some s.
Proof.
  revert prev p. induction l as [|b l IH]; intros prev p H Ha; [by apply elem_of_nil in Ha|].
  destruct H as (-> & _ & s & Hs & _ & Hl). apply elem_of_cons in Ha as [->|Ha]; eauto.
Qed.

(** Unlinking cell [a] from the middle of a list. *)
Lemma is_dl_unlink m prev p l1 a l2 s :
  is_dl m prev p (l1 ++ a :: l2) -> NoDup (l1 ++ a :: l2) -> m !! a = Some s -> prev ∉ l1 ++ a :: l2 ->
  let m1 := if snext s =? 0 then m
            else <[snext s := set_links (default s (m !! snext s)) (snext (default s (m !! snext s))) (sprev s)]> m in
  match l1 with
  | [] => p = a /\ sprev s = prev /\ is_dl m1 prev (snext s) l2
  | _ => sprev s <> 0 /\ sprev s <> a /\ sprev s <> snext s /\ sprev s ∈ l1 /\ exists t, m !! sprev s = Some t /\
      is_dl (<[sprev s := set_links t (snext s) (sprev t)]> m1) prev p (l1 ++ l2)
  end.
Proof.
  revert prev p. induction l1 as [|b l1 IH]; intros prev p Hdl Hnd Hs Hprev; cbv zeta.
  - simpl in Hdl. destruct Hdl as (-> & Ha & t & Ht & Hpt & Hl). assert (t = s) as -> by congruence.
    split_and!; [done..|]. destruct (Z.eqb_spec (snext s) 0) as [E|E].
    + rewrite E in Hl. apply (is_dl_head _ _ _ _) in Hl as Hl'. destruct Hl' as [Hl' _]. rewrite (Hl' eq_refl), E. done.
    + destruct l2 as [|c l2]; [simpl in Hl; congruence|]. pose proof Hl as (Hc & _ & u & Hu & _). rewrite Hc in *. rewrite Hu.
      cbn [default from_option id]. rewrite Hpt. eapply is_dl_prev; [exact Hl|done|done|]. simpl in Hnd. by apply NoDup_cons in Hnd as [_ ?].
  - simpl in Hdl, Hnd. destruct Hdl as (-> & Hb & t & Ht & Hpt & Hl). apply NoDup_cons in Hnd as [Hbn Hnd].
    specialize (IH b (snext t) Hl Hnd Hs Hbn). cbv zeta in IH.
    set (m1 := if snext s =? 0 then m else _) in *.
    assert (Hm1b : snext s <> b).
    { intros E. apply Hbn. clear -Hl Hs E Hb. revert Hl. generalize b at 1. generalize (snext t).
      induction l1 as [|c l1 IHl]; intros p0 q0 Hl.
      - simpl in Hl. destruct Hl as (-> & _ & u & Hu & _ & Hl). assert (u = s) as -> by congruence.
        rewrite E in Hl. destruct l2 as [|d l2]; [by simpl in Hl|]. destruct Hl as (<- & _). set_solver.
      - simpl in Hl. destruct Hl as (-> & _ & u & Hu & _ & Hl). right. by eapply IHl. }
    destruct l1 as [|c l1].
    + destruct IH as (Ha & Hpa & Hl'). cbn match. rewrite Hpa. simpl in Hbn. split_and!; [done|set_solver|done|by left|].
      exists t. split; [done|]. simpl. split_and!; [done..|].
      exists (set_links t (snext s) (sprev t)). rewrite lookup_insert_eq. split_and!; [done..|].
      apply is_dl_frame; [set_solver|done].
    + destruct IH as (H1 & H2 & H3 & H4 & t' & Ht' & Hl'). split_and!; [done..|by right|]. exists t'. split; [done|].
      assert (sprev s <> b) as Hsb by (intros E; apply Hbn; rewrite <-E; set_solver).
      change ((b :: c :: l1) ++ l2) with (b :: ((c :: l1) ++ l2)). split_and!; [done..|].
      exists t. split_and!; [|done|done]. rewrite lookup_insert_ne by done. unfold m1.
      destruct (snext s =? 0); [done|]. by rewrite lookup_insert_ne.
Qed.

(** ** Geometry of the caches *)

Definition csize (i : nat) : Z := default 0 (sizes !! i).
Definition corder (i : nat) : nat := fst (cache_params (csize i)).
Definition ctotal (i : nat) : Z := snd (cache_params (csize i)).

Lemma geometry i :
  (i < 9)%nat ->
  8 <= csize i /\ csize i mod 8 = 0 /\ (corder i <= 2)%nat /\ 1 <= ctotal i < 2 ^ 16 /\
  ctotal i = (block_size (corder i) - SLAB_HEADER) / csize i /\
  SLAB_HEADER + ctotal i * csize i <= block_size (corder i) <= 16384.
Proof.
  intros Hi. do 9 (destruct i as [|i]; [vm_compute; repeat split; discriminate || lia|]). lia.
Qed.

(** The address of an object of slab [a] in cache [i]. *)
Definition is_obj (i : nat) (a x : Z) : Prop := exists k, 0 <= k < ctotal i /\ x = a + SLAB_HEADER + k * csize i.

(** The pages of slab [a] of cache [i]. *)
Definition slab_pages (p : nat * Z) : list Z := block_pages (snd p - HIGHER_HALF) (corder (fst p)).

(** The free list of a slab, linked through the objects. *)
Fixpoint chain (lk : gmap Z Z) (p : Z) (fl : list Z) : Prop :=
  match fl with
  | [] => True
  | x :: fl' => p = x /\ exists n, lk !! x = Some n /\ chain lk n fl'
  end.

Lemma chain_frame lk p fl x v : x ∉ fl -> chain lk p fl -> chain (<[x := v]> lk) p fl.
Proof.
  revert p. induction fl as [|y fl IH]; intros p Hx H; [done|]. destruct H as (-> & n & Hn & Hc).
  apply not_elem_of_cons in Hx as [Hxy Hx]. split; [done|]. exists n. rewrite lookup_insert_ne by done. auto.
Qed.

Section inv.
Context {M : Type} `{!KernelMem M, !HeapMem M, !HeapMemLaws M}.
Implicit Types (h : Heap M) (L : nat -> Which -> list Z) (F : Z -> list Z) (S : list (nat * Z)).

Record slab_ok h (i : nat) (a : Z) (fl : list Z) : Prop := {
  so_base : HIGHER_HALF < a /\ direct_block (corder i) (a - HIGHER_HALF);
  so_hdr : exists s, slabs h !! a = Some s /\ slab_base s = a /\ sorder s = corder i /\ total_objs s = ctotal i /\
    free_objs s = Z.of_nat (length fl) /\ chain (links h) (free_head s) fl;
  so_free : NoDup fl /\ Forall (is_obj i a) fl;
}.

(** [S] lists the heap's slabs; the lists [L] hold some of them. *)
Record core h L F S : Prop := {
  c_geo : length (caches h) = 9%nat /\ forall i, (i < 9)%nat ->
    obj_size (cache_at h i) = csize i /\ slab_order (cache_at h i) = corder i;
  c_list : forall i w, (i < 9)%nat -> is_dl (slabs h) 0 (list_head (cache_at h i) w) (L i w) /\ NoDup (L i w);
  c_in : forall i w a, (i < 9)%nat -> a ∈ L i w -> (i, a) ∈ S;
  c_sep : forall i w j u a, (i < 9)%nat -> (j < 9)%nat -> a ∈ L i w -> a ∈ L j u -> i = j /\ w = u;
  c_slab : forall i a, (i, a) ∈ S -> (i < 9)%nat /\ slab_ok h i a (F a);
  c_held : held (hm h) (S ≫= slab_pages);
}.

Definition upd L (i : nat) (w : Which) (l : list Z) : nat -> Which -> list Z :=
  fun j u => if decide (j = i /\ u = w) then l else L j u.

Lemma upd_eq L i w l : upd L i w l i w = l.
Proof. unfold upd. by rewrite decide_True. Qed.
Lemma upd_ne L i w l j u : ~ (j = i /\ u = w) -> upd L i w l j u = L j u.
Proof. intros H. unfold upd. by rewrite decide_False. Qed.

Lemma cache_at_put h i w p j :
  length (caches h) = 9%nat -> (i < 9)%nat ->
  cache_at (put_head h i w p) j = if decide (j = i) then set_list_head (cache_at h i) w p else cache_at h j.
Proof.
  intros Hl Hi. unfold cache_at, put_head. simpl. case_decide as Hd; [subst j|by rewrite list_lookup_insert_ne].
  rewrite list_lookup_insert_eq by lia. done.
Qed.

Lemma list_head_set c w p u : list_head (set_list_head c w p) u = if decide (u = w) then p else list_head c u.
Proof. by destruct w, u. Qed.

(** A step that rearranges lists: it changes links and one list head. *)
Lemma core_relist h h' L F S i w l :
  core h L F S -> (i < 9)%nat ->
  hm h' = hm h -> links h' = links h -> length (caches h') = 9%nat ->
  (forall j, (j < 9)%nat -> cache_at h' j = if decide (j = i) then set_list_head (cache_at h i) w (list_head (cache_at h' i) w)
     else cache_at h j) ->
  same_data (slabs h) (slabs h') ->
  is_dl (slabs h') 0 (list_head (cache_at h' i) w) l -> NoDup l ->
  (forall j u, (j < 9)%nat -> ~ (j = i /\ u = w) -> is_dl (slabs h') 0 (list_head (cache_at h j) u) (L j u)) ->
  (forall a, a ∈ l -> (i, a) ∈ S /\ forall j u, (j < 9)%nat -> ~ (j = i /\ u = w) -> a ∉ L j u) ->
  core h' (upd L i w l) F S.
Proof.
  intros [Hgeo Hlist Hin Hsep Hslab Hheld] Hi Hm Hlk Hlen Hc Hsd Hdl Hnd Hoth Hl. split.
  - split; [done|]. intros j Hj. rewrite Hc by done. destruct Hgeo as [_ Hgeo].
    case_decide; [subst j; by destruct w; apply Hgeo|by apply Hgeo].
  - intros j u Hj. destruct (decide (j = i /\ u = w)) as [[-> ->]|Hne]; [by rewrite upd_eq|].
    rewrite upd_ne by done. split; [|by apply Hlist]. specialize (Hoth j u Hj Hne). rewrite Hc by done.
    case_decide; [subst j|done]. rewrite list_head_set. rewrite decide_False by naive_solver. done.
  - intros j u a Hj Ha. destruct (decide (j = i /\ u = w)) as [[-> ->]|Hne].
    + rewrite upd_eq in Ha. by apply Hl.
    + rewrite upd_ne in Ha by done. by eapply Hin.
  - intros j u j' u' a Hj Hj' Ha Ha'. destruct (decide (j = i /\ u = w)) as [[-> ->]|Hne].
    + rewrite upd_eq in Ha. destruct (decide (j' = i /\ u' = w)) as [[-> ->]|Hne']; [done|].
      rewrite upd_ne in Ha' by done. destruct (Hl a Ha) as [_ Hl']. by destruct (Hl' j' u' Hj' Hne').
    + rewrite upd_ne in Ha by done. destruct (decide (j' = i /\ u' = w)) as [[-> ->]|Hne'].
      * rewrite upd_eq in Ha'. destruct (Hl a Ha') as [_ Hl']. by destruct (Hl' j u Hj Hne).
      * rewrite upd_ne in Ha' by done. by eapply Hsep.
  - intros j a Ha. destruct (Hslab j a Ha) as [Hj [Hb (s & Hs & H1 & H2 & H3 & H4 & H5) Hf]]. split; [done|].
    split; [done| |done]. destruct (Hsd a s Hs) as (n & p & Hs'). exists (set_links s n p). by rewrite Hlk.
  - by rewrite Hm.
Qed.

(** Distinct slabs have no page in common. *)
Lemma bind_nodup_eq {A} (f : A -> list Z) (l : list A) p q x :
  NoDup (l ≫= f) -> p ∈ l -> q ∈ l -> x ∈ f p -> x ∈ f q -> p = q.
Proof.
  induction l as [|r l IH]; intros Hnd Hp Hq Hxp Hxq; [by apply elem_of_nil in Hp|].
  rewrite bind_cons in Hnd. apply NoDup_app in Hnd as (_ & Hdis & Hnd).
  apply elem_of_cons in Hp as [->|Hp]; apply elem_of_cons in Hq as [->|Hq]; [done| | |auto].
  - destruct (Hdis x Hxp). apply list_elem_of_bind. eauto.
  - destruct (Hdis x Hxq). apply list_elem_of_bind. eauto.
Qed.

Lemma slab_index h L F S i j a : core h L F S -> (i, a) ∈ S -> (j, a) ∈ S -> i = j.
Proof.
  intros Hc Hi Hj. pose proof (held_nodup _ _ (c_held _ _ _ _ Hc)) as Hnd.
  assert ((i, a) = (j, a)) as [=]; [|done].
  apply (bind_nodup_eq slab_pages S _ _ ((a - HIGHER_HALF) / PAGE_SIZE) Hnd Hi Hj); apply block_pages_head.
Qed.

Lemma slab_lookup h L F S i a : core h L F S -> (i, a) ∈ S -> exists s, slabs h !! a = Some s /\ slab_at h a = s /\ a <> 0.
Proof.
  intros Hc Hin. destruct (c_slab _ _ _ _ Hc i a Hin) as [_ [[Hb _] (s & Hs & _) _]]. exists s. unfold slab_at.
  rewrite Hs. split_and!; [done|done|]. unfold HIGHER_HALF in Hb. lia.
Qed.

Lemma core_push h L F S i w a :
  core h L F S -> (i < 9)%nat -> (i, a) ∈ S -> (forall u, a ∉ L i u) ->
  core (push_ptr h i w a) (upd L i w (a :: L i w)) F S.
Proof.
  intros Hc Hi HaS Hfree. destruct (slab_lookup _ _ _ _ _ _ Hc HaS) as (s & Hs & Hat & Ha0).
  pose proof (c_geo _ _ _ _ Hc) as [Hlen _]. destruct (c_list _ _ _ _ Hc i w Hi) as [Hdl Hnd].
  assert (forall j u, (j < 9)%nat -> a ∉ L j u) as Hno.
  { intros j u Hj Hin. assert (j = i) as -> by (by eapply slab_index; [|eapply c_in|]). by eapply Hfree. }
  set (old := list_head (cache_at h i) w) in *.
  assert (same_data (slabs h) (<[a := set_links s old 0]> (slabs h))) as Hsd1 by by apply same_data_insert.
  assert (old <> 0 -> exists so, slabs h !! old = Some so /\ old ∈ L i w /\ old <> a) as Hold.
  { intros Ho. destruct (L i w) as [|b l] eqn:E; [done|]. pose proof Hdl as (-> & _ & so & Hso & _).
    exists so. split_and!; [done|by left|]. intros ->. apply (Hfree w). rewrite E. by left. }
  unfold push_ptr. fold old. cbv zeta. match goal with |- core (put_head ?x _ _ _) _ _ _ => set (h2 := x) end.
  assert (hm h2 = hm h /\ links h2 = links h /\ caches h2 = caches h) as (Hm & Hlk & Hca) by (unfold h2; by destruct (old =? 0)).
  assert (slabs h2 = if old =? 0 then <[a := set_links s old 0]> (slabs h) else
    match slabs h !! old with Some so => <[old := set_links so (snext so) a]> (<[a := set_links s old 0]> (slabs h)) | None => ∅ end) as Hsl.
  { unfold h2. rewrite Hat. destruct (Z.eqb_spec old 0) as [|Ho]; [done|].
    destruct (Hold Ho) as (so & Hso & _ & Hne). rewrite Hso. unfold slab_at, put_slab. simpl.
    by rewrite lookup_insert_ne, Hso. }
  apply (core_relist h _ L F S i w); try done.
  - unfold put_head. simpl. by rewrite length_insert, Hca.
  - intros j Hj. rewrite !cache_at_put by (done || by rewrite Hca). unfold cache_at. rewrite Hca.
    repeat case_decide; try done. by destruct w.
  - change (slabs (put_head h2 i w a)) with (slabs h2). rewrite Hsl. destruct (Z.eqb_spec old 0) as [|Ho]; [done|]. destruct (Hold Ho) as (so & Hso & _ & Hne). rewrite Hso.
    eapply same_data_trans; [exact Hsd1|]. apply same_data_insert. by rewrite lookup_insert_ne.
  - rewrite cache_at_put by (done || by rewrite Hca). rewrite decide_True, list_head_set, decide_True by done.
    split_and!; [done..|]. change (slabs (put_head h2 i w a)) with (slabs h2). rewrite Hsl. destruct (Z.eqb_spec old 0) as [E|Ho].
    + exists (set_links s old 0). rewrite lookup_insert_eq. split_and!; [done..|]. simpl.
      apply (is_dl_head _ _ _ _) in Hdl. rewrite (proj1 Hdl E), E. done.
    + destruct (Hold Ho) as (so & Hso & _ & Hne). rewrite Hso. exists (set_links s old 0).
      rewrite lookup_insert_ne, lookup_insert_eq by done. split_and!; [done..|]. simpl snext.
      eapply (is_dl_prev _ 0); [by apply is_dl_frame|done|by rewrite lookup_insert_ne|done].
  - constructor; [apply Hno|done]. done.
  - intros j u Hj Hne. destruct (c_list _ _ _ _ Hc j u Hj) as [Hdl' _].
    change (slabs (put_head h2 i w a)) with (slabs h2). rewrite Hsl. destruct (Z.eqb_spec old 0) as [|Ho]; [apply is_dl_frame; [by apply Hno|done]|].
    destruct (Hold Ho) as (so & Hso & Hin & _). rewrite Hso. apply is_dl_frame; [|apply is_dl_frame; [by apply Hno|done]].
    intros Hin'. destruct (c_sep _ _ _ _ Hc j u i w old Hj Hi Hin' Hin) as [-> ->]. by apply Hne.
  - intros b [->|Hb]%elem_of_cons; [split; [done|auto]|]. split; [by eapply c_in|].
    intros j u Hj Hne Hb'. destruct (c_sep _ _ _ _ Hc j u i w b Hj Hi Hb' Hb) as [-> ->]. by apply Hne.
Qed.

(** What [remove_ptr] writes. *)
Definition unlinked (m : gmap Z Slab) (s : Slab) : gmap Z Slab :=
  let m1 := if snext s =? 0 then m
            else <[snext s := set_links (default s (m !! snext s)) (snext (default s (m !! snext s))) (sprev s)]> m in
  if sprev s =? 0 then m1
  else <[sprev s := set_links (default s (m !! sprev s)) (snext s) (sprev (default s (m !! sprev s)))]> m1.

Lemma remove_shape h i w a s :
  slabs h !! a = Some s ->
  (sprev s <> 0 -> sprev s <> a /\ sprev s <> snext s /\ exists t, slabs h !! sprev s = Some t) ->
  (snext s <> 0 -> snext s <> a /\ exists t, slabs h !! snext s = Some t) ->
  slabs (remove_ptr h i w a) = <[a := set_links s 0 0]> (unlinked (slabs h) s) /\
  caches (remove_ptr h i w a) = (if sprev s =? 0 then caches (put_head h i w (snext s)) else caches h) /\
  hm (remove_ptr h i w a) = hm h /\ links (remove_ptr h i w a) = links h /\ unlinked (slabs h) s !! a = Some s.
Proof.
  intros Hs Hp Hn. assert (slab_at h a = s) as Hat by (unfold slab_at; by rewrite Hs).
  unfold remove_ptr, unlinked. rewrite Hat.
  destruct (Z.eqb_spec (sprev s) 0) as [Ep|Ep]; destruct (Z.eqb_spec (snext s) 0) as [En|En]; unfold put_slab, slab_at; simpl.
  - by rewrite Hs.
  - destruct (Hn En) as (H1 & t & Ht). rewrite Ht. simpl. by rewrite lookup_insert_ne, Hs.
  - destruct (Hp Ep) as (H1 & H2 & t & Ht). rewrite Ht. simpl. by rewrite lookup_insert_ne, Hs.
  - destruct (Hn En) as (H1 & t & Ht). destruct (Hp Ep) as (H2 & H3 & u & Hu). rewrite Ht, Hu. simpl.
    rewrite (lookup_insert_ne (slabs h) (sprev s) (snext s)), Ht by done. simpl.
    rewrite !lookup_insert_ne, Hs by done. simpl. split_and!; try done. f_equal. by apply insert_insert_ne.
Qed.

Lemma unlinked_data m s :
  (sprev s <> 0 -> sprev s <> snext s /\ exists t, m !! sprev s = Some t) ->
  (snext s <> 0 -> exists t, m !! snext s = Some t) -> same_data m (unlinked m s).
Proof.
  intros Hp Hn. unfold unlinked. set (m1 := if snext s =? 0 then m else _).
  assert (same_data m m1) as H1.
  { unfold m1. destruct (Z.eqb_spec (snext s) 0) as [|En]; [apply same_data_refl|].
    destruct (Hn En) as [t Ht]. rewrite Ht. by apply same_data_insert. }
  destruct (Z.eqb_spec (sprev s) 0) as [|Ep]; [done|]. destruct (Hp Ep) as (Hne & t & Ht). rewrite Ht. simpl.
  eapply same_data_trans; [done|]. apply same_data_insert. unfold m1.
  destruct (Z.eqb_spec (snext s) 0); [done|]. by rewrite lookup_insert_ne.
Qed.

Lemma is_dl_next m prev p l1 a l2 s :
  is_dl m prev p (l1 ++ a :: l2) -> m !! a = Some s -> is_dl m a (snext s) l2.
Proof.
  intros Hdl Hs. revert prev p Hdl. induction l1 as [|b l1 IH]; intros prev p Hdl; simpl in Hdl.
  - destruct Hdl as (_ & _ & t & Ht & _ & Hl). assert (t = s) as -> by congruence. done.
  - destruct Hdl as (_ & _ & t & _ & _ & Hl). eauto.
Qed.

Lemma core_remove h L F S i w a l1 l2 :
  core h L F S -> (i < 9)%nat -> L i w = l1 ++ a :: l2 ->
  core (remove_ptr h i w a) (upd L i w (l1 ++ l2)) F S.
Proof.
  intros Hc Hi HL. assert (a ∈ L i w) as HaL by (rewrite HL; set_solver).
  pose proof (c_in _ _ _ _ Hc i w a Hi HaL) as HaS.
  destruct (slab_lookup _ _ _ _ _ _ Hc HaS) as (s & Hs & Hat & Ha0).
  pose proof (c_geo _ _ _ _ Hc) as [Hlen _]. destruct (c_list _ _ _ _ Hc i w Hi) as [Hdl Hnd]. rewrite HL in Hdl, Hnd.
  assert (0 ∉ l1 ++ a :: l2) as H0.
  { rewrite <-HL. intros Hin. destruct (slab_lookup _ _ _ _ _ _ Hc (c_in _ _ _ _ Hc i w 0 Hi Hin)) as (_ & _ & _ & ?). done. }
  pose proof (is_dl_unlink _ _ _ _ _ _ _ Hdl Hnd Hs H0) as Hun. cbv zeta in Hun.
  pose proof (is_dl_next _ _ _ _ _ _ _ Hdl Hs) as Hl2.
  assert (snext s <> 0 -> snext s <> a /\ snext s ∈ l2 /\ exists t, slabs h !! snext s = Some t) as Hnx.
  { intros Hn. destruct l2 as [|c l2]; [done|]. destruct Hl2 as (-> & _ & t & Ht & _). split_and!; [|by left|eauto].
    intros ->. apply NoDup_app in Hnd as (_ & _ & Hnd). apply NoDup_cons in Hnd as [Hnd _]. set_solver. }
  assert (sprev s <> 0 -> sprev s <> a /\ sprev s <> snext s /\ sprev s ∈ l1 /\ exists t, slabs h !! sprev s = Some t) as Hpx.
  { intros Hp. destruct l1 as [|b l1]; [destruct Hun as (_ & ? & _); done|].
    destruct Hun as (_ & ? & ? & ? & t & ? & _). split_and!; eauto. }
  destruct (remove_shape h i w a s Hs) as (E1 & E2 & E3 & E4 & E5); [naive_solver..|].
  assert (forall x, x ∈ l1 ++ l2 -> x <> a) as Hxa.
  { intros x Hx ->. apply NoDup_app in Hnd as (_ & Hd & Hnd). apply NoDup_cons in Hnd as [Hnd _].
    apply elem_of_app in Hx as [Hx|Hx]; [|done]. apply (Hd a Hx). by left. }
  apply (core_relist h _ L F S i w); try done.
  - rewrite E2. destruct (sprev s =? 0); [unfold put_head; cbn [caches with_caches]; by rewrite length_insert|done].
  - intros j Hj. unfold cache_at. rewrite E2. destruct (sprev s =? 0).
    + fold (cache_at (put_head h i w (snext s)) j). fold (cache_at (put_head h i w (snext s)) i).
      rewrite !cache_at_put by done. repeat case_decide; try done. by destruct w.
    + case_decide; [subst j|done]. fold (cache_at h i). by destruct w, (cache_at h i).
  - rewrite E1. apply (same_data_trans _ (unlinked (slabs h) s)); [apply unlinked_data; naive_solver|]. by apply same_data_insert.
  - rewrite E1. apply is_dl_frame; [intros Hin; by apply (Hxa a)|]. unfold cache_at. rewrite E2. unfold unlinked.
    destruct l1 as [|b l1].
    + destruct Hun as (Hp & Hsp & Hl). rewrite Hsp. cbn [Z.eqb]. fold (cache_at (put_head h i w (snext s)) i).
      rewrite cache_at_put, decide_True, list_head_set, decide_True by done. rewrite Hsp in Hl. exact Hl.
    + destruct Hun as (Hp0 & _ & _ & _ & t & Ht & Hl). rewrite (proj2 (Z.eqb_neq _ _)) by done. rewrite Ht. exact Hl.
  - apply NoDup_app in Hnd as (N1 & N2 & N3). apply NoDup_cons in N3 as [_ N3]. apply NoDup_app. split_and!; [done| |done].
    intros x Hx Hx2. apply (N2 x Hx). by right.
  - intros j u Hj Hne. destruct (c_list _ _ _ _ Hc j u Hj) as [Hdl' _].
    assert (forall b, b ∈ l1 ++ a :: l2 -> b ∉ L j u) as Hno.
    { intros b Hb Hin. rewrite <-HL in Hb. destruct (c_sep _ _ _ _ Hc j u i w b Hj Hi Hin Hb) as [-> ->]. by apply Hne. }
    rewrite E1. apply is_dl_frame; [apply Hno; set_solver|]. unfold unlinked.
    assert (is_dl (if snext s =? 0 then slabs h else <[snext s := set_links (default s (slabs h !! snext s))
      (snext (default s (slabs h !! snext s))) (sprev s)]> (slabs h)) 0 (list_head (cache_at h j) u) (L j u)) as Hm1.
    { destruct (Z.eqb_spec (snext s) 0) as [|En]; [done|]. apply is_dl_frame; [|done]. apply Hno.
      destruct (Hnx En) as (_ & ? & _). set_solver. }
    destruct (Z.eqb_spec (sprev s) 0) as [|Ep]; [done|]. apply is_dl_frame; [|done]. apply Hno.
    destruct (Hpx Ep) as (_ & _ & ? & _). set_solver.
  - intros b Hb. assert (b ∈ L i w) as HbL by (rewrite HL; set_solver). split; [by eapply c_in|].
    intros j u Hj Hne Hb'. destruct (c_sep _ _ _ _ Hc j u i w b Hj Hi Hb' HbL) as [-> ->]. by apply Hne.
Qed.
End inv.
