(* ===== verification/HeapOps.v ===== *)
(** The operations of the heap preserve its invariant: objects move between
    free and live, slabs between lists. *)
From stdpp Require Import base tactics numbers list gmap sorting.
From Stdlib Require Import ZArith Lia.
From S2P Require Import Prelude Phys PhysInv PhysSpec KMem Heap HeapInv.

Local Open Scope Z_scope.

Definition updF (F : Z -> list Z) (a : Z) (fl : list Z) : Z -> list Z := fun b => if decide (b = a) then fl else F b.

Lemma updF_eq F a fl : updF F a fl a = fl.
Proof. unfold updF. by rewrite decide_True. Qed.
Lemma updF_ne F a fl b : b <> a -> updF F a fl b = F b.
Proof. intros H. unfold updF. by rewrite decide_False. Qed.

(** ** Objects and pages *)

Lemma obj_range i a x :
  (i < 9)%nat -> is_obj i a x -> a + SLAB_HEADER <= x /\ x + csize i <= a + block_size (corder i).
Proof. intros Hi (k & Hk & ->). destruct (geometry i Hi) as (H1 & _ & _ & _ & _ & H2 & _). nia. Qed.

Lemma range_page i a x :
  direct_block (corder i) (a - HIGHER_HALF) -> a <= x < a + block_size (corder i) ->
  (x - HIGHER_HALF) / PAGE_SIZE ∈ slab_pages (i, a).
Proof.
  intros [Hwf _] Hx. unfold slab_pages. simpl. apply elem_of_block_pages. rewrite block_size_eq in Hx.
  pose proof (block_wf_page _ _ Hwf). unfold PAGE_SIZE. pose proof (Z.pow_pos_nonneg 2 (Z.of_nat (corder i))). div_lia.
Qed.

Lemma obj_inj i a k k' :
  (i < 9)%nat -> a + SLAB_HEADER + k * csize i = a + SLAB_HEADER + k' * csize i -> k = k'.
Proof. intros Hi He. destruct (geometry i Hi) as (H1 & _). nia. Qed.

(** All objects of a slab. *)
Definition objs (i : nat) (a : Z) : list Z := (fun k => a + SLAB_HEADER + k * csize i) <$> seqZ 0 (ctotal i).

Lemma elem_of_objs i a x : x ∈ objs i a <-> is_obj i a x.
Proof.
  unfold objs, is_obj. rewrite list_elem_of_fmap. split.
  - intros (k & -> & Hk%elem_of_seqZ). exists k. split; [lia|done].
  - intros (k & Hk & ->). exists k. split; [done|]. apply elem_of_seqZ. lia.
Qed.

Lemma objs_nodup i a : (i < 9)%nat -> NoDup (objs i a).
Proof.
  intros Hi. unfold objs. apply NoDup_fmap_2_strong; [|apply NoDup_seqZ]. intros k k' _ _ He. by eapply obj_inj.
Qed.

Lemma length_objs i a : (i < 9)%nat -> Z.of_nat (length (objs i a)) = ctotal i.
Proof. intros Hi. unfold objs. rewrite length_fmap, length_seqZ. destruct (geometry i Hi) as (_ & _ & _ & H & _). lia. Qed.

Lemma obj_count i a fl : (i < 9)%nat -> NoDup fl -> Forall (is_obj i a) fl -> Z.of_nat (length fl) <= ctotal i.
Proof.
  intros Hi Hnd Hf. rewrite <-(length_objs i a Hi). apply inj_le.
  apply submseteq_length, NoDup_submseteq; [done|]. intros x Hx. apply elem_of_objs. by eapply Forall_forall in Hf.
Qed.

Section ops.
Context {M : Type} `{!KernelMem M, !HeapMem M, !HeapMemLaws M}.
Implicit Types (h : Heap M) (L : nat -> Which -> list Z) (F : Z -> list Z) (S X : list (nat * Z)).

Lemma slab_sep h L F S i a j b x y :
  core h L F S -> (i, a) ∈ S -> (j, b) ∈ S ->
  a <= x < a + block_size (corder i) -> b <= y < b + block_size (corder j) -> x = y -> (i, a) = (j, b).
Proof.
  intros Hc Ha Hb Hx Hy <-. destruct (c_slab _ _ _ _ Hc _ _ Ha) as [Hi [[_ Hba] _ _]].
  destruct (c_slab _ _ _ _ Hc _ _ Hb) as [Hj [[_ Hbb] _ _]].
  apply (bind_nodup_eq slab_pages S _ _ ((x - HIGHER_HALF) / PAGE_SIZE) (held_nodup _ _ (c_held _ _ _ _ Hc)) Ha Hb);
    by apply range_page.
Qed.

Lemma obj_sep h L F S i a j b x :
  core h L F S -> (i, a) ∈ S -> (j, b) ∈ S -> is_obj i a x -> is_obj j b x -> (i, a) = (j, b).
Proof.
  intros Hc Ha Hb Hx Hy. destruct (c_slab _ _ _ _ Hc _ _ Ha) as [Hi _]. destruct (c_slab _ _ _ _ Hc _ _ Hb) as [Hj _].
  pose proof (obj_range i a x Hi Hx). pose proof (obj_range j b x Hj Hy).
  destruct (geometry i Hi) as (? & _). destruct (geometry j Hj) as (? & _). unfold SLAB_HEADER in *.
  eapply (slab_sep h L F S i a j b x x); [done..|lia|lia|done].
Qed.

(** A change of one slab's free list. *)
Lemma core_refree h h' L F S i a s fl hd :
  core h L F S -> (i, a) ∈ S -> slabs h !! a = Some s ->
  hm h' = hm h -> caches h' = caches h -> slabs h' = <[a := set_free s hd (Z.of_nat (length fl))]> (slabs h) ->
  chain (links h') hd fl -> NoDup fl -> Forall (is_obj i a) fl ->
  (forall j b p, (j, b) ∈ S -> b <> a -> chain (links h) p (F b) -> chain (links h') p (F b)) ->
  core h' L (updF F a fl) S.
Proof.
  intros Hc HaS Hs Hm Hca Hsl Hch Hnd Hobj Hoth. destruct Hc as [Hgeo Hlist Hin Hsep Hslab Hheld].
  assert (forall j, cache_at h' j = cache_at h j) as Hcat by (intros j; unfold cache_at; by rewrite Hca).
  split.
  - rewrite Hca. split; [apply Hgeo|]. intros j Hj. rewrite Hcat. by apply Hgeo.
  - intros j w Hj. destruct (Hlist j w Hj) as [Hdl Hn]. split; [|done]. rewrite Hsl, Hcat.
    by eapply is_dl_data.
  - done.
  - done.
  - intros j b Hb. destruct (Hslab j b Hb) as [Hj Hok]. split; [done|]. destruct (decide (b = a)) as [->|Hne].
    + assert (j = i) as ->.
      { assert ((j, a) = (i, a)) as [=]; [|done].
        apply (bind_nodup_eq slab_pages S _ _ ((a - HIGHER_HALF) / PAGE_SIZE) (held_nodup _ _ Hheld) Hb HaS); apply block_pages_head. }
      rewrite updF_eq. destruct Hok as [H1 (s' & Hs' & E1 & E2 & E3 & _) _]. split; [done| |done].
      exists (set_free s hd (Z.of_nat (length fl))). rewrite Hsl, lookup_insert_eq. assert (s' = s) as -> by congruence. done.
    + rewrite updF_ne by done. destruct Hok as [H1 (s' & Hs' & E1 & E2 & E3 & E4 & E5) H3]. split; [done| |done].
      exists s'. rewrite Hsl, lookup_insert_ne by done. split_and!; try done. by eapply Hoth.
  - by rewrite Hm.
Qed.

Lemma core_alloc_obj h L F S i a x fl :
  core h L F S -> (i, a) ∈ S -> F a = x :: fl ->
  exists h', alloc_obj h a = (x, h') /\ core h' L (updF F a fl) S /\ is_full (slab_at h' a) = bool_decide (fl = []) /\
    caches h' = caches h /\ hm h' = hm h.
Proof.
  intros Hc HaS HF. destruct (c_slab _ _ _ _ Hc i a HaS) as [Hi [_ (s & Hs & E1 & E2 & E3 & E4 & E5) [Hnd Hobj]]].
  rewrite HF in E4, E5, Hnd, Hobj. destruct E5 as (Ehd & n & Hn & Hch).
  apply NoDup_cons in Hnd as [Hx Hnd]. apply Forall_cons in Hobj as [Hox Hobj].
  set (h' := put_slab h a (set_free s n (Z.of_nat (length fl)))). exists h'.
  split; [|split; [|split]].
  - unfold alloc_obj, slab_at, link_at. rewrite Hs. simpl. rewrite E4. simpl length. rewrite (proj2 (Z.eqb_neq _ _)) by lia.
    rewrite Ehd, Hn. simpl. unfold h'. do 3 f_equal. lia.
  - by apply (core_refree h h' L F S i a s fl n).
  - unfold h', is_full, slab_at, put_slab. simpl. rewrite lookup_insert_eq. simpl. destruct fl; [done|].
    rewrite bool_decide_eq_false_2 by done. apply Z.eqb_neq. simpl. lia.
  - done.
Qed.

Lemma core_free_obj h L F S i a x :
  core h L F S -> (i, a) ∈ S -> is_obj i a x -> x ∉ F a ->
  let h' := free_obj h a x in
  core h' L (updF F a (x :: F a)) S /\
  is_empty (slab_at h' a) = bool_decide (Z.of_nat (length (x :: F a)) = ctotal i) /\
  caches h' = caches h /\ hm h' = hm h.
Proof.
  intros Hc HaS Hx Hxf. cbv zeta.
  destruct (c_slab _ _ _ _ Hc i a HaS) as [Hi [_ (s & Hs & E1 & E2 & E3 & E4 & E5) [Hnd Hobj]]].
  assert (NoDup (x :: F a)) as Hnd' by by constructor.
  assert (Forall (is_obj i a) (x :: F a)) as Hobj' by by constructor.
  pose proof (obj_count i a _ Hi Hnd' Hobj') as Hcnt. simpl length in Hcnt. destruct (geometry i Hi) as (_ & _ & _ & Htot & _).
  assert (wrap 16 (free_objs s + 1) = Z.of_nat (length (x :: F a))) as Hw by (simpl length; rewrite E4, wrap_small by lia; lia).
  assert (free_obj h a x = put_slab (with_links h (<[x := free_head s]> (links h))) a
    (set_free s x (Z.of_nat (length (x :: F a))))) as Hfo by (unfold free_obj, slab_at; rewrite Hs; simpl default; by rewrite Hw).
  rewrite Hfo. split; [|split; [|done]].
  - apply (core_refree h _ L F S i a s (x :: F a) x); try done.
    + simpl. split; [done|]. exists (free_head s). rewrite lookup_insert_eq. split; [done|]. by apply chain_frame.
    + intros j b p Hb Hne Hch. simpl. apply chain_frame; [|done]. intros Hin.
      destruct (c_slab _ _ _ _ Hc j b Hb) as [_ [_ _ [_ Hob]]]. rewrite Forall_forall in Hob.
      pose proof (obj_sep h L F S i a j b x Hc HaS Hb Hx (Hob x Hin)) as [= _ Hab]. done.
  - unfold is_empty, slab_at, put_slab. simpl. rewrite lookup_insert_eq. simpl default. cbn [free_objs set_free total_objs].
    rewrite E3. apply Bool.eq_iff_eq_true. by rewrite Z.eqb_eq, bool_decide_eq_true.
Qed.

(** ** Well-formed heaps *)

(** Every slab is on the list its free objects call for, except the loose
    slabs [X] that are not published yet. *)
Record heap_ok h L F S X : Prop := {
  ok_core : core h L F S;
  ok_nofree : forall i, (i < 9)%nat -> L i WFree = [];
  ok_where : forall i a, (i, a) ∈ S -> (i, a) ∉ X -> a ∈ L i WPartial \/ a ∈ L i WFull;
  ok_loose : forall i a u, (i < 9)%nat -> (i, a) ∈ X -> a ∉ L i u;
  ok_partial : forall i a, (i < 9)%nat -> a ∈ L i WPartial -> F a <> [];
  ok_full : forall i a, (i < 9)%nat -> a ∈ L i WFull -> F a = [];
}.

(** The objects handed out by cache [i]. *)
Definition live F S X (i : nat) (x : Z) : Prop := exists a, (i, a) ∈ S /\ (i, a) ∉ X /\ is_obj i a x /\ x ∉ F a.

(** Moving a slab between two lists of its cache. *)
Lemma core_move h L F S i w u a :
  core h L F S -> (i < 9)%nat -> w <> u -> a ∈ L i w ->
  exists L', core (push_ptr (remove_ptr h i w a) i u a) L' F S /\
    (forall j v b, (j < 9)%nat -> b ∈ L' j v <-> (b ∈ L j v /\ ~ (j = i /\ v = w /\ b = a)) \/ (j = i /\ v = u /\ b = a)).
Proof.
  intros Hc Hi Hwu Ha. destruct (list_elem_of_split _ _ Ha) as (l1 & l2 & HL).
  destruct (c_list _ _ _ _ Hc i w Hi) as [_ Hnd]. rewrite HL in Hnd.
  assert (a ∉ l1 ++ l2) as Hno.
  { apply NoDup_app in Hnd as (_ & Hd & Hnd). apply NoDup_cons in Hnd as [Hnd _].
    intros [Hx|Hx]%elem_of_app; [apply (Hd a Hx); by left|done]. }
  pose proof (core_remove h L F S i w a l1 l2 Hc Hi HL) as Hc1. set (L1 := upd L i w (l1 ++ l2)) in *.
  assert (forall v, a ∉ L1 i v) as Hfree.
  { intros v Hin. unfold L1 in Hin. destruct (decide (v = w)) as [->|Hne]; [by rewrite upd_eq in Hin|].
    rewrite upd_ne in Hin by tauto. by destruct (c_sep _ _ _ _ Hc i v i w a Hi Hi Hin Ha). }
  exists (upd L1 i u (a :: L1 i u)). split; [apply core_push; [done|done|by eapply (c_in _ _ _ _ Hc i w)|done]|].
  intros j v b Hj. destruct (decide (j = i /\ v = u)) as [[-> ->]|Hne].
  - rewrite upd_eq. unfold L1. rewrite upd_ne by (intros [_ ?]; congruence). rewrite elem_of_cons. naive_solver.
  - rewrite upd_ne by done. unfold L1. destruct (decide (j = i /\ v = w)) as [[-> ->]|Hne'].
    + rewrite upd_eq, HL. rewrite !elem_of_app, elem_of_cons. rewrite elem_of_app in Hno. split.
      * intros Hb. left. split; [tauto|]. intros (_ & _ & ->). tauto.
      * intros [[[?|[->|?]] Hn]|(_ & ? & _)]; [tauto| |tauto|congruence]. destruct Hn. done.
    + rewrite upd_ne by done. naive_solver.
Qed.

(** A slab whose free objects changed, on the list they call for. *)
Lemma heap_ok_moved h h' L L' F fl S X i u a :
  heap_ok h L F S X -> (i < 9)%nat -> (i, a) ∈ S -> (i, a) ∉ X -> core h' L' (updF F a fl) S ->
  u <> WFree -> (u = WPartial -> fl <> []) -> (u = WFull -> fl = []) ->
  (forall v b, b ∈ L' i v <-> (b ∈ L i v /\ b <> a) \/ (v = u /\ b = a)) ->
  (forall j v b, (j < 9)%nat -> j <> i -> b ∈ L' j v <-> b ∈ L j v) ->
  heap_ok h' L' (updF F a fl) S X.
Proof.
  intros [Hc Hnf Hwh Hlo Hpa Hfu] Hi HaS HaX Hc' Hu Hup Huf HLi HLj.
  assert (forall j v, (j < 9)%nat -> j <> i -> a ∉ L j v) as Hother.
  { intros j v Hj Hne Hin. apply Hne. by apply (slab_index h L F S j i a Hc (c_in _ _ _ _ Hc j v a Hj Hin)). }
  split; [done| | | | |].
  - intros j Hj. destruct (L' j WFree) as [|b l] eqn:E; [done|]. exfalso.
    assert (b ∈ L' j WFree) as Hb by (rewrite E; by left). destruct (decide (j = i)) as [->|Hne].
    + apply HLi in Hb as [[Hb _]|[? _]]; [|congruence]. rewrite Hnf in Hb by done. by apply elem_of_nil in Hb.
    + apply HLj in Hb; [|done..]. rewrite Hnf in Hb by done. by apply elem_of_nil in Hb.
  - intros j b Hb HbX. pose proof (proj1 (c_slab _ _ _ _ Hc j b Hb)) as Hj. destruct (decide (b = a)) as [->|Hba].
    + assert (j = i) as -> by (by eapply slab_index). destruct u; [left|done|right]; apply HLi; tauto.
    + destruct (decide (j = i)) as [->|Hne]; [destruct (Hwh i b Hb HbX); [left|right]; apply HLi; tauto|].
      rewrite !HLj by done. auto.
  - intros j b v Hj HbX Hb. destruct (decide (j = i)) as [->|Hne].
    + apply HLi in Hb as [[Hb _]|[_ ->]]; [by eapply Hlo|done].
    + apply HLj in Hb; [|done..]. by eapply Hlo.
  - intros j b Hj Hb. destruct (decide (j = i)) as [->|Hne].
    + apply HLi in Hb as [[Hb Hba]|[<- ->]]; [rewrite updF_ne by done; by eapply Hpa|rewrite updF_eq; auto].
    + apply HLj in Hb; [|done..]. rewrite updF_ne; [by eapply Hpa|]. intros ->. by eapply Hother.
  - intros j b Hj Hb. destruct (decide (j = i)) as [->|Hne].
    + apply HLi in Hb as [[Hb Hba]|[<- ->]]; [rewrite updF_ne by done; by eapply Hfu|rewrite updF_eq; auto].
    + apply HLj in Hb; [|done..]. rewrite updF_ne; [by eapply Hfu|]. intros ->. by eapply Hother.
Qed.

Lemma push_remove_hm h i w u a : hm (push_ptr (remove_ptr h i w a) i u a) = hm h.
Proof. unfold push_ptr, remove_ptr. by repeat case_match. Qed.

(** Taking an object of a listed slab. *)
Lemma fast_ok h L F S X i :
  heap_ok h L F S X -> (i < 9)%nat ->
  match alloc_fast h i with
  | Some (x, h') => exists L' F' a, heap_ok h' L' F' S X /\ (i, a) ∈ S /\ (i, a) ∉ X /\ is_obj i a x /\
      (forall j, ~ live F S X j x) /\ (forall j y, live F' S X j y <-> (j = i /\ y = x) \/ live F S X j y) /\ hm h' = hm h /\
      (forall b, b <> a -> F' b = F b)
  | None => L i WPartial = [] /\ partial (cache_at h i) = 0 /\ cfree (cache_at h i) = 0
  end.
Proof.
  intros [Hc Hnf Hwh Hlo Hpa Hfu] Hi. unfold alloc_fast.
  destruct (c_list _ _ _ _ Hc i WPartial Hi) as [Hdl Hnd]. destruct (c_list _ _ _ _ Hc i WFree Hi) as [Hdf _].
  simpl in Hdl, Hdf. rewrite (Hnf i Hi) in Hdf. simpl in Hdf. rewrite Hdf.
  destruct (L i WPartial) as [|a l] eqn:EL; [simpl in Hdl; rewrite Hdl; done|].
  destruct Hdl as (-> & Ha0 & _). rewrite (proj2 (Z.eqb_neq a 0)) by done. cbn [negb].
  assert (a ∈ L i WPartial) as HaL by (rewrite EL; by left).
  pose proof (c_in _ _ _ _ Hc i WPartial a Hi HaL) as HaS.
  assert ((i, a) ∉ X) as HaX by (intros HX; by eapply (Hlo i a WPartial Hi)).
  pose proof (Hpa i a Hi HaL) as HFa. destruct (F a) as [|x fl] eqn:EF; [done|].
  destruct (core_alloc_obj h L F S i a x fl Hc HaS EF) as (h1 & -> & Hc1 & -> & Hca1 & Hm1).
  destruct (c_slab _ _ _ _ Hc i a HaS) as [_ [_ _ [Hndf Hobj]]]. rewrite EF in Hndf, Hobj.
  apply NoDup_cons in Hndf as [Hxfl Hndf]. apply Forall_cons in Hobj as [Hox Hobj].
  assert (forall j, ~ live F S X j x) as Hnl.
  { intros j (b & Hb & _ & Hob & Hnb). pose proof (obj_sep h L F S i a j b x Hc HaS Hb Hox Hob) as [= <- <-].
    apply Hnb. rewrite EF. by left. }
  assert (forall j y, live (updF F a fl) S X j y <-> (j = i /\ y = x) \/ live F S X j y) as Hlive.
  { intros j y. split.
    - intros (b & Hb & HbX & Hob & Hnb). destruct (decide (b = a)) as [->|Hne].
      + rewrite updF_eq in Hnb. assert (j = i) as -> by by apply (slab_index h L F S j i a).
        destruct (decide (y = x)) as [->|Hyx]; [by left|]. right. exists a. split_and!; try done.
        rewrite EF. set_solver.
      + rewrite updF_ne in Hnb by done. right. by exists b.
    - intros [[-> ->]|(b & Hb & HbX & Hob & Hnb)].
      + exists a. rewrite updF_eq. done.
      + exists b. split_and!; try done. destruct (decide (b = a)) as [->|Hne]; [|by rewrite updF_ne].
        rewrite updF_eq. rewrite EF in Hnb. set_solver. }
  pose proof (fun j v b (Hj : (j < 9)%nat) (Hne : j <> i) (Hb : b ∈ L j v) => c_in _ _ _ _ Hc j v b Hj Hb) as Hins.
  case_bool_decide as Efl.
  - destruct (core_move h1 L (updF F a fl) S i WPartial WFull a Hc1 Hi) as (L' & Hc' & HL'); [done|done|].
    exists L', (updF F a fl), a. split; [|split_and!; try done; [|by intros; apply updF_ne]].
    + apply (heap_ok_moved h _ L L' F fl S X i WFull a); try done.
      * intros v b. rewrite HL' by done. split; [|naive_solver].
        intros [[Hb Hn]|(_ & -> & ->)]; [|tauto]. left. split; [done|]. intros ->. apply Hn. split_and!; try done.
        by destruct (c_sep _ _ _ _ Hc i v i WPartial a Hi Hi Hb HaL).
      * intros j v b Hj Hne. rewrite HL' by done. naive_solver.
    + rewrite <-Hm1. apply push_remove_hm.
  - exists L, (updF F a fl), a. split; [|split_and!; try done; by intros; apply updF_ne].
    apply (heap_ok_moved h _ L L F fl S X i WPartial a); try done.
    intros v b. split; [|intros [[? _]|[-> ->]]; done]. intros Hb. destruct (decide (b = a)) as [->|]; [right|tauto].
    split; [|done]. by destruct (c_sep _ _ _ _ Hc i v i WPartial a Hi Hi Hb HaL).
Qed.
End ops.
