(* ===== verification/HeapAlloc.v ===== *)
(** Allocation from a slab cache: a fresh slab, its publication, and what
    [KmemCache::alloc] returns. *)
From stdpp Require Import base tactics numbers list gmap sorting.
From Stdlib Require Import ZArith Lia.
From S2P Require Import Prelude Phys PhysInv PhysSpec KMem Heap HeapInv HeapOps.

Local Open Scope Z_scope.
Local Open Scope word_scope.

(** ** The free list of a fresh slab *)

Lemma chain_ext lk lk' p fl : (forall x, x ∈ fl -> lk' !! x = lk !! x) -> chain lk p fl -> chain lk' p fl.
Proof.
  revert p. induction fl as [|y fl IH]; intros p Hx H; [done|]. destruct H as (-> & n & Hn & Hc). split; [done|].
  exists n. rewrite Hx by by left. split; [done|]. apply IH; [|done]. intros x Hin. apply Hx. by right.
Qed.

(** Links that lead from each index to the next chain all of them. *)
Lemma chain_indices lk (f : Z -> Z) n len k p :
  (forall j, k <= j < n -> lk !! f j = Some (if j + 1 <? n then f (j + 1) else 0)) ->
  Z.of_nat len = n - k -> (len <> 0%nat -> p = f k) -> chain lk p (f <$> seqZ k (Z.of_nat len)).
Proof.
  revert k p. induction len as [|len IH]; intros k p Hlk Hlen Hp; [done|].
  rewrite seqZ_cons by lia. simpl fmap. split; [by apply Hp|]. exists (if k + 1 <? n then f (k + 1) else 0).
  split; [apply Hlk; lia|]. replace (Z.pred (Z.of_nat (Datatypes.S len))) with (Z.of_nat len) by lia.
  apply (IH (Z.succ k)); [intros j Hj; apply Hlk; lia|lia|]. intros Hl.
  rewrite (proj2 (Z.ltb_lt _ _)) by lia. by replace (k + 1) with (Z.succ k) by lia.
Qed.

Section alloc.
Context {M : Type} `{!KernelMem M, !HeapMem M, !HeapMemLaws M}.
Implicit Types (h : Heap M) (L : nat -> Which -> list Z) (F : Z -> list Z) (S X : list (nat * Z)).

(** [Slab::init] on fresh pages: every object is free. *)
Lemma slab_init_eq h i a :
  (i < 9)%nat ->
  exists lk, slab_init h a (corder i) (csize i) =
    (a, put_slab (with_links h lk) a (mkSlab (a + SLAB_HEADER) a 0 0 (corder i) (ctotal i) (ctotal i))) /\
    chain lk (a + SLAB_HEADER) (objs i a) /\
    (forall x, ~ is_obj i a x -> lk !! x = links h !! x).
Proof.
  intros Hi. destruct (geometry i Hi) as (H1 & _ & H2 & H3 & H4 & H5 & _). unfold slab_init.
  change (Z.shiftl 1 (Z.of_nat (corder i)) * PAGE_SIZE) with (block_size (corder i)).
  rewrite (proj2 (Z.leb_gt _ _)) by nia. rewrite (proj2 (Z.ltb_ge _ _)) by lia. cbn [orb]. cbv zeta.
  rewrite <-H4, wrap_small by lia. eexists. split; [done|]. split.
  - unfold objs. replace (ctotal i) with (Z.of_nat (Z.to_nat (ctotal i))) at 2 by lia.
    apply chain_indices with (n := ctotal i).
    + intros j Hj. rewrite (writes_at (fun k => a + SLAB_HEADER + k * csize i)
        (fun k => if k + 1 <? ctotal i then a + SLAB_HEADER + (k + 1) * csize i else 0)); [done|apply NoDup_seqZ| |].
      * intros k k' _ _. by apply obj_inj.
      * apply elem_of_seqZ. lia.
    + lia.
    + intros _. lia.
  - intros x Hx. apply (writes_other (fun k => a + SLAB_HEADER + k * csize i)).
    intros k Hk%elem_of_seqZ He. apply Hx. exists k. split; [lia|done].
Qed.

Lemma slab_ok_hm h m i a fl : slab_ok h i a fl -> slab_ok (with_hm h m) i a fl.
Proof. intros [H1 H2 H3]. by split. Qed.

(** A fresh slab joins the heap, on no list. *)
Lemma core_fresh h m' L F S i a lk :
  core h L F S -> (i < 9)%nat -> HIGHER_HALF < a -> direct_block (corder i) (a - HIGHER_HALF) ->
  held m' (slab_pages (i, a) ++ (S ≫= slab_pages)) ->
  chain lk (a + SLAB_HEADER) (objs i a) -> (forall x, ~ is_obj i a x -> lk !! x = links h !! x) ->
  core (put_slab (with_links (with_hm h m') lk) a (mkSlab (a + SLAB_HEADER) a 0 0 (corder i) (ctotal i) (ctotal i)))
    L (updF F a (objs i a)) ((i, a) :: S) /\ (forall j, (j, a) ∉ S).
Proof.
  intros Hc Hi Ha Hdb Hheld Hch Hlk. pose proof (held_nodup _ _ Hheld) as Hnd.
  assert (forall j b x y, (j, b) ∈ S -> a <= x < a + block_size (corder i) -> b <= y < b + block_size (corder j) -> x <> y) as Hsep.
  { intros j b x y Hb Hx Hy ->. destruct (c_slab _ _ _ _ Hc j b Hb) as [_ [[_ Hbb] _ _]].
    apply NoDup_app in Hnd as (_ & Hd & _). eapply Hd; [by eapply range_page|]. apply list_elem_of_bind. exists (j, b).
    split; [by apply range_page|done]. }
  assert (forall j, 0 < block_size (corder j)) as Hbs.
  { intros j. rewrite block_size_eq. pose proof (Z.pow_pos_nonneg 2 (Z.of_nat (corder j))). lia. }
  assert (forall j, (j, a) ∉ S) as Hno.
  { intros j Hj. apply (Hsep j a a a Hj); [|specialize (Hbs j); lia|done]. specialize (Hbs i). lia. }
  split; [|done]. destruct Hc as [Hgeo Hlist Hin Hls Hslab Hh]. split.
  - done.
  - intros j w Hj. destruct (Hlist j w Hj) as [Hdl Hn]. split; [|done]. apply is_dl_frame; [|done].
    intros Hal. by eapply Hno, Hin.
  - intros j w b Hj Hb. right. by eapply Hin.
  - done.
  - intros j b Hb. apply elem_of_cons in Hb as [[= -> ->]|Hb].
    + split; [done|]. rewrite updF_eq. split; [done| |].
      * eexists. simpl. rewrite lookup_insert_eq. split_and!; try done. simpl. by rewrite length_objs.
      * split; [by apply objs_nodup|]. apply Forall_forall. intros x. apply elem_of_objs.
    + destruct (Hslab j b Hb) as [Hj [Hb1 (s & Hs & E1 & E2 & E3 & E4 & E5) Hb3]]. split; [done|].
      assert (b <> a) as Hba by (intros ->; by eapply Hno). rewrite updF_ne by done. split; [done| |done].
      exists s. simpl. rewrite lookup_insert_ne by done. split_and!; try done. eapply chain_ext; [|done].
      intros x Hx. apply Hlk. intros Ho. destruct Hb3 as [_ Hb3]. rewrite Forall_forall in Hb3.
      destruct (obj_range i a x Hi Ho), (obj_range j b x Hj (Hb3 x Hx)).
      destruct (geometry i Hi) as (? & _), (geometry j Hj) as (? & _). unfold SLAB_HEADER in *.
      eapply (Hsep j b x x); [done|lia|lia|done].
  - done.
Qed.

Lemma new_slab_ok h L F S X i :
  heap_ok h L F S X -> (i < 9)%nat ->
  match new_slab h i with
  | (None, h') => heap_ok h' L F S X
  | (Some (a, x), h') => exists fl, objs i a = x :: fl /\ (forall j, (j, a) ∉ S) /\
      heap_ok h' L (updF F a fl) ((i, a) :: S) ((i, a) :: X) /\ is_full (slab_at h' a) = bool_decide (fl = [])
  end.
Proof.
  intros [Hc Hnf Hwh Hlo Hpa Hfu] Hi. unfold new_slab.
  pose proof (c_geo _ _ _ _ Hc) as [_ Hgeo]. destruct (Hgeo i Hi) as [-> ->].
  destruct (geometry i Hi) as (Hg1 & _ & Hord & Hg3 & _).
  pose proof (held_alloc (hm h) (corder i) (S ≫= slab_pages)) as Hal.
  destruct (order_alloc (hm h) (corder i)) as [[ph|] m].
  - destruct Hal as [Hheld [Hwf Htop]]; [unfold MAX_ORDER; lia|apply Hc|].
    assert (HIGHER_HALF +u64 ph = HIGHER_HALF + ph) as ->.
    { apply wrap_small. destruct Hwf. unfold HIGHER_HALF. rewrite block_size_eq in Htop.
      pose proof (Z.pow_pos_nonneg 2 (Z.of_nat (corder i))). lia. }
    set (m1 := map_contiguous m _ _ _ _). set (a := HIGHER_HALF + ph).
    assert (a - HIGHER_HALF = ph) as Hap by (unfold a; lia).
    destruct (slab_init_eq (with_hm h m1) i a Hi) as (lk & -> & Hch & Hlk).
    assert (HIGHER_HALF < a) as Ha by (unfold a; destruct Hwf; lia).
    destruct (core_fresh h m1 L F S i a lk Hc Hi Ha) as [Hc1 Hno]; [by rewrite Hap| |done|done|].
    { unfold slab_pages at 1. simpl. rewrite Hap. by apply held_map. }
    set (h1 := put_slab _ _ _) in *.
    destruct (objs i a) as [|x fl] eqn:Eo; [pose proof (length_objs i a Hi) as Hl; rewrite Eo in Hl; simpl in Hl; lia|].
    destruct (core_alloc_obj h1 L (updF F a (x :: fl)) ((i, a) :: S) i a x fl Hc1) as (h2 & -> & Hc2 & Hfull & Hca & _);
      [by left|apply updF_eq|].
    exists fl. split_and!; [done|done| |done].
    assert (forall b, updF (updF F a (x :: fl)) a fl b = updF F a fl b) as HF by (intros b; unfold updF; by case_decide).
    assert (forall j w, (j < 9)%nat -> a ∉ L j w) as HaL by (intros j w Hj Hin; by eapply Hno, (c_in _ _ _ _ Hc)).
    split.
    + destruct Hc2 as [G1 G2 G3 G4 G5 G6]. split; try done. intros j b Hb. rewrite <-HF. by apply G5.
    + done.
    + intros j b Hb HbX. apply elem_of_cons in Hb as [Hb|Hb]; [destruct HbX; rewrite Hb; by left|].
      apply Hwh; [done|]. intros ?. apply HbX. by right.
    + intros j b u Hj Hb. apply elem_of_cons in Hb as [[= -> ->]|Hb]; [by apply HaL|by apply Hlo].
    + intros j b Hj Hb. rewrite updF_ne by (intros ->; by eapply HaL). by eapply Hpa.
    + intros j b Hj Hb. rewrite updF_ne by (intros ->; by eapply HaL). by eapply Hfu.
  - split; try done. destruct Hc as [G1 G2 G3 G4 G5 G6]. split; try done.
    + intros j b Hb. destruct (G5 j b Hb). split; [done|by apply slab_ok_hm].
    + apply Hal; [unfold MAX_ORDER; lia|done].
Qed.

(** ** Giving a slab's pages back *)

Lemma held_unmap_pages m base n C : held m C -> held (unmap_pages m base n) C.
Proof.
  intros Hm. unfold unmap_pages. revert m Hm. induction (seqZ 0 n) as [|p l IH]; intros m Hm; [done|].
  cbn [fold_left]. apply IH. by apply held_unmap.
Qed.

Definition give_back (m : M) (i : nat) (a : Z) : M :=
  pages_free (unmap_pages m a (2 ^ Z.of_nat (corder i))) (a - HIGHER_HALF) (2 ^ Z.of_nat (corder i)).

(** A slab on no list leaves the heap. *)
Lemma core_drop h L F S S' i a :
  core h L F S -> S ≡ₚ (i, a) :: S' -> (forall w, a ∉ L i w) ->
  core (with_hm h (give_back (hm h) i a)) L F S' /\ (forall j, (j, a) ∉ S').
Proof.
  intros Hc HS HaL. assert ((i, a) ∈ S) as HaS by (rewrite HS; by left).
  destruct (c_slab _ _ _ _ Hc i a HaS) as [Hi [[_ Hdb] _ _]]. pose proof (c_held _ _ _ _ Hc) as Hh.
  apply (held_perm _ _ (slab_pages (i, a) ++ (S' ≫= slab_pages))) in Hh; [|by rewrite HS].
  assert (forall j, (j, a) ∉ S') as Hno.
  { intros j Hj. pose proof (held_nodup _ _ Hh) as (_ & Hd & _)%NoDup_app.
    eapply (Hd ((a - HIGHER_HALF) / PAGE_SIZE)); [apply block_pages_head|]. apply list_elem_of_bind. exists (j, a).
    split; [apply block_pages_head|done]. }
  split; [|done]. destruct Hc as [Hgeo Hlist Hin Hsep Hslab _]. split; try done.
  - intros j w b Hj Hb. pose proof (Hin j w b Hj Hb) as HbS. rewrite HS in HbS.
    apply elem_of_cons in HbS as [[= -> ->]|HbS]; [by destruct (HaL w)|done].
  - intros j b Hb. destruct (Hslab j b) as [Hj Hok]; [rewrite HS; by right|]. split; [done|by apply slab_ok_hm].
  - simpl. unfold give_back. apply held_free; [destruct (geometry i Hi) as (_ & _ & ? & _); unfold MAX_ORDER; lia|done|].
    by apply held_unmap_pages.
Qed.

Lemma heap_ok_drop h L F S S' X X' i a :
  heap_ok h L F S X -> S ≡ₚ (i, a) :: S' -> (forall w, a ∉ L i w) -> (forall p, p ∈ X' <-> p ∈ X /\ p <> (i, a)) ->
  heap_ok (with_hm h (give_back (hm h) i a)) L F S' X' /\
  (forall j x, live F S' X' j x <-> live F S X j x /\ ~ (j = i /\ is_obj i a x)).
Proof.
  intros [Hc Hnf Hwh Hlo Hpa Hfu] HS HaL HX. destruct (core_drop h L F S S' i a Hc HS HaL) as [Hc' Hno]. split; [split; try done|].
  - intros j b Hb HbX. apply Hwh; [rewrite HS; by right|]. intros HX'. apply HbX, HX. split; [done|]. intros [= -> ->]. by eapply Hno.
  - intros j b u Hj Hb. apply HX in Hb as [Hb _]. by apply Hlo.
  - intros j x. assert ((i, a) ∈ S) as HaS by (rewrite HS; by left). split.
    + intros (b & Hb & HbX & Ho & Hn). assert ((j, b) <> (i, a)) as Hne by (intros [= -> ->]; by eapply Hno).
      assert ((j, b) ∈ S) as HbS by (rewrite HS; by right). split.
      * exists b. split_and!; try done. intros HX'. apply HbX, HX. done.
      * intros [-> Ho']. apply Hne. by apply (obj_sep h L F S i b i a x).
    + intros [(b & Hb & HbX & Ho & Hn) Hna]. exists b. rewrite HS in Hb. apply elem_of_cons in Hb as [[= -> ->]|Hb]; [by destruct Hna|].
      split_and!; try done. intros [? _]%HX. done.
Qed.

(** ** Publication *)

Lemma slab_phys h L F S i a : core h L F S -> (i, a) ∈ S -> a -u64 HIGHER_HALF = a - HIGHER_HALF.
Proof.
  intros Hc HaS. destruct (c_slab _ _ _ _ Hc i a HaS) as [Hi [[Ha [_ Htop]] _ _]]. apply wrap_small.
  rewrite block_size_eq in Htop. pose proof (Z.pow_pos_nonneg 2 (Z.of_nat (corder i))). lia.
Qed.

(** A loose slab is pushed on the list its free objects call for. *)
Lemma heap_ok_publish h L F S X i a u :
  heap_ok h L F S ((i, a) :: X) -> (i, a) ∈ S -> (i, a) ∉ X -> (i < 9)%nat ->
  u = (if bool_decide (F a = []) then WFull else WPartial) ->
  exists L', heap_ok (push_ptr h i u a) L' F S X.
Proof.
  intros [Hc Hnf Hwh Hlo Hpa Hfu] HaS HaX Hi Hu.
  assert (forall w, a ∉ L i w) as HaL by (intros w; apply Hlo; [done|by left]).
  assert (forall j w, (j < 9)%nat -> a ∈ L j w -> j = i) as Hidx.
  { intros j w Hj Hin. by apply (slab_index h L F S j i a Hc (c_in _ _ _ _ Hc j w a Hj Hin)). }
  exists (upd L i u (a :: L i u)). split.
  - by apply core_push.
  - intros j Hj. rewrite upd_ne; [by apply Hnf|]. intros [_ ?]. subst u. by case_bool_decide.
  - intros j b Hb HbX. destruct (decide ((j, b) = (i, a))) as [[= -> ->]|Hne].
    + subst u. case_bool_decide; [right|left]; rewrite upd_eq; by left.
    + destruct (Hwh j b Hb) as [Hin|Hin]; [set_solver|left|right];
        unfold upd; case_decide as Hd; try done; destruct Hd as [-> <-]; by right.
  - intros j b w Hj Hb Hin. unfold upd in Hin. case_decide as Hd; [destruct Hd as [-> ->]|].
    + apply elem_of_cons in Hin as [->|Hin]; [done|]. eapply Hlo; [done|right; exact Hb|exact Hin].
    + eapply Hlo; [done|right; exact Hb|exact Hin].
  - intros j b Hj Hin. unfold upd in Hin. case_decide as Hd; [destruct Hd as [-> <-]|by eapply Hpa].
    apply elem_of_cons in Hin as [->|Hin]; [|by eapply Hpa]. by case_bool_decide.
  - intros j b Hj Hin. unfold upd in Hin. case_decide as Hd; [destruct Hd as [-> <-]|by eapply Hfu].
    apply elem_of_cons in Hin as [->|Hin]; [|by eapply Hfu]. by case_bool_decide.
Qed.

(** ** The heap as a set of blocks

    [A] holds the blocks handed out, by cache index and address; [X] the
    slabs that CPUs on the slow path have built and not yet published. *)
Definition blocks h (A : gset (nat * Z)) X : Prop :=
  exists L F S, heap_ok h L F S X /\ (forall i x, (i, x) ∈ A <-> live F S X i x) /\ NoDup X /\
    (forall i a, (i, a) ∈ X -> (i, a) ∈ S /\ objs i a = (a + SLAB_HEADER) :: F a).

Lemma blocks_sep h A X i j x y :
  blocks h A X -> (i, x) ∈ A -> (j, y) ∈ A -> (i, x) <> (j, y) -> x + csize i <= y \/ y + csize j <= x.
Proof.
  intros (L & F & S & [Hc _ _ _ _ _] & HA & _) (a & Ha & _ & Hx & _)%HA (b & Hb & _ & Hy & _)%HA Hne.
  destruct (c_slab _ _ _ _ Hc i a Ha) as [Hi _], (c_slab _ _ _ _ Hc j b Hb) as [Hj _].
  destruct (decide ((i, a) = (j, b))) as [[= -> ->]|Hab].
  - destruct Hx as (k & Hk & ->), Hy as (k' & Hk' & ->). destruct (geometry j Hj) as (? & _).
    assert (k <> k') by congruence. nia.
  - destruct (Z.le_gt_cases (x + csize i) y) as [|Hxy]; [by left|]. right.
    destruct (Z.le_gt_cases (y + csize j) x) as [|Hyx]; [done|]. exfalso. apply Hab.
    destruct (obj_range i a x Hi Hx), (obj_range j b y Hj Hy). unfold SLAB_HEADER in *.
    destruct (geometry i Hi) as (? & _), (geometry j Hj) as (? & _).
    apply (slab_sep h L F S i a j b (Z.max x y) (Z.max x y) Hc Ha Hb); lia.
Qed.

Lemma blocks_fast h A X i x h' :
  blocks h A X -> (i < 9)%nat -> alloc_fast h i = Some (x, h') -> (forall j, (j, x) ∉ A) /\ blocks h' ({[(i, x)]} ∪ A) X.
Proof.
  intros (L & F & S & Hok & HA & Hnd & HX) Hi He. pose proof (fast_ok h L F S X i Hok Hi) as Hf. rewrite He in Hf.
  destruct Hf as (L' & F' & a & Hok' & Ha & HaX & Hx & Hnl & Hlive & _ & HF). split; [intros j Hj%HA; by eapply Hnl|].
  exists L', F', S. split_and!; [done| |done|].
  - intros j y. rewrite elem_of_union, elem_of_singleton, HA, Hlive. naive_solver.
  - intros j b Hb. destruct (HX j b Hb) as [HbS Ho]. split; [done|]. rewrite HF; [done|]. intros ->. apply HaX.
    by rewrite (slab_index h L F S i j a (ok_core _ _ _ _ _ Hok) Ha HbS).
Qed.

Lemma blocks_new h A X i :
  blocks h A X -> (i < 9)%nat ->
  match new_slab h i with
  | (None, h') => blocks h' A X
  | (Some (a, x), h') => x = a + SLAB_HEADER /\ blocks h' A ((i, a) :: X) /\ (forall j, (j, x) ∉ A)
  end.
Proof.
  intros (L & F & S & Hok & HA & Hnd & HX) Hi. pose proof (new_slab_ok h L F S X i Hok Hi) as Hn.
  destruct (new_slab h i) as [[[a x]|] h']; [|by exists L, F, S].
  destruct Hn as (fl & Ho & Hno & Hok' & _).
  assert (x = a + SLAB_HEADER) as ->.
  { destruct (geometry i Hi) as (_ & _ & _ & Hct & _). unfold objs in Ho. rewrite seqZ_cons in Ho by lia. injection Ho as <- _. lia. }
  assert (is_obj i a (a + SLAB_HEADER)) as Hx by (apply elem_of_objs; rewrite Ho; by left).
  split_and!; [done| |].
  - exists L, (updF F a fl), ((i, a) :: S). split_and!; [done| | |].
    + intros j y. rewrite HA. split.
      * intros (b & Hb & HbX & Hy & Hn). exists b. assert (b <> a) by (intros ->; by eapply Hno). rewrite updF_ne by done.
        split_and!; try done; [by right|]. intros [[= ]|]%elem_of_cons; done.
      * intros (b & Hb & HbX & Hy & Hn). apply not_elem_of_cons in HbX as [Hne HbX].
        apply elem_of_cons in Hb as [Hb|Hb]; [done|]. exists b. rewrite updF_ne in Hn; [done|]. intros ->. by eapply Hno.
    + constructor; [|done]. intros Ha. destruct (HX _ _ Ha). by eapply Hno.
    + intros j b [[= -> ->]|Hb]%elem_of_cons; [rewrite updF_eq; split; [by left|done]|].
      destruct (HX j b Hb) as [HbS Hob]. split; [by right|]. rewrite updF_ne; [done|]. intros ->. by eapply Hno.
  - intros j (b & Hb & _ & Hy & _)%HA. pose proof (ok_core _ _ _ _ _ Hok') as Hc'.
    pose proof (obj_sep h' L (updF F a fl) ((i, a) :: S) i a j b _ Hc' (list_elem_of_here _ _) (list_elem_of_further _ _ _ Hb) Hx Hy) as [= <- <-].
    by eapply Hno.
Qed.

Lemma shiftl_pow o : Z.shiftl 1 (Z.of_nat o) = 2 ^ Z.of_nat o.
Proof. rewrite Z.shiftl_mul_pow2 by lia. lia. Qed.

(** Publication, whatever other CPUs did to the cache meanwhile: the new
    object, or one of a slab that appeared, the new slab's pages being given
    back. *)
Lemma blocks_install h A X i a :
  blocks h A X -> (i, a) ∈ X ->
  exists y h' X', install h i a (a + SLAB_HEADER) = (y, h') /\ (forall j, (j, y) ∉ A) /\ y <> 0 /\
    X ≡ₚ (i, a) :: X' /\ blocks h' ({[(i, y)]} ∪ A) X'.
Proof.
  intros (L & F & S & Hok & HA & Hnd & HX) HaX.
  pose proof (ok_core _ _ _ _ _ Hok) as Hc. destruct (HX i a HaX) as [HaS Ho].
  destruct (c_slab _ _ _ _ Hc i a HaS) as [Hi [[Ha _] (s & Hs & _ & _ & _ & Hfo & _) _]].
  assert (is_obj i a (a + SLAB_HEADER)) as Hx by (apply elem_of_objs; rewrite Ho; by left).
  destruct (list_elem_of_split _ _ HaX) as (X1 & X2 & EX). set (X' := X1 ++ X2).
  assert (X ≡ₚ (i, a) :: X') as HXp by (rewrite EX; unfold X'; by rewrite Permutation_middle).
  assert (NoDup ((i, a) :: X')) as Hnd' by by rewrite <-HXp.
  apply NoDup_cons in Hnd' as [HaX' Hnd'].
  assert (forall p, p ∈ X' <-> p ∈ X /\ p <> (i, a)) as HX'.
  { intros p. rewrite HXp, elem_of_cons. split; [|tauto]. intros Hp. split; [by right|]. intros ->. done. }
  unfold install. pose proof (fast_ok h L F S X i Hok Hi) as Hf. destruct (alloc_fast h i) as [[y h1]|] eqn:Ef.
  - destruct Hf as (L' & F' & b & Hok' & Hb & HbX & Hy & Hnl & Hlive & Hm & HF).
    destruct (list_elem_of_split _ _ HaS) as (S1 & S2 & ES).
    assert (S ≡ₚ (i, a) :: (S1 ++ S2)) as HSp by (rewrite ES; by rewrite Permutation_middle).
    destruct (heap_ok_drop h1 L' F' S (S1 ++ S2) X X' i a Hok' HSp) as [Hok2 Hlive2];
      [intros w; by apply (ok_loose _ _ _ _ _ Hok')|done|].
    eexists _, _, X'. split; [done|]. split_and!; [intros j Hj%HA; by eapply Hnl| |done|].
    { destruct (obj_range i b y Hi Hy). destruct (c_slab _ _ _ _ Hc i b Hb) as [_ [[? _] _ _]]. unfold HIGHER_HALF, SLAB_HEADER in *. lia. }
    rewrite (slab_phys h L F S i a Hc HaS). destruct (c_geo _ _ _ _ Hc) as [_ Hgeo]. destruct (Hgeo i Hi) as [_ ->].
    rewrite shiftl_pow. exists L', F', (S1 ++ S2). split_and!; [done| |done|].
    + intros j z. rewrite elem_of_union, elem_of_singleton, HA, Hlive2, Hlive. split.
      * intros [[= -> ->]|Hz]; (split; [tauto|]).
        -- intros [_ Hya]. pose proof (obj_sep h L F S i a i b y Hc HaS Hb Hya Hy) as [= ->]. done.
        -- destruct Hz as (c & Hcs & HcX & Hz & _). intros [-> Hza].
           pose proof (obj_sep h L F S i a i c z Hc HaS Hcs Hza Hz) as [= ->]. done.
      * intros [[[-> ->]|Hz] _]; tauto.
    + intros j c Hcx. apply HX' in Hcx as [Hcx Hne]. destruct (HX j c Hcx) as [HcS Hco]. split.
      * rewrite HSp in HcS. by apply elem_of_cons in HcS as [|].
      * rewrite HF; [done|]. intros ->. apply HbX. by rewrite (slab_index h L F S i j b Hc Hb HcS).
  - assert (heap_ok h L F S ((i, a) :: X')) as Hok2.
    { destruct Hok as [G1 G2 G3 G4 G5 G6]. split; try done.
      - intros j b Hb HbX. apply G3; [done|]. by rewrite HXp.
      - intros j b u Hj Hb. apply G4; [done|]. by rewrite HXp. }
    destruct (heap_ok_publish h L F S X' i a (if is_full (slab_at h a) then WFull else WPartial) Hok2 HaS HaX' Hi) as (L' & Hok').
    { unfold is_full, slab_at. rewrite Hs. simpl. rewrite Hfo. by destruct (F a). }
    eexists _, _, X'. split; [done|]. split_and!; [| |done|].
    + intros j (b & Hb & HbX & Hy & _)%HA. pose proof (obj_sep h L F S i a j b _ Hc HaS Hb Hx Hy) as [= <- <-]. done.
    + unfold HIGHER_HALF, SLAB_HEADER in *. lia.
    + exists L', F, S. split_and!; [done| |done|].
      * intros j z. rewrite elem_of_union, elem_of_singleton, HA. split.
        -- intros [[= -> ->]|(b & Hb & HbX & Hz & Hn)].
           ++ exists a. split_and!; try done. intros Hin.
              pose proof (objs_nodup i a Hi) as Hndo. rewrite Ho in Hndo. by apply NoDup_cons in Hndo as [? _].
           ++ exists b. split_and!; try done. intros [? _]%HX'. done.
        -- intros (b & Hb & HbX & Hz & Hn). destruct (decide ((j, b) = (i, a))) as [[= -> ->]|Hne].
           ++ left. f_equal. apply elem_of_objs in Hz. rewrite Ho in Hz. by apply elem_of_cons in Hz as [|].
           ++ right. exists b. split_and!; try done. intros ?. by apply HbX, HX'.
      * intros j b [Hb _]%HX'. by apply HX.
Qed.
End alloc.
