(* ===== verification/HeapFree.v ===== *)
(** Freeing an object: finding its slab, the list moves, and giving an
    emptied slab's pages back. *)
From stdpp Require Import base tactics numbers list gmap sorting.
From Stdlib Require Import ZArith Lia.
From S2P Require Import Prelude Phys PhysInv PhysSpec KMem Heap HeapInv HeapOps HeapAlloc.

Local Open Scope Z_scope.
Local Open Scope word_scope.

Section walks.
Context {M : Type}.
Implicit Types (h : Heap M).

Lemma dl_length h prev p l : is_dl (slabs h) prev p l -> NoDup l -> (length l <= size (slabs h))%nat.
Proof.
  intros Hdl Hnd. rewrite <-size_dom, <-(size_list_to_set (C := gset Z) l Hnd). apply subseteq_size.
  intros a Ha%elem_of_list_to_set. destruct (is_dl_lookup _ _ _ _ a Hdl Ha) as [s Hs]. by apply elem_of_dom_2 in Hs.
Qed.

(** The walk stops at the first slab whose range holds the object. *)
Lemma find_in_spec h obj fuel prev p l :
  is_dl (slabs h) prev p l -> (length l < fuel)%nat ->
  let r := find_in fuel h p obj in
  (r = 0 /\ forall a, a ∈ l -> contains (slab_at h a) obj = false) \/ (r ∈ l /\ contains (slab_at h r) obj = true).
Proof.
  revert fuel prev p. induction l as [|b l IH]; intros fuel prev p Hdl Hf; destruct fuel as [|fuel]; try (simpl in Hf; lia).
  - simpl in Hdl. subst p. left. split; [done|]. intros a Ha. by apply elem_of_nil in Ha.
  - destruct Hdl as (-> & Hb & s & Hs & _ & Hl). cbv zeta. cbn [find_in]. rewrite (proj2 (Z.eqb_neq _ _)) by done.
    destruct (contains (slab_at h b) obj) eqn:E; [right; split; [by left|done]|].
    assert (snext (slab_at h b) = snext s) as -> by (unfold slab_at; by rewrite Hs).
    destruct (IH fuel b (snext s) Hl) as [[Hr Ha]|[Hr Ha]]; [simpl in Hf; lia| |].
    + left. split; [done|]. intros a [->|Hin]%elem_of_cons; auto.
    + right. split; [by right|done].
Qed.

Lemma on_list_spec h a fuel prev p l :
  is_dl (slabs h) prev p l -> (length l < fuel)%nat -> on_list fuel h p a = bool_decide (a ∈ l).
Proof.
  revert fuel prev p. induction l as [|b l IH]; intros fuel prev p Hdl Hf; destruct fuel as [|fuel]; try (simpl in Hf; lia).
  - simpl in Hdl. subst p. rewrite bool_decide_eq_false_2; [done|]. by intros ?%elem_of_nil.
  - destruct Hdl as (-> & Hb & s & Hs & _ & Hl). cbn [on_list]. rewrite (proj2 (Z.eqb_neq _ _)) by done.
    destruct (Z.eqb_spec b a) as [->|Hne]; [rewrite bool_decide_eq_true_2; [done|by left]|].
    assert (snext (slab_at h b) = snext s) as -> by (unfold slab_at; by rewrite Hs).
    rewrite (IH fuel b (snext s) Hl) by (simpl in Hf; lia). apply bool_decide_ext. rewrite elem_of_cons. naive_solver.
Qed.
End walks.

Section free.
Context {M : Type} `{!KernelMem M, !HeapMem M, !HeapMemLaws M}.
Implicit Types (h : Heap M) (L : nat -> Which -> list Z) (F : Z -> list Z) (S X : list (nat * Z)).

Lemma list_fuel_ok h L F S i w : core h L F S -> (i < 9)%nat -> (length (L i w) < list_fuel h)%nat.
Proof. intros Hc Hi. destruct (c_list _ _ _ _ Hc i w Hi) as [Hdl Hnd]. pose proof (dl_length h _ _ _ Hdl Hnd). unfold list_fuel. lia. Qed.

Lemma slab_contains h L F S i a x :
  core h L F S -> (i, a) ∈ S -> contains (slab_at h a) x = true <-> a <= x < a + block_size (corder i).
Proof.
  intros Hc Ha. destruct (c_slab _ _ _ _ Hc i a Ha) as [_ [_ (s & Hs & E1 & E2 & _) _]].
  unfold contains, slab_at. rewrite Hs. simpl. rewrite E1, E2. unfold block_size. rewrite andb_true_iff, Z.geb_le, Z.ltb_lt. lia.
Qed.

(** The slab found is the one the object belongs to. *)
Lemma find_slab_ok h L F S X i a x :
  heap_ok h L F S X -> (i, a) ∈ S -> (i, a) ∉ X -> is_obj i a x -> find_slab_ptr h i x = a.
Proof.
  intros Hok Ha HaX Hx. pose proof (ok_core _ _ _ _ _ Hok) as Hc. destruct (c_slab _ _ _ _ Hc i a Ha) as [Hi [[Hhi _] _ _]].
  assert (a <= x < a + block_size (corder i)) as Hr.
  { destruct (obj_range i a x Hi Hx), (geometry i Hi) as (? & _). unfold SLAB_HEADER in *. lia. }
  assert (contains (slab_at h a) x = true) as Hac by by apply (slab_contains h L F S i a x Hc Ha).
  assert (forall w b, b ∈ L i w -> contains (slab_at h b) x = true -> b = a) as Huniq.
  { intros w b Hb Hbx. pose proof (c_in _ _ _ _ Hc i w b Hi Hb) as HbS. apply (slab_contains h L F S i b x Hc HbS) in Hbx.
    by pose proof (slab_sep h L F S i b i a x x Hc HbS Ha Hbx Hr eq_refl) as [=]. }
  assert (a <> 0) as Ha0 by (unfold HIGHER_HALF in Hhi; lia).
  unfold find_slab_ptr.
  destruct (c_list _ _ _ _ Hc i WPartial Hi) as [Hdp _], (c_list _ _ _ _ Hc i WFull Hi) as [Hdf _].
  destruct (find_in_spec h x (list_fuel h) 0 (partial (cache_at h i)) _ Hdp (list_fuel_ok h L F S i WPartial Hc Hi)) as [[-> Hno]|[Hin Hcon]].
  - simpl. destruct (find_in_spec h x (list_fuel h) 0 (full (cache_at h i)) _ Hdf (list_fuel_ok h L F S i WFull Hc Hi)) as [[_ Hno']|[Hin Hcon]];
      [|by apply (Huniq WFull)].
    destruct (ok_where _ _ _ _ _ Hok i a Ha HaX) as [H|H]; [rewrite Hno in Hac by done|rewrite Hno' in Hac by done]; done.
  - pose proof (Huniq WPartial _ Hin Hcon) as ->. by rewrite (proj2 (Z.eqb_neq _ _)).
Qed.

(** Taking a slab off the list it is on. *)
Lemma remove_any_ok h L F S i a w :
  core h L F S -> (i < 9)%nat -> a ∈ L i w -> w <> WFree ->
  exists L', core (remove_from_any_list h i a) L' F S /\ hm (remove_from_any_list h i a) = hm h /\
    (forall v b, b ∈ L' i v <-> b ∈ L i v /\ b <> a) /\ (forall j v, (j < 9)%nat -> j <> i -> L' j v = L j v).
Proof.
  intros Hc Hi Ha Hw. unfold remove_from_any_list.
  destruct (c_list _ _ _ _ Hc i WPartial Hi) as [Hdp _], (c_list _ _ _ _ Hc i WFull Hi) as [Hdf _].
  rewrite (on_list_spec h a (list_fuel h) 0 (partial (cache_at h i)) _ Hdp (list_fuel_ok h L F S i WPartial Hc Hi)).
  rewrite (on_list_spec h a (list_fuel h) 0 (full (cache_at h i)) _ Hdf (list_fuel_ok h L F S i WFull Hc Hi)).
  assert (forall v, a ∈ L i v -> v = w) as Hv by (intros v Hin; by destruct (c_sep _ _ _ _ Hc i v i w a Hi Hi Hin Ha)).
  assert ((if bool_decide (a ∈ L i WPartial) then remove_ptr h i WPartial a
    else if bool_decide (a ∈ L i WFull) then remove_ptr h i WFull a else h) = remove_ptr h i w a) as ->.
  { destruct w; [by rewrite bool_decide_eq_true_2|done|]. rewrite bool_decide_eq_false_2; [by rewrite bool_decide_eq_true_2|].
    intros Hin. by specialize (Hv _ Hin). }
  destruct (list_elem_of_split _ _ Ha) as (l1 & l2 & HL). exists (upd L i w (l1 ++ l2)).
  destruct (c_list _ _ _ _ Hc i w Hi) as [_ Hnd]. rewrite HL in Hnd.
  assert (a ∉ l1 ++ l2) as Hno by (by rewrite <-Permutation_middle, NoDup_cons in Hnd; destruct Hnd).
  split_and!.
  - by apply core_remove.
  - unfold remove_ptr. by repeat case_match.
  - intros v b. destruct (decide (v = w)) as [->|Hne].
    + rewrite upd_eq, HL. rewrite elem_of_app in Hno. rewrite !elem_of_app, elem_of_cons. split; [|tauto].
      intros Hb. split; [tauto|]. intros ->. tauto.
    + rewrite upd_ne by tauto. split; [|tauto]. intros Hb. split; [done|]. intros ->. by apply Hne, Hv.
  - intros j v Hj Hne. apply upd_ne. tauto.
Qed.

(** A slab off every list, its free objects changed, is loose. *)
Lemma heap_ok_unlist h h' L L' F fl S X i a :
  heap_ok h L F S X -> (i < 9)%nat -> (i, a) ∈ S -> core h' L' (updF F a fl) S ->
  (forall v b, b ∈ L' i v <-> b ∈ L i v /\ b <> a) -> (forall j v, (j < 9)%nat -> j <> i -> L' j v = L j v) ->
  heap_ok h' L' (updF F a fl) S ((i, a) :: X).
Proof.
  intros [Hc Hnf Hwh Hlo Hpa Hfu] Hi HaS Hc' HLi HLj.
  assert (forall j v b, (j < 9)%nat -> b ∈ L' j v <-> b ∈ L j v /\ (j, b) <> (i, a)) as HL'.
  { intros j v b Hj. destruct (decide (j = i)) as [->|Hne]; [rewrite HLi; naive_solver|].
    rewrite HLj by done. split; [|tauto]. intros Hb. split; [done|congruence]. }
  assert (forall j v b, (j < 9)%nat -> b ∈ L' j v -> b <> a /\ b ∈ L j v) as Hba.
  { intros j v b Hj Hb. apply HL' in Hb as [Hb Hne]; [|done]. split; [|done]. intros ->. apply Hne. f_equal.
    by apply (slab_index h L F S j i a Hc (c_in _ _ _ _ Hc j v a Hj Hb)). }
  split; [done| | | | |].
  - intros j Hj. destruct (L' j WFree) as [|b l] eqn:E; [done|].
    assert (b ∈ L' j WFree) as Hb by (rewrite E; by left). apply Hba in Hb as [_ Hb]; [|done]. rewrite Hnf in Hb by done.
    by apply elem_of_nil in Hb.
  - intros j b Hb HbX. apply not_elem_of_cons in HbX as [Hne HbX]. destruct (c_slab _ _ _ _ Hc j b Hb) as [Hj _].
    destruct (Hwh j b Hb HbX); [left|right]; by apply HL'.
  - intros j b u Hj Hb Hin. apply HL' in Hin as [Hin Hne]; [|done]. apply elem_of_cons in Hb as [Hb|Hb]; [done|by eapply Hlo].
  - intros j b Hj Hb. apply Hba in Hb as [Hne Hb]; [|done]. rewrite updF_ne by done. by eapply Hpa.
  - intros j b Hj Hb. apply Hba in Hb as [Hne Hb]; [|done]. rewrite updF_ne by done. by eapply Hfu.
Qed.

(** The blocks left once an object of slab [a] is back on its free list. *)
Lemma live_freed h L F S X i a x j y :
  heap_ok h L F S X -> (i, a) ∈ S -> (i, a) ∉ X -> is_obj i a x ->
  live (updF F a (x :: F a)) S X j y <-> live F S X j y /\ ~ (j = i /\ y = x).
Proof.
  intros Hok Ha HaX Hx. pose proof (ok_core _ _ _ _ _ Hok) as Hc. split.
  - intros (b & Hb & HbX & Hy & Hn). destruct (decide (b = a)) as [->|Hne].
    + rewrite updF_eq in Hn. apply not_elem_of_cons in Hn as [Hyx Hn]. split; [by exists a|]. tauto.
    + rewrite updF_ne in Hn by done. split; [by exists b|]. intros [-> ->].
      pose proof (obj_sep h L F S i a i b x Hc Ha Hb Hx Hy) as [= ->]. done.
  - intros [(b & Hb & HbX & Hy & Hn) Hne]. exists b. split_and!; try done. destruct (decide (b = a)) as [->|Hba].
    + rewrite updF_eq. assert (j = i) as -> by by apply (slab_index h L F S j i a). apply not_elem_of_cons. split; [|done].
      intros ->. tauto.
    + by rewrite updF_ne.
Qed.

(** [KmemCache::free] of a live object; the emptied slab leaves the heap. *)
Lemma free_ok h L F S X i a x :
  heap_ok h L F S X -> (i, a) ∈ S -> (i, a) ∉ X -> is_obj i a x -> x ∉ F a ->
  let F' := updF F a (x :: F a) in
  if bool_decide (Z.of_nat (length (x :: F a)) = ctotal i) then
    exists L' S', S ≡ₚ (i, a) :: S' /\ heap_ok (cache_free h i x) L' F' S' X /\
      (forall j y, live F' S' X j y <-> live F' S ((i, a) :: X) j y) /\ hm (cache_free h i x) = give_back (hm h) i a
  else exists L', heap_ok (cache_free h i x) L' F' S X /\ hm (cache_free h i x) = hm h.
Proof.
  intros Hok HaS HaX Hx Hxf. cbv zeta. pose proof (ok_core _ _ _ _ _ Hok) as Hc.
  destruct (c_slab _ _ _ _ Hc i a HaS) as [Hi [[Hhi _] (s & Hs & _ & _ & _ & Hfo & _) _]].
  assert (a <> 0) as Ha0 by (unfold HIGHER_HALF in Hhi; lia).
  unfold cache_free. rewrite (find_slab_ok h L F S X i a x Hok HaS HaX Hx), (proj2 (Z.eqb_neq a 0)) by done.
  assert (is_full (slab_at h a) = bool_decide (F a = [])) as ->.
  { unfold is_full, slab_at. rewrite Hs. simpl. rewrite Hfo. by destruct (F a). }
  destruct (core_free_obj h L F S i a x Hc HaS Hx Hxf) as (Hc1 & -> & Hca & Hm).
  set (h1 := free_obj h a x) in *. set (fl := x :: F a) in *.
  assert (exists w, a ∈ L i w /\ w = if bool_decide (F a = []) then WFull else WPartial) as (w & HaL & Hw).
  { destruct (ok_where _ _ _ _ _ Hok i a HaS HaX) as [H|H].
    - exists WPartial. split; [done|]. by rewrite bool_decide_eq_false_2 by by apply (ok_partial _ _ _ _ _ Hok i).
    - exists WFull. split; [done|]. by rewrite bool_decide_eq_true_2 by by apply (ok_full _ _ _ _ _ Hok i). }
  assert (forall v b, b ∈ L i v -> b = a -> v = w) as Hvw.
  { intros v b Hb ->. by destruct (c_sep _ _ _ _ Hc i v i w a Hi Hi Hb HaL). }
  destruct (decide (Z.of_nat (length fl) = ctotal i)) as [Ee|Ee];
    [rewrite !(bool_decide_eq_true_2 _ Ee)|rewrite !(bool_decide_eq_false_2 _ Ee)].
  - cbn [negb]. rewrite andb_false_r.
    destruct (remove_any_ok h1 L (updF F a fl) S i a w Hc1 Hi HaL) as (L' & Hc3 & Hm3 & HLi & HLj); [subst w; by case_bool_decide|].
    set (h3 := remove_from_any_list h1 i a) in *.
    pose proof (heap_ok_unlist h h3 L L' F fl S X i a Hok Hi HaS Hc3 HLi HLj) as Hok3.
    destruct (c_slab _ _ _ _ Hc3 i a HaS) as [_ [_ (s3 & Hs3 & Eb & Eo & _) _]].
    assert (slab_at h3 a = s3) as -> by (unfold slab_at; by rewrite Hs3). rewrite Eb, Eo, shiftl_pow, (slab_phys h L F S i a Hc HaS).
    destruct (list_elem_of_split _ _ HaS) as (S1 & S2 & ES). exists L', (S1 ++ S2).
    assert (S ≡ₚ (i, a) :: (S1 ++ S2)) as HSp by (rewrite ES; by rewrite Permutation_middle). split; [done|].
    destruct (heap_ok_drop h3 L' (updF F a fl) S (S1 ++ S2) ((i, a) :: X) X i a Hok3 HSp) as [Hok4 Hlive].
    + intros v Hin. apply HLi in Hin as [_ ?]. done.
    + intros p. rewrite elem_of_cons. split; [|tauto]. intros Hp. split; [by right|]. intros ->. done.
    + split; [done|]. split; [|unfold give_back; by rewrite <-Hm, <-Hm3]. intros j y. rewrite Hlive. split; [tauto|]. intros Hl. split; [done|]. intros [-> Hy].
      destruct Hl as (b & Hb & HbX & Hyb & _). apply HbX.
      pose proof (obj_sep h L F S i a i b y Hc HaS Hb Hy Hyb) as [= ->]. by left.
  - cbn [negb]. rewrite andb_true_r. case_bool_decide as Ef; subst w.
    + destruct (core_move h1 L (updF F a fl) S i WFull WPartial a Hc1 Hi) as (L' & Hc' & HL'); [done|done|].
      exists L'. split; [|by rewrite push_remove_hm].
      apply (heap_ok_moved h _ L L' F fl S X i WPartial a); try done.
      * intros v b. rewrite HL' by done. split; [|naive_solver]. intros [[Hb Hn]|(_ & -> & ->)]; [|tauto].
        left. split; [done|]. intros ->. apply Hn. split_and!; try done. by apply (Hvw v a).
      * intros j v b Hj Hne. rewrite HL' by done. naive_solver.
    + exists L. split; [|done]. apply (heap_ok_moved h _ L L F fl S X i WPartial a); try done.
      intros v b. split; [|intros [[? _]|[-> ->]]; done]. intros Hb. destruct (decide (b = a)) as [->|]; [right|tauto].
      split; [by apply (Hvw v a)|done].
Qed.

(** The slab is empty when the freed object was its only live one. *)
Lemma emptied_iff h L F S X i a x :
  heap_ok h L F S X -> (i, a) ∈ S -> (i, a) ∉ X -> is_obj i a x -> x ∉ F a ->
  Z.of_nat (length (x :: F a)) = ctotal i <-> (forall y, is_obj i a y -> live F S X i y -> y = x).
Proof.
  intros Hok Ha HaX Hx Hxf. pose proof (ok_core _ _ _ _ _ Hok) as Hc.
  destruct (c_slab _ _ _ _ Hc i a Ha) as [Hi [_ _ [Hndf Hobj]]]. rewrite Forall_forall in Hobj.
  assert (NoDup (x :: F a)) as Hnd by by constructor.
  assert (x :: F a ⊆+ objs i a) as Hsub.
  { apply NoDup_submseteq; [done|]. intros z [->|Hz]%elem_of_cons; apply elem_of_objs; auto. }
  pose proof (length_objs i a Hi) as Hlen. split.
  - intros He y Hy (b & Hb & _ & Hyb & Hn). pose proof (obj_sep h L F S i a i b y Hc Ha Hb Hy Hyb) as [= <-].
    apply elem_of_objs in Hy. rewrite <-(submseteq_length_Permutation _ _ Hsub) in Hy by lia.
    by apply elem_of_cons in Hy as [|].
  - intros Hall. apply Z.le_antisymm; [rewrite <-Hlen; apply inj_le; by apply submseteq_length|].
    rewrite <-Hlen. apply inj_le, submseteq_length, NoDup_submseteq; [by apply objs_nodup|].
    intros y Hy%elem_of_objs. destruct (decide (y ∈ F a)) as [|Hn]; [by right|]. rewrite (Hall y Hy); [by left|]. by exists a.
Qed.

(** Freeing a block removes exactly it; the pages of its slab are given back
    when it was the last block in there. *)
Lemma blocks_free h A X i x :
  blocks h A X -> (i, x) ∈ A ->
  let last a := forall y, is_obj i a y -> (i, y) ∈ A -> y = x in
  blocks (cache_free h i x) (A ∖ {[(i, x)]}) X /\
  exists a, is_obj i a x /\ (last a -> hm (cache_free h i x) = give_back (hm h) i a) /\
    (~ last a -> hm (cache_free h i x) = hm h).
Proof.
  intros (L & F & S & Hok & HA & Hnd & HX) Hin. apply HA in Hin as (a & Ha & HaX & Hx & Hxf). cbv zeta.
  pose proof (ok_core _ _ _ _ _ Hok) as Hc. pose proof (fun j y => live_freed h L F S X i a x j y Hok Ha HaX Hx) as Hlive.
  assert (forall j b, (j, b) ∈ X -> (j, b) ∈ S /\ b <> a) as HXb.
  { intros j b Hb. destruct (HX j b Hb) as [HbS _]. split; [done|]. intros ->. apply HaX.
    by rewrite (slab_index h L F S i j a Hc Ha HbS). }
  assert (forall j y, (j, y) ∈ A ∖ {[(i, x)]} <-> live (updF F a (x :: F a)) S X j y) as HA'.
  { intros j y. rewrite elem_of_difference, elem_of_singleton, HA, Hlive. naive_solver. }
  assert ((forall y, is_obj i a y -> (i, y) ∈ A -> y = x) <-> Z.of_nat (length (x :: F a)) = ctotal i) as Hlast.
  { rewrite (emptied_iff h L F S X i a x Hok Ha HaX Hx Hxf). by setoid_rewrite HA. }
  pose proof (free_ok h L F S X i a x Hok Ha HaX Hx Hxf) as Hf. cbv zeta in Hf. case_bool_decide as Ee.
  - destruct Hf as (L' & S' & HS & Hok' & Hl & Hm). split; [|exists a; split_and!; tauto].
    exists L', (updF F a (x :: F a)), S'. split_and!; [done| |done|].
    + intros j y. rewrite HA', Hl. split; [|intros (b & Hb & HbX & Hy); exists b; apply not_elem_of_cons in HbX as [_ ?]; done].
      intros Hl'. destruct Hl' as (b & Hb & HbX & Hy & Hn). exists b. split_and!; try done. apply not_elem_of_cons. split; [|done].
      intros [= -> ->]. rewrite updF_eq in Hn. apply not_elem_of_cons in Hn as [Hne Hn]. apply Hne.
      apply (proj2 Hlast Ee); [done|]. apply HA. by exists a.
    + intros j b Hb. destruct (HX j b Hb) as [HbS Ho]. destruct (HXb j b Hb) as [_ Hne]. rewrite updF_ne by done. split; [|done].
      rewrite HS in HbS. apply elem_of_cons in HbS as [[= -> ->]|]; done.
  - destruct Hf as (L' & Hok' & Hm). split; [|exists a; split_and!; tauto].
    exists L', (updF F a (x :: F a)), S. split_and!; try done.
    intros j b Hb. destruct (HX j b Hb) as [HbS Ho]. destruct (HXb j b Hb) as [_ Hne]. by rewrite updF_ne.
Qed.

Lemma blocks_perm h A X X' : blocks h A X -> X ≡ₚ X' -> blocks h A X'.
Proof.
  intros (L & F & S & [G1 G2 G3 G4 G5 G6] & HA & Hnd & HX) Hp. exists L, F, S. split_and!.
  - split; try done; [intros i a; rewrite <-Hp; apply G3|intros i a u Hi; rewrite <-Hp; by apply G4].
  - intros i x. rewrite HA. split; intros (a & H1 & H2 & H3); exists a; (split; [done|]); (split; [|done]);
      [by rewrite <-Hp|by rewrite Hp].
  - by rewrite <-Hp.
  - intros i a. rewrite <-Hp. apply HX.
Qed.
End free.
