(* ===== verification/HeapThms.v ===== *)
(** Theorems of the kernel heap: no interleaving of CPUs hands a byte out
    twice, what [alloc] and [free] do, size classes, alignment, and the direct
    path. *)
From stdpp Require Import base tactics numbers list gmap sorting relations.
From Stdlib Require Import ZArith Lia.
From S2P Require Import Prelude Phys PhysInv PhysSpec PhysThms KMem Heap HeapInv HeapOps HeapAlloc HeapFree.

Local Open Scope Z_scope.
Local Open Scope word_scope.

(** ** The page allocator behind the heap *)

Definition flat_with (m : FlatMem) (s : PhysState) : FlatMem := mkFlat (fm_ptes m) s (fm_kpml4 m) (fm_cr3 m).

#[export] Instance FlatMem_heap : HeapMem FlatMem := {|
  order_alloc := fun m o => let '(r, s) := alloc_order (fm_phys m) o in (r, flat_with m s);
|}.

(** The heap's pages and the free pages are distinct pages of the direct map. *)
Definition flat_held (m : FlatMem) (C : list Z) : Prop :=
  exists P, phys_inv (fm_phys m) P /\ NoDup (C ++ P) /\ Forall (fun pn => pn < 2 ^ 35) (C ++ P).

Lemma flat_held_alloc (m : FlatMem) o C :
  (o <= MAX_ORDER)%nat -> flat_held m C ->
  match order_alloc m o with
  | (Some a, m') => flat_held m' (block_pages a o ++ C) /\ direct_block o a
  | (None, m') => flat_held m' C
  end.
Proof.
  intros Ho (P & Hinv & Hnd & Hb). simpl. pose proof (alloc_order_inv (fm_phys m) P o Hinv Ho) as Ha.
  destruct (alloc_order (fm_phys m) o) as [[a|] s'].
  - destruct Ha as (P' & Hinv' & HP & Hwf & _).
    assert (C ++ P ≡ₚ (block_pages a o ++ C) ++ P') as Hp by (rewrite HP; solve_Permutation).
    rewrite Hp in Hnd, Hb. split; [by exists P'|]. split; [done|].
    rewrite Forall_forall in Hb. pose proof (block_wf_page _ _ Hwf). pose proof (Z.pow_pos_nonneg 2 (Z.of_nat o)).
    assert ((a / PAGE_SIZE + 2 ^ Z.of_nat o - 1) < 2 ^ 35) as Hl.
    { apply Hb. apply elem_of_app. left. apply elem_of_app. left. apply elem_of_block_pages. lia. }
    rewrite block_size_eq. unfold PAGE_SIZE in *. div_lia.
  - destruct Ha as [-> _]. by exists P.
Qed.

Lemma flat_held_free (m : FlatMem) o a C :
  (o <= MAX_ORDER)%nat -> direct_block o a -> flat_held m (block_pages a o ++ C) ->
  flat_held (pages_free m a (2 ^ Z.of_nat o)) C.
Proof.
  intros Ho [Hwf Htop] (P & Hinv & Hnd & Hb). simpl. unfold free_pages_range.
  rewrite <-(assoc_L (++)) in Hnd, Hb. pose proof (NoDup_app (block_pages a o) (C ++ P)) as Hsplit.
  destruct (_ || _).
  { exists P. split; [done|]. split; [by apply Hsplit in Hnd as (_ & _ & ?)|by apply Forall_app in Hb as [_ ?]]. }
  pose proof (block_wf_page _ _ Hwf) as Hma. pose proof Hwf as (Ha & _ & Hend). rewrite block_size_eq in *.
  pose proof (Z.pow_pos_nonneg 2 (Z.of_nat o)).
  assert (range_pages a (a + 2 ^ Z.of_nat o * 4096) = block_pages a o) as Hr.
  { unfold range_pages, block_pages. f_equal. unfold PAGE_SIZE. replace (_ - a) with (2 ^ Z.of_nat o * 4096) by lia.
    by rewrite Z.div_mul. }
  assert (block_pages a o ++ C ++ P ≡ₚ C ++ block_pages a o ++ P) as Hp by solve_Permutation.
  rewrite Hp in Hnd, Hb.
  destruct (free_pages_chunked_inv (fm_phys m) P a (2 ^ Z.of_nat o)) as (Q & HQ & Hinv' & _); try done; try lia.
  { rewrite Hr. by apply NoDup_app in Hnd as (_ & _ & ?). }
  rewrite Hr in HQ. apply submseteq_Permutation in HQ as [R HR]. exists (Q ++ P). split; [done|].
  assert (C ++ block_pages a o ++ P ≡ₚ R ++ C ++ Q ++ P) as Hp2 by (rewrite HR; solve_Permutation).
  rewrite Hp2 in Hnd, Hb. split; [by apply NoDup_app in Hnd as (_ & _ & ?)|by apply Forall_app in Hb as [_ ?]].
Qed.

#[export] Program Instance FlatMem_heap_laws : HeapMemLaws FlatMem := {| held := flat_held |}.
Next Obligation. intros m C (P & _ & Hnd & _). by apply NoDup_app in Hnd as [? _]. Qed.
Next Obligation. intros m C C' Hp (P & Hinv & Hnd & Hb). exists P. by rewrite <-Hp. Qed.
Next Obligation.
  intros m D C (P & Hinv & Hnd & Hb). exists P. rewrite <-(assoc_L (++)) in Hnd, Hb.
  split_and!; [done|by apply NoDup_app in Hnd as (_ & _ & ?)|by apply Forall_app in Hb as [_ ?]].
Qed.
Next Obligation. intros. by apply flat_held_alloc. Qed.
Next Obligation. done. Qed.
Next Obligation. done. Qed.
Next Obligation. intros. by apply flat_held_free. Qed.

(** ** CPUs sharing the heap *)

Section steps.
Context {M : Type} `{!KernelMem M, !HeapMem M, !HeapMemLaws M}.
Implicit Types (h : Heap M) (A : gset (nat * Z)) (R : list (nat * Z * Z)).

(** The atomic steps of CPUs using the caches: the locked parts of [alloc] and
    [free], and the unlocked construction of a slab in between.  [A] is the set
    of blocks handed out, [R] the slabs under construction with the object
    already taken from each. *)
Inductive hstep : Heap M * gset (nat * Z) * list (nat * Z * Z) -> Heap M * gset (nat * Z) * list (nat * Z * Z) -> Prop :=
  | hs_fast h A R i x h' :
      (i < 9)%nat -> alloc_fast h i = Some (x, h') -> hstep (h, A, R) (h', {[(i, x)]} ∪ A, R)
  | hs_new h A R i a x h' :
      (i < 9)%nat -> new_slab h i = (Some (a, x), h') -> hstep (h, A, R) (h', A, (i, a, x) :: R)
  | hs_oom h A R i h' :
      (i < 9)%nat -> new_slab h i = (None, h') -> hstep (h, A, R) (h', A, R)
  | hs_install h A R1 R2 i a x y h' :
      install h i a x = (y, h') -> hstep (h, A, R1 ++ (i, a, x) :: R2) (h', {[(i, y)]} ∪ A, R1 ++ R2)
  | hs_free h A R i x :
      (i, x) ∈ A -> hstep (h, A, R) (cache_free h i x, A ∖ {[(i, x)]}, R).

Definition steps_inv (st : Heap M * gset (nat * Z) * list (nat * Z * Z)) : Prop :=
  let '(h, A, R) := st in blocks h A (fst <$> R) /\ Forall (fun '((_, a), x) => x = a + SLAB_HEADER) R.

Lemma hstep_inv st st' : hstep st st' -> steps_inv st -> steps_inv st'.
Proof.
  intros Hs. destruct Hs as [h A R i x h' Hi He|h A R i a x h' Hi He|h A R i h' Hi He|h A R1 R2 i a x y h' He|h A R i x Hin];
    intros [Hb HR]; unfold steps_inv.
  - split; [|done]. by destruct (blocks_fast h A _ i x h' Hb Hi He).
  - pose proof (blocks_new h A _ i Hb Hi) as Hn. rewrite He in Hn. destruct Hn as (-> & Hn & _). split; [done|by constructor].
  - pose proof (blocks_new h A _ i Hb Hi) as Hn. by rewrite He in Hn.
  - apply Forall_app in HR as [HR1 HR2]. apply Forall_cons in HR2 as [-> HR2].
    destruct (blocks_install h A _ i a Hb) as (y' & h'' & X' & He' & _ & _ & Hp & Hb'); [rewrite fmap_app; set_solver|].
    rewrite He in He'. injection He' as <- <-. split; [|by apply Forall_app].
    apply (blocks_perm _ _ _ _ Hb'). rewrite fmap_app in Hp. cbn [fst fmap list_fmap] in Hp.
    rewrite <-Permutation_middle in Hp. apply Permutation_cons_inv in Hp. by rewrite fmap_app.
  - split; [|done]. by destruct (blocks_free h A _ i x Hb Hin).
Qed.

(** Caches as [init] leaves them. *)
Lemma heap_init_blocks h : initialized h = false -> held (hm h) [] -> blocks (heap_init h) ∅ [].
Proof.
  intros Hi Hh. unfold heap_init. rewrite Hi. exists (fun _ _ => []), (fun _ => []), []. split_and!.
  - split; try done; [|set_solver..]. split; try done; [| |set_solver..].
    + split; [done|]. intros i Hi9. do 9 (destruct i as [|i]; [vm_compute; by split|]). lia.
    + intros i w Hi9. split; [|constructor]. do 9 (destruct i as [|i]; [by destruct w|]). lia.
  - intros i x. split; [set_solver|]. by intros (a & ?%elem_of_nil & _).
  - constructor.
  - by intros i a ?%elem_of_nil.
Qed.

Lemma blocks_range h A X i x : blocks h A X -> (i, x) ∈ A -> (i < 9)%nat /\ HIGHER_HALF < x /\ x + csize i <= 2 ^ 64.
Proof.
  intros (L & F & S & Hok & HA & _) (a & Ha & _ & Hx & _)%HA.
  destruct (c_slab _ _ _ _ (ok_core _ _ _ _ _ Hok) i a Ha) as [Hi [[Hhi [_ Htop]] _ _]]. split; [done|].
  destruct (obj_range i a x Hi Hx). unfold HIGHER_HALF, SLAB_HEADER in *. lia.
Qed.

(** C12: Heap safety under every interleaving.  From the heap [init] makes, whatever
    allocations and frees the CPUs perform, with slabs under construction and lost
    races in between, the blocks handed out lie in the direct map and never share a
    byte. *)
Theorem heap_interleaving_safe h0 h' A R :
  initialized h0 = false -> held (hm h0) [] -> rtc hstep (heap_init h0, ∅, []) (h', A, R) ->
  (forall i x, (i, x) ∈ A -> (i < 9)%nat /\ HIGHER_HALF < x /\ x + csize i <= 2 ^ 64) /\
  (forall i x j y, (i, x) ∈ A -> (j, y) ∈ A -> (i, x) <> (j, y) -> x + csize i <= y \/ y + csize j <= x).
Proof.
  intros Hi Hh Hsteps. assert (steps_inv (h', A, R)) as [Hb _].
  { assert (steps_inv (heap_init h0, ∅, [])) as Hinv by (split; [by apply heap_init_blocks|constructor]).
    revert Hinv. generalize dependent (heap_init h0, ∅ : gset (nat * Z), [] : list (nat * Z * Z)). intros st Hst Hinv.
    induction Hst as [|st1 st2 st3 H12 _ IH]; [done|]. apply IH. by eapply hstep_inv. }
  split; [intros i x; by eapply blocks_range|intros i x j y; by eapply blocks_sep].
Qed.

(** [KmemCache::alloc] returns an object that was not handed out, and adds exactly
    it to the blocks; it returns null, leaving the blocks as they were, only when the
    page allocator has no block of the slab order. *)
Theorem cache_alloc_correct h A X i :
  blocks h A X -> (i < 9)%nat ->
  let '(x, h') := cache_alloc h i in
  (x <> 0 /\ (forall j, (j, x) ∉ A) /\ blocks h' ({[(i, x)]} ∪ A) X) \/
  (x = 0 /\ blocks h' A X /\ fst (order_alloc (hm h) (corder i)) = None).
Proof.
  intros Hb Hi. unfold cache_alloc. destruct (alloc_fast h i) as [[x h']|] eqn:Ef.
  - destruct (blocks_fast h A X i x h' Hb Hi Ef) as [Hn Hb']. left. split; [|done].
    destruct (blocks_range h' _ X i x Hb') as (_ & Hx & _); [set_solver|]. unfold HIGHER_HALF in Hx. lia.
  - pose proof (blocks_new h A X i Hb Hi) as Hn. destruct (new_slab h i) as [[[a x]|] h1] eqn:En.
    + destruct Hn as (-> & Hb1 & Hx).
      destruct (blocks_install h1 A _ i a Hb1) as (y & h' & X' & -> & Hy & Hy0 & Hp & Hb'); [by left|].
      left. split_and!; try done. apply (blocks_perm _ _ _ _ Hb'). by apply Permutation_cons_inv in Hp.
    + right. split_and!; [done|done|]. unfold new_slab in En. destruct Hb as (L & F & S & Hok & _).
      destruct (c_geo _ _ _ _ (ok_core _ _ _ _ _ Hok)) as [_ Hgeo]. destruct (Hgeo i Hi) as [_ Ho]. rewrite Ho in En.
      destruct (order_alloc (hm h) (corder i)) as [[ph|] m]; [exfalso|done].
      destruct (slab_init _ _ _ _) as [sl h2]. by destruct (alloc_obj h2 sl).
Qed.

(** C13: [KmemCache::free] of a block removes exactly that block from those handed out;
    when no other block of its slab is out, the slab's pages are unmapped and
    returned to the page allocator, otherwise memory is left alone. *)
Theorem cache_free_correct h A X i x :
  blocks h A X -> (i, x) ∈ A ->
  let last a := forall y, is_obj i a y -> (i, y) ∈ A -> y = x in
  blocks (cache_free h i x) (A ∖ {[(i, x)]}) X /\
  exists a, is_obj i a x /\ (last a -> hm (cache_free h i x) = give_back (hm h) i a) /\
    (~ last a -> hm (cache_free h i x) = hm h).
Proof. apply blocks_free. Qed.

(** ** Alignment and the direct path *)

(** Every block a cache hands out lies at 8 modulo 16: the 40-byte slab header
    spoils the 16-byte alignment that [kmalloc_aligned] takes from the caches for
    requests with an alignment up to 16. *)
Theorem slab_blocks_misaligned h A X i x : blocks h A X -> (i, x) ∈ A -> x mod 16 = 8.
Proof.
  intros (L & F & S & Hok & HA & _) (a & Ha & _ & (k & Hk & ->) & _)%HA.
  destruct (c_slab _ _ _ _ (ok_core _ _ _ _ _ Hok) i a Ha) as [Hi [[_ [Hwf _]] _ _]]. pose proof (block_wf_page _ _ Hwf) as Hp.
  assert (csize i mod 16 = 0) as Hsz by (do 9 (destruct i as [|i]; [done|]); lia).
  apply Z.div_exact in Hsz; [|done]. rewrite Hsz. set (c := csize i / 16).
  replace (a + SLAB_HEADER + k * (16 * c)) with ((a - HIGHER_HALF) + 8 + (k * c + 0xFFFF80000000000 + 2) * 16)
    by (unfold HIGHER_HALF, SLAB_HEADER; lia).
  rewrite Z.mod_add by lia. revert Hp. unfold PAGE_SIZE. intros. div_lia.
Qed.

Lemma alloc_direct_eq h size p h' :
  alloc_direct h size = (p, h') -> p <> 0 ->
  let o := order_for 64 0 (pages_for size) in
  (o <= 10)%nat /\ exists ph m, order_alloc (hm h) o = (Some ph, m) /\ p = HIGHER_HALF +u64 ph /\
    h' = with_hm h (map_contiguous m (kernel_pml4 m) p ph (pages_for size)).
Proof.
  unfold alloc_direct. cbv zeta. set (o := order_for 64 0 (pages_for size)). destruct (Nat.ltb_spec 10 o); [by intros [= <- _] ?|].
  destruct (order_alloc (hm h) o) as [[ph|] m]; [|by intros [= <- _] ?]. intros [= <- <-] _. split; [lia|]. by exists ph, m.
Qed.

Lemma direct_base o ph : direct_block o ph -> HIGHER_HALF +u64 ph = HIGHER_HALF + ph /\ (HIGHER_HALF + ph) -u64 HIGHER_HALF = ph.
Proof.
  intros [(H1 & _ & _) H2]. rewrite block_size_eq in H2. pose proof (Z.pow_pos_nonneg 2 (Z.of_nat o)).
  split; [apply wrap_small; unfold HIGHER_HALF; lia|]. rewrite Z.add_simpl_l. apply wrap_small. lia.
Qed.

(** A large block is made of whole pages of its own, and [kfree] with the same
    size gives all of them back: both sides compute the same order. *)
Theorem direct_roundtrip h C size p h' :
  held (hm h) C -> 8192 < size -> kmalloc h size = (p, h') -> p <> 0 ->
  exists o, held (hm h') (block_pages (p - HIGHER_HALF) o ++ C) /\ held (hm (kfree h' p size)) C /\
    slabs (kfree h' p size) = slabs h /\ links (kfree h' p size) = links h /\ caches (kfree h' p size) = caches h.
Proof.
  intros Hh Hs He Hp. assert (cache_index size = None) as Hci.
  { unfold cache_index. repeat (rewrite (proj2 (Z.leb_gt _ _)) by lia). done. }
  unfold kmalloc, kmalloc_aligned in He. simpl in He. rewrite Hci in He.
  destruct (alloc_direct_eq h size p h' He Hp) as (Ho & ph & m & Ea & -> & ->). set (o := order_for 64 0 (pages_for size)) in *.
  pose proof (held_alloc (hm h) o C ltac:(unfold MAX_ORDER; lia) Hh) as Hal. rewrite Ea in Hal. destruct Hal as [Hal Hdb].
  destruct (direct_base o ph Hdb) as [-> Hback]. exists o. rewrite Z.add_simpl_l. split; [by apply held_map|].
  unfold kfree. rewrite Hci. fold o. destruct (Nat.ltb_spec 10 o); [lia|]. split_and!; try done.
  cbn [hm with_hm]. rewrite Hback, shiftl_pow. apply held_free; [unfold MAX_ORDER; lia|done|].
  by apply held_unmap_pages, held_map.
Qed.

(** An address outside every slab is ignored by [free]. *)
Lemma free_foreign h L F S X i x :
  heap_ok h L F S X -> (i < 9)%nat -> (forall a, (i, a) ∈ S -> ~ a <= x < a + block_size (corder i)) -> cache_free h i x = h.
Proof.
  intros Hok Hi Hno. pose proof (ok_core _ _ _ _ _ Hok) as Hc.
  assert (forall w, find_in (list_fuel h) h (list_head (cache_at h i) w) x = 0) as Hf.
  { intros w. destruct (c_list _ _ _ _ Hc i w Hi) as [Hd _].
    destruct (find_in_spec h x (list_fuel h) 0 _ _ Hd (list_fuel_ok h L F S i w Hc Hi)) as [[? _]|[Hin Hcon]]; [done|].
    pose proof (c_in _ _ _ _ Hc i w _ Hi Hin) as HbS. apply (slab_contains h L F S i _ x Hc HbS) in Hcon. by destruct (Hno _ HbS). }
  unfold cache_free, find_slab_ptr. pose proof (Hf WPartial) as H1. pose proof (Hf WFull) as H2. cbn [list_head] in H1, H2.
  by rewrite H1, H2.
Qed.

(** A block of at most 8192 bytes requested with an alignment above 16 is never
    freed: it is made of whole pages, but [kfree] looks only at the size, searches the
    slabs for it, and changes nothing. *)
Theorem aligned_block_never_freed h A X size align p h' :
  blocks h A X -> 16 < align -> size <= 8192 -> kmalloc_aligned h size align = (p, h') -> p <> 0 -> kfree h' p size = h'.
Proof.
  intros (L & F & S & Hok & _) Hal Hs He Hp. unfold kmalloc_aligned in He.
  destruct (Z.gtb_spec align 16); [|lia].
  destruct (alloc_direct_eq h size p h' He Hp) as (Ho & ph & m & Ea & -> & ->). set (o := order_for 64 0 (pages_for size)) in *.
  pose proof (ok_core _ _ _ _ _ Hok) as Hc.
  pose proof (held_alloc (hm h) o _ ltac:(unfold MAX_ORDER; lia) (c_held _ _ _ _ Hc)) as Hh. rewrite Ea in Hh. destruct Hh as [Hh Hdb].
  destruct (direct_base o ph Hdb) as [-> _].
  assert (exists i, cache_index size = Some i /\ (i < 9)%nat) as (i & Hci & Hi).
  { unfold cache_index. repeat (case_match; [eexists; split; [done|lia]|]). lia. }
  unfold kfree. rewrite Hci. apply (free_foreign _ L F S X); [|done|].
  - destruct Hok as [[G1 G2 G3 G4 G5 G6] ? ? ? ? ?]. split; try done. split; try done.
    + intros j b Hb. destruct (G5 j b Hb). split; [done|by apply slab_ok_hm].
    + by eapply held_map, held_forget.
  - intros a Ha Hr. apply held_nodup, NoDup_app in Hh as (_ & Hd & _). eapply (Hd (ph / PAGE_SIZE)); [apply block_pages_head|].
    apply list_elem_of_bind. exists (i, a). split; [|done].
    destruct (c_slab _ _ _ _ Hc i a Ha) as [_ [[_ Hab] _ _]]. pose proof (range_page i a (HIGHER_HALF + ph) Hab Hr) as Hr'.
    by rewrite Z.add_simpl_l in Hr'.
Qed.
End steps.

(** ** Orders *)

Lemma shl_usize_small o : (o < 64)%nat -> shl_usize o = 2 ^ Z.of_nat o.
Proof.
  intros Ho. unfold shl_usize. rewrite Z.mod_small, shiftl_pow by lia. apply wrap_small.
  split; [by apply Z.pow_nonneg|]. apply Z.pow_lt_mono_r; lia.
Qed.

Lemma pages_for_bound size : 0 <= pages_for size <= 2 ^ 52 - 1.
Proof.
  unfold pages_for, PAGE_SIZE. pose proof (wrap_bound 64 (size +u64 4096 - 1) ltac:(lia)). div_lia.
Qed.

Lemma pages_for_exact size : 0 <= size -> size + 4096 < 2 ^ 64 -> size <= pages_for size * 4096 < size + 4096.
Proof. intros H0 H. unfold pages_for, PAGE_SIZE. rewrite !wrap_small by (rewrite ?wrap_small; lia). div_lia. Qed.

Lemma order_for_spec fuel : forall o pages,
  pages <= 2 ^ 52 -> (o <= 52)%nat -> (52 <= o + fuel)%nat -> (forall k, (k < o)%nat -> 2 ^ Z.of_nat k < pages) ->
  let r := order_for fuel o pages in (r <= 52)%nat /\ pages <= 2 ^ Z.of_nat r /\ (forall k, (k < r)%nat -> 2 ^ Z.of_nat k < pages).
Proof.
  induction fuel as [|fuel IH]; intros o pages Hp Ho Hf Hk; cbn [order_for]; [by replace o with 52%nat in * by lia|].
  rewrite shl_usize_small by lia. destruct (Z.ltb_spec (2 ^ Z.of_nat o) pages) as [Hlt|Hge]; [|done].
  assert (o < 52)%nat. { destruct (decide (o = 52%nat)) as [->|]; [|lia]. change (Z.of_nat 52) with 52 in Hlt. lia. }
  apply IH; [done|lia|lia|]. intros k Hk'. destruct (decide (k = o)) as [->|]; [done|]. apply Hk. lia.
Qed.

(** C14: The order loop of [kmalloc_aligned] and [kfree] ends for every size: it stops after at most 52 iterations, before
    the shift overflows, at the least order whose block holds the pages of that size; more fuel changes nothing.  The
    number of pages is the size divided by 4096, rounded up, as long as the rounding does not overflow. *)
Theorem order_for_terminates size fuel :
  0 <= size < 2 ^ 64 -> (64 <= fuel)%nat ->
  let pages := pages_for size in let o := order_for 64 0 pages in
  order_for fuel 0 pages = o /\ (o <= 52)%nat /\ pages <= 2 ^ Z.of_nat o /\ (forall k, (k < o)%nat -> shl_usize k < pages) /\
  (size + 4096 < 2 ^ 64 -> size <= pages * 4096 < size + 4096).
Proof.
  intros Hs Hf. cbv zeta. pose proof (pages_for_bound size) as Hp.
  destruct (order_for_spec 64 0 (pages_for size)) as (H0 & H1 & H2); [lia|lia|lia|intros; lia|].
  destruct (order_for_spec fuel 0 (pages_for size)) as (H3 & H4 & H5); [lia|lia|lia|intros; lia|].
  split_and!; [|done|done| |intros; apply pages_for_exact; lia].
  - destruct (Nat.lt_total (order_for fuel 0 (pages_for size)) (order_for 64 0 (pages_for size))) as [Hl|[->|Hl]]; [|done|].
    + specialize (H2 _ Hl). lia.
    + specialize (H5 _ Hl). lia.
  - intros k Hk. rewrite shl_usize_small by lia. by apply H2.
Qed.

Lemma order_for_terminates_witness :
  order_for 70 0 (pages_for 20000) = 3%nat /\ order_for 70 0 (pages_for 20000) = order_for 64 0 (pages_for 20000).
Proof. split; [vm_compute; reflexivity|]. destruct (order_for_terminates 20000 70) as [H _]; [lia|lia|exact H]. Defined.

(** A size in the last page of the address space is rounded up to no page at all. *)
Theorem size_overflow_no_pages size : 2 ^ 64 - 4096 < size < 2 ^ 64 -> pages_for size = 0.
Proof.
  intros Hs. unfold pages_for, PAGE_SIZE. assert (wrap 64 (size + 4096) = size + 4096 - 2 ^ 64) as -> by (unfold wrap; div_lia). rewrite wrap_small by lia. div_lia.
Qed.

(** ** A concrete heap: the eight free pages of [demo]. *)

Definition demo_flat : FlatMem := mkFlat ∅ demo 0x1000 0x1000.
Definition demo_boot : Heap FlatMem := mkHeap demo_flat ∅ ∅ caches_boot false.
Definition demo_heap : Heap FlatMem := heap_init demo_boot.

Lemma demo_held : held (hm demo_boot) [].
Proof.
  exists (seqZ 16 8). split; [apply demo_inv|]. split; [apply (bool_decide_unpack (NoDup _)); vm_compute; exact I|].
  apply (bool_decide_unpack (Forall _ _)). vm_compute. exact I.
Qed.

Lemma demo_blocks : blocks demo_heap ∅ [].
Proof. apply heap_init_blocks; [done|apply demo_held]. Qed.

Lemma cache_alloc_correct_witness :
  fst (cache_alloc demo_heap 0) <> 0 /\ exists h', blocks h' ({[(0%nat, fst (cache_alloc demo_heap 0))]} ∪ ∅) [].
Proof.
  pose proof (cache_alloc_correct demo_heap ∅ [] 0 demo_blocks ltac:(lia)) as H.
  assert (fst (cache_alloc demo_heap 0) = 0xFFFF800000017028) as E by (vm_compute; reflexivity).
  destruct (cache_alloc demo_heap 0) as [x h']. simpl in E. subst x.
  destruct H as [(H0 & _ & Hb)|(H0 & _)]; [|discriminate H0]. split; [exact H0|by exists h'].
Defined.

(** One object of the 32-byte cache handed out. *)
Definition demo_x : Z := 0xFFFF800000017028.
Definition demo_slab : Heap FlatMem := snd (new_slab demo_heap 0).
Definition demo_one : Heap FlatMem := snd (install demo_slab 0 0xFFFF800000017000 demo_x).

Lemma demo_new : new_slab demo_heap 0 = (Some (0xFFFF800000017000, demo_x), demo_slab).
Proof. vm_compute. reflexivity. Qed.

Lemma demo_install : install demo_slab 0 0xFFFF800000017000 demo_x = (demo_x, demo_one).
Proof. vm_compute. reflexivity. Qed.

Definition demo_y : Z := 0xFFFF800000017048.
Definition demo_two : Heap FlatMem := default demo_one (snd <$> alloc_fast demo_one 0).

Lemma demo_fast : alloc_fast demo_one 0 = Some (demo_y, demo_two).
Proof. vm_compute. reflexivity. Qed.

Local Opaque demo_heap demo_slab demo_one demo_two.

Lemma demo_one_blocks : blocks demo_one {[(0%nat, demo_x)]} [].
Proof.
  pose proof (blocks_new demo_heap ∅ [] 0 demo_blocks ltac:(lia)) as Hn. rewrite demo_new in Hn. destruct Hn as (_ & Hb & _).
  destruct (blocks_install demo_slab ∅ _ 0 0xFFFF800000017000 Hb) as (y & h' & X' & He & _ & _ & Hp & Hb'); [by left|].
  change (0xFFFF800000017000 + SLAB_HEADER) with demo_x in He. rewrite demo_install in He.
  apply pair_equal_spec in He as [<- <-].
  apply Permutation_cons_inv in Hp. rewrite (union_empty_r_L {[(0%nat, demo_x)]}) in Hb'. by eapply blocks_perm.
Qed.

Lemma demo_live : (0%nat, demo_x) ∈ ({[(0%nat, demo_x)]} : gset (nat * Z)).
Proof. by apply elem_of_singleton. Qed.

Lemma heap_interleaving_safe_witness :
  alloc_fast demo_one 0 = Some (demo_y, demo_two) /\ (demo_x + 32 <= demo_y \/ demo_y + 32 <= demo_x).
Proof.
  split; [exact demo_fast|].
  apply (proj2 (heap_interleaving_safe demo_boot demo_two _ [] eq_refl demo_held
    (rtc_l _ _ _ _ (hs_new demo_heap ∅ [] 0 _ _ _ ltac:(lia) demo_new)
    (rtc_l _ _ _ _ (hs_install demo_slab ∅ [] [] 0 _ _ _ _ demo_install)
    (rtc_once _ _ (hs_fast demo_one _ [] 0 _ _ ltac:(lia) demo_fast))))) 0%nat demo_x 0%nat demo_y);
    rewrite ?elem_of_union, ?elem_of_singleton; [tauto|tauto|discriminate].
Defined.

Lemma cache_free_correct_witness : blocks (cache_free demo_one 0 demo_x) ({[(0%nat, demo_x)]} ∖ {[(0%nat, demo_x)]}) [].
Proof. exact (proj1 (cache_free_correct demo_one {[(0%nat, demo_x)]} [] 0 demo_x demo_one_blocks demo_live)). Defined.

Lemma slab_blocks_misaligned_witness : demo_x mod 16 = 8.
Proof. exact (slab_blocks_misaligned demo_one {[(0%nat, demo_x)]} [] 0 demo_x demo_one_blocks demo_live). Defined.

Lemma direct_roundtrip_witness :
  exists p h', kmalloc demo_heap 10000 = (p, h') /\ held (hm (kfree h' p 10000)) [].
Proof.
  destruct (kmalloc demo_heap 10000) as [p h'] eqn:E. exists p, h'. split; [done|].
  assert (p = 0xFFFF800000010000) as Hp by (change p with (fst (p, h')); rewrite <-E; vm_compute; reflexivity).
  destruct (direct_roundtrip demo_heap [] 10000 p h') as (o & _ & H & _); [apply demo_held|lia|exact E|by rewrite Hp|exact H].
Defined.

Lemma aligned_block_never_freed_witness :
  exists p h', kmalloc_aligned demo_heap 64 32 = (p, h') /\ p <> 0 /\ kfree h' p 64 = h'.
Proof.
  destruct (kmalloc_aligned demo_heap 64 32) as [p h'] eqn:E. exists p, h'.
  assert (p <> 0) as Hp by (change p with (fst (p, h')); rewrite <-E; vm_compute; discriminate).
  split_and!; [done|done|]. apply (aligned_block_never_freed demo_heap ∅ [] 64 32 p h' demo_blocks); [lia|lia|exact E|exact Hp].
Defined.
