(* ===== verification/Vma.v ===== *)
(** Memory areas and demand paging (src/kernel/src/mm/vma.rs): a radix tree of
    [Vma]s in memory, per-process address space, page faults and copy on
    write.

    Tree nodes and [Vma]s are words of physical memory.  A kernel pointer is
    an address of the identity map (nodes, taken straight from the page
    allocator) or of the direct map (boxes of the heap); following any other
    pointer is a fault, the failure of [VM].  [Box::new] and the drop of a box
    are calls into the heap ([Heap.heap_alloc], [Heap.heap_dealloc]): the
    operations take the address of a new box, and report those they drop. *)
From stdpp Require Import base tactics numbers list gmap.
From Stdlib Require Import ZArith Lia.
From S2P Require Import Prelude Phys KMem Percpu Virt.

Local Open Scope Z_scope.
Local Open Scope word_scope.
Local Open Scope vm_scope.

Definition PAGE_SHIFT : Z := 12.
Definition RADIX_BITS : Z := 10.
Definition RADIX_SIZE : Z := 1024.
Definition RADIX_MASK : Z := RADIX_SIZE - 1.
Definition RADIX_LEVELS : nat := 4.

Inductive VmaPerm := PNone | PRead | PWrite | PReadWrite | PExecute | PReadExecute | PWriteExecute | PReadWriteExecute.

(** [perm as u64]. *)
Definition perm_code (p : VmaPerm) : Z :=
  match p with
  | PNone => 0 | PRead => 1 | PWrite => 2 | PReadWrite => 3
  | PExecute => 4 | PReadExecute => 5 | PWriteExecute => 6 | PReadWriteExecute => 7
  end.

(** ** Pointers *)

(** The physical address behind a kernel pointer. *)
Definition deref (p : Z) : VM Z :=
  if p >=? HIGHER_HALF then vret (p - HIGHER_HALF)
  else if p <? 0x100000000 then vret p
  else vpanic.

(** A 64-bit load; an unaligned one takes bytes of two words. *)
Definition load (p : Z) : VM Z :=
  let* a := deref p in
  let r := a mod 8 in
  if r =? 0 then rd a
  else
    let* lo := rd (a - r) in
    let* hi := rd (a - r + 8) in
    vret (Z.lor (Z.shiftr lo (8 * r)) (wrap 64 (Z.shiftl hi (64 - 8 * r)))).

Definition store (p v : Z) : VM unit := let* a := deref p in wr a v.

(** Fields of the [Vma] at [p], in the order of [repr(C)]. *)
Definition vma_start (p : Z) : VM Z := load p.
Definition vma_end (p : Z) : VM Z := load (p + 8).
Definition vma_perm (p : Z) : VM Z := load (p + 16).

(** [*boxed = Vma { .. }]. *)
Definition write_vma (p start end_ : Z) (perm : VmaPerm) : VM unit :=
  store p start ;; store (p + 8) end_ ;; store (p + 16) (perm_code perm) ;; store (p + 24) 0.

(** ** Nodes *)

Definition entry_addr (node idx : Z) : Z := node + 8 * idx.
Definition node_indices : list Z := seqZ 0 RADIX_SIZE.

Definition zero_node (w : gmap Z Z) (a : Z) : gmap Z Z :=
  fold_left (fun w i => <[entry_addr a i := 0]> w) node_indices w.

(** [RadixNode::new_zeroed] *)
Definition new_node : VM Z :=
  let* page := vexpect (fun s => let '(r, p) := alloc_order (vphys s) 1 in Some (r, with_vphys s p)) in
  let* a := deref page in
  vmod (fun s => with_words s (zero_node (words s) a)) ;;
  vret page.

Definition free_node (node : Z) : VM unit := vmod (fun s => with_vphys s (free_order (vphys s) node 1)).

Definition radix_shift (level : Z) : Z := PAGE_SHIFT + level * RADIX_BITS.
Definition radix_index (addr level : Z) : Z := Z.land (Z.shiftr addr (radix_shift level)) RADIX_MASK.

(** ** The tree; [root] is the pointer of [VmaTree] *)

(** The child of [node] on the way to [start], made when missing. *)
Definition grow_child (node start level : Z) : VM Z :=
  let e := entry_addr node (radix_index start level) in
  let* child := load e in
  if child =? 0 then
    let* n := new_node in
    store e n ;; vret n
  else vret child.

Definition insert (root vma : Z) : VM Z :=
  let* root := if root =? 0 then new_node else vret root in
  let* start := vma_start vma in
  let* n2 := grow_child root start 3 in
  let* n1 := grow_child n2 start 2 in
  let* n0 := grow_child n1 start 1 in
  store (entry_addr n0 (radix_index start 0)) vma ;;
  vret root.

(** The walk of [lookup]: 0 is a missing child. *)
Definition lookup (root addr : Z) : VM Z :=
  if root =? 0 then vret 0
  else
    let* n2 := load (entry_addr root (radix_index addr 3)) in
    if n2 =? 0 then vret 0
    else
      let* n1 := load (entry_addr n2 (radix_index addr 2)) in
      if n1 =? 0 then vret 0
      else
        let* n0 := load (entry_addr n1 (radix_index addr 1)) in
        if n0 =? 0 then vret 0 else load (entry_addr n0 (radix_index addr 0)).

(** The first index whose body returns a value. *)
Fixpoint vfirst {R} (l : list Z) (f : Z -> VM (option R)) : VM (option R) :=
  match l with
  | [] => vret None
  | i :: l => let* r := f i in if r is Some x then vret (Some x) else vfirst l f
  end.

(** All entries are null: the scan stops at the first that is not. *)
Definition node_empty (node : Z) : VM bool :=
  let* r := vfirst node_indices (fun i =>
    let* e := load (entry_addr node i) in vret (if e =? 0 then None else Some tt)) in
  vret (if r is Some _ then false else true).

(** Freeing empty nodes upwards; [path] lists the ancestors and the indices
    taken in them, nearest first.  The result is the new root. *)
Fixpoint prune (root node : Z) (path : list (Z * Z)) : VM Z :=
  let* empty := node_empty node in
  if empty : bool then
    free_node node ;;
    match path with
    | (parent, pidx) :: path => store (entry_addr parent pidx) 0 ;; prune root parent path
    | [] => vret 0
    end
  else vret root.

(** [remove]: whether a VMA was there, the new root, the box dropped. *)
Definition remove (root start : Z) : VM (bool * Z * list Z) :=
  if root =? 0 then vret (false, root, [])
  else
    let i3 := radix_index start 3 in
    let* n2 := load (entry_addr root i3) in
    if n2 =? 0 then vret (false, root, [])
    else
      let i2 := radix_index start 2 in
      let* n1 := load (entry_addr n2 i2) in
      if n1 =? 0 then vret (false, root, [])
      else
        let i1 := radix_index start 1 in
        let* n0 := load (entry_addr n1 i1) in
        if n0 =? 0 then vret (false, root, [])
        else
          let slot := entry_addr n0 (radix_index start 0) in
          let* vma := load slot in
          store slot 0 ;;
          if vma =? 0 then vret (false, root, [])
          else
            let* root' := prune root n0 [(n1, i1); (n2, i2); (root, i3)] in
            vret (true, root', [vma]).

Fixpoint visit_node {R} (level : nat) (node : Z) (f : Z -> VM (option R)) : VM (option R) :=
  vfirst node_indices (fun i =>
    let* p := load (entry_addr node i) in
    if p =? 0 then vret None
    else match level with O => f p | S level => visit_node level p f end).

Definition visit_all {R} (root : Z) (f : Z -> VM (option R)) : VM (option R) :=
  if root =? 0 then vret None else visit_node 4 root f.

Definition find_covering (root addr : Z) : VM (option Z) :=
  if root =? 0 then vret None
  else visit_all root (fun vma =>
    let* s := vma_start vma in
    if addr >=? s then
      let* e := vma_end vma in
      vret (if addr <? e then Some vma else None)
    else vret None).

Definition has_overlap (root start end_ : Z) : VM bool :=
  let* r := visit_all root (fun vma =>
    let* s := vma_start vma in
    if s <? end_ then
      let* e := vma_end vma in
      vret (if e >? start then Some tt else None)
    else vret None) in
  vret (if r is Some _ then true else false).

(** Collecting what a loop's bodies report. *)
Fixpoint vcollect (l : list Z) (f : Z -> VM (list Z)) : VM (list Z) :=
  match l with
  | [] => vret []
  | i :: l => let* a := f i in let* b := vcollect l f in vret (a ++ b)
  end.

(** [free_tree]: the boxes dropped. *)
Fixpoint free_tree (level : nat) (node : Z) : VM (list Z) :=
  let* boxes := vcollect node_indices (fun i =>
    let* p := load (entry_addr node i) in
    if p =? 0 then vret []
    else match level with O => vret [p] | S level => free_tree level p end) in
  free_node node ;;
  vret boxes.

(** [Drop for VmaTree] *)
Definition drop_tree (root : Z) : VM (list Z) :=
  if root =? 0 then vret [] else free_tree RADIX_LEVELS root.

(** ** Process memory *)

Record ProcessMemory := mkProcess { vma_tree : Z; pml4_phys : Z; next_free_vaddr : Z }.

Definition process_new (pml4 : Z) : ProcessMemory := mkProcess 0 pml4 0x400000.

(** One try of the scan: [None] when it gives up. *)
Definition next_gap (size next : Z) : option (Z * Z) :=
  let alloc_size := (size +u64 0xFFF) / 0x1000 *u64 0x1000 in
  let addr := Z.land (next +u64 0xFFF) (not64 0xFFF) in
  match checked_add 64 addr alloc_size with
  | None => None
  | Some end_ => if end_ >=? HIGHER_HALF then None else Some (addr, end_)
  end.

Fixpoint scan_gaps (tries : nat) (p : ProcessMemory) (size : Z) : VM (option Z * ProcessMemory) :=
  match tries with
  | O => vret (None, p)
  | S tries =>
    match next_gap size (next_free_vaddr p) with
    | None => vret (None, p)
    | Some (addr, end_) =>
      let p1 := mkProcess (vma_tree p) (pml4_phys p) end_ in
      let* busy := has_overlap (vma_tree p) addr end_ in
      if busy : bool then scan_gaps tries p1 size else vret (Some addr, p1)
    end
  end.

Definition alloc_user_vaddr (p : ProcessMemory) (size : Z) : VM (option Z * ProcessMemory) := scan_gaps 1024 p size.

(** [add_vma]; [boxed] is the address of the new box. *)
Definition add_vma (p : ProcessMemory) (boxed start end_ : Z) (perm : VmaPerm) : VM ProcessMemory :=
  write_vma boxed start end_ perm ;;
  let* root := insert (vma_tree p) boxed in
  vret (mkProcess root (pml4_phys p) (next_free_vaddr p)).

(** ** Page faults; [cpu] is the caller's slot *)

(** Zeroing and copying a page through the direct or identity map. *)
Definition zero_page (phys : Z) : VM unit := new_zeroed phys.
Definition copy_page (old new : Z) : VM unit :=
  let* o := deref old in
  let* n := deref new in
  vfor indices (fun i => let* w := rd (slot_addr o i) in wr (slot_addr n i) w).

Definition vunref_page (pn : Z) : VM bool := fun s => let '(last, p) := unref_page (vphys s) pn in Some (last, with_vphys s p).

Definition resolve_cow (cpu : nat) (pml4 page_addr old_pte : Z) : VM bool :=
  let old_phys := Z.land old_pte PHYS_ADDR_MASK in
  let* r := alloc in
  match r with
  | None => vret false
  | Some new_phys =>
    copy_page old_phys new_phys ;;
    let new_pte := Z.lor (Z.lor new_phys (Z.land (Z.land old_pte 0xFFF) (not64 COW))) WRITABLE in
    let* _ := write_pte pml4 page_addr new_pte in
    flush_page_all cpu page_addr ;;
    let* last := vunref_page (old_phys / PAGE_SIZE) in
    (if last : bool then release old_phys else vret tt) ;;
    vret true
  end.

(** The flags a fault maps with: never USER, always WRITABLE. *)
Definition fault_flags (perm : Z) : Z :=
  let flags := Z.lor PRESENT WRITABLE in
  if Z.land perm (perm_code PExecute) =? 0 then Z.lor flags NO_EXECUTE else flags.

Definition page_of (a : Z) : Z := Z.land a (not64 0xFFF).

(** [ProcessMemory::handle_page_fault] *)
Definition process_fault (cpu : nat) (p : ProcessMemory) (fault_addr : Z) (write : bool) : VM bool :=
  let* pte := if write then read_pte (pml4_phys p) fault_addr else vret None in
  if (if pte is Some e then has e COW else false) then
    let page_addr := page_of fault_addr in
    let* old := read_pte (pml4_phys p) page_addr in
    match old with
    | None => vret false
    | Some old_pte => resolve_cow cpu (pml4_phys p) page_addr old_pte
    end
  else
    let* vma := find_covering (vma_tree p) fault_addr in
    match vma with
    | None => vret false
    | Some v =>
      let* perm := vma_perm v in
      if write && (Z.land perm (perm_code PWrite) =? 0) then vret false
      else
        let* r := alloc in
        match r with
        | None => vret false
        | Some phys_page =>
          zero_page phys_page ;;
          map_page_explicit cpu (pml4_phys p) (page_of fault_addr) phys_page (fault_flags perm) ;;
          invlpg (page_of fault_addr) ;;
          vret true
        end
    end.

(** The kernel tree. *)
Record KernelVma := mkKernelVma { KERNEL_VMA_TREE : Z; KERNEL_VMA_INITIALIZED : bool }.

Definition init_kernel_vmas (k : KernelVma) (boxed : Z) : VM KernelVma :=
  if KERNEL_VMA_INITIALIZED k then vret k
  else
    let heap_virt_base := 0xFFFF808000000000 in
    let heap_size := 64 * 1024 * 1024 in
    write_vma boxed heap_virt_base (heap_virt_base + heap_size) PReadWrite ;;
    let* root := insert (KERNEL_VMA_TREE k) boxed in
    vret (mkKernelVma root true).

(** [handle_page_fault]; [pm] is the process memory of the running vCPU, if it
    has one. *)
Definition handle_page_fault (cpu : nat) (k : KernelVma) (pm : option ProcessMemory) (fault_addr error_code : Z) : VM bool :=
  let is_write := has error_code 2 in
  let is_user := has error_code 4 in
  let is_present := has error_code 1 in
  let* root := vget (fun s => Z.land (cr3 s) (not64 0xFFF)) in
  if is_present && is_write then
    let* pte := read_pte root fault_addr in
    if (if pte is Some e then has e COW else false)
    then resolve_cow cpu root (page_of fault_addr) (default 0 pte)
    else vret false
  else if is_present then vret false
  else if is_user then
    match pm with
    | Some p => process_fault cpu p fault_addr is_write
    | None => vret false
    end
  else
    let* vma := find_covering (KERNEL_VMA_TREE k) fault_addr in
    match vma with
    | None => vret false
    | Some v =>
      let* perm := vma_perm v in
      let* r := alloc in
      match r with
      | None => vret false
      | Some phys_page =>
        zero_page phys_page ;;
        map_page_explicit cpu root (page_of fault_addr) phys_page (fault_flags perm) ;;
        vret true
      end
    end.
