(* ===== verification/VmaTree.v ===== *)
(** The radix tree of [Vma] as a finite map: shape invariant, insertion and
    lookup.

    [rtree w root T] relates the memory words [w] to a finite map [T] from
    index paths (most significant index first) to node addresses. *)
From stdpp Require Import base tactics numbers list gmap.
From Stdlib Require Import ZArith Lia.
From S2P Require Import Prelude Phys PhysInv PhysSpec KMem Percpu Virt VirtTree VirtThms Vma.

Local Open Scope Z_scope.
Local Open Scope vm_scope.
Local Opaque zero_node.

(** A node: two pages of the identity map. *)
Definition node_ok (n : Z) : Prop := n mod 8192 = 0 /\ 0 < n /\ n + 8192 <= 0x100000000.

Definition nentry (w : gmap Z Z) (n i : Z) : Z := default 0 (w !! entry_addr n i).

Lemma entry_addr_inj n n' i i' :
  node_ok n -> node_ok n' -> 0 <= i < 1024 -> 0 <= i' < 1024 -> entry_addr n i = entry_addr n' i' -> n = n' /\ i = i'.
Proof. unfold node_ok, entry_addr. intros. div_lia. Qed.

Lemma nentry_insert w n i e n' i' :
  node_ok n -> node_ok n' -> 0 <= i < 1024 -> 0 <= i' < 1024 ->
  nentry (<[entry_addr n i := e]> w) n' i' = if decide (n = n' /\ i = i') then e else nentry w n' i'.
Proof.
  intros Hn Hn' Hi Hi'. unfold nentry. case_decide as Hd.
  - destruct Hd as [<- <-]. by rewrite lookup_insert_eq.
  - rewrite lookup_insert_ne; [done|]. intros He. apply Hd. by apply entry_addr_inj.
Qed.

Lemma zero_node_in w n i : 0 <= i < 1024 -> zero_node w n !! entry_addr n i = Some 0.
Proof.
  Local Transparent zero_node. intros Hi. unfold zero_node. Local Opaque zero_node.
  apply (writes_at (entry_addr n) (fun _ => 0)); [apply NoDup_seqZ|unfold entry_addr; lia|].
  apply elem_of_seqZ. unfold RADIX_SIZE. lia.
Qed.

Lemma zero_node_out w n a : (forall i, 0 <= i < 1024 -> entry_addr n i <> a) -> zero_node w n !! a = w !! a.
Proof.
  Local Transparent zero_node. intros Ha. unfold zero_node. Local Opaque zero_node.
  apply (writes_other (entry_addr n) (fun _ => 0)). intros i Hi%elem_of_seqZ. apply Ha. unfold RADIX_SIZE in Hi. lia.
Qed.

Lemma nentry_zero w n n' i :
  node_ok n -> node_ok n' -> 0 <= i < 1024 -> nentry (zero_node w n) n' i = if decide (n = n') then 0 else nentry w n' i.
Proof.
  intros Hn Hn' Hi. unfold nentry. case_decide as Hd; [subst n'; by rewrite zero_node_in|].
  rewrite zero_node_out; [done|]. intros j Hj He. by destruct (entry_addr_inj n n' j i Hn Hn' Hj Hi He).
Qed.

Lemma node_page n i : node_ok n -> 0 <= i < 1024 -> entry_addr n i / PAGE_SIZE ∈ block_pages n 1.
Proof. intros (H1 & H2 & _) Hi. apply elem_of_block_pages. unfold entry_addr, PAGE_SIZE. change (2 ^ Z.of_nat 1) with 2. div_lia. Qed.

Lemma block_pages_node n n' pn : node_ok n -> node_ok n' -> pn ∈ block_pages n 1 -> pn ∈ block_pages n' 1 -> n = n'.
Proof.
  intros (H1 & H2 & _) (H3 & H4 & _). rewrite !elem_of_block_pages. unfold PAGE_SIZE. change (2 ^ Z.of_nat 1) with 2. intros. div_lia.
Qed.

(** ** Loads and stores of entries *)

Lemma entry_deref n i s : node_ok n -> 0 <= i < 1024 -> deref (entry_addr n i) s = Some (entry_addr n i, s).
Proof.
  intros (_ & Hn & Hb) Hi. unfold deref, entry_addr. destruct (Z.geb_spec (n + 8 * i) HIGHER_HALF) as [H|H]; [unfold HIGHER_HALF in H; lia|].
  destruct (Z.ltb_spec (n + 8 * i) 0x100000000); [done|lia].
Qed.

Lemma load_entry n i s : node_ok n -> 0 <= i < 1024 -> load (entry_addr n i) s = Some (nentry (words s) n i, s).
Proof.
  intros Hn Hi. unfold load. rewrite (vbind_some _ _ _ _ _ (entry_deref n i s Hn Hi)).
  assert (entry_addr n i mod 8 = 0) as -> by (destruct Hn as (? & _); unfold entry_addr; div_lia). done.
Qed.

Lemma store_entry n i v s :
  node_ok n -> 0 <= i < 1024 -> store (entry_addr n i) v s = Some (tt, with_words s (<[entry_addr n i := v]> (words s))).
Proof. intros Hn Hi. unfold store. by rewrite (vbind_some _ _ _ _ _ (entry_deref n i s Hn Hi)). Qed.

Lemma radix_bound a k : 0 <= radix_index a k < 1024.
Proof.
  unfold radix_index. change RADIX_MASK with (Z.ones 10). rewrite Z.land_ones by lia. apply Z.mod_pos_bound. lia.
Qed.

(** ** The tree *)

Record rtree (w : gmap Z Z) (root : Z) (T : gmap (list Z) Z) : Prop := {
  r_root : T !! [] = Some root;
  r_node : forall p n, T !! p = Some n -> node_ok n;
  r_len : forall p n, T !! p = Some n -> (length p <= 3)%nat;
  r_inj : forall p q n, T !! p = Some n -> T !! q = Some n -> p = q;
  r_closed : forall p i c, T !! (p ++ [i]) = Some c -> 0 <= i < 1024 /\ exists n, T !! p = Some n;
  r_child : forall p n i, T !! p = Some n -> (length p < 3)%nat -> 0 <= i < 1024 ->
    nentry w n i = default 0 (T !! (p ++ [i]));
}.

(** The tree beside the free pages of the allocator. *)
Record rinv (s : Virt) (P : list Z) (root : Z) (T : gmap (list Z) Z) : Prop := {
  ri_tree : rtree (words s) root T;
  ri_phys : phys_inv (vphys s) P;
  ri_taken : forall p n pn, T !! p = Some n -> pn ∈ block_pages n 1 -> pn ∉ P;
  ri_small : forall pn, pn ∈ P -> pn < 2 ^ 20;
}.

(** Pages the tree may use. *)
Definition used (T : gmap (list Z) Z) (P : list Z) (pn : Z) : Prop :=
  pn ∈ P \/ exists p n, T !! p = Some n /\ pn ∈ block_pages n 1.

(** What extending a tree keeps: nodes, leaf entries and foreign memory. *)
Record rgrow (s : Virt) (P : list Z) (T : gmap (list Z) Z) (s' : Virt) (P' : list Z) (T' : gmap (list Z) Z) : Prop := {
  rg_sub : forall p n, T !! p = Some n -> T' !! p = Some n;
  rg_leaf : forall q n j, length q = 3%nat -> T' !! q = Some n -> 0 <= j < 1024 ->
    nentry (words s') n j = if T !! q is Some _ then nentry (words s) n j else 0;
  rg_frame : forall a, ~ used T P (a / PAGE_SIZE) -> words s' !! a = words s !! a;
  rg_used : forall pn, used T' P' pn -> used T P pn;
  rg_free : P' ⊆+ P;
}.

Lemma rgrow_refl s P T : rgrow s P T s P T.
Proof. split; try done. intros q n j _ -> _. done. Qed.

Lemma rgrow_trans s1 P1 T1 s2 P2 T2 s3 P3 T3 : rgrow s1 P1 T1 s2 P2 T2 -> rgrow s2 P2 T2 s3 P3 T3 -> rgrow s1 P1 T1 s3 P3 T3.
Proof.
  intros [A1 A2 A3 A4 A5] [B1 B2 B3 B4 B5]. split; [eauto| | |eauto|by etrans].
  - intros q n j Hl Hq Hj. rewrite (B2 q n j) by done. destruct (T2 !! q) as [n2|] eqn:E2.
    + assert (n2 = n) as -> by (apply B1 in E2; congruence). by apply A2.
    + destruct (T1 !! q) as [n1|] eqn:E1; [apply A1 in E1; congruence|done].
  - intros a Ha. rewrite B3 by naive_solver. by apply A3.
Qed.

(** [n] blocks of two pages can be allocated one after the other. *)
Fixpoint can_take (n : nat) (p : PhysState) : bool :=
  match n with
  | O => true
  | S n => match alloc_order p 1 with (Some _, p') => can_take n p' | (None, _) => false end
  end.

(** A node is missing at path [q]. *)
Definition need (T : gmap (list Z) Z) (q : list Z) : nat := if T !! q is Some _ then 0 else 1.

Lemma new_node_ok s P :
  phys_inv (vphys s) P -> (forall pn, pn ∈ P -> pn < 2 ^ 20) ->
  match new_node s with
  | Some (c, s') => exists p' P', s' = with_words (with_vphys s p') (zero_node (words s) c) /\
      phys_inv p' P' /\ P ≡ₚ block_pages c 1 ++ P' /\ node_ok c /\ (forall n, can_take (S n) (vphys s) = can_take n p')
  | None => forall n, can_take (S n) (vphys s) = false
  end.
Proof.
  intros Hinv Hsm. unfold new_node, vexpect, vbind. pose proof (alloc_order_inv (vphys s) P 1 Hinv ltac:(unfold MAX_ORDER; lia)) as Ha.
  destruct (alloc_order (vphys s) 1) as [[c|] p'] eqn:Ea.
  - destruct Ha as (P' & Hinv' & HP & (Hc & Hal & _) & _).
    assert (node_ok c) as Hok.
    { change (block_size 1) with 8192 in Hal. split_and!; [done|done|].
      assert (c / PAGE_SIZE + 1 < 2 ^ 20) as Hl; [|unfold PAGE_SIZE in Hl; div_lia].
      apply Hsm. rewrite HP. apply elem_of_app. left. apply elem_of_block_pages. change (2 ^ Z.of_nat 1) with 2. lia. }
    assert (forall s0, deref c s0 = Some (c, s0)) as Hd.
    { intros s0. pose proof (entry_deref c 0 s0 Hok ltac:(lia)) as H. unfold entry_addr in H. by rewrite Z.mul_0_r, Z.add_0_r in H. }
    unfold vret, vmod. rewrite Hd. exists p', P'. split_and!; try done. intros n. simpl. by rewrite Ea.
  - intros n. simpl. by rewrite Ea.
Qed.

(** Hanging a zeroed node below an empty slot. *)
Lemma rtree_extend w root T p n i c :
  rtree w root T -> T !! p = Some n -> (length p < 3)%nat -> 0 <= i < 1024 -> nentry w n i = 0 ->
  node_ok c -> (forall q, T !! q <> Some c) ->
  rtree (<[entry_addr n i := c]> (zero_node w c)) root (<[p ++ [i] := c]> T).
Proof.
  intros HT Hp Hlen Hi Hz Hc Hfresh. pose proof HT as [H1 H2 H3 H4 H5 H6].
  assert (T !! (p ++ [i]) = None) as Hnone.
  { destruct (T !! (p ++ [i])) as [d|] eqn:E; [|done]. rewrite (H6 p n i), E in Hz by done. simpl in Hz. subst d.
    destruct (H2 _ _ E) as (_ & ? & _). lia. }
  assert (n <> c) as Hnc by (intros <-; by eapply Hfresh).
  split.
  - rewrite lookup_insert_ne; [done|]. by destruct p.
  - intros q n' [[<- <-]|[_ Hq]]%lookup_insert_Some; eauto.
  - intros q n' [[<- _]|[_ Hq]]%lookup_insert_Some; [rewrite length_app; simpl; lia|eauto].
  - intros q q' n' [[<- <-]|[Hq Hq2]]%lookup_insert_Some [[<- ?]|[Hq' Hq2']]%lookup_insert_Some; [done| | |eauto].
    + by destruct (Hfresh q').
    + destruct (Hfresh q). congruence.
  - intros q j c' [[Heq <-]|[_ Hq]]%lookup_insert_Some.
    + apply app_inj_tail in Heq as [<- <-]. split; [done|]. exists n. rewrite lookup_insert_ne; [done|].
      intros Heq. apply (f_equal length) in Heq. rewrite length_app in Heq. simpl in Heq. lia.
    + destruct (H5 q j c' Hq) as [Hj [n' Hn']]. split; [done|]. destruct (decide (q = p ++ [i])) as [->|Hne]; [congruence|].
      exists n'. by rewrite lookup_insert_ne.
  - intros q n' j [[<- <-]|[Hq Hq2]]%lookup_insert_Some Hql Hj.
    + rewrite nentry_insert by eauto. rewrite decide_False by tauto. rewrite nentry_zero by done.
      rewrite decide_True by done. rewrite lookup_insert_ne by (intros Heq; apply (f_equal length) in Heq; rewrite !length_app in Heq; simpl in Heq; lia).
      destruct (T !! ((p ++ [i]) ++ [j])) eqn:E; [|done]. apply H5 in E as (_ & n' & Hn'). congruence.
    + assert (n' <> c) as Hnc' by (intros ->; by eapply Hfresh).
      rewrite nentry_insert by eauto. case_decide as Hd.
      * destruct Hd as [<- <-]. assert (q = p) as -> by eauto. by rewrite lookup_insert_eq.
      * rewrite nentry_zero by eauto. rewrite decide_False by done. rewrite lookup_insert_ne; [by apply H6|].
        intros Heq. apply app_inj_tail in Heq as [<- <-]. rewrite Hp in Hq2. apply Hd. split; congruence.
Qed.

Lemma rgrow_extend s P root T p n i c p' P' :
  rinv s P root T -> T !! p = Some n -> (length p < 3)%nat -> 0 <= i < 1024 -> nentry (words s) n i = 0 ->
  node_ok c -> phys_inv p' P' -> P ≡ₚ block_pages c 1 ++ P' ->
  let s' := with_words (with_vphys s p') (<[entry_addr n i := c]> (zero_node (words s) c)) in
  rinv s' P' root (<[p ++ [i] := c]> T) /\ rgrow s P T s' P' (<[p ++ [i] := c]> T).
Proof.
  intros [HT Hph Htk Hsm] Hp Hlen Hi Hz Hc Hph' HP. cbv zeta.
  assert (forall q, T !! q <> Some c) as Hfresh.
  { intros q Hq. apply (Htk q c (c / PAGE_SIZE) Hq); [apply block_pages_head|]. rewrite HP. apply elem_of_app. left. apply block_pages_head. }
  pose proof (r_node _ _ _ HT _ _ Hp) as Hn.
  assert (T !! (p ++ [i]) = None) as Hnone.
  { destruct (T !! (p ++ [i])) as [d|] eqn:E; [|done]. rewrite (r_child _ _ _ HT p n i), E in Hz by done. simpl in Hz. subst d.
    destruct (r_node _ _ _ HT _ _ E) as (_ & ? & _). lia. }
  pose proof (phys_inv_nodup _ _ Hph) as Hnd. rewrite HP in Hnd. apply NoDup_app in Hnd as (_ & Hdis & _). split; split.
  - by apply rtree_extend.
  - done.
  - intros q m pn [[<- <-]|[_ Hq]]%lookup_insert_Some Hpn; [by apply Hdis|].
    intros Hin. apply (Htk q m pn Hq Hpn). rewrite HP. apply elem_of_app. by right.
  - intros pn Hpn. apply Hsm. rewrite HP. apply elem_of_app. by right.
  - intros q m Hq. rewrite lookup_insert_ne; [done|]. congruence.
  - intros q m j Hq3 Hq Hj. cbn [words with_words]. assert (node_ok m) as Hm.
    { apply lookup_insert_Some in Hq as [[_ <-]|[_ Hq]]; [done|by eapply r_node]. }
    rewrite nentry_insert by done. apply lookup_insert_Some in Hq as [[<- <-]|[Hne Hq]].
    + rewrite Hnone. rewrite decide_False by (intros [-> _]; by eapply Hfresh). rewrite nentry_zero by done. by rewrite decide_True.
    + rewrite Hq. rewrite decide_False; [rewrite nentry_zero by done; rewrite decide_False; [done|]; intros ->; by eapply Hfresh|].
      intros [<- _]. assert (p = q) as -> by by eapply r_inj. lia.
  - intros a Ha. cbn [words with_words]. rewrite lookup_insert_ne, zero_node_out; [done| |].
    + intros j Hj <-. apply Ha. left. rewrite HP. apply elem_of_app. left. by apply node_page.
    + intros <-. apply Ha. right. exists p, n. split; [done|by apply node_page].
  - intros pn [Hpn|(q & m & Hq & Hpn)]; [left; rewrite HP; apply elem_of_app; by right|].
    apply lookup_insert_Some in Hq as [[_ <-]|[_ Hq]]; [left; rewrite HP; apply elem_of_app; by left|right; by exists q, m].
  - rewrite HP. by apply submseteq_inserts_l.
Qed.

(** One level of [insert]. *)
Lemma grow_child_ok s P root T p n start lvl :
  rinv s P root T -> T !! p = Some n -> (length p < 3)%nat ->
  let q := p ++ [radix_index start lvl] in
  match grow_child n start lvl s with
  | Some (c, s') => exists P' T', rinv s' P' root T' /\ T' !! q = Some c /\ rgrow s P T s' P' T' /\
      (forall q', q' <> q -> T' !! q' = T !! q') /\ (forall k, can_take (need T q + k) (vphys s) = can_take k (vphys s'))
  | None => forall k, can_take (need T q + k) (vphys s) = false
  end.
Proof.
  intros Hv Hp Hlen. cbv zeta. pose proof Hv as [HT Hph Htk Hsm]. pose proof (r_node _ _ _ HT _ _ Hp) as Hn.
  set (i := radix_index start lvl). pose proof (radix_bound start lvl) as Hi. fold i in Hi.
  unfold grow_child. fold i. rewrite (vbind_some _ _ _ _ _ (load_entry n i s Hn Hi)).
  pose proof (r_child _ _ _ HT p n i Hp Hlen Hi) as Hch. unfold need.
  destruct (Z.eqb_spec (nentry (words s) n i) 0) as [Hz|Hz].
  - assert (T !! (p ++ [i]) = None) as Hnone.
    { rewrite Hch in Hz. destruct (T !! (p ++ [i])) as [d|] eqn:E; [|done]. simpl in Hz. subst d. destruct (r_node _ _ _ HT _ _ E) as (_ & ? & _). lia. }
    rewrite Hnone. pose proof (new_node_ok s P Hph Hsm) as Hnew. unfold vbind at 1. destruct (new_node s) as [[c s1]|]; [|exact Hnew].
    destruct Hnew as (p' & P' & -> & Hph' & HP & Hc & Hct).
    unfold vbind. rewrite store_entry by done. unfold vret. exists P', (<[p ++ [i] := c]> T).
    destruct (rgrow_extend s P root T p n i c p' P' Hv Hp Hlen Hi Hz Hc Hph' HP) as [Hv' Hg].
    split; [done|]. split; [apply lookup_insert_eq|]. split; [done|]. split; [intros q' Hq'; by rewrite lookup_insert_ne|exact Hct].
  - exists P, T. split; [done|]. rewrite Hch in Hz |- *. destruct (T !! (p ++ [i])); [|done].
    split; [done|]. split; [apply rgrow_refl|]. done.
Qed.
