(* ===== verification/VmaThms.v ===== *)
(** Theorems of the memory areas: the radix tree is a map from pages to
    areas, and what the walks over all areas, copy on write and demand paging
    do. *)
From stdpp Require Import base tactics numbers list gmap.
From Stdlib Require Import ZArith Lia.
From S2P Require Import Prelude Phys PhysInv PhysSpec PhysThms KMem Percpu Virt VirtTree VirtThms Vma VmaTree.

Local Open Scope Z_scope.
Local Open Scope vm_scope.
Local Opaque zero_node.

(** ** Keys *)

(** The page number the tree distinguishes: bits 12 to 51. *)
Definition key (a : Z) : Z := (a / 4096) mod 2 ^ 40.
Definition kpath (a : Z) : list Z := [radix_index a 3; radix_index a 2; radix_index a 1].

Lemma radix_index_eq a k : 0 <= k -> radix_index a k = (a / 4096 / 2 ^ (10 * k)) mod 1024.
Proof.
  intros Hk. unfold radix_index, radix_shift, PAGE_SHIFT, RADIX_BITS. change RADIX_MASK with (Z.ones 10).
  rewrite Z.land_ones, Z.shiftr_div_pow2, Z.div_div by lia. do 2 f_equal.
  change 4096 with (2 ^ 12). rewrite <-Z.pow_add_r by lia. f_equal. lia.
Qed.

Lemma key_indices a :
  key a = radix_index a 0 + 1024 * radix_index a 1 + 1024 ^ 2 * radix_index a 2 + 1024 ^ 3 * radix_index a 3.
Proof.
  unfold key. rewrite !radix_index_eq by lia. generalize (a / 4096). intros x.
  change (2 ^ (10 * 0)) with 1. change (2 ^ (10 * 1)) with 1024. change (2 ^ (10 * 2)) with (1024 * 1024).
  change (2 ^ (10 * 3)) with (1024 * 1024 * 1024). change (2 ^ 40) with (1024 * 1024 * 1024 * 1024).
  change (1024 ^ 2) with (1024 * 1024). change (1024 ^ 3) with (1024 * 1024 * 1024).
  rewrite <-!Z.div_div by lia. div_lia.
Qed.

Lemma same_key a b : kpath a = kpath b -> radix_index a 0 = radix_index b 0 -> key a = key b.
Proof. intros [= H3 H2 H1] H0. by rewrite !key_indices, H0, H1, H2, H3. Qed.

(** ** Lookup *)

(** The leaf entry for an address. *)
Definition leafv (w : gmap Z Z) (T : gmap (list Z) Z) (a : Z) : Z :=
  if T !! kpath a is Some n then nentry w n (radix_index a 0) else 0.

Lemma lookup_step s root T p n i :
  rtree (words s) root T -> T !! p = Some n -> (length p < 3)%nat -> 0 <= i < 1024 ->
  load (entry_addr n i) s = Some (default 0 (T !! (p ++ [i])), s).
Proof. intros HT Hp Hl Hi. rewrite load_entry by (done || by eapply r_node). by rewrite (r_child _ _ _ HT p). Qed.

Lemma node_nonzero w root T p n : rtree w root T -> T !! p = Some n -> (n =? 0) = false.
Proof. intros HT Hp. destruct (r_node _ _ _ HT _ _ Hp) as (_ & ? & _). apply Z.eqb_neq. lia. Qed.

Lemma closed_none w root T p q : rtree w root T -> T !! p = None -> T !! (p ++ q) = None.
Proof.
  intros HT Hp. induction q as [|i q IH] using rev_ind; [by rewrite app_nil_r|]. rewrite app_assoc.
  destruct (T !! ((p ++ q) ++ [i])) eqn:E; [|done]. apply (r_closed _ _ _ HT) in E as (_ & n & Hn). congruence.
Qed.

Lemma lookup_ok s root T a : rtree (words s) root T -> lookup root a s = Some (leafv (words s) T a, s).
Proof.
  intros HT. pose proof (r_root _ _ _ HT) as Hr. unfold lookup, leafv, kpath.
  assert ((length ([] : list Z) < 3)%nat /\ (forall i : Z, length [i] < 3)%nat /\ (forall i j : Z, length [i; j] < 3)%nat) as (L0 & L1 & L2)
    by (split_and!; intros; simpl; lia).
  rewrite (node_nonzero _ _ _ _ _ HT Hr).
  rewrite (vbind_some _ _ _ _ _ (lookup_step s root T [] root _ HT Hr L0 (radix_bound a 3))). cbn [app].
  destruct (T !! [radix_index a 3]) as [n2|] eqn:E2; cbn [from_option id].
  2: { pose proof (closed_none _ _ _ _ [radix_index a 2; radix_index a 1] HT E2) as H. simpl in H. by rewrite H. }
  rewrite (node_nonzero _ _ _ _ _ HT E2).
  rewrite (vbind_some _ _ _ _ _ (lookup_step s root T [_] n2 _ HT E2 (L1 _) (radix_bound a 2))). cbn [app].
  destruct (T !! [radix_index a 3; radix_index a 2]) as [n1|] eqn:E1; cbn [from_option id].
  2: { pose proof (closed_none _ _ _ _ [radix_index a 1] HT E1) as H. simpl in H. by rewrite H. }
  rewrite (node_nonzero _ _ _ _ _ HT E1).
  rewrite (vbind_some _ _ _ _ _ (lookup_step s root T [_; _] n1 _ HT E1 (L2 _ _) (radix_bound a 1))). cbn [app].
  destruct (T !! [radix_index a 3; radix_index a 2; radix_index a 1]) as [n0|] eqn:E0; cbn [from_option id]; [|done].
  rewrite (node_nonzero _ _ _ _ _ HT E0). apply load_entry; [by eapply r_node|apply radix_bound].
Qed.

(** ** Insertion *)

(** An empty tree, or one in memory. *)
Definition tinv (s : Virt) (P : list Z) (root : Z) (T : gmap (list Z) Z) : Prop :=
  rinv s P root T \/ root = 0 /\ T = ∅ /\ phys_inv (vphys s) P /\ (forall pn, pn ∈ P -> pn < 2 ^ 20).

(** A box outside the tree and the free pages. *)
Definition box_ok (T : gmap (list Z) Z) (P : list Z) (p : Z) : Prop :=
  HIGHER_HALF <= p /\ (p - HIGHER_HALF) mod 8 = 0 /\ ~ used T P ((p - HIGHER_HALF) / PAGE_SIZE).

Lemma tinv_lookup s P root T a : tinv s P root T -> lookup root a s = Some (leafv (words s) T a, s).
Proof. intros [[HT _ _ _]|(-> & -> & _)]; [by apply lookup_ok|done]. Qed.

Lemma first_root_ok s P :
  phys_inv (vphys s) P -> (forall pn, pn ∈ P -> pn < 2 ^ 20) ->
  match new_node s with
  | Some (c, s') => exists P', rinv s' P' c {[[] := c]} /\ rgrow s P ∅ s' P' {[[] := c]} /\ (forall n, can_take (S n) (vphys s) = can_take n (vphys s'))
  | None => forall n, can_take (S n) (vphys s) = false
  end.
Proof.
  intros Hph Hsm. pose proof (new_node_ok s P Hph Hsm) as Hn. destruct (new_node s) as [[c s']|]; [|done].
  destruct Hn as (p' & P' & -> & Hph' & HP & Hc & Hct). exists P'. apply and_assoc. split; [|exact Hct]. pose proof (phys_inv_nodup _ _ Hph) as Hnd. rewrite HP in Hnd.
  apply NoDup_app in Hnd as (_ & Hdis & _).
  assert (forall q m, ({[[] := c]} : gmap (list Z) Z) !! q = Some m -> q = [] /\ m = c) as Hs by (intros q m [<- <-]%lookup_singleton_Some; done).
  split; split; try done.
  - split; [by rewrite lookup_singleton_eq|intros q m [_ ->]%Hs; done|intros q m [-> _]%Hs; simpl; lia|
      intros q q' m [-> _]%Hs [-> _]%Hs; done|intros q i m [H _]%Hs; by destruct q|].
    intros q m i [-> ->]%Hs _ Hi. cbn [words with_words app]. rewrite nentry_zero by done. rewrite decide_True by done.
    by rewrite lookup_singleton_ne.
  - intros q m pn [_ ->]%Hs. apply Hdis.
  - intros pn Hpn. apply Hsm. rewrite HP. apply elem_of_app. by right.
  - intros q m j Hl [-> _]%Hs. done.
  - intros a Ha. cbn [words with_words]. apply zero_node_out. intros i Hi <-. apply Ha. left. rewrite HP. apply elem_of_app. left.
    by apply node_page.
  - intros pn [Hpn|(q & m & [_ ->]%Hs & Hpn)]; left; rewrite HP; apply elem_of_app; auto.
  - rewrite HP. by apply submseteq_inserts_l.
Qed.

Lemma box_load T P p s : box_ok T P p -> load p s = Some (default 0 (words s !! (p - HIGHER_HALF)), s).
Proof.
  intros (Hh & Hal & _). unfold load, deref. destruct (Z.geb_spec p HIGHER_HALF); [|lia]. unfold vbind, vret. by rewrite Hal.
Qed.

(** Storing an area in a leaf node. *)
Lemma store_leaf_ok s P root T a n v :
  rinv s P root T -> T !! kpath a = Some n ->
  let s' := with_words s (<[entry_addr n (radix_index a 0) := v]> (words s)) in
  rinv s' P root T /\ leafv (words s') T a = v /\ (forall b, key b <> key a -> leafv (words s') T b = leafv (words s) T b) /\
  (forall b, ~ used T P (b / PAGE_SIZE) -> words s' !! b = words s !! b).
Proof.
  intros [HT Hph Htk Hsm] Hn. cbv zeta. pose proof (r_node _ _ _ HT _ _ Hn) as Hok. pose proof (radix_bound a 0) as Hi. split_and!.
  - split; try done. pose proof HT as [H1 H2 H3 H4 H5 H6]. split; try done. intros q m j Hq Hl Hj. cbn [words with_words].
    rewrite nentry_insert by eauto. rewrite decide_False; [by apply H6|]. intros [<- _].
    assert (q = kpath a) as -> by eauto. simpl in Hl. lia.
  - unfold leafv. rewrite Hn. cbn [words with_words]. rewrite nentry_insert by done. by rewrite decide_True.
  - intros b Hb. unfold leafv. destruct (T !! kpath b) as [m|] eqn:Em; [|done]. cbn [words with_words].
    rewrite nentry_insert by (done || by eapply r_node || apply radix_bound). rewrite decide_False; [done|]. intros [<- He].
    apply Hb. apply same_key; [by eapply r_inj|done].
  - intros b Hb. cbn [words with_words]. apply lookup_insert_ne. intros <-. apply Hb. right. exists (kpath a), n. split; [done|by apply node_page].
Qed.

Lemma leafv_grow s P root T s' P' root' T' a :
  tinv s P root T -> rinv s' P' root' T' -> rgrow s P T s' P' T' -> leafv (words s') T' a = leafv (words s) T a.
Proof.
  intros Ht Hv Hg. unfold leafv. destruct (T' !! kpath a) as [n|] eqn:E'.
  - rewrite (rg_leaf _ _ _ _ _ _ Hg (kpath a) n _ eq_refl E' (radix_bound a 0)).
    destruct (T !! kpath a) as [m|] eqn:E; [|done]. apply (rg_sub _ _ _ _ _ _ Hg) in E. by assert (m = n) as -> by congruence.
  - destruct (T !! kpath a) as [m|] eqn:E; [|done]. apply (rg_sub _ _ _ _ _ _ Hg) in E. congruence.
Qed.

(** The nodes [insert] has to make. *)
Definition missing (T : gmap (list Z) Z) (a : Z) : nat :=
  need T [] + (need T [radix_index a 3] + (need T [radix_index a 3; radix_index a 2] + need T (kpath a))).

Lemma insert_ok s P root T vma :
  tinv s P root T -> box_ok T P vma ->
  let start := default 0 (words s !! (vma - HIGHER_HALF)) in
  match insert root vma s with
  | Some (root', s') => exists P' T', rinv s' P' root' T' /\ leafv (words s') T' start = vma /\
      (forall b, key b <> key start -> leafv (words s') T' b = leafv (words s) T b) /\
      (forall b, ~ used T P (b / PAGE_SIZE) -> words s' !! b = words s !! b) /\ (forall pn, used T' P' pn -> used T P pn) /\
      can_take (missing T start) (vphys s) = true
  | None => can_take (missing T start) (vphys s) = false
  end.
Proof.
  intros Ht Hbox start. unfold insert, missing. set (q3 := [radix_index start 3]). set (q2 := [radix_index start 3; radix_index start 2]).
  assert (match (if root =? 0 then new_node else vret root) s with
    | Some (r, s1) => exists P1 T1, rinv s1 P1 r T1 /\ rgrow s P T s1 P1 T1 /\ (forall q, q <> [] -> T1 !! q = T !! q) /\
        (forall k, can_take (need T [] + k) (vphys s) = can_take k (vphys s1))
    | None => forall k, can_take (need T [] + k) (vphys s) = false end) as H1.
  { destruct Ht as [Hv|(-> & -> & Hph & Hsm)].
    - pose proof (r_root _ _ _ (ri_tree _ _ _ _ Hv)) as Hr. rewrite (node_nonzero _ _ _ _ _ (ri_tree _ _ _ _ Hv) Hr).
      unfold need. rewrite Hr. exists P, T. split; [done|]. split; [apply rgrow_refl|done].
    - simpl. pose proof (first_root_ok s P Hph Hsm) as H. destruct (new_node s) as [[c s']|]; [|exact H].
      destruct H as (P' & H1 & H2 & H3). exists P', {[[] := c]}. split; [done|]. split; [done|]. split; [|exact H3].
      intros q Hq. by rewrite lookup_singleton_ne. }
  unfold vbind at 1. destruct ((if root =? 0 then new_node else vret root) s) as [[r s1]|]; [|by apply H1].
  destruct H1 as (P1 & T1 & Hv1 & Hg1 & Hs1 & ->).
  assert (vma_start vma s1 = Some (start, s1)) as Hst.
  { unfold vma_start. rewrite (box_load T P) by done. unfold start. rewrite (rg_frame _ _ _ _ _ _ Hg1); [done|by apply Hbox]. }
  unfold vbind at 1. rewrite Hst.
  assert (need T q3 = need T1 q3) as -> by (unfold need; by rewrite Hs1).
  assert (need T q2 = need T1 q2) as -> by (unfold need; by rewrite Hs1).
  assert (need T (kpath start) = need T1 (kpath start)) as -> by (unfold need; by rewrite Hs1).
  pose proof (grow_child_ok s1 P1 r T1 [] r start 3 Hv1 (r_root _ _ _ (ri_tree _ _ _ _ Hv1)) ltac:(simpl; lia)) as H3.
  cbv zeta in H3. cbn [app] in H3. fold q3 in H3.
  unfold vbind at 1. destruct (grow_child r start 3 s1) as [[n2 s2]|]; [|by apply H3]. destruct H3 as (P2 & T2 & Hv2 & E2 & Hg2 & Hs2 & ->).
  assert (need T1 q2 = need T2 q2) as -> by (unfold need; by rewrite Hs2).
  assert (need T1 (kpath start) = need T2 (kpath start)) as -> by (unfold need; by rewrite Hs2).
  pose proof (grow_child_ok s2 P2 r T2 _ n2 start 2 Hv2 E2 ltac:(simpl; lia)) as H2. cbv zeta in H2. cbn [app] in H2. unfold q3 in H2. cbn [app] in H2. fold q2 in H2.
  unfold vbind at 1. destruct (grow_child n2 start 2 s2) as [[n1 s3]|]; [|by apply H2]. destruct H2 as (P3 & T3 & Hv3 & E3 & Hg3 & Hs3 & ->).
  assert (need T2 (kpath start) = need T3 (kpath start)) as -> by (unfold need; by rewrite Hs3).
  pose proof (grow_child_ok s3 P3 r T3 _ n1 start 1 Hv3 E3 ltac:(simpl; lia)) as H1. cbv zeta in H1. unfold q2 in H1. cbn [app] in H1.
  fold (kpath start) in H1. rewrite <-(Nat.add_0_r (need T3 (kpath start))).
  unfold vbind at 1. destruct (grow_child n1 start 1 s3) as [[n0 s4]|]; [|by apply H1]. destruct H1 as (P4 & T4 & Hv4 & E4 & Hg4 & _ & ->).
  assert (rgrow s P T s4 P4 T4) as Hg by (do 3 (eapply rgrow_trans; [|eassumption]); done).
  unfold vbind at 1. rewrite store_entry by (by eapply r_node; [apply Hv4|done] || apply radix_bound). unfold vret.
  destruct (store_leaf_ok s4 P4 r T4 start n0 vma Hv4 E4) as (Hv5 & Hl5 & Hk5 & Hf5).
  exists P4, T4. split_and!; [done|done| | |by eapply rg_used|done].
  - intros b Hb. rewrite Hk5 by done. by eapply leafv_grow.
  - intros b Hb. rewrite Hf5; [by eapply rg_frame|]. intros Hu. by apply Hb, (rg_used _ _ _ _ _ _ Hg).
Qed.

(** ** Removal *)

Lemma scan_empty s n l :
  node_ok n -> Forall (fun i => 0 <= i < 1024) l ->
  vfirst l (fun i => let* e := load (entry_addr n i) in vret (if e =? 0 then None else Some tt)) s =
  Some (if forallb (fun i => nentry (words s) n i =? 0) l then None else Some tt, s).
Proof.
  intros Hn. induction l as [|i l IH]; intros Hl; [done|]. apply Forall_cons in Hl as [Hi Hl]. cbn [vfirst forallb].
  unfold vbind at 1 2. rewrite load_entry by done. unfold vret at 1. destruct (nentry (words s) n i =? 0); [by apply IH|done].
Qed.

Lemma node_empty_ok s n :
  node_ok n -> exists b, node_empty n s = Some (b, s) /\ (b = true -> forall i, 0 <= i < 1024 -> nentry (words s) n i = 0).
Proof.
  intros Hn. unfold node_empty, vbind at 1. rewrite scan_empty;
    [|done|apply Forall_forall; intros i Hi%elem_of_seqZ; unfold RADIX_SIZE in Hi; lia].
  destruct (forallb _ node_indices) eqn:E; eexists; (split; [done|]); [|done]. intros _ i Hi.
  rewrite forallb_forall in E. apply Z.eqb_eq, E. apply list_elem_of_In, elem_of_seqZ. unfold RADIX_SIZE. lia.
Qed.

(** The ancestors of a path, nearest first, with the indices taken. *)
Inductive anc (T : gmap (list Z) Z) : list Z -> list (Z * Z) -> Prop :=
  | anc_root : anc T [] []
  | anc_step p i n path : T !! p = Some n -> anc T p path -> anc T (p ++ [i]) ((n, i) :: path).

Lemma anc_frame T p path q : anc T p path -> (length p <= length q)%nat -> anc (delete q T) p path.
Proof.
  induction 1 as [|p i n path Hp _ IH]; intros Hl; [constructor|]. rewrite length_app in Hl. simpl in Hl. constructor.
  - rewrite lookup_delete_ne; [done|]. intros ->. lia.
  - apply IH. lia.
Qed.

(** Taking a childless node out of the tree. *)
Lemma rtree_delete w root T p i parent n :
  rtree w root T -> T !! p = Some parent -> T !! (p ++ [i]) = Some n -> (forall j, T !! ((p ++ [i]) ++ [j]) = None) ->
  rtree (<[entry_addr parent i := 0]> w) root (delete (p ++ [i]) T).
Proof.
  intros HT Hp Hc Hno. pose proof HT as [H1 H2 H3 H4 H5 H6]. destruct (H5 _ _ _ Hc) as [Hi _]. split.
  - rewrite lookup_delete_ne; [done|]. by destruct p.
  - intros q m [_ Hq]%lookup_delete_Some. eauto.
  - intros q m [_ Hq]%lookup_delete_Some. eauto.
  - intros q q' m [_ Hq]%lookup_delete_Some [_ Hq']%lookup_delete_Some. eauto.
  - intros q j c [Hne Hq]%lookup_delete_Some. destruct (H5 q j c Hq) as [Hj [m Hm]]. split; [done|]. exists m.
    rewrite lookup_delete_ne; [done|]. intros Heq. rewrite <-Heq, Hno in Hq. done.
  - intros q m j [Hne Hq]%lookup_delete_Some Hl Hj. rewrite nentry_insert by eauto. case_decide as Hd.
    + destruct Hd as [<- <-]. assert (q = p) as -> by eauto. by rewrite lookup_delete_eq.
    + rewrite lookup_delete_ne; [by apply H6|]. intros Heq. apply app_inj_tail in Heq as [-> ->]. apply Hd. split; congruence.
Qed.

Lemma childless s root T p n :
  rtree (words s) root T -> T !! p = Some n -> (forall i, 0 <= i < 1024 -> nentry (words s) n i = 0) -> forall j, T !! (p ++ [j]) = None.
Proof.
  intros HT Hp Hz j. destruct (T !! (p ++ [j])) as [c|] eqn:E; [|done]. exfalso.
  destruct (r_closed _ _ _ HT _ _ _ E) as [Hj _]. pose proof (r_len _ _ _ HT _ _ E) as Hl. rewrite length_app in Hl. simpl in Hl.
  pose proof (r_child _ _ _ HT p n j Hp ltac:(lia) Hj) as Hc. rewrite Hz, E in Hc by done. simpl in Hc.
  pose proof (node_nonzero _ _ _ _ _ HT E) as Hnz. rewrite <-Hc in Hnz. done.
Qed.

Lemma free_node_ok s P n :
  phys_inv (vphys s) P -> node_ok n -> (forall pn, pn ∈ block_pages n 1 -> pn ∉ P) -> (forall pn, pn ∈ P -> pn < 2 ^ 20) ->
  exists Q, phys_inv (free_order (vphys s) n 1) (Q ++ P) /\ Q ⊆+ block_pages n 1 /\ (forall pn, pn ∈ Q ++ P -> pn < 2 ^ 20).
Proof.
  intros Hph (Hal & Hn & Hb) Hdis Hsm. destruct (free_order_weak (vphys s) P n 1) as (Q & HQ & Hinv & _); [done|unfold MAX_ORDER; lia| | |].
  - split_and!; [done|done|]. change (block_size 1) with 8192. lia.
  - apply NoDup_app. split_and!; [apply NoDup_seqZ|done|by eapply phys_inv_nodup].
  - exists Q. split_and!; [done|done|]. intros pn [Hpn|Hpn]%elem_of_app; [|by apply Hsm].
    eapply elem_of_submseteq in Hpn; [|exact HQ]. apply elem_of_block_pages in Hpn. unfold PAGE_SIZE in Hpn. change (2 ^ Z.of_nat 1) with 2 in Hpn.
    div_lia.
Qed.

(** Freed nodes change no leaf. *)
Lemma leafv_delete s root T p i parent n a :
  rtree (words s) root T -> T !! p = Some parent -> (length p < 3)%nat -> 0 <= i < 1024 -> T !! (p ++ [i]) = Some n ->
  (forall j, 0 <= j < 1024 -> nentry (words s) n j = 0) ->
  leafv (<[entry_addr parent i := 0]> (words s)) (delete (p ++ [i]) T) a = leafv (words s) T a.
Proof.
  intros HT Hp Hl Hi Hc Hz. unfold leafv. destruct (decide (p ++ [i] = kpath a)) as [He|Hne].
  - rewrite <-He, lookup_delete_eq, Hc. by rewrite Hz by apply radix_bound.
  - rewrite lookup_delete_ne by done. destruct (T !! kpath a) as [m|] eqn:E; [|done].
    rewrite nentry_insert by (done || by (eapply r_node) || apply radix_bound). rewrite decide_False; [done|]. intros [<- _].
    assert (p = kpath a) as -> by by eapply r_inj. simpl in Hl. lia.
Qed.

Lemma prune_ok root path : forall p s P T n,
  rinv s P root T -> T !! p = Some n -> anc T p path ->
  exists root' s' P' T', prune root n path s = Some (root', s') /\ tinv s' P' root' T' /\
    (forall a, leafv (words s') T' a = leafv (words s) T a) /\
    (forall b, ~ used T P (b / PAGE_SIZE) -> words s' !! b = words s !! b) /\ (forall pn, used T' P' pn -> used T P pn).
Proof.
  induction path as [|[parent i] path IH]; intros p s P T n Hv Hp Hanc; pose proof Hv as [HT Hph Htk Hsm];
    pose proof (r_node _ _ _ HT _ _ Hp) as Hn; destruct (node_empty_ok s n Hn) as (b & Hb & Hz); cbn [prune];
    unfold vbind at 1; rewrite Hb; (destruct b; [specialize (Hz eq_refl)|exists root, s, P, T; split_and!; try done; by left]);
    pose proof (childless s root T p n HT Hp Hz) as Hno;
    destruct (free_node_ok s P n Hph Hn (fun pn => Htk p n pn Hp) Hsm) as (Q & HphQ & HQ & HsmQ);
    unfold vbind at 1, free_node, vmod; set (s1 := with_vphys s (free_order (vphys s) n 1)).
  - inversion Hanc; subst. exists 0, s1, (Q ++ P), ∅. split_and!; [done|by right| |done|].
    + intros a. unfold leafv, kpath. rewrite lookup_empty. pose proof (closed_none _ _ _ _ [radix_index a 2; radix_index a 1] HT (Hno (radix_index a 3))) as H.
      simpl in H. by rewrite H.
    + intros pn [[Hq|Hq]%elem_of_app|(? & ? & ? & _)]; [right; exists [], n; split; [done|by eapply elem_of_submseteq]|by left|done].
  - inversion Hanc as [|p' i' n' path' Hpar Hanc' He1]; subst.
    destruct (r_closed _ _ _ HT _ _ _ Hp) as [Hi _]. pose proof (r_len _ _ _ HT _ _ Hp) as Hl. rewrite length_app in Hl. simpl in Hl.
    pose proof (r_node _ _ _ HT _ _ Hpar) as Hpok.
    unfold vbind at 1. rewrite store_entry by done. set (s2 := with_words s1 _).
    assert (forall pn, used (delete (p' ++ [i]) T) (Q ++ P) pn -> used T P pn) as Hused.
    { intros pn [[Hq|Hq]%elem_of_app|(q & m & [_ Hq]%lookup_delete_Some & Hpn)];
        [right; exists (p' ++ [i]), n; split; [done|by eapply elem_of_submseteq]|by left|right; by exists q, m]. }
    assert (rinv s2 (Q ++ P) root (delete (p' ++ [i]) T)) as Hv2.
    { split; [by eapply rtree_delete|done| |done].
      intros q m pn [Hne Hq]%lookup_delete_Some Hpn [Hin|Hin]%elem_of_app; [|by eapply Htk].
      apply Hne. eapply elem_of_submseteq in Hin; [|exact HQ].
      eapply r_inj; [done|exact Hp|]. by rewrite (block_pages_node n m pn Hn (r_node _ _ _ HT _ _ Hq) Hin Hpn). }
    destruct (IH p' s2 (Q ++ P) (delete (p' ++ [i]) T) parent Hv2) as (root' & s' & P' & T' & Hpr & Ht' & Hlv & Hfr & Hus).
    + rewrite lookup_delete_ne; [done|]. intros Heq. apply (f_equal length) in Heq. rewrite length_app in Heq. simpl in Heq. lia.
    + apply anc_frame; [done|]. rewrite length_app. lia.
    + exists root', s', P', T'. split_and!; [done|done| | |naive_solver].
      * intros a. rewrite Hlv. apply (leafv_delete s root T p' i parent n a HT Hpar ltac:(lia) Hi Hp Hz).
      * intros a Ha. rewrite Hfr by naive_solver. cbn [words with_words s2]. apply lookup_insert_ne. intros <-. apply Ha. right.
        exists p', parent. split; [done|by apply node_page].
Qed.

Lemma remove_ok s P root T start :
  tinv s P root T ->
  let v := leafv (words s) T start in
  exists root' s' P' T', remove root start s = Some ((negb (v =? 0), root', if v =? 0 then [] else [v]), s') /\
    tinv s' P' root' T' /\ leafv (words s') T' start = 0 /\
    (forall b, key b <> key start -> leafv (words s') T' b = leafv (words s) T b) /\
    (forall b, ~ used T P (b / PAGE_SIZE) -> words s' !! b = words s !! b) /\ (forall pn, used T' P' pn -> used T P pn).
Proof.
  intros Ht v. destruct Ht as [Hv|(-> & -> & Hph & Hsm)].
  2: { exists 0, s, P, ∅. split_and!; try done. by right. }
  pose proof (ri_tree _ _ _ _ Hv) as HT. pose proof (r_root _ _ _ HT) as Hr.
  assert ((length ([] : list Z) < 3)%nat /\ (forall i : Z, length [i] < 3)%nat /\ (forall i j : Z, length [i; j] < 3)%nat) as (L0 & L1 & L2)
    by (split_and!; intros; simpl; lia).
  assert (v = 0 -> exists root' s' P' T', Some ((false, root, []), s) = Some ((negb (v =? 0), root', if v =? 0 then [] else [v]), s') /\
    tinv s' P' root' T' /\ leafv (words s') T' start = 0 /\
    (forall b, key b <> key start -> leafv (words s') T' b = leafv (words s) T b) /\
    (forall b, ~ used T P (b / PAGE_SIZE) -> words s' !! b = words s !! b) /\ (forall pn, used T' P' pn -> used T P pn)) as Hmiss.
  { intros Hv0. exists root, s, P, T. rewrite Hv0. split_and!; try done. by left. }
  unfold remove. rewrite (node_nonzero _ _ _ _ _ HT Hr).
  rewrite (vbind_some _ _ _ _ _ (lookup_step s root T [] root _ HT Hr L0 (radix_bound start 3))). cbn [app].
  destruct (T !! [radix_index start 3]) as [n2|] eqn:E2; cbn [from_option id].
  2: { apply Hmiss. unfold v, leafv, kpath. pose proof (closed_none _ _ _ _ [radix_index start 2; radix_index start 1] HT E2) as H. simpl in H. by rewrite H. }
  rewrite (node_nonzero _ _ _ _ _ HT E2).
  rewrite (vbind_some _ _ _ _ _ (lookup_step s root T [_] n2 _ HT E2 (L1 _) (radix_bound start 2))). cbn [app].
  destruct (T !! [radix_index start 3; radix_index start 2]) as [n1|] eqn:E1; cbn [from_option id].
  2: { apply Hmiss. unfold v, leafv, kpath. pose proof (closed_none _ _ _ _ [radix_index start 1] HT E1) as H. simpl in H. by rewrite H. }
  rewrite (node_nonzero _ _ _ _ _ HT E1).
  rewrite (vbind_some _ _ _ _ _ (lookup_step s root T [_; _] n1 _ HT E1 (L2 _ _) (radix_bound start 1))). cbn [app].
  destruct (T !! [radix_index start 3; radix_index start 2; radix_index start 1]) as [n0|] eqn:E0; cbn [from_option id].
  2: { apply Hmiss. unfold v, leafv, kpath. by rewrite E0. }
  rewrite (node_nonzero _ _ _ _ _ HT E0). pose proof (r_node _ _ _ HT _ _ E0) as Hn0.
  rewrite (vbind_some _ _ _ _ _ (load_entry n0 _ s Hn0 (radix_bound start 0))).
  assert (nentry (words s) n0 (radix_index start 0) = v) as -> by (unfold v, leafv, kpath; by rewrite E0).
  unfold vbind at 1. rewrite store_entry by (done || apply radix_bound).
  destruct (store_leaf_ok s P root T start n0 0 Hv E0) as (Hv1 & Hl1 & Hk1 & Hf1). set (s1 := with_words s _) in *.
  destruct (Z.eqb_spec v 0) as [Hz|Hz].
  - exists root, s1, P, T. split_and!; try done. by left.
  - destruct (prune_ok root [(n1, radix_index start 1); (n2, radix_index start 2); (root, radix_index start 3)] (kpath start) s1 P T n0 Hv1 E0)
      as (root' & s' & P' & T' & Hpr & Ht' & Hlv & Hfr & Hus).
    + apply (anc_step T [_; _] _ n1); [done|]. apply (anc_step T [_] _ n2); [done|]. apply (anc_step T [] _ root); [done|constructor].
    + unfold vbind at 1. rewrite Hpr. unfold vret. exists root', s', P', T'. split_and!; [done|done|by rewrite Hlv| | |done].
      * intros b Hb. by rewrite Hlv, Hk1.
      * intros b Hb. by rewrite Hfr, Hf1.
Qed.

(** C15: The radix tree is a map from page numbers (bits 12 to 51) to areas: after
    [insert] the area is found at its start address, every other page is looked up
    as before, and no memory outside the tree changes.  Insertion succeeds exactly
    if the page allocator can hand out a block of two pages for each node that is
    missing on the way to the address, at most four of them; otherwise it panics. *)
Theorem vma_insert_lookup s P root T vma :
  tinv s P root T -> box_ok T P vma ->
  let start := default 0 (words s !! (vma - HIGHER_HALF)) in
  match insert root vma s with
  | Some (root', s') => can_take (missing T start) (vphys s) = true /\
      exists P' T', tinv s' P' root' T' /\ lookup root' start s' = Some (vma, s') /\
      (forall a, key a <> key start -> fst <$> lookup root' a s' = fst <$> lookup root a s) /\
      (forall b, ~ used T P (b / PAGE_SIZE) -> words s' !! b = words s !! b)
  | None => can_take (missing T start) (vphys s) = false
  end.
Proof.
  intros Ht Hbox start. pose proof (insert_ok s P root T vma Ht Hbox) as H. cbv zeta in H. fold start in H.
  destruct (insert root vma s) as [[root' s']|]; [|done]. destruct H as (P' & T' & Hv & Hl & Hk & Hf & _ & Hct). split; [done|].
  exists P', T'. split_and!; [by left| | |done].
  - by rewrite (lookup_ok _ _ _ _ (ri_tree _ _ _ _ Hv)), Hl.
  - intros a Ha. rewrite (lookup_ok _ _ _ _ (ri_tree _ _ _ _ Hv)), (tinv_lookup s P root T a Ht). simpl. by rewrite Hk.
Qed.

(** [remove] takes the area at that page out of the tree and reports it for
    release (or reports that there is none), keeps every other page, and returns the
    nodes that became empty, up to the root, to the page allocator: what remains is a
    well-formed tree.  It never fails. *)
Theorem vma_remove_correct s P root T start v :
  tinv s P root T -> lookup root start s = Some (v, s) ->
  exists root' s' P' T', remove root start s = Some ((negb (v =? 0), root', if v =? 0 then [] else [v]), s') /\
    tinv s' P' root' T' /\ lookup root' start s' = Some (0, s') /\
    (forall a, key a <> key start -> fst <$> lookup root' a s' = fst <$> lookup root a s) /\
    (forall pn, used T' P' pn -> used T P pn).
Proof.
  intros Ht Hv. rewrite (tinv_lookup s P root T start Ht) in Hv. injection Hv as <-.
  destruct (remove_ok s P root T start Ht) as (root' & s' & P' & T' & Hr & Ht' & Hl & Hk & _ & Hus).
  exists root', s', P', T'. split_and!; [done|done| | |done].
  - by rewrite (tinv_lookup _ _ _ _ _ Ht'), Hl.
  - intros a Ha. rewrite (tinv_lookup _ _ _ _ _ Ht'), (tinv_lookup s P root T a Ht). simpl. by rewrite Hk.
Qed.
