(* ===== verification/VmaFault.v ===== *)
(** Page faults: the walk over all areas, and copy on write. *)
From stdpp Require Import base tactics numbers list gmap.
From Stdlib Require Import ZArith Lia.
From S2P Require Import Prelude Phys PhysInv PhysSpec PhysThms KMem Percpu Virt VirtTree VirtThms VmLaws Vma VmaTree VmaThms.

Local Open Scope Z_scope.
Local Open Scope vm_scope.
Local Opaque zero_node zero_words.

(** ** The walk over all areas *)

(** A loop over bodies that find nothing or fault. *)
Lemma vfirst_none_or_fault {R} (f : Z -> VM (option R)) s l :
  (forall i, i ∈ l -> f i s = Some (None, s) \/ f i s = None) ->
  (vfirst l f s = Some (None, s) /\ forall i, i ∈ l -> f i s = Some (None, s)) \/ vfirst l f s = None.
Proof.
  induction l as [|i l IH]; intros Hf; [left; split; [done|]; by intros i ?%elem_of_nil|]. cbn [vfirst]. unfold vbind.
  destruct (Hf i) as [Hi|Hi]; [by left| |]; rewrite Hi; [|by right].
  destruct IH as [[Hl Hall]|Hl]; [intros j Hj; apply Hf; by right| |by right]. left. split; [done|].
  intros j [->|Hj]%elem_of_cons; auto.
Qed.

Section walk.
Context {R : Type} (f : Z -> VM (option R)) (s : Virt) (root : Z) (T : gmap (list Z) Z).
Hypothesis HT : rtree (words s) root T.
(** Every area of the tree, taken for a node, makes the walk fault. *)
Hypothesis Hbad : forall p n j, T !! p = Some n -> length p = 3%nat -> 0 <= j < 1024 -> nentry (words s) n j <> 0 ->
  visit_node 0 (nentry (words s) n j) f s = None.

(** The walk from the node at [p], with the levels [visit_all] counts: nothing
    found means no area below. *)
Lemma visit_faults k : forall p n,
  T !! p = Some n -> (length p + k = 3)%nat ->
  (visit_node (S k) n f s = Some (None, s) /\
   forall q m j, T !! (p ++ q) = Some m -> length (p ++ q) = 3%nat -> 0 <= j < 1024 -> nentry (words s) m j = 0) \/
  visit_node (S k) n f s = None.
Proof.
  induction k as [|k IH]; intros p n Hp Hlen; pose proof (r_node _ _ _ HT _ _ Hp) as Hn.
  - set (body := fun i => let* v := load (entry_addr n i) in if v =? 0 then vret None else visit_node 0 v f).
    change (visit_node 1 n f s) with (vfirst node_indices body s).
    assert (forall i, 0 <= i < 1024 -> body i s = if nentry (words s) n i =? 0 then Some (None, s) else visit_node 0 (nentry (words s) n i) f s) as Hbody.
    { intros i Hi. unfold body, vbind. rewrite load_entry by done. by destruct (nentry (words s) n i =? 0). }
    destruct (vfirst_none_or_fault body s node_indices) as [[Hv Hall]|Hv]; [|left; split; [done|]|by right].
    + intros i Hi%elem_of_seqZ. unfold RADIX_SIZE in Hi. rewrite Hbody by lia. destruct (Z.eqb_spec (nentry (words s) n i) 0); [by left|right].
      eapply (Hbad p); [done|lia|lia|done].
    + intros q m j Hq Hl Hj. assert (q = []) as -> by (rewrite length_app in Hl; destruct q; [done|simpl in Hl; lia]).
      rewrite app_nil_r in Hq. assert (m = n) as -> by congruence. destruct (Z.eqb_spec (nentry (words s) n j) 0) as [|Hne]; [done|].
      specialize (Hall j). rewrite Hbody in Hall by done. rewrite (proj2 (Z.eqb_neq _ _)) in Hall by done.
      rewrite (Hbad p n j) in Hall by (done || lia). by discriminate Hall; apply elem_of_seqZ; unfold RADIX_SIZE; lia.
  - set (body := fun i => let* v := load (entry_addr n i) in if v =? 0 then vret None else visit_node (S k) v f).
    change (visit_node (S (S k)) n f s) with (vfirst node_indices body s).
    assert (forall i, 0 <= i < 1024 -> body i s = if T !! (p ++ [i]) is Some c then visit_node (S k) c f s else Some (None, s)) as Hbody.
    { intros i Hi. unfold body, vbind. rewrite load_entry by done. rewrite (r_child _ _ _ HT p n i) by (done || lia).
      destruct (T !! (p ++ [i])) as [c|] eqn:Ec; [|done]. cbn [from_option id]. by rewrite (node_nonzero _ _ _ _ _ HT Ec). }
    assert (forall i c, T !! (p ++ [i]) = Some c -> _) as IHi by (intros i c Hc; apply (IH (p ++ [i]) c Hc); rewrite length_app; simpl; lia).
    destruct (vfirst_none_or_fault body s node_indices) as [[Hv Hall]|Hv]; [|left; split; [done|]|by right].
    + intros i Hi%elem_of_seqZ. unfold RADIX_SIZE in Hi. rewrite Hbody by lia. destruct (T !! (p ++ [i])) as [c|] eqn:Ec; [|by left].
      destruct (IHi i c Ec) as [[? _]|?]; tauto.
    + intros [|i q] m j Hq Hl Hj; [rewrite app_nil_r in Hl; lia|].
      replace (p ++ i :: q) with ((p ++ [i]) ++ q) in Hq, Hl by by rewrite <-app_assoc.
      assert (exists c, T !! (p ++ [i]) = Some c) as [c Hc].
      { destruct (T !! (p ++ [i])) as [c|] eqn:Ec; [by exists c|]. by rewrite (closed_none _ _ _ _ q HT Ec) in Hq. }
      destruct (r_closed _ _ _ HT _ _ _ Hc) as [Hi _]. specialize (Hall i). rewrite Hbody, Hc in Hall by done.
      destruct (IHi i c Hc) as [[_ Hz]|Hf]; [by eapply Hz|]. rewrite Hf in Hall. discriminate Hall.
      apply elem_of_seqZ. unfold RADIX_SIZE. lia.
Qed.
End walk.

(** Every leaf slot is the slot of some address. *)
Lemma leaf_key w root T p n j :
  rtree w root T -> T !! p = Some n -> length p = 3%nat -> 0 <= j < 1024 -> exists b, kpath b = p /\ radix_index b 0 = j.
Proof.
  intros HT Hp Hl Hj. destruct p as [|i3 [|i2 [|i1 [|? ?]]]]; simpl in Hl; try lia.
  destruct (r_closed _ _ _ HT [i3; i2] i1 n Hp) as [H1 [n1 Hn1]].
  destruct (r_closed _ _ _ HT [i3] i2 n1 Hn1) as [H2 [n2 Hn2]]. destruct (r_closed _ _ _ HT [] i3 n2 Hn2) as [H3 _].
  exists (4096 * (j + 1024 * i1 + 1024 * 1024 * i2 + 1024 * 1024 * 1024 * i3)). unfold kpath. rewrite !radix_index_eq by lia.
  rewrite Z.mul_comm, Z.div_mul by lia. change (2 ^ (10 * 0)) with 1. change (2 ^ (10 * 1)) with 1024.
  change (2 ^ (10 * 2)) with (1024 * 1024). change (2 ^ (10 * 3)) with (1024 * 1024 * 1024).
  split; [f_equal; [|f_equal; [|f_equal]]|]; div_lia.
Qed.

(** A box whose area starts outside the kernel's mappings. *)
Definition user_area (s : Virt) (v : Z) : Prop :=
  HIGHER_HALF <= v /\ (v - HIGHER_HALF) mod 8 = 0 /\
  0x100000000 <= default 0 (words s !! (v - HIGHER_HALF)) < HIGHER_HALF.

(** The search for the area of a fault address is broken: [visit_all] counts one
    level too many and takes the areas for tree nodes, so their fields are followed as
    pointers.  In a tree whose areas start above 4 GB, with at least one area, every
    [find_covering] faults, whatever the address, also inside an area. *)
Theorem find_covering_faults s P root T addr a v :
  tinv s P root T -> (forall b u, lookup root b s = Some (u, s) -> u <> 0 -> user_area s u) ->
  lookup root a s = Some (v, s) -> v <> 0 -> find_covering root addr s = None.
Proof.
  intros Ht Huser Hv Hv0. rewrite (tinv_lookup s P root T a Ht) in Hv. injection Hv as Hv.
  destruct Ht as [Hinv|(-> & -> & _)]; [|by destruct Hv0].
  pose proof (ri_tree _ _ _ _ Hinv) as HT. pose proof (r_root _ _ _ HT) as Hr.
  unfold find_covering, visit_all. rewrite (node_nonzero _ _ _ _ _ HT Hr).
  match goal with |- visit_node 4 root ?g s = None => set (f := g) end.
  destruct (visit_faults f s root T HT) with (k := 3%nat) (p := [] : list Z) (n := root) as [[_ Hz]|Hf]; [|done|done| |done].
  - intros p n j Hp Hl Hj Hne. destruct (leaf_key _ _ _ _ _ _ HT Hp Hl Hj) as (b & <- & <-).
    destruct (Huser b (nentry (words s) n (radix_index b 0))) as (Hh & Hal & Hst); [|done|].
    { rewrite (lookup_ok _ _ _ _ HT). unfold leafv. by rewrite Hp. }
    set (u := nentry (words s) n (radix_index b 0)) in *. set (st := default 0 (words s !! (u - HIGHER_HALF))) in *.
    assert (load (entry_addr u 0) s = Some (st, s)) as Hld.
    { unfold load, deref, entry_addr, vbind. rewrite Z.mul_0_r, Z.add_0_r. destruct (Z.geb_spec u HIGHER_HALF); [|lia].
      unfold vret. rewrite Hal. done. }
    assert (f st s = None) as Hfst.
    { unfold f, vma_start, load, deref, vbind. destruct (Z.geb_spec st HIGHER_HALF); [lia|]. by destruct (Z.ltb_spec st 0x100000000); [lia|]. }
    cbn [visit_node]. unfold node_indices, RADIX_SIZE. rewrite seqZ_cons by lia. cbn [vfirst]. unfold vbind at 1 2. rewrite Hld.
    destruct (Z.eqb_spec st 0); [lia|]. by rewrite Hfst.
  - exfalso. apply Hv0. rewrite <-Hv. unfold leafv. destruct (T !! kpath a) as [n|] eqn:En; [|done].
    apply (Hz (kpath a)); [done|done|apply radix_bound].
Qed.

(** ** Copy on write *)

Lemma copy_page_keeps o n : keeps_phys (copy_page o n).
Proof. unfold copy_page, deref, rd, wr. keeps. Qed.

Lemma write_pte_keeps p v e : keeps_phys (write_pte p v e).
Proof. unfold write_pte, pte_slot, phys_to_virtual, rd, wr, invlpg. keeps. Qed.

Lemma flush_keeps cpu v : keeps_phys (flush_page_all cpu v).
Proof. unfold flush_page_all, tlb_shootdown, pend_others, set_pending_flush, invlpg, send_ipi_others. keeps. Qed.

(** Releasing a page whose count is already zero frees nothing. *)
Lemma release_zero p a :
  refcount_at p (a / PAGE_SIZE) = 0 -> a / PAGE_SIZE < REFCOUNT_MAX_PAGES -> zone (free_page p a) = zone p /\ Phys.mem (free_page p a) = Phys.mem p.
Proof.
  intros Hz Hlt. unfold free_page, free_order. simpl. repeat (case_match; [done|]).
  unfold unref_page. destruct (Z.geb_spec (a / PAGE_SIZE) REFCOUNT_MAX_PAGES); [lia|]. by rewrite Hz.
Qed.

(** A copied page is never freed: when the faulting process held the last
    reference to the shared page, [resolve_cow] drops that reference and then calls
    [free_page], which drops a reference again; the count wraps and the page stays
    out of the free lists, which are left as the allocation of the copy left them. *)
Theorem cow_page_leaks cpu pml4 page_addr old_pte s s' new p1 :
  let pn := Z.land old_pte PHYS_ADDR_MASK / PAGE_SIZE in
  resolve_cow cpu pml4 page_addr old_pte s = Some (true, s') ->
  alloc_page (vphys s) = (Some new, p1) -> pn < REFCOUNT_MAX_PAGES -> refcount p1 pn = 1 ->
  zone (vphys s') = zone p1 /\ Phys.mem (vphys s') = Phys.mem p1.
Proof.
  intros pn Hr Ha Hpn Hrc. unfold resolve_cow, vbind at 1, alloc in Hr. rewrite Ha in Hr.
  set (s1 := with_vphys s p1) in Hr. unfold vbind at 1 in Hr.
  destruct (copy_page _ _ s1) as [[[] s2]|] eqn:E2; [|done]. unfold vbind at 1 in Hr.
  destruct (write_pte _ _ _ s2) as [[r s3]|] eqn:E3; [|done]. unfold vbind at 1 in Hr.
  destruct (flush_page_all _ _ s3) as [[[] s4]|] eqn:E4; [|done].
  assert (vphys s4 = p1) as H4.
  { rewrite (flush_keeps _ _ _ _ _ E4), (write_pte_keeps _ _ _ _ _ _ E3), (copy_page_keeps _ _ _ _ _ E2). done. }
  unfold refcount in Hrc. destruct (Z.geb_spec pn REFCOUNT_MAX_PAGES) as [|Hlt]; [lia|].
  unfold vbind at 1, vunref_page in Hr. fold pn in Hr. rewrite H4 in Hr. unfold unref_page in Hr.
  destruct (Z.geb_spec pn REFCOUNT_MAX_PAGES); [lia|]. rewrite Hrc in Hr. simpl in Hr.
  unfold vbind, release, vmod, vret in Hr. injection Hr as <-. cbn [vphys with_vphys].
  apply (release_zero (set_refcounts p1 (<[pn := wrap 16 (1 - 1)]> (REFCOUNTS p1)))); [|done].
  fold pn. unfold refcount_at. simpl. by rewrite lookup_insert_eq.
Qed.

(** ** A concrete machine: 32 free pages, and an area in a box *)

Definition area_phys : PhysState := init_from_regions phys_boot [(0x10000, 0x20000)] 0x40000 0 0 [].
Definition area_box : Z := HIGHER_HALF + 0x50000.
Definition area_start : Z := 0x140000000.
Definition area_demo : Virt :=
  mkVirt area_phys {[0x50000 := area_start; 0x50008 := 0x140002000; 0x50010 := 3]} 0x8000 0x8000 true 0 percpu_boot [] 0.

Lemma area_phys_inv : phys_inv area_phys (seqZ 16 32).
Proof.
  destruct (init_from_regions_inv phys_boot [(0x10000, 0x20000)] 0x40000 0 0 []) as (Hinv & _); [done| |lia|lia| |].
  - repeat constructor; simpl; lia.
  - apply (bool_decide_unpack (NoDup _)). vm_compute. exact I.
  - change (init_from_regions phys_boot _ _ _ _ _) with area_phys in Hinv.
    replace (seqZ 16 32) with (free_part area_phys [] ([(0x10000, 0x20000)] ≫= region_pages)); [exact Hinv|]. vm_compute. reflexivity.
Qed.

Lemma area_tinv : tinv area_demo (seqZ 16 32) 0 ∅.
Proof. right. split_and!; [done|done|exact area_phys_inv|]. intros pn Hpn%elem_of_seqZ. lia. Qed.

Lemma area_box_ok : box_ok ∅ (seqZ 16 32) area_box.
Proof.
  split_and!; [unfold area_box; lia|done|]. change ((area_box - HIGHER_HALF) / PAGE_SIZE) with 80.
  intros [?%elem_of_seqZ|(? & ? & ? & _)]; [lia|done].
Qed.

Definition area_insert : option (Z * Virt) := insert 0 area_box area_demo.
Definition area_root : Z := default 0 (fst <$> area_insert).
Definition area_tree : Virt := default area_demo (snd <$> area_insert).

Lemma some_pair_fst {A B} (x x' : A) (y y' : B) : Some (x, y) = Some (x', y') -> x = x'.
Proof. by intros [= -> _]. Qed.

Lemma pair_default {A B} (o : option (A * B)) a b :
  match o with Some _ => true | None => false end = true -> o = Some (default a (fst <$> o), default b (snd <$> o)).
Proof. by destruct o as [[x y]|]. Qed.

Lemma area_insert_eq : area_insert = Some (area_root, area_tree).
Proof. apply pair_default. vm_compute. reflexivity. Qed.

Local Opaque area_tree area_root insert.

Lemma vma_insert_lookup_witness : lookup area_root area_start area_tree = Some (area_box, area_tree).
Proof.
  pose proof (vma_insert_lookup area_demo (seqZ 16 32) 0 ∅ area_box area_tinv area_box_ok) as H. cbv zeta in H.
  fold area_insert in H. rewrite area_insert_eq in H. destruct H as (_ & P' & T' & _ & H & _). exact H.
Defined.

Lemma area_tree_tinv :
  exists P T, rinv area_tree P area_root T /\ leafv (words area_tree) T area_start = area_box /\
    (forall b, key b <> key area_start -> leafv (words area_tree) T b = 0) /\
    words area_tree !! 0x50000 = Some area_start.
Proof.
  pose proof (insert_ok area_demo (seqZ 16 32) 0 ∅ area_box area_tinv area_box_ok) as H. cbv zeta in H.
  fold area_insert in H. rewrite area_insert_eq in H. destruct H as (P' & T' & H1 & H2 & H3 & H4 & _).
  exists P', T'. split_and!; [exact H1|exact H2|intros b Hb; by rewrite (H3 b Hb)|].
  rewrite (H4 0x50000); [reflexivity|]. apply area_box_ok.
Qed.

Lemma vma_remove_correct_witness :
  exists root' s', remove area_root area_start area_tree = Some ((true, root', [area_box]), s').
Proof.
  destruct area_tree_tinv as (P & T & Hv & Hl & _).
  destruct (vma_remove_correct area_tree P area_root T area_start area_box) as (root' & s' & P' & T' & H & _); [by left| |].
  - rewrite (lookup_ok _ _ _ _ (ri_tree _ _ _ _ Hv)), Hl. reflexivity.
  - exists root', s'. exact H.
Defined.

Lemma key_path a b : key a = key b -> kpath a = kpath b /\ radix_index a 0 = radix_index b 0.
Proof.
  intros Hk. pose proof (key_indices a) as Ha. pose proof (key_indices b) as Hb. unfold kpath.
  pose proof (radix_bound a 0). pose proof (radix_bound a 1). pose proof (radix_bound a 2). pose proof (radix_bound a 3).
  pose proof (radix_bound b 0). pose proof (radix_bound b 1). pose proof (radix_bound b 2). pose proof (radix_bound b 3).
  change (1024 ^ 2) with 1048576 in *. change (1024 ^ 3) with 1073741824 in *.
  assert (radix_index a 3 = radix_index b 3) by lia. assert (radix_index a 2 = radix_index b 2) by lia.
  assert (radix_index a 1 = radix_index b 1) by lia. split; [congruence|lia].
Qed.

Lemma find_covering_faults_witness : find_covering area_root (area_start + 8) area_tree = None.
Proof.
  destruct area_tree_tinv as (P & T & Hv & Hl & Hk & Hw).
  apply (find_covering_faults area_tree P area_root T (area_start + 8) area_start area_box).
  - by left.
  - intros b u Hb Hu. rewrite (lookup_ok _ _ _ _ (ri_tree _ _ _ _ Hv)) in Hb. apply some_pair_fst in Hb as <-.
    destruct (decide (key b = key area_start)) as [He|He]; [|by destruct (Hu (Hk b He))].
    destruct (key_path _ _ He) as [E1 E2]. assert (leafv (words area_tree) T b = area_box) as ->.
    { rewrite <-Hl. unfold leafv. by rewrite E1, E2. }
    split; [unfold area_box; lia|]. split; [done|]. change (area_box - HIGHER_HALF) with 0x50000. rewrite Hw.
    unfold area_start, HIGHER_HALF. cbn [from_option id]. lia.
  - rewrite (lookup_ok _ _ _ _ (ri_tree _ _ _ _ Hv)), Hl. reflexivity.
  - unfold area_box, HIGHER_HALF. lia.
Defined.

(** The page at 0x9000, referenced once, is copied on write. *)
Definition cow_run : option (bool * Virt) := resolve_cow 0 0x8000 0x401000 0x9805 virt_demo.

Definition cow_after : Virt := default virt_demo (snd <$> cow_run).

Definition cow_flag : bool := default false (fst <$> cow_run).

Lemma cow_flag_true : cow_flag = true.
Proof. vm_compute. reflexivity. Qed.

Lemma cow_run_eq : cow_run = Some (cow_flag, cow_after).
Proof. apply pair_default. vm_compute. reflexivity. Qed.

Local Opaque cow_after resolve_cow.

Lemma cow_page_leaks_witness : zone (vphys cow_after) = zone (snd (alloc_page demo)).
Proof.
  apply (cow_page_leaks 0 0x8000 0x401000 0x9805 virt_demo cow_after 0x17000 (snd (alloc_page demo))).
  - pose proof cow_run_eq as H. rewrite cow_flag_true in H. exact H.
  - vm_compute. reflexivity.
  - vm_compute. reflexivity.
  - vm_compute. reflexivity.
Defined.
