(* ===== verification/Exec.v ===== *)
(** The ELF loader of the kernel (src/kernel/src/exec.rs).

    The file is a list of bytes.  Structures are read at a byte offset; a read
    that leaves the file is the outcome [Oob], a panic is [Panic].  Segments
    are copied to physical memory through the direct map ([ebytes]); the areas
    passed to [ProcessMemory::add_vma] are recorded in [areas]. *)
From stdpp Require Import base tactics numbers list gmap.
From Stdlib Require Import ZArith Lia.
From S2P Require Import Prelude Phys KMem Percpu Virt Vma.

Local Open Scope Z_scope.
Local Open Scope word_scope.

Definition ELF_MAGIC : list Z := [0x7f; 69; 76; 70].
Definition ELFCLASS64 : Z := 2.
Definition ELFDATA2LSB : Z := 1.
Definition ET_EXEC : Z := 2.
Definition ET_DYN : Z := 3.
Definition PT_LOAD : Z := 1.
Definition PT_GNU_STACK : Z := 0x6474e551.
Definition PF_X : Z := 1.
Definition PF_W : Z := 2.
Definition X86_64 : Z := 0x3e.
Definition MAX_PTLOAD : nat := 32.

(** [size_of] of the three structures. *)
Definition EHDR_SIZE : Z := 64.
Definition PHDR_SIZE : Z := 56.
Definition SHDR_SIZE : Z := 64.

Inductive LoadError :=
  | InvalidMagic | NotElf64 | NotExecutable | WrongArch | BadHeader | NoMem | MapFailed | NoSymbolTable | MisalignedBinary.

(** ** The monad *)

Record Exec := mkExec { ev : Virt; ebytes : gmap Z Z; areas : list (Z * Z * VmaPerm) }.

Definition with_ev (s : Exec) (v : Virt) : Exec := mkExec v (ebytes s) (areas s).
Definition with_ebytes (s : Exec) (b : gmap Z Z) : Exec := mkExec (ev s) b (areas s).
Definition add_area (s : Exec) (a : Z * Z * VmaPerm) : Exec := mkExec (ev s) (ebytes s) (areas s ++ [a]).

Inductive Res (A : Type) := Ok (x : A) (s : Exec) | Err (e : LoadError) (s : Exec) | Oob | Panic.
Arguments Ok {A}.
Arguments Err {A}.
Arguments Oob {A}.
Arguments Panic {A}.

Definition EM (A : Type) : Type := Exec -> Res A.
Definition eret {A} (x : A) : EM A := Ok x.
Definition ebind {A B} (m : EM A) (k : A -> EM B) : EM B :=
  fun s => match m s with Ok x s' => k x s' | Err e s' => Err e s' | Oob => Oob | Panic => Panic end.
Definition throw {A} (e : LoadError) : EM A := Err e.
Definition epanic {A} : EM A := fun _ => Panic.
(** [if cond { return Err(e) }] *)
Definition refuse (cond : bool) (e : LoadError) : EM unit := if cond then throw e else eret tt.
(** [.ok_or(e)?] *)
Definition ok_or {A} (o : option A) (e : LoadError) : EM A := if o is Some x then eret x else throw e.
Definition emod (f : Exec -> Exec) : EM unit := fun s => Ok tt (f s).
Definition evm {A} (m : VM A) : EM A := fun s => match m (ev s) with Some (x, v) => Ok x (with_ev s v) | None => Panic end.

Declare Scope exec_scope.
Delimit Scope exec_scope with exec.
Notation "'let!' x := m 'in' k" := (ebind m (fun x => k)) (at level 200, x name, right associativity) : exec_scope.
Notation "m ;! k" := (ebind m (fun _ => k)) (at level 100, k at level 200, right associativity) : exec_scope.
Local Open Scope exec_scope.

(** A loop that threads a value. *)
Fixpoint efold {A B} (l : list A) (f : B -> A -> EM B) (acc : B) : EM B :=
  match l with
  | [] => eret acc
  | x :: l => let! acc := f acc x in efold l f acc
  end.

(** ** Bytes *)

Fixpoint le (l : list Z) : Z :=
  match l with
  | [] => 0
  | b :: l => b + 256 * le l
  end.

Definition field (st : list Z) (off n : nat) : Z := le (take n (drop off st)).

(** [ptr::read_unaligned(binary.as_ptr().add(off))] of [n] bytes. *)
Definition read_struct (b : list Z) (off n : Z) : EM (list Z) :=
  fun s => if (0 <=? off) && (off + n <=? Z.of_nat (length b)) then Ok (take (Z.to_nat n) (drop (Z.to_nat off) b)) s else Oob.

(** [copy_nonoverlapping] from the file to physical memory. *)
Definition write_at (m : gmap Z Z) (dst : Z) (l : list Z) : gmap Z Z :=
  fold_left (fun m p => <[dst + Z.of_nat (fst p) := snd p]> m) (imap pair l) m.
Definition copy_out (b : list Z) (src dst n : Z) : EM unit :=
  let! l := read_struct b src n in emod (fun s => with_ebytes s (write_at (ebytes s) dst l)).
Definition zero_out (dst n : Z) : EM unit :=
  emod (fun s => with_ebytes s (write_at (ebytes s) dst (replicate (Z.to_nat n) 0))).

(** ** Headers *)

Record Elf64Header := mkEhdr { e_entry : Z; phoff : Z; shoff : Z; phnum : Z; shnum : Z; shstrndx : Z }.
Record Elf64Phdr := mkPhdr { p_type : Z; p_flags : Z; p_offset : Z; p_vaddr : Z; p_filesz : Z; p_memsz : Z }.
Record Elf64Shdr := mkShdr { s_name : Z; s_offset : Z; s_size : Z; s_link : Z }.

Definition decode_phdr (st : list Z) : Elf64Phdr :=
  mkPhdr (field st 0 4) (field st 4 4) (field st 8 8) (field st 16 8) (field st 32 8) (field st 40 8).
Definition decode_shdr (st : list Z) : Elf64Shdr :=
  mkShdr (field st 0 4) (field st 24 8) (field st 32 8) (field st 40 4).

(** The header checks, in their order. *)
Definition check_header (b : list Z) : EM Elf64Header :=
  refuse (Z.of_nat (length b) <? EHDR_SIZE) InvalidMagic ;!
  let! st := read_struct b 0 EHDR_SIZE in
  refuse (negb (bool_decide (take 4 st = ELF_MAGIC))) InvalidMagic ;!
  refuse (negb (field st 4 1 =? ELFCLASS64) || negb (field st 5 1 =? ELFDATA2LSB)) NotElf64 ;!
  refuse (negb (field st 16 2 =? ET_EXEC) && negb (field st 16 2 =? ET_DYN)) NotExecutable ;!
  refuse (negb (field st 18 2 =? X86_64)) WrongArch ;!
  refuse (negb (field st 54 2 =? PHDR_SIZE)) BadHeader ;!
  eret (mkEhdr (field st 24 8) (field st 32 8) (field st 40 8) (field st 56 2) (field st 60 2) (field st 62 2)).

(** ** First pass *)

Definition page_align_down (x : Z) : Z := Z.land x (not64 0xFFF).
Definition page_align_up (x : Z) : Z := Z.land (x +u64 0xFFF) (not64 0xFFF).

Record Seg := mkSeg {
  seg_vaddr : Z; seg_load_vaddr : Z; seg_load_end : Z; seg_pages_count : Z; seg_flags : Z;
  seg_off : Z; seg_filesz : Z; seg_memsz : Z;
}.

Definition segment_flags (pflags : Z) : Z :=
  let f := Z.lor PRESENT USER in
  let f := if has pflags PF_W then Z.lor f WRITABLE else f in
  if has pflags PF_X then f else Z.lor f NO_EXECUTE.

Definition overlaps (load_vaddr load_end : Z) (g : Seg) : bool :=
  (load_vaddr <? seg_load_end g) && (seg_load_vaddr g <? load_end).

(** One program header; the accumulator is the segments so far and whether the
    stack is executable. *)
Definition collect_phdr (b : list Z) (hdr : Elf64Header) (acc : list Seg * bool) (i : Z) : EM (list Seg * bool) :=
  let '(segs, gnu_stack_exec) := acc in
  let off := phoff hdr +u64 (i *u64 PHDR_SIZE) in
  refuse (off +u64 PHDR_SIZE >? Z.of_nat (length b)) BadHeader ;!
  let! st := read_struct b off PHDR_SIZE in
  let phdr := decode_phdr st in
  if negb (p_type phdr =? PT_LOAD) then
    eret (segs, if p_type phdr =? PT_GNU_STACK then has (p_flags phdr) PF_X else gnu_stack_exec)
  else
    refuse (MAX_PTLOAD <=? length segs)%nat BadHeader ;!
    let! copy_end := ok_or (checked_add 64 (p_offset phdr) (p_filesz phdr)) BadHeader in
    refuse (copy_end >? Z.of_nat (length b)) BadHeader ;!
    let! seg_end := ok_or (checked_add 64 (p_vaddr phdr) (p_memsz phdr)) BadHeader in
    let load_vaddr := page_align_down (p_vaddr phdr) in
    let load_end := page_align_up seg_end in
    let pages := (load_end -u64 load_vaddr) / 0x1000 in
    refuse (existsb (overlaps load_vaddr load_end) segs) MapFailed ;!
    eret (segs ++ [mkSeg (p_vaddr phdr) load_vaddr load_end pages (segment_flags (p_flags phdr))
                     (p_offset phdr) (p_filesz phdr) (p_memsz phdr)], gnu_stack_exec).

Definition collect (b : list Z) (hdr : Elf64Header) : EM (list Seg * bool) :=
  efold (seqZ 0 (phnum hdr)) (collect_phdr b hdr) ([], false).

(** ** Second pass *)

Definition ealloc (pages : Z) : EM (option Z) :=
  fun s => let '(r, p) := alloc_pages (vphys (ev s)) pages in Ok r (with_ev s (with_vphys (ev s) p)).
Definition efree (addr pages : Z) : EM unit :=
  emod (fun s => with_ev s (with_vphys (ev s) (free_pages_range (vphys (ev s)) addr pages))).

(** Giving segments back; a segment is its address and pages. *)
Definition free_segs (l : list (Z * Z)) : EM unit :=
  efold l (fun _ p => if negb (fst p =? 0) && (snd p >? 0) then efree (fst p) (snd p) else eret tt) tt.

Definition segment_perm (flags : Z) : VmaPerm :=
  if has flags NO_EXECUTE then (if has flags WRITABLE then PReadWrite else PRead)
  else (if has flags WRITABLE then PReadWriteExecute else PReadExecute).

(** Bytes of the file into the segment, then zeros. *)
Definition fill_segment (b : list Z) (g : Seg) (phys : Z) : EM unit :=
  (if seg_filesz g >? 0
   then copy_out b (seg_off g) (phys + (seg_vaddr g - seg_load_vaddr g)) (seg_filesz g) else eret tt) ;!
  if seg_memsz g >? seg_filesz g
  then zero_out (phys + (seg_vaddr g + seg_filesz g - seg_load_vaddr g)) (seg_memsz g - seg_filesz g) else eret tt.

Definition load_segment (b : list Z) (pml4 : Z) (proc : bool) (done : list (Z * Z)) (g : Seg) : EM (list (Z * Z)) :=
  let! r := ealloc (seg_pages_count g) in
  match r with
  | None => free_segs done ;! throw NoMem
  | Some phys =>
    evm (map_contiguous pml4 (seg_load_vaddr g) phys (seg_pages_count g) (seg_flags g)) ;!
    let! bad := if has (seg_flags g) NO_EXECUTE then eret false else evm (is_nx pml4 (seg_load_vaddr g)) in
    if bad : bool then epanic
    else
      fill_segment b g phys ;!
      (if proc then emod (fun s => add_area s (page_align_down (seg_vaddr g),
         page_align_up (seg_vaddr g +u64 seg_memsz g), segment_perm (seg_flags g))) else eret tt) ;!
      eret (done ++ [(phys, seg_pages_count g)])
  end.

(** ** Symbol and string table *)

(** A table in memory: address and size; 0 is none yet. *)
Definition table_pages (size : Z) : Z := (size +u64 0xFFF) / 0x1000.
Definition free_table (t : Z * Z) : EM unit := if fst t =? 0 then eret tt else efree (fst t) (table_pages (snd t)).
Definition free_sym_str (symtab strtab : Z * Z) : EM unit := free_table symtab ;! free_table strtab.

Definition refuse_free (cond : bool) (symtab strtab : Z * Z) (e : LoadError) : EM unit :=
  if cond then free_sym_str symtab strtab ;! throw e else eret tt.

(** Copy a section into fresh pages. *)
Definition load_table (b : list Z) (sh : Elf64Shdr) (symtab strtab : Z * Z) : EM (Z * Z) :=
  let! end_ := ok_or (checked_add 64 (s_offset sh) (s_size sh)) BadHeader in
  refuse_free (end_ >? Z.of_nat (length b)) symtab strtab BadHeader ;!
  let! r := ealloc (table_pages (s_size sh)) in
  match r with
  | None => free_sym_str symtab strtab ;! throw NoMem
  | Some phys => copy_out b (s_offset sh) phys (s_size sh) ;! eret (phys, s_size sh)
  end.

Definition SYMTAB_NAME : list Z := [46; 115; 121; 109; 116; 97; 98].

(** One section header; the accumulator is the symbol table and the index of
    its string table. *)
Definition scan_section (b : list Z) (base : Z) (str_data : list Z) (acc : (Z * Z) * Z) (i : Z) : EM ((Z * Z) * Z) :=
  let '(symtab, strtab_idx) := acc in
  let off := base +u64 (i *u64 SHDR_SIZE) in
  refuse_free (off +u64 SHDR_SIZE >? Z.of_nat (length b)) symtab (0, 0) BadHeader ;!
  let! st := read_struct b off SHDR_SIZE in
  let sh := decode_shdr st in
  refuse_free (s_name sh >=? Z.of_nat (length str_data)) symtab (0, 0) BadHeader ;!
  if bool_decide (take 7 (drop (Z.to_nat (s_name sh)) str_data) = SYMTAB_NAME) then
    let! t := load_table b sh symtab (0, 0) in eret (t, s_link sh)
  else eret acc.

Definition find_tables (b : list Z) (hdr : Elf64Header) : EM ((Z * Z) * (Z * Z)) :=
  let len := Z.of_nat (length b) in
  let base := shoff hdr in
  let! tab_end := ok_or (checked_add 64 base (shnum hdr * SHDR_SIZE)) BadHeader in
  refuse (tab_end >? len) BadHeader ;!
  refuse (shstrndx hdr >=? shnum hdr) BadHeader ;!
  let shstr_off := base +u64 (shstrndx hdr *u64 SHDR_SIZE) in
  refuse (shstr_off +u64 SHDR_SIZE >? len) BadHeader ;!
  let! st := read_struct b shstr_off SHDR_SIZE in
  let shstr := decode_shdr st in
  let! str_data_end := ok_or (checked_add 64 (s_offset shstr) (s_size shstr)) BadHeader in
  refuse (str_data_end >? len) BadHeader ;!
  let! str_data := read_struct b (s_offset shstr) (s_size shstr) in
  let! acc := efold (seqZ 0 (shnum hdr)) (scan_section b base str_data) ((0, 0), 0) in
  let '(symtab, strtab_idx) := acc in
  let! strtab :=
    if strtab_idx =? 0 then eret (0, 0)
    else
      refuse_free (strtab_idx >=? shnum hdr) symtab (0, 0) BadHeader ;!
      let off := base +u64 (strtab_idx *u64 SHDR_SIZE) in
      refuse_free (off +u64 SHDR_SIZE >? len) symtab (0, 0) BadHeader ;!
      let! st := read_struct b off SHDR_SIZE in
      load_table b (decode_shdr st) symtab (0, 0) in
  refuse_free ((fst symtab =? 0) || (fst strtab =? 0)) symtab strtab NoSymbolTable ;!
  eret (symtab, strtab).

(** ** The loader *)

Record LoadResult := mkLoadResult {
  lr_entry : Z; lr_stack_top : Z; lr_pml4 : Z; lr_stack_pages : Z; lr_symtab_phys : Z; lr_symtab_size : Z; lr_strtab_phys : Z;
}.

Definition STACK_END : Z := 0x00007FFFFFFF0000.

(** The initial stack: its address and pages. *)
Definition load_stack (pml4 stack_size : Z) (gnu_stack_exec proc : bool) (done : list (Z * Z)) (symtab strtab : Z * Z) : EM (Z * Z) :=
  let stack_pages := page_align_up stack_size / 0x1000 in
  refuse (stack_pages =? 0) BadHeader ;!
  let stack_virt := STACK_END -u64 (stack_pages *u64 0x1000) in
  refuse ((stack_virt >=? HIGHER_HALF) || (stack_virt +u64 (stack_pages *u64 0x1000) >? STACK_END)) MapFailed ;!
  let! r := ealloc stack_pages in
  match r with
  | None => free_segs done ;! free_sym_str symtab strtab ;! throw NoMem
  | Some stack_phys =>
    let flags := if gnu_stack_exec then Z.lor (Z.lor PRESENT WRITABLE) USER else Z.lor DATA USER in
    evm (map_contiguous pml4 stack_virt stack_phys stack_pages flags) ;!
    (if proc then emod (fun s => add_area s (stack_virt, stack_virt +u64 (stack_pages *u64 0x1000),
       if gnu_stack_exec then PReadWriteExecute else PReadWrite)) else eret tt) ;!
    eret (stack_virt, stack_pages)
  end.

Definition load_elf (b : list Z) (stack_size : Z) (target_pml4 : option Z) (proc : bool) : EM LoadResult :=
  let! hdr := check_header b in
  fun s =>
  let pml4 := default (KERNEL_PML4 (ev s)) target_pml4 in
  (let! c := collect b hdr in
   let '(segs, gnu_stack_exec) := c in
   let! done := efold segs (load_segment b pml4 proc) [] in
   let! tabs := find_tables b hdr in
   let '(symtab, strtab) := tabs in
   let! st := load_stack pml4 stack_size gnu_stack_exec proc done symtab strtab in
   eret (mkLoadResult (e_entry hdr) (fst st +u64 (snd st *u64 0x1000)) pml4 (snd st)
     (fst symtab) (snd symtab) (fst strtab))) s.
