(* ===== verification/ExecThms.v ===== *)
(** Theorems of the ELF loader: reads stay in the file, segments do not
    overlap, and what is in memory after a successful load. *)
From stdpp Require Import base tactics numbers list gmap.
From Stdlib Require Import ZArith Lia.
From S2P Require Import Prelude Phys PhysInv PhysSpec PhysThms KMem Percpu Virt VirtTree VirtThms VmLaws Vma Exec.

Local Open Scope Z_scope.
Local Open Scope word_scope.
Local Open Scope exec_scope.

(** ** Reads stay in the file *)

Definition no_oob {A} (m : EM A) : Prop := forall s, m s <> Oob.

(** [m] stays in the file, and [k] does on the values [m] returns. *)
Lemma no_oob_bind {A B} (m : EM A) (k : A -> EM B) :
  no_oob m -> (forall x s s', m s = Ok x s' -> k x s' <> Oob) -> no_oob (ebind m k).
Proof. intros Hm Hk s. unfold ebind. specialize (Hm s). destruct (m s) eqn:E; try done. by eapply Hk. Qed.

Lemma no_oob_bind' {A B} (m : EM A) (k : A -> EM B) : no_oob m -> (forall x, no_oob (k x)) -> no_oob (ebind m k).
Proof. intros Hm Hk. apply no_oob_bind; [done|]. intros x s s' _. apply Hk. Qed.

Lemma no_oob_ret {A} (x : A) : no_oob (eret x).
Proof. by intros s. Qed.
Lemma no_oob_throw {A} e : no_oob (@throw A e).
Proof. by intros s. Qed.
Lemma no_oob_panic {A} : no_oob (@epanic A).
Proof. by intros s. Qed.
Lemma no_oob_mod f : no_oob (emod f).
Proof. by intros s. Qed.
Lemma no_oob_vm {A} (m : VM A) : no_oob (evm m).
Proof. intros s. unfold evm. by destruct (m (ev s)) as [[]|]. Qed.
Lemma no_oob_alloc n : no_oob (ealloc n).
Proof. intros s. unfold ealloc. by destruct (alloc_pages _ n). Qed.
Lemma no_oob_ok_or {A} (o : option A) e : no_oob (ok_or o e).
Proof. intros s. by destruct o. Qed.
Lemma no_oob_refuse c e : no_oob (refuse c e).
Proof. intros s. by destruct c. Qed.
Lemma no_oob_fold {A B} (l : list A) (f : B -> A -> EM B) acc :
  (forall acc x, x ∈ l -> no_oob (f acc x)) -> no_oob (efold l f acc).
Proof.
  revert acc. induction l as [|x l IH]; intros acc Hf; [apply no_oob_ret|]. cbn [efold].
  apply no_oob_bind'; [apply Hf; by left|]. intros acc'. apply IH. intros a y Hy. apply Hf. by right.
Qed.

(** A check before the rest: the rest may assume it passed. *)
Lemma no_oob_guard {B} c e (k : EM B) : (c = false -> no_oob k) -> no_oob (refuse c e ;! k).
Proof. intros Hk s. destruct c; [done|]. by apply Hk. Qed.

Lemma no_oob_checked {B} w a d e (k : Z -> EM B) :
  (a + d < 2 ^ w -> no_oob (k (a + d))) -> no_oob (ebind (ok_or (checked_add w a d) e) k).
Proof.
  intros Hk s. unfold checked_add. destruct (Z.ltb_spec (a + d) (2 ^ w)); [|done]. by apply Hk.
Qed.

Lemma no_oob_read b off n : 0 <= off -> off + n <= Z.of_nat (length b) -> no_oob (read_struct b off n).
Proof.
  intros H1 H2 s. unfold read_struct. rewrite (proj2 (Z.leb_le _ _)) by done. by rewrite (proj2 (Z.leb_le _ _)) by done.
Qed.

(** An invariant of the value a loop threads. *)
Lemma efold_inv {A B} (I : B -> Prop) (l : list A) (f : B -> A -> EM B) acc s r s' :
  (forall acc x s acc' s', x ∈ l -> I acc -> f acc x s = Ok acc' s' -> I acc') -> I acc -> efold l f acc s = Ok r s' -> I r.
Proof.
  revert acc s. induction l as [|x l IH]; intros acc s Hf Hacc; cbn [efold]; [by intros [= <- <-]|]. unfold ebind.
  destruct (f acc x s) as [acc' s1| | |] eqn:E; [|done..]. apply IH; [|by eapply (Hf acc x); [left|..]].
  intros a y t a' t' Hy. apply Hf. by right.
Qed.

(** Inversion of a run that succeeds. *)
Lemma bind_ok {A B} (m : EM A) (k : A -> EM B) s x s' : ebind m k s = Ok x s' -> exists y s1, m s = Ok y s1 /\ k y s1 = Ok x s'.
Proof. unfold ebind. destruct (m s) as [y s1| | |]; [|done..]. eauto. Qed.

Lemma refuse_ok {B} c e (k : EM B) s x s' : (refuse c e ;! k) s = Ok x s' -> c = false /\ k s = Ok x s'.
Proof. by destruct c. Qed.

Lemma checked_ok {B} w a d e (k : Z -> EM B) s x s' :
  ebind (ok_or (checked_add w a d) e) k s = Ok x s' -> a + d < 2 ^ w /\ k (a + d) s = Ok x s'.
Proof. unfold checked_add. by destruct (Z.ltb_spec (a + d) (2 ^ w)). Qed.

Create HintDb oob.
#[export] Hint Resolve no_oob_ret no_oob_throw no_oob_panic no_oob_mod no_oob_vm no_oob_alloc no_oob_ok_or no_oob_refuse : oob.

Lemma le_bound l : Forall (fun b => 0 <= b < 256) l -> 0 <= le l < 256 ^ Z.of_nat (length l).
Proof.
  induction l as [|b l IH]; intros Hl; [simpl; lia|]. apply Forall_cons in Hl as [Hb Hl]. specialize (IH Hl). cbn [le].
  simpl length. rewrite Nat2Z.inj_succ, Z.pow_succ_r by lia. nia.
Qed.

Lemma field_bound st off n : Forall (fun b => 0 <= b < 256) st -> 0 <= field st off n < 256 ^ Z.of_nat n.
Proof.
  intros Hst. unfold field. pose proof (le_bound (take n (drop off st))) as H.
  destruct H as [H1 H2]; [by apply Forall_take, Forall_drop|]. split; [done|]. eapply Z.lt_le_trans; [exact H2|].
  apply Z.pow_le_mono_r; [lia|]. rewrite length_take. lia.
Qed.

(** The bytes a read returns are bytes of the file. *)
Lemma read_struct_bytes b off n s st s' :
  Forall (fun b => 0 <= b < 256) b -> read_struct b off n s = Ok st s' -> Forall (fun b => 0 <= b < 256) st /\ s' = s.
Proof. intros Hb. unfold read_struct. destruct (_ && _); [|done]. intros [= <- <-]. split; [by apply Forall_take, Forall_drop|done]. Qed.

Lemma no_oob_free_sym_str t u : no_oob (free_sym_str t u).
Proof. unfold free_sym_str, free_table, efree. apply no_oob_bind'; intros; case_match; auto with oob. Qed.

Lemma no_oob_refuse_free {B} c t u e (k : EM B) : (c = false -> no_oob k) -> no_oob (refuse_free c t u e ;! k).
Proof.
  intros Hk. unfold refuse_free. destruct c; [|intros s; by apply Hk]. intros s. unfold ebind, throw.
  pose proof (no_oob_free_sym_str t u s). by destruct (free_sym_str t u s).
Qed.

Lemma no_oob_copy b src dst n : 0 <= src -> src + n <= Z.of_nat (length b) -> no_oob (copy_out b src dst n).
Proof. intros. apply no_oob_bind'; [by apply no_oob_read|]. auto with oob. Qed.

Section file.
Context (b : list Z).
Hypothesis Hb : Forall (fun x => 0 <= x < 256) b.
Hypothesis Hlen : Z.of_nat (length b) < 2 ^ 63.

Lemma no_oob_load_table st t u : Forall (fun x => 0 <= x < 256) st -> no_oob (load_table b (decode_shdr st) t u).
Proof.
  intros Hst. pose proof (field_bound st 24 8 Hst). unfold load_table. apply no_oob_checked. intros _.
  apply no_oob_refuse_free. intros Hend. apply no_oob_bind'; [auto with oob|]. intros [phys|].
  - apply no_oob_bind'; [|auto with oob]. apply no_oob_copy; [apply (field_bound st 24 8 Hst)|].
    revert Hend. rewrite Z.gtb_ltb. intros Hend%Z.ltb_ge. done.
  - apply no_oob_bind'; [apply no_oob_free_sym_str|auto with oob].
Qed.

Lemma no_oob_scan base n str acc i :
  0 <= base -> base + n * SHDR_SIZE <= Z.of_nat (length b) -> 0 <= i < n -> no_oob (scan_section b base str acc i).
Proof.
  intros Hb0 Hn Hi. unfold SHDR_SIZE in *. unfold scan_section. destruct acc as [symtab idx].
  assert (base +u64 (i *u64 SHDR_SIZE) = base + i * 64) as ->.
  { unfold SHDR_SIZE. rewrite (wrap_small 64 (i * 64)) by lia. apply wrap_small. lia. }
  apply no_oob_refuse_free. intros _. apply no_oob_bind; [apply no_oob_read; unfold SHDR_SIZE; lia|].
  intros st s s' Hr. apply (read_struct_bytes b _ _ _ _ _ Hb) in Hr as [Hst ->]. apply no_oob_refuse_free. intros _.
  case_bool_decide; [|apply no_oob_ret]. apply no_oob_bind'; [by apply no_oob_load_table|auto with oob].
Qed.

Lemma scan_index base str acc i s acc' s' : 0 <= snd acc -> scan_section b base str acc i s = Ok acc' s' -> 0 <= snd acc'.
Proof.
  intros Hacc. unfold scan_section. destruct acc as [symtab idx]. unfold ebind at 1. destruct (refuse_free _ _ _ _ s) as [[] s1| | |]; [|done..].
  unfold ebind at 1. destruct (read_struct b _ _ s1) as [st s2| | |] eqn:Er; [|done..].
  apply (read_struct_bytes b _ _ _ _ _ Hb) in Er as [Hst ->].
  unfold ebind at 1. destruct (refuse_free _ _ _ _ s1) as [[] s3| | |]; [|done..]. case_bool_decide; [|by intros [= <- <-]].
  unfold ebind. destruct (load_table _ _ _ _ s3); [|done..]. intros [= <- <-]. apply (field_bound st 40 4 Hst).
Qed.

Lemma no_oob_tables hdr :
  0 <= shoff hdr -> 0 <= shnum hdr < 2 ^ 16 -> 0 <= shstrndx hdr -> no_oob (find_tables b hdr).
Proof.
  intros Hsh Hn Hx. unfold find_tables. cbv zeta. apply no_oob_checked. intros _. apply no_oob_guard. rewrite Z.gtb_ltb. intros Htab%Z.ltb_ge.
  unfold SHDR_SIZE in *. apply no_oob_guard. rewrite Z.geb_leb. intros Hidx%Z.leb_gt.
  assert (forall i, 0 <= i < shnum hdr -> shoff hdr +u64 (i *u64 64) = shoff hdr + i * 64) as Hoff.
  { intros i Hi. rewrite (wrap_small 64 (i * 64)) by lia. apply wrap_small. lia. }
  rewrite Hoff by lia. apply no_oob_guard. intros _. apply no_oob_bind; [apply no_oob_read; lia|].
  intros st s s' Hr. apply (read_struct_bytes b _ _ _ _ _ Hb) in Hr as [Hst ->].
  apply no_oob_checked. intros _. apply no_oob_guard. rewrite Z.gtb_ltb. intros Hstr%Z.ltb_ge.
  apply no_oob_bind'; [apply no_oob_read; [apply (field_bound st 24 8 Hst)|exact Hstr]|]. intros str. apply no_oob_bind.
  - apply no_oob_fold. intros acc i Hi%elem_of_seqZ. apply (no_oob_scan _ (shnum hdr)); unfold SHDR_SIZE; lia.
  - intros [symtab idx] s1 s2 Hf. apply (efold_inv (fun acc => 0 <= snd acc)) in Hf; [|intros; by eapply scan_index|done]. simpl in Hf.
    apply no_oob_bind'; [|intros strtab; apply no_oob_refuse_free; intros _; apply no_oob_ret].
    destruct (idx =? 0); [apply no_oob_ret|]. apply no_oob_refuse_free. rewrite Z.geb_leb. intros Hi%Z.leb_gt.
    rewrite Hoff by lia. apply no_oob_refuse_free. intros _. apply no_oob_bind; [apply no_oob_read; lia|].
    intros st' t t' Hr'. apply (read_struct_bytes b _ _ _ _ _ Hb) in Hr' as [Hst' ->]. by apply no_oob_load_table.
Qed.

(** What the first pass knows of a segment. *)
Definition seg_ok (g : Seg) : Prop :=
  0 <= seg_off g /\ 0 <= seg_filesz g /\ seg_off g + seg_filesz g <= Z.of_nat (length b) /\ 0 <= seg_vaddr g /\ 0 <= seg_memsz g /\
  seg_vaddr g + seg_memsz g < 2 ^ 64 /\ seg_load_vaddr g = page_align_down (seg_vaddr g) /\
  seg_load_end g = page_align_up (seg_vaddr g + seg_memsz g) /\
  seg_pages_count g = (seg_load_end g -u64 seg_load_vaddr g) / 0x1000.

Definition segs_ok (segs : list Seg) : Prop :=
  (length segs <= MAX_PTLOAD)%nat /\ Forall seg_ok segs /\
  (forall i j g g', (i < j)%nat -> segs !! i = Some g -> segs !! j = Some g' ->
     overlaps (seg_load_vaddr g') (seg_load_end g') g = false).

Lemma collect_step hdr acc i s acc' s' :
  segs_ok (fst acc) -> collect_phdr b hdr acc i s = Ok acc' s' -> segs_ok (fst acc') /\ s' = s.
Proof.
  destruct acc as [segs gnu]. intros Hok. unfold collect_phdr. intros [_ H]%refuse_ok.
  apply bind_ok in H as (st & s1 & Er & H). apply (read_struct_bytes b _ _ _ _ _ Hb) in Er as [Hst ->].
  destruct (negb _); [injection H as <- <-; done|]. apply refuse_ok in H as [Hn H]. apply checked_ok in H as [H1 H].
  apply refuse_ok in H as [H2 H]. apply checked_ok in H as [H3 H]. cbv zeta in H. apply refuse_ok in H as [Eo H]. injection H as <- <-.
  split; [|done]. simpl. apply Nat.leb_gt in Hn. rewrite Z.gtb_ltb in H2. apply Z.ltb_ge in H2.
  pose proof (field_bound st 8 8 Hst). pose proof (field_bound st 16 8 Hst). pose proof (field_bound st 32 8 Hst). pose proof (field_bound st 40 8 Hst).
  simpl in H1, H2, H3.
  destruct Hok as (Hl & Hall & Hdis). split_and!.
  - rewrite length_app. simpl. lia.
  - apply Forall_app. split; [done|]. apply Forall_singleton. unfold seg_ok. simpl. tauto.
  - intros k j g g' Hkj Hk Hj. apply lookup_app_Some in Hj as [Hj|[Hj1 Hj2]].
    + rewrite lookup_app_l in Hk by (apply lookup_lt_Some in Hj; lia). by eapply Hdis.
    + apply list_lookup_singleton_Some in Hj2 as [Hj2 <-]. rewrite lookup_app_l in Hk by lia. simpl.
      destruct (overlaps _ _ g) eqn:Eg; [|done]. rewrite <-Eo. symmetry. apply existsb_exists. exists g. split; [|done].
      apply list_elem_of_In. by eapply list_elem_of_lookup_2.
Qed.

Lemma efold_state {A B} (I : B -> Prop) (l : list A) (f : B -> A -> EM B) acc s r s' :
  (forall acc x s acc' s', I acc -> f acc x s = Ok acc' s' -> I acc' /\ s' = s) -> I acc -> efold l f acc s = Ok r s' -> I r /\ s' = s.
Proof.
  intros Hf. revert acc s. induction l as [|x l IH]; intros acc s Hacc; cbn [efold]; [by intros [= <- <-]|]. unfold ebind.
  destruct (f acc x s) as [acc' s1| | |] eqn:E; [|done..]. destruct (Hf _ _ _ _ _ Hacc E) as [Hacc' ->]. by apply IH.
Qed.

Lemma collect_ok hdr s segs gnu s' : collect b hdr s = Ok (segs, gnu) s' -> segs_ok segs /\ s' = s.
Proof.
  intros H. apply (efold_state (fun acc => segs_ok (fst acc))) in H; [done|intros; by eapply collect_step|].
  split_and!; [simpl; unfold MAX_PTLOAD; lia|constructor|]. by intros i j g g' _ [=].
Qed.

Lemma no_oob_collect hdr :
  0 <= phoff hdr -> 0 <= phnum hdr -> phoff hdr + phnum hdr * PHDR_SIZE < 2 ^ 64 -> no_oob (collect b hdr).
Proof.
  intros Hp Hn Hw. unfold PHDR_SIZE in Hw. apply no_oob_fold. intros [segs gnu] i Hi%elem_of_seqZ. unfold collect_phdr.
  assert (phoff hdr +u64 (i *u64 PHDR_SIZE) = phoff hdr + i * 56) as ->.
  { unfold PHDR_SIZE. rewrite (wrap_small 64 (i * 56)) by lia. apply wrap_small. lia. }
  rewrite wrap_small by (unfold PHDR_SIZE; lia). apply no_oob_guard. rewrite Z.gtb_ltb. intros Hend%Z.ltb_ge.
  apply no_oob_bind'; [apply no_oob_read; [lia|done]|]. intros st. case_match; [apply no_oob_ret|].
  repeat (first [apply no_oob_guard; intros _|apply no_oob_checked; intros _]). apply no_oob_ret.
Qed.

Lemma no_oob_free_segs l : no_oob (free_segs l).
Proof. apply no_oob_fold. intros acc x _. unfold efree. case_match; auto with oob. Qed.

Lemma no_oob_load_segment pml4 proc done g : seg_ok g -> no_oob (load_segment b pml4 proc done g).
Proof.
  intros (H1 & H2 & H3 & _). unfold load_segment. apply no_oob_bind'; [auto with oob|]. intros [phys|].
  - apply no_oob_bind'; [auto with oob|]. intros _. apply no_oob_bind'; [case_match; auto with oob|]. intros [|]; [auto with oob|].
    apply no_oob_bind'; [|intros _; apply no_oob_bind'; [case_match|]; auto with oob].
    unfold fill_segment, zero_out. apply no_oob_bind'; [|intros _]; (case_match; [|auto with oob]); [by apply no_oob_copy|auto with oob].
  - apply no_oob_bind'; [apply no_oob_free_segs|auto with oob].
Qed.

Lemma no_oob_stack pml4 size gnu proc done t u : no_oob (load_stack pml4 size gnu proc done t u).
Proof.
  unfold load_stack. do 2 (apply no_oob_guard; intros _). apply no_oob_bind'; [auto with oob|]. intros [phys|].
  - apply no_oob_bind'; [auto with oob|]. intros _. apply no_oob_bind'; [case_match|]; auto with oob.
  - apply no_oob_bind'; [apply no_oob_free_segs|]. intros _. apply no_oob_bind'; [apply no_oob_free_sym_str|auto with oob].
Qed.
End file.

Lemma no_oob_check_header b : no_oob (check_header b).
Proof.
  unfold check_header. apply no_oob_guard. intros Hl%Z.ltb_ge. apply no_oob_bind'; [apply no_oob_read; [lia|done]|]. intros st.
  repeat (apply no_oob_guard; intros _). apply no_oob_ret.
Qed.

(** C17: The loader never reads outside the file, whatever bytes it is given, as long
    as the program header table does not wrap around the address space: every
    structure and every copied range lies within the file. *)
Theorem load_elf_in_bounds b stack_size target proc s :
  Forall (fun x => 0 <= x < 256) b -> Z.of_nat (length b) < 2 ^ 63 ->
  (forall hdr s1, check_header b s = Ok hdr s1 -> phoff hdr + phnum hdr * PHDR_SIZE < 2 ^ 64) ->
  load_elf b stack_size target proc s <> Oob.
Proof.
  intros Hb Hlen Hph. unfold load_elf, ebind at 1. destruct (check_header b s) as [hdr s1| | |] eqn:Eh; [| |exfalso|]; try done.
  - specialize (Hph hdr s1 eq_refl). assert (0 <= phoff hdr /\ 0 <= phnum hdr /\ 0 <= shoff hdr /\ 0 <= shnum hdr < 2 ^ 16 /\ 0 <= shstrndx hdr) as (H1 & H2 & H3 & H4 & H5).
    { unfold check_header in Eh. apply refuse_ok in Eh as [_ Eh]. apply bind_ok in Eh as (st & s2 & Er & Eh).
      apply (read_struct_bytes b _ _ _ _ _ Hb) in Er as [Hst ->]. do 5 apply refuse_ok in Eh as [_ Eh]. injection Eh as <- <-. simpl.
      pose proof (field_bound st 32 8 Hst). pose proof (field_bound st 56 2 Hst). pose proof (field_bound st 40 8 Hst).
      pose proof (field_bound st 60 2 Hst). pose proof (field_bound st 62 2 Hst). simpl in *. lia. }
    apply no_oob_bind; [by apply no_oob_collect|]. intros [segs gnu] t t' Hc. apply (collect_ok b Hb) in Hc as [(_ & Hsegs & _) ->].
    apply no_oob_bind'; [apply no_oob_fold; intros d g Hg; apply no_oob_load_segment; by eapply Forall_forall in Hsegs|].
    intros done_. apply no_oob_bind'; [by apply no_oob_tables|]. intros [symtab strtab]. apply no_oob_bind'; [apply no_oob_stack|].
    intros st. apply no_oob_ret.
  - by apply (no_oob_check_header b s).
Qed.

(** A file of one header whose program header table starts 8 bytes before the end
    of the address space. *)
Definition wrapping_elf : list Z :=
  ELF_MAGIC ++ [2; 1; 1; 0] ++ replicate 8 0 ++ [2; 0; 0x3e; 0; 1; 0; 0; 0] ++ replicate 8 0 ++
  [0xF8; 0xFF; 0xFF; 0xFF; 0xFF; 0xFF; 0xFF; 0xFF] ++ replicate 14 0 ++ [56; 0; 1; 0] ++ replicate 6 0.

(** Without that condition it does read outside: the bounds check of a program
    header adds without overflow check, so a table offset just below 2^64 passes it
    and the header is read from before the file. *)
Theorem load_elf_wrapping_table s : length wrapping_elf = 64%nat /\ load_elf wrapping_elf 0x4000 None false s = Oob.
Proof. split; [reflexivity|]. vm_compute. reflexivity. Qed.

(** ** Memory after a load *)

Lemma write_at_lookup m dst l a :
  write_at m dst l !! a = if decide (dst <= a < dst + Z.of_nat (length l)) then l !! Z.to_nat (a - dst) else m !! a.
Proof.
  unfold write_at. revert m a. induction l as [|x l IH] using rev_ind; intros m a.
  { simpl. rewrite decide_False by lia. done. }
  rewrite imap_app, fold_left_app. simpl. rewrite Nat.add_0_r, length_app. simpl.
  destruct (decide (a = dst + Z.of_nat (length l))) as [->|Hne].
  - rewrite lookup_insert_eq, decide_True by lia. rewrite lookup_app_r by lia.
    replace (Z.to_nat (dst + Z.of_nat (length l) - dst) - length l)%nat with 0%nat by lia. done.
  - rewrite lookup_insert_ne, IH by done. repeat case_decide; try lia; [|done]. rewrite lookup_app_l by lia. done.
Qed.

(** The bytes a segment must have at its frames. *)
Definition seg_loaded (b : list Z) (m : gmap Z Z) (g : Seg) (d : Z * Z) : Prop :=
  let base := fst d + (seg_vaddr g - seg_load_vaddr g) in
  (forall k, 0 <= k < seg_filesz g -> m !! (base + k) = b !! Z.to_nat (seg_off g + k)) /\
  (forall k, seg_filesz g <= k < seg_memsz g -> m !! (base + k) = Some 0).

(** Segments as linkers make them: no more bytes in the file than in memory, and
    not within the last page of the address space. *)
Definition seg_sane (g : Seg) : Prop := seg_filesz g <= seg_memsz g /\ seg_vaddr g + seg_memsz g <= 2 ^ 64 - 4096.

Definition run_pages (d : Z * Z) : list Z := range_pages (fst d) (fst d + snd d * 4096).

Section frames.
(** The pages that were free and the memory at the start. *)
Context (P0 : list Z) (M0 : gmap Z Z).

(** The frames given to the program so far, and the free pages; no byte outside the pages that were free has changed. *)
Definition owns (s : Exec) (D : list (Z * Z)) : Prop :=
  exists P, phys_inv (vphys (ev s)) P /\ (NoDup P0 /\ (D ≫= run_pages) ++ P ⊆+ P0) /\
    (Forall (fun d => 0 < fst d /\ fst d mod 4096 = 0 /\ 0 <= snd d) D /\ forall a, a / 4096 ∉ P0 -> ebytes s !! a = M0 !! a).

Lemma owns_vm {A} (m : VM A) s D x s' : takes m -> owns s D -> evm m s = Ok x s' -> owns s' D /\ ebytes s' = ebytes s.
Proof.
  intros Hm (P & Hinv & (Hnd & HP) & HD). unfold evm. destruct (m (ev s)) as [[y v]|] eqn:E; [|done]. intros [= <- <-]. split; [|done].
  destruct (Hm _ P _ _ Hinv E) as (P' & Hs & Hinv'). exists P'. split; [done|]. split; [split; [done|]|done].
  etrans; [|exact HP]. by apply submseteq_skips_l.
Qed.

Lemma alloc_pages_some p P n a p' :
  phys_inv p P -> 0 <= n -> alloc_pages p n = (Some a, p') ->
  1 <= n /\ 0 < a /\ a mod 4096 = 0 /\ exists P', phys_inv p' P' /\ range_pages a (a + n * 4096) ++ P' ⊆+ P.
Proof.
  intros Hinv Hn He. assert (1 <= n <= 1024) as Hb.
  { unfold alloc_pages in He. destruct (Z.eqb_spec n 0); [done|]. destruct (Z.eqb_spec n 1); [lia|].
    rewrite Z.gtb_ltb in He. destruct (Z.ltb_spec (Z.shiftl 1 (Z.of_nat MAX_ORDER)) n) as [|Hle]; [done|].
    change (Z.shiftl 1 (Z.of_nat MAX_ORDER)) with 1024 in Hle. lia. }
  pose proof (alloc_pages_inv p P n Hinv Hb) as Ha. rewrite He in Ha. destruct Ha as (H1 & H2 & P' & H3 & H4 & _).
  split; [lia|]. split; [done|]. split; [done|]. by exists P'.
Qed.

Lemma owns_alloc s D n r s' :
  0 <= n -> owns s D -> ealloc n s = Ok r s' ->
  ebytes s' = ebytes s /\ if r is Some a then 1 <= n /\ owns s' ((a, n) :: D) else True.
Proof.
  intros Hn (P & Hinv & (Hnd & HP) & HD). unfold ealloc. destruct (alloc_pages _ n) as [[a|] p'] eqn:E; intros [= <- <-]; (split; [done|]); [|done].
  destruct (alloc_pages_some _ P n a p' Hinv Hn E) as (H1 & H2 & H3 & P' & Hinv' & Hsub). split; [done|]. exists P'. split; [done|]. split; [split; [done|]|].
  - rewrite bind_cons. unfold run_pages at 1. cbn [fst snd]. etrans; [|exact HP].
    transitivity ((D ≫= run_pages) ++ range_pages a (a + n * 4096) ++ P'); [|by apply submseteq_skips_l].
    rewrite <-(assoc_L (++)). by rewrite (assoc_L (++)), (comm (++) (range_pages _ _)), <-(assoc_L (++)).
  - destruct HD as [HD Hm]. split; [|exact Hm]. constructor; [|done]. simpl. lia.
Qed.

Lemma owns_perm s D D' : D ≡ₚ D' -> owns s D -> owns s D'.
Proof. intros Hp (P & H1 & H2 & H3). exists P. by rewrite <-Hp. Qed.

(** Addresses of a run of frames. *)
Definition in_run (d : Z * Z) (a : Z) : Prop := fst d <= a < fst d + snd d * 4096.

Lemma in_run_page d a : fst d mod 4096 = 0 -> in_run d a -> a / 4096 ∈ run_pages d.
Proof.
  intros Hm [H1 H2]. unfold run_pages, range_pages, PAGE_SIZE. apply elem_of_seqZ.
  replace (fst d + snd d * 4096 - fst d) with (snd d * 4096) by lia. rewrite Z.div_mul by lia. div_lia.
Qed.

Lemma owns_disjoint s D d d' a : owns s (d :: D) -> d' ∈ D -> in_run d' a -> ~ in_run d a.
Proof.
  intros (P & _ & (Hnd0 & HP) & HD) Hd' Ha' Ha. pose proof (submseteq_NoDup _ _ HP Hnd0) as Hnd. rewrite bind_cons, <-(assoc_L (++)) in Hnd. apply NoDup_app in Hnd as (_ & Hdis & _).
  destruct HD as [HD _]. apply Forall_cons in HD as [(_ & Hm & _) HD]. rewrite Forall_forall in HD. destruct (HD d' Hd') as (_ & Hm' & _).
  apply (Hdis (a / 4096)); [by apply in_run_page|]. apply elem_of_app. left. apply list_elem_of_bind. exists d'. split; [by apply in_run_page|done].
Qed.

(** Writing into frames of the program. *)
Lemma owns_write s s' D d :
  owns s D -> d ∈ D -> ev s' = ev s -> (forall a, ~ in_run d a -> ebytes s' !! a = ebytes s !! a) -> owns s' D.
Proof.
  intros (P & Hinv & (Hnd & HP) & HD & Hm) Hd Ev Hf. exists P. rewrite Ev. split; [done|]. split; [done|]. split; [done|].
  intros a Ha. rewrite Hf; [by apply Hm|]. intros Hr. apply Ha. eapply elem_of_submseteq; [|exact HP]. apply elem_of_app. left.
  apply list_elem_of_bind. exists d. split; [|done]. apply in_run_page; [|done]. rewrite Forall_forall in HD. by apply HD.
Qed.

(** A segment lies within its frames. *)
Lemma seg_inside b g ph k :
  seg_ok b g -> seg_sane g -> 0 <= k < seg_memsz g ->
  in_run (ph, seg_pages_count g) (ph + (seg_vaddr g - seg_load_vaddr g) + k) /\ 0 <= seg_pages_count g.
Proof.
  intros (_ & _ & _ & Hv & Hm & _ & H1 & H2 & H3) [_ Htop] Hk. unfold page_align_down, page_align_up in *.
  change 0xFFF with (2 ^ 12 - 1) in *. rewrite land_not64 in H1 by lia.
  rewrite wrap_small, land_not64 in H2 by lia. change (2 ^ 12) with 4096 in *.
  rewrite wrap_small in H3 by div_lia. unfold in_run. simpl. rewrite H3. div_lia.
Qed.

Definition placed (b : list Z) (m : gmap Z Z) (g : Seg) (d : Z * Z) : Prop :=
  seg_ok b g /\ seg_sane g /\ snd d = seg_pages_count g /\ seg_loaded b m g d.

Lemma placed_frame b m m' g d : placed b m g d -> (forall a, in_run d a -> m' !! a = m !! a) -> placed b m' g d.
Proof.
  intros (Hok & Hsane & Hd & H1 & H2) Hf. split_and!; [done|done|done|]. destruct d as [ph n]. simpl in Hd. subst n.
  assert (forall k, 0 <= k < seg_memsz g -> m' !! (ph + (seg_vaddr g - seg_load_vaddr g) + k) = m !! (ph + (seg_vaddr g - seg_load_vaddr g) + k)) as Hk.
  { intros k Hk. apply Hf. by apply (seg_inside b). }
  destruct Hsane as [Hs _]. destruct Hok as (_ & Hfz & _). split; intros k Hk'; cbn [fst]; (rewrite Hk; [|lia]); auto.
Qed.

Lemma read_ok b off n s st s' : read_struct b off n s = Ok st s' -> 0 <= n -> st = take (Z.to_nat n) (drop (Z.to_nat off) b) /\ s' = s /\ Z.of_nat (length st) = n.
Proof.
  unfold read_struct. destruct (Z.leb_spec 0 off); [|done]. destruct (Z.leb_spec (off + n) (Z.of_nat (length b))); [|done].
  intros [= <- <-] Hn. split_and!; [done|done|]. rewrite length_take, length_drop. lia.
Qed.

Lemma copy_ok b src dst n s u s' :
  0 <= src -> 0 <= n -> copy_out b src dst n s = Ok u s' ->
  ev s' = ev s /\ (forall k, 0 <= k < n -> ebytes s' !! (dst + k) = b !! Z.to_nat (src + k)) /\
  (forall a, ~ dst <= a < dst + n -> ebytes s' !! a = ebytes s !! a).
Proof.
  intros Hs Hn H. apply bind_ok in H as (l & s1 & Hr & H). apply read_ok in Hr as (-> & -> & Hl); [|done]. injection H as <- <-.
  split; [done|]. cbn [ebytes with_ebytes]. split.
  - intros k Hk. rewrite write_at_lookup, decide_True by lia. rewrite lookup_take_lt, lookup_drop by lia. f_equal. lia.
  - intros a Ha. rewrite write_at_lookup, decide_False by lia. done.
Qed.

Lemma fill_ok b g ph s u s' :
  seg_ok b g -> seg_sane g -> fill_segment b g ph s = Ok u s' ->
  ev s' = ev s /\ placed b (ebytes s') g (ph, seg_pages_count g) /\
  (forall a, ~ in_run (ph, seg_pages_count g) a -> ebytes s' !! a = ebytes s !! a).
Proof.
  intros Hok Hsane H. pose proof Hok as (Ho & Hf & _ & _ & Hm & _). pose proof Hsane as [Hfm _].
  set (base := ph + (seg_vaddr g - seg_load_vaddr g)) in *.
  apply bind_ok in H as ([] & s1 & H1 & H2).
  assert (ev s1 = ev s /\ (forall k, 0 <= k < seg_filesz g -> ebytes s1 !! (base + k) = b !! Z.to_nat (seg_off g + k)) /\
    (forall a, ~ base <= a < base + seg_filesz g -> ebytes s1 !! a = ebytes s !! a)) as (E1 & C1 & F1).
  { rewrite Z.gtb_ltb in H1. destruct (Z.ltb_spec 0 (seg_filesz g)); [by eapply copy_ok|]. injection H1 as <-. split_and!; [done|lia|done]. }
  assert (ev s' = ev s1 /\ (forall k, seg_filesz g <= k < seg_memsz g -> ebytes s' !! (base + k) = Some 0) /\
    (forall a, ~ base + seg_filesz g <= a < base + seg_memsz g -> ebytes s' !! a = ebytes s1 !! a)) as (E2 & C2 & F2).
  { rewrite Z.gtb_ltb in H2. destruct (Z.ltb_spec (seg_filesz g) (seg_memsz g)); [|injection H2 as <- <-; split_and!; [done|lia|done]].
    injection H2 as <- <-. split; [done|]. cbn [ebytes with_ebytes].
    replace (ph + (seg_vaddr g + seg_filesz g - seg_load_vaddr g)) with (base + seg_filesz g) by lia. split.
    - intros k Hk. rewrite write_at_lookup, length_replicate, decide_True by lia. apply lookup_replicate. split; [done|lia].
    - intros a Ha. rewrite write_at_lookup, length_replicate, decide_False by lia. done. }
  split; [congruence|]. split.
  - split_and!; [done|done|done|]. split; cbn [fst]; fold base; [|done]. intros k Hk. rewrite F2 by lia. by apply C1.
  - intros a Ha. rewrite F2, F1; [done| |]; intros Hr; apply Ha; replace a with (base + (a - base)) by lia; apply (seg_inside b); (done || lia).
Qed.

Lemma Forall2_impl_elem {A B} (P Q : A -> B -> Prop) l k :
  Forall2 P l k -> (forall x y, y ∈ k -> P x y -> Q x y) -> Forall2 Q l k.
Proof. induction 1; intros HQ; constructor; [|apply IHForall2]; intros; apply HQ; (done || by constructor). Qed.

Lemma load_segment_ok b pml4 proc done g s r s' segs :
  seg_ok b g -> seg_sane g -> owns s done -> Forall2 (placed b (ebytes s)) segs done ->
  load_segment b pml4 proc done g s = Ok r s' -> owns s' r /\ Forall2 (placed b (ebytes s')) (segs ++ [g]) r.
Proof.
  intros Hok Hsane Hown Hpl H. apply bind_ok in H as (al & s1 & Ha & H).
  assert (0 <= seg_pages_count g) as Hpc.
  { destruct Hok as (_ & _ & _ & _ & _ & _ & _ & _ & ->). pose proof (wrap_bound 64 (seg_load_end g - seg_load_vaddr g) ltac:(lia)). div_lia. }
  destruct (owns_alloc s done _ al s1 Hpc Hown Ha) as [Eb Hown1].
  destruct al as [ph|]; [|apply bind_ok in H as (? & ? & _ & H); done]. destruct Hown1 as [_ Hown1].
  apply bind_ok in H as ([] & s2 & Hmap & H). destruct (owns_vm _ _ _ _ _ (takes_map_contiguous _ _ _ _ _) Hown1 Hmap) as [Hown2 Eb2].
  apply bind_ok in H as (bad & s3 & Hnx & H).
  assert (owns s3 ((ph, seg_pages_count g) :: done) /\ ebytes s3 = ebytes s2) as [Hown3 Eb3].
  { destruct (has (seg_flags g) NO_EXECUTE); [by injection Hnx as <- <-|]. eapply owns_vm; [|done..]. apply takes_keeps, keeps_is_nx. }
  destruct bad; [done|]. apply bind_ok in H as ([] & s4 & Hfill & H).
  destruct (fill_ok b g ph s3 tt s4 Hok Hsane Hfill) as (Ev4 & Hpl4 & Hf4).
  apply bind_ok in H as ([] & s5 & Har & H). injection H as <- <-.
  assert (ev s5 = ev s4 /\ ebytes s5 = ebytes s4) as [Ev5 Eb5] by (destruct proc; injection Har as <-; done).
  assert (owns s5 ((ph, seg_pages_count g) :: done)) as Hown5.
  { eapply owns_write; [exact Hown3|by left|congruence|]. intros a Hna. by rewrite Eb5, Hf4. }
  split; [eapply owns_perm; [|exact Hown5]; by rewrite Permutation_cons_append|].
  rewrite Eb5. apply Forall2_app; [|by apply Forall2_cons].
  apply (Forall2_impl_elem _ _ _ _ Hpl). intros g' d Hd Hp. eapply placed_frame; [exact Hp|].
  intros a Hrun. rewrite Hf4, Eb3, Eb2, Eb; [done|]. by eapply owns_disjoint.
Qed.

Lemma load_segments_ok b pml4 proc segs :
  Forall (seg_ok b) segs -> Forall seg_sane segs ->
  forall done s r s' prev, owns s done -> Forall2 (placed b (ebytes s)) prev done ->
  efold segs (load_segment b pml4 proc) done s = Ok r s' -> owns s' r /\ Forall2 (placed b (ebytes s')) (prev ++ segs) r.
Proof.
  induction 1 as [|g segs Hok _ IH]; intros Hs done s r s' prev Hown Hpl H.
  - injection H as <- <-. by rewrite app_nil_r.
  - apply Forall_cons in Hs as [Hsane Hs]. apply bind_ok in H as (d & s1 & H1 & H).
    destruct (load_segment_ok b pml4 proc done g s d s1 prev Hok Hsane Hown Hpl H1) as [Hown1 Hpl1].
    rewrite cons_middle, (assoc_L (++)). by apply (IH Hs d s1).
Qed.

(** ** Tables and stack leave the segments alone *)

Section kept.
Context (b : list Z) (segs : list Seg) (D : list (Z * Z)).
Hypothesis Hlen : Z.of_nat (length b) < 2 ^ 63.

(** The segments are in memory; [T] are the frames allocated since. *)
Definition kept (s : Exec) : Prop := exists T, owns s (T ++ D) /\ Forall2 (placed b (ebytes s)) segs D.

(** Every successful run keeps them. *)
Definition keeps {A} (m : EM A) : Prop := forall s x s', kept s -> m s = Ok x s' -> kept s'.

Lemma load_keeps_ret {A} (x : A) : keeps (eret x).
Proof. intros s y s' Hk [= <- <-]. done. Qed.

Lemma load_keeps_throw {A} e : keeps (throw e : EM A).
Proof. done. Qed.

Lemma load_keeps_bind {A B} (m : EM A) (k : A -> EM B) : keeps m -> (forall x, keeps (k x)) -> keeps (ebind m k).
Proof. intros Hm Hk s x s' Hs H. apply bind_ok in H as (y & s1 & H1 & H2). eapply Hk; [|done]. by eapply Hm. Qed.

Lemma load_keeps_refuse (c : bool) e : keeps (refuse c e).
Proof. destruct c; [apply load_keeps_throw|apply load_keeps_ret]. Qed.

Lemma load_keeps_ok_or {A} (o : option A) e : keeps (ok_or o e).
Proof. destruct o; [apply load_keeps_ret|apply load_keeps_throw]. Qed.

Lemma load_keeps_refuse_free c t u e : keeps (refuse_free c t u e).
Proof.
  intros s x s' Hk H. unfold refuse_free in H. destruct c; [|by injection H as <- <-].
  by apply bind_ok in H as (? & ? & _ & H).
Qed.

Lemma load_keeps_read off n : keeps (read_struct b off n).
Proof. intros s x s' Hk. unfold read_struct. case_match; [|done]. by intros [= <- <-]. Qed.

Lemma load_keeps_efold {A B} (l : list A) (f : B -> A -> EM B) acc : (forall acc x, keeps (f acc x)) -> keeps (efold l f acc).
Proof. intros Hf. revert acc. induction l; intros acc; simpl; [apply load_keeps_ret|]. apply load_keeps_bind; auto. Qed.

Lemma load_keeps_area a : keeps (emod (fun s => add_area s a)).
Proof. intros s x s' Hk [= <- <-]. exact Hk. Qed.

Lemma load_keeps_vm {A} (m : VM A) : takes m -> keeps (evm m).
Proof. intros Hm s x s' (T & Hown & Hpl) H. destruct (owns_vm _ _ _ _ _ Hm Hown H) as [Ho Eb]. exists T. by rewrite Eb. Qed.

(** A failed allocation ends the load. *)
Lemma load_keeps_alloc {A} n (k : option Z -> EM A) :
  0 <= n -> (forall s x s', k None s <> Ok x s') ->
  (forall ph s x s' T, 1 <= n -> owns s ((ph, n) :: T ++ D) -> Forall2 (placed b (ebytes s)) segs D -> k (Some ph) s = Ok x s' -> kept s') ->
  keeps (ebind (ealloc n) k).
Proof.
  intros Hn Hno Hk s x s' (T & Hown & Hpl) H. apply bind_ok in H as (r & s1 & Ha & H).
  destruct (owns_alloc s _ n r s1 Hn Hown Ha) as [Eb Ho]. destruct r as [ph|]; [|by destruct (Hno _ _ _ H)].
  destruct Ho as [H1 Ho]. eapply Hk; [exact H1|exact Ho| |exact H]. by rewrite Eb.
Qed.

Lemma load_keeps_load_table sh t u : 0 <= s_offset sh -> 0 <= s_size sh -> keeps (load_table b sh t u).
Proof.
  intros Ho Hsz s x s' Hk H. apply bind_ok in H as (e & s1 & He & H).
  assert (s1 = s /\ e = s_offset sh + s_size sh) as [-> ->].
  { unfold checked_add in He. case_match; [|done]. by injection He as <- <-. }
  apply bind_ok in H as ([] & s2 & Hr & H). assert (s2 = s /\ s_offset sh + s_size sh <= Z.of_nat (length b)) as [-> Hle].
  { unfold refuse_free in Hr. rewrite Z.gtb_ltb in Hr. destruct (Z.ltb_spec (Z.of_nat (length b)) (s_offset sh + s_size sh)).
    - by apply bind_ok in Hr as (? & ? & _ & Hr).
    - by injection Hr as <-. }
  assert (table_pages (s_size sh) = (s_size sh + 0xFFF) / 4096) as Etp by (unfold table_pages; rewrite wrap_small by lia; done).
  clear He Hr. revert s x s' Hk H. apply load_keeps_alloc; [rewrite Etp; div_lia| |].
  - intros s x s' H. by apply bind_ok in H as (? & ? & _ & H).
  - intros ph s x s' T _ Hown Hpl H. apply bind_ok in H as ([] & s1 & Hc & H). injection H as <- <-.
    destruct (copy_ok b _ _ _ _ _ _ Ho Hsz Hc) as (Ev & _ & Hf). exists ((ph, table_pages (s_size sh)) :: T). split.
    + eapply owns_write; [exact Hown|by left|done|]. intros a Ha. apply Hf. intros Hr. apply Ha. unfold in_run. simpl. rewrite Etp. div_lia.
    + apply (Forall2_impl_elem _ _ _ _ Hpl). intros g d Hd Hp. eapply placed_frame; [exact Hp|]. intros a Ha. apply Hf.
      intros Hr. eapply (owns_disjoint s _ _ d a Hown); [apply elem_of_app; by right|done|]. unfold in_run. simpl. rewrite Etp. div_lia.
Qed.

Hypothesis Hb : Forall (fun x => 0 <= x < 256) b.

Lemma load_keeps_read_table {A} off n (k : list Z -> EM A) :
  (forall st, Forall (fun x => 0 <= x < 256) st -> keeps (k st)) -> keeps (ebind (read_struct b off n) k).
Proof.
  intros Hk s x s' Hs H. apply bind_ok in H as (st & s1 & Hr & H). apply (read_struct_bytes b _ _ _ _ _ Hb) in Hr as [Hst ->].
  by eapply Hk.
Qed.

Lemma load_keeps_section_table st t u : Forall (fun x => 0 <= x < 256) st -> keeps (load_table b (decode_shdr st) t u).
Proof. intros Hst. apply load_keeps_load_table; [apply (field_bound st 24 8 Hst)|apply (field_bound st 32 8 Hst)]. Qed.

Lemma load_keeps_scan base str acc i : keeps (scan_section b base str acc i).
Proof.
  destruct acc as [t x]. unfold scan_section. apply load_keeps_bind; [apply load_keeps_refuse_free|intros _]. apply load_keeps_read_table. intros st Hst.
  apply load_keeps_bind; [apply load_keeps_refuse_free|intros _]. case_bool_decide; [|apply load_keeps_ret].
  apply load_keeps_bind; [by apply load_keeps_section_table|intros; apply load_keeps_ret].
Qed.

Lemma load_keeps_tables hdr : keeps (find_tables b hdr).
Proof.
  unfold find_tables. apply load_keeps_bind; [apply load_keeps_ok_or|intros e]. do 3 (apply load_keeps_bind; [apply load_keeps_refuse|intros _]).
  apply load_keeps_read_table. intros st Hst. apply load_keeps_bind; [apply load_keeps_ok_or|intros e']. apply load_keeps_bind; [apply load_keeps_refuse|intros _].
  apply load_keeps_bind; [apply load_keeps_read|intros str]. apply load_keeps_bind; [apply load_keeps_efold, load_keeps_scan|]. intros [symtab idx].
  apply load_keeps_bind.
  - destruct (idx =? 0); [apply load_keeps_ret|]. do 2 (apply load_keeps_bind; [apply load_keeps_refuse_free|intros _]).
    apply load_keeps_read_table. intros st' Hst'. by apply load_keeps_section_table.
  - intros strtab. apply load_keeps_bind; [apply load_keeps_refuse_free|intros _; apply load_keeps_ret].
Qed.

Lemma load_keeps_stack pml4 size gnu proc done t u : 0 <= size < 2 ^ 64 -> keeps (load_stack pml4 size gnu proc done t u).
Proof.
  intros Hsize. unfold load_stack. do 2 (apply load_keeps_bind; [apply load_keeps_refuse|intros _]). apply load_keeps_alloc.
  - unfold page_align_up. change 0xFFF with (2 ^ 12 - 1). pose proof (wrap_bound 64 (size + (2 ^ 12 - 1)) ltac:(lia)).
    rewrite land_not64 by lia. div_lia.
  - intros s x s' H. apply bind_ok in H as (? & ? & _ & H). by apply bind_ok in H as (? & ? & _ & H).
  - intros ph s x s' T _ Hown Hpl. assert (kept s) as Hk by (by eexists (_ :: T)). clear Hown Hpl. revert s x s' Hk.
    apply load_keeps_bind; [apply load_keeps_vm, takes_map_contiguous|intros _]. apply load_keeps_bind; [|intros _; apply load_keeps_ret].
    destruct proc; [apply load_keeps_area|apply load_keeps_ret].
Qed.
End kept.
End frames.

(** The run of frames [d] begins on a page and has room for the whole segment [g]. *)
Definition seg_frames (g : Seg) (d : Z * Z) : Prop :=
  0 < fst d /\ fst d mod 4096 = 0 /\ seg_load_vaddr g = seg_vaddr g - seg_vaddr g mod 4096 /\
  seg_vaddr g + seg_memsz g <= seg_load_vaddr g + snd d * 4096.

Lemma placed_frames b m g d : placed b m g d -> 0 < fst d /\ fst d mod 4096 = 0 -> seg_frames g d.
Proof.
  intros ((_ & _ & _ & Hv & Hm & _ & H1 & H2 & H3) & [_ Htop] & Hd & _) [H4 H5]. unfold seg_frames. rewrite Hd. unfold page_align_down, page_align_up in *.
  change 0xFFF with (2 ^ 12 - 1) in *. rewrite land_not64 in H1 by lia.
  rewrite wrap_small, land_not64 in H2 by lia. change (2 ^ 12) with 4096 in *.
  rewrite wrap_small in H3 by div_lia. rewrite H3. split_and!; [done|done|done|]. div_lia.
Qed.


(** ** A small program *)

(** [n] bytes, least significant first. *)
Fixpoint to_le (n : nat) (x : Z) : list Z :=
  match n with
  | O => []
  | S n => x mod 256 :: to_le n (x / 256)
  end.

Definition small_section (name off size link : Z) : list Z :=
  to_le 4 name ++ replicate 20 0 ++ to_le 8 off ++ to_le 8 size ++ to_le 4 link ++ replicate 20 0.

(** One segment of 4 bytes in the file and 8 in memory, a symbol table and its
    string table, which is also the table of section names. *)
Definition small_elf : list Z :=
  ELF_MAGIC ++ [2; 1; 1; 0] ++ replicate 8 0 ++ to_le 2 ET_EXEC ++ to_le 2 X86_64 ++ to_le 4 1 ++ to_le 8 0x7FFFFFFE0010 ++
  to_le 8 64 ++ to_le 8 128 ++ to_le 4 0 ++ to_le 2 64 ++ to_le 2 56 ++ to_le 2 1 ++ to_le 2 64 ++ to_le 2 3 ++ to_le 2 0 ++
  (to_le 4 PT_LOAD ++ to_le 4 5 ++ to_le 8 120 ++ to_le 8 0x7FFFFFFE0010 ++ to_le 8 0 ++ to_le 8 4 ++ to_le 8 8 ++ to_le 8 4096) ++
  (SYMTAB_NAME ++ [0]) ++
  small_section 1 120 8 0 ++ small_section 0 0 24 2 ++ small_section 1 120 8 0.

Definition exec_demo : Exec := mkExec virt_demo ∅ [].

Definition small_run : Res LoadResult := load_elf small_elf 0x1000 None true exec_demo.

Definition res_state {A} (r : Res A) : Exec := match r with Ok _ s | Err _ s => s | Oob | Panic => exec_demo end.
Definition res_value {A} (d : A) (r : Res A) : A := if r is Ok x _ then x else d.
Definition is_ok {A} (r : Res A) : bool := if r is Ok _ _ then true else false.

Lemma is_ok_eq {A} (d : A) r : is_ok r = true -> r = Ok (res_value d r) (res_state r).
Proof. by destruct r. Qed.

Definition small_hdr : Elf64Header := mkEhdr 0x7FFFFFFE0010 64 128 1 3 0.
Definition small_segs : list Seg := [mkSeg 0x7FFFFFFE0010 0x7FFFFFFE0000 0x7FFFFFFE1000 1 5 120 4 8].

Lemma small_bytes : Forall (fun x => 0 <= x < 256) small_elf.
Proof.
  assert (forallb (fun x => (0 <=? x) && (x <? 256)) small_elf = true) as H by (vm_compute; reflexivity).
  apply Forall_forall. intros x Hx. rewrite forallb_forall in H. specialize (H x ltac:(by apply list_elem_of_In)). lia.
Qed.

Lemma small_header s : check_header small_elf s = Ok small_hdr s.
Proof. reflexivity. Qed.

Lemma small_collect s : collect small_elf small_hdr s = Ok (small_segs, false) s.
Proof. reflexivity. Qed.

Lemma load_elf_in_bounds_witness : small_run <> Oob.
Proof.
  apply (load_elf_in_bounds small_elf 0x1000 None true exec_demo).
  - exact small_bytes.
  - vm_compute. reflexivity.
  - intros hdr s1 H. rewrite small_header in H. injection H as <- _. vm_compute. reflexivity.
Defined.

Definition small_result : LoadResult := res_value (mkLoadResult 0 0 0 0 0 0 0) small_run.

Lemma small_run_eq : small_run = Ok small_result (res_state small_run).
Proof. apply is_ok_eq. vm_compute. reflexivity. Qed.

Local Opaque load_elf.

