(* ===== verification/Acpi.v ===== *)
(** ACPI tables (src/kernel/src/acpi/mod.rs and madt.rs): finding the root pointer
    and a table by signature, and reading the interrupt controllers from the
    MADT.  Physical memory is a function from addresses to bytes; structures are
    read at an address, without alignment. *)
From stdpp Require Import base tactics numbers list.
From Stdlib Require Import ZArith Lia.
From S2P Require Import Prelude Percpu.

Local Open Scope Z_scope.

Section memory.
(** The bytes of memory. *)
Context (mem : Z -> Z).

Definition bytes (a : Z) (n : nat) : list Z := (fun i => mem (a + Z.of_nat i)) <$> seq 0 n.

(** A little-endian integer of [n] bytes. *)
Fixpoint rd (a : Z) (n : nat) : Z :=
  match n with
  | O => 0
  | S n => mem a + 256 * rd (a + 1) n
  end.

(** [bytes.iter().fold(0u8, wrapping_add)] *)
Definition checksum (a : Z) (n : nat) : Z := fold_left (fun acc b => wrap 8 (acc + b)) (bytes a n) 0.

(** ** Root pointer *)

Definition RSDP_SIG : list Z := [82; 83; 68; 32; 80; 84; 82; 32].
Definition RSDP_SIZE : nat := 36.
Definition SDT_HEADER_SIZE : Z := 36.
Definition XSDT_SIG : list Z := [88; 83; 68; 84].
Definition MADT_SIG : list Z := [65; 80; 73; 67].

Definition rsdp_revision (a : Z) : Z := rd (a + 15) 1.

Definition rsdp_checksum_valid (a : Z) : bool :=
  let len := if rsdp_revision a >=? 2 then RSDP_SIZE else 20%nat in checksum a len =? 0.

Definition sdt_checksum_valid (a : Z) : bool := checksum a (Z.to_nat (rd (a + 4) 4)) =? 0.

Definition check_rsdp_at (a : Z) : option Z :=
  if bool_decide (bytes a 8 = RSDP_SIG) && rsdp_checksum_valid a then Some a else None.

(** Every 16 bytes from [a], [n] times. *)
Fixpoint scan_rsdp (n : nat) (a : Z) : option Z :=
  match n with
  | O => None
  | S n => match check_rsdp_at a with Some r => Some r | None => scan_rsdp n (a + 16) end
  end.

(** The EBDA (0x400 bytes), the BIOS area (0x20000) and 64 KB below 4 GB. *)
Definition find_rsdp : option Z :=
  let ebda_seg := rd 0x40E 2 in
  let ebda := if ebda_seg =? 0 then None else scan_rsdp 64 (Z.shiftl ebda_seg 4) in
  match ebda with
  | Some a => Some a
  | None =>
    match scan_rsdp 8192 0xE0000 with
    | Some a => Some a
    | None => scan_rsdp 4096 0xFEFF0000
    end
  end.

(** The entries of the root table, in order: the first table with the signature
    and a valid checksum. *)
Fixpoint scan_sdt (n : nat) (a : Z) (size : nat) (sig : list Z) : option Z :=
  match n with
  | O => None
  | S n =>
    let e := rd a size in
    if negb (e =? 0) && bool_decide (bytes e 4 = sig) && sdt_checksum_valid e then Some e
    else scan_sdt n (a + Z.of_nat size) size sig
  end.

Definition find_sdt (xsdt : Z) (sig : list Z) : option Z :=
  let is_xsdt := bool_decide (bytes xsdt 4 = XSDT_SIG) in
  let size := if is_xsdt then 8%nat else 4%nat in
  let count := wrap 64 (rd (xsdt + 4) 4 - SDT_HEADER_SIZE) / Z.of_nat size in
  scan_sdt (Z.to_nat count) (xsdt + SDT_HEADER_SIZE) size sig.

Record AcpiContext := mkAcpi { revision : Z; rsdp_addr : Z; xsdt_addr : Z; madt_addr : option Z }.

Definition acpi_init (hint : option Z) : option AcpiContext :=
  a ← match hint with Some a => Some a | None => find_rsdp end;
  let rev := rsdp_revision a in
  let xsdt := rd (a + 24) 8 in
  let root := if (rev >=? 2) && negb (xsdt =? 0) then xsdt else rd (a + 16) 4 in
  Some (mkAcpi rev a root (find_sdt root MADT_SIG)).

(** ** The MADT *)

Definition MADT_LOCAL_APIC : Z := 0.
Definition MADT_IOAPIC : Z := 1.
Definition MADT_ISO : Z := 2.
Definition MADT_LOCAL_APIC_OVERRIDE : Z := 5.

Definition MAX_IOAPICS : nat := 16.
Definition MAX_ISOS : nat := 32.

Record CpuInfo := mkCpuInfo { acpi_id : Z; cpu_apic_id : Z; enabled : bool }.
Record IoApicInfo := mkIoApicInfo { ioapic_id : Z; io_addr : Z; io_gsi_base : Z }.
Record IsoInfo := mkIso { bus : Z; source : Z; iso_gsi : Z; iso_flags : Z }.

(** The arrays with their counts are lists of the entries in use. *)
Record MadtInfo := mkMadt {
  local_apic_addr : Z; madt_flags : Z; cpus : list CpuInfo; ioapics : list IoApicInfo; isos : list IsoInfo;
  apic_addr_override : option Z;
}.

Definition parse_entry (info : MadtInfo) (ty off : Z) : MadtInfo :=
  if ty =? MADT_LOCAL_APIC then
    if (length (cpus info) <? MAX_CPUS)%nat
    then mkMadt (local_apic_addr info) (madt_flags info)
           (cpus info ++ [mkCpuInfo (rd (off + 2) 1) (rd (off + 3) 1) (Z.testbit (rd (off + 4) 4) 0)])
           (ioapics info) (isos info) (apic_addr_override info)
    else info
  else if ty =? MADT_IOAPIC then
    if (length (ioapics info) <? MAX_IOAPICS)%nat
    then mkMadt (local_apic_addr info) (madt_flags info) (cpus info)
           (ioapics info ++ [mkIoApicInfo (rd (off + 2) 1) (rd (off + 4) 4) (rd (off + 8) 4)]) (isos info) (apic_addr_override info)
    else info
  else if ty =? MADT_ISO then
    if (length (isos info) <? MAX_ISOS)%nat
    then mkMadt (local_apic_addr info) (madt_flags info) (cpus info) (ioapics info)
           (isos info ++ [mkIso (rd (off + 2) 1) (rd (off + 3) 1) (rd (off + 4) 4) (rd (off + 8) 2)]) (apic_addr_override info)
    else info
  else if ty =? MADT_LOCAL_APIC_OVERRIDE then
    mkMadt (local_apic_addr info) (madt_flags info) (cpus info) (ioapics info) (isos info) (Some (rd (off + 4) 8))
  else info.

(** The walk over the entries; every entry has at least 2 bytes, so the length of
    the table bounds the number of steps. *)
Fixpoint walk (fuel : nat) (off end_ : Z) (info : MadtInfo) : MadtInfo :=
  match fuel with
  | O => info
  | S fuel =>
    if off + 2 <=? end_ then
      let ty := rd off 1 in
      let len := rd (off + 1) 1 in
      if (len <? 2) || (off + len >? end_) then info
      else walk fuel (off + len) end_ (parse_entry info ty off)
    else info
  end.

Definition parse (a : Z) : option MadtInfo :=
  if negb (bool_decide (bytes a 4 = MADT_SIG)) then None
  else if negb (sdt_checksum_valid a) then None
  else
    let len := rd (a + 4) 4 in
    let info := mkMadt (rd (a + SDT_HEADER_SIZE) 4) (rd (a + SDT_HEADER_SIZE + 4) 4) [] [] [] None in
    Some (walk (Z.to_nat len) (a + SDT_HEADER_SIZE + 8) (a + len) info).
End memory.

Definition lookup_gsi (info : MadtInfo) (isa_irq : Z) : Z :=
  match first_index (fun i => (bus i =? 0) && (source i =? isa_irq)) (isos info) with
  | Some k => default 0 (iso_gsi <$> isos info !! k)
  | None => isa_irq
  end.

(** The first I/O APIC whose base is at most 255 below the interrupt. *)
Definition lookup_ioapic (info : MadtInfo) (gsi : Z) : option (nat * Z) :=
  k ← first_index (fun io => wrap 32 (gsi - io_gsi_base io) <? 256) (ioapics info);
  io ← ioapics info !! k;
  Some (k, wrap 32 (gsi - io_gsi_base io)).
