(* ===== verification/Intr.v ===== *)
(** Interrupt routing: the I/O APICs (src/kernel/src/arch/ioapic.rs) and the routing
    tables (src/kernel/src/intr/mod.rs).  The registers of an I/O APIC are a map
    from register index to 32-bit value; the select/window access of [read_reg]
    and [write_reg] is one step. *)
From stdpp Require Import base tactics numbers list gmap.
From Stdlib Require Import ZArith Lia.
From S2P Require Import Prelude Percpu Acpi.

Local Open Scope Z_scope.

(** ** I/O APIC *)

Definition IOAPIC_ID : Z := 0.
Definition IOAPIC_VER : Z := 1.
Definition IOAPIC_REDIR_BASE : Z := 0x10.
Definition IOAPIC_LOW_POLARITY_LOW : Z := 0x2000.
Definition IOAPIC_LOW_TRIGGER_LEVEL : Z := 0x8000.
Definition IOAPIC_LOW_MASKED : Z := 0x10000.

Record IoApic := mkIoApic { hw_id : Z; version : Z; max_redir : Z; gsi_base : Z; regs : gmap Z Z }.

Definition read_reg (io : IoApic) (i : Z) : Z := default 0 (regs io !! i).
Definition write_reg (io : IoApic) (i v : Z) : IoApic := mkIoApic (hw_id io) (version io) (max_redir io) (gsi_base io) (<[i := v]> (regs io)).

Definition redir (pin : Z) : Z := IOAPIC_REDIR_BASE + pin * 2.

Definition mask_entry (io : IoApic) (pin : Z) : IoApic := write_reg io (redir pin) (Z.lor (read_reg io (redir pin)) IOAPIC_LOW_MASKED).
Definition unmask_entry (io : IoApic) (pin : Z) : IoApic :=
  write_reg io (redir pin) (Z.land (read_reg io (redir pin)) (Z.lxor IOAPIC_LOW_MASKED U32_MAX)).
Definition set_entry (io : IoApic) (pin low high : Z) : IoApic := write_reg (write_reg io (redir pin) low) (redir pin + 1) high.
Definition get_entry (io : IoApic) (pin : Z) : Z * Z := (read_reg io (redir pin), read_reg io (redir pin + 1)).

Definition make_redir_low (vector flags : Z) (masked : bool) : Z :=
  let polarity := if Z.testbit flags 1 then IOAPIC_LOW_POLARITY_LOW else 0 in
  let trigger := if Z.testbit flags 3 then IOAPIC_LOW_TRIGGER_LEVEL else 0 in
  let mask := if masked then IOAPIC_LOW_MASKED else 0 in
  Z.lor (Z.lor (Z.lor (Z.land vector 0xFF) polarity) trigger) mask.

Definition make_redir_high (apic : Z) : Z := Z.shiftl apic 24.

(** The controllers found: the hardware's registers by physical address, as they
    are at reset. *)
Definition init_one (hw : gmap Z Z) (info : IoApicInfo) : IoApic :=
  let ver := default 0 (hw !! IOAPIC_VER) in
  let max := Z.land (Z.shiftr ver 16) 0xFF in
  let io := mkIoApic (wrap 8 (Z.shiftr (default 0 (hw !! IOAPIC_ID)) 24)) (Z.land ver 0xFF) max (io_gsi_base info) hw in
  fold_left (fun io pin => set_entry io pin (make_redir_low 0xFF 0 true) 0) (seqZ 0 (Z.min max 239 + 1)) io.

Definition ioapic_init (hw : Z -> gmap Z Z) (infos : list IoApicInfo) : list IoApic := (fun info => init_one (hw (io_addr info)) info) <$> infos.

(** [ioapic::lookup_gsi] *)
Definition ioapic_for (ios : list IoApic) (gsi : Z) : option (nat * Z) :=
  k ← first_index (fun io => wrap 32 (gsi - gsi_base io) <=? max_redir io) ios;
  io ← ios !! k;
  Some (k, wrap 32 (gsi - gsi_base io)).

(** ** Vectors and routes *)

Definition FIRST_DEV_VECTOR : Z := 33.
Definition LAST_DEV_VECTOR : Z := 63.
Definition MAX_ROUTES : nat := 32.

Record IrqRoute := mkRoute { isa_source : Z; gsi : Z; ioapic_index : nat; ioapic_pin : Z; vector : Z; flags : Z }.

(** The tables in use as lists. *)
Record RuntimeIrq := mkRuntime { rt_vector : Z; rt_gsi : Z; driver_vcpu : Z; used : bool }.

Record Intr := mkIntr {
  NEXT_VECTOR : Z; VECTOR_EXHAUSTED : bool; routes : list IrqRoute; initialized : bool;
  IRQ_CPU_NEXT : Z; RUNTIME_IRQS : list RuntimeIrq; IOAPICS : list IoApic;
}.

Definition intr_boot (ios : list IoApic) : Intr := mkIntr FIRST_DEV_VECTOR false [] false 0 [] ios.

Definition with_routes (s : Intr) (r : list IrqRoute) : Intr :=
  mkIntr (NEXT_VECTOR s) (VECTOR_EXHAUSTED s) r (initialized s) (IRQ_CPU_NEXT s) (RUNTIME_IRQS s) (IOAPICS s).
Definition with_initialized (s : Intr) : Intr :=
  mkIntr (NEXT_VECTOR s) (VECTOR_EXHAUSTED s) (routes s) true (IRQ_CPU_NEXT s) (RUNTIME_IRQS s) (IOAPICS s).
Definition with_ioapics (s : Intr) (next : Z) (ios : list IoApic) : Intr :=
  mkIntr (NEXT_VECTOR s) (VECTOR_EXHAUSTED s) (routes s) (initialized s) next (RUNTIME_IRQS s) ios.
Definition with_runtime (s : Intr) (l : list RuntimeIrq) : Intr :=
  mkIntr (NEXT_VECTOR s) (VECTOR_EXHAUSTED s) (routes s) (initialized s) (IRQ_CPU_NEXT s) l (IOAPICS s).

(** [fetch_add] on a byte. *)
Definition alloc_vector (s : Intr) : option Z * Intr :=
  let v := NEXT_VECTOR s in
  let next := wrap 8 (v + 1) in
  if v >? LAST_DEV_VECTOR then (None, mkIntr next true (routes s) (initialized s) (IRQ_CPU_NEXT s) (RUNTIME_IRQS s) (IOAPICS s))
  else (Some v, mkIntr next (VECTOR_EXHAUSTED s) (routes s) (initialized s) (IRQ_CPU_NEXT s) (RUNTIME_IRQS s) (IOAPICS s)).

Definition build_route (madt : MadtInfo) (src g fl : Z) (s : Intr) : option IrqRoute * Intr :=
  match lookup_ioapic madt g with
  | None => (None, s)
  | Some (idx, pin) =>
    let '(v, s) := alloc_vector s in
    match v with
    | None => (None, s)
    | Some v => (Some (mkRoute src g idx pin v fl), s)
    end
  end.

(** A route is built and, if there is room, entered. *)
Definition add_route (madt : MadtInfo) (src g fl : Z) (s : Intr) : Intr :=
  let '(r, s) := build_route madt src g fl s in
  match r with
  | Some r => if (length (routes s) <? MAX_ROUTES)%nat then with_routes s (routes s ++ [r]) else s
  | None => s
  end.

Definition has_iso (madt : MadtInfo) (isa : Z) : bool := existsb (fun i => (bus i =? 0) && (source i =? isa)) (isos madt).

(** The overrides that count, and the interrupts they claim. *)
Definition iso_counts (i : IsoInfo) : bool := (bus i =? 0) && (iso_gsi i <? 256).
Definition gsi_claimed (madt : MadtInfo) (g : Z) : bool := existsb (fun i => iso_counts i && (iso_gsi i =? g)) (isos madt).

Definition intr_init (madt : MadtInfo) (s : Intr) : Intr :=
  if initialized s then s
  else
    let s := fold_left (fun s i => if iso_counts i then add_route madt (source i) (iso_gsi i) (iso_flags i) s else s) (isos madt) s in
    let s := fold_left (fun s irq => if has_iso madt irq || gsi_claimed madt irq then s else add_route madt irq irq 0 s) (seqZ 0 16) s in
    with_initialized s.

Definition lookup_isa (s : Intr) (irq : Z) : option IrqRoute := k ← first_index (fun r => isa_source r =? irq) (routes s); routes s !! k.
Definition lookup_route (s : Intr) (g : Z) : option IrqRoute := k ← first_index (fun r => gsi r =? g) (routes s); routes s !! k.
Definition lookup_vector_isa (s : Intr) (v : Z) : option Z :=
  k ← first_index (fun r => vector r =? v) (routes s); isa_source <$> routes s !! k.

(** The CPU an interrupt is sent to: round robin over the online ones. *)
Definition pick_target (pc : Percpu) (n : Z) : Z :=
  let ok cpu := online (slot pc cpu) && negb (wrap 8 (apic_id (slot pc cpu)) =? 255) in
  let order := (fun i => Z.to_nat ((n + i) mod Z.of_nat MAX_CPUS)) <$> seqZ 0 (Z.of_nat MAX_CPUS) in
  match first_index ok order with
  | Some k => wrap 8 (apic_id (slot pc (default 0%nat (order !! k))))
  | None => 0
  end.

Definition install_route (pc : Percpu) (r : IrqRoute) (s : Intr) : Intr :=
  match IOAPICS s !! ioapic_index r with
  | None => s
  | Some io =>
    let low := make_redir_low (vector r) (flags r) true in
    let target := pick_target pc (IRQ_CPU_NEXT s) in
    with_ioapics s (wrap 64 (IRQ_CPU_NEXT s + 1))
      (<[ioapic_index r := set_entry io (ioapic_pin r) low (make_redir_high target)]> (IOAPICS s))
  end.

Definition enable_route (r : IrqRoute) (s : Intr) : Intr :=
  match IOAPICS s !! ioapic_index r with
  | None => s
  | Some io => with_ioapics s (IRQ_CPU_NEXT s) (<[ioapic_index r := unmask_entry io (ioapic_pin r)]> (IOAPICS s))
  end.

Definition install_all_routes (pc : Percpu) (s : Intr) : Intr := fold_left (fun s r => install_route pc r s) (routes s) s.

Definition install_all_masked (pc : Percpu) (s : Intr) : Z * Intr :=
  (Z.of_nat (length (routes s)), fold_left (fun s r => install_route pc r s) (routes s) s).

Definition MAX_RUNTIME_IRQS : nat := 32.

Definition register_irq (pc : Percpu) (g vcpu : Z) (s : Intr) : option Z * Intr :=
  match lookup_route s g with
  | None => (None, s)
  | Some r =>
    if existsb (fun e => used e && (driver_vcpu e =? vcpu)) (RUNTIME_IRQS s) then (None, s)
    else if (MAX_RUNTIME_IRQS <=? length (RUNTIME_IRQS s))%nat then (None, s)
    else
      let s := enable_route r (install_route pc r s) in
      (Some (vector r), with_runtime s (RUNTIME_IRQS s ++ [mkRuntime (vector r) g vcpu true]))
  end.

Definition lookup_vector_driver (s : Intr) (v : Z) : Z :=
  match first_index (fun e => used e && (rt_vector e =? v)) (RUNTIME_IRQS s) with
  | Some k => default 0 (driver_vcpu <$> RUNTIME_IRQS s !! k)
  | None => 0
  end.
