(* ===== verification/IntrThms.v ===== *)
(** Theorems of interrupt routing: the MADT is read back as it was written, the
    routes are well formed and distinct, and the I/O APICs are programmed as the
    routes say. *)
From stdpp Require Import base tactics numbers list gmap.
From Stdlib Require Import ZArith Lia.
From S2P Require Import Prelude Percpu Acpi Intr.

Local Open Scope Z_scope.

(** ** Reading the MADT *)

Fixpoint le_bytes (n : nat) (v : Z) : list Z :=
  match n with
  | O => []
  | S n => v mod 256 :: le_bytes n (v / 256)
  end.

Lemma le_bytes_length n v : length (le_bytes n v) = n.
Proof. revert v. induction n; intros v; simpl; [done|]. by rewrite IHn. Qed.

(** Memory holds these bytes. *)
Definition holds (mem : Z -> Z) (a : Z) (l : list Z) : Prop := forall i b, l !! i = Some b -> mem (a + Z.of_nat i) = b.

Lemma holds_app mem a l k : holds mem a (l ++ k) <-> holds mem a l /\ holds mem (a + Z.of_nat (length l)) k.
Proof.
  split.
  - intros H. split; intros i b Hi; [apply H; by apply lookup_app_l_Some|]. rewrite <-Z.add_assoc, <-Nat2Z.inj_add. apply H.
    rewrite lookup_app_r by lia. by replace (length l + i - length l)%nat with i by lia.
  - intros [H1 H2] i b Hi. apply lookup_app_Some in Hi as [Hi|[Hle Hi]]; [by apply H1|]. specialize (H2 _ _ Hi). rewrite <-H2. f_equal. lia.
Qed.

Lemma rd_le mem n : forall a v, holds mem a (le_bytes n v) -> 0 <= v < 256 ^ Z.of_nat n -> rd mem a n = v.
Proof.
  induction n as [|n IH]; intros a v H Hv; [simpl in *; lia|]. cbn [rd le_bytes] in *. change (v mod 256 :: le_bytes n (v / 256)) with ([v mod 256] ++ le_bytes n (v / 256)) in H.
  apply holds_app in H as [H1 H2]. specialize (H1 0%nat (v mod 256) eq_refl). rewrite Z.add_0_r in H1. rewrite H1. simpl in H2.
  rewrite Nat2Z.inj_succ, Z.pow_succ_r in Hv by lia. rewrite (IH (a + 1) (v / 256)); [div_lia|done|]. split; [apply Z.div_pos; lia|apply Z.div_lt_upper_bound; lia].
Qed.

Inductive MadtEntry :=
  | ELocal (acpi apic fl : Z) | EIoapic (i addr base : Z) | EIso (b src g fl : Z) | EOverride (addr : Z)
  | EOther (ty : Z) (payload : list Z).

Definition encode (e : MadtEntry) : list Z :=
  match e with
  | ELocal acpi apic fl => [0; 8; acpi; apic] ++ le_bytes 4 fl
  | EIoapic i addr base => [1; 12; i; 0] ++ le_bytes 4 addr ++ le_bytes 4 base
  | EIso b src g fl => [2; 10; b; src] ++ le_bytes 4 g ++ le_bytes 2 fl
  | EOverride addr => [5; 12; 0; 0] ++ le_bytes 8 addr
  | EOther ty payload => [ty; Z.of_nat (length payload) + 2] ++ payload
  end.

(** Fields fit their width. *)
Definition entry_ok (e : MadtEntry) : Prop :=
  match e with
  | ELocal acpi apic fl => 0 <= fl < 2 ^ 32
  | EIoapic i addr base => 0 <= addr < 2 ^ 32 /\ 0 <= base < 2 ^ 32
  | EIso b src g fl => 0 <= g < 2 ^ 32 /\ 0 <= fl < 2 ^ 16
  | EOverride addr => 0 <= addr < 2 ^ 64
  | EOther ty payload => ~ ty ∈ [0; 1; 2; 5] /\ (length payload <= 253)%nat
  end.

(** What an entry adds. *)
Definition add_entry (info : MadtInfo) (e : MadtEntry) : MadtInfo :=
  let '(mkMadt la fl cs ios iss ov) := info in
  match e with
  | ELocal acpi apic f => mkMadt la fl (if (length cs <? MAX_CPUS)%nat then cs ++ [mkCpuInfo acpi apic (Z.testbit f 0)] else cs) ios iss ov
  | EIoapic i addr base => mkMadt la fl cs (if (length ios <? 16)%nat then ios ++ [mkIoApicInfo i addr base] else ios) iss ov
  | EIso b src g f => mkMadt la fl cs ios (if (length iss <? 32)%nat then iss ++ [mkIso b src g f] else iss) ov
  | EOverride addr => mkMadt la fl cs ios iss (Some addr)
  | EOther _ _ => info
  end.

Lemma rd1 mem a b : mem a = b -> rd mem a 1 = b.
Proof. intros <-. cbn [rd]. lia. Qed.

Lemma parse_encoded mem off e info :
  holds mem off (encode e) -> entry_ok e ->
  parse_entry mem info (rd mem off 1) off = add_entry info e /\ rd mem (off + 1) 1 = Z.of_nat (length (encode e)) /\ (2 <= length (encode e))%nat.
Proof.
  intros H Hok. assert (forall i b, encode e !! i = Some b -> rd mem (off + Z.of_nat i) 1 = b) as H1 by (intros i b Hi; by apply rd1, H).
  pose proof (H1 0%nat) as Ha. rewrite Z.add_0_r in Ha. pose proof (H1 1%nat) as Hb. pose proof (H1 2%nat) as Hc. pose proof (H1 3%nat) as Hd.
  change (Z.of_nat 1) with 1 in Hb. change (Z.of_nat 2) with 2 in Hc. change (Z.of_nat 3) with 3 in Hd.
  destruct e as [acpi apic fl|i addr base|b src g fl|addr|ty payload]; cbn [encode] in *; destruct info as [la mf cs ios iss ov].
  - rewrite (Ha 0 eq_refl), (Hb 8 eq_refl). apply holds_app in H as [_ H]. change (off + Z.of_nat _) with (off + 4) in H. split; [|split; [|simpl; lia]].
    + unfold parse_entry. simpl Z.eqb. cbn [cpus]. rewrite (Hc acpi eq_refl), (Hd apic eq_refl), (rd_le _ _ _ _ H Hok). simpl. by case_match.
    + rewrite length_app, le_bytes_length. done.
  - rewrite (Ha 1 eq_refl), (Hb 12 eq_refl). apply holds_app in H as [_ H]. apply holds_app in H as [H2 H3]. rewrite le_bytes_length in H3. change (off + Z.of_nat (length _)) with (off + 4) in H2, H3. change (off + 4 + Z.of_nat 4) with (off + 4 + 4) in H3.
    destruct Hok as [Hok1 Hok2]. split; [|split; [|simpl; lia]].
    + unfold parse_entry. simpl Z.eqb. cbn [ioapics]. rewrite (Hc i eq_refl), (rd_le _ _ _ _ H2 Hok1). rewrite <-Z.add_assoc in H3. change (4 + 4) with 8 in H3.
      rewrite (rd_le _ _ _ _ H3 Hok2). unfold MAX_IOAPICS. simpl. by case_match.
    + rewrite !length_app, !le_bytes_length. done.
  - rewrite (Ha 2 eq_refl), (Hb 10 eq_refl). apply holds_app in H as [_ H]. apply holds_app in H as [H2 H3]. rewrite le_bytes_length in H3. change (off + Z.of_nat (length _)) with (off + 4) in H2, H3. change (off + 4 + Z.of_nat 4) with (off + 4 + 4) in H3.
    destruct Hok as [Hok1 Hok2]. split; [|split; [|simpl; lia]].
    + unfold parse_entry. simpl Z.eqb. cbn [isos]. rewrite (Hc b eq_refl), (Hd src eq_refl), (rd_le _ _ _ _ H2 Hok1). rewrite <-Z.add_assoc in H3. change (4 + 4) with 8 in H3.
      rewrite (rd_le _ _ _ _ H3 Hok2). unfold MAX_ISOS. simpl. by case_match.
    + rewrite !length_app, !le_bytes_length. done.
  - rewrite (Ha 5 eq_refl), (Hb 12 eq_refl). apply holds_app in H as [_ H]. split; [|split; [|simpl; lia]].
    + unfold parse_entry. simpl Z.eqb. change (off + Z.of_nat _) with (off + 4) in H. by rewrite (rd_le _ _ _ _ H Hok).
    + rewrite length_app, le_bytes_length. done.
  - destruct Hok as [Hty _]. rewrite (Ha ty eq_refl), (Hb _ eq_refl). split; [|split; [simpl; lia|simpl; lia]].
    unfold parse_entry, MADT_LOCAL_APIC, MADT_IOAPIC, MADT_ISO, MADT_LOCAL_APIC_OVERRIDE. rewrite !not_elem_of_cons in Hty.
    by rewrite !(proj2 (Z.eqb_neq ty _)) by (intros ->; naive_solver).
Qed.

(** C18: A MADT is read back as it was written: whatever entries it has, in whatever
    order, the walk visits each of them, takes every processor, I/O APIC,
    override and address with its fields (up to the capacity of the arrays), skips
    entries of other types by their length, and ends at the end of the table. *)
Theorem madt_roundtrip mem es off info fuel :
  holds mem off (es ≫= encode) -> Forall entry_ok es -> (length (es ≫= encode) < fuel)%nat ->
  walk mem fuel off (off + Z.of_nat (length (es ≫= encode))) info = fold_left add_entry es info.
Proof.
  revert off info fuel. induction es as [|e es IH]; intros off info fuel H Hok Hf; (destruct fuel as [|fuel]; [lia|]); cbn [walk].
  { simpl. by rewrite (proj2 (Z.leb_gt _ _)) by lia. }
  apply Forall_cons in Hok as [Hoe Hok]. rewrite bind_cons in *. apply holds_app in H as [He H]. rewrite length_app in *.
  destruct (parse_encoded mem off e info He Hoe) as (Hp & Hlen & H2). rewrite Hp, Hlen.
  rewrite (proj2 (Z.leb_le _ _)) by lia. rewrite (proj2 (Z.ltb_ge _ 2)) by lia. rewrite Z.gtb_ltb, (proj2 (Z.ltb_ge _ _)) by lia. cbn [orb].
  rewrite Nat2Z.inj_add, Z.add_assoc. cbn [fold_left]. apply IH; [done|done|lia].
Qed.

(** Two processors, an I/O APIC, an entry of another type, an override. *)
Definition small_madt : list MadtEntry := [ELocal 0 0 1; ELocal 1 2 0; EIoapic 1 0xFEC00000 0; EOther 4 [255; 0; 0; 1]; EIso 0 0 2 0].
Definition small_mem (a : Z) : Z := default 0 ((small_madt ≫= encode) !! Z.to_nat a).

Lemma madt_roundtrip_witness :
  isos (walk small_mem 64 0 44 (mkMadt 0 0 [] [] [] None)) = [mkIso 0 0 2 0].
Proof.
  change 44 with (0 + Z.of_nat (length (small_madt ≫= encode))).
  rewrite (madt_roundtrip small_mem small_madt 0 (mkMadt 0 0 [] [] [] None) 64).
  - reflexivity.
  - intros i b Hi. unfold small_mem. rewrite Z.add_0_l, Nat2Z.id, Hi. reflexivity.
  - repeat constructor; try done. rewrite !not_elem_of_cons. split_and!; (done || apply not_elem_of_nil).
  - vm_compute. lia.
Defined.

(** ** Routes *)

Definition vectors (s : Intr) : list Z := vector <$> routes s.

(** After [k] attempts to build a route. *)
Record routes_ok (madt : MadtInfo) (k : Z) (s : Intr) : Prop := {
  ro_next : FIRST_DEV_VECTOR <= NEXT_VECTOR s <= FIRST_DEV_VECTOR + k;
  ro_vectors : Forall (fun v => FIRST_DEV_VECTOR <= v <= LAST_DEV_VECTOR /\ v < NEXT_VECTOR s) (vectors s);
  ro_nodup : NoDup (vectors s);
  ro_pins : Forall (fun r => lookup_ioapic madt (gsi r) = Some (ioapic_index r, ioapic_pin r)) (routes s);
  ro_room : (length (routes s) <= MAX_ROUTES)%nat;
}.

Lemma add_route_ok madt k s src g fl :
  routes_ok madt k s -> k < 100 ->
  let s' := add_route madt src g fl s in
  routes_ok madt (k + 1) s' /\ initialized s' = initialized s /\
  (routes s' = routes s \/ exists r, routes s' = routes s ++ [r] /\ isa_source r = src /\ gsi r = g /\ flags r = fl).
Proof.
  intros [H1 H2 H3 H4 H5] Hk s'. unfold FIRST_DEV_VECTOR, LAST_DEV_VECTOR in *. subst s'. unfold add_route, build_route.
  destruct (lookup_ioapic madt g) as [[idx pin]|] eqn:El; [|split; [split; try done; unfold FIRST_DEV_VECTOR; lia|by split; [|left]]].
  unfold alloc_vector, LAST_DEV_VECTOR. rewrite Z.gtb_ltb. assert (wrap 8 (NEXT_VECTOR s + 1) = NEXT_VECTOR s + 1) as Ew by (apply wrap_small; lia).
  destruct (Z.ltb_spec 63 (NEXT_VECTOR s)) as [Hlt|Hge].
  - split; [|by split; [|left]]. split; cbn; rewrite ?Ew; unfold FIRST_DEV_VECTOR, LAST_DEV_VECTOR; try done; [lia|]. eapply Forall_impl; [exact H2|]. simpl. lia.
  - cbn [routes length]. destruct (Nat.ltb_spec (length (routes s)) MAX_ROUTES) as [Hr|Hr].
    + split; [|split; [done|right; eexists; split; [done|done]]].
      split; cbn; unfold vectors; cbn; rewrite ?Ew, ?fmap_app; unfold FIRST_DEV_VECTOR, LAST_DEV_VECTOR.
      * lia.
      * apply Forall_app. split; [eapply Forall_impl; [exact H2|]; simpl; lia|]. repeat constructor; simpl; lia.
      * apply NoDup_app. split; [done|]. split; [|apply NoDup_singleton]. intros v Hv Hv'. apply list_elem_of_singleton in Hv'. subst v. simpl in Hv.
        rewrite Forall_forall in H2. specialize (H2 _ Hv). simpl in H2. lia.
      * apply Forall_app. split; [done|]. by repeat constructor.
      * rewrite length_app. simpl. lia.
    + split; [|by split; [|left]]. split; cbn; rewrite ?Ew; unfold FIRST_DEV_VECTOR, LAST_DEV_VECTOR; try done; [lia|]. eapply Forall_impl; [exact H2|]. simpl. lia.
Qed.

(** Routes to the interrupts of [gs], each in turn. *)
Lemma add_routes_ok {A} (madt : MadtInfo) (l : list A) (p : A -> bool) (src g fl : A -> Z) :
  forall k s, routes_ok madt k s -> k + Z.of_nat (length l) <= 100 ->
  let s' := fold_left (fun s x => if p x then add_route madt (src x) (g x) (fl x) s else s) l s in
  routes_ok madt (k + Z.of_nat (length l)) s' /\
  exists l', routes s' = routes s ++ l' /\ (gsi <$> l') `sublist_of` (g <$> filter (fun x => p x = true) l).
Proof.
  induction l as [|x l IH]; intros k s Hs Hk; cbn [fold_left length] in *.
  { split; [by rewrite Z.add_0_r|]. exists []. split; [by rewrite app_nil_r|]. apply sublist_nil. }
  assert (routes_ok madt (k + 1) s) as Hs1 by (destruct Hs; split; try done; lia).
  destruct (p x) eqn:Ep.
  - destruct (add_route_ok madt k s (src x) (g x) (fl x) Hs ltac:(lia)) as (Hs' & _ & Hr). set (s1 := add_route _ _ _ _ _) in *.
    destruct (IH (k + 1) s1 Hs' ltac:(lia)) as (H1 & l' & H2 & H3). split; [by replace (k + Z.of_nat (S (length l))) with (k + 1 + Z.of_nat (length l)) by lia|].
    rewrite filter_cons_True by done. destruct Hr as [Hr|(r & Hr & _ & Hg & _)].
    + exists l'. split; [by rewrite H2, Hr|]. by apply sublist_cons.
    + exists (r :: l'). split; [by rewrite H2, Hr, <-(assoc_L (++))|]. cbn [fmap list_fmap]. rewrite Hg. by apply sublist_skip.
  - destruct (IH (k + 1) s Hs1 ltac:(lia)) as (H1 & l' & H2 & H3). split; [by replace (k + Z.of_nat (S (length l))) with (k + 1 + Z.of_nat (length l)) by lia|].
    rewrite filter_cons_False by (by rewrite Ep). eauto.
Qed.

(** The pin determines the interrupt. *)
Lemma pin_gsi madt g g' r :
  0 <= g < 2 ^ 32 -> 0 <= g' < 2 ^ 32 -> Forall (fun io => 0 <= io_gsi_base io < 2 ^ 32) (ioapics madt) ->
  lookup_ioapic madt g = Some r -> lookup_ioapic madt g' = Some r -> g = g'.
Proof.
  intros Hg Hg' Hio. unfold lookup_ioapic. destruct (first_index _ _) as [k|]; [|done]. simpl. destruct (ioapics madt !! k) as [io|] eqn:Ek; [|done]. simpl.
  intros [= <-]. destruct (first_index _ _) as [k'|]; [|done]. simpl. destruct (ioapics madt !! k') as [io'|] eqn:Ek'; [|done]. simpl.
  intros [= -> He]. rewrite Ek in Ek'. injection Ek' as <-. rewrite Forall_lookup in Hio. specialize (Hio _ _ Ek). unfold wrap in He. simpl in Hio. div_lia.
Qed.

Lemma filter_sources madt irq :
  irq ∈ filter (fun x => negb (has_iso madt x || gsi_claimed madt x) = true) (seqZ 0 16) -> gsi_claimed madt irq = false /\ 0 <= irq < 16.
Proof. intros [H Hi%elem_of_seqZ]%list_elem_of_filter. destruct (has_iso madt irq), (gsi_claimed madt irq); done. Qed.

Definition iso_sources (madt : MadtInfo) : list IsoInfo := filter (fun i => iso_counts i = true) (isos madt).

Lemma init_routes madt ios :
  (length (isos madt) <= MAX_ISOS)%nat ->
  let s := intr_init madt (intr_boot ios) in
  routes_ok madt 48 s /\ exists l1 l2, routes s = l1 ++ l2 /\ (gsi <$> l1) `sublist_of` (iso_gsi <$> iso_sources madt) /\
    (gsi <$> l2) `sublist_of` filter (fun x => negb (has_iso madt x || gsi_claimed madt x) = true) (seqZ 0 16).
Proof.
  intros Hn s. unfold MAX_ISOS in Hn. subst s. unfold intr_init. cbn [initialized intr_boot].
  assert (routes_ok madt 0 (intr_boot ios)) as H0.
  { split; cbn; unfold FIRST_DEV_VECTOR; try constructor; try lia. }
  destruct (add_routes_ok madt (isos madt) iso_counts source iso_gsi iso_flags 0 (intr_boot ios) H0 ltac:(lia)) as (H1 & l1 & E1 & S1).
  set (s1 := fold_left _ (isos madt) (intr_boot ios)) in *. change (routes (intr_boot ios)) with (@nil IrqRoute) in E1. simpl in E1.
  destruct (add_routes_ok madt (seqZ 0 16) (fun x => negb (has_iso madt x || gsi_claimed madt x)) id id (fun _ => 0) _ s1 H1 ltac:(simpl; lia)) as (H2 & l2 & E2 & S2).
  assert (forall l s, fold_left (fun s x => if negb (has_iso madt x || gsi_claimed madt x) then add_route madt (id x) (id x) 0 s else s) l s =
    fold_left (fun s irq => if has_iso madt irq || gsi_claimed madt irq then s else add_route madt irq irq 0 s) l s) as Hf.
  { induction l as [|x l IH]; intros s; simpl; [done|]. rewrite IH. f_equal. by destruct (_ || _). }
  rewrite Hf in H2, E2. set (s2 := fold_left _ (seqZ 0 16) s1) in *. split.
  - destruct H2 as [A1 A2 A3 A4 A5]. split; cbn; try done. simpl in A1. lia.
  - exists l1, l2. cbn [routes with_initialized]. rewrite E2, E1. rewrite list_fmap_id in S2. done.
Qed.

Lemma sublist_NoDup_Z (l k : list Z) : l `sublist_of` k -> NoDup k -> NoDup l.
Proof. intros H. apply submseteq_NoDup. by apply sublist_submseteq. Qed.

(** C19: The routing table is sound for every MADT: at most 32 routes, with pairwise
    distinct vectors from 33 to 63, each leading to the pin that the MADT gives for
    its interrupt; and if no two overrides claim the same interrupt, no two routes
    share a pin, because an ISA interrupt is not identity-mapped onto an
    interrupt that an override has claimed. *)
Theorem intr_init_correct madt ios :
  (length (isos madt) <= MAX_ISOS)%nat ->
  let s := intr_init madt (intr_boot ios) in
  (length (routes s) <= MAX_ROUTES)%nat /\ NoDup (vectors s) /\ Forall (fun v => FIRST_DEV_VECTOR <= v <= LAST_DEV_VECTOR) (vectors s) /\
  Forall (fun r => lookup_ioapic madt (gsi r) = Some (ioapic_index r, ioapic_pin r)) (routes s) /\
  (Forall (fun i => 0 <= iso_gsi i < 2 ^ 32) (isos madt) -> Forall (fun io => 0 <= io_gsi_base io < 2 ^ 32) (ioapics madt) ->
   NoDup (iso_gsi <$> iso_sources madt) -> NoDup ((fun r => (ioapic_index r, ioapic_pin r)) <$> routes s)).
Proof.
  intros Hn s. destruct (init_routes madt ios Hn) as [[H1 H2 H3 H4 H5] (l1 & l2 & E & S1 & S2)]. fold s in H1, H2, H3, H4, H5, E.
  split; [done|]. split; [done|]. split; [eapply Forall_impl; [exact H2|]; by intros v [Hv _]|]. split; [done|]. intros Hiso Hio Hnd.
  assert (forall g, g ∈ gsi <$> l1 -> gsi_claimed madt g = true /\ 0 <= g < 2 ^ 32) as Hl1.
  { intros g Hg. pose proof (elem_of_sublist _ _ _ Hg S1) as S. apply list_elem_of_fmap in S as (i & -> & [Hc Hi]%list_elem_of_filter).
    rewrite Forall_forall in Hiso. split; [|by apply Hiso]. apply existsb_exists. exists i. split; [by apply list_elem_of_In|]. by rewrite Hc, Z.eqb_refl. }
  assert (forall g, g ∈ gsi <$> l2 -> gsi_claimed madt g = false /\ 0 <= g < 2 ^ 32) as Hl2.
  { intros g Hg. pose proof (elem_of_sublist _ _ _ Hg S2) as S. apply filter_sources in S as [? ?]. split; [done|lia]. }
  assert (NoDup (gsi <$> routes s)) as Hg.
  { rewrite E, fmap_app. apply NoDup_app. split; [by eapply sublist_NoDup_Z|]. split.
    - intros g G1 G2. destruct (Hl1 g G1), (Hl2 g G2). congruence.
    - eapply sublist_NoDup_Z; [exact S2|]. apply NoDup_filter, NoDup_seqZ. }
  assert (Forall (fun r => 0 <= gsi r < 2 ^ 32) (routes s)) as Hb.
  { rewrite E. apply Forall_app. split; apply Forall_forall; intros r Hr; [apply Hl1|apply Hl2]; by apply list_elem_of_fmap_2. }
  clear -Hg Hb H4 Hio. induction (routes s) as [|r l IH]; simpl; [constructor|]. simpl in Hg. apply NoDup_cons in Hg as [Hnr Hg].
  apply Forall_cons in H4 as [E4 H4]. apply Forall_cons in Hb as [B Hb]. constructor; [|by apply IH]. intros (r' & Ep & Hr')%list_elem_of_fmap.
  rewrite Forall_forall in H4, Hb. apply Hnr. rewrite (pin_gsi madt (gsi r) (gsi r') _ B (Hb r' Hr') Hio E4); [by apply list_elem_of_fmap_2|]. rewrite H4 by done. by rewrite Ep.
Qed.

Definition two_isos : MadtInfo := mkMadt 0 0 [] [mkIoApicInfo 1 0xFEC00000 0] [mkIso 0 0 2 0; mkIso 0 9 9 13] None.

Lemma intr_init_correct_witness :
  NoDup ((fun r => (ioapic_index r, ioapic_pin r)) <$> routes (intr_init two_isos (intr_boot []))).
Proof.
  apply (intr_init_correct two_isos []); [unfold MAX_ISOS; simpl; lia|repeat constructor; simpl; lia|repeat constructor; simpl; lia|].
  apply (bool_decide_unpack (NoDup (iso_gsi <$> iso_sources two_isos))). vm_compute. exact I.
Defined.

(** ** Programming the I/O APICs *)

Lemma read_set_entry io pin low high i :
  read_reg (set_entry io pin low high) i = if i =? redir pin + 1 then high else if i =? redir pin then low else read_reg io i.
Proof.
  unfold read_reg, set_entry, write_reg. cbn [regs]. destruct (Z.eqb_spec i (redir pin + 1)) as [->|H1]; [by rewrite lookup_insert_eq|].
  rewrite lookup_insert_ne by done. destruct (Z.eqb_spec i (redir pin)) as [->|H2]; [by rewrite lookup_insert_eq|]. by rewrite lookup_insert_ne by done.
Qed.

Lemma read_unmask_entry io pin i :
  read_reg (unmask_entry io pin) i =
  if i =? redir pin then Z.land (read_reg io (redir pin)) (Z.lxor IOAPIC_LOW_MASKED U32_MAX) else read_reg io i.
Proof.
  unfold unmask_entry. unfold read_reg at 1, write_reg. cbn [regs]. destruct (Z.eqb_spec i (redir pin)) as [->|H]; [by rewrite lookup_insert_eq|].
  by rewrite lookup_insert_ne by done.
Qed.

(** Clearing the mask bit of a word made by [make_redir_low]. *)
Lemma unmask_low v f :
  0 <= v < 256 -> Z.land (make_redir_low v f true) (Z.lxor IOAPIC_LOW_MASKED U32_MAX) = make_redir_low v f false.
Proof.
  intros Hv.
  assert (forallb (fun v => forallb (fun p => forallb (fun t =>
    Z.land (Z.lor (Z.lor (Z.lor (Z.land v 0xFF) (if p : bool then IOAPIC_LOW_POLARITY_LOW else 0)) (if t : bool then IOAPIC_LOW_TRIGGER_LEVEL else 0)) IOAPIC_LOW_MASKED) (Z.lxor IOAPIC_LOW_MASKED U32_MAX) =?
    Z.lor (Z.lor (Z.lor (Z.land v 0xFF) (if p then IOAPIC_LOW_POLARITY_LOW else 0)) (if t then IOAPIC_LOW_TRIGGER_LEVEL else 0)) 0) [true; false]) [true; false]) (seqZ 0 256) = true) as H
    by (vm_compute; reflexivity).
  rewrite forallb_forall in H. specialize (H v ltac:(apply list_elem_of_In, elem_of_seqZ; lia)). rewrite forallb_forall in H.
  specialize (H (Z.testbit f 1) ltac:(destruct (Z.testbit f 1); simpl; auto)). rewrite forallb_forall in H.
  specialize (H (Z.testbit f 3) ltac:(destruct (Z.testbit f 3); simpl; auto)). by apply Z.eqb_eq in H.
Qed.

(** Installing and enabling a route: its entry is live, no other entry changes. *)
Definition entry (s : Intr) (k : nat) (pin : Z) : option (Z * Z) := (fun io => get_entry io pin) <$> IOAPICS s !! k.

Lemma install_enable pc r s :
  is_Some (IOAPICS s !! ioapic_index r) -> 0 <= vector r < 256 ->
  let s' := enable_route r (install_route pc r s) in
  entry s' (ioapic_index r) (ioapic_pin r) = Some (make_redir_low (vector r) (flags r) false, make_redir_high (pick_target pc (IRQ_CPU_NEXT s))) /\
  (forall k pin, (k, pin) <> (ioapic_index r, ioapic_pin r) -> entry s' k pin = entry s k pin) /\
  routes s' = routes s /\ RUNTIME_IRQS s' = RUNTIME_IRQS s.
Proof.
  intros [io Hio] Hv s'. subst s'. unfold install_route. rewrite Hio. unfold enable_route. cbn [IOAPICS with_ioapics].
  pose proof (lookup_lt_Some _ _ _ Hio) as Hlt. rewrite list_lookup_insert_eq by done. split; [|split; [|done]].
  - unfold entry. cbn [IOAPICS with_ioapics]. rewrite list_insert_insert_eq, list_lookup_insert_eq by done. cbn [fmap option_fmap option_map].
    unfold get_entry. rewrite !read_unmask_entry, !read_set_entry, !Z.eqb_refl.
    rewrite !(proj2 (Z.eqb_neq (redir (ioapic_pin r) + 1) (redir (ioapic_pin r)))), !(proj2 (Z.eqb_neq (redir (ioapic_pin r)) (redir (ioapic_pin r) + 1))) by lia.
    by rewrite unmask_low.
  - intros k pin Hne. unfold entry. cbn [IOAPICS with_ioapics]. rewrite list_insert_insert_eq. destruct (decide (k = ioapic_index r)) as [->|Hk].
    + rewrite list_lookup_insert_eq, Hio by done. cbn [fmap option_fmap option_map]. assert (pin <> ioapic_pin r) by congruence. unfold get_entry.
      rewrite !read_unmask_entry, !read_set_entry. unfold redir. by rewrite !(proj2 (Z.eqb_neq _ _)) by lia.
    + by rewrite list_lookup_insert_ne by done.
Qed.

(** A CPU that takes device interrupts. *)
Definition takes_irqs (pc : Percpu) (cpu : nat) : Prop := online (slot pc cpu) = true /\ wrap 8 (apic_id (slot pc cpu)) <> 255.

Lemma pick_target_online pc n :
  0 <= n -> (exists cpu, (cpu < MAX_CPUS)%nat /\ takes_irqs pc cpu) ->
  exists cpu, (cpu < MAX_CPUS)%nat /\ takes_irqs pc cpu /\ pick_target pc n = wrap 8 (apic_id (slot pc cpu)).
Proof.
  intros Hn (c & Hc & Hon & Hid). unfold pick_target. set (order := _ <$> seqZ 0 _).
  assert (forall cpu, cpu ∈ order <-> (cpu < MAX_CPUS)%nat) as Hord.
  { intros cpu. unfold order. rewrite list_elem_of_fmap. unfold MAX_CPUS. split.
    - intros (i & -> & Hi). pose proof (Z.mod_pos_bound (n + i) 4). lia.
    - intros Hlt. exists ((Z.of_nat cpu - n) mod 4). split; [|apply elem_of_seqZ; pose proof (Z.mod_pos_bound (Z.of_nat cpu - n) 4); lia].
      change (Z.of_nat 4) with 4. rewrite Zplus_mod_idemp_r. replace (n + (Z.of_nat cpu - n)) with (Z.of_nat cpu) by lia. rewrite Z.mod_small by lia. lia. }
  destruct (first_index _ order) as [k|] eqn:E.
  - apply first_index_Some in E as (cpu & Hk & Hok & _). rewrite Hk. cbn [from_option id]. apply andb_prop in Hok as [H1 H2].
    apply negb_true_iff, Z.eqb_neq in H2. exists cpu. split; [apply Hord; by eapply list_elem_of_lookup_2|]. by split.
  - apply first_index_None in E. rewrite Forall_forall in E. specialize (E c (proj2 (Hord c) Hc)). simpl in E. rewrite Hon in E.
    apply Z.eqb_neq in Hid. by rewrite Hid in E.
Qed.

(** A driver that registers for an interrupt gets the vector of its route; the
    pin of the route is then unmasked with that vector, polarity and trigger and
    sent to an online CPU, every other pin keeps its entry, and an interrupt on
    that vector reaches the driver unless an earlier driver has the vector. A
    driver can register once, and a full table or an unknown interrupt is
    refused without changing anything. *)
Theorem register_irq_correct pc g vcpu s :
  Forall (fun r => 0 <= vector r < 256 /\ is_Some (IOAPICS s !! ioapic_index r)) (routes s) ->
  (exists cpu, (cpu < MAX_CPUS)%nat /\ takes_irqs pc cpu) -> 0 <= IRQ_CPU_NEXT s ->
  match register_irq pc g vcpu s with
  | (None, s') => s' = s /\ (lookup_route s g = None \/ (exists e, e ∈ RUNTIME_IRQS s /\ used e = true /\ driver_vcpu e = vcpu) \/ (MAX_RUNTIME_IRQS <= length (RUNTIME_IRQS s))%nat)
  | (Some v, s') =>
    exists r cpu, lookup_route s g = Some r /\ v = vector r /\ takes_irqs pc cpu /\
      entry s' (ioapic_index r) (ioapic_pin r) = Some (make_redir_low v (flags r) false, make_redir_high (wrap 8 (apic_id (slot pc cpu)))) /\
      (forall k pin, (k, pin) <> (ioapic_index r, ioapic_pin r) -> entry s' k pin = entry s k pin) /\
      lookup_vector_driver s' v = if existsb (fun e => used e && (rt_vector e =? v)) (RUNTIME_IRQS s) then lookup_vector_driver s v else vcpu
  end.
Proof.
  intros Hr Hcpu Hn. unfold register_irq. destruct (lookup_route s g) as [r|] eqn:El; [|by auto].
  destruct (existsb _ (RUNTIME_IRQS s)) eqn:Ed.
  { split; [done|]. right. left. apply existsb_exists in Ed as (e & He & [Hu Hv%Z.eqb_eq]%andb_prop). exists e. split; [by apply list_elem_of_In|done]. }
  destruct (Nat.leb_spec MAX_RUNTIME_IRQS (length (RUNTIME_IRQS s))) as [Hf|Hf]; [by auto|].
  assert (r ∈ routes s) as Hin.
  { unfold lookup_route in El. destruct (first_index _ _) as [k|]; [|done]. by eapply list_elem_of_lookup_2. }
  rewrite Forall_forall in Hr. destruct (Hr r Hin) as [Hv Hio]. destruct (install_enable pc r s Hio Hv) as (H1 & H2 & _ & H4).
  destruct (pick_target_online pc (IRQ_CPU_NEXT s) Hn Hcpu) as (cpu & _ & Hon & Et). rewrite Et in H1.
  set (s1 := enable_route r (install_route pc r s)) in *. exists r, cpu. split; [done|]. split; [done|]. split; [done|]. split; [exact H1|]. split; [exact H2|].
  unfold lookup_vector_driver. cbn [RUNTIME_IRQS with_runtime]. rewrite H4. clear -r. induction (RUNTIME_IRQS s) as [|e l IH]; simpl.
  - by rewrite Z.eqb_refl.
  - destruct (used e && (rt_vector e =? vector r)); simpl; [done|].
    destruct (first_index (fun e => used e && (rt_vector e =? vector r)) (l ++ _)) as [k|], (first_index (fun e => used e && (rt_vector e =? vector r)) l) as [k'|]; simpl in *; exact IH.
Qed.

Definition irq_cpus : Percpu := default percpu_boot (mark_online percpu_boot 0).
Definition irq_table : Intr := intr_init two_isos (intr_boot [mkIoApic 1 0x11 23 0 ∅]).

Lemma irq_table_routes : Forall (fun r => 0 <= vector r < 256 /\ is_Some (IOAPICS irq_table !! ioapic_index r)) (routes irq_table).
Proof.
  assert (forallb (fun r => (0 <=? vector r) && (vector r <? 256) && bool_decide (is_Some (IOAPICS irq_table !! ioapic_index r))) (routes irq_table) = true) as Hall
    by (vm_compute; reflexivity).
  revert Hall. generalize (routes irq_table). intros l Hall. rewrite forallb_forall in Hall. apply Forall_forall. intros r Hr%list_elem_of_In.
  specialize (Hall r Hr). apply andb_prop in Hall as [Hv Hi%bool_decide_eq_true_1]. split; [|exact Hi].
  apply andb_prop in Hv as [H1%Z.leb_le H2%Z.ltb_lt]. by split.
Qed.

Lemma register_irq_correct_witness : lookup_vector_driver (snd (register_irq irq_cpus 1 7 irq_table)) 35 = 7.
Proof.
  pose proof (register_irq_correct irq_cpus 1 7 irq_table) as H.
  assert (register_irq irq_cpus 1 7 irq_table = (Some 35, snd (register_irq irq_cpus 1 7 irq_table))) as E by (vm_compute; reflexivity).
  rewrite E in H. destruct H as (r & cpu & _ & _ & _ & _ & _ & H).
  - exact irq_table_routes.
  - exists 0%nat. split; [unfold MAX_CPUS; lia|]. split; [reflexivity|]. vm_compute. discriminate.
  - vm_compute. discriminate.
  - exact H.
Defined.

(** With a second I/O APIC, an interrupt of the second controller is routed to a
    pin of the first that does not exist: the search in the MADT takes any
    controller whose base is at most 255 below the interrupt, while the one on
    the hardware's data looks at the number of pins. *)
Theorem second_ioapic_unreachable g :
  24 <= g < 48 ->
  lookup_ioapic (mkMadt 0 0 [] [mkIoApicInfo 0 0xFEC00000 0; mkIoApicInfo 1 0xFEC01000 24] [] None) g = Some (0%nat, g) /\
  ioapic_for [mkIoApic 0 0x11 23 0 ∅; mkIoApic 1 0x11 23 24 ∅] g = Some (1%nat, g - 24).
Proof.
  intros Hg. unfold lookup_ioapic, ioapic_for. cbn [ioapics io_gsi_base gsi_base max_redir first_index]. rewrite Z.sub_0_r. rewrite !wrap_small by lia.
  rewrite (proj2 (Z.ltb_lt g 256)), (proj2 (Z.leb_gt g 23)), (proj2 (Z.leb_le (g - 24) 23)) by lia. simpl. rewrite Z.sub_0_r, !wrap_small by lia. done.
Qed.

Lemma second_ioapic_unreachable_witness :
  lookup_ioapic (mkMadt 0 0 [] [mkIoApicInfo 0 0xFEC00000 0; mkIoApicInfo 1 0xFEC01000 24] [] None) 30 = Some (0%nat, 30).
Proof. apply second_ioapic_unreachable. lia. Defined.
