(* ===== verification/Entry.v ===== *)
(** Entry and exit of the kernel, at the level of instructions: the interrupt
    stubs and [syscall_entry] (src/kernel/src/arch/idt.rs), [context_switch]
    (src/kernel/src/arch/mod.rs), the interrupt descriptor table and the segment
    descriptors (src/kernel/src/arch/gdt.rs).

    The assembly is kept as lists of instructions, run by an interpreter for the
    instructions that occur.  The stack is memory of 64-bit words at multiples of
    eight bytes.  In 64-bit mode an interrupt pushes, and [iretq] pops, five words
    whatever the privilege levels are. *)
From stdpp Require Import base tactics numbers list.
From Stdlib Require Import ZArith Lia.
From S2P Require Import Prelude Phys KMem Slab Vcpu.

Local Open Scope Z_scope.
Local Open Scope word_scope.

(** ** Machine *)

Inductive reg := RAX | RBX | RCX | RDX | RSI | RDI | RBP | RSP | R8 | R9 | R10 | R11 | R12 | R13 | R14 | R15.

#[export] Instance reg_eq_dec : EqDecision reg.
Proof. solve_decision. Defined.

Record Cpu := mkCpu {
  regs : reg -> Z;
  zf : bool;
  eip : Z; ecs : Z; eflags : Z; ess : Z;
  mem : Z -> Z;
  gs : Z; kernel_gs : Z;    (* the two bases [swapgs] exchanges *)
  cr3_reg : Z;
  fpu_image : Z;            (* address of the image last loaded by [fxrstor] *)
}.

Definition upd {A B} `{!EqDecision A} (f : A -> B) (a : A) (b : B) : A -> B := fun x => if decide (x = a) then b else f x.

Definition set_reg (c : Cpu) (r : reg) (v : Z) : Cpu :=
  mkCpu (upd (regs c) r v) (zf c) (eip c) (ecs c) (eflags c) (ess c) (mem c) (gs c) (kernel_gs c) (cr3_reg c) (fpu_image c).
Definition set_zf (c : Cpu) (b : bool) : Cpu :=
  mkCpu (regs c) b (eip c) (ecs c) (eflags c) (ess c) (mem c) (gs c) (kernel_gs c) (cr3_reg c) (fpu_image c).
Definition set_mem (c : Cpu) (a v : Z) : Cpu :=
  mkCpu (regs c) (zf c) (eip c) (ecs c) (eflags c) (ess c) (upd (mem c) a v) (gs c) (kernel_gs c) (cr3_reg c) (fpu_image c).
Definition set_return (c : Cpu) (rip cs rflags ss : Z) : Cpu :=
  mkCpu (regs c) (zf c) rip cs rflags ss (mem c) (gs c) (kernel_gs c) (cr3_reg c) (fpu_image c).
Definition do_swapgs (c : Cpu) : Cpu :=
  mkCpu (regs c) (zf c) (eip c) (ecs c) (eflags c) (ess c) (mem c) (kernel_gs c) (gs c) (cr3_reg c) (fpu_image c).
Definition set_cr3 (c : Cpu) (v : Z) : Cpu :=
  mkCpu (regs c) (zf c) (eip c) (ecs c) (eflags c) (ess c) (mem c) (gs c) (kernel_gs c) v (fpu_image c).
Definition set_fpu_image (c : Cpu) (v : Z) : Cpu :=
  mkCpu (regs c) (zf c) (eip c) (ecs c) (eflags c) (ess c) (mem c) (gs c) (kernel_gs c) (cr3_reg c) v.

Definition push (c : Cpu) (v : Z) : Cpu :=
  let a := regs c RSP -u64 8 in set_reg (set_mem c a v) RSP a.
Definition pop (c : Cpu) (r : reg) : Cpu :=
  let a := regs c RSP in set_reg (set_reg c RSP (a +u64 8)) r (mem c a).

Inductive instr :=
  | PUSHI (n : Z) | PUSH (r : reg) | PUSHM (base : reg) (off : Z) | POP (r : reg)
  | MOV (d s : reg) | MOVM (d base : reg) (off : Z) | MOVGS (d : reg) (off : Z)
  | ADDI (r : reg) (n : Z) | SUBI (r : reg) (n : Z) | ANDI (r : reg) (n : Z) | SHRI (r : reg) (n : Z)
  | TEST (r : reg) | TESTM (base : reg) (off n : Z) | CMPI (r : reg) (n : Z) | CMPM (base : reg) (off n : Z)
  | JNZ (l : Z) | JZ (l : Z) | JMP (l : Z) | LABEL (l : Z)
  | SWAPGS | MFENCE | MOVCR3 (r : reg) | FXRSTOR (r : reg) | HLT | CALL | IRETQ.

#[export] Instance instr_eq_dec : EqDecision instr.
Proof. solve_decision. Defined.

(** [iretq]: five words. *)
Definition iret (c : Cpu) : Cpu :=
  let a := regs c RSP in
  set_reg (set_return c (mem c a) (mem c (a +u64 8)) (mem c (a +u64 16)) (mem c (a +u64 32))) RSP (mem c (a +u64 24)).

(** An instruction without a jump, a call or an end. *)
Definition exec1 (i : instr) (c : Cpu) : Cpu :=
  match i with
  | PUSHI n => push c n
  | PUSH r => push c (regs c r)
  | PUSHM b o => push c (mem c (regs c b +u64 o))
  | POP r => pop c r
  | MOV d s => set_reg c d (regs c s)
  | MOVM d b o => set_reg c d (mem c (regs c b +u64 o))
  | MOVGS d o => set_reg c d (mem c (gs c +u64 o))
  | ADDI r n => set_reg c r (regs c r +u64 n)
  | SUBI r n => set_reg c r (regs c r -u64 n)
  | ANDI r n => set_reg c r (Z.land (regs c r) (wrap 64 n))
  | SHRI r n => set_reg c r (Z.shiftr (regs c r) n)
  | TEST r => set_zf c (regs c r =? 0)
  | TESTM b o n => set_zf c (Z.land (mem c (regs c b +u64 o)) n =? 0)
  | CMPI r n => set_zf c (regs c r =? n)
  | CMPM b o n => set_zf c (mem c (regs c b +u64 o) =? n)
  | SWAPGS => do_swapgs c
  | MOVCR3 r => set_cr3 c (regs c r)
  | FXRSTOR r => set_fpu_image c (regs c r)
  | _ => c
  end.

Fixpoint from_label (l : Z) (prog : list instr) : list instr :=
  match prog with
  | [] => []
  | i :: p => if decide (i = LABEL l) then p else from_label l p
  end.

Inductive outcome := Done (c : Cpu) | Stopped (c : Cpu) | OutOfFuel.

Section run.
(** The routine that is called, as a function on the machine. *)
Context (handler : Cpu -> Cpu).

Fixpoint run (fuel : nat) (prog rest : list instr) (c : Cpu) : outcome :=
  match fuel with
  | O => OutOfFuel
  | S fuel =>
    match rest with
    | [] => Stopped c
    | JNZ l :: rest => if zf c then run fuel prog rest c else run fuel prog (from_label l prog) c
    | JZ l :: rest => if zf c then run fuel prog (from_label l prog) c else run fuel prog rest c
    | JMP l :: _ => run fuel prog (from_label l prog) c
    | HLT :: _ => Stopped c
    | CALL :: rest => run fuel prog rest (handler c)
    | IRETQ :: _ => Done (iret c)
    | i :: rest => run fuel prog rest (exec1 i c)
    end
  end.
End run.

(** ** The code *)

(** The registers in the order they are pushed; the frame has them in reverse. *)
Definition saved_regs : list reg := [RDI; RSI; RBP; RDX; RCX; RBX; RAX; R8; R9; R10; R11; R12; R13; R14; R15].
Definition restored_regs : list reg := [R15; R14; R13; R12; R11; R10; R9; R8; RAX; RBX; RCX; RDX; RBP; RSI; RDI].

(** What both stubs do after the vector is pushed. *)
Definition stub_body : list instr :=
  (PUSH <$> saved_regs) ++ [MOV RDI RSP; MOV RCX RSP; SUBI RSP 32; CALL; ADDI RSP 32] ++ (POP <$> restored_regs) ++ [ADDI RSP 16; IRETQ].

Definition stub_noerr (vec : Z) : list instr := PUSHI 0 :: PUSHI vec :: stub_body.
Definition stub_err (vec : Z) : list instr := PUSHI vec :: stub_body.

Definition syscall_entry : list instr :=
  [MOV R10 RSP; MOV RAX R10; SHRI RAX 47; TEST RAX; JNZ 1;
   SWAPGS; MOVGS RSP 8; TEST RSP; JNZ 1;
   LABEL 3; HLT; JMP 3;
   LABEL 1; ANDI RSP (-16);
   PUSHI 0x23; PUSH R10; PUSH R11; PUSHI 0x1B; PUSH RCX; PUSHI 0x80; PUSHI 0] ++
  (PUSH <$> saved_regs) ++
  [MOV RDI RSP; MOV R15 RSP; SUBI RSP 32; CALL; ADDI RSP 32; MOV RSP R15] ++
  (POP <$> restored_regs) ++
  [ADDI RSP 16; CMPM RSP 8 0x1B; JNZ 2; SWAPGS; LABEL 2; IRETQ].

Definition context_switch : list instr :=
  [CMPI R9 0; JZ 2; MFENCE; MOVCR3 R9; LABEL 2; FXRSTOR R10; PUSH R8;
   MOVM R15 R8 0x00; MOVM R14 R8 0x08; MOVM R13 R8 0x10; MOVM R12 R8 0x18; MOVM R11 R8 0x20; MOVM R10 R8 0x28;
   MOVM R9 R8 0x30; MOVM RAX R8 0x40; MOVM RBX R8 0x48; MOVM RCX R8 0x50; MOVM RDX R8 0x58; MOVM RBP R8 0x60;
   MOVM RSI R8 0x68; MOVM RDI R8 0x70; POP R8;
   TESTM R8 0x90 3; JNZ 3;
   CMPM R8 0xa0 0; JZ 5; MOVM RSP R8 0xa0; LABEL 5;
   PUSHM R8 0x98; PUSHM R8 0x90; PUSHM R8 0x88; JMP 4;
   LABEL 3; PUSHM R8 0xa8; PUSHM R8 0xa0; PUSHM R8 0x98; PUSHM R8 0x90; PUSHM R8 0x88;
   LABEL 4; MOVM R8 R8 0x38; IRETQ].

(** ** The frame in memory *)

Definition frame_words (f : TrapFrame) : list Z :=
  [r15 f; r14 f; r13 f; r12 f; r11 f; r10 f; r9 f; r8 f; rax f; rbx f; rcx f; rdx f; rbp f; rsi f; rdi f;
   vector f; error_code f; rip f; cs f; rflags f; rsp f; ss f].

(** Memory holds the words at [a], [a + 8], ... *)
Fixpoint words_at (m : Z -> Z) (a : Z) (l : list Z) : Prop :=
  match l with
  | [] => True
  | w :: l => m a = w /\ words_at m (a + 8) l
  end.

Definition frame_at (m : Z -> Z) (a : Z) (f : TrapFrame) : Prop := words_at m a (frame_words f).

(** ** Interrupt delivery

    [stack] is the stack the gate selects: an IST stack, [rsp0] or the current
    one.  The processor aligns it and pushes five words, and for some exceptions
    an error code. *)

Definition RFLAGS_IF_BIT : Z := 0x200.

Definition deliver (stack : Z) (err : option Z) (handler_cs entry : Z) (c : Cpu) : Cpu :=
  let c1 := set_reg c RSP (stack - stack mod 16) in
  let c2 := push (push (push (push (push c1 (ess c)) (regs c RSP)) (eflags c)) (ecs c)) (eip c) in
  let c3 := match err with Some e => push c2 e | None => c2 end in
  set_return c3 entry handler_cs (Z.land (eflags c) (not64 RFLAGS_IF_BIT)) (ess c).

(** The frame an interrupted state is saved as. *)
Definition interrupted (c : Cpu) (vec err : Z) : TrapFrame :=
  mkFrame (regs c R15) (regs c R14) (regs c R13) (regs c R12) (regs c R11) (regs c R10) (regs c R9) (regs c R8) (regs c RAX)
    (regs c RBX) (regs c RCX) (regs c RDX) (regs c RBP) (regs c RSI) (regs c RDI) vec err (eip c) (ecs c) (eflags c)
    (regs c RSP) (ess c).

(** ** Descriptors *)

Record IdtEntry := mkGate {
  offset_low : Z; selector : Z; ist : Z; type_attr : Z; offset_mid : Z; offset_high : Z; reserved : Z;
}.

Definition KERNEL_CODE_SEL : Z := 0x08.
Definition KERNEL_DATA_SEL : Z := 0x10.
Definition TSS_SEL : Z := 0x28.

Definition gate_empty : IdtEntry := mkGate 0 0 0 0 0 0 0.
Definition interrupt_gate (handler ist : Z) : IdtEntry :=
  mkGate (wrap 16 (Z.land handler 0xFFFF)) KERNEL_CODE_SEL ist 0x8E (wrap 16 (Z.land (Z.shiftr handler 16) 0xFFFF))
    (wrap 32 (Z.land (Z.shiftr handler 32) 0xFFFFFFFF)) 0.

Inductive stub := StubErr (vec : Z) | StubNoerr (vec : Z).

Definition stub_code (s : stub) : list instr := match s with StubErr v => stub_err v | StubNoerr v => stub_noerr v end.

(** The stubs defined. *)
Definition exception_stub (v : Z) : stub :=
  if bool_decide (v ∈ [8; 10; 11; 12; 13; 14; 17; 21]) then StubErr v else StubNoerr v.

(** The gates [init] sets, in order: vector, stub and IST. *)
Definition idt_gates : list (Z * stub * Z) :=
  ((fun v => (v, exception_stub v, if v =? 2 then 3 else if v =? 8 then 1 else 0)) <$> (seqZ 0 15 ++ seqZ 16 16)) ++
  [(32, StubNoerr 32, 0)] ++ ((fun v => (v, StubNoerr v, 2)) <$> seqZ 33 31) ++ [(255, StubNoerr 255, 2); (0x81, StubNoerr 0x81, 2)].

Definition set_gate (addr : stub -> Z) (idt : list IdtEntry) (g : Z * stub * Z) : list IdtEntry :=
  let '(v, s, i) := g in <[Z.to_nat v := interrupt_gate (addr s) i]> idt.

Definition idt_init (addr : stub -> Z) : list IdtEntry := fold_left (set_gate addr) idt_gates (replicate 256 gate_empty).

Definition KERNEL_CODE : Z := 0x9A.
Definition KERNEL_DATA : Z := 0x92.
Definition USER_CODE : Z := 0xFA.
Definition USER_DATA : Z := 0xF2.
Definition LONG_MODE : Z := 0xA.

Definition make_descriptor (base limit access granularity : Z) : Z :=
  let limit_low := Z.land limit 0xFFFF in
  let base_low := Z.land base 0xFFFF in
  let base_mid := Z.land (Z.shiftr base 16) 0xFF in
  let flags_limit_high := Z.lor (Z.shiftl granularity 4) (Z.land (Z.shiftr limit 16) 0x0F) in
  let base_high := Z.land (Z.shiftr base 24) 0xFF in
  Z.lor (Z.lor (Z.lor (Z.lor (Z.lor limit_low (Z.shiftl base_low 16)) (Z.shiftl base_mid 32)) (Z.shiftl access 40))
    (Z.shiftl flags_limit_high 48)) (Z.shiftl base_high 56).

Definition make_tss_descriptor (base limit : Z) : Z * Z :=
  let base_lo16 := Z.land base 0xFFFF in
  let base_mid8 := Z.land (Z.shiftr base 16) 0xFF in
  let base_hi8 := Z.land (Z.shiftr base 24) 0xFF in
  let base_hi32 := wrap 32 (Z.shiftr base 32) in
  let limit_lo16 := Z.land limit 0xFFFF in
  (Z.lor (Z.lor (Z.lor (Z.lor (Z.lor limit_lo16 (Z.shiftl base_lo16 16)) (Z.shiftl base_mid8 32)) (Z.shiftl 0x89 40))
    (Z.shiftl 0 48)) (Z.shiftl base_hi8 56), base_hi32).

Record Gdt := mkGdt { gdt_null : Z; kernel_code : Z; kernel_data : Z; user_code : Z; user_data : Z; tss_low : Z; tss_high : Z }.

Definition gdt_static : Gdt :=
  mkGdt 0 (make_descriptor 0 0xFFFFF KERNEL_CODE LONG_MODE) (make_descriptor 0 0xFFFFF KERNEL_DATA LONG_MODE)
    (make_descriptor 0 0xFFFFF USER_CODE LONG_MODE) (make_descriptor 0 0xFFFFF USER_DATA LONG_MODE) 0 0.

(** The table as the processor indexes it. *)
Definition gdt_entries (g : Gdt) : list Z := [gdt_null g; kernel_code g; kernel_data g; user_code g; user_data g; tss_low g; tss_high g].

Record Tss := mkTss { tss_rsp0_ : Z; ist1 : Z; ist2 : Z; ist3 : Z }.

(** The tables of one CPU: where its static parts lie, and their contents. *)
Record SegAddrs := mkSegAddrs { a_tss : Z; a_gdt : Z; a_ist1 : Z; a_ist2 : Z; a_ist3 : Z; a_dummy : Z }.
Record Segments := mkSegments { seg_gdt : Gdt; seg_tss : Tss; gdt_ptr : Z * Z }.

Definition SIZEOF_TSS : Z := 104.
Definition SIZEOF_GDT : Z := 56.

Definition ist_top (stack : Z) : Z := HIGHER_HALF +u64 (stack +u64 16384).

Definition init_tss_descriptor_for_slot (a : SegAddrs) (s : Segments) : Segments :=
  let '(lo, hi) := make_tss_descriptor (a_tss a) (SIZEOF_TSS - 1) in
  let g := seg_gdt s in
  mkSegments (mkGdt (gdt_null g) (kernel_code g) (kernel_data g) (user_code g) (user_data g) lo hi)
    (mkTss (HIGHER_HALF +u64 (a_dummy a +u64 4096)) (ist_top (a_ist1 a)) (ist_top (a_ist2 a)) (ist_top (a_ist3 a)))
    (SIZEOF_GDT - 1, a_gdt a).

(** [init_for_slot] up to loading the registers; [None] is its assertion. *)
Definition init_for_slot (a : SegAddrs) (s : Segments) : option Segments :=
  let ext := Z.shiftr (a_tss a) 47 in
  if (ext =? 0) || (ext =? 0x1FFFF) then Some (init_tss_descriptor_for_slot a s) else None.

Definition tss_set_rsp0_for_slot (s : Segments) (rsp0 : Z) : Segments :=
  mkSegments (seg_gdt s) (mkTss rsp0 (ist1 (seg_tss s)) (ist2 (seg_tss s)) (ist3 (seg_tss s))) (gdt_ptr s).

(** The 104 bytes of a TSS in memory, fields in the order of the packed struct. *)
Fixpoint bytes_le (n : nat) (v : Z) : list Z :=
  match n with
  | O => []
  | S n => v mod 256 :: bytes_le n (v / 256)
  end.

Definition tss_bytes (t : Tss) : list Z :=
  bytes_le 4 0 ++ bytes_le 8 (tss_rsp0_ t) ++ bytes_le 8 0 ++ bytes_le 8 0 ++ bytes_le 8 0 ++
  bytes_le 8 (ist1 t) ++ bytes_le 8 (ist2 t) ++ bytes_le 8 (ist3 t) ++ bytes_le 8 0 ++ bytes_le 8 0 ++ bytes_le 8 0 ++ bytes_le 8 0 ++
  bytes_le 4 0 ++ bytes_le 2 0 ++ bytes_le 2 0 ++ replicate 4 0.

(** The processor's rule for [in] and [out] above IOPL: the base of the permission
    map is the 16-bit word at offset 102; two bytes of the map must lie within
    the limit, and the bit of the port must be clear. *)
Definition io_permitted (tss : list Z) (limit port : Z) : bool :=
  let at_ i := default 0 (tss !! Z.to_nat i) in
  let base := at_ 102 + 256 * at_ 103 in
  (base + port / 8 + 1 <=? limit) && negb (Z.testbit (at_ (base + port / 8)) (port mod 8)).
