(* ===== verification/EntryThms.v ===== *)
(** Entry and exit of the kernel: what the stubs save is what they restore, a
    context switch resumes exactly the saved state, and what the system call
    entry hands to the kernel. *)
From stdpp Require Import base tactics numbers list sets.
From Stdlib Require Import ZArith Lia.
From S2P Require Import Prelude Phys KMem Virt Vma Exec Slab Vcpu Percpu Scheduler Entry.

Local Open Scope Z_scope.

(** ** Numbers as bytes *)

Lemma length_bytes_le n v : length (bytes_le n v) = n.
Proof. revert v. induction n as [|n IH]; intros v; [done|]. cbn. by rewrite IH. Qed.

Lemma le_bytes_of n v : 0 <= v < 256 ^ Z.of_nat n -> le (bytes_le n v) = v.
Proof.
  revert v. induction n as [|n IH]; intros v Hv; [simpl in *; lia|]. rewrite Nat2Z.inj_succ, Z.pow_succ_r in Hv by lia. cbn [bytes_le le].
  rewrite IH; [div_lia|]. split; [apply Z.div_pos; lia|apply Z.div_lt_upper_bound; lia].
Qed.

(** ** Pushes and pops *)

Lemma reg_upd_eq {A B} `{!EqDecision A} (f : A -> B) a b : upd f a b a = b.
Proof. unfold upd. by rewrite decide_True. Qed.

Lemma reg_upd_ne {A B} `{!EqDecision A} (f : A -> B) a b x : x <> a -> upd f a b x = f x.
Proof. intros H. unfold upd. by rewrite decide_False. Qed.

(** The part of the state that pushes, pops and moves leave alone. *)
Definition control (c : Cpu) : Z * Z * Z * Z * Z * Z * Z * Z :=
  (eip c, ecs c, eflags c, ess c, gs c, kernel_gs c, cr3_reg c, fpu_image c).

Lemma words_at_app m a l k : words_at m a (l ++ k) <-> words_at m a l /\ words_at m (a + 8 * Z.of_nat (length l)) k.
Proof.
  revert a. induction l as [|w l IH]; intros a.
  - rewrite Z.add_0_r. cbn. tauto.
  - cbn [app words_at length]. rewrite IH. replace (a + 8 + 8 * Z.of_nat (length l)) with (a + 8 * Z.of_nat (S (length l))) by lia. tauto.
Qed.

Lemma words_at_ext m m' a l :
  (forall x, a <= x < a + 8 * Z.of_nat (length l) -> m' x = m x) -> words_at m a l -> words_at m' a l.
Proof.
  revert a. induction l as [|w l IH]; intros a H; [done|]. intros [H1 H2]. cbn [length] in H. split.
  - rewrite H by lia. done.
  - apply IH; [|done]. intros x Hx. apply H. lia.
Qed.

Lemma words_at_lookup m a l i w : words_at m a l -> l !! i = Some w -> m (a + 8 * Z.of_nat i) = w.
Proof.
  revert a i. induction l as [|x l IH]; intros a i; [done|]. intros [H1 H2]. destruct i as [|i]; cbn.
  - intros [= ->]. by rewrite Z.add_0_r.
  - intros H. replace (a + _) with (a + 8 + 8 * Z.of_nat i) by lia. by apply IH.
Qed.

Lemma push_regs c v x : x <> RSP -> regs (push c v) x = regs c x.
Proof. intros H. cbn. by rewrite reg_upd_ne. Qed.

Lemma push_rsp c v : 8 <= regs c RSP < 2 ^ 64 -> regs (push c v) RSP = regs c RSP - 8.
Proof. intros H. cbn. rewrite reg_upd_eq. apply wrap_small. lia. Qed.

Lemma pushes_spec vs c :
  8 * Z.of_nat (length vs) <= regs c RSP < 2 ^ 64 ->
  let c' := fold_left push vs c in
  let lo := regs c RSP - 8 * Z.of_nat (length vs) in
  regs c' RSP = lo /\ (forall x, x <> RSP -> regs c' x = regs c x) /\ words_at (mem c') lo (rev vs) /\
  (forall a, a < lo \/ regs c RSP <= a -> mem c' a = mem c a) /\ control c' = control c.
Proof.
  revert c. induction vs as [|v vs IH]; intros c Hr; cbn [length] in *.
  - cbn. split_and!; [lia|done|done|done|done].
  - pose proof (push_rsp c v ltac:(lia)) as Ersp. cbn [fold_left].
    destruct (IH (push c v)) as (H1 & H2 & H3 & H4 & H5); [lia|].
    cbv zeta. rewrite Ersp in *.
    replace (regs c RSP - 8 * Z.of_nat (S (length vs))) with (regs c RSP - 8 - 8 * Z.of_nat (length vs)) by lia.
    split_and!; [done| | | |by rewrite H5].
    + intros x Hx. rewrite H2 by done. by apply push_regs.
    + cbn [rev]. apply words_at_app. split; [done|]. split; [|done]. rewrite length_rev, H4 by lia.
      cbn. rewrite wrap_small by lia.
      replace (regs c RSP - 8 - 8 * Z.of_nat (length vs) + 8 * Z.of_nat (length vs)) with (regs c RSP - 8) by lia. apply reg_upd_eq.
    + intros a Ha. rewrite H4 by lia. cbn. rewrite wrap_small by lia. apply reg_upd_ne. lia.
Qed.

Lemma pops_spec rs : forall c ws,
  words_at (mem c) (regs c RSP) ws -> length ws = length rs -> NoDup rs -> RSP ∉ rs ->
  0 <= regs c RSP -> regs c RSP + 8 * Z.of_nat (length rs) < 2 ^ 64 ->
  let c' := fold_left pop rs c in
  regs c' RSP = regs c RSP + 8 * Z.of_nat (length rs) /\ (regs c' <$> rs) = ws /\
  (forall x, x <> RSP -> x ∉ rs -> regs c' x = regs c x) /\ mem c' = mem c /\ control c' = control c.
Proof.
  induction rs as [|r rs IH]; intros c ws Hw Hl Hnd Hrsp H0 Hhi; cbn [length] in *.
  - destruct ws; [|done]. cbn. split_and!; [lia|done|done|done|done].
  - destruct ws as [|w ws]; [done|]. destruct Hw as [Hw1 Hw2]. apply NoDup_cons in Hnd as [Hn Hnd].
    apply not_elem_of_cons in Hrsp as [Hr Hrsp].
    assert (regs (pop c r) RSP = regs c RSP + 8) as E.
    { cbn. rewrite reg_upd_ne by done. rewrite reg_upd_eq. apply wrap_small. lia. }
    destruct (IH (pop c r) ws) as (H1 & H2 & H3 & H4 & H5); [by rewrite E|by injection Hl|done|done|lia|lia|].
    cbn [fold_left]. cbv zeta. rewrite E in *. split_and!.
    + rewrite H1. lia.
    + cbn [fmap list_fmap]. rewrite H2. f_equal. rewrite H3 by done. cbn. by rewrite reg_upd_eq.
    + intros x Hx [Hxr Hxn]%not_elem_of_cons. rewrite H3 by done. cbn. by rewrite !reg_upd_ne.
    + by rewrite H4.
    + by rewrite H5.
Qed.

(** ** Runs *)

Lemma run_pushes h rs : forall n prog rest c,
  RSP ∉ rs -> run h (length rs + n) prog ((PUSH <$> rs) ++ rest) c = run h n prog rest (fold_left push (regs c <$> rs) c).
Proof.
  induction rs as [|r rs IH]; intros n prog rest c Hn; [done|]. apply not_elem_of_cons in Hn as [Hr Hn].
  cbn [length Nat.add fmap list_fmap app fold_left]. cbn [run exec1]. change (list_fmap instr reg) with (@fmap list _ reg instr).
  rewrite IH by done. f_equal. f_equal.
  apply list_fmap_ext. intros i x Hx. apply push_regs. intros ->. apply Hn. by eapply list_elem_of_lookup_2.
Qed.

Lemma run_pops h rs : forall n prog rest c,
  run h (length rs + n) prog ((POP <$> rs) ++ rest) c = run h n prog rest (fold_left pop rs c).
Proof. induction rs as [|r rs IH]; intros n prog rest c; [done|]. cbn. apply IH. Qed.

Definition plain (i : instr) : bool :=
  match i with JNZ _ | JZ _ | JMP _ | HLT | CALL | IRETQ => false | _ => true end.

Lemma run_plain h n prog i rest c : plain i = true -> run h (S n) prog (i :: rest) c = run h n prog rest (exec1 i c).
Proof. by destruct i. Qed.

Lemma run_call h n prog rest c : run h (S n) prog (CALL :: rest) c = run h n prog rest (h c).
Proof. done. Qed.

Lemma run_iret h n prog rest c : run h (S n) prog (IRETQ :: rest) c = Done (iret c).
Proof. done. Qed.

(** The general registers of a frame. *)
Definition gpr_of (f : TrapFrame) (r : reg) : Z :=
  match r with
  | RAX => rax f | RBX => rbx f | RCX => rcx f | RDX => rdx f | RSI => rsi f | RDI => rdi f | RBP => rbp f | RSP => rsp f
  | R8 => r8 f | R9 => r9 f | R10 => r10 f | R11 => r11 f | R12 => r12 f | R13 => r13 f | R14 => r14 f | R15 => r15 f
  end.

(** The machine runs on from the frame: every register has its value. *)
Definition resumed (c : Cpu) (f : TrapFrame) : Prop :=
  (forall r, regs c r = gpr_of f r) /\ eip c = rip f /\ ecs c = cs f /\ eflags c = rflags f /\ ess c = ss f.

Lemma frame_split m a f :
  frame_at m a f ->
  words_at m a (gpr_of f <$> restored_regs) /\ m (a + 136) = rip f /\ m (a + 144) = cs f /\ m (a + 152) = rflags f /\
  m (a + 160) = rsp f /\ m (a + 168) = ss f.
Proof.
  intros H. split.
  - unfold frame_at in H. change (frame_words f) with ((gpr_of f <$> restored_regs) ++ [vector f; error_code f; rip f; cs f; rflags f; rsp f; ss f]) in H.
    by apply words_at_app in H as [H _].
  - split_and!; [apply (words_at_lookup _ _ _ 17 _ H)|apply (words_at_lookup _ _ _ 18 _ H)|apply (words_at_lookup _ _ _ 19 _ H)|
      apply (words_at_lookup _ _ _ 20 _ H)|apply (words_at_lookup _ _ _ 21 _ H)]; done.
Qed.

Lemma restored_all r : r <> RSP -> exists i, restored_regs !! i = Some r.
Proof.
  intros H. apply list_elem_of_lookup_1. destruct r; try done; unfold restored_regs; set_solver.
Qed.

(** From the frame at the stack pointer: the pops, then [iretq] 16 bytes further. *)
Lemma pops_and_iret c f :
  frame_at (mem c) (regs c RSP) f -> 0 <= regs c RSP -> regs c RSP + 176 < 2 ^ 64 ->
  let c1 := exec1 (ADDI RSP 16) (fold_left pop restored_regs c) in
  regs c1 RSP = regs c RSP + 136 /\ mem c1 = mem c /\ control c1 = control c /\
  forall c2, (forall r, regs c2 r = regs c1 r) -> mem c2 = mem c1 -> resumed (iret c2) f.
Proof.
  intros Hf H0 Hhi. apply frame_split in Hf as (Hg & Hrip & Hcs & Hfl & Hsp & Hss).
  destruct (pops_spec restored_regs c _ Hg) as (H1 & H2 & H3 & H4 & H5); [done|by apply (bool_decide_unpack _); vm_compute|
    by apply (bool_decide_unpack _); vm_compute|done|cbn; lia|].
  cbn [length restored_regs] in H1. change (8 * Z.of_nat 15) with 120 in H1. cbv zeta.
  set (c0 := fold_left pop restored_regs c) in *. clearbody c0.
  assert (regs (exec1 (ADDI RSP 16) c0) RSP = regs c RSP + 136) as E.
  { cbn. rewrite reg_upd_eq, H1. rewrite wrap_small; lia. }
  split_and!; [done|done|done|].
  intros c2 Hr Hm. change (mem (exec1 (ADDI RSP 16) c0)) with (mem c0) in Hm.
  unfold resumed. cbn [iret set_return set_reg eip ecs eflags ess regs]. rewrite Hr, Hm, E, H4.
  rewrite !wrap_small by lia.
  replace (regs c RSP + 136 + 8) with (regs c RSP + 144) by lia. replace (regs c RSP + 136 + 16) with (regs c RSP + 152) by lia.
  replace (regs c RSP + 136 + 24) with (regs c RSP + 160) by lia. replace (regs c RSP + 136 + 32) with (regs c RSP + 168) by lia.
  split_and!; try done. intros r. unfold iret, set_reg, set_return. cbn [regs].
  destruct (decide (r = RSP)) as [->|Hne]; [by rewrite reg_upd_eq|].
  rewrite reg_upd_ne by done. rewrite Hr. cbn. rewrite reg_upd_ne by done.
  destruct (restored_all r Hne) as [i Hi].
  assert ((regs c0 <$> restored_regs) !! i = (gpr_of f <$> restored_regs) !! i) as Hl by by rewrite H2.
  rewrite !list_lookup_fmap, Hi in Hl. by injection Hl.
Qed.

(** ** Interrupts *)

(** What a handler owes its caller: called with the address of the frame in the
    first argument register of either calling convention, it returns with the
    stack pointer it was given, and leaves the frame [f'] where [f] was. *)
Definition handles (h : Cpu -> Cpu) (F : Z) (f f' : TrapFrame) : Prop :=
  forall c, regs c RSP = F - 32 -> regs c RDI = F -> frame_at (mem c) F f ->
    regs (h c) RSP = F - 32 /\ frame_at (mem (h c)) F f'.

Lemma saved_words f : rev (gpr_of f <$> saved_regs) ++ [vector f; error_code f; rip f; cs f; rflags f; rsp f; ss f] = frame_words f.
Proof. done. Qed.

(** The pushes of the general registers complete the frame. *)
Lemma pushes_frame c f :
  120 <= regs c RSP < 2 ^ 64 ->
  words_at (mem c) (regs c RSP) [vector f; error_code f; rip f; cs f; rflags f; rsp f; ss f] ->
  (forall r, r <> RSP -> regs c r = gpr_of f r) ->
  let c' := fold_left push (regs c <$> saved_regs) c in
  regs c' RSP = regs c RSP - 120 /\ frame_at (mem c') (regs c RSP - 120) f /\ control c' = control c /\
  (forall r, r <> RSP -> regs c' r = regs c r).
Proof.
  intros Hr Hw Hg. cbv zeta.
  assert ((regs c <$> saved_regs) = (gpr_of f <$> saved_regs)) as E.
  { unfold saved_regs. cbn [fmap list_fmap]. by rewrite !Hg. }
  destruct (pushes_spec (regs c <$> saved_regs) c) as (H1 & H2 & H3 & H4 & H5); [cbn; lia|].
  change (8 * Z.of_nat (length (regs c <$> saved_regs))) with 120 in *.
  split_and!; [done| |done|done].
  unfold frame_at. rewrite <- saved_words. apply words_at_app. rewrite <- E at 1. split; [done|].
  eapply words_at_ext; [|replace (_ + _) with (regs c RSP); [exact Hw|]].
  - intros x Hx. apply H4. rewrite length_rev in Hx. right.
    change (length (gpr_of f <$> saved_regs)) with 15%nat in Hx. lia.
  - rewrite length_rev. change (length (gpr_of f <$> saved_regs)) with 15%nat. lia.
Qed.

Lemma mem_set_reg c r v : mem (set_reg c r v) = mem c.
Proof. done. Qed.

Lemma stub_body_run h prog n c :
  run h (37 + n) prog stub_body c =
  Done (iret (exec1 (ADDI RSP 16) (fold_left pop restored_regs (exec1 (ADDI RSP 32) (h (exec1 (SUBI RSP 32)
    (exec1 (MOV RCX RSP) (exec1 (MOV RDI RSP) (fold_left push (regs c <$> saved_regs) c))))))))).
Proof.
  unfold stub_body. replace (37 + n)%nat with (length saved_regs + (5 + (length restored_regs + (2 + n))))%nat by reflexivity.
  rewrite run_pushes by (by apply (bool_decide_unpack _); vm_compute).
  generalize (fold_left push (regs c <$> saved_regs) c). intros c1.
  replace (5 + (length restored_regs + (2 + n)))%nat with (S (S (S (S (S (length restored_regs + (S (S n)))))))) by reflexivity.
  rewrite <- app_comm_cons, run_plain by done.
  rewrite <- app_comm_cons, run_plain by done.
  rewrite <- app_comm_cons, run_plain by done.
  rewrite <- app_comm_cons, run_call by done.
  rewrite <- app_comm_cons, run_plain by done.
  rewrite app_nil_l. rewrite run_pops. 
  rewrite run_plain, run_iret by done. reflexivity.
Qed.

Lemma stub_body_resumes h prog n c f f' :
  152 <= regs c RSP -> regs c RSP + 56 < 2 ^ 64 ->
  words_at (mem c) (regs c RSP) [vector f; error_code f; rip f; cs f; rflags f; rsp f; ss f] ->
  (forall r, r <> RSP -> regs c r = gpr_of f r) ->
  handles h (regs c RSP - 120) f f' ->
  exists c', run h (37 + n) prog stub_body c = Done c' /\ resumed c' f'.
Proof.
  intros Hlo Hhi Hw Hg Hh.
  destruct (pushes_frame c f) as (H1 & H2 & _ & _); [lia|done|done|].
  set (F := regs c RSP - 120) in *. remember (fold_left push (regs c <$> saved_regs) c) as c1 eqn:Ec1.
  remember (exec1 (SUBI RSP 32) (exec1 (MOV RCX RSP) (exec1 (MOV RDI RSP) c1))) as c2 eqn:Ec2.
  assert (regs c2 RSP = F - 32) as E1.
  { rewrite Ec2. cbn [exec1 set_reg regs]. rewrite reg_upd_eq. rewrite !reg_upd_ne by done. rewrite H1. apply wrap_small. lia. }
  assert (regs c2 RDI = F) as E2.
  { rewrite Ec2. cbn [exec1 set_reg regs]. rewrite !reg_upd_ne by done. by rewrite reg_upd_eq. }
  assert (mem c2 = mem c1) as Em by (rewrite Ec2; cbn [exec1]; by rewrite !mem_set_reg).
  destruct (Hh c2 E1 E2) as [Hsp Hf']; [by rewrite Em|].
  remember (exec1 (ADDI RSP 32) (h c2)) as c3 eqn:Ec3.
  assert (regs c3 RSP = F) as E3.
  { rewrite Ec3. cbn [exec1 set_reg regs]. rewrite reg_upd_eq, Hsp. rewrite wrap_small; lia. }
  assert (mem c3 = mem (h c2)) as Em3 by (rewrite Ec3; apply mem_set_reg).
  destruct (pops_and_iret c3 f') as (_ & _ & _ & Hr); [by rewrite E3, Em3|lia|lia|].
  remember (exec1 (ADDI RSP 16) (fold_left pop restored_regs c3)) as c4 eqn:Ec4.
  exists (iret c4). split; [|by apply Hr]. rewrite stub_body_run. by rewrite <- Ec1, <- Ec2, <- Ec3, <- Ec4.
Qed.

Lemma push_set_return c a b d e v : push (set_return c a b d e) v = set_return (push c v) a b d e.
Proof. done. Qed.

(** The state in which the body of a stub starts. *)
Lemma deliver_pushes stack err cs0 entry c vec :
  let stub_pushes d := match err with Some _ => push d vec | None => push (push d 0) vec end in
  stub_pushes (deliver stack err cs0 entry c) =
  set_return (fold_left push [ess c; regs c RSP; eflags c; ecs c; eip c; default 0 err; vec] (set_reg c RSP (stack - stack mod 16)))
    entry cs0 (Z.land (eflags c) (not64 RFLAGS_IF_BIT)) (ess c).
Proof. cbv zeta. unfold deliver. by destruct err; rewrite !push_set_return. Qed.

Lemma set_return_parts c a b d e : regs (set_return c a b d e) = regs c /\ mem (set_return c a b d e) = mem c.
Proof. done. Qed.

Lemma deliver_state stack err vec entry c :
  256 <= stack < 2 ^ 64 - 256 ->
  let F := stack - stack mod 16 - 176 in
  exists c1, match err with Some _ => push (deliver stack err KERNEL_CODE_SEL entry c) vec
    | None => push (push (deliver stack err KERNEL_CODE_SEL entry c) 0) vec end = c1 /\
    regs c1 RSP = F + 120 /\ words_at (mem c1) (F + 120) [vec; default 0 err; eip c; ecs c; eflags c; regs c RSP; ess c] /\
    forall r, r <> RSP -> regs c1 r = regs c r.
Proof.
  intros Hst F. eexists. split; [reflexivity|].
  rewrite (deliver_pushes stack err KERNEL_CODE_SEL entry c vec).
  pose proof (Z.mod_pos_bound stack 16 ltac:(lia)) as Hm.
  set (c0 := set_reg c RSP (stack - stack mod 16)).
  assert (regs c0 RSP = stack - stack mod 16) as E0 by apply reg_upd_eq.
  assert (forall r, r <> RSP -> regs c0 r = regs c r) as E0' by (intros r Hr; by apply reg_upd_ne).
  clearbody c0. set (l := [ess c; regs c RSP; eflags c; ecs c; eip c; default 0 err; vec]).
  destruct (pushes_spec l c0) as (H1 & H2 & H3 & H4 & _); [rewrite E0; change (8 * Z.of_nat (length l)) with 56; lia|].
  change (8 * Z.of_nat (length l)) with 56 in H1, H3. rewrite E0 in H1, H3.
  set (c2 := fold_left push l c0) in *. clearbody c2.
  destruct (set_return_parts c2 entry KERNEL_CODE_SEL (Z.land (eflags c) (not64 RFLAGS_IF_BIT)) (ess c)) as [-> ->].
  replace (F + 120) with (stack - stack mod 16 - 56) by (unfold F; lia).
  split; [done|]. split; [exact H3|]. intros r Hr. by rewrite H2, E0'.
Qed.

(** C20: What an interrupt saves is what its end restores. Whatever was running,
    with or without an error code, on whichever stack, the handler is called with
    the address of a 16-byte aligned frame holding every register of the
    interrupted state, the vector and the error code; and the stub then resumes
    exactly the state the handler left in that frame. In particular an untouched
    frame resumes the interrupted state, register for register. *)
Theorem interrupt_roundtrip h stack err vec entry c f' :
  256 <= stack < 2 ^ 64 - 256 ->
  let F := stack - stack mod 16 - 176 in
  handles h F (interrupted c vec (default 0 err)) f' ->
  F mod 16 = 0 /\
  exists c', let code := if err is Some _ then stub_err vec else stub_noerr vec in
    run h 39 code code (deliver stack err KERNEL_CODE_SEL entry c) = Done c' /\ resumed c' f'.
Proof.
  intros Hst F Hh. split; [unfold F; div_lia|].
  assert (56 < F < 2 ^ 64 - 256) as HF by (unfold F; div_lia).
  set (f := interrupted c vec (default 0 err)) in *.
  destruct (deliver_state stack err vec entry c Hst) as (c1 & Ed & E1 & Hw & Hg). fold F in E1, Hw.
  destruct (stub_body_resumes h (if err is Some _ then stub_err vec else stub_noerr vec) (if err is Some _ then 1 else 0) c1 f f')
    as (c' & Hrun & Hres); [lia|lia|by rewrite E1| |by replace (regs c1 RSP - 120) with F by lia|].
  - intros r Hr. rewrite Hg by done. by destruct r.
  - exists c'. split; [|done]. rewrite <- Hrun. destruct err as [e|]; rewrite <- Ed.
    + unfold stub_err at 2. replace 39%nat with (S (37 + 1)) by reflexivity. by rewrite run_plain.
    + unfold stub_noerr at 2. replace 39%nat with (S (S (37 + 0))) by reflexivity. by rewrite !run_plain.
Qed.

(** An interrupt taken in user mode whose handler puts 7 into the saved RAX. *)
Lemma interrupt_roundtrip_witness :
  let c := mkCpu (fun r => if decide (r = RSP) then 0x7000 else 5) false 0x400123 0x1B 0x202 0x23 (fun _ => 0) 0 0 0 0 in
  let h d := set_mem d (0x8f50 + 64) 7 in
  exists c', run h 39 (stub_err 14) (stub_err 14) (deliver 0x9000 (Some 6) KERNEL_CODE_SEL 0x100 c) = Done c' /\
    regs c' RAX = 7 /\ regs c' RBX = 5 /\ regs c' RSP = 0x7000 /\ eip c' = 0x400123 /\ eflags c' = 0x202.
Proof.
  intros c h.
  destruct (interrupt_roundtrip h 0x9000 (Some 6) 14 0x100 c
    (mkFrame 5 5 5 5 5 5 5 5 7 5 5 5 5 5 5 14 6 0x400123 0x1B 0x202 0x7000 0x23)) as (_ & c' & Hrun & Hg & H1 & _ & H3 & _).
  - lia.
  - intros d Hsp Hdi Hf. split; [exact Hsp|].
    change (0x9000 - 0x9000 mod 16 - 176) with 0x8f50 in *.
    unfold frame_at in *. cbn in Hf. cbn. unfold upd. repeat (rewrite decide_False by discriminate || rewrite decide_True by reflexivity).
    tauto.
  - exists c'. split; [exact Hrun|]. rewrite !Hg, H1, H3. split_and!; reflexivity.
Defined.

(** ** Context switch *)

(** The loads of a context switch. *)
Definition loads (l : list (reg * Z)) (c : Cpu) : Cpu := fold_left (fun c '(r, o) => exec1 (MOVM r R8 o) c) l c.

Lemma run_loads h l : forall n prog rest c,
  run h (length l + n) prog (((fun '(r, o) => MOVM r R8 o) <$> l) ++ rest) c = run h n prog rest (loads l c).
Proof. induction l as [|[r o] l IH]; intros n prog rest c; [done|]. cbn. apply IH. Qed.

Lemma loads_spec l : forall c m a,
  R8 ∉ l.*1 -> NoDup l.*1 -> mem c = m -> regs c R8 = a ->
  mem (loads l c) = m /\ control (loads l c) = control c /\
  (forall x, x ∉ l.*1 -> regs (loads l c) x = regs c x) /\
  (forall r o, (r, o) ∈ l -> regs (loads l c) r = m (wrap 64 (a + o))).
Proof.
  induction l as [|[r o] l IH]; intros c m a H8 Hnd Hm Ha.
  - split_and!; [done|done|done|]. by intros r o ?%not_elem_of_nil.
  - cbn [fmap list_fmap] in *. apply not_elem_of_cons in H8 as [H8r H8]. apply NoDup_cons in Hnd as [Hn Hnd].
    destruct (IH (exec1 (MOVM r R8 o) c) m a) as (H1 & H2 & H3 & H4); [done|done|done| |].
    { cbn. by rewrite reg_upd_ne. }
    change (loads ((r, o) :: l) c) with (loads l (exec1 (MOVM r R8 o) c)). split_and!; [done|by rewrite H2| |].
    + intros x [Hx Hx']%not_elem_of_cons. rewrite H3 by done. cbn. by rewrite reg_upd_ne.
    + intros r' o' [[= -> ->]|Hin]%elem_of_cons; [|by apply H4].
      rewrite H3 by done. cbn. by rewrite reg_upd_eq, Ha, Hm.
Qed.

(** Pushing words of memory that earlier pushes have not overwritten. *)
Lemma run_pushms h offs : forall n prog rest c,
  Forall (fun o => 0 <= regs c R8 + o < 2 ^ 64) offs -> 8 * Z.of_nat (length offs) <= regs c RSP < 2 ^ 64 ->
  (forall i j o, offs !! i = Some o -> (j < i)%nat -> regs c R8 + o <> regs c RSP - 8 * (Z.of_nat j + 1)) ->
  run h (length offs + n) prog ((PUSHM R8 <$> offs) ++ rest) c =
  run h n prog rest (fold_left push ((fun o => mem c (regs c R8 + o)) <$> offs) c).
Proof.
  induction offs as [|o offs IH]; intros n prog rest c Hb Hr Hd; [done|].
  apply Forall_cons in Hb as [Hb Hbs]. cbn [length] in Hr.
  replace (length (o :: offs) + n)%nat with (S (length offs + n)) by done.
  change ((PUSHM R8 <$> o :: offs) ++ rest) with (PUSHM R8 o :: ((PUSHM R8 <$> offs) ++ rest)). rewrite run_plain by done.
  cbn [exec1]. rewrite wrap_small by done. set (v := mem c (regs c R8 + o)).
  pose proof (push_rsp c v ltac:(lia)) as E. pose proof (push_regs c v R8 ltac:(done)) as E8.
  rewrite IH; [|by rewrite E8|rewrite E; lia|].
  - f_equal. cbn [fmap list_fmap fold_left]. fold v. f_equal. apply list_fmap_ext. intros i x Hi. rewrite E8. cbn.
    rewrite wrap_small by lia. apply reg_upd_ne. specialize (Hd (S i) O x Hi). lia.
  - intros i j x Hi Hj. rewrite E, E8. specialize (Hd (S i) (S j) x Hi). lia.
Qed.

Lemma run_mono h n : forall k prog rest c d, run h n prog rest c = Done d -> run h (n + k) prog rest c = Done d.
Proof.
  induction n as [|n IH]; intros k prog rest c d; [done|]. cbn [run Nat.add].
  destruct rest as [|i rest]; [done|]. destruct i; try apply IH; try done; destruct (zf c); apply IH.
Qed.

Lemma run_jz h n prog l rest c : run h (S n) prog (JZ l :: rest) c = run h n prog (if zf c then from_label l prog else rest) c.
Proof. cbn. by destruct (zf c). Qed.

Lemma run_jnz h n prog l rest c : run h (S n) prog (JNZ l :: rest) c = run h n prog (if zf c then rest else from_label l prog) c.
Proof. cbn. by destruct (zf c). Qed.

Lemma run_jmp h n prog l rest c : run h (S n) prog (JMP l :: rest) c = run h n prog (from_label l prog) c.
Proof. done. Qed.

Definition switch_loads : list (reg * Z) :=
  [(R15, 0x00); (R14, 0x08); (R13, 0x10); (R12, 0x18); (R11, 0x20); (R10, 0x28); (R9, 0x30); (RAX, 0x40); (RBX, 0x48); (RCX, 0x50);
   (RDX, 0x58); (RBP, 0x60); (RSI, 0x68); (RDI, 0x70)].

(** The code from the point where the general registers but R8 are loaded. *)
Definition switch_tail : list instr :=
  [POP R8; TESTM R8 0x90 3; JNZ 3; CMPM R8 0xa0 0; JZ 5; MOVM RSP R8 0xa0; LABEL 5] ++ (PUSHM R8 <$> [0x98; 0x90; 0x88]) ++ [JMP 4; LABEL 3] ++
  (PUSHM R8 <$> [0xa8; 0xa0; 0x98; 0x90; 0x88]) ++ [LABEL 4; MOVM R8 R8 0x38; IRETQ].

Lemma context_switch_code :
  context_switch = [CMPI R9 0; JZ 2; MFENCE; MOVCR3 R9; LABEL 2; FXRSTOR R10; PUSH R8] ++ (((fun '(r, o) => MOVM r R8 o) <$> switch_loads) ++ switch_tail) /\
  from_label 2 context_switch = [FXRSTOR R10; PUSH R8] ++ (((fun '(r, o) => MOVM r R8 o) <$> switch_loads) ++ switch_tail).
Proof. done. Qed.

(** Page tables and floating-point image are switched first. *)
Definition switched_tables (c : Cpu) : Cpu := set_fpu_image (if regs c R9 =? 0 then c else set_cr3 c (regs c R9)) (regs c R10).

Lemma switch_tables h n c d :
  run h n context_switch (((fun '(r, o) => MOVM r R8 o) <$> switch_loads) ++ switch_tail) (push (set_zf (switched_tables c) (regs c R9 =? 0)) (regs c R8)) = Done d ->
  run h (7 + n) context_switch context_switch c = Done d.
Proof.
  intros H. destruct context_switch_code as [E1 E2]. rewrite E1 at 2. replace (7 + n)%nat with (S (S (5 + n))) by done.
  rewrite <- app_comm_cons, run_plain by done. rewrite <- app_comm_cons, run_jz. cbn [exec1 set_zf zf].
  unfold switched_tables in H. destruct (regs c R9 =? 0).
  - rewrite E2. replace (5 + n)%nat with (S (S n) + 3)%nat by lia. apply run_mono.
    rewrite <- app_comm_cons, run_plain by done. rewrite <- app_comm_cons, run_plain by done. exact H.
  - replace (5 + n)%nat with (S (S (S (S (S n))))) by done.
    do 5 (rewrite <- app_comm_cons, run_plain by done). exact H.
Qed.

Lemma switched_tables_parts c v b :
  let c' := push (set_zf (switched_tables c) b) v in
  (8 <= regs c RSP < 2 ^ 64 -> regs c' RSP = regs c RSP - 8 /\ mem c' = upd (mem c) (regs c RSP - 8) v) /\
  (forall r, r <> RSP -> regs c' r = regs c r) /\
  cr3_reg c' = (if regs c R9 =? 0 then cr3_reg c else regs c R9) /\ fpu_image c' = regs c R10.
Proof.
  unfold switched_tables. cbv zeta. split_and!.
  - intros H. destruct (regs c R9 =? 0); cbn; rewrite reg_upd_eq, wrap_small by lia; done.
  - intros r Hr. destruct (regs c R9 =? 0); cbn; by rewrite reg_upd_ne.
  - by destruct (regs c R9 =? 0).
  - by destruct (regs c R9 =? 0).
Qed.

(** The state after the loads and [pop r8]. *)
Record loaded (c : Cpu) (f : TrapFrame) (c1 : Cpu) : Prop := {
  ld_gpr : forall r, r <> RSP -> r <> R8 -> regs c1 r = gpr_of f r;
  ld_r8 : regs c1 R8 = regs c R8;
  ld_rsp : regs c1 RSP = regs c RSP;
  ld_mem : forall a, a <> regs c RSP - 8 -> mem c1 a = mem c a;
  ld_cr3 : cr3_reg c1 = if regs c R9 =? 0 then cr3_reg c else regs c R9;
  ld_fpu : fpu_image c1 = regs c R10;
}.

(** A frame that the switch reads from above its own stack pointer. *)
Record switch_frame (c : Cpu) (f : TrapFrame) : Prop := {
  sf_frame : frame_at (mem c) (regs c R8) f;
  sf_stack : 64 <= regs c RSP <= regs c R8;
  sf_top : regs c R8 + 176 < 2 ^ 64;
}.

Lemma load_word f r : r <> RSP -> r <> R8 ->
  exists i, (r, 8 * Z.of_nat i) ∈ switch_loads /\ frame_words f !! i = Some (gpr_of f r).
Proof.
  intros H H8. exists (match r with
    | R15 => 0 | R14 => 1 | R13 => 2 | R12 => 3 | R11 => 4 | R10 => 5 | R9 => 6 | R8 => 7 | RAX => 8 | RBX => 9 | RCX => 10 | RDX => 11
    | RBP => 12 | RSI => 13 | RDI => 14 | RSP => 0 end)%nat.
  destruct r; try done; (split; [by apply (bool_decide_unpack _); vm_compute|done]).
Qed.

Lemma switch_loaded h c f :
  switch_frame c f ->
  exists c1, loaded c f c1 /\
    forall n d, run h n context_switch (drop 1 switch_tail) c1 = Done d -> run h (22 + n) context_switch context_switch c = Done d.
Proof.
  intros [Hf Hs Ht].
  destruct (switched_tables_parts c (regs c R8) (regs c R9 =? 0)) as (Ha & Hb & Hc & Hd). destruct Ha as [Ha1 Ha2]; [lia|].
  remember (push (set_zf (switched_tables c) (regs c R9 =? 0)) (regs c R8)) as c0 eqn:Ec0.
  destruct (loads_spec switch_loads c0 (mem c0) (regs c R8)) as (H1 & H2 & H3 & H4);
    [by apply (bool_decide_unpack _); vm_compute|by apply (bool_decide_unpack _); vm_compute|done|by apply Hb|].
  remember (loads switch_loads c0) as c1 eqn:Ec1.
  assert (regs c1 RSP = regs c RSP - 8) as E by (rewrite H3 by (by apply (bool_decide_unpack _); vm_compute); done).
  exists (pop c1 R8). split; [split|].
  - intros r Hr Hr8. cbn [pop set_reg regs]. rewrite !reg_upd_ne by done.
    destruct (load_word f r Hr Hr8) as (i & Hin & Hw). rewrite (H4 _ _ Hin).
    assert (i < 22)%nat by (apply lookup_lt_Some in Hw; exact Hw).
    rewrite wrap_small, Ha2, reg_upd_ne by lia. by apply (words_at_lookup _ _ _ i _ Hf).
  - cbn [pop set_reg regs]. by rewrite reg_upd_eq, E, H1, Ha2, reg_upd_eq.
  - cbn [pop set_reg regs]. rewrite reg_upd_ne by done. rewrite reg_upd_eq, E. rewrite wrap_small; lia.
  - intros a Ha. cbn [pop set_reg mem]. by rewrite H1, Ha2, reg_upd_ne.
  - cbn [pop set_reg cr3_reg]. rewrite <- Hc. by injection H2.
  - cbn [pop set_reg fpu_image]. rewrite <- Hd. by injection H2.
  - intros n d Hrun. replace (22 + n)%nat with (7 + (length switch_loads + S n))%nat by done. apply switch_tables. rewrite <- Ec0.
    rewrite run_loads, <- Ec1. rewrite <- Hrun. unfold switch_tail at 1. by rewrite <- app_comm_cons, run_plain by done.
Qed.

Definition switch_end : list instr := [LABEL 4; MOVM R8 R8 0x38; IRETQ].

Lemma switch_labels :
  from_label 3 context_switch = (PUSHM R8 <$> [0xa8; 0xa0; 0x98; 0x90; 0x88]) ++ switch_end /\
  from_label 5 context_switch = (PUSHM R8 <$> [0x98; 0x90; 0x88]) ++ JMP 4 :: LABEL 3 :: from_label 3 context_switch /\
  from_label 4 context_switch = drop 1 switch_end.
Proof. done. Qed.

(** Reading the frame after the loads. *)
Lemma loaded_frame c f c1 i w :
  switch_frame c f -> loaded c f c1 -> frame_words f !! i = Some w -> mem c1 (regs c R8 + 8 * Z.of_nat i) = w.
Proof.
  intros [Hf Hs Ht] Hl Hw. assert (i < 22)%nat by (apply lookup_lt_Some in Hw; exact Hw).
  rewrite (ld_mem _ _ _ Hl) by lia. by apply (words_at_lookup _ _ _ i _ Hf).
Qed.

Lemma loaded_returns c f c1 :
  switch_frame c f -> loaded c f c1 ->
  mem c1 (regs c R8 + 0x38) = r8 f /\ mem c1 (regs c R8 + 0x88) = rip f /\ mem c1 (regs c R8 + 0x90) = cs f /\
  mem c1 (regs c R8 + 0x98) = rflags f /\ mem c1 (regs c R8 + 0xa0) = rsp f /\ mem c1 (regs c R8 + 0xa8) = ss f.
Proof.
  intros Hsf Hl. pose proof (fun i w => loaded_frame c f c1 i w Hsf Hl) as H.
  split_and!; [apply (H 7%nat)|apply (H 17%nat)|apply (H 18%nat)|apply (H 19%nat)|apply (H 20%nat)|apply (H 21%nat)]; done.
Qed.

(** R8 is loaded last; then [iretq] takes the words at the stack pointer. *)
Lemma switch_finish h n prog c2 v :
  mem c2 (regs c2 R8 + 0x38) = v -> 0 <= regs c2 R8 -> regs c2 R8 + 176 < 2 ^ 64 ->
  exists d, run h (3 + n) prog switch_end c2 = Done d /\ run h (2 + n) prog (drop 1 switch_end) c2 = Done d /\
    (forall r, r <> RSP -> r <> R8 -> regs d r = regs c2 r) /\ regs d R8 = v /\
    let a := regs c2 RSP in
    eip d = mem c2 a /\ ecs d = mem c2 (wrap 64 (a + 8)) /\ eflags d = mem c2 (wrap 64 (a + 16)) /\
    regs d RSP = mem c2 (wrap 64 (a + 24)) /\ ess d = mem c2 (wrap 64 (a + 32)) /\ cr3_reg d = cr3_reg c2 /\ fpu_image d = fpu_image c2.
Proof.
  intros Hv H0 H1. exists (iret (exec1 (MOVM R8 R8 0x38) c2)). split; [done|]. split; [done|].
  cbn [exec1]. rewrite wrap_small, Hv by lia. unfold iret, set_return, set_reg. cbn [regs mem eip ecs eflags ess cr3_reg fpu_image].
  split_and!; try done.
  - intros r Hr Hr8. by rewrite !reg_upd_ne.
Qed.

(** The words of the frame are pushed and [iretq] takes five words from there. *)
Lemma pushes_finish h c f c1 b offs vals :
  switch_frame c f -> loaded c f c1 ->
  regs b R8 = regs c R8 -> mem b = mem c1 -> ((fun o => mem c1 (regs c R8 + o)) <$> offs) = vals ->
  Forall (fun o => 0 <= o < 176) offs -> 8 * Z.of_nat (length offs) <= regs b RSP < 2 ^ 64 - 32 ->
  (forall i j o, offs !! i = Some o -> (j < i)%nat -> regs c R8 + o <> regs b RSP - 8 * (Z.of_nat j + 1)) ->
  regs c R8 + 0x38 < regs b RSP - 8 * Z.of_nat (length offs) \/ regs b RSP <= regs c R8 + 0x38 ->
  exists d, let lo := regs b RSP - 8 * Z.of_nat (length offs) in
    (run h (length offs + 3) context_switch ((PUSHM R8 <$> offs) ++ switch_end) b = Done d /\
     forall rest, run h (length offs + 3) context_switch ((PUSHM R8 <$> offs) ++ JMP 4 :: rest) b = Done d) /\
    (forall r, r <> RSP -> r <> R8 -> regs d r = regs b r) /\ regs d R8 = r8 f /\ cr3_reg d = cr3_reg b /\ fpu_image d = fpu_image b /\
    exists m, words_at m lo (rev vals) /\ (forall a, a < lo \/ regs b RSP <= a -> m a = mem c1 a) /\
      words_at m lo [eip d; ecs d; eflags d; regs d RSP; ess d].
Proof.
  intros Hsf Hl E8 Em Ev Ho Hsp Hd1 Hd2. pose proof Hsf as [Hf Hs Ht].
  assert (((fun o => mem b (regs b R8 + o)) <$> offs) = vals) as Ev' by (by rewrite E8, Em).
  assert (length vals = length offs) as El by (by rewrite <- Ev, length_fmap).
  destruct (pushes_spec vals b) as (P1 & P2 & P3 & P4 & P5); [lia|]. rewrite El in *.
  remember (fold_left push vals b) as c2 eqn:Ec2. set (lo := regs b RSP - 8 * Z.of_nat (length offs)) in *.
  assert (mem c2 (regs c2 R8 + 0x38) = r8 f) as H8.
  { rewrite P2, E8, P4, Em by (done || lia). by destruct (loaded_returns c f c1 Hsf Hl). }
  destruct (switch_finish h 0 context_switch c2 (r8 f) H8) as (d & Hda & Hdb & Dr & D8 & Drip & Dcs & Dfl & Dsp & Dss & Dcr & Dfpu);
    [rewrite P2 by done; lia|rewrite P2 by done; lia|].
  assert (forall rest, run h (length offs + 3) context_switch ((PUSHM R8 <$> offs) ++ rest) b = run h 3 context_switch rest c2) as Hrun.
  { intros rest. rewrite run_pushms, Ev', <- Ec2; [done| |lia|].
    - eapply Forall_impl; [exact Ho|]. intros o Hr. cbn beta in *. rewrite E8. lia.
    - intros i j o Hi Hj. rewrite E8. by apply (Hd1 i). }
  injection P5 as _ _ _ _ _ _ Pcr Pfp. exists d. cbv zeta. fold lo. split_and!; try congruence.
  - by rewrite Hrun.
  - intros rest. rewrite Hrun. rewrite run_jmp. by destruct switch_labels as (_ & _ & ->).
  - intros r Hr Hr8. by rewrite Dr, P2.
  - exists (mem c2). split_and!; [done|intros x Hx; by rewrite P4, Em|].
    assert (0 <= lo < 2 ^ 64 - 32) as Hlo by (unfold lo; lia). clearbody lo.
    rewrite P1 in *. rewrite !wrap_small in * by lia. cbn [words_at].
    rewrite Drip, Dcs, Dfl, Dsp, Dss. split_and!; try done; f_equal; lia.
Qed.

(** A context switch to a user-mode frame resumes it exactly: all sixteen
    registers, the instruction pointer, flags and segments come from the frame,
    the page tables are switched unless the given root is zero, and the
    floating-point image is loaded. *)
Theorem context_switch_user h c f :
  switch_frame c f -> negb (Z.land (cs f) 3 =? 0) = true ->
  exists d, run h 32 context_switch context_switch c = Done d /\ resumed d f /\
    cr3_reg d = (if regs c R9 =? 0 then cr3_reg c else regs c R9) /\ fpu_image d = regs c R10.
Proof.
  intros Hsf Hcs. destruct (switch_loaded h c f Hsf) as (c1 & Hl & Hrun). pose proof Hsf as [Hf Hs Ht].
  destruct (loaded_returns c f c1 Hsf Hl) as (_ & Wrip & Wcs & Wfl & Wsp & Wss).
  pose proof (ld_r8 _ _ _ Hl) as E8. pose proof (ld_rsp _ _ _ Hl) as Esp.
  destruct (pushes_finish h c f c1 (set_zf c1 false) [0xa8; 0xa0; 0x98; 0x90; 0x88] [ss f; rsp f; rflags f; cs f; rip f])
    as (d & [Hd _] & Dr & D8 & Dcr & Dfpu & m & Hm & _ & Hm'); cbn [set_zf regs mem length]; try done.
  - cbn [fmap list_fmap]. by rewrite Wrip, Wcs, Wfl, Wsp, Wss.
  - repeat constructor; lia.
  - rewrite Esp. lia.
  - intros i j o Hi Hj. assert (0 <= o) by (apply list_elem_of_lookup_2 in Hi; repeat (apply elem_of_cons in Hi as [->|Hi]; [lia|]);
      by apply not_elem_of_nil in Hi). rewrite Esp. lia.
  - rewrite Esp. lia.
  - cbn [rev app] in Hm. cbn [words_at] in Hm, Hm'. destruct Hm as (M1 & M2 & M3 & M4 & M5 & _). destruct Hm' as (N1 & N2 & N3 & N4 & N5 & _).
    exists d. split_and!; [|split_and!; try congruence| |].
    + apply (Hrun 10%nat). change (drop 1 switch_tail) with (TESTM R8 0x90 3 :: JNZ 3 :: drop 3 switch_tail).
      rewrite run_plain, run_jnz by done. cbn [exec1]. rewrite wrap_small, E8, Wcs by lia. apply negb_true_iff in Hcs. rewrite Hcs.
      by destruct switch_labels as (-> & _).
    + intros r. destruct (decide (r = RSP)) as [->|Hr]; [cbn [gpr_of]; congruence|].
      destruct (decide (r = R8)) as [->|Hr8]; [done|]. rewrite Dr by done. by apply (ld_gpr _ _ _ Hl).
    + rewrite Dcr. apply (ld_cr3 _ _ _ Hl).
    + rewrite Dfpu. apply (ld_fpu _ _ _ Hl).
Qed.

Lemma context_switch_user_witness :
  let f := mkFrame 1 2 3 4 5 6 7 8 9 10 11 12 13 14 15 32 0 0x400000 0x1B 0x202 0x7000 0x23 in
  let m a := if (0x9000 <=? a) && (a <? 0x90b0) then default 0 (frame_words f !! Z.to_nat ((a - 0x9000) / 8)) else 0 in
  let c := mkCpu (fun r => if decide (r = RSP) then 0x8f00 else if decide (r = R8) then 0x9000 else if decide (r = R9) then 0x5000 else 0) false 0 8 2 0x10 m 0 0 0x1000 0 in
  exists d, run (fun c => c) 32 context_switch context_switch c = Done d /\ regs d RSP = 0x7000 /\ regs d R8 = 8 /\ eip d = 0x400000 /\ cr3_reg d = 0x5000.
Proof.
  intros f m c. destruct (context_switch_user (fun c => c) c f) as (d & Hr & [Hg [Hi _]] & Hcr & _).
  - split; [|vm_compute; by split|by vm_compute]. unfold frame_at. vm_compute. tauto.
  - reflexivity.
  - exists d. split; [exact Hr|]. rewrite !Hg, Hi, Hcr. split_and!; reflexivity.
Defined.

(** To a kernel-mode frame: the stack pointer and the stack segment are the two
    words found where the frame's stack pointer points. *)
Lemma context_switch_kernel h c f :
  switch_frame c f -> Z.land (cs f) 3 = 0 -> 64 <= rsp f < 2 ^ 64 - 32 ->
  rsp f <= regs c R8 \/ regs c R8 + 176 <= rsp f - 24 \/ rsp f = regs c R8 + 160 ->
  rsp f <> regs c RSP - 8 -> rsp f + 8 <> regs c RSP - 8 ->
  exists d, run h 36 context_switch context_switch c = Done d /\
    (forall r, r <> RSP -> regs d r = gpr_of f r) /\ eip d = rip f /\ ecs d = cs f /\ eflags d = rflags f /\
    regs d RSP = mem c (rsp f) /\ ess d = mem c (rsp f + 8).
Proof.
  intros Hsf Hcs Hsp Hover Hn1 Hn2. destruct (switch_loaded h c f Hsf) as (c1 & Hl & Hrun). pose proof Hsf as [Hf Hs Ht].
  destruct (loaded_returns c f c1 Hsf Hl) as (_ & Wrip & Wcs & Wfl & Wsp & Wss). pose proof (ld_r8 _ _ _ Hl) as E8.
  set (b := set_reg (set_zf c1 false) RSP (rsp f)).
  assert (regs b RSP = rsp f) as Eb by apply reg_upd_eq.
  destruct (pushes_finish h c f c1 b [0x98; 0x90; 0x88] [rflags f; cs f; rip f])
    as (d & [_ Hd] & Dr & D8 & _ & _ & m & Hm & Hmo & Hm'); try done.
  - cbn [fmap list_fmap]. by rewrite Wrip, Wcs, Wfl.
  - repeat constructor; lia.
  - rewrite Eb. cbn [length]. lia.
  - intros i j o Hi Hj. rewrite Eb. destruct i as [|[|[|i]]]; cbn in Hi; simplify_eq; lia.
  - rewrite Eb. cbn [length]. lia.
  - rewrite Eb in *. cbn [rev app words_at length] in Hm, Hm', Hmo. change (8 * Z.of_nat 3) with 24 in *.
    destruct Hm as (M1 & M2 & M3 & _). destruct Hm' as (N1 & N2 & N3 & N4 & N5 & _).
    replace (rsp f - 24 + 8 + 8 + 8) with (rsp f) in * by lia.
    rewrite Hmo, (ld_mem _ _ _ Hl) in N4, N5 by lia.
    exists d. split_and!; try congruence.
    + apply (Hrun 14%nat). change (drop 1 switch_tail) with (TESTM R8 0x90 3 :: JNZ 3 :: CMPM R8 0xa0 0 :: JZ 5 :: MOVM RSP R8 0xa0 :: LABEL 5 ::
        ((PUSHM R8 <$> [0x98; 0x90; 0x88]) ++ JMP 4 :: LABEL 3 :: from_label 3 context_switch)).
      rewrite run_plain, run_jnz by done. cbn [exec1]. rewrite wrap_small, E8, Wcs, Hcs by lia. cbn [set_zf zf]. rewrite Z.eqb_refl.
      rewrite run_plain, run_jz by done. cbn [exec1]. cbn [set_zf zf regs mem]. rewrite wrap_small, E8, Wsp by lia.
      destruct (Z.eqb_spec (rsp f) 0) as [|_]; [lia|]. rewrite run_plain by done. cbn [exec1]. cbn [set_zf zf regs mem].
      rewrite wrap_small, E8, Wsp by lia. rewrite run_plain by done. apply (run_mono _ 6 2). apply Hd.
    + intros r Hr. destruct (decide (r = R8)) as [->|Hr8]; [done|]. rewrite Dr by done. unfold b, set_reg. cbn [regs set_zf].
      rewrite reg_upd_ne by done. by apply (ld_gpr _ _ _ Hl).
Qed.

(** Preempted kernel code resumes exactly. The state [c0] was interrupted in
    ring 0 with its frame at [F]; the scheduler kept a copy whose stack pointer is
    the address just above the saved return state. When that copy is switched to,
    and the interrupt's stack has not been overwritten, every register of [c0]
    comes back, its stack pointer and stack segment too: they are the two words the
    processor pushed there. *)
Theorem kernel_preemption_resumes h c0 vec err F c :
  Z.land (ecs c0) 3 = 0 -> 64 <= F < 2 ^ 64 - 256 ->
  let f := saved_copy (interrupted c0 vec err) F in
  switch_frame c f -> mem c (F + 160) = regs c0 RSP -> mem c (F + 168) = ess c0 ->
  F + 160 <= regs c R8 \/ regs c R8 + 176 <= F + 136 \/ regs c R8 = F ->
  F + 160 <> regs c RSP - 8 -> F + 168 <> regs c RSP - 8 ->
  exists d, run h 36 context_switch context_switch c = Done d /\
    (forall r, regs d r = regs c0 r) /\ eip d = eip c0 /\ ecs d = ecs c0 /\ eflags d = eflags c0 /\ ess d = ess c0.
Proof.
  intros Hcs HF f Hsf Hw1 Hw2 Hover Hn1 Hn2.
  assert (f = set_ss (set_rsp (interrupted c0 vec err) (F + 160)) 0x10) as Ef.
  { unfold f, saved_copy. cbn [interrupted cs]. rewrite Hcs, Z.eqb_refl. by rewrite wrap_small by lia. }
  assert (rsp f = F + 160) as Er by by rewrite Ef. assert (cs f = ecs c0) as Ec by by rewrite Ef.
  destruct (context_switch_kernel h c f Hsf) as (d & Hrun & Hg & H1 & H2 & H3 & H4 & H5); rewrite ?Er, ?Ec in *; try done; try lia.
  exists d. replace (F + 160 + 8) with (F + 168) in H5 by lia.
  split_and!; [done| |by rewrite H1, Ef|congruence|by rewrite H3, Ef|congruence].
  intros r. destruct (decide (r = RSP)) as [->|Hr]; [congruence|]. rewrite Hg by done. rewrite Ef. by destruct r.
Qed.

Lemma kernel_preemption_resumes_witness :
  let c0 := mkCpu (fun r => if decide (r = RSP) then 0x8ff8 else 3) false 0x1234 0x08 0x202 0x10 (fun _ => 0) 0 0 0 0 in
  let f := saved_copy (interrupted c0 32 0) 0x8f40 in
  let m a := if (0xa000 <=? a) && (a <? 0xa0b0) then default 0 (frame_words f !! Z.to_nat ((a - 0xa000) / 8))
             else if a =? 0x8fe0 then 0x8ff8 else if a =? 0x8fe8 then 0x10 else 0 in
  let c := mkCpu (fun r => if decide (r = RSP) then 0x9f00 else if decide (r = R8) then 0xa000 else 0) false 0 8 2 0x10 m 0 0 0x1000 0 in
  exists d, run (fun c => c) 36 context_switch context_switch c = Done d /\ regs d RSP = 0x8ff8 /\ regs d RAX = 3 /\ eip d = 0x1234 /\ ess d = 0x10.
Proof.
  intros c0 f m c. destruct (kernel_preemption_resumes (fun c => c) c0 32 0 0x8f40 c) as (d & Hr & Hg & H1 & _ & _ & H4).
  - reflexivity.
  - lia.
  - split; [|vm_compute; by split|by vm_compute]. unfold frame_at. vm_compute. tauto.
  - reflexivity.
  - reflexivity.
  - left. by vm_compute.
  - by vm_compute.
  - by vm_compute.
  - exists d. split; [exact Hr|]. rewrite !Hg, H1, H4. split_and!; reflexivity.
Defined.

(** ** System calls *)

(** The frame the handler of a system call gets: RAX and R10 are what the entry
    code has left there. *)
Definition syscall_frame (c : Cpu) (scratch : Z) : TrapFrame :=
  mkFrame (regs c R15) (regs c R14) (regs c R13) (regs c R12) (regs c R11) (regs c RSP) (regs c R9) (regs c R8) scratch
    (regs c RBX) (regs c RCX) (regs c RDX) (regs c RBP) (regs c RSI) (regs c RDI) 0 0x80 (regs c RCX) 0x1B (regs c R11)
    (regs c RSP) 0x23.

Definition syscall_saves : list instr := [PUSHI 0x23; PUSH R10; PUSH R11; PUSHI 0x1B; PUSH RCX; PUSHI 0x80; PUSHI 0].
Definition syscall_body : list instr :=
  syscall_saves ++ (PUSH <$> saved_regs) ++ MOV RDI RSP :: MOV R15 RSP :: SUBI RSP 32 :: CALL :: ADDI RSP 32 :: MOV RSP R15 ::
  ((POP <$> restored_regs) ++ [ADDI RSP 16; CMPM RSP 8 0x1B; JNZ 2; SWAPGS; LABEL 2; IRETQ]).

Lemma syscall_code : from_label 1 syscall_entry = ANDI RSP (-16) :: syscall_body /\ from_label 2 syscall_entry = [IRETQ].
Proof. done. Qed.

(** The handler keeps R15, which the calling convention lets it use only if it
    restores it. *)
Definition serves (h : Cpu -> Cpu) (F : Z) (f f' : TrapFrame) : Prop :=
  forall c, regs c RSP = F - 32 -> regs c RDI = F -> regs c R15 = F -> frame_at (mem c) F f ->
    regs (h c) R15 = F /\ frame_at (mem (h c)) F f' /\ gs (h c) = gs c /\ kernel_gs (h c) = kernel_gs c.

(** The frame pushed from the state at label 1. *)
Definition entry_frame (b : Cpu) : TrapFrame :=
  mkFrame (regs b R15) (regs b R14) (regs b R13) (regs b R12) (regs b R11) (regs b R10) (regs b R9) (regs b R8) (regs b RAX)
    (regs b RBX) (regs b RCX) (regs b RDX) (regs b RBP) (regs b RSI) (regs b RDI) 0 0x80 (regs b RCX) 0x1B (regs b R11)
    (regs b R10) 0x23.

Lemma align_16 x : 0 <= x < 2 ^ 64 -> Z.land x (wrap 64 (-16)) = x - x mod 16.
Proof. intros H. change (wrap 64 (-16)) with (not64 (2 ^ 4 - 1)). rewrite land_not64 by lia. done. Qed.

Lemma run_saves h n prog rest c :
  run h (7 + n) prog (syscall_saves ++ rest) c =
  run h n prog rest (fold_left push [0x23; regs c R10; regs c R11; 0x1B; regs c RCX; 0x80; 0] c).
Proof.
  unfold syscall_saves. replace (7 + n)%nat with (S (S (S (S (S (S (S n))))))) by done.
  do 7 (rewrite <- app_comm_cons, run_plain by done). rewrite app_nil_l. cbn [exec1 fold_left].
  by rewrite !push_regs.
Qed.

Lemma syscall_pushed b :
  256 <= regs b RSP < 2 ^ 64 - 256 ->
  let F := regs b RSP - regs b RSP mod 16 - 176 in
  exists c1, fold_left push (regs (fold_left push [0x23; regs b R10; regs b R11; 0x1B; regs b RCX; 0x80; 0] (exec1 (ANDI RSP (-16)) b)) <$> saved_regs)
      (fold_left push [0x23; regs b R10; regs b R11; 0x1B; regs b RCX; 0x80; 0] (exec1 (ANDI RSP (-16)) b)) = c1 /\
    regs c1 RSP = F /\ frame_at (mem c1) F (entry_frame b) /\ control c1 = control b.
Proof.
  intros Hb F. eexists. split; [reflexivity|]. pose proof (Z.mod_pos_bound (regs b RSP) 16 ltac:(lia)) as Hm.
  set (a := exec1 (ANDI RSP (-16)) b).
  assert (regs a RSP = regs b RSP - regs b RSP mod 16) as Ea by (cbn [a exec1 set_reg regs]; rewrite reg_upd_eq; apply align_16; lia).
  assert (forall r, r <> RSP -> regs a r = regs b r) as Ea' by (intros r Hr; by apply reg_upd_ne).
  assert (control a = control b) as Eac by done. clearbody a.
  set (l := [0x23; regs b R10; regs b R11; 0x1B; regs b RCX; 0x80; 0]).
  destruct (pushes_spec l a) as (P1 & P2 & P3 & P4 & P5); [rewrite Ea; change (8 * Z.of_nat (length l)) with 56; lia|].
  change (8 * Z.of_nat (length l)) with 56 in *. rewrite Ea in *. set (a1 := fold_left push l a) in *. clearbody a1.
  destruct (pushes_frame a1 (entry_frame b)) as (Q1 & Q2 & Q3 & Q4); [lia|by rewrite P1| |].
  { intros r Hr. rewrite P2, Ea' by done. by destruct r. }
  replace (regs a1 RSP - 120) with F in * by (unfold F; lia). split_and!; [done|done|]. by rewrite Q3, P5.
Qed.

(** From the pops to the end. *)
Lemma syscall_return h c3 f' :
  frame_at (mem c3) (regs c3 RSP) f' -> 0 <= regs c3 RSP -> regs c3 RSP + 176 < 2 ^ 64 ->
  exists d, run h 21 syscall_entry ((POP <$> restored_regs) ++ [ADDI RSP 16; CMPM RSP 8 0x1B; JNZ 2; SWAPGS; LABEL 2; IRETQ]) c3 = Done d /\
    resumed d f' /\ (gs d, kernel_gs d) = if cs f' =? 0x1B then (kernel_gs c3, gs c3) else (gs c3, kernel_gs c3).
Proof.
  intros Hf H0 Hhi. destruct (pops_and_iret c3 f' Hf H0 Hhi) as (E1 & E2 & E3 & Hres).
  destruct (frame_split _ _ _ Hf) as (_ & _ & Hcs & _).
  replace 21%nat with (length restored_regs + 6)%nat by done. rewrite run_pops, run_plain by done.
  remember (exec1 (ADDI RSP 16) (fold_left pop restored_regs c3)) as c4 eqn:Ec4. clear Ec4.
  rewrite run_plain, run_jnz by done. cbn [exec1]. rewrite wrap_small, E1, E2 by lia.
  replace (regs c3 RSP + 136 + 8) with (regs c3 RSP + 144) by lia. rewrite Hcs. cbn [set_zf zf]. injection E3 as _ _ _ _ Eg Ek _ _.
  destruct (cs f' =? 0x1B).
  - exists (iret (do_swapgs (set_zf c4 true))). split; [done|]. split; [by apply Hres|]. cbn. by rewrite Eg, Ek.
  - exists (iret (set_zf c4 false)). split; [by destruct syscall_code as [_ ->]|]. split; [by apply Hres|]. cbn. by rewrite Eg, Ek.
Qed.

Lemma syscall_served h b f' :
  256 <= regs b RSP < 2 ^ 64 - 256 ->
  let F := regs b RSP - regs b RSP mod 16 - 176 in
  serves h F (entry_frame b) f' ->
  exists d, run h 51 syscall_entry (from_label 1 syscall_entry) b = Done d /\ resumed d f' /\
    (gs d, kernel_gs d) = if cs f' =? 0x1B then (kernel_gs b, gs b) else (gs b, kernel_gs b).
Proof.
  intros Hb F Hh. assert (32 < F < 2 ^ 64 - 432) as HF by (unfold F; div_lia).
  destruct (syscall_pushed b Hb) as (c1 & Ec1 & E1 & Hf & Hc1). fold F in E1, Hf.
  remember (exec1 (SUBI RSP 32) (exec1 (MOV R15 RSP) (exec1 (MOV RDI RSP) c1))) as c2 eqn:Ec2.
  assert (regs c2 RSP = F - 32 /\ regs c2 RDI = F /\ regs c2 R15 = F /\ mem c2 = mem c1 /\ control c2 = control c1) as (A1 & A2 & A3 & A4 & A5).
  { rewrite Ec2, <- E1. clear -HF E1. cbn [exec1 set_reg regs mem]. rewrite ?reg_upd_eq. rewrite !reg_upd_ne by done. rewrite ?reg_upd_eq.
    rewrite wrap_small by lia. by split_and!. }
  destruct (Hh c2) as (H15 & Hf' & Hgs & Hkgs); [done|done|done|by rewrite A4|].
  remember (exec1 (MOV RSP R15) (exec1 (ADDI RSP 32) (h c2))) as c3 eqn:Ec3.
  assert (regs c3 RSP = F /\ mem c3 = mem (h c2) /\ gs c3 = gs b /\ kernel_gs c3 = kernel_gs b) as (B1 & B2 & B3 & B4).
  { assert (control c2 = control b) as Ec by congruence. injection Ec as _ _ _ _ Eg Ek _ _. rewrite <- Eg, <- Ek, <- Hgs, <- Hkgs, <- H15.
    rewrite Ec3. clear. generalize (h c2). intros x. cbn [exec1 set_reg regs mem gs kernel_gs]. rewrite reg_upd_eq. by rewrite reg_upd_ne. }
  destruct (syscall_return h c3 f') as (d & Hd & Hres & Hg); [by rewrite B1, B2|lia|lia|].
  exists d. rewrite B3, B4 in Hg. split; [|done]. clear -Hd Ec1 Ec2 Ec3. destruct syscall_code as [-> _]. unfold syscall_body.
  replace 51%nat with (S (7 + (length saved_regs + 6 + (21 + 1)))) by done. rewrite run_plain by done. rewrite run_saves.
  assert (forall r, r <> RSP -> regs (exec1 (ANDI RSP (-16)) b) r = regs b r) as Ea by (intros r Hr; by apply reg_upd_ne).
  rewrite !Ea by done. replace (length saved_regs + 6 + (21 + 1))%nat with (length saved_regs + S (S (S (S (S (S (21 + 1)))))))%nat by done.
  rewrite run_pushes, Ec1 by (by apply (bool_decide_unpack _); vm_compute).
  rewrite !run_plain, run_call, !run_plain by done. rewrite <- Ec2, <- Ec3. by apply run_mono.
Qed.

(** The state at label 1 for a caller in user mode. *)
Definition user_entered (c : Cpu) : Cpu :=
  exec1 (TEST RSP) (exec1 (MOVGS RSP 8) (exec1 SWAPGS (exec1 (TEST RAX) (exec1 (SHRI RAX 47) (exec1 (MOV RAX R10) (exec1 (MOV R10 RSP) c)))))).

Lemma user_entered_parts c :
  0 <= regs c RSP < 2 ^ 47 ->
  let k := mem c (wrap 64 (kernel_gs c + 8)) in
  zf (user_entered c) = (k =? 0) /\ regs (user_entered c) RSP = k /\ entry_frame (user_entered c) = syscall_frame c 0 /\
  gs (user_entered c) = kernel_gs c /\ kernel_gs (user_entered c) = gs c /\
  zf (exec1 (TEST RAX) (exec1 (SHRI RAX 47) (exec1 (MOV RAX R10) (exec1 (MOV R10 RSP) c)))) = true.
Proof.
  intros Hu. assert (Z.shiftr (regs c RSP) 47 = 0) as Es by (rewrite Z.shiftr_div_pow2, Z.div_small by lia; done).
  unfold user_entered, entry_frame, syscall_frame. cbn [exec1 set_zf set_reg do_swapgs regs mem gs kernel_gs zf].
  rewrite ?reg_upd_eq. repeat (rewrite reg_upd_ne by done || rewrite reg_upd_eq). rewrite Es. by split_and!.
Qed.

Lemma user_enters h n c :
  0 <= regs c RSP < 2 ^ 47 -> mem c (wrap 64 (kernel_gs c + 8)) <> 0 ->
  run h (9 + n) syscall_entry syscall_entry c = run h n syscall_entry (from_label 1 syscall_entry) (user_entered c).
Proof.
  intros Hu Hk. destruct (user_entered_parts c Hu) as (Ez & _ & _ & _ & _ & Et). unfold user_entered in Ez |- *.
  replace (9 + n)%nat with (S (S (S (S (S (S (S (S (S n))))))))) by done.
  set (p := syscall_entry). unfold p at 2. unfold syscall_entry.
  do 4 (rewrite <- app_comm_cons, run_plain by done). rewrite <- app_comm_cons, run_jnz, Et.
  do 3 (rewrite <- app_comm_cons, run_plain by done). rewrite <- app_comm_cons, run_jnz, Ez.
  by rewrite (proj2 (Z.eqb_neq _ 0)) by done.
Qed.

(** The number of a system call never reaches the kernel. The entry code
    computes the privilege of the caller in RAX and keeps the user stack pointer
    in R10, so for every caller in user mode the handler gets a frame whose RAX
    (the number) is 0 and whose R10 (the fourth argument) is the stack pointer,
    whatever the caller put there; the other registers arrive, and what the
    handler leaves in the frame is resumed, with the user's GS base restored
    exactly when it returns to user mode. *)
Theorem syscall_number_lost h c f' :
  0 <= regs c RSP < 2 ^ 47 ->
  let k := mem c (wrap 64 (kernel_gs c + 8)) in
  256 <= k < 2 ^ 64 - 256 -> serves h (k - k mod 16 - 176) (syscall_frame c 0) f' ->
  (forall nr a3, rax (syscall_frame (set_reg (set_reg c RAX nr) R10 a3) 0) = 0 /\
     syscall_frame (set_reg (set_reg c RAX nr) R10 a3) 0 = syscall_frame c 0) /\
  exists d, run h 60 syscall_entry syscall_entry c = Done d /\ resumed d f' /\
    (gs d, kernel_gs d) = if cs f' =? 0x1B then (gs c, kernel_gs c) else (kernel_gs c, gs c).
Proof.
  intros Hu k Hk Hh. split; [done|]. destruct (user_entered_parts c Hu) as (_ & Er & Ef & Eg & Ekg & _). fold k in Er.
  destruct (syscall_served h (user_entered c) f') as (d & Hrun & Hres & Hgs); [by rewrite Er|by rewrite Er, Ef|].
  exists d. split; [|by rewrite <- Eg, <- Ekg]. replace 60%nat with (9 + 51)%nat by done. rewrite user_enters by (done || lia). done.
Qed.

(** A call with number 13 (dma_alloc): the handler sees number 0 and returns 99. *)
Lemma syscall_number_lost_witness :
  let c := mkCpu (fun r => if decide (r = RSP) then 0x7000 else if decide (r = RAX) then 13 else 5) false 0x400123 0x08 2 0x10
             (fun a => if a =? 0x5008 then 0x9000 else 0) 0x1000 0x5000 0 0 in
  let h d := set_mem d (0x8f50 + 64) 99 in
  rax (syscall_frame c 0) = 0 /\
  exists d, run h 60 syscall_entry syscall_entry c = Done d /\ regs d RAX = 99 /\ regs d RSP = 0x7000 /\ eip d = 5 /\ gs d = 0x1000.
Proof.
  intros c h. split; [reflexivity|].
  destruct (syscall_number_lost h c (mkFrame 5 5 5 5 5 0x7000 5 5 99 5 5 5 5 5 5 0 0x80 5 0x1B 5 0x7000 0x23)) as (_ & d & Hr & [Hg [Hi _]] & Hgs).
  - vm_compute. by split.
  - vm_compute. by split.
  - intros x Hsp Hdi H15 Hf.
    change (mem c (wrap 64 (kernel_gs c + 8)) - mem c (wrap 64 (kernel_gs c + 8)) mod 16 - 176) with 0x8f50 in *.
    split; [exact H15|]. split; [|by split]. unfold frame_at in *. cbn in Hf. cbn. unfold upd.
    repeat (rewrite decide_False by discriminate || rewrite decide_True by reflexivity). tauto.
  - exists d. split; [exact Hr|]. rewrite !Hg, Hi. injection Hgs as -> _. split_and!; reflexivity.
Defined.

(** ** Descriptors *)

Lemma lor_high a b k : 0 <= k -> 0 <= a < 2 ^ k -> Z.lor a (Z.shiftl b k) = a + b * 2 ^ k.
Proof.
  intros Hk Ha. rewrite Z.shiftl_mul_pow2 by done. rewrite <- Z.lxor_lor, <- Z.add_nocarry_lxor; try done.
  all: apply Z.bits_inj'; intros n Hn; rewrite Z.land_spec, Z.bits_0; destruct (Z.ltb_spec n k).
  all: try (rewrite Z.mul_pow2_bits_low by done; apply andb_false_r).
  all: rewrite <- (Z.mod_small a (2 ^ k)) by done; by rewrite Z.mod_pow2_bits_high by lia.
Qed.

Lemma land_mask k x : 0 <= k -> Z.land x (2 ^ k - 1) = x mod 2 ^ k.
Proof. intros H. rewrite <- Z.land_ones by done. by rewrite Z.ones_equiv. Qed.

(** The address a gate holds, as the processor reads it. *)
Definition gate_offset (g : IdtEntry) : Z := offset_low g + offset_mid g * 2 ^ 16 + offset_high g * 2 ^ 32.

Lemma gate_offset_handler a i : 0 <= a < 2 ^ 64 -> gate_offset (interrupt_gate a i) = a.
Proof.
  intros H. unfold gate_offset, interrupt_gate, wrap. cbn [offset_low offset_mid offset_high].
  change 0xFFFF with (2 ^ 16 - 1). change 0xFFFFFFFF with (2 ^ 32 - 1). rewrite !land_mask, !Z.shiftr_div_pow2 by lia. div_lia.
Qed.

Definition wired (v : Z) : option (stub * Z) := snd <$> find (fun g => fst g =? v) ((fun '(v, s, i) => (v, (s, i))) <$> idt_gates).

Lemma idt_table addr :
  idt_init addr = (fun v => match wired v with Some (s, i) => interrupt_gate (addr s) i | None => gate_empty end) <$> seqZ 0 256.
Proof. cbv -[interrupt_gate]. reflexivity. Qed.

(** Vectors for which the processor pushes an error code. *)
Definition has_error_code (v : Z) : bool := bool_decide (v ∈ [8; 10; 11; 12; 13; 14; 17; 21]).

(** The vectors that have no gate. *)
Definition unwired (v : Z) : bool := (v =? 15) || ((64 <=? v) && (v <=? 254) && negb (v =? 0x81)).

(** The gate of a vector is right, as a computation. *)
Definition gate_ok (v : Z) : bool :=
  match wired v with
  | Some (s, i) =>
    negb (unwired v) && bool_decide (stub_code s = if has_error_code v then stub_err v else stub_noerr v) && (0 <=? i) && (i <=? 3)
  | None => unwired v
  end.

Lemma gates_ok v : 0 <= v < 256 -> gate_ok v = true.
Proof.
  intros Hv. assert (forallb gate_ok (seqZ 0 256) = true) as H by by vm_compute.
  rewrite forallb_forall in H. apply H. apply list_elem_of_In, elem_of_seqZ. lia.
Qed.

(** The interrupt descriptor table is wired correctly: a vector from 0 to 63
    other than 15, and 0x81 and 255, has a gate to the stub for that very vector,
    which expects an error code exactly where the processor pushes one, through
    the kernel's code segment with interrupts off; the address in the gate reads
    back as the stub's address; every other vector has no gate. *)
Theorem idt_init_correct addr v :
  (forall s, 0 <= addr s < 2 ^ 64) -> 0 <= v < 256 ->
  if unwired v then idt_init addr !! Z.to_nat v = Some gate_empty
  else exists g s, idt_init addr !! Z.to_nat v = Some g /\ gate_offset g = addr s /\
    stub_code s = (if has_error_code v then stub_err v else stub_noerr v) /\
    selector g = KERNEL_CODE_SEL /\ type_attr g = 0x8E /\ 0 <= ist g <= 3.
Proof.
  intros Ha Hv. rewrite idt_table, list_lookup_fmap, (lookup_seqZ_lt 0 256 (Z.to_nat v)) by lia.
  replace (0 + Z.of_nat (Z.to_nat v)) with v by lia. cbn [fmap option_fmap option_map].
  pose proof (gates_ok v Hv) as Hok. unfold gate_ok in Hok. destruct (wired v) as [[s i]|]; [|by rewrite Hok].
  apply andb_true_iff in Hok as [[[Hu Hs]%andb_true_iff H0]%andb_true_iff H3]. apply negb_true_iff in Hu as ->.
  apply bool_decide_eq_true in Hs. exists (interrupt_gate (addr s) i), s. rewrite gate_offset_handler by done.
  split_and!; try done; cbn; lia.
Qed.

Lemma idt_init_correct_witness : gate_offset (default gate_empty (idt_init (fun _ => 0xFFFF800000123456) !! 14%nat)) = 0xFFFF800000123456.
Proof.
  destruct (idt_init_correct (fun _ => 0xFFFF800000123456) 14) as (g & s & Hg & Ho & _); [intros; lia|lia|].
  change (Z.to_nat 14) with 14%nat in Hg. rewrite Hg. exact Ho.
Defined.

(** The fields of a descriptor, as the processor reads them. *)
Definition desc_base (d : Z) : Z := (d / 2 ^ 16) mod 2 ^ 24 + (d / 2 ^ 56) mod 2 ^ 8 * 2 ^ 24.
Definition desc_limit (d : Z) : Z := d mod 2 ^ 16 + (d / 2 ^ 48) mod 2 ^ 4 * 2 ^ 16.
Definition desc_access (d : Z) : Z := (d / 2 ^ 40) mod 2 ^ 8.
Definition desc_flags (d : Z) : Z := (d / 2 ^ 52) mod 2 ^ 4.

Lemma make_descriptor_sum base limit access gran :
  0 <= base < 2 ^ 32 -> 0 <= limit < 2 ^ 20 -> 0 <= access < 2 ^ 8 -> 0 <= gran < 2 ^ 4 ->
  make_descriptor base limit access gran =
  limit mod 2 ^ 16 + base mod 2 ^ 24 * 2 ^ 16 + access * 2 ^ 40 + (limit / 2 ^ 16 + gran * 2 ^ 4) * 2 ^ 48 + base / 2 ^ 24 * 2 ^ 56.
Proof.
  intros Hb Hl Ha Hg. unfold make_descriptor.
  change 0xFFFF with (2 ^ 16 - 1). change 0xFF with (2 ^ 8 - 1). change 0x0F with (2 ^ 4 - 1).
  rewrite !land_mask, !Z.shiftr_div_pow2 by lia. rewrite (Z.lor_comm (Z.shiftl gran 4)).
  replace (base mod 2 ^ 24) with (base mod 2 ^ 16 + base / 2 ^ 16 mod 2 ^ 8 * 2 ^ 16) by div_lia.
  replace (base / 2 ^ 24 mod 2 ^ 8) with (base / 2 ^ 24) by div_lia. replace (limit / 2 ^ 16 mod 2 ^ 4) with (limit / 2 ^ 16) by div_lia.
  assert (0 <= limit mod 2 ^ 16 < 2 ^ 16 /\ 0 <= base mod 2 ^ 16 < 2 ^ 16 /\ 0 <= base / 2 ^ 16 mod 2 ^ 8 < 2 ^ 8 /\
    0 <= base / 2 ^ 24 < 2 ^ 8 /\ 0 <= limit / 2 ^ 16 < 2 ^ 4) as (B1 & B2 & B3 & B4 & B5) by div_lia.
  rewrite (lor_high (limit mod 2 ^ 16) _ 16), (lor_high (limit / 2 ^ 16) _ 4) by lia.
  rewrite (lor_high _ _ 32) by lia. rewrite (lor_high _ _ 40) by lia. rewrite (lor_high _ _ 48) by lia. rewrite (lor_high _ _ 56) by lia. lia.
Qed.

Lemma make_tss_descriptor_sum base limit :
  0 <= base < 2 ^ 64 -> 0 <= limit < 2 ^ 16 ->
  make_tss_descriptor base limit =
  (limit + base mod 2 ^ 24 * 2 ^ 16 + 0x89 * 2 ^ 40 + base / 2 ^ 24 mod 2 ^ 8 * 2 ^ 56, base / 2 ^ 32).
Proof.
  intros Hb Hl. unfold make_tss_descriptor, wrap. change 0xFFFF with (2 ^ 16 - 1). change 0xFF with (2 ^ 8 - 1).
  rewrite !land_mask, !Z.shiftr_div_pow2 by lia. f_equal; [|div_lia].
  replace (base mod 2 ^ 24) with (base mod 2 ^ 16 + base / 2 ^ 16 mod 2 ^ 8 * 2 ^ 16) by div_lia.
  assert (0 <= base mod 2 ^ 16 < 2 ^ 16 /\ 0 <= base / 2 ^ 16 mod 2 ^ 8 < 2 ^ 8 /\ 0 <= base / 2 ^ 24 mod 2 ^ 8 < 2 ^ 8 /\
    limit mod 2 ^ 16 = limit) as (B1 & B2 & B3 & ->) by div_lia.
  rewrite (lor_high limit _ 16) by lia. rewrite (lor_high _ _ 32) by lia. rewrite (lor_high _ _ 40) by lia.
  rewrite (lor_high _ _ 48) by lia. rewrite (lor_high _ _ 56) by lia. lia.
Qed.

(** The segment descriptors say what they are meant to: a code or data
    descriptor reads back as its base, limit, access byte and flags, and the TSS
    descriptor of a CPU as the address of its TSS, with the limit of 104 bytes;
    the selectors 0x08, 0x10, 0x1B, 0x23 and 0x28 that the kernel loads pick
    kernel code, kernel data, user code, user data and the TSS. *)
Theorem segment_descriptors base limit access gran a s :
  0 <= base < 2 ^ 32 -> 0 <= limit < 2 ^ 20 -> 0 <= access < 2 ^ 8 -> 0 <= gran < 2 ^ 4 -> 0 <= a_tss a < 2 ^ 64 ->
  let d := make_descriptor base limit access gran in
  let g := seg_gdt (init_tss_descriptor_for_slot a (mkSegments gdt_static s (0, 0))) in
  let sel x := default 0 (gdt_entries g !! Z.to_nat (x / 8)) in
  (desc_base d = base /\ desc_limit d = limit /\ desc_access d = access /\ desc_flags d = gran) /\
  (desc_base (tss_low g) + tss_high g * 2 ^ 32 = a_tss a /\ desc_limit (tss_low g) = SIZEOF_TSS - 1 /\ desc_access (tss_low g) = 0x89) /\
  (sel KERNEL_CODE_SEL = kernel_code gdt_static /\ sel KERNEL_DATA_SEL = kernel_data gdt_static /\ sel 0x1B = user_code gdt_static /\
   sel 0x23 = user_data gdt_static /\ sel TSS_SEL = tss_low g) /\
  desc_access (user_code gdt_static) = USER_CODE /\ desc_access (kernel_code gdt_static) = KERNEL_CODE.
Proof.
  intros Hb Hl Ha Hg Ht d g sel.
  assert ((tss_low g, tss_high g) = make_tss_descriptor (a_tss a) (SIZEOF_TSS - 1)) as E.
  { unfold g, init_tss_descriptor_for_slot. by destruct (make_tss_descriptor _ _). }
  rewrite make_tss_descriptor_sum in E by (done || (unfold SIZEOF_TSS; lia)). apply pair_equal_spec in E as [El Eh].
  split; [|split; [|split]].
  - unfold d. rewrite make_descriptor_sum by done. unfold desc_base, desc_limit, desc_access, desc_flags. split_and!; div_lia.
  - rewrite El, Eh. unfold desc_base, desc_limit, desc_access, SIZEOF_TSS. split_and!; div_lia.
  - unfold sel, g, init_tss_descriptor_for_slot. destruct (make_tss_descriptor _ _). by split_and!.
  - split; reflexivity.
Qed.

Lemma segment_descriptors_witness : desc_base (make_descriptor 0x12345678 0xABCDE 0x9A 0xA) = 0x12345678.
Proof. apply (segment_descriptors 0x12345678 0xABCDE 0x9A 0xA (mkSegAddrs 0xFFFF800000200000 0 0 0 0 0) (mkTss 0 0 0 0)); lia || (cbn; lia). Defined.

(** User code can use I/O ports it should not: the TSS keeps its map base at
    offset 98, so the word the processor takes as the base of the permission map
    is zero and the map is the TSS itself; the ports 0x60 to 0xDF fall on the
    unused stack pointers, which are zero, and are open to every program. *)
Theorem user_io_ports_open a s port :
  0x60 <= port <= 0xDF ->
  io_permitted (tss_bytes (seg_tss (init_tss_descriptor_for_slot a s))) (SIZEOF_TSS - 1) port = true.
Proof.
  intros Hp. unfold init_tss_descriptor_for_slot. destruct (make_tss_descriptor _ _) as [lo hi]. cbn [seg_tss].
  assert (forall t, forallb (io_permitted (tss_bytes t) (SIZEOF_TSS - 1)) (seqZ 0x60 128) = true) as H by by intros [].
  specialize (H (mkTss (wrap 64 (HIGHER_HALF + wrap 64 (a_dummy a + 4096))) (ist_top (a_ist1 a)) (ist_top (a_ist2 a)) (ist_top (a_ist3 a)))).
  rewrite forallb_forall in H. apply H. apply list_elem_of_In, elem_of_seqZ. lia.
Qed.

(** The keyboard controller, which can reset the machine. *)
Lemma user_io_ports_open_witness :
  io_permitted (tss_bytes (seg_tss (init_tss_descriptor_for_slot (mkSegAddrs 0 0 0 0 0 0) (mkSegments gdt_static (mkTss 0 0 0 0) (0, 0))))) 103 0x64 = true.
Proof. apply (user_io_ports_open (mkSegAddrs 0 0 0 0 0 0) (mkSegments gdt_static (mkTss 0 0 0 0) (0, 0)) 0x64). lia. Defined.
