(* ===== verification/Disasm.v ===== *)
(** The instruction decoder (src/kernel/src/arch/disasm.rs): the text it writes and
    the length it returns.

    A decoder step writes text and continues with a value, returns from
    [disasm_one], or panics (an index outside a table, or an overflow: the
    workspace is built with the dev profile, which checks arithmetic). *)
From stdpp Require Import base tactics numbers list strings.
From Stdlib Require Import ZArith Lia.
From S2P Require Import Prelude Exec Entry.

Local Open Scope string_scope.
Local Open Scope Z_scope.

(** ** Steps *)

Inductive res (A : Type) := Cont (x : A) | Ret (r : option Z) | Panic.
Arguments Cont {A}.
Arguments Ret {A}.
Arguments Panic {A}.

Definition D (A : Type) : Type := string * res A.
Definition dret {A} (x : A) : D A := ("", Cont x).
Definition dbind {A B} (m : D A) (k : A -> D B) : D B :=
  match m with
  | (s, Cont x) => let '(s', r) := k x in (s +:+ s', r)
  | (s, Ret r) => (s, Ret r)
  | (s, Panic) => (s, Panic)
  end.
Definition write (s : string) : D unit := (s, Cont tt).
Definition leave {A} (r : option Z) : D A := ("", Ret r).

Declare Scope dis_scope.
Delimit Scope dis_scope with dis.
Notation "'let*' x := m 'in' k" := (dbind m (fun x => k)) (at level 200, x name, right associativity) : dis_scope.
Notation "m ;* k" := (dbind m (fun _ => k)) (at level 199, right associativity) : dis_scope.
Local Open Scope dis_scope.

(** The [?] operator. *)
Definition or_none {A} (m : D (option A)) : D A :=
  let* o := m in match o with Some x => dret x | None => leave None end.

(** A table of names. *)
Definition name_at (t : list string) (i : Z) : D string :=
  match t !! Z.to_nat i with Some s => dret s | None => ("", Panic) end.

(** ** Numbers as text *)

Definition digit (d : Z) : string := default "?" (["0"; "1"; "2"; "3"; "4"; "5"; "6"; "7"; "8"; "9"; "a"; "b"; "c"; "d"; "e"; "f"] !! Z.to_nat d).
Fixpoint digits (fuel : nat) (radix n : Z) : string :=
  match fuel with
  | O => ""
  | S fuel => if n <? radix then digit n else digits fuel radix (n / radix) +:+ digit (n mod radix)
  end.
(** [{}] and [{:#x}] of a number below 2^64. *)
Definition dec (n : Z) : string := digits 64 10 n.
Definition hex (n : Z) : string := "0x" +:+ digits 64 16 n.
(** [{:+}] *)
Definition plus_dec (n : Z) : string := if n <? 0 then "-" +:+ dec (- n) else "+" +:+ dec n.
(** [{:#x}] of an [i64] that was a byte, with a sign in front: the negation cannot
    overflow. *)
Definition signed_hex (n : Z) : string := if n >=? 0 then hex n else "-" +:+ hex (- n).
(** [{:02x}] *)
Definition hex2 (n : Z) : string := digit (n / 16) +:+ digit (n mod 16).

(** [u as i8], [u as i32] of [n] bytes. *)
Definition sext (n v : Z) : Z := if v <? 2 ^ (8 * n - 1) then v else v - 2 ^ (8 * n).

(** ** Names *)

Definition REG64 : list string := ["rax"; "rcx"; "rdx"; "rbx"; "rsp"; "rbp"; "rsi"; "rdi"; "r8"; "r9"; "r10"; "r11"; "r12"; "r13"; "r14"; "r15"].
Definition REG32 : list string := ["eax"; "ecx"; "edx"; "ebx"; "esp"; "ebp"; "esi"; "edi"; "r8d"; "r9d"; "r10d"; "r11d"; "r12d"; "r13d"; "r14d"; "r15d"].
Definition REG16 : list string := ["ax"; "cx"; "dx"; "bx"; "sp"; "bp"; "si"; "di"; "r8w"; "r9w"; "r10w"; "r11w"; "r12w"; "r13w"; "r14w"; "r15w"].
Definition REG8L : list string := ["al"; "cl"; "dl"; "bl"; "spl"; "bpl"; "sil"; "dil"; "r8b"; "r9b"; "r10b"; "r11b"; "r12b"; "r13b"; "r14b"; "r15b"].
Definition REG8H : list string := ["al"; "cl"; "dl"; "bl"; "ah"; "ch"; "dh"; "bh"].
Definition GRP1 : list string := ["add"; "or"; "adc"; "sbb"; "and"; "sub"; "xor"; "cmp"].
Definition GRP2 : list string := ["rol"; "ror"; "rcl"; "rcr"; "shl"; "shr"; "?"; "sar"].
Definition GRP3 : list string := ["test"; "test"; "not"; "neg"; "mul"; "imul"; "div"; "idiv"].
Definition JCC : list string := ["jo"; "jno"; "jb"; "jnb"; "jz"; "jnz"; "jbe"; "ja"; "js"; "jns"; "jp"; "jnp"; "jl"; "jnl"; "jle"; "jg"].
Definition CMOVCC : list string := ["cmovo"; "cmovno"; "cmovb"; "cmovae"; "cmove"; "cmovne"; "cmovbe"; "cmova"; "cmovs"; "cmovns"; "cmovp"; "cmovnp"; "cmovl"; "cmovge"; "cmovle"; "cmovg"].
Definition SETCC : list string := ["seto"; "setno"; "setb"; "setae"; "sete"; "setne"; "setbe"; "seta"; "sets"; "setns"; "setp"; "setnp"; "setl"; "setge"; "setle"; "setg"].
Definition SYSOP : list string := ["sgdt"; "sidt"; "lgdt"; "lidt"; "smsw"; "?"; "lmsw"; "?"].

Definition reg64 (rm ext : Z) : D string := name_at REG64 (Z.lor rm (Z.shiftl ext 3)).
Definition reg32 (rm ext : Z) : D string := name_at REG32 (Z.lor rm (Z.shiftl ext 3)).
Definition reg16 (rm ext : Z) : D string := name_at REG16 (Z.lor rm (Z.shiftl ext 3)).
Definition reg8 (rm : Z) (rex : bool) (ext : Z) : D string := name_at (if rex then REG8L else REG8H) (Z.lor rm (Z.shiftl ext 3)).

Definition put (m : D string) : D unit := let* s := m in write s.

Definition write_reg (idx : Z) (byte wide rex : bool) (ext : Z) (opsz16 : bool) : D unit :=
  put (if byte then reg8 idx rex ext else if opsz16 then reg16 idx ext else if wide then reg64 idx ext else reg32 idx ext).

(** ** Memory operands *)

Definition lenZ (l : list Z) : Z := Z.of_nat (length l).
(** [n] bytes from [off] as a number. *)
Definition num (l : list Z) (off n : Z) : Z := field l (Z.to_nat off) (Z.to_nat n).

(** What the prefixes say: [ext_b], [ext_x], [ext_r] are the extension bits. *)
Record Pfx := mkPfx { rex : Z; opsz16 : bool; addrsz32 : bool }.
Definition ext_r (p : Pfx) : Z := Z.land (Z.shiftr (rex p) 2) 1.
Definition ext_x (p : Pfx) : Z := Z.land (Z.shiftr (rex p) 1) 1.
Definition ext_b (p : Pfx) : Z := Z.land (rex p) 1.
Definition has_rex (p : Pfx) : bool := negb (rex p =? 0).
Definition wide (p : Pfx) : bool := negb (Z.land (Z.shiftr (rex p) 3) 1 =? 0).

Definition modrm_mod (b : Z) : Z := Z.shiftr b 6.
Definition modrm_reg (b : Z) : Z := Z.land (Z.shiftr b 3) 7.
Definition modrm_low (b : Z) : Z := Z.land b 7.

(** The form with a SIB byte; [bytes] starts with the ModRM byte. *)
Definition write_sib (bytes : list Z) (p : Pfx) (md : Z) : D (option Z) :=
  let extra := drop 1 bytes in
  match extra with
  | [] => dret None
  | sib :: _ =>
    let scale := Z.shiftl 1 (Z.shiftr sib 6) in
    let sidx := Z.land (Z.shiftr sib 3) 7 in
    let sbase := Z.land sib 7 in
    let has_base := negb ((md =? 0) && (sbase =? 5)) in
    let disp : option (Z * Z) :=
      if (md =? 0) && (sbase =? 5) then if lenZ extra <? 5 then None else Some (sext 4 (num extra 1 4), 4)
      else if md =? 1 then if lenZ extra <? 2 then None else Some (sext 1 (num extra 1 1), 1)
      else if md =? 2 then if lenZ extra <? 5 then None else Some (sext 4 (num extra 1 4), 4)
      else Some (0, 0) in
    match disp with
    | None => dret None
    | Some (disp, n) =>
      let have_idx := negb (sidx =? 4) in
      write "[" ;*
      (if has_base then put (if addrsz32 p then reg32 sbase (ext_b p) else reg64 sbase (ext_b p)) else dret tt) ;*
      (if have_idx then
         let* r := (if addrsz32 p then reg32 sidx (ext_x p) else reg64 sidx (ext_x p)) in
         write ("+" +:+ r +:+ "*" +:+ dec scale)
       else dret tt) ;*
      (if negb (disp =? 0) || (negb has_base && negb have_idx) then write (plus_dec disp) else dret tt) ;*
      write "]" ;*
      dret (Some (2 + n))
    end
  end.

(** The operand in [bytes], which starts with the ModRM byte: the bytes it takes. *)
Definition write_ea (bytes : list Z) (p : Pfx) (byte_sz opsz : bool) : D (option Z) :=
  match bytes with
  | [] => dret None
  | modrm :: extra =>
    let md := modrm_mod modrm in
    let rm := modrm_low modrm in
    if md =? 3 then write_reg rm byte_sz (wide p) (has_rex p) (ext_b p) opsz ;* dret (Some 1)
    else if negb (addrsz32 p) && (md =? 0) && (rm =? 5) then
      if lenZ extra <? 4 then dret None else write ("[rip" +:+ plus_dec (sext 4 (num extra 0 4)) +:+ "]") ;* dret (Some 5)
    else if addrsz32 p && (md =? 0) && (rm =? 5) then
      if lenZ extra <? 4 then dret None else write ("[" +:+ hex (num extra 0 4) +:+ "]") ;* dret (Some 5)
    else if negb (rm =? 4) then
      let disp : option (Z * Z) :=
        if md =? 0 then Some (0, 0)
        else if md =? 1 then match extra with [] => None | b :: _ => Some (sext 1 b, 1) end
        else if lenZ extra <? 4 then None else Some (sext 4 (num extra 0 4), 4) in
      match disp with
      | None => dret None
      | Some (disp, sz) =>
        let* base := (if addrsz32 p then reg32 rm (ext_b p) else reg64 rm (ext_b p)) in
        write (if md =? 0 then "[" +:+ base +:+ "]" else "[" +:+ base +:+ plus_dec disp +:+ "]") ;*
        dret (Some (1 + sz))
      end
    else write_sib bytes p md
  end.

Definition modrm_rm (bytes : list Z) (p : Pfx) (to_reg byte_sz : bool) : D (option Z) :=
  match bytes with
  | [] => dret None
  | modrm :: _ =>
    let reg := modrm_reg modrm in
    if to_reg then
      write_reg reg byte_sz (wide p) (has_rex p) (ext_r p) (opsz16 p) ;* write "," ;* write_ea bytes p byte_sz (opsz16 p)
    else
      let* c := write_ea bytes p byte_sz (opsz16 p) in
      match c with
      | None => dret None
      | Some c => write "," ;* write_reg reg byte_sz (wide p) (has_rex p) (ext_r p) (opsz16 p) ;* dret (Some c)
      end
  end.

(** ** Opcodes *)

Definition between (lo hi op : Z) : bool := (lo <=? op) && (op <=? hi).
Definition one_of (l : list Z) (op : Z) : bool := bool_decide (op ∈ l).

Section insn.
(** The instruction: its address, the bytes there, the prefixes. *)
Context (addr : Z) (bytes : list Z) (p : Pfx).

(** [pos + n <= bytes.len()] *)
Definition avail (n pos : Z) : bool := pos + n <=? lenZ bytes.
(** [n] bytes at [pos], if they are there, written by [k]; [pos] after them. *)
Definition imm (n pos : Z) (k : Z -> string) : D Z :=
  if avail n pos then write (k (num bytes pos n)) ;* dret (pos + n) else dret pos.
(** An [i32] at [pos] with a sign in front, after [pre]: the negation of the least
    [i32] overflows. *)
Definition imm_i32 (pos : Z) (pre : string) : D Z :=
  if avail 4 pos then
    let v := sext 4 (num bytes pos 4) in
    if v >=? 0 then write (pre +:+ hex v) ;* dret (pos + 4)
    else if v =? - 2 ^ 31 then ("", Panic)
    else write (pre +:+ "-" +:+ hex (- v)) ;* dret (pos + 4)
  else dret pos.
(** A jump target relative to the next instruction. *)
Definition rel (n pos : Z) (mnem : string) : D Z :=
  if avail n pos
  then write (mnem +:+ " " +:+ hex (wrap 64 (addr + (pos + n) + sext n (num bytes pos n)))) ;* dret (pos + n) else dret pos.

(** [if rest.is_empty() { return Some(pos) }; let modrm = rest[0]] *)
Definition modrm_at (pos : Z) : D Z := match bytes !! Z.to_nat pos with Some b => dret b | None => leave (Some pos) end.
Definition rest (pos : Z) : list Z := drop (Z.to_nat pos) bytes.

(** [if let Some(c) = write_ea(..) { pos += c }] *)
Definition ea_opt (pos : Z) (byte_sz opsz : bool) : D Z :=
  let* o := write_ea (rest pos) p byte_sz opsz in dret (match o with Some c => pos + c | None => pos end).
(** [let c = write_ea(..)?; pos += c] *)
Definition ea (pos : Z) (byte_sz : bool) : D Z :=
  let* c := or_none (write_ea (rest pos) p byte_sz (opsz16 p)) in dret (pos + c).
Definition ea_std (pos : Z) : D Z := ea_opt pos false (opsz16 p).

Definition both (pos : Z) (to_reg byte_sz : bool) : D Z :=
  let* o := modrm_rm (rest pos) p to_reg byte_sz in dret (match o with Some c => pos + c | None => pos end).
Definition reg_operand (modrm : Z) (byte_sz : bool) : D unit :=
  write_reg (modrm_reg modrm) byte_sz (wide p) (has_rex p) (ext_r p) (opsz16 p).
(** A name and nothing else. *)
Definition plain (pos : Z) (s : string) : D Z := write s ;* dret pos.
Definition by_width (pos : Z) (w n : string) : D Z := plain pos (if wide p then w else n).
(** [mnem r/m, reg] *)
Definition rm_reg (pos : Z) (mnem : string) (byte_sz : bool) : D Z :=
  write mnem ;*
  let* modrm := modrm_at pos in
  let* pos := ea pos byte_sz in
  write "," ;* reg_operand modrm byte_sz ;* dret pos.
(** [mnem reg64, r/m] *)
Definition reg_rm (pos : Z) (mnem : string) (byte_sz opsz : bool) : D Z :=
  write mnem ;*
  let* modrm := modrm_at pos in
  let* r := reg64 (modrm_reg modrm) (ext_r p) in
  write r ;* write "," ;* ea_opt pos byte_sz opsz.
Definition sreg_name (n : Z) : string := default "?" (["es"; "cs"; "ss"; "ds"; "fs"; "gs"] !! Z.to_nat n).

Definition invalid : list Z :=
  [0x06; 0x07; 0x0E; 0x16; 0x17; 0x1E; 0x1F; 0x27; 0x2F; 0x37; 0x3F; 0x60; 0x61; 0x62; 0x9A; 0xC4; 0xC5; 0xCE; 0xD4; 0xD5; 0xD6; 0xEA].

(** 0x00 to 0x7F *)
Definition op_00_7f (op pos : Z) : D Z :=
  if (op <? 0x40) && (Z.land op 7 <? 4) then
    let* g := name_at GRP1 (Z.land (Z.shiftr op 3) 7) in
    write (g +:+ " ") ;* both pos (negb (Z.land op 2 =? 0)) (Z.land op 1 =? 0)
  else if (op <? 0x40) && (Z.land op 7 =? 4) then
    let* g := name_at GRP1 (Z.land (Z.shiftr op 3) 7) in
    write (g +:+ " al,") ;* imm 1 pos hex
  else if (op <? 0x40) && (Z.land op 7 =? 5) then
    let* g := name_at GRP1 (Z.land (Z.shiftr op 3) 7) in
    write (g +:+ (if wide p then " rax," else " eax,")) ;* imm 4 pos hex
  else if one_of invalid op then plain pos ("db " +:+ hex op)
  else if between 0x50 0x57 op then let* r := reg64 (op - 0x50) (ext_b p) in plain pos ("push " +:+ r)
  else if between 0x58 0x5F op then let* r := reg64 (op - 0x58) (ext_b p) in plain pos ("pop " +:+ r)
  else if op =? 0x63 then
    let* modrm := modrm_at pos in
    let* r := reg64 (modrm_reg modrm) (ext_r p) in
    write ("movsxd " +:+ r +:+ ",") ;* ea_std pos
  else if op =? 0x68 then imm_i32 pos "push "
  else if op =? 0x6A then imm 1 pos (fun v => "push " +:+ signed_hex (sext 1 v))
  else if one_of [0x69; 0x6B] op then
    let* modrm := modrm_at pos in
    let* r := reg64 (modrm_reg modrm) (ext_r p) in
    write ("imul " +:+ r +:+ ",") ;*
    let* pos := ea pos false in
    write "," ;*
    if op =? 0x69 then imm_i32 pos "" else imm 1 pos (fun v => signed_hex (sext 1 v))
  else if between 0x70 0x7F op then let* j := name_at JCC (Z.land op 0xF) in rel 1 pos j
  else dret pos.

(** 0x80 to 0xAF *)
Definition op_80_af (op pos : Z) : D Z :=
  if between 0x80 0x83 op then
    let byte := one_of [0x80; 0x82] op in
    let* modrm := modrm_at pos in
    let* g := name_at GRP1 (modrm_reg modrm) in
    write (g +:+ " ") ;*
    let* pos := ea pos byte in
    write "," ;*
    if byte then imm 1 pos hex else if op =? 0x81 then imm 4 pos hex else imm 1 pos (fun v => signed_hex (sext 1 v))
  else if one_of [0x84; 0x85] op then rm_reg pos "test " (op =? 0x84)
  else if one_of [0x86; 0x87] op then rm_reg pos "xchg " (op =? 0x86)
  else if between 0x88 0x8B op then write "mov " ;* both pos (one_of [0x8A; 0x8B] op) (one_of [0x88; 0x8A] op)
  else if op =? 0x8C then
    write "mov " ;*
    let* modrm := modrm_at pos in
    let* pos := ea pos false in
    write ("," +:+ sreg_name (modrm_reg modrm)) ;* dret pos
  else if op =? 0x8D then reg_rm pos "lea " false (opsz16 p)
  else if op =? 0x8E then
    write "mov " ;*
    let* modrm := modrm_at pos in
    write (sreg_name (modrm_reg modrm) +:+ ",") ;* ea_std pos
  else if op =? 0x8F then write "pop " ;* modrm_at pos ;* ea_std pos
  else if op =? 0x90 then plain pos "nop"
  else if between 0x91 0x97 op then
    let* r := (if wide p then reg64 (op - 0x91) (ext_b p) else reg32 (op - 0x91) (ext_b p)) in
    plain pos ((if wide p then "xchg rax," else "xchg eax,") +:+ r)
  else if op =? 0x98 then by_width pos "cdqe" "cwde"
  else if op =? 0x99 then by_width pos "cqo" "cdq"
  else if op =? 0x9B then plain pos "fwait"
  else if op =? 0x9C then plain pos "pushfq"
  else if op =? 0x9D then plain pos "popfq"
  else if op =? 0x9E then plain pos "sahf"
  else if op =? 0x9F then plain pos "lahf"
  else if op =? 0xA0 then imm 8 pos (fun v => "mov al,[" +:+ hex v +:+ "]")
  else if op =? 0xA1 then imm 8 pos (fun v => (if wide p then "mov rax,[" else "mov eax,[") +:+ hex v +:+ "]")
  else if op =? 0xA2 then imm 8 pos (fun v => "mov [" +:+ hex v +:+ "],al")
  else if op =? 0xA3 then imm 8 pos (fun v => "mov [" +:+ hex v +:+ (if wide p then "],rax" else "],eax"))
  else if op =? 0xA4 then plain pos "movsb"
  else if op =? 0xA5 then by_width pos "movsq" "movsd"
  else if op =? 0xA6 then plain pos "cmpsb"
  else if op =? 0xA7 then by_width pos "cmpsq" "cmpsd"
  else if op =? 0xAA then plain pos "stosb"
  else if op =? 0xAB then by_width pos "stosq" "stosd"
  else if op =? 0xAC then plain pos "lodsb"
  else if op =? 0xAD then by_width pos "lodsq" "lodsd"
  else if op =? 0xAE then plain pos "scasb"
  else if op =? 0xAF then by_width pos "scasq" "scasd"
  else if op =? 0xA8 then imm 1 pos (fun v => "test al," +:+ hex v)
  else if op =? 0xA9 then imm 4 pos (fun v => (if wide p then "test rax," else "test eax,") +:+ hex v)
  else if one_of invalid op then plain pos ("db " +:+ hex op)
  else dret pos.

(** 0xB0 to 0xD7 *)
Definition op_b0_df (op pos : Z) : D Z :=
  if between 0xB0 0xB7 op then
    if avail 1 pos
    then let* r := reg8 (op - 0xB0) (has_rex p) (ext_b p) in imm 1 pos (fun v => "mov " +:+ r +:+ "," +:+ hex v)
    else dret pos
  else if between 0xB8 0xBF op then
    let n := if wide p then 8 else if opsz16 p then 2 else 4 in
    if avail n pos
    then
      let* r := (if wide p then reg64 (op - 0xB8) (ext_b p) else if opsz16 p then reg16 (op - 0xB8) (ext_b p) else reg32 (op - 0xB8) (ext_b p)) in
      imm n pos (fun v => "mov " +:+ r +:+ "," +:+ hex v)
    else dret pos
  else if one_of [0xC0; 0xC1] op then
    let* modrm := modrm_at pos in
    let* g := name_at GRP2 (modrm_reg modrm) in
    write (g +:+ " ") ;*
    let* pos := ea pos (op =? 0xC0) in
    write "," ;* imm 1 pos hex
  else if op =? 0xC2 then imm 2 pos (fun v => "ret " +:+ hex v)
  else if op =? 0xC3 then plain pos "ret"
  else if op =? 0xCA then imm 2 pos (fun v => "retf " +:+ hex v)
  else if op =? 0xCB then plain pos "retf"
  else if op =? 0xC6 then write "mov byte " ;* modrm_at pos ;* let* pos := ea pos false in write "," ;* imm 1 pos hex
  else if op =? 0xC7 then write "mov " ;* modrm_at pos ;* let* pos := ea pos false in write "," ;* imm 4 pos hex
  else if op =? 0xC8 then
    if avail 4 pos
    then write ("enter " +:+ hex (num bytes pos 2) +:+ "," +:+ dec (num bytes (pos + 2) 1)) ;* dret (pos + 3) else dret pos
  else if op =? 0xC9 then plain pos "leave"
  else if op =? 0xCC then plain pos "int3"
  else if op =? 0xCD then imm 1 pos (fun v => "int " +:+ hex v)
  else if op =? 0xCF then plain pos "iretq"
  else if between 0xD0 0xD3 op then
    let* modrm := modrm_at pos in
    let* g := name_at GRP2 (modrm_reg modrm) in
    write (g +:+ " ") ;*
    let* pos := ea pos (one_of [0xD0; 0xD2] op) in
    plain pos (if between 0xD0 0xD1 op then ",1" else ",cl")
  else if op =? 0xD7 then plain pos "xlat"
  else if one_of invalid op then plain pos ("db " +:+ hex op)
  else dret pos.

(** 0xE0 to 0xFF *)
Definition op_e0_ff (op pos : Z) : D Z :=
  if op =? 0xE0 then rel 1 pos "loopne"
  else if op =? 0xE1 then rel 1 pos "loope"
  else if op =? 0xE2 then rel 1 pos "loop"
  else if op =? 0xE3 then rel 1 pos (if addrsz32 p then "jecxz" else "jrcxz")
  else if op =? 0xE4 then imm 1 pos (fun v => "in al," +:+ hex v)
  else if op =? 0xE5 then imm 1 pos (fun v => "in eax," +:+ hex v)
  else if op =? 0xE6 then imm 1 pos (fun v => "out " +:+ hex v +:+ ",al")
  else if op =? 0xE7 then imm 1 pos (fun v => "out " +:+ hex v +:+ ",eax")
  else if op =? 0xEC then plain pos "in al,dx"
  else if op =? 0xED then plain pos "in eax,dx"
  else if op =? 0xEE then plain pos "out dx,al"
  else if op =? 0xEF then plain pos "out dx,eax"
  else if op =? 0xE8 then rel 4 pos "call"
  else if op =? 0xE9 then rel 4 pos "jmp"
  else if op =? 0xEB then rel 1 pos "jmp"
  else if op =? 0xF4 then plain pos "hlt"
  else if op =? 0xF5 then plain pos "cmc"
  else if one_of [0xF6; 0xF7] op then
    let byte := op =? 0xF6 in
    let* modrm := modrm_at pos in
    let grp := modrm_reg modrm in
    if (grp =? 0) || (grp =? 1) then
      write "test " ;*
      let* pos := ea pos byte in
      write "," ;*
      if byte then imm 1 pos hex else imm 4 pos hex
    else let* g := name_at GRP3 grp in write (g +:+ " ") ;* ea_opt pos byte (opsz16 p)
  else if op =? 0xF8 then plain pos "clc"
  else if op =? 0xF9 then plain pos "stc"
  else if op =? 0xFA then plain pos "cli"
  else if op =? 0xFB then plain pos "sti"
  else if op =? 0xFC then plain pos "cld"
  else if op =? 0xFD then plain pos "std"
  else if op =? 0xFE then
    let* modrm := modrm_at pos in
    let grp := modrm_reg modrm in
    write (if grp =? 0 then "inc " else if grp =? 1 then "dec " else "? ") ;* ea_opt pos true (opsz16 p)
  else if op =? 0xFF then
    let* modrm := modrm_at pos in
    write (default "? " (["inc "; "dec "; "call "; "call far "; "jmp "; "jmp far "; "push "] !! Z.to_nat (modrm_reg modrm))) ;* ea_std pos
  else if one_of invalid op then plain pos ("db " +:+ hex op)
  else dret pos.

(** ** Opcodes after 0x0F *)

(** [mnem r/m, reg], where a missing operand is left out. *)
Definition rm_reg_opt (pos : Z) (mnem : string) (byte_sz : bool) : D Z :=
  write mnem ;*
  match bytes !! Z.to_nat pos with
  | None => dret pos
  | Some modrm =>
    let* o := write_ea (rest pos) p byte_sz (opsz16 p) in
    match o with
    | None => dret pos
    | Some c => write "," ;* reg_operand modrm byte_sz ;* dret (pos + c)
    end
  end.
(** [mnem reg, r/m], the same. *)
Definition reg_rm_opt (pos : Z) (mnem : string) : D Z :=
  write mnem ;*
  match bytes !! Z.to_nat pos with
  | None => dret pos
  | Some modrm => reg_operand modrm false ;* write "," ;* ea_std pos
  end.
(** [mnem r/m, reg64, tail] *)
Definition rm_reg64 (pos : Z) (mnem tail : string) : D Z :=
  write mnem ;*
  let* modrm := modrm_at pos in
  let* pos := ea pos false in
  let* r := reg64 (modrm_reg modrm) (ext_r p) in
  plain pos ("," +:+ r +:+ tail).
(** Moves from and to control and debug registers: [k] gets the name of the general
    register and the number of the other one. *)
Definition mov_special (pos : Z) (k : string -> Z -> string) : D Z :=
  let* modrm := modrm_at pos in
  let* r := reg64 (modrm_reg modrm) (ext_b p) in
  plain (pos + 1) (k r (Z.lor (modrm_low modrm) (Z.shiftl (ext_r p) 3))).

Definition SIMD : list string :=
  ["movmskpd"; "sqrt"; "rsqrt"; "rcp"; "andps"; "andnps"; "orps"; "xorps"; "add"; "mul"; "cvt"; "cvt"; "sub"; "min"; "div"; "max"].

(** 0x0F 0x01 *)
Definition system_op (pos : Z) : D Z :=
  let* modrm := modrm_at pos in
  let reg := modrm_reg modrm in
  let rm := modrm_low modrm in
  if modrm_mod modrm =? 3 then
    if reg =? 0 then plain (pos + 1) "vmrun"
    else if reg =? 1 then plain (pos + 1) "vmmcall"
    else if reg =? 2 then plain (pos + 1) "vmload"
    else if reg =? 3 then plain (pos + 1) "vmsave"
    else if (reg =? 4) && (rm =? 1) then write "smsw" ;* ea_std pos
    else if (reg =? 6) && (rm =? 1) then write "lmsw" ;* ea_std pos
    else if (reg =? 7) && (rm =? 0) then plain (pos + 1) "swapgs"
    else if (reg =? 7) && (rm =? 1) then plain (pos + 1) "rdtscp"
    else plain (pos + 1) ("sysop " +:+ hex reg +:+ "," +:+ hex rm)
  else let* mnem := name_at SYSOP reg in write (mnem +:+ " ") ;* ea_std pos.

Definition unknown_0f (ext pos : Z) : D Z :=
  write ("db 0f " +:+ hex2 ext) ;* dret (if pos <? lenZ bytes then pos + 1 else pos).

Definition op_0f_00_5f (ext pos : Z) : D Z :=
  if ext =? 0x01 then system_op pos
  else if ext =? 0x05 then plain pos "syscall"
  else if ext =? 0x06 then plain pos "clts"
  else if ext =? 0x07 then plain pos "sysret"
  else if ext =? 0x08 then plain pos "invd"
  else if ext =? 0x09 then plain pos "wbinvd"
  else if ext =? 0x0B then plain pos "ud2"
  else if ext =? 0x0D then write "prefetch" ;* ea_std pos
  else if ext =? 0x0E then plain pos "femms"
  else if ext =? 0x1F then write "nop" ;* ea_std pos
  else if ext =? 0x20 then mov_special pos (fun r n => "mov " +:+ r +:+ ",cr" +:+ dec n)
  else if ext =? 0x21 then mov_special pos (fun r n => "mov " +:+ r +:+ ",dr" +:+ dec n)
  else if ext =? 0x22 then mov_special pos (fun r n => "mov cr" +:+ dec n +:+ "," +:+ r)
  else if ext =? 0x23 then mov_special pos (fun r n => "mov dr" +:+ dec n +:+ "," +:+ r)
  else if ext =? 0x30 then plain pos "wrmsr"
  else if ext =? 0x31 then plain pos "rdtsc"
  else if ext =? 0x32 then plain pos "rdmsr"
  else if ext =? 0x33 then plain pos "rdpmc"
  else if ext =? 0x34 then plain pos "sysenter"
  else if ext =? 0x35 then plain pos "sysexit"
  else if between 0x40 0x4F ext then let* c := name_at CMOVCC (Z.land ext 0xF) in reg_rm pos (c +:+ " ") false (opsz16 p)
  else if one_of [0x28; 0x29] ext then
    write (if wide p then "movapd " else "movaps ") ;*
    let* modrm := modrm_at pos in
    let reg := dec (modrm_reg modrm) in
    if ext =? 0x28 then write ("xmm" +:+ reg) ;* write "," ;* ea_std pos
    else let* pos := ea_std pos in plain pos (",xmm" +:+ reg)
  else if between 0x50 0x5F ext then
    let* s := name_at SIMD (ext - 0x50) in
    write (s +:+ " ") ;*
    let* modrm := modrm_at pos in
    write ("xmm" +:+ dec (modrm_reg modrm)) ;* write "," ;* ea_std pos
  else unknown_0f ext pos.

Definition op_0f_60_ff (ext pos : Z) : D Z :=
  if between 0x80 0x8F ext then let* j := name_at JCC (Z.land ext 0xF) in rel 4 pos j
  else if between 0x90 0x9F ext then
    modrm_at pos ;* let* s := name_at SETCC (Z.land ext 0xF) in write (s +:+ " ") ;* ea_opt pos true (opsz16 p)
  else if ext =? 0xA0 then plain pos "push fs"
  else if ext =? 0xA1 then plain pos "pop fs"
  else if ext =? 0xA8 then plain pos "push gs"
  else if ext =? 0xA9 then plain pos "pop gs"
  else if ext =? 0xA2 then plain pos "cpuid"
  else if ext =? 0xAA then plain pos "rsm"
  else if ext =? 0xA3 then rm_reg_opt pos "bt " false
  else if ext =? 0xAB then rm_reg_opt pos "bts " false
  else if ext =? 0xA5 then rm_reg64 pos "shld " ",cl"
  else if ext =? 0xAD then rm_reg64 pos "shrd " ",cl"
  else if ext =? 0xAF then reg_rm pos "imul " false (opsz16 p)
  else if one_of [0xB0; 0xB1] ext then rm_reg_opt pos "cmpxchg " (ext =? 0xB0)
  else if ext =? 0xB2 then reg_rm pos "lss " false (opsz16 p)
  else if ext =? 0xB4 then reg_rm pos "lfs " false (opsz16 p)
  else if ext =? 0xB5 then reg_rm pos "lgs " false (opsz16 p)
  else if ext =? 0xB6 then reg_rm pos "movzx " true (opsz16 p)
  else if ext =? 0xB7 then reg_rm pos "movzx " false true
  else if ext =? 0xBA then
    let* modrm := modrm_at pos in
    let grp := modrm_reg modrm in
    write ((if grp =? 4 then "bt" else if grp =? 5 then "bts" else if grp =? 6 then "btr" else if grp =? 7 then "btc" else "?") +:+ " ") ;*
    let* pos := ea pos false in
    write "," ;* imm 1 pos hex
  else if ext =? 0xBC then reg_rm_opt pos "bsf "
  else if ext =? 0xBD then reg_rm_opt pos "bsr "
  else if ext =? 0xBE then reg_rm pos "movsx " true (opsz16 p)
  else if ext =? 0xBF then reg_rm pos "movsx " false true
  else if one_of [0xC0; 0xC1] ext then rm_reg_opt pos "xadd " (ext =? 0xC0)
  else if ext =? 0xC3 then rm_reg64 pos "movnti " ""
  else if ext =? 0xC7 then
    let* modrm := modrm_at pos in
    write (if modrm_reg modrm =? 1 then if wide p then "cmpxchg16b " else "cmpxchg8b " else "?") ;* ea_std pos
  else if between 0xC8 0xCF ext then let* r := reg64 (ext - 0xC8) (ext_b p) in plain pos ("bswap " +:+ r)
  else unknown_0f ext pos.

Definition two_byte (pos : Z) : D Z :=
  match bytes !! Z.to_nat pos with
  | None => leave (Some pos)
  | Some ext => if ext <? 0x60 then op_0f_00_5f ext (pos + 1) else op_0f_60_ff ext (pos + 1)
  end.

Definition opcode (op pos : Z) : D Z :=
  if op =? 0x0F then two_byte pos
  else if op <? 0x80 then op_00_7f op pos
  else if op <? 0xB0 then op_80_af op pos
  else if op <? 0xE0 then op_b0_df op pos
  else op_e0_ff op pos.
End insn.

(** The prefixes: what they say and how many there are; [None] when nothing
    follows. *)
Fixpoint prefixes (l : list Z) (p : Pfx) (pos : Z) : option (Pfx * Z * Z) :=
  match l with
  | [] => None
  | b :: l =>
    if between 0x40 0x4F b then prefixes l (mkPfx b (opsz16 p) (addrsz32 p)) (pos + 1)
    else if b =? 0x66 then prefixes l (mkPfx (rex p) true (addrsz32 p)) (pos + 1)
    else if b =? 0x67 then prefixes l (mkPfx (rex p) (opsz16 p) true) (pos + 1)
    else if one_of [0x26; 0x2E; 0x36; 0x3E; 0x64; 0x65; 0xF0; 0xF2; 0xF3] b then prefixes l p (pos + 1)
    else Some (p, b, pos)
  end.

(** The text, and the result: [Cont] stands for the end of the function. *)
Definition disasm_one (addr : Z) (bytes : list Z) : D Z :=
  match prefixes bytes (mkPfx 0 false false) 0 with
  | None => leave None
  | Some (p, op, pos) => opcode addr bytes p op (pos + 1)
  end.

Definition returned (r : res Z) : option Z := match r with Cont n => Some n | Ret o => o | Panic => None end.
Definition panics (addr : Z) (bytes : list Z) : bool := match snd (disasm_one addr bytes) with Panic => true | _ => false end.
(** The length alone, as with a writer that drops the text. *)
Definition insn_length (addr : Z) (bytes : list Z) : option Z := returned (snd (disasm_one addr bytes)).

(** ** The code around a fault (dump.rs) *)

(** [unwrap_or(0)], and at least one byte. *)
Definition line_len (addr : Z) (l : list Z) : Z :=
  let len := default 0 (insn_length addr l) in if len =? 0 then 1 else len.

(** The instructions of [buf] from [offset] on, at most [slots] of them: offset and
    length. *)
Fixpoint scan (slots : nat) (start : Z) (buf : list Z) (offset : Z) : list (Z * Z) :=
  match slots with
  | O => []
  | S slots =>
    if offset <? lenZ buf then
      let len := line_len (wrap 64 (start + offset)) (rest buf offset) in
      (offset, len) :: scan slots start buf (offset + len)
    else []
  end.

Definition holds_rip (start rip : Z) (i : Z * Z) : bool :=
  let addr := wrap 64 (start + fst i) in (rip >=? addr) && (rip <? wrap 64 (addr + snd i)).
(** The last index of an instruction with [rip]. *)
Fixpoint rip_index (start rip : Z) (l : list (Z * Z)) (idx : nat) (found : option nat) : option nat :=
  match l with
  | [] => found
  | i :: l => rip_index start rip l (S idx) (if holds_rip start rip i then Some idx else found)
  end.

Record Line := mkLine { l_addr : Z; l_bytes : list Z; l_text : string; l_rip : bool }.

Definition code_start (rip : Z) : Z := Z.land (saturating_sub rip 32) (not64 7).
(** The 64 bytes; [quads]: what [probe_read_quad] returns for each eight. *)
Definition code_bytes (quads : list (option Z)) : list Z := quads ≫= (fun q => match q with Some v => bytes_le 8 v | None => replicate 8 0 end).

(** The window of lines around the fault. *)
Definition dump_lines (rip : Z) (buf : list Z) (insns : list (Z * Z)) : list Line :=
  let start := code_start rip in
  let rip_idx := default 0%nat (rip_index start rip insns 0 None) in
  let start_idx := (rip_idx - 4)%nat in
  let end_idx := Nat.min (rip_idx + 5) (length insns) in
  imap (fun k i =>
    let addr := wrap 64 (start + fst i) in
    mkLine addr (take (Z.to_nat (line_len addr (rest buf (fst i)))) (rest buf (fst i))) (fst (disasm_one addr (rest buf (fst i))))
      (Nat.eqb (start_idx + k) rip_idx)) (take (end_idx - start_idx) (drop start_idx insns)).

(** [None] when the decoder panics at an instruction of the scan, which then ends
    there. *)
Definition dump_code_bytes (rip : Z) (quads : list (option Z)) : option (list Line) :=
  let start := code_start rip in
  let buf := code_bytes quads in
  let insns := scan 64 start buf 0 in
  if existsb (fun i => panics (wrap 64 (start + fst i)) (rest buf (fst i))) insns then None else Some (dump_lines rip buf insns).

(** ** The shell's [disasm] (cmd_symbols.rs) *)

(** The lines for [count] instructions in the [bytes_read] bytes that could be read
    into the buffer; a line without text stands for a byte that does not decode, and
    the result is [None] when the decoder panics.  [fuel]: each round takes at least
    a byte. *)
Fixpoint listing (fuel : nat) (addr : Z) (buf : list Z) (bytes_read pos printed count : Z) : option (list (Z * option string)) :=
  match fuel with
  | O => Some []
  | S fuel =>
    if (printed <? count) && (pos <? bytes_read) then
      let a := wrap 64 (addr + pos) in
      let '(s, r) := disasm_one a (rest buf pos) in
      match r, returned r with
      | Panic, _ => None
      | _, Some n => cons (a, Some s) <$> listing fuel addr buf bytes_read (pos + n) (printed + 1) count
      | _, None => cons (a, None) <$> listing fuel addr buf bytes_read (pos + 1) printed count
      end
    else Some []
  end.
