(* ===== verification/DisasmThms.v ===== *)
(** The decoder panics in one case only and its length stays inside the bytes;
    operands and
    arithmetic instructions are printed as encoded; the fault dump shows the
    instruction at the fault. *)
From stdpp Require Import base tactics numbers list strings.
From Stdlib Require Import ZArith Lia.
From S2P Require Import Prelude Exec ExecThms Entry EntryThms Disasm.

Local Open Scope string_scope.
Local Open Scope Z_scope.
Local Open Scope dis_scope.

(** ** Bounds *)

(** [R None] if the step panics, [R (Some r)] if [disasm_one] returns [r], and a
    value to go on with satisfies [Q]. *)
Definition wp {A} (R : option (option Z) -> Prop) (m : D A) (Q : A -> Prop) : Prop :=
  match snd m with
  | Cont x => Q x
  | Ret r => R (Some r)
  | Panic => R None
  end.

Section wp.
Context {R : option (option Z) -> Prop}.
Local Notation WP := (wp R).

Lemma wp_ret {A} (x : A) (Q : A -> Prop) : Q x -> WP (dret x) Q.
Proof. done. Qed.
Lemma wp_write s (Q : unit -> Prop) : Q tt -> WP (write s) Q.
Proof. done. Qed.
Lemma wp_leave {A} r (Q : A -> Prop) : R (Some r) -> WP (leave r) Q.
Proof. done. Qed.
Lemma wp_bind {A B} (m : D A) (k : A -> D B) (Q : B -> Prop) : WP m (fun x => WP (k x) Q) -> WP (dbind m k) Q.
Proof. destruct m as [s [x|r|]]; unfold wp, dbind; cbn; [|done..]. by destruct (k x) as [s' r]. Qed.
Lemma wp_mono {A} (m : D A) (P Q : A -> Prop) : WP m P -> (forall x, P x -> Q x) -> WP m Q.
Proof. destruct m as [s [x|r|]]; unfold wp; cbn; auto. Qed.

Lemma wp_name t i (Q : string -> Prop) : 0 <= i < Z.of_nat (length t) -> (forall s, Q s) -> WP (name_at t i) Q.
Proof. intros Hi HQ. unfold name_at. destruct (lookup_lt_is_Some_2 t (Z.to_nat i)) as [s ->]; [lia|apply HQ]. Qed.

Lemma land_bound x k : 0 <= k -> 0 <= Z.land x (Z.ones k) < 2 ^ k.
Proof. intros Hk. rewrite Z.land_ones by done. apply Z.mod_pos_bound. lia. Qed.
Lemma land7 x : 0 <= Z.land x 7 < 8.
Proof. apply (land_bound x 3). lia. Qed.
Lemma land1 x : 0 <= Z.land x 1 < 2.
Proof. apply (land_bound x 1). lia. Qed.
Lemma land15 x : 0 <= Z.land x 15 < 16.
Proof. apply (land_bound x 4). lia. Qed.

Lemma reg_index rm ext : 0 <= rm < 8 -> 0 <= ext < 2 -> Z.lor rm (Z.shiftl ext 3) = rm + 8 * ext.
Proof.
  intros Hr He. assert (ext = 0 \/ ext = 1) as [-> | ->] by lia.
  - rewrite Z.shiftl_0_l, Z.lor_0_r. lia.
  - assert (rm = 0 \/ rm = 1 \/ rm = 2 \/ rm = 3 \/ rm = 4 \/ rm = 5 \/ rm = 6 \/ rm = 7) as H by lia. by repeat destruct H as [-> | H]; [..|subst].
Qed.

Lemma wp_reg64 rm ext (Q : string -> Prop) : 0 <= rm < 8 -> 0 <= ext < 2 -> (forall s, Q s) -> WP (reg64 rm ext) Q.
Proof. intros. unfold reg64. rewrite reg_index by done. apply wp_name; [cbn; lia|done]. Qed.
Lemma wp_reg32 rm ext (Q : string -> Prop) : 0 <= rm < 8 -> 0 <= ext < 2 -> (forall s, Q s) -> WP (reg32 rm ext) Q.
Proof. intros. unfold reg32. rewrite reg_index by done. apply wp_name; [cbn; lia|done]. Qed.
Lemma wp_reg16 rm ext (Q : string -> Prop) : 0 <= rm < 8 -> 0 <= ext < 2 -> (forall s, Q s) -> WP (reg16 rm ext) Q.
Proof. intros. unfold reg16. rewrite reg_index by done. apply wp_name; [cbn; lia|done]. Qed.
(** Without a REX prefix there are no extension bits. *)
Lemma wp_reg8 rm r ext (Q : string -> Prop) : 0 <= rm < 8 -> 0 <= ext < 2 -> (r = false -> ext = 0) -> (forall s, Q s) -> WP (reg8 rm r ext) Q.
Proof. intros H1 H2 H3 HQ. unfold reg8. rewrite reg_index by done. apply wp_name; [|done]. destruct r; cbn; [lia|]. rewrite H3 by done. lia. Qed.

Lemma ext_bounds p : 0 <= ext_r p < 2 /\ 0 <= ext_x p < 2 /\ 0 <= ext_b p < 2.
Proof. unfold ext_r, ext_x, ext_b. pose proof land1. auto. Qed.
Lemma no_rex p : has_rex p = false -> ext_b p = 0 /\ ext_r p = 0.
Proof. unfold has_rex, ext_b, ext_r. intros ->%negb_false_iff%Z.eqb_eq. done. Qed.

Lemma wp_put m (Q : unit -> Prop) : WP m (fun _ => Q tt) -> WP (put m) Q.
Proof. intros H. apply wp_bind. eapply wp_mono; [exact H|]. auto. Qed.

Lemma wp_write_reg idx byte w p ext o (Q : unit -> Prop) :
  0 <= idx < 8 -> ext = ext_b p \/ ext = ext_r p -> Q tt -> WP (write_reg idx byte w (has_rex p) ext o) Q.
Proof.
  intros Hi He HQ. pose proof (ext_bounds p) as (? & ? & ?). assert (0 <= ext < 2) by (destruct He as [-> | ->]; done). apply wp_put. destruct byte; [|destruct o; [|destruct w]].
  - apply wp_reg8; [done|done| |done]. intros Hr%no_rex. destruct Hr, He; congruence.
  - by apply wp_reg16.
  - by apply wp_reg64.
  - by apply wp_reg32.
Qed.
End wp.

(** Steps through a decoder. *)
Ltac dstep :=
  match goal with
  | |- wp _ (dbind _ _) _ => apply wp_bind
  | |- wp _ (dret _) _ => apply wp_ret
  | |- wp _ (write _) _ => apply wp_write
  | |- wp _ (leave _) _ => apply wp_leave
  | |- wp _ (put _) _ => apply wp_put
  | |- wp _ (write_reg _ _ _ _ _ _) _ => apply wp_write_reg; [apply land7|by auto|]
  | |- wp _ (if ?b then _ else _) _ => destruct b eqn:?
  | |- wp _ (name_at _ _) _ => apply wp_name; [|intros ?]
  | |- wp _ (reg64 _ _) _ => apply wp_reg64; [|apply ext_bounds|intros ?]
  | |- wp _ (reg32 _ _) _ => apply wp_reg32; [|apply ext_bounds|intros ?]
  end.

Lemma wp_sib R l p md : wp R (write_sib l p md) (fun o => match o with Some c => 1 <= c <= lenZ l | None => True end).
Proof.
  unfold write_sib. destruct l as [|m [|sib l]]; cbn [drop]; [apply wp_ret; done..|].
  assert (lenZ (m :: sib :: l) = lenZ (sib :: l) + 1) as Hl by (unfold lenZ; cbn [length]; lia). rewrite Hl. assert (1 <= lenZ (sib :: l)) by (unfold lenZ; cbn [length]; lia).
  set (disp := if _ && _ then _ else _). assert (match disp with Some (_, n) => 0 <= n /\ 2 + n <= lenZ (sib :: l) + 1 | None => True end) as Hd.
  { unfold disp. repeat (case_match; try done); simplify_eq; lia. }
  clearbody disp. destruct disp as [[d n]|]; [|apply wp_ret; done].
  repeat (dstep; try apply land7); try lia.
Qed.

Lemma wp_ea R l p b o : wp R (write_ea l p b o) (fun o => match o with Some c => 1 <= c <= lenZ l | None => True end).
Proof.
  unfold write_ea. destruct l as [|m l]; [apply wp_ret; done|]. assert (lenZ (m :: l) = lenZ l + 1) as Hl by (unfold lenZ; cbn [length]; lia). assert (0 <= lenZ l) by (unfold lenZ; lia).
  repeat dstep; try lia; [|apply wp_sib].
  set (disp := if modrm_mod m =? 0 then _ else _). assert (match disp with Some (_, n) => 0 <= n /\ 1 + n <= lenZ l + 1 | None => True end) as Hd.
  { unfold disp. repeat (case_match; try done); simplify_eq; unfold lenZ in *; cbn [length] in *; lia. }
  clearbody disp. destruct disp as [[d n]|]; [|apply wp_ret; done]. repeat (dstep; try apply land7); lia.
Qed.

Lemma wp_modrm_rm R l p t b : wp R (modrm_rm l p t b) (fun o => match o with Some c => 1 <= c <= lenZ l | None => True end).
Proof.
  unfold modrm_rm. destruct l as [|m l]; [apply wp_ret; done|]. destruct t; repeat dstep; [apply wp_ea|]. eapply wp_mono; [apply wp_ea|]. intros [c|] Hc; repeat dstep; done.
Qed.

Ltac blia := cbv beta in *; lia.

(** The bytes hold a [push] or [imul] with an immediate of 32 bits (0x68, 0x69) and,
    somewhere behind it, the bytes of the least [i32]. *)
Definition min_operand (bytes : list Z) : Prop :=
  exists i op k, bytes !! i = Some op /\ (op = 0x68 \/ op = 0x69) /\ Z.of_nat i < k /\ k + 4 <= lenZ bytes /\ sext 4 (num bytes k 4) = - 2 ^ 31.

(** A length that lies in the buffer, or a panic with such an operand. *)
Definition in_buf (bytes : list Z) (r : option (option Z)) : Prop :=
  match r with Some (Some n) => 1 <= n <= lenZ bytes | Some None => True | None => min_operand bytes end.

Section bounds.
Context (addr : Z) (bytes : list Z) (p : Pfx).
Local Notation WP := (wp (in_buf bytes)).
Local Notation ok := (fun n => 1 <= n <= lenZ bytes).

Lemma lenZ_rest pos : 0 <= pos <= lenZ bytes -> lenZ (rest bytes pos) = lenZ bytes - pos.
Proof. unfold lenZ, rest. intros H. rewrite length_drop. blia. Qed.

Lemma avail_spec n pos : reflect (pos + n <= lenZ bytes) (avail bytes n pos).
Proof. apply Z.leb_spec0. Qed.
Lemma wp_imm n pos k : 0 <= n -> 1 <= pos <= lenZ bytes -> WP (imm bytes n pos k) ok.
Proof. intros Hn Hp. unfold imm. destruct (avail_spec n pos); repeat dstep; blia. Qed.
Lemma wp_imm_i32 i op pos k :
  bytes !! i = Some op -> op = 0x68 \/ op = 0x69 -> Z.of_nat i < pos -> 1 <= pos <= lenZ bytes -> WP (imm_i32 bytes pos k) ok.
Proof.
  intros Hi Hop Hlt Hp. unfold imm_i32. destruct (avail_spec 4 pos) as [Ha|Ha]; [|dstep; blia]. cbv zeta.
  destruct (_ >=? 0); [repeat dstep; blia|]. destruct (Z.eqb_spec (sext 4 (num bytes pos 4)) (- 2 ^ 31)) as [E|E]; [|repeat dstep; blia].
  by exists i, op, pos.
Qed.
Lemma wp_rel n pos k : 0 <= n -> 1 <= pos <= lenZ bytes -> WP (rel addr bytes n pos k) ok.
Proof. intros Hn Hp. unfold rel. destruct (avail_spec n pos); repeat dstep; blia. Qed.
Lemma wp_modrm_at pos (Q : Z -> Prop) : 1 <= pos <= lenZ bytes -> (forall b, pos + 1 <= lenZ bytes -> Q b) -> WP (modrm_at bytes pos) Q.
Proof.
  intros Hp HQ. unfold modrm_at. destruct (bytes !! Z.to_nat pos) as [b|] eqn:E; [|by apply wp_leave]. apply wp_ret, HQ. apply lookup_lt_Some in E. unfold lenZ. blia.
Qed.
Lemma wp_ea_opt pos b o : 1 <= pos <= lenZ bytes -> WP (ea_opt bytes p pos b o) ok.
Proof. intros Hp. apply wp_bind. eapply wp_mono; [apply wp_ea|]. intros [c|]; rewrite ?lenZ_rest by blia; intros; apply wp_ret; blia. Qed.
Lemma wp_ea_std pos : 1 <= pos <= lenZ bytes -> WP (ea_std bytes p pos) ok.
Proof. apply wp_ea_opt. Qed.
Lemma wp_ea_req pos b : 1 <= pos <= lenZ bytes -> WP (ea bytes p pos b) (fun n => pos < n <= lenZ bytes).
Proof.
  intros Hp. unfold ea, or_none. do 2 apply wp_bind. eapply wp_mono; [apply wp_ea|]. intros [c|]; [|done]. rewrite lenZ_rest by blia. intros. do 2 apply wp_ret. blia.
Qed.
Lemma wp_both pos t b : 1 <= pos <= lenZ bytes -> WP (both bytes p pos t b) ok.
Proof. intros Hp. apply wp_bind. eapply wp_mono; [apply wp_modrm_rm|]. intros [c|]; rewrite ?lenZ_rest by blia; intros; apply wp_ret; blia. Qed.
End bounds.

(** Steps of the opcode table. *)
Ltac dop :=
  match goal with
  | |- wp _ (if avail ?b ?n ?q then _ else _) _ => destruct (avail_spec b n q)
  | |- wp _ (modrm_at _ _) _ => apply wp_modrm_at; [try blia|intros ? ?]
  | |- wp _ (imm _ _ _ _) _ => apply wp_imm; blia
  | |- wp _ (rel _ _ _ _ _) _ => apply wp_rel; blia
  | |- wp _ (ea_opt _ _ _ _ _) _ => first [apply wp_ea_opt; blia|eapply wp_mono; [apply wp_ea_opt; blia|intros ? ?]]
  | |- wp _ (ea_std _ _ _) _ => first [apply wp_ea_std; blia|eapply wp_mono; [apply wp_ea_std; blia|intros ? ?]]
  | |- wp _ (ea _ _ _ _) _ => eapply wp_mono; [apply wp_ea_req; blia|intros ? ?]
  | |- wp _ (both _ _ _ _ _) _ => apply wp_both; blia
  | |- wp _ (reg8 _ _ _) _ => apply wp_reg8; [|apply ext_bounds|intros Hno; apply (no_rex _ Hno)|intros ?]
  | |- wp _ (reg16 _ _) _ => apply wp_reg16; [|apply ext_bounds|intros ?]
  | |- wp _ (plain _ _) _ => unfold plain
  | |- wp _ (by_width _ _ _ _) _ => unfold by_width, plain
  | |- wp _ (reg_operand _ _ _) _ => unfold reg_operand
  | |- 0 <= Z.land _ 7 < _ => apply land7
  | |- 0 <= modrm_reg _ < _ => apply land7
  | |- 0 <= Z.land _ 15 < _ => apply land15
  | H : between _ _ _ = true |- 0 <= _ - _ < _ => unfold between in H; unfold SIMD; cbn [length]; blia
  | |- wp _ (let _ := _ in _) _ => intros
  | |- _ => dstep
  end.

Section opcodes.
Context (addr : Z) (bytes : list Z) (p : Pfx).
Local Notation WP := (wp (in_buf bytes)).
Local Notation ok := (fun n => 1 <= n <= lenZ bytes).

Lemma wp_rm_reg pos s b : 1 <= pos <= lenZ bytes -> WP (rm_reg bytes p pos s b) ok.
Proof. intros Hp. unfold rm_reg. repeat dop; blia. Qed.
Lemma wp_reg_rm pos s b o : 1 <= pos <= lenZ bytes -> WP (reg_rm bytes p pos s b o) ok.
Proof. intros Hp. unfold reg_rm. repeat dop; blia. Qed.
Lemma wp_rm_reg_opt pos s b : 1 <= pos <= lenZ bytes -> WP (rm_reg_opt bytes p pos s b) ok.
Proof.
  intros Hp. unfold rm_reg_opt. repeat dop. destruct (bytes !! _); repeat dop; [|blia]. eapply wp_mono; [apply wp_ea|]. rewrite lenZ_rest by blia.
  intros [c|] Hc; repeat dop; blia.
Qed.
Lemma wp_reg_rm_opt pos s : 1 <= pos <= lenZ bytes -> WP (reg_rm_opt bytes p pos s) ok.
Proof. intros Hp. unfold reg_rm_opt. repeat dop. destruct (bytes !! _); repeat dop; blia. Qed.
Lemma wp_rm_reg64 pos s t : 1 <= pos <= lenZ bytes -> WP (rm_reg64 bytes p pos s t) ok.
Proof. intros Hp. unfold rm_reg64. repeat dop; blia. Qed.
Lemma wp_mov_special pos k : 1 <= pos <= lenZ bytes -> WP (mov_special bytes p pos k) ok.
Proof. intros Hp. unfold mov_special. repeat dop; blia. Qed.
Lemma wp_unknown e pos : 1 <= pos <= lenZ bytes -> WP (unknown_0f bytes e pos) ok.
Proof. intros Hp. unfold unknown_0f. repeat dop. destruct (Z.ltb_spec pos (lenZ bytes)); blia. Qed.
Lemma wp_system pos : 1 <= pos <= lenZ bytes -> WP (system_op bytes p pos) ok.
Proof. intros Hp. unfold system_op. repeat dop; blia. Qed.
End opcodes.

Create HintDb dis.
#[export] Hint Resolve wp_rm_reg wp_reg_rm wp_rm_reg_opt wp_reg_rm_opt wp_rm_reg64 wp_mov_special wp_unknown wp_system : dis.
Ltac dops := repeat first [solve [auto with dis]|dop]; try blia.

Section table.
Context (addr : Z) (bytes : list Z) (p : Pfx).
Local Notation WP := (wp (in_buf bytes)).
Local Notation ok := (fun n => 1 <= n <= lenZ bytes).

Lemma wp_00_7f op pos : bytes !! Z.to_nat (pos - 1) = Some op -> 1 <= pos <= lenZ bytes -> WP (op_00_7f addr bytes p op pos) ok.
Proof.
  intros Hop Hp. unfold op_00_7f. dops.
  all: eapply wp_imm_i32; [exact Hop|first [left; by apply Z.eqb_eq|right; by apply Z.eqb_eq]|blia|blia].
Qed.
Lemma wp_80_af op pos : 1 <= pos <= lenZ bytes -> WP (op_80_af bytes p op pos) ok.
Proof. intros Hp. unfold op_80_af. dops. Qed.
Lemma wp_b0_df op pos : 1 <= pos <= lenZ bytes -> WP (op_b0_df bytes p op pos) ok.
Proof. intros Hp. unfold op_b0_df. dops; destruct (wide p), (opsz16 p); dops. Qed.
Lemma wp_e0_ff op pos : 1 <= pos <= lenZ bytes -> WP (op_e0_ff addr bytes p op pos) ok.
Proof. intros Hp. unfold op_e0_ff. dops. Qed.
Lemma wp_0f_00_5f op pos : 1 <= pos <= lenZ bytes -> WP (op_0f_00_5f bytes p op pos) ok.
Proof. intros Hp. unfold op_0f_00_5f. dops. Qed.
Lemma wp_0f_60_ff op pos : 1 <= pos <= lenZ bytes -> WP (op_0f_60_ff addr bytes p op pos) ok.
Proof. intros Hp. unfold op_0f_60_ff. dops. Qed.

Lemma wp_opcode op pos : bytes !! Z.to_nat (pos - 1) = Some op -> 1 <= pos <= lenZ bytes -> WP (opcode addr bytes p op pos) ok.
Proof.
  intros Hop Hp. unfold opcode. repeat dstep; [|auto using wp_00_7f, wp_80_af, wp_b0_df, wp_e0_ff..].
  unfold two_byte. destruct (bytes !! Z.to_nat pos) eqn:E; [|by apply wp_leave]. apply lookup_lt_Some in E. unfold lenZ in *. dstep; [apply wp_0f_00_5f|apply wp_0f_60_ff]; unfold lenZ; lia.
Qed.
End table.

Lemma prefixes_bound l p pos q op n : prefixes l p pos = Some (q, op, n) -> pos <= n < pos + lenZ l.
Proof.
  revert p pos. induction l as [|b l IH]; intros p pos; [done|]. unfold lenZ in *. cbn [prefixes length]. intros H.
  repeat case_match; simplify_eq; try lia; apply IH in H; lia.
Qed.

Lemma prefixes_op l p pos q op n : prefixes l p pos = Some (q, op, n) -> l !! Z.to_nat (n - pos) = Some op.
Proof.
  revert p pos. induction l as [|b l IH]; intros p pos; [done|]. cbn [prefixes]. intros H.
  assert (forall p', prefixes l p' (pos + 1) = Some (q, op, n) -> (b :: l) !! Z.to_nat (n - pos) = Some op) as Hrec.
  { intros p' H'. pose proof (prefixes_bound _ _ _ _ _ _ H') as Hb. apply IH in H'.
    replace (Z.to_nat (n - pos)) with (S (Z.to_nat (n - (pos + 1)))) by lia. exact H'. }
  repeat case_match; simplify_eq; try (by eapply Hrec). by rewrite Z.sub_diag.
Qed.

Lemma disasm_range addr bytes : wp (in_buf bytes) (disasm_one addr bytes) (fun n => 1 <= n <= lenZ bytes).
Proof.
  unfold disasm_one. destruct (prefixes bytes _ 0) as [[[p op] pos]|] eqn:E; [|done]. pose proof (prefixes_op _ _ _ _ _ _ E) as Hop.
  apply prefixes_bound in E. apply wp_opcode; [|lia]. replace (pos + 1 - 1) with (pos - 0) by lia. exact Hop.
Qed.

Lemma insn_length_range addr bytes n : insn_length addr bytes = Some n -> 1 <= n <= lenZ bytes.
Proof. pose proof (disasm_range addr bytes) as H. unfold wp, insn_length in *. destruct (snd (disasm_one addr bytes)) as [m|[m|]|]; cbn; intros [= <-]; done. Qed.

(** C28: The decoder stays inside its buffer and panics in one case only. For every
    address and every bytes at all, a length that [disasm_one] returns is at least
    one and at most the number of bytes given. No table or buffer is indexed out
    of range: it panics only when the bytes hold a [push] or [imul] with an
    immediate of 32 bits and behind it the bytes 00 00 00 80, whose negation
    overflows in the profile that is built. There it does panic: the bytes
    68 00 00 00 80 do so at every address, whatever follows. *)
Theorem disasm_one_bounds addr bytes :
  (forall n, insn_length addr bytes = Some n -> 1 <= n <= Z.of_nat (length bytes)) /\
  (snd (disasm_one addr bytes) = Panic -> min_operand bytes) /\
  (forall tail, bytes = ([0x68; 0; 0; 0; 0x80] ++ tail)%list -> disasm_one addr bytes = ("", Panic)).
Proof.
  split; [intros n; apply insn_length_range|]. split.
  - pose proof (disasm_range addr bytes) as H. unfold wp in H. by destruct (snd (disasm_one addr bytes)).
  - intros tail ->. set (b := ([0x68; 0; 0; 0; 0x80] ++ tail)%list).
    assert (avail b 4 1 = true) as Ha by (unfold avail, b, lenZ; apply Z.leb_le; cbn [app length]; lia).
    assert (sext 4 (num b 1 4) = - 2 ^ 31) as Hv by reflexivity.
    change (disasm_one addr b) with (imm_i32 b 1 "push "). unfold imm_i32. rewrite Ha, Hv. reflexivity.
Qed.

(** ** The code around a fault *)

Lemma line_len_range a l : l <> [] -> 1 <= line_len a l <= lenZ l.
Proof.
  intros Hl. assert (1 <= lenZ l) by (destruct l; [done|]; unfold lenZ; cbn [length]; lia). unfold line_len. destruct (insn_length a l) as [n|] eqn:E; cbn; [|done].
  apply insn_length_range in E. destruct (Z.eqb_spec n 0); lia.
Qed.

(** The instructions follow each other from [off] to [hi]. *)
Fixpoint tiles (off hi : Z) (l : list (Z * Z)) : Prop :=
  match l with
  | [] => off = hi
  | i :: l => fst i = off /\ 1 <= snd i /\ off + snd i <= hi /\ tiles (off + snd i) hi l
  end.

Lemma scan_tiles slots start buf off :
  0 <= off <= lenZ buf -> lenZ buf - off <= Z.of_nat slots -> tiles off (lenZ buf) (scan slots start buf off) /\
  Forall (fun i => snd i = line_len (wrap 64 (start + fst i)) (rest buf (fst i)) /\ 0 <= fst i < lenZ buf) (scan slots start buf off).
Proof.
  revert off. induction slots as [|slots IH]; intros off Ho Hs; cbn [scan].
  { split; [cbn; lia|constructor]. }
  destruct (Z.ltb_spec off (lenZ buf)) as [Hlt|Hge]; [|split; [cbn; lia|constructor]].
  set (len := line_len _ _). assert (1 <= len <= lenZ buf - off) as Hlen.
  { rewrite <- (lenZ_rest buf off) by lia. apply line_len_range. intros E. pose proof (lenZ_rest buf off Ho) as H. rewrite E in H. unfold lenZ in H at 1. cbn in H. lia. }
  destruct (IH (off + len)) as [IH1 IH2]; [lia..|]. split; [cbn; split_and!; done || lia|]. constructor; [cbn; split; [done|lia]|done].
Qed.

(** The instruction that holds an offset. *)
Lemma tiles_find off hi l x : tiles off hi l -> off <= x < hi -> exists k i, l !! k = Some i /\ fst i <= x < fst i + snd i.
Proof.
  revert off. induction l as [|i l IH]; intros off H Hx; cbn in H; [lia|]. destruct H as (H1 & H2 & H3 & H4). destruct (Z.lt_ge_cases x (off + snd i)).
  - exists 0%nat, i. split; [done|lia].
  - destruct (IH _ H4) as (k & j & Hk & Hj); [lia|]. by exists (S k), j.
Qed.

Lemma tiles_lower off hi l k i : tiles off hi l -> l !! k = Some i -> off <= fst i /\ fst i + snd i <= hi /\ 1 <= snd i.
Proof.
  revert off k. induction l as [|j l IH]; intros off k H Hk; [done|]. destruct H as (H1 & H2 & H3 & H4). destruct k as [|k]; [injection Hk as <-; lia|].
  destruct (IH _ _ H4 Hk). lia.
Qed.

Lemma tiles_next off hi l k i j : tiles off hi l -> l !! k = Some i -> l !! S k = Some j -> fst j = fst i + snd i.
Proof.
  revert off k. induction l as [|m l IH]; intros off k H Hi Hj; [done|]. destruct H as (H1 & H2 & H3 & H4). destruct k as [|k].
  - injection Hi as <-. destruct l as [|j' l]; [done|]. injection Hj as <-. destruct H4 as [-> _]. lia.
  - by apply (IH _ k H4).
Qed.

Lemma tiles_unique off hi l k k' i i' x :
  tiles off hi l -> l !! k = Some i -> l !! k' = Some i' -> fst i <= x < fst i + snd i -> fst i' <= x < fst i' + snd i' -> k = k'.
Proof.
  revert off k k'. induction l as [|j l IH]; intros off k k' H Hk Hk' Hx Hx'; [done|]. destruct H as (H1 & H2 & H3 & H4).
  destruct k as [|k], k' as [|k']; [done| | |f_equal; by eapply IH].
  - injection Hk as <-. destruct (tiles_lower _ _ _ _ _ H4 Hk'). lia.
  - injection Hk' as <-. destruct (tiles_lower _ _ _ _ _ H4 Hk). lia.
Qed.

Lemma rip_index_unique start rip l idx found k i :
  l !! k = Some i -> holds_rip start rip i = true -> (forall k' i', l !! k' = Some i' -> holds_rip start rip i' = true -> k' = k) ->
  rip_index start rip l idx found = Some (idx + k)%nat.
Proof.
  revert idx found k. induction l as [|j l IH]; intros idx found k Hk Hh Hu; [done|]. cbn [rip_index]. destruct k as [|k].
  - injection Hk as ->. rewrite Hh. assert (forall l' idx', (forall x, x ∈ l' -> holds_rip start rip x = false) -> rip_index start rip l' idx' (Some idx) = Some idx) as Hno.
    { induction l' as [|y l' IHl]; intros idx' Hf; [done|]. cbn [rip_index]. rewrite Hf by by left. apply IHl. intros x Hx. apply Hf. by right. }
    rewrite Hno; [f_equal; lia|]. intros x [n Hn]%list_elem_of_lookup. destruct (holds_rip start rip x) eqn:E; [|done]. by specialize (Hu (S n) x Hn E).
  - rewrite (IH (S idx) _ k); [f_equal; lia|done|done|]. intros k' i' Hk' Hi'. specialize (Hu (S k') i' Hk' Hi'). lia.
Qed.

Lemma code_start_near rip : 0 <= rip < 2 ^ 64 -> 0 <= code_start rip <= rip /\ rip < code_start rip + 40.
Proof.
  intros Hr. unfold code_start, saturating_sub. change 7 with (2 ^ 3 - 1). rewrite land_not64 by lia. change (2 ^ 3) with 8. set (x := Z.max (rip - 32) 0). 
  assert (0 <= x) by (unfold x; lia). assert (x mod 8 = x - 8 * (x / 8)) by (rewrite Z.mod_eq; lia). pose proof (Z.mod_pos_bound x 8). assert (x <= rip /\ rip <= x + 32) by (unfold x; lia). lia.
Qed.

Lemma length_code_bytes quads : length (code_bytes quads) = (8 * length quads)%nat.
Proof.
  unfold code_bytes. induction quads as [|q quads IH]; [done|]. cbn [mbind list_bind]. rewrite length_app, IH. destruct q as [v|]; cbn [length]; [|rewrite length_replicate; lia].
  replace (length (bytes_le 8 v)) with 8%nat by done. lia.
Qed.

Section window.
Context (rip : Z) (quads : list (option Z)) (Hq : length quads = 8%nat) (Hr : 0 <= rip < 2 ^ 64 - 64).
Local Notation start := (code_start rip).
Local Notation buf := (code_bytes quads).
Local Notation insns := (scan 64 start buf 0).

Lemma window_size : lenZ buf = 64.
Proof. unfold lenZ. rewrite length_code_bytes, Hq. done. Qed.

Lemma window_tiles : tiles 0 64 insns /\ Forall (fun i => snd i = line_len (wrap 64 (start + fst i)) (rest buf (fst i)) /\ 0 <= fst i < 64) insns.
Proof. pose proof (scan_tiles 64 start buf 0) as H. rewrite window_size in H. apply H; lia. Qed.

Lemma window_holds i k : insns !! k = Some i -> holds_rip start rip i = true <-> fst i <= rip - start < fst i + snd i.
Proof.
  intros Hi. destruct window_tiles as [Ht _]. destruct (tiles_lower _ _ _ _ _ Ht Hi) as (H1 & H2 & H3). destruct (code_start_near rip) as [Hs Hs2]; [lia|].
  unfold holds_rip. rewrite (wrap_small 64 (start + fst i)) by lia. rewrite wrap_small by lia. rewrite andb_true_iff, Z.geb_leb, Z.leb_le, Z.ltb_lt. lia.
Qed.

Lemma window_rip : exists k i, insns !! k = Some i /\ fst i <= rip - start < fst i + snd i /\ rip_index start rip insns 0 None = Some k.
Proof.
  destruct window_tiles as [Ht _]. destruct (code_start_near rip) as [Hs Hs2]; [lia|]. destruct (tiles_find 0 64 insns (rip - start) Ht) as (k & i & Hk & Hi); [lia|].
  exists k, i. split_and!; [done|lia|lia|]. apply (rip_index_unique _ _ _ 0%nat None k i); [done|by apply (window_holds i k)|].
  intros k' i' Hk' Hh%(window_holds i' k' Hk'). symmetry. by eapply tiles_unique.
Qed.

Lemma dump_is_window lines : dump_code_bytes rip quads = Some lines -> lines = dump_lines rip buf insns.
Proof. unfold dump_code_bytes. destruct (existsb _ _); [done|]. intros H. by apply (inj Some) in H. Qed.

(** A line of the window is an instruction of the scan. *)
Lemma window_line j line r :
  rip_index start rip insns 0 None = Some r -> dump_lines rip buf insns !! j = Some line ->
  exists i, insns !! (r - 4 + j)%nat = Some i /\ l_addr line = start + fst i /\ length (l_bytes line) = Z.to_nat (snd i) /\
    l_bytes line = take (Z.to_nat (snd i)) (drop (Z.to_nat (fst i)) buf) /\ l_rip line = Nat.eqb (r - 4 + j) r /\ l_text line = fst (disasm_one (l_addr line) (rest buf (fst i))).
Proof.
  intros Hri. unfold dump_lines. rewrite Hri. cbn [default from_option id]. rewrite list_lookup_imap. intros (i & Hi & ->)%fmap_Some.
  apply lookup_take_Some in Hi as [Hi Hj]. rewrite lookup_drop in Hi. exists i. destruct window_tiles as [Ht Hl]. destruct (tiles_lower _ _ _ _ _ Ht Hi) as (H1 & H2 & H3).
  rewrite Forall_forall in Hl. destruct (Hl i (list_elem_of_lookup_2 _ _ _ Hi)) as [Hlen Hoff]. destruct (code_start_near rip) as [Hs Hs2]; [lia|].
  cbn [l_addr l_bytes l_rip l_text]. rewrite <- Hlen. rewrite (wrap_small 64 (start + fst i)) by lia. split_and!; try done.
  unfold rest. rewrite length_take, length_drop. pose proof window_size as Hw. unfold lenZ in Hw. lia.
Qed.
End window.

(** The dump shows the fault. When the code around a fault is dumped and the
    decoder does not panic on it, exactly one line is marked, its bytes cover the
    faulting instruction pointer, at most four lines precede it, and consecutive
    lines are consecutive in memory: no byte between them is skipped or shown
    twice. *)
Theorem fault_line_marked rip quads lines :
  length quads = 8%nat -> 0 <= rip < 2 ^ 64 - 64 -> dump_code_bytes rip quads = Some lines ->
  exists k line, (k <= 4)%nat /\ lines !! k = Some line /\ l_rip line = true /\
    l_addr line <= rip < l_addr line + Z.of_nat (length (l_bytes line)) /\
    (forall j line', lines !! j = Some line' -> l_rip line' = true -> j = k) /\
    (forall j a b, lines !! j = Some a -> lines !! S j = Some b -> l_addr b = l_addr a + Z.of_nat (length (l_bytes a))).
Proof.
  intros Hq Hr Hd. rewrite (dump_is_window _ _ _ Hd). clear Hd lines. set (lines := dump_lines _ _ _). destruct (window_rip rip quads Hq Hr) as (r & i & Hi & Hin & Hri). destruct (window_tiles rip quads Hq) as [Ht _]. destruct (tiles_lower _ _ _ _ _ Ht Hi) as (H1 & H2 & H3).
  assert (exists line, lines !! (r - (r - 4))%nat = Some line) as (line & Hline).
  { apply lookup_lt_is_Some_2. unfold lines, dump_lines. rewrite Hri. cbn [default from_option id]. rewrite length_imap, length_take, length_drop. apply lookup_lt_Some in Hi. lia. }
  destruct (window_line rip quads Hq Hr _ _ r Hri Hline) as (i' & Hi' & Ha & Hl & _ & Hm & _). replace (r - 4 + (r - (r - 4)))%nat with r in Hi', Hm by lia.
  rewrite Hi in Hi'. injection Hi' as <-. exists (r - (r - 4))%nat, line. split; [lia|]. split; [done|]. split; [by rewrite Hm, Nat.eqb_refl|]. split; [lia|]. split.
  - intros j line' Hj Hmark. destruct (window_line rip quads Hq Hr _ _ r Hri Hj) as (_ & _ & _ & _ & _ & Hm' & _). rewrite Hm' in Hmark. apply Nat.eqb_eq in Hmark. lia.
  - intros j a b Hja Hjb. destruct (window_line rip quads Hq Hr _ _ r Hri Hja) as (ia & Hia & Haa & Hla & _). destruct (window_line rip quads Hq Hr _ _ r Hri Hjb) as (ib & Hib & Hab & _).
    replace (r - 4 + S j)%nat with (S (r - 4 + j)) in Hib by lia. rewrite Hab, Haa, (tiles_next _ _ _ _ _ _ Ht Hia Hib). destruct (tiles_lower _ _ _ _ _ Ht Hia) as (? & ? & ?). lia.
Qed.

(** ** Operands, as they are encoded *)

Inductive Disp := D0 | D8 (d : Z) | D32 (d : Z).
Inductive Operand := OReg (r : Z) | ORip (d : Z) | OMem (base : Z) (d : Disp) | OSib (base : option Z) (index : option (Z * Z)) (d : Disp).

Definition disp_mod (d : Disp) : Z := match d with D0 => 0 | D8 _ => 1 | D32 _ => 2 end.
Definition disp_val (d : Disp) : Z := match d with D0 => 0 | D8 d | D32 d => d end.
Definition disp_bytes (d : Disp) : list Z := match d with D0 => [] | D8 d => bytes_le 1 (d mod 2 ^ 8) | D32 d => bytes_le 4 (d mod 2 ^ 32) end.
Definition disp_ok (d : Disp) : Prop := match d with D0 => True | D8 d => - 2 ^ 7 <= d < 2 ^ 7 | D32 d => - 2 ^ 31 <= d < 2 ^ 31 end.

Definition modrm (md reg rm : Z) : Z := 64 * md + 8 * reg + rm.
Definition sib_byte (index : option (Z * Z)) (base : Z) : Z :=
  match index with Some (i, ss) => modrm ss (i mod 8) base | None => modrm 0 4 base end.

(** The ModRM byte, with [reg] in its middle bits, and what follows it. *)
Definition encode_op (reg : Z) (o : Operand) : list Z :=
  match o with
  | OReg r => [modrm 3 reg (r mod 8)]
  | ORip d => modrm 0 reg 5 :: disp_bytes (D32 d)
  | OMem b d => modrm (disp_mod d) reg (b mod 8) :: disp_bytes d
  | OSib (Some b) i d => modrm (disp_mod d) reg 4 :: sib_byte i (b mod 8) :: disp_bytes d
  | OSib None i d => modrm 0 reg 4 :: sib_byte i 5 :: disp_bytes d
  end.
(** The extension bits that go into the REX prefix. *)
Definition bit_b (o : Operand) : Z := match o with OReg r => r / 8 | OMem b _ => b / 8 | OSib (Some b) _ _ => b / 8 | _ => 0 end.
Definition bit_x (o : Operand) : Z := match o with OSib _ (Some (i, _)) _ => i / 8 | _ => 0 end.

(** Operands that have an encoding: every register, displacement, base, index and
    scale the instruction set has; an index is any register but rsp. *)
Definition operand_ok (o : Operand) : Prop :=
  match o with
  | OReg r => 0 <= r < 16
  | ORip d => disp_ok (D32 d)
  | OMem b d => 0 <= b < 16 /\ b mod 8 <> 4 /\ (d = D0 -> b mod 8 <> 5) /\ disp_ok d
  | OSib b i d => match b with Some b => 0 <= b < 16 /\ (d = D0 -> b mod 8 <> 5) | None => exists k, d = D32 k end /\
      match i with Some (i, ss) => 0 <= i < 16 /\ i <> 4 /\ 0 <= ss < 4 | None => True end /\ disp_ok d
  end.

(** What is shown of an operand: an index of r12 is lost, since the decoder tests the
    index for "none" without the bit of the REX prefix. *)
Definition shown (o : Operand) : Operand :=
  match o with OSib b (Some (i, ss)) d => if i =? 12 then OSib b None d else o | _ => o end.

(** The operand in Intel syntax. *)
Definition reg_name (r : Z) : string := default "" (REG64 !! Z.to_nat r).
Definition render (o : Operand) : string :=
  match o with
  | OReg r => reg_name r
  | ORip d => "[rip" +:+ plus_dec d +:+ "]"
  | OMem b d => "[" +:+ reg_name b +:+ (match d with D0 => "" | _ => plus_dec (disp_val d) end) +:+ "]"
  | OSib b i d =>
    "[" +:+ (match b with Some b => reg_name b | None => "" end) +:+
    (match i with Some (i, ss) => "+" +:+ reg_name i +:+ "*" +:+ dec (2 ^ ss) | None => "" end) +:+
    (if negb (disp_val d =? 0) || (bool_decide (b = None) && bool_decide (i = None)) then plus_dec (disp_val d) else "") +:+ "]"
  end.

Lemma modrm_fields md reg rm : 0 <= md < 4 -> 0 <= reg < 8 -> 0 <= rm < 8 ->
  modrm_mod (modrm md reg rm) = md /\ modrm_reg (modrm md reg rm) = reg /\ modrm_low (modrm md reg rm) = rm.
Proof.
  intros Hm Hr Hl. unfold modrm_mod, modrm_reg, modrm_low, modrm. change 7 with (Z.ones 3). rewrite !Z.land_ones, !Z.shiftr_div_pow2 by lia. 
  change (2 ^ 6) with 64. change (2 ^ 3) with 8. assert ((64 * md + 8 * reg + rm) / 8 = 8 * md + reg) as -> by div_lia. repeat split; div_lia.
Qed.

(** A displacement read back. *)
Lemma num_disp pre n d tail : 0 < Z.of_nat n -> - 2 ^ (8 * Z.of_nat n - 1) <= d < 2 ^ (8 * Z.of_nat n - 1) ->
  sext (Z.of_nat n) (num (pre ++ bytes_le n (d mod 2 ^ (8 * Z.of_nat n)) ++ tail) (lenZ pre) (Z.of_nat n)) = d.
Proof.
  intros Hn Hd. set (w := 8 * Z.of_nat n) in *. unfold num, field, lenZ. rewrite !Nat2Z.id, drop_app_length, take_app_length' by by rewrite length_bytes_le.
  assert (2 ^ w = 2 * 2 ^ (w - 1)) as Hw. { replace w with (Z.succ (w - 1)) at 1 by lia. rewrite Z.pow_succ_r by lia. done. }
  assert (0 < 2 ^ (w - 1)) by (apply Z.pow_pos_nonneg; lia). pose proof (Z.mod_pos_bound d (2 ^ w) ltac:(lia)) as Hm.
  rewrite le_bytes_of. 2:{ change 256 with (2 ^ 8). rewrite <- Z.pow_mul_r by lia. fold w. lia. }
  unfold sext. fold w. destruct (Z.lt_ge_cases d 0) as [Hneg|Hpos].
  - replace (d mod 2 ^ w) with (d + 2 ^ w) by (apply Z.mod_unique with (-1); lia). destruct (Z.ltb_spec (d + 2 ^ w) (2 ^ (w - 1))); lia.
  - rewrite Z.mod_small by lia. destruct (Z.ltb_spec d (2 ^ (w - 1))); lia.
Qed.

Lemma sapp_assoc (a b c : string) : (a +:+ b) +:+ c = a +:+ b +:+ c.
Proof. induction a as [|x a IH]; [done|]. exact (f_equal (String x) IH). Qed.
Lemma sapp_nil (a : string) : a +:+ "" = a.
Proof. induction a as [|x a IH]; [done|]. exact (f_equal (String x) IH). Qed.

(** The step writes [s] and goes on with [x]. *)
Definition emits {A} (m : D A) (s : string) (x : A) : Prop := m = (s, Cont x).

Lemma emits_ret {A} (x : A) : emits (dret x) "" x.
Proof. done. Qed.
Lemma emits_write s : emits (write s) s tt.
Proof. done. Qed.
Lemma emits_bind {A B} (m : D A) (k : A -> D B) s s' x y : emits m s x -> emits (k x) s' y -> emits (dbind m k) (s +:+ s') y.
Proof. unfold emits, dbind. intros -> ->. done. Qed.
(** Text written before the rest of the step. *)
Lemma emits_then {B} s (k : unit -> D B) s' y : emits (k tt) s' y -> emits (dbind (write s) k) (s +:+ s') y.
Proof. intros H. by eapply emits_bind. Qed.
Lemma emits_get {A B} (m : D A) x (k : A -> D B) s' y : emits m "" x -> emits (k x) s' y -> emits (dbind m k) s' y.
Proof. intros Hm Hk. by apply (emits_bind m k "" s' x y). Qed.
Lemma emits_put m s : emits m "" s -> emits (put m) s tt.
Proof. intros Hm. eapply emits_get; [exact Hm|apply emits_write]. Qed.
Lemma emits_text {A} (m : D A) s s' x : emits m s x -> s = s' -> emits m s' x.
Proof. by intros H <-. Qed.

Lemma emits_reg64 r : 0 <= r < 16 -> emits (reg64 (r mod 8) (r / 8)) "" (reg_name r).
Proof.
  intros Hr. unfold reg64. rewrite reg_index by (split; div_lia). replace (r mod 8 + 8 * (r / 8)) with r by div_lia. unfold name_at, reg_name.
  destruct (lookup_lt_is_Some_2 REG64 (Z.to_nat r)) as [s ->]; [cbn; lia|done].
Qed.

Section operands.
Context (p : Pfx) (Ha : addrsz32 p = false) (Hw : wide p = true) (tail : list Z).

Lemma num_disp8 d (pre : list Z) : - 2 ^ 7 <= d < 2 ^ 7 -> sext 1 (num (pre ++ bytes_le 1 (d mod 2 ^ 8) ++ tail) (lenZ pre) 1) = d.
Proof. intros Hd. apply (num_disp pre 1 d tail); [lia|exact Hd]. Qed.
Lemma num_disp32 d (pre : list Z) : - 2 ^ 31 <= d < 2 ^ 31 -> sext 4 (num (pre ++ bytes_le 4 (d mod 2 ^ 32) ++ tail) (lenZ pre) 4) = d.
Proof. intros Hd. apply (num_disp pre 4 d tail); [lia|exact Hd]. Qed.

Lemma sext8 d : - 2 ^ 7 <= d < 2 ^ 7 -> sext 1 (d mod 2 ^ 8 mod 256) = d.
Proof. intros Hd. unfold sext. change (2 ^ (8 * 1 - 1)) with 128. change (2 ^ (8 * 1)) with 256. change (2 ^ 8) with 256. change (2 ^ 7) with 128 in Hd. destruct (Z.ltb_spec (d mod 256 mod 256) 128); div_lia. Qed.
Lemma disp_short (pre : list Z) n v k : k <= lenZ pre + Z.of_nat n -> (lenZ (pre ++ bytes_le n v ++ tail) <? k) = false.
Proof. intros Hk. apply Z.ltb_ge. unfold lenZ in *. rewrite !length_app, length_bytes_le. lia. Qed.
Lemma disp32_here d : - 2 ^ 31 <= d < 2 ^ 31 ->
  sext 4 (num (bytes_le 4 (d mod 2 ^ 32) ++ tail) 0 4) = d /\ (lenZ (bytes_le 4 (d mod 2 ^ 32) ++ tail) <? 4) = false.
Proof. intros Hd. split; [exact (num_disp32 d [] Hd)|]. by apply (disp_short []). Qed.

(** The same behind a SIB byte. *)
Lemma disp8_after x d : - 2 ^ 7 <= d < 2 ^ 7 ->
  sext 1 (num (x :: bytes_le 1 (d mod 2 ^ 8) ++ tail) 1 1) = d /\ (lenZ (x :: bytes_le 1 (d mod 2 ^ 8) ++ tail) <? 2) = false.
Proof. intros Hd. split; [exact (num_disp8 d [x] Hd)|]. by apply (disp_short [x] 1). Qed.
Lemma disp32_after x d : - 2 ^ 31 <= d < 2 ^ 31 ->
  sext 4 (num (x :: bytes_le 4 (d mod 2 ^ 32) ++ tail) 1 4) = d /\ (lenZ (x :: bytes_le 4 (d mod 2 ^ 32) ++ tail) <? 5) = false.
Proof. intros Hd. split; [exact (num_disp32 d [x] Hd)|]. by apply (disp_short [x] 4). Qed.

Lemma ea_reg r reg b o : 0 <= r < 16 -> 0 <= reg < 8 -> ext_b p = r / 8 -> b = false -> o = false ->
  emits (write_ea (encode_op reg (OReg r) ++ tail) p b o) (reg_name r) (Some 1).
Proof.
  intros Hr Hg Hb -> ->. cbn [encode_op app write_ea]. destruct (modrm_fields 3 reg (r mod 8)) as (-> & _ & ->); [lia|lia|div_lia|]. cbn [Z.eqb Pos.eqb].
  rewrite <- (sapp_nil (reg_name r)). eapply emits_bind; [|apply emits_ret]. unfold write_reg. rewrite Hw, Hb. by apply emits_put, emits_reg64.
Qed.

Lemma ea_rip d reg b o : - 2 ^ 31 <= d < 2 ^ 31 -> 0 <= reg < 8 -> emits (write_ea (encode_op reg (ORip d) ++ tail) p b o) (render (ORip d)) (Some 5).
Proof.
  intros Hd Hg. unfold encode_op. cbn [app write_ea]. destruct (modrm_fields 0 reg 5) as (-> & _ & ->); [lia..|]. rewrite Ha. cbn [Z.eqb Pos.eqb negb andb disp_bytes].
  destruct (disp32_here d Hd) as [-> ->]. eapply emits_text; [apply emits_then, emits_ret|]. apply sapp_nil.
Qed.

Lemma ea_mem b d reg bz o : 0 <= reg < 8 -> operand_ok (OMem b d) -> ext_b p = b / 8 ->
  emits (write_ea (encode_op reg (OMem b d) ++ tail) p bz o) (render (OMem b d)) (Some (1 + Z.of_nat (length (disp_bytes d)))).
Proof.
  intros Hg (Hb & H4 & H5 & Hd) Hx. unfold encode_op. cbn [app write_ea]. destruct (modrm_fields (disp_mod d) reg (b mod 8)) as (-> & _ & ->); [destruct d; cbn; lia|lia|div_lia|]. rewrite Ha.
  destruct d as [|d|d]; cbn [disp_mod Z.eqb Pos.eqb negb andb disp_bytes app].
  - rewrite (proj2 (Z.eqb_neq (b mod 8) 5)) by auto. rewrite (proj2 (Z.eqb_neq _ _) H4). cbn [negb]. rewrite Hx.
    eapply emits_get; [by apply emits_reg64|]. eapply emits_text; [apply emits_then, emits_ret|]. apply sapp_nil.
  - rewrite (proj2 (Z.eqb_neq _ _) H4). cbn [negb]. cbn [bytes_le app]. rewrite sext8 by done. rewrite Hx. eapply emits_get; [by apply emits_reg64|]. eapply emits_text; [apply emits_then, emits_ret|]. apply sapp_nil.
  - rewrite (proj2 (Z.eqb_neq _ _) H4). cbn [negb]. destruct (disp32_here d Hd) as [-> ->]. rewrite Hx. eapply emits_get; [by apply emits_reg64|]. eapply emits_text; [apply emits_then, emits_ret|]. apply sapp_nil.
Qed.

Lemma ea_is_sib md reg sib l bz o : 0 <= md < 3 -> 0 <= reg < 8 ->
  write_ea (modrm md reg 4 :: sib :: l) p bz o = write_sib (modrm md reg 4 :: sib :: l) p md.
Proof.
  intros Hm Hg. cbn [write_ea]. destruct (modrm_fields md reg 4) as (-> & _ & ->); [lia..|]. rewrite (proj2 (Z.eqb_neq md 3)) by lia.
  change (4 =? 5) with false. rewrite !andb_false_r. done.
Qed.

(** The text of a SIB operand, once its parts are known. *)
Lemma sib_text base index d (n : Z) :
  match base with Some b => 0 <= b < 16 /\ ext_b p = b / 8 | None => True end ->
  match index with Some (i, ss) => 0 <= i < 16 /\ i mod 8 <> 4 /\ 0 <= ss < 4 /\ ext_x p = i / 8 | None => True end ->
  let sbase := match base with Some b => b mod 8 | None => 5 end in
  let sidx := match index with Some (i, _) => i mod 8 | None => 4 end in
  let scale := Z.shiftl 1 (match index with Some (_, ss) => ss | None => 0 end) in
  let has_base := match base with Some _ => true | None => false end in
  let have_idx := negb (sidx =? 4) in
  emits (write "[" ;*
      (if has_base then put (if addrsz32 p then reg32 sbase (ext_b p) else reg64 sbase (ext_b p)) else dret tt) ;*
      (if have_idx then
         let* r := (if addrsz32 p then reg32 sidx (ext_x p) else reg64 sidx (ext_x p)) in
         write ("+" +:+ r +:+ "*" +:+ dec scale)
       else dret tt) ;*
      (if negb (disp_val d =? 0) || (negb has_base && negb have_idx) then write (plus_dec (disp_val d)) else dret tt) ;*
      write "]" ;*
      dret (Some n)) (render (OSib base index d)) (Some n).
Proof using Ha.
  intros Hb Hi sbase sidx scale has_base have_idx. rewrite Ha. cbn [render]. apply emits_then.
  apply emits_bind with tt. { destruct base as [b|]; [|done]. destruct Hb as [Hb ->]. by apply emits_put, emits_reg64. }
  assert (have_idx = negb (bool_decide (index = None))) as Hidx.
  { unfold have_idx, sidx. destruct index as [[i ss]|]; [|done]. destruct Hi as (_ & H4 & _). by rewrite (proj2 (Z.eqb_neq _ _) H4). }
  apply emits_bind with tt.
  { unfold have_idx, sidx, scale. destruct index as [[i ss]|]; [|done]. destruct Hi as (Hi & H4 & Hss & ->). rewrite (proj2 (Z.eqb_neq _ _) H4). cbn [negb].
    eapply emits_get; [by apply emits_reg64|]. rewrite Z.shiftl_1_l. done. }
  rewrite Hidx, negb_involutive. replace (negb has_base) with (bool_decide (base = None)) by by destruct base.
  apply emits_bind with tt. { by destruct (_ || _). }
  eapply emits_text; [apply emits_then, emits_ret|]. apply sapp_nil.
Qed.

Lemma sib_parts index base : 0 <= base < 8 -> match index with Some (i, ss) => 0 <= i < 16 /\ 0 <= ss < 4 | None => True end ->
  Z.shiftr (sib_byte index base) 6 = match index with Some (_, ss) => ss | None => 0 end /\
  Z.land (Z.shiftr (sib_byte index base) 3) 7 = match index with Some (i, _) => i mod 8 | None => 4 end /\ Z.land (sib_byte index base) 7 = base.
Proof.
  intros Hb Hi. destruct index as [[i ss]|]; cbn [sib_byte]; apply modrm_fields; try lia. div_lia.
Qed.

Lemma ea_sib b i d reg bz o : 0 <= reg < 8 -> operand_ok (OSib b i d) -> ext_b p = bit_b (OSib b i d) -> ext_x p = bit_x (OSib b i d) ->
  emits (write_ea (encode_op reg (OSib b i d) ++ tail) p bz o) (render (shown (OSib b i d))) (Some (2 + Z.of_nat (length (disp_bytes d)))).
Proof using Ha.
  intros Hg (Hb & Hi & Hd) Hxb Hxx. set (md := match b with Some _ => disp_mod d | None => 0 end). set (sb := match b with Some b => b mod 8 | None => 5 end).
  assert (0 <= sb < 8) as Hsb by (unfold sb; destruct b; [div_lia|lia]).
  assert ((encode_op reg (OSib b i d) ++ tail)%list = (modrm md reg 4 :: sib_byte i sb :: disp_bytes d ++ tail)%list) as -> by (unfold md, sb; by destruct b).
  rewrite ea_is_sib by (unfold md; destruct b, d; cbn; lia). unfold write_sib. cbn [drop].
  destruct (sib_parts i sb Hsb) as (-> & -> & ->); [destruct i as [[]|]; [tauto|done]|].
  assert (negb ((md =? 0) && (sb =? 5)) = match b with Some _ => true | None => false end) as Hbase.
  { unfold md, sb. destruct b as [b|]; [|done]. destruct d; cbn [disp_mod]; [|done..]. by rewrite (proj2 (Z.eqb_neq (b mod 8) 5)) by (apply Hb; done). }
  rewrite Hbase. set (disp := if _ && _ then _ else _). assert (disp = Some (disp_val d, Z.of_nat (length (disp_bytes d)))) as ->.
  { unfold disp. apply (f_equal negb) in Hbase. rewrite negb_involutive in Hbase. rewrite Hbase. destruct d as [|d|d]; cbn [disp_bytes disp_val length] in *.
    - destruct b; [done|]. by destruct Hb as [? [=]].
    - destruct b; [|by destruct Hb as [? [=]]]. cbn [negb md disp_mod Z.eqb Pos.eqb]. by destruct (disp8_after (sib_byte i sb) d Hd) as [-> ->].
    - destruct (disp32_after (sib_byte i sb) d Hd) as [-> ->]. by destruct b. }
  assert (match b with Some b => 0 <= b < 16 /\ ext_b p = b / 8 | None => True end) as Hb' by (destruct b; [split; [tauto|exact Hxb]|done]).
  destruct i as [[i ss]|]; [|exact (sib_text b None d _ Hb' I)]. cbn [shown]. destruct Hi as (Hi & H4 & Hss).
  destruct (Z.eqb_spec i 12) as [->|H12]; [exact (sib_text b None d _ Hb' I)|]. apply (sib_text b (Some (i, ss)) d); [exact Hb'|].
  split_and!; try done; try lia. div_lia.
Qed.

(** Every operand is read back. *)
Lemma ea_operand o reg : 0 <= reg < 8 -> operand_ok o -> ext_b p = bit_b o -> ext_x p = bit_x o ->
  emits (write_ea (encode_op reg o ++ tail) p false false) (render (shown o)) (Some (Z.of_nat (length (encode_op reg o)))).
Proof using Ha Hw.
  intros Hg Ho Hb Hx. destruct o as [r|d|b d|b i d].
  - by apply ea_reg.
  - by apply ea_rip.
  - unfold encode_op at 2. cbn [length]. rewrite Nat2Z.inj_succ, <- Z.add_1_l. by apply ea_mem.
  - replace (Z.of_nat (length (encode_op reg (OSib b i d)))) with (2 + Z.of_nat (length (disp_bytes d))) by (destruct b; cbn [encode_op length]; lia). by apply ea_sib.
Qed.
End operands.

(** ** Arithmetic instructions *)

(** [add], [or], .., [cmp] of a 64-bit register and an operand. *)
Definition alu_insn (g : Z) (to_reg : bool) (r : Z) (o : Operand) : list Z :=
  [72 + 4 * (r / 8) + 2 * bit_x o + bit_b o; 8 * g + (if to_reg then 3 else 1)] ++ encode_op (r mod 8) o.
Definition alu_text (g : Z) (to_reg : bool) (r : Z) (o : Operand) : string :=
  default "" (GRP1 !! Z.to_nat g) +:+ " " +:+ (if to_reg then reg_name r +:+ "," +:+ render o else render o +:+ "," +:+ reg_name r).

Lemma prefixes_rex rx op l :
  between 0x40 0x4F rx = true -> between 0x40 0x4F op || (op =? 0x66) || (op =? 0x67) || one_of [0x26; 0x2E; 0x36; 0x3E; 0x64; 0x65; 0xF0; 0xF2; 0xF3] op = false ->
  prefixes (rx :: op :: l) (mkPfx 0 false false) 0 = Some (mkPfx rx false false, op, 1).
Proof. intros Hr ([[H1 H2]%orb_false_iff H3]%orb_false_iff & H4)%orb_false_iff. cbn [prefixes]. rewrite Hr, H1, H2, H3, H4. done. Qed.

Lemma rex_bits a b c : 0 <= a < 2 -> 0 <= b < 2 -> 0 <= c < 2 -> let p := mkPfx (72 + 4 * a + 2 * b + c) false false in
  between 0x40 0x4F (rex p) = true /\ ext_r p = a /\ ext_x p = b /\ ext_b p = c /\ wide p = true /\ has_rex p = true.
Proof.
  intros Ha Hb Hc. assert (a = 0 \/ a = 1) as [-> | ->] by lia; assert (b = 0 \/ b = 1) as [-> | ->] by lia; assert (c = 0 \/ c = 1) as [-> | ->] by lia; done.
Qed.

Lemma alu_opcode addr bytes p g (t : bool) : 0 <= g < 8 -> let op := 8 * g + (if t then 3 else 1) in
  between 0x40 0x4F op || (op =? 0x66) || (op =? 0x67) || one_of [0x26; 0x2E; 0x36; 0x3E; 0x64; 0x65; 0xF0; 0xF2; 0xF3] op = false /\
  opcode addr bytes p op 2 = (write (default "" (GRP1 !! Z.to_nat g) +:+ " ") ;* both bytes p 2 t false).
Proof.
  intros Hg. assert (g = 0 \/ g = 1 \/ g = 2 \/ g = 3 \/ g = 4 \/ g = 5 \/ g = 6 \/ g = 7) as H by lia. 
  repeat destruct H as [-> | H]; [..|subst]; destruct t; (split; [reflexivity|]); cbv -[both]; by destruct (both _ _ _ _ _).
Qed.

Lemma bits_range o : operand_ok o -> 0 <= bit_b o < 2 /\ 0 <= bit_x o < 2.
Proof. destruct o as [r|d|b d|[b|] [[i ss]|] d]; cbn; intros H; split; div_lia. Qed.

Lemma modrm_of_op reg o tail : 0 <= reg < 8 -> operand_ok o -> exists m l, (encode_op reg o ++ tail)%list = m :: l /\ modrm_reg m = reg.
Proof.
  intros Hg Ho. destruct o as [r|d|b d|[b|] i d]; cbn [encode_op app]; eexists _, _; (split; [reflexivity|]); apply modrm_fields; try lia; try (destruct d; cbn; lia); div_lia.
Qed.

Lemma both_text p reg r o tail bytes to_reg :
  rest bytes 2 = (encode_op (r mod 8) o ++ tail)%list -> reg = r mod 8 -> 0 <= r < 16 -> operand_ok o -> addrsz32 p = false -> opsz16 p = false -> wide p = true ->
  ext_r p = r / 8 -> ext_b p = bit_b o -> ext_x p = bit_x o ->
  emits (both bytes p 2 to_reg false) (if to_reg then reg_name r +:+ "," +:+ render (shown o) else render (shown o) +:+ "," +:+ reg_name r) (2 + Z.of_nat (length (encode_op (r mod 8) o))).
Proof.
  intros Hl -> Hr Ho Ha Hz Hw Hxr Hxb Hxx. assert (0 <= r mod 8 < 8) as Hm by div_lia. unfold both. rewrite Hl.
  pose proof (ea_operand p Ha Hw tail o (r mod 8) Hm Ho Hxb Hxx) as Hea. destruct (modrm_of_op (r mod 8) o tail Hm Ho) as (m & l & El & Em). rewrite El in *.
  assert (emits (write_reg (modrm_reg m) false (wide p) (has_rex p) (ext_r p) (opsz16 p)) (reg_name r) tt) as Hreg.
  { rewrite Em, Hw, Hz, Hxr. unfold write_reg. by apply emits_put, emits_reg64. }
  eapply emits_text; [eapply (emits_bind _ _ _ _ (Some _)); [|apply emits_ret]|apply sapp_nil]. unfold modrm_rm. rewrite Hz in *. destruct to_reg.
  - eapply emits_bind; [exact Hreg|]. apply emits_then. exact Hea.
  - eapply emits_bind; [exact Hea|]. cbn beta iota. eapply emits_text; [apply emits_then; eapply emits_bind; [exact Hreg|apply emits_ret]|]. by rewrite sapp_nil.
Qed.

(** C30: Arithmetic instructions are read back. For each of the eight operations, both
    directions, every 64-bit register and every operand (a register, memory
    relative to rip, with a base and a displacement of any size, or with base,
    scaled index and displacement), decoding the encoded instruction followed by
    anything returns exactly its length and prints the operation and the operands
    in order. One operand is not printed as encoded: an index of r12 is left out,
    as if there were none. With every other index the text is that of the
    instruction. *)
Theorem alu_roundtrip addr g to_reg r o tail :
  0 <= g < 8 -> 0 <= r < 16 -> operand_ok o ->
  disasm_one addr (alu_insn g to_reg r o ++ tail) = (alu_text g to_reg r (shown o), Cont (Z.of_nat (length (alu_insn g to_reg r o)))) /\
  ((forall b ss d, o <> OSib b (Some (12, ss)) d) -> shown o = o).
Proof.
  intros Hg Hr Ho. split.
  2:{ intros H12. destruct o as [|d|b d|b [[i ss]|] d]; try done. cbn. destruct (Z.eqb_spec i 12) as [->|]; [by destruct (H12 b ss d)|done]. }
  destruct (bits_range o Ho) as [Hb Hx]. unfold alu_insn, disasm_one. rewrite <- app_assoc. cbn [app length].
  set (rx := 72 + _ + _ + _). destruct (rex_bits (r / 8) (bit_x o) (bit_b o)) as (Hrx & Hxr & Hxx & Hxb & Hw & _); [split; div_lia|done..|]. fold rx in Hrx, Hxr, Hxx, Hxb, Hw. cbn [rex] in Hrx.
  set (bytes := rx :: _). destruct (alu_opcode addr bytes (mkPfx rx false false) g to_reg Hg) as [Hpre Hop]. assert (prefixes bytes (mkPfx 0 false false) 0 = Some (mkPfx rx false false, 8 * g + (if to_reg then 3 else 1), 1)) as -> by by apply prefixes_rex. cbn beta iota. change (1 + 1) with 2. rewrite Hop.
  rewrite !Nat2Z.inj_succ. replace (Z.succ (Z.succ (Z.of_nat (length (encode_op (r mod 8) o))))) with (2 + Z.of_nat (length (encode_op (r mod 8) o))) by lia.
  unfold alu_text. rewrite <- sapp_assoc. apply emits_then. by apply (both_text _ (r mod 8) r o tail).
Qed.

(** An index of r12 has the bits of no index apart from the REX prefix, which the
    decoder does not look at there: [mov rax, [rax+r12]] loses its index. *)
Lemma r12_index_lost : disasm_one 0 [0x4A; 0x8B; 0x04; 0x20] = ("mov rax,[rax]", Cont 4).
Proof. vm_compute. reflexivity. Qed.

(** [mov rax, cr3] is printed with the fields exchanged. *)
Lemma mov_cr_swapped : disasm_one 0 [0x0F; 0x20; 0xD8] = ("mov rbx,cr0", Cont 3).
Proof. vm_compute. reflexivity. Qed.

(** [xchg eax, ecx] names the register before. *)
Lemma xchg_off_by_one : disasm_one 0 [0x91] = ("xchg eax,eax", Cont 1).
Proof. vm_compute. reflexivity. Qed.

(** [add rax, [r8+r9*4-16]] *)
Lemma alu_roundtrip_witness :
  disasm_one 0x1000 (alu_insn 0 true 0 (OSib (Some 8) (Some (9, 2)) (D8 (-16))) ++ [0x90]) = ("add rax,[r8+r9*4-16]", Cont 5).
Proof.
  destruct (alu_roundtrip 0x1000 0 true 0 (OSib (Some 8) (Some (9, 2)) (D8 (-16))) [0x90]) as [H _]; [lia|lia| |rewrite H; reflexivity].
  cbn. split_and!; done || lia.
Defined.

(** A fault at 0x401025 in code of [nop] with an unreadable quadword. *)
Lemma fault_line_marked_witness :
  exists lines k line, dump_code_bytes 0x401025 ([None] ++ replicate 7 (Some 0x9090909090909090)) = Some lines /\
    (k <= 4)%nat /\ lines !! k = Some line /\ l_rip line = true /\ l_addr line <= 0x401025.
Proof.
  destruct (dump_code_bytes 0x401025 ([None] ++ replicate 7 (Some 0x9090909090909090))) as [lines|] eqn:E; [|exfalso; vm_compute in E; discriminate E].
  destruct (fault_line_marked 0x401025 ([None] ++ replicate 7 (Some 0x9090909090909090)) lines) as (k & line & Hk & Hl & Hr & Ha & _); [reflexivity|lia|exact E|].
  exists lines, k, line. split; [reflexivity|]. split; [exact Hk|]. split; [exact Hl|]. split; [exact Hr|lia].
Defined.
