(* ===== verification/DisasmLen.v ===== *)
(** The lengths of the decoder against those of the instruction set: they agree for
    every one-byte opcode the decoder covers when no prefix changes the size of
    operands or addresses, and they differ when one does. *)
From stdpp Require Import base tactics numbers list strings.
From Stdlib Require Import ZArith Lia.
From S2P Require Import Prelude Exec Entry Disasm DisasmThms.

Local Open Scope string_scope.
Local Open Scope Z_scope.
Local Open Scope dis_scope.

(** ** The instruction set *)

(** The fields of a ModRM byte. *)
Definition isa_mod (m : Z) : Z := m / 64.
Definition isa_reg (m : Z) : Z := m / 8 mod 8.
Definition isa_rm (m : Z) : Z := m mod 8.

(** Prefixes without influence on sizes: segments, [lock], [repne], [rep]. *)
Definition plain_prefix (b : Z) : Prop := b ∈ [0x26; 0x2E; 0x36; 0x3E; 0x64; 0x65; 0xF0; 0xF2; 0xF3].
(** A REX prefix counts right before the opcode; its bit 3 asks for 64-bit operands. *)
Definition is_rex (b : Z) : Prop := 0x40 <= b <= 0x4F.
Definition rex_w (rx : option Z) : bool := match rx with Some b => Z.testbit b 3 | None => false end.
(** The byte is an opcode: neither of these nor a size prefix. *)
Definition is_opcode (b : Z) : Prop := 0 <= b < 256 /\ ~ plain_prefix b /\ ~ is_rex b /\ b <> 0x66 /\ b <> 0x67.

(** One-byte opcodes with a ModRM byte. *)
Definition isa_modrm (op : Z) : bool :=
  ((op <? 0x40) && (op mod 8 <? 4)) || one_of [0x63; 0x69; 0x6B; 0xC0; 0xC1; 0xC6; 0xC7; 0xD0; 0xD1; 0xD2; 0xD3; 0xF6; 0xF7; 0xFE; 0xFF] op || between 0x80 0x8F op.

(** Bytes of immediate operands, offsets and targets, for 32-bit operands or, with
    REX.W, 64-bit ones. *)
Definition isa_imm (op m : Z) (w : bool) : Z :=
  if (op <? 0x40) && (op mod 8 =? 4) then 1
  else if (op <? 0x40) && (op mod 8 =? 5) then 4
  else if one_of [0x6A; 0x6B; 0x80; 0x82; 0x83; 0xA8; 0xC0; 0xC1; 0xC6; 0xCD; 0xEB] op || between 0x70 0x7F op || between 0xB0 0xB7 op || between 0xE0 0xE7 op then 1
  else if one_of [0x68; 0x69; 0x81; 0xA9; 0xC7; 0xE8; 0xE9] op then 4
  else if between 0xA0 0xA3 op then 8
  else if between 0xB8 0xBF op then if w then 8 else 4
  else if one_of [0xC2; 0xCA] op then 2
  else if op =? 0xC8 then 3
  else if (op =? 0xF6) && (isa_reg m <? 2) then 1
  else if (op =? 0xF7) && (isa_reg m <? 2) then 4
  else 0.

(** ModRM, SIB and displacement. *)
Definition isa_ea (m sib : Z) : Z :=
  if isa_mod m =? 3 then 1
  else
    1 + (if isa_rm m =? 4 then 1 else 0) +
    (if isa_mod m =? 1 then 1 else if isa_mod m =? 2 then 4
     else if (isa_rm m =? 5) || ((isa_rm m =? 4) && (sib mod 8 =? 5)) then 4 else 0).

(** Escapes to other tables: two-byte opcodes, x87, and the prefixes of AVX. *)
Definition escape (op : Z) : bool := one_of [0x0F; 0x62; 0xC4; 0xC5] op || between 0xD8 0xDF op.

(** The fields as the decoder takes them. *)
Lemma modrm_isa m : modrm_mod m = isa_mod m /\ modrm_reg m = isa_reg m /\ modrm_low m = isa_rm m.
Proof.
  unfold modrm_mod, modrm_reg, modrm_low, isa_mod, isa_reg, isa_rm. change 7 with (Z.ones 3).
  by rewrite !Z.land_ones, !Z.shiftr_div_pow2 by lia.
Qed.
Lemma land7_mod x : Z.land x 7 = x mod 8.
Proof. change 7 with (Z.ones 3). by rewrite Z.land_ones by lia. Qed.

(** ** Exact lengths *)

(** The same sizes, with the fields as the decoder takes them. *)
Definition dec_ea (m sib : Z) : Z :=
  if modrm_mod m =? 3 then 1
  else
    1 + (if modrm_low m =? 4 then 1 else 0) +
    (if modrm_mod m =? 1 then 1 else if modrm_mod m =? 2 then 4
     else if (modrm_low m =? 5) || ((modrm_low m =? 4) && (Z.land sib 7 =? 5)) then 4 else 0).

Lemma dec_ea_isa m sib : dec_ea m sib = isa_ea m sib.
Proof. unfold dec_ea, isa_ea. destruct (modrm_isa m) as (-> & _ & ->). by rewrite land7_mod. Qed.

Definition never (r : option (option Z)) : Prop := False.

Section exact.
Context (addr : Z) (bytes : list Z) (p : Pfx) (m sib pos : Z).
Context (Ha : addrsz32 p = false) (Hz : opsz16 p = false) (Hpos : 0 <= pos) (Hlen : pos + 16 <= lenZ bytes).
Context (Hm : bytes !! Z.to_nat pos = Some m) (Hs : bytes !! Z.to_nat (pos + 1) = Some sib) (Hbyte : 0 <= m < 256).

Lemma wp_sib_size R l md : 6 <= lenZ l -> l !! 1%nat = Some sib -> 0 <= md < 3 ->
  wp R (write_sib l p md) (fun o => o = Some (2 + (if md =? 1 then 1 else if md =? 2 then 4 else if Z.land sib 7 =? 5 then 4 else 0))).
Proof using Ha.
  clear Hm Hs. intros Hl Hs Hmd. unfold write_sib. destruct l as [|x [|y l]]; [done..|]. injection Hs as ->. cbn [drop].
  assert (lenZ (sib :: l) = lenZ (x :: sib :: l) - 1) as Hl' by (unfold lenZ; cbn [length]; lia). rewrite !(proj2 (Z.ltb_ge (lenZ (sib :: l)) _)) by lia.
  set (disp := if _ && _ then _ else _). assert (exists d, disp = Some (d, if md =? 1 then 1 else if md =? 2 then 4 else if Z.land sib 7 =? 5 then 4 else 0)) as (d & ->).
  { unfold disp. assert (md = 0 \/ md = 1 \/ md = 2) as [-> | [-> | ->]] by lia; cbn [Z.eqb Pos.eqb andb]; [|by eexists..]. destruct (Z.land sib 7 =? 5); by eexists. }
  rewrite Ha. repeat (dstep; try apply land7); done.
Qed.

Lemma mod_range : 0 <= modrm_mod m < 4.
Proof using Hbyte. unfold modrm_mod. rewrite Z.shiftr_div_pow2 by lia. change (2 ^ 6) with 64. div_lia. Qed.

Lemma wp_ea_size R b o : wp R (write_ea (rest bytes pos) p b o) (fun o => o = Some (dec_ea m sib)).
Proof using Ha Hpos Hlen Hm Hs Hbyte.
  assert (exists l, rest bytes pos = m :: l) as (l & E) by (unfold rest; rewrite (drop_S _ _ _ Hm); eauto).
  assert (lenZ (m :: l) >= 16) as Hl by (rewrite <- E, lenZ_rest; lia). assert ((m :: l) !! 1%nat = Some sib) as Hsib.
  { rewrite <- E. unfold rest. rewrite lookup_drop. rewrite <- Hs. f_equal. lia. }
  assert (lenZ l = lenZ (m :: l) - 1) as Hl' by (unfold lenZ; cbn [length]; lia). pose proof mod_range as Hmod.
  rewrite E. unfold write_ea, dec_ea. rewrite Ha. cbn [negb andb]. rewrite !(proj2 (Z.ltb_ge (lenZ l) 4)) by lia.
  destruct (Z.eqb_spec (modrm_mod m) 3); [repeat dstep; done|]. destruct (Z.eqb_spec (modrm_low m) 4) as [E4|E4].
  - rewrite E4. change (4 =? 5) with false. rewrite andb_false_r. cbn [negb orb andb]. eapply wp_mono; [apply wp_sib_size; [lia|done|lia]|]. intros ? ->. f_equal.
  - cbn [negb]. destruct (Z.eqb_spec (modrm_mod m) 0) as [E0|E0]; cbn [andb].
    + rewrite E0. cbn [Z.eqb]. destruct (modrm_low m =? 5); cbn [orb andb]; repeat (dstep; try apply land7); done.
    + destruct (Z.eqb_spec (modrm_mod m) 1); [destruct l; [unfold lenZ in *; cbn [length] in *; lia|]|rewrite (proj2 (Z.eqb_eq (modrm_mod m) 2)) by lia]; repeat (dstep; try apply land7); done.
Qed.

Local Notation WP := (wp never).

Lemma wp_imm_exact n q k (Q : Z -> Prop) : q + n <= lenZ bytes -> Q (q + n) -> WP (imm bytes n q k) Q.
Proof using Type. intros Hn HQ. unfold imm. by destruct (avail_spec bytes n q). Qed.
Lemma wp_imm_i32_exact q k (Q : Z -> Prop) : q + 4 <= lenZ bytes -> sext 4 (num bytes q 4) <> - 2 ^ 31 -> Q (q + 4) -> WP (imm_i32 bytes q k) Q.
Proof using Type.
  intros Hn Hv HQ. unfold imm_i32. destruct (avail_spec bytes 4 q); [|done]. cbv zeta. destruct (_ >=? 0); [done|]. by destruct (Z.eqb_spec (sext 4 (num bytes q 4)) (- 2 ^ 31)).
Qed.
Lemma wp_rel_exact n q k (Q : Z -> Prop) : q + n <= lenZ bytes -> Q (q + n) -> WP (rel addr bytes n q k) Q.
Proof using Type. intros Hn HQ. unfold rel. by destruct (avail_spec bytes n q). Qed.
Lemma wp_modrm_exact (Q : Z -> Prop) : Q m -> WP (modrm_at bytes pos) Q.
Proof using Hm. intros HQ. unfold modrm_at. by rewrite Hm. Qed.
Lemma wp_ea_opt_exact b o (Q : Z -> Prop) : Q (pos + dec_ea m sib) -> WP (ea_opt bytes p pos b o) Q.
Proof using Ha Hpos Hlen Hm Hs Hbyte. intros HQ. apply wp_bind. eapply wp_mono; [apply wp_ea_size|]. by intros ? ->. Qed.
Lemma wp_ea_exact b (Q : Z -> Prop) : Q (pos + dec_ea m sib) -> WP (ea bytes p pos b) Q.
Proof using Ha Hpos Hlen Hm Hs Hbyte. intros HQ. do 2 apply wp_bind. eapply wp_mono; [apply wp_ea_size|]. by intros ? ->. Qed.
Lemma wp_both_exact t b (Q : Z -> Prop) : Q (pos + dec_ea m sib) -> WP (both bytes p pos t b) Q.
Proof using Ha Hpos Hlen Hm Hs Hbyte.
  intros HQ. apply wp_bind. pose proof wp_ea_size as Hea. unfold rest in *. rewrite (drop_S _ _ _ Hm) in *. unfold modrm_rm.
  destruct t; repeat dstep; (eapply wp_mono; [apply Hea|]); intros ? ->; repeat dstep; done.
Qed.
Lemma ea_bound : dec_ea m sib <= 6.
Proof using Type. unfold dec_ea. repeat case_match; lia. Qed.
End exact.

Lemma all_bytes (P : Z -> Prop) : Forall P (seqZ 0 256) -> forall op, 0 <= op < 256 -> P op.
Proof. intros H op Hop. rewrite Forall_forall in H. apply H, elem_of_seqZ. lia. Qed.

(** Steps of an arm of the table, with exact lengths. *)
Ltac lstep :=
  match goal with
  | |- wp _ (if avail ?b ?n ?q then _ else _) _ => destruct (avail_spec b n q); [|lia]
  | |- wp _ (modrm_at _ _) _ => eapply wp_modrm_exact; [eassumption|]
  | |- wp _ (imm _ _ _ _) _ => apply wp_imm_exact; [lia|]
  | |- wp _ (imm_i32 _ _ _) _ => apply wp_imm_i32_exact; [lia|by auto|]
  | |- wp _ (rel _ _ _ _ _) _ => apply wp_rel_exact; [lia|]
  | |- wp _ (ea_opt _ _ ?q _ _) _ => eapply wp_ea_opt_exact; [eassumption..|]
  | |- wp _ (ea _ _ ?q _) _ => eapply wp_ea_exact; [eassumption..|]
  | |- wp _ (both _ _ ?q _ _) _ => eapply wp_both_exact; [eassumption..|]
  | |- wp _ (reg_operand _ _ _) _ => unfold reg_operand
  | |- wp _ (reg8 _ _ _) _ => apply wp_reg8; [lia|apply ext_bounds|intros Hno; apply (no_rex _ Hno)|intros ?]
  | |- wp _ (reg16 _ _) _ => apply wp_reg16; [lia|apply ext_bounds|intros ?]
  | |- 0 <= Z.land _ 7 < _ => apply land7
  | |- 0 <= modrm_reg _ < _ => apply land7
  | |- _ => dstep
  end.

Section table.
Context (addr : Z) (bytes : list Z) (p : Pfx) (m sib pos : Z).
Context (Ha : addrsz32 p = false) (Hz : opsz16 p = false) (Hpos : 0 <= pos) (Hlen : pos + 16 <= lenZ bytes).
Context (Hm : bytes !! Z.to_nat pos = Some m) (Hs : bytes !! Z.to_nat (pos + 1) = Some sib) (Hbyte : 0 <= m < 256).

Definition exact_length (op : Z) : Prop :=
  escape op = false -> (op = 0x68 -> sext 4 (num bytes pos 4) <> - 2 ^ 31) -> (op = 0x69 -> sext 4 (num bytes (pos + dec_ea m sib) 4) <> - 2 ^ 31) -> wp never (opcode addr bytes p op pos) (fun n => n = pos + (if isa_modrm op then dec_ea m sib else 0) + isa_imm op m (wide p)).

(** The arm of a concrete opcode. *)
Ltac reduce_arm :=
  cbv -[avail imm imm_i32 rel modrm_at ea ea_opt both reg_operand dbind write dret name_at wp never hex dec signed_hex sext num String.append lenZ wide has_rex
        ext_b ext_r opsz16 addrsz32 modrm_reg modrm_low Z.add dec_ea isa_reg reg64 reg8 reg16 reg32 sreg_name].
Ltac arm := intros Hesc H68 H69; try discriminate Hesc; clear Hesc; unfold isa_modrm, isa_imm; rewrite <- ?land7_mod; reduce_arm; rewrite ?Hz; destruct (wide p); repeat lstep; cbn [length]; lia.

(** Group 3 has an immediate in its first two forms only. *)
Lemma group3_length op : op = 0xF6 \/ op = 0xF7 -> exact_length op.
Proof using All.
  intros Hop _ _ _. pose proof (ea_bound m sib). assert (0 <= modrm_reg m < 8) as Hr by apply land7.
  assert (modrm_reg m = 0 \/ modrm_reg m = 1 \/ modrm_reg m = 2 \/ modrm_reg m = 3 \/ modrm_reg m = 4 \/ modrm_reg m = 5 \/ modrm_reg m = 6 \/ modrm_reg m = 7) as E by lia.
  destruct Hop as [-> | ->]; reduce_arm; rewrite <- (proj1 (proj2 (modrm_isa m))); apply wp_bind; lstep; cbv beta; repeat destruct E as [E | E]; rewrite E; repeat lstep; cbn [length]; lia.
Qed.

Lemma opcode_length op : 0 <= op < 256 -> exact_length op.
Proof using All.
  intros Hop. destruct (decide (op = 0xF6 \/ op = 0xF7)) as [H3|H3]; [by apply group3_length|]. pose proof (ea_bound m sib). revert op Hop H3.
  apply (all_bytes (fun op => ~ (op = 0xF6 \/ op = 0xF7) -> exact_length op)).
  change (seqZ 0 256) with (ltac:(let x := eval vm_compute in (seqZ 0 256) in exact x)).
  repeat (apply Forall_cons; split); try (by apply Forall_nil); intros H3; first [by contradict H3; auto|clear H3; unfold exact_length; arm].
Qed.
End table.

(** ** The prefixes *)

Lemma prefixes_plain pre l p pos : Forall plain_prefix pre -> prefixes (pre ++ l) p pos = prefixes l p (pos + Z.of_nat (length pre)).
Proof.
  intros H. revert pos. induction H as [|b pre Hb _ IH]; intros pos; [by rewrite Z.add_0_r|]. cbn [app length].
  transitivity (prefixes (pre ++ l) p (pos + 1)); [|rewrite IH; f_equal; lia].
  unfold plain_prefix in Hb. by repeat (apply elem_of_cons in Hb as [->|Hb]); [..|apply not_elem_of_nil in Hb].
Qed.

Lemma prefixes_end op l p pos : is_opcode op -> prefixes (op :: l) p pos = Some (p, op, pos).
Proof.
  intros (_ & Hpl & Hrex & H66 & H67). cbn [prefixes]. unfold between, one_of, is_rex, plain_prefix in *.
  rewrite (proj2 (Z.eqb_neq _ _) H66), (proj2 (Z.eqb_neq _ _) H67), bool_decide_eq_false_2 by done.
  destruct (Z.leb_spec 0x40 op), (Z.leb_spec op 0x4F); try done. lia.
Qed.

(** An instruction: prefixes, at most one REX prefix, and the rest from the opcode. *)
Definition isa_insn (pre : list Z) (rx : option Z) (l : list Z) : list Z := pre ++ option_list rx ++ l.

Lemma prefixes_insn pre rx op l :
  Forall plain_prefix pre -> match rx with Some b => is_rex b | None => True end -> is_opcode op ->
  exists p, prefixes (isa_insn pre rx (op :: l)) (mkPfx 0 false false) 0 = Some (p, op, Z.of_nat (length (pre ++ option_list rx))) /\
    opsz16 p = false /\ addrsz32 p = false /\ wide p = rex_w rx.
Proof.
  intros Hpre Hrx Hop. unfold isa_insn. rewrite prefixes_plain by done. rewrite length_app, Nat2Z.inj_add. destruct rx as [b|]; cbn [option_list app length].
  - cbv beta iota in Hrx. exists (mkPfx b false false). split_and!; try done.
    + change (option_list (Some b) ++ op :: l)%list with (b :: op :: l). cbn [length].
      assert (between 0x40 0x4F b = true) as Hb by (unfold between, is_rex in *; apply andb_true_iff; rewrite !Z.leb_le; lia).
      transitivity (prefixes (op :: l) (mkPfx b false false) (0 + Z.of_nat (length pre) + 1)); [|by rewrite prefixes_end].
      generalize (op :: l). intros l'. cbn [prefixes]. by rewrite Hb.
    + unfold is_rex in Hrx.
      assert (exists k, 0 <= k < 16 /\ b = 0x40 + k) as (k & Hk & ->) by (exists (b - 0x40); lia).
      assert (k = 0 \/ k = 1 \/ k = 2 \/ k = 3 \/ k = 4 \/ k = 5 \/ k = 6 \/ k = 7 \/ k = 8 \/ k = 9 \/ k = 10 \/ k = 11 \/ k = 12 \/ k = 13 \/ k = 14 \/ k = 15) as E by lia.
      by repeat destruct E as [-> | E]; [..|subst].
  - exists (mkPfx 0 false false). change (option_list None ++ op :: l)%list with (op :: l); rewrite prefixes_end by done. split_and!; try done. cbn [option_list length]; by rewrite !Z.add_0_r.
Qed.

(** C29: Lengths agree with the instruction set. An instruction is any number of
    segment, lock and repeat prefixes, at most one REX prefix right before the
    opcode, any one-byte opcode outside the escapes (0x0F, x87, AVX), and at least
    16 bytes behind it: the length that the decoder returns is that of the prefixes,
    the opcode, ModRM, SIB, displacement and immediate in the instruction set, which
    is defined here without the decoder's own reading of prefixes and fields. Left
    out are the size prefixes 0x66 and 0x67, a REX prefix that another prefix
    follows, and the immediate on which the decoder panics. *)
Theorem length_matches_isa addr pre rx op m sib tail :
  Forall plain_prefix pre -> match rx with Some b => is_rex b | None => True end -> is_opcode op -> escape op = false ->
  0 <= m < 256 -> (14 <= length tail)%nat ->
  let n := Z.of_nat (length pre + length (option_list rx)) + 1 + (if isa_modrm op then isa_ea m sib else 0) in
  let bytes := isa_insn pre rx (op :: m :: sib :: tail) in
  (op = 0x68 \/ op = 0x69 -> sext 4 (num bytes n 4) <> - 2 ^ 31) ->
  insn_length addr bytes = Some (n + isa_imm op m (rex_w rx)).
Proof.
  intros Hpre Hrx Hop He Hm Ht n bytes Hmin. destruct (prefixes_insn pre rx op (m :: sib :: tail) Hpre Hrx Hop) as (p & Hp & Hz & Ha & Hw).
  fold bytes in Hp. set (k := Z.of_nat (length (pre ++ option_list rx))) in *.
  assert (k = Z.of_nat (length pre + length (option_list rx))) as Ek by (unfold k; by rewrite length_app).
  assert (forall i, bytes !! Z.to_nat (k + Z.of_nat i) = (op :: m :: sib :: tail) !! i) as Hl.
  { intros i. unfold bytes, isa_insn, k. rewrite app_assoc. rewrite lookup_app_r by lia. f_equal. lia. }
  unfold insn_length, disasm_one. rewrite Hp.
  assert (wp never (opcode addr bytes p op (k + 1)) (fun r => r = k + 1 + (if isa_modrm op then dec_ea m sib else 0) + isa_imm op m (wide p))) as H.
  { apply (opcode_length addr bytes p m sib (k + 1)); try done; try lia.
    - unfold lenZ, bytes, isa_insn. rewrite !length_app. cbn [length]. lia.
    - exact (Hl 1%nat).
    - replace (k + 1 + 1) with (k + Z.of_nat 2) by lia. apply Hl.
    - apply Hop.
    - intros ->. replace (k + 1) with n by (unfold n; change (isa_modrm 0x68) with false; lia). auto.
    - intros ->. rewrite dec_ea_isa. replace (k + 1 + isa_ea m sib) with n by (unfold n; change (isa_modrm 0x69) with true; lia). auto. }
  unfold wp, never in H. destruct (snd (opcode addr bytes p op (k + 1))) as [r| |]; [|done..]. cbn [returned]. rewrite H, Hw, dec_ea_isa, Ek. done.
Qed.

(** [sub rsp, 0x12345678] behind a segment and a REX prefix. *)
Lemma length_matches_isa_witness : insn_length 0 ([0x2E; 0x48; 0x81; 0xEC; 0x78; 0x56; 0x34; 0x12] ++ replicate 12 0x90) = Some 8.
Proof.
  refine (length_matches_isa 0 [0x2E] (Some 0x48) 0x81 0xEC 0x78 ([0x56; 0x34; 0x12] ++ replicate 12 0x90) _ _ _ _ _ _ _).
  - constructor; [|constructor]. unfold plain_prefix. apply (bool_decide_unpack _). vm_compute. exact I.
  - unfold is_rex. lia.
  - unfold is_opcode, plain_prefix, is_rex. split_and!; try lia. intros H. by repeat (apply elem_of_cons in H as [H|H]); [..|apply not_elem_of_nil in H].
  - reflexivity.
  - lia.
  - cbn. lia.
  - intros [H|H]; discriminate H.
Defined.

(** ** Lengths that are wrong *)

(** With an operand size prefix the immediate has two bytes: [add ax, 0x1234] takes
    four, [mov word [rax], 1] five, [test ax, 1] four. *)
Lemma operand_size_ignored :
  insn_length 0 [0x66; 0x05; 0x34; 0x12; 0x90; 0x90; 0x90] = Some 6 /\ insn_length 0 [0x66; 0xC7; 0x00; 0x01; 0x00; 0x90; 0x90] = Some 7 /\
  insn_length 0 [0x66; 0xA9; 0x01; 0x00; 0x90; 0x90; 0x90] = Some 6.
Proof. vm_compute. done. Qed.

(** An x87 instruction is taken for its first byte: [fld qword [rbp+8]] has three;
    [movups xmm0, [rax+8]] has four. *)
Lemma escapes_too_short : insn_length 0 [0xDD; 0x45; 0x08; 0x90] = Some 1 /\ insn_length 0 [0x0F; 0x10; 0x40; 0x08; 0x90] = Some 3.
Proof. vm_compute. done. Qed.

(** [enter] at the end of the buffer is cut off, although its three bytes are there. *)
Lemma enter_at_end : insn_length 0 [0xC8; 0x10; 0x00; 0x00] = Some 1.
Proof. vm_compute. done. Qed.

(** An opcode that is not in the table prints nothing. *)
Lemma unknown_prints_nothing : disasm_one 0 [0x6C] = ("", Cont 1).
Proof. vm_compute. done. Qed.

(** A REX prefix that another prefix follows is ignored by the processor: [mov eax, imm32]
    behind 48 2E takes seven bytes, with the bit of 48 the decoder takes an immediate of eight. *)
Lemma stale_rex_used : insn_length 0 ([0x48; 0x2E; 0xB8] ++ replicate 10 0x90) = Some 11.
Proof. vm_compute. done. Qed.
