(* ===== verification/Trap.v ===== *)
(** Trap handling (src/kernel/src/arch/idt.rs): the system calls with their access
    control, exceptions, device interrupts, the timer, inter-processor interrupts
    and the dispatcher.  The state joins the driver framework (and in it the
    scheduler, the vCPUs and memory), interrupt routing, counters and debugger
    variables.  A handler ends in an outcome: the frame that the stub resumes, a
    context switch, or a halted machine.

    Memory is an abstract state with the operations of [KernelMem] and, in
    addition, those of [TrapMem].  What only a debug build does (polling the
    console, COM2) and logging are left out. *)
From stdpp Require Import base tactics numbers list.
From Stdlib Require Import ZArith Lia.
From S2P Require Import Disasm.
From S2P Require Import Prelude Phys Percpu Slab KMem Vcpu Service Scheduler Gdf Virt Acpi Intr.

Local Open Scope Z_scope.
Local Open Scope word_scope.

(** ** Memory management, as the trap handlers call it *)

Class TrapMem (M : Type) := {
  map_flags : M -> Z -> Z -> Z -> Z -> Z -> M;       (* map_contiguous: pml4, virt, phys, pages, flags *)
  flush_page : M -> Z -> M;                          (* flush_page_all *)
  translate_addr : M -> Z -> option Z;
  page_free : M -> Z -> M;                           (* phys::free_page *)
  load_cr3 : M -> Z -> M;
  load_bytes : M -> Z -> nat -> option (list Z * M); (* a read by the kernel; None: the page fault it takes is not resolved *)
  store_byte : M -> Z -> Z -> M;
  page_fault : M -> Z -> Z -> Z -> bool * M;         (* handle_page_fault: process memory, address, error code *)
  vma_overlaps : M -> Z -> Z -> Z -> bool * M;       (* has_overlap: process memory, start, end *)
  user_vaddr : M -> Z -> Z -> option Z * M;          (* alloc_user_vaddr: process memory, size *)
  vma_add : M -> Z -> Z -> Z -> M;                   (* add_vma: process memory, start, end; ReadWrite *)
  vma_remove : M -> Z -> Z -> M;                     (* vma_tree.remove: process memory, start *)
}.

(** ** State *)

Record Counts := mkCounts { TICKS : Z; PIT_TICKS : Z; IRQ_COUNTS : list Z; IPI_PENDING : Z; eois : Z }.
Record Modes := mkModes { apic_ready : bool; HALT_MODE : bool; FREEZE_ALL_CPUS : bool; KATERM_RECOVERY : bool; DUMP_REQ_SLOT : Z; DUMP_ACK : Z }.
Record Debug := mkDebug { STEP_VCPU : Z; BP_HIT_VCPU : Z; BP_HIT_RIP : Z; BP_HIT_VECTOR : Z; BREAKPOINTS : list (Z * Z) }.

(** [ports]: the writes to I/O ports (port, width, value), latest first; [invs] the
    TLB invalidations, latest first, 0 for a full flush. *)
Record Trap (M : Type) := mkTrap {
  tg : Gdf M; tintr : Intr; cnt : Counts; modes : Modes; dbg : Debug; ports : list (Z * Z * Z); invs : list Z;
}.
Arguments mkTrap {M}.
Arguments tg {M}.
Arguments tintr {M}.
Arguments cnt {M}.
Arguments modes {M}.
Arguments dbg {M}.
Arguments ports {M}.
Arguments invs {M}.

Definition with_tg {M} (t : Trap M) (g : Gdf M) : Trap M := mkTrap g (tintr t) (cnt t) (modes t) (dbg t) (ports t) (invs t).
Definition with_intr {M} (t : Trap M) (i : Intr) : Trap M := mkTrap (tg t) i (cnt t) (modes t) (dbg t) (ports t) (invs t).
Definition with_cnt {M} (t : Trap M) (c : Counts) : Trap M := mkTrap (tg t) (tintr t) c (modes t) (dbg t) (ports t) (invs t).
Definition with_modes {M} (t : Trap M) (c : Modes) : Trap M := mkTrap (tg t) (tintr t) (cnt t) c (dbg t) (ports t) (invs t).
Definition with_dbg {M} (t : Trap M) (d : Debug) : Trap M := mkTrap (tg t) (tintr t) (cnt t) (modes t) d (ports t) (invs t).
Definition with_port {M} (t : Trap M) (p w v : Z) : Trap M := mkTrap (tg t) (tintr t) (cnt t) (modes t) (dbg t) ((p, w, v) :: ports t) (invs t).
Definition with_inv {M} (t : Trap M) (a : Z) : Trap M := mkTrap (tg t) (tintr t) (cnt t) (modes t) (dbg t) (ports t) (a :: invs t).

Definition tsys {M} (t : Trap M) : Sched M := sys (tg t).
Definition tmem {M} (t : Trap M) : M := mm (tsys t).
Definition with_tsys {M} (t : Trap M) (s : Sched M) : Trap M := with_tg t (with_sys (tg t) s).
Definition with_tmem {M} (t : Trap M) (m : M) : Trap M := with_tsys t (with_mm (tsys t) m).

Definition send_eoi {M} (t : Trap M) : Trap M :=
  let c := cnt t in with_cnt t (mkCounts (TICKS c) (PIT_TICKS c) (IRQ_COUNTS c) (IPI_PENDING c) (eois c + 1)).
Definition eoi_if_ready {M} (t : Trap M) : Trap M := if apic_ready (modes t) then send_eoi t else t.
Definition count_irq {M} (t : Trap M) (v : Z) : Trap M :=
  let c := cnt t in
  with_cnt t (mkCounts (TICKS c) (PIT_TICKS c) (<[Z.to_nat v := default 0 (IRQ_COUNTS c !! Z.to_nat v) +u64 1]> (IRQ_COUNTS c)) (IPI_PENDING c) (eois c)).
Definition tick {M} (t : Trap M) : Trap M :=
  let c := cnt t in with_cnt t (mkCounts (TICKS c +u64 1) (PIT_TICKS c) (IRQ_COUNTS c) (IPI_PENDING c) (eois c)).
Definition pit_tick {M} (t : Trap M) : Trap M :=
  let c := cnt t in with_cnt t (mkCounts (TICKS c) (PIT_TICKS c +u64 1) (IRQ_COUNTS c) (IPI_PENDING c) (eois c)).
Definition ipi_pending {M} (t : Trap M) : Trap M :=
  let c := cnt t in with_cnt t (mkCounts (TICKS c) (PIT_TICKS c) (IRQ_COUNTS c) 1 (eois c)).

Definition set_iret (f : TrapFrame) (rip_ cs_ rflags_ : Z) : TrapFrame :=
  mkFrame (r15 f) (r14 f) (r13 f) (r12 f) (r11 f) (r10 f) (r9 f) (r8 f) (rax f) (rbx f) (rcx f) (rdx f)
    (rbp f) (rsi f) (rdi f) (Vcpu.vector f) (error_code f) rip_ cs_ rflags_ (rsp f) (ss f).

(** How a handler ends. *)
Inductive ending := Resume (f : TrapFrame) | Switch (f : TrapFrame) (next_pml4 : Z) (fpu : FpuState) | Halt.

(** Outcome of copying from user memory. *)
Inductive copied (M : Type) := CopyOk (l : list Z) (m : M) | CopyErr | CopyFault.
Arguments CopyOk {M}.
Arguments CopyErr {M}.
Arguments CopyFault {M}.

Definition ADDR_MASK : Z := 0x000FFFFFFFFFF000.

Section trap.
Context {M : Type} `{!KernelMem M} `{!TrapMem M}.
(** The CPU that runs the handler, the address of the frame, what FXSAVE stores
    now and after FNINIT; what the PCI configuration space holds (address
    register, width); the length the instruction decoder finds; the address of
    [katerm_breakpoint_wait]. *)
Context (cpu : nat) (frame_addr : Z) (fpu fpu_clean : FpuState).
Context (pci_space : Z -> Z -> Z) (bp_wait : Z).

Implicit Types (t : Trap M) (f : TrapFrame).

Definition handled : Type := ending * Trap M.

Definition ret f t (v : Z) : handled := (Resume (set_rax f v), t).
Definition fail f t : handled := ret f t U64_MAX.

Definition sched_ready t : bool := ginit (gt (tsys t)).
Definition me t : Z := current_vcpu_id (tsys t) cpu.
Definition cr3_of t : Z := Z.land (pml4_address (tmem t)) ADDR_MASK.

(** The process memory of the running vCPU; 0 is null. *)
Definition my_process t : Z := match vcpu_get (slab (tsys t)) (me t) with Some v => process_mem v | None => 0 end.

(** A decision of the scheduler, carried out. *)
Definition carry_out t (d : Decision) : handled :=
  let t1 := with_tsys t (d_state d) in
  if d_switched d
  then (Switch (d_frame d) (d_pml4 d) (d_fpu d), if d_pml4 d =? 0 then t1 else with_tmem t1 (load_cr3 (tmem t1) (d_pml4 d)))
  else (Resume (d_frame d), t1).

Definition block f t : handled := carry_out t (block_current (tsys t) cpu f frame_addr fpu fpu_clean).

(** ** User memory *)

Definition copy_from_user (m : M) (src : Z) (n : nat) : copied M :=
  if (n =? 0)%nat then CopyOk [] m
  else
    match checked_add 64 src (Z.of_nat n) with
    | None => CopyErr
    | Some end_ =>
      if (src >=? HIGHER_HALF) || (end_ >? HIGHER_HALF) then CopyErr
      else match load_bytes m src n with Some (l, m') => CopyOk l m' | None => CopyFault end
    end.

(** Every page touched is present and writable, or copy-on-write. *)
Fixpoint probe_pages (fuel : nat) (m : M) (pml4_ addr end_ : Z) : bool :=
  match fuel with
  | O => false
  | S fuel =>
    if addr <? end_ then
      match KMem.read_pte m pml4_ addr with
      | Some pte =>
        if negb (Z.testbit pte 0) || (negb (Z.testbit pte 1) && (Z.land pte COW =? 0)) then false
        else probe_pages fuel m pml4_ (Z.land addr ADDR_MASK + 0x1000) end_
      | None => false
      end
    else true
  end.

(** [copy_to_user] of a message of four words; [None] is the error. *)
Definition copy_message (m : M) (cmd_ a0 a1 a2 dst : Z) : option M :=
  match checked_add 64 dst 32 with
  | None => None
  | Some end_ =>
    if (dst >=? HIGHER_HALF) || (end_ >? HIGHER_HALF) then None
    else if probe_pages (S (S (Z.to_nat (end_ / 0x1000)))) m (Z.land (pml4_address m) ADDR_MASK) dst end_
    then Some (write_message m dst cmd_ a0 a1 a2) else None
  end.

(** ** Universal system calls *)

Definition sys_yield f t : handled := if sched_ready t then block f t else (Resume f, t).
Definition sys_exit f t : handled := if sched_ready t then block f t else (Resume f, t).
Definition sys_get_vcpu_id f t : handled := ret f t (me t).
Definition sys_wake_vcpu f t (vid : Z) : handled := (Resume f, if sched_ready t then with_tsys t (wake (tsys t) vid) else t).
Definition sys_get_ticks f t : handled := ret f t (TICKS (cnt t)).

(** The address of the new mapping, from the hint or the allocator. *)
Definition mmap_address t (hint pages : Z) : option Z * Trap M :=
  let p := my_process t in
  if negb (hint =? 0) then
    if hint >=? HIGHER_HALF then (None, t)
    else if negb (Z.land hint 0xFFF =? 0) then (None, t)
    else if p =? 0 then (Some hint, t)
    else
      let '(busy, m) := vma_overlaps (tmem t) p hint (hint +u64 pages *u64 0x1000) in
      (if busy : bool then None else Some hint, with_tmem t m)
  else if p =? 0 then (None, t)
  else let '(a, m) := user_vaddr (tmem t) p (pages *u64 0x1000) in (a, with_tmem t m).

Definition sys_mmap f t (hint size : Z) : handled :=
  if negb (sched_ready t) then fail f t
  else
    let map_fixed := Z.testbit size 0 in
    let size := Z.max (Z.land size (not64 1)) 0x1000 in
    let pages := (size +u64 0xFFF) / 0x1000 in
    match pages_alloc (tmem t) pages with
    | (None, m) => fail f (with_tmem t m)
    | (Some phys, m) =>
      let t := with_tmem t m in
      let pml4_ := cr3_of t in
      match mmap_address t hint pages with
      | (None, t) => fail f (with_tmem t (pages_free (tmem t) phys pages))
      | (Some virt, t) =>
        let t := if map_fixed
                 then with_tmem t (fold_left (fun m p => KMem.unmap m (virt +u64 p *u64 0x1000)) (seqZ 0 pages) (tmem t)) else t in
        let t := with_tmem t (map_flags (tmem t) pml4_ virt phys pages (Z.lor DATA USER)) in
        let p := my_process t in
        let t := if p =? 0 then t else with_tmem t (vma_add (tmem t) p virt (virt +u64 pages *u64 0x1000)) in
        ret f t virt
      end
    end.

(** One page of [sys_munmap]: a copy-on-write page is not freed. *)
Definition munmap_page (pml4_ : Z) (m : M) (virt : Z) : M :=
  let is_cow := match KMem.read_pte m pml4_ virt with Some pte => negb (Z.land pte COW =? 0) | None => false end in
  match translate_addr m virt with
  | Some phys =>
    let m := KMem.unmap m virt in
    if is_cow then m else page_free m (Z.land phys ADDR_MASK)
  | None => KMem.unmap m virt
  end.

Definition sys_munmap f t (addr size : Z) : handled :=
  if negb (sched_ready t) then fail f t
  else if addr >=? HIGHER_HALF then fail f t
  else
    let pages := (Z.max size 0x1000 +u64 0xFFF) / 0x1000 in
    let pml4_ := Z.land (pml4_address (tmem t)) (not64 0xFFF) in
    let t := with_tmem t (fold_left (fun m p => munmap_page pml4_ m (addr +u64 p *u64 0x1000)) (seqZ 0 pages) (tmem t)) in
    let p := my_process t in
    ret f (if p =? 0 then t else with_tmem t (vma_remove (tmem t) p addr)) 0.

Definition sys_create_gang f t (entry n_vcpus name_ptr : Z) : handled :=
  if negb (sched_ready t) then fail f t
  else
    match copy_from_user (tmem t) name_ptr 32 with
    | CopyErr => fail f t
    | CopyFault => (Halt, t)
    | CopyOk nm m =>
      let t := with_tmem t m in
      let '(r, s) := create_gang (tsys t) (wrap 32 (Z.max n_vcpus 1)) entry 0 nm None in
      ret f (with_tsys t s) (default U64_MAX r)
    end.

(** ** Hardware driver system calls *)

Definition MMIO_FLAGS : Z := Z.lor (Z.lor (Z.lor (Z.lor PRESENT Virt.WRITABLE) CACHE_DISABLE) NO_EXECUTE) USER.

Definition sys_mmap_phys f t (phys size : Z) : handled :=
  match vcpu_get (slab (tsys t)) (me t) with
  | None => fail f t
  | Some v =>
    if (phys =? 0) || (size =? 0) then fail f t
    else
      let pages := saturating_add 64 (Z.max size 0x1000) 0xFFF / 0x1000 in
      match checked_add 64 phys (pages *u64 0x1000) with
      | None => fail f t
      | Some _ =>
        let t := with_tmem t (map_flags (tmem t) (pml4 v) phys phys pages MMIO_FLAGS) in
        let '(_, g) := track_service_mmio (tg t) (me t) phys phys pages in
        ret f (with_tg t g) phys
      end
  end.

Definition sys_register_intr f t (g_ : Z) : handled :=
  let '(r, i) := register_irq (pc (tsys t)) (wrap 32 g_) (me t) (tintr t) in
  ret f (with_intr t i) (default U64_MAX r).

Definition sys_intr_ack f t : handled := ret f (send_eoi t) 0.

(** A physical range in the kernel's direct map, remapped and flushed everywhere. *)
Definition remap_direct (m : M) (phys pages flags : Z) : M :=
  let m := map_flags m (kernel_pml4 m) (HIGHER_HALF +u64 phys) phys pages flags in
  fold_left (fun m p => flush_page m (HIGHER_HALF +u64 phys +u64 p *u64 0x1000)) (seqZ 0 pages) m.

Definition sys_dma_alloc f t (size : Z) : handled :=
  let vid := me t in
  let pages := saturating_add 64 (Z.max size 0x1000) 0xFFF / 0x1000 in
  match pages_alloc (tmem t) pages with
  | (None, m) => fail f (with_tmem t m)
  | (Some phys, m) =>
    let m := remap_direct m phys pages (Z.lor DATA USER) in
    let m := write_bytes m (HIGHER_HALF +u64 phys) 0 (pages *u64 0x1000) in
    match track_service_dma (tg (with_tmem t m)) vid phys pages with
    | (true, g) => ret f (with_tg t g) phys
    | (false, g) =>
      let t := with_tg t g in
      fail f (with_tmem t (pages_free (remap_direct (tmem t) phys pages DATA) phys pages))
    end
  end.

Definition sys_dma_free f t (phys : Z) : handled :=
  match untrack_service_dma (tg t) (me t) phys with
  | (None, g) => fail f (with_tg t g)
  | (Some pages, g) =>
    let t := with_tg t g in
    ret f (with_tmem t (pages_free (remap_direct (tmem t) phys pages DATA) phys pages)) 0
  end.

Definition pci_address (bdf offset : Z) : Z := Z.lor (Z.lor 0x80000000 (wrap 32 (Z.shiftl (wrap 32 bdf) 8))) (Z.land (wrap 32 offset) 0xFC).

Definition sys_pci_config f t (bdf offset width value is_write : Z) : handled :=
  if (bdf >? 0xFFFF) || (offset >? 0xFF) || negb ((width =? 1) || (width =? 2) || (width =? 4)) then fail f t
  else
    let addr := pci_address bdf offset in
    let t := with_port t 0xCF8 4 addr in
    if negb (is_write =? 0) then ret f (with_port t 0xCFC width (wrap (8 * width) value)) 0
    else ret f t (wrap (8 * width) (pci_space addr width)).

(** ** Driver communication *)

(** The message just received goes to the driver's buffer. *)
Definition deliver_message f t (msg : Z * Z * Z * Z) (buf : Z) : handled :=
  let '(c, a0, a1, a2) := msg in
  match copy_message (tmem t) c a0 a1 a2 buf with
  | Some m => ret f (with_tmem t m) 0
  | None => fail f t
  end.

Definition sys_driver_recv f t (buf : Z) : handled :=
  match gdf_recv (drivers (tg t)) (me t) with
  | (Some msg, d) => deliver_message f (with_tg t (with_drivers (tg t) d)) msg buf
  | (None, d) => fail f (with_tg t (with_drivers (tg t) d))
  end.

Definition sys_driver_send f t (result_ : Z) : handled :=
  let '(ok, g) := send_response (tg t) (me t) result_ in
  ret f (with_tg t g) (if ok then 0 else U64_MAX).

(** The part after [block_current] runs only when there was nothing to switch to. *)
Definition sys_driver_recv_block f t (buf : Z) : handled :=
  if buf >=? HIGHER_HALF then fail f t
  else
    let vid := me t in
    let receive f t (empty : Trap M -> handled) :=
      match gdf_recv (drivers (tg t)) vid with
      | (Some msg, d) => deliver_message f (with_tg t (with_drivers (tg t) d)) msg buf
      | (None, d) => empty (with_tg t (with_drivers (tg t) d))
      end in
    receive f t (fun t =>
      match block (set_rax f 0) t with
      | (Resume f, t) => receive f t (fail f)
      | other => other
      end).

(** The name argument: 1 to 31 bytes. *)
Definition with_name f t (ptr len : Z) (k : list Z -> Trap M -> handled) : handled :=
  if (len >? 31) || (len =? 0) then fail f t
  else
    match copy_from_user (tmem t) ptr (Z.to_nat len) with
    | CopyErr => fail f t
    | CopyFault => (Halt, t)
    | CopyOk nm m => k nm (with_tmem t m)
    end.

Definition sys_driver_call f t (ptr len cmd_ a0 a1 a2 : Z) : handled :=
  with_name f t ptr len (fun nm t =>
    match driver_call (tg t) cpu nm (wrap 32 cmd_) a0 a1 a2 with
    | Some g => block f (with_tg t g)
    | None => fail f t
    end).

Definition sys_gdf_register f t (ptr len : Z) : handled :=
  with_name f t ptr len (fun nm t =>
    let vid := me t in
    let '(ok, d) := register_driver (drivers (tg t)) (slab (tsys t)) nm vid (get_vcpu_type (slab (tsys t)) vid) in
    ret f (with_tg t (with_drivers (tg t) d)) (if ok then 0 else U64_MAX)).

(** ** Dispatch of system calls *)

Definition syscall_allowed (ty : VcpuType) (nr : Z) : bool :=
  match ty with
  | TIdle => false
  | _ =>
    if (0 <=? nr) && (nr <=? 7) then true
    else match ty with
      | HardwareDriver => ((10 <=? nr) && (nr <=? 15)) || ((20 <=? nr) && (nr <=? 22)) || ((30 <=? nr) && (nr <=? 31))
      | AbstractionDriver => ((20 <=? nr) && (nr <=? 22)) || ((30 <=? nr) && (nr <=? 31))
      | _ => false
      end
  end.

Definition sanitize f : TrapFrame :=
  let f := set_iret f (rip f) (cs f) (Z.land (rflags f) 0x300000D7) in
  if rsp f >=? HIGHER_HALF then set_ss (set_iret f (rip f) 0x08 (rflags f)) 0x10 else set_ss (set_iret f (rip f) 0x1B (rflags f)) 0x23.

(** The handlers by number; [None] is [unreachable!()]. *)
Definition dispatch f t (nr : Z) : option handled :=
  let arg0 := rdi f in
  let arg1 := rsi f in
  let arg2 := rdx f in
  if nr =? 0 then Some (sys_yield f t)
  else if nr =? 1 then Some (sys_exit f t)
  else if nr =? 2 then Some (sys_get_vcpu_id f t)
  else if nr =? 3 then Some (sys_wake_vcpu f t arg0)
  else if nr =? 4 then Some (sys_get_ticks f t)
  else if nr =? 5 then Some (sys_mmap f t arg0 arg1)
  else if nr =? 6 then Some (sys_munmap f t arg0 arg1)
  else if nr =? 7 then Some (sys_create_gang f t arg0 arg1 arg2)
  else if nr =? 10 then Some (sys_mmap_phys f t arg0 arg1)
  else if nr =? 11 then Some (sys_register_intr f t arg0)
  else if nr =? 12 then Some (sys_intr_ack f t)
  else if nr =? 13 then Some (sys_dma_alloc f t arg0)
  else if nr =? 14 then Some (sys_dma_free f t arg0)
  else if nr =? 15 then Some (sys_pci_config f t arg0 arg1 arg2 (r10 f) (r8 f))
  else if nr =? 20 then Some (sys_driver_recv f t arg0)
  else if nr =? 21 then Some (sys_driver_send f t arg0)
  else if nr =? 22 then Some (sys_driver_recv_block f t arg0)
  else if nr =? 30 then Some (sys_gdf_register f t arg0 arg1)
  else if nr =? 31 then Some (sys_driver_call f t arg0 arg1 arg2 (r10 f) (r8 f) (r9 f))
  else None.

Definition syscall_handler f t : option handled :=
  let f := sanitize f in
  let nr := rax f in
  if syscall_allowed (get_vcpu_type (slab (tsys t)) (me t)) nr then dispatch f t nr else Some (fail f t).

(** ** Exceptions *)

(** A value as [i32]. *)
Definition to_i32 (z : Z) : Z := let w := wrap 32 z in if w <? 2 ^ 31 then w else w - 2 ^ 32.

(** The running vCPU is halted with the frame, and the CPU goes to the wait loop. *)
Definition debug_stop f t (vec hit step : Z) : handled :=
  let s := tsys t in
  let vid := current_vcpu_id s cpu in
  let s := with_slab s (vcpu_update (slab s) vid (fun v => set_state (set_frame v f) Halted)) in
  let s := with_pc s (set_current_vcpu (pc s) cpu (idle_vcpu (pc s) cpu)) in
  (Resume (set_iret f bp_wait 0x08 0x202), with_dbg (with_tsys t s) (mkDebug step (to_i32 vid) hit vec (BREAKPOINTS (dbg t)))).

(** #DB; [None] when it is not ours. *)
Definition debug_exception f t (dr6 : Z) : option handled :=
  if Z.testbit dr6 14 && (to_i32 (current_vcpu_id (tsys t) cpu) =? STEP_VCPU (dbg t))
  then Some (debug_stop (set_iret f (rip f) (cs f) (Z.land (rflags f) (not64 0x100))) t 1 (rip f) (-1))
  else if Z.testbit dr6 0 then Some (debug_stop f t 1 (rip f) (STEP_VCPU (dbg t)))
  else None.

Definition breakpoint f t : handled :=
  let bp_addr := rip f -u64 1 in
  let t1 := match first_index (fun b => fst b =? bp_addr) (BREAKPOINTS (dbg t)) with
            | Some k => with_tmem t (store_byte (tmem t) bp_addr (default 0 (snd <$> BREAKPOINTS (dbg t) !! k)))
            | None => t
            end in
  debug_stop f t1 3 bp_addr (STEP_VCPU (dbg t)).

(** The mapped bytes at the instruction pointer, at most 15. *)
Fixpoint insn_bytes (n : nat) (m : M) (addr : Z) : list Z :=
  match n with
  | O => []
  | S n =>
    match translate_addr m addr, load_bytes m addr 1 with
    | Some _, Some (b, _) => b ++ insn_bytes n m (addr +u64 1)
    | _, _ => []
    end
  end.

(** The faulting instruction of a console command is skipped; a panic of the
    decoder stops the machine. *)
Definition skip_instruction f t : handled :=
  let c := modes t in
  let l := insn_bytes 15 (tmem t) (rip f) in
  let len := default 1 (insn_length (rip f) l) in
  (if panics (rip f) l then Halt else Resume (set_iret f (rip f +u64 len) (cs f) (rflags f)),
   with_modes t (mkModes (apic_ready c) (HALT_MODE c) (FREEZE_ALL_CPUS c) false (DUMP_REQ_SLOT c) (DUMP_ACK c))).

(** The crashed driver is handled and the CPU goes to another driver or idles. *)
Definition recover_driver f t (vid : Z) : handled :=
  let t := with_tg t (handle_crash (tg t) vid) in
  match switch_frame_to_next_driver (tg t) cpu f with
  | (Some (p, k), f', g) =>
    let t := with_tg t g in
    let t := with_tmem t (load_cr3 (tmem t) p) in
    let s := tsys t in
    let sl := (cpu mod MAX_CPUS)%nat in
    (Resume f', with_tsys t (mkSched (gt s) (slab s) (set_slot (pc s) sl (with_kernel_stack_top (slot (pc s) sl) k)) (mm s)
       (<[sl := k]> (tss_rsp0 s)) (ipis s)))
  | (None, f', g) =>
    let '(f'', g') := switch_frame_to_idle g cpu f' in (Resume f'', with_tg t g')
  end.

(** [dump_full_fault], [save_rescue_state] and [halt_loop]: the machine stops. *)
Definition halt_machine t : handled :=
  let c := modes t in (Halt, with_modes t (mkModes (apic_ready c) true (FREEZE_ALL_CPUS c) (KATERM_RECOVERY c) (DUMP_REQ_SLOT c) (DUMP_ACK c))).

Definition is_fatal f (vec : Z) : bool := (vec =? 8) || (vec =? 18) || (rip f >=? HIGHER_HALF).

Definition unresolved f t (vec : Z) : handled :=
  if ((vec =? 13) || (vec =? 14)) && KATERM_RECOVERY (modes t) then skip_instruction f t
  else
    let vid := current_vcpu_id (tsys t) cpu in
    if negb (is_fatal f vec) && is_driver (get_vcpu_type (slab (tsys t)) vid) then recover_driver f t vid
    else halt_machine t.

(** [dr6] and [cr2] are the registers. *)
Definition exception_handler f t (vec dr6 cr2_ : Z) : handled :=
  if vec =? 1 then match debug_exception f t dr6 with Some r => r | None => (Resume f, t) end
  else if vec =? 3 then breakpoint f t
  else if vec =? 14 then
    let '(ok, m) := page_fault (tmem t) (my_process t) cr2_ (error_code f) in
    let t := with_tmem t m in if ok : bool then (Resume f, t) else unresolved f t vec
  else unresolved f t vec.

(** ** Interrupts *)

Definition with_timer_fires (p : PerCpu) (v : Z) : PerCpu :=
  mkPerCpu (apic_id p) (online p) (kernel_ready p) (Percpu.kernel_stack_top p) (cpu_ticks p) (current_task_ p) (current_vcpu_ p)
    (idle_vcpu_id p) (task_count_ p) (ready_queue p) (self_ptr p) (need_resched p) v (pending_tlb_flush p) (saved_cr3 p).
Definition with_saved_cr3 (p : PerCpu) (v : Z) : PerCpu :=
  mkPerCpu (apic_id p) (online p) (kernel_ready p) (Percpu.kernel_stack_top p) (cpu_ticks p) (current_task_ p) (current_vcpu_ p)
    (idle_vcpu_id p) (task_count_ p) (ready_queue p) (self_ptr p) (need_resched p) (timer_fires p) (pending_tlb_flush p) v.

Definition map_slot t (k : PerCpu -> PerCpu) : Trap M :=
  let s := tsys t in with_tsys t (with_pc s (set_slot (pc s) cpu (k (slot (pc s) cpu)))).

(** The LAPIC timer: the end of interrupt comes after the scheduler has run. *)
Definition timer f t : handled :=
  if HALT_MODE (modes t) then (Resume f, eoi_if_ready t)
  else
    let t := map_slot (tick t) (fun p => with_timer_fires p (timer_fires p +u64 1)) in
    if sched_ready t then
      let '(r, t) := carry_out t (schedule_inner (tsys t) cpu f frame_addr fpu fpu_clean) in (r, eoi_if_ready t)
    else (Resume f, t).

Definition device_irq t (vec : Z) : Trap M :=
  let t := if bool_decide (lookup_vector_isa (tintr t) vec = Some 0) then pit_tick t else t in
  let d := lookup_vector_driver (tintr t) vec in
  if d =? 0 then t else with_tsys t (wake (tsys t) d).

Definition irq_handler f t (vec : Z) : handled :=
  if vec =? 32 then timer f t else (Resume f, device_irq (eoi_if_ready t) vec).

(** Never stored to. *)
Definition TLB_FLUSH_ADDR : Z := 0.

Definition ipi_handler f t : handled :=
  let t := ipi_pending t in
  let t := if TLB_FLUSH_ADDR =? 0 then t else with_inv t TLB_FLUSH_ADDR in
  let c := modes t in
  let t := with_modes t (mkModes (apic_ready c) (HALT_MODE c) (FREEZE_ALL_CPUS c) (KATERM_RECOVERY c) U64_MAX
             (if DUMP_REQ_SLOT c =? U64_MAX then DUMP_ACK c else 1)) in
  (Resume f, send_eoi t).

Definition nmi_counter f t : handled := if FREEZE_ALL_CPUS (modes t) then (Halt, t) else (Resume f, send_eoi t).

(** The TLB flush that other CPUs have left for this one. *)
Definition flush_pending t : Trap M :=
  let '(l, p) := take_pending (pc (tsys t)) cpu in
  let t := with_tsys t (with_pc (tsys t) p) in
  match l with
  | None => with_inv t 0
  | Some l => fold_left with_inv l t
  end.

Definition interrupt_dispatcher f t (dr6 cr2_ : Z) : handled :=
  let t := map_slot t (fun p => with_saved_cr3 p (pml4_address (tmem t))) in
  let t := flush_pending t in
  let vec := Vcpu.vector f in
  let t := if vec <? 256 then count_irq t vec else t in
  if vec =? 2 then nmi_counter f t
  else if (0 <=? vec) && (vec <=? 31) then exception_handler f t vec dr6 cr2_
  else if (32 <=? vec) && (vec <=? 63) then irq_handler f t vec
  else if vec =? 0x81 then ipi_handler f t
  else if vec =? 0xFF then (Resume f, t)
  else exception_handler f t vec dr6 cr2_.
End trap.
