(* ===== verification/Machine.v ===== *)
(** Memory management put together: the page tables of [Virt], the page allocator
    of [Phys] below them and the process memory of [Vma] implement the interfaces
    that the scheduler, the driver framework and the trap handlers are verified
    against ([KernelMem], its laws, and [TrapMem]).

    A state is live, or the kernel has panicked; the static [KERNEL_PML4] is all
    that is asked of it then.  Loads and stores go through
    the tables as the processor walks them, and take a page fault where it does. *)
From stdpp Require Import base tactics numbers list gmap.
From Stdlib Require Import ZArith Lia.
From S2P Require Import Prelude Phys KMem Percpu Virt VirtTree VirtThms Vma Gdf Trap.

Local Open Scope Z_scope.
Local Open Scope word_scope.

(** [procs]: the [ProcessMemory] behind each pointer; [boxes]: the addresses the
    heap has for boxed areas; [wp]: CR0.WP, as the firmware set it. *)
Record Machine := mkMachine {
  mv : Virt; procs : gmap Z ProcessMemory; kvma : KernelVma; boxes : list Z; mcpu : nat; wp : bool;
}.

Definition set_mv (m : Machine) (s : Virt) : Machine := mkMachine s (procs m) (kvma m) (boxes m) (mcpu m) (wp m).
Definition set_procs (m : Machine) (p : gmap Z ProcessMemory) : Machine := mkMachine (mv m) p (kvma m) (boxes m) (mcpu m) (wp m).
Definition set_boxes (m : Machine) (b : list Z) : Machine := mkMachine (mv m) (procs m) (kvma m) b (mcpu m) (wp m).

Inductive Mem := Live (x : Machine) | Panicked (kernel_root : Z).
Definition root_of (m : Mem) : Z := match m with Live x => KERNEL_PML4 (mv x) | Panicked k => k end.

(** The state after a step that may panic. *)
Definition step (m : Mem) (k : Machine -> option Machine) : Mem :=
  match m with
  | Live x => match k x with Some x' => Live x' | None => Panicked (root_of m) end
  | Panicked r => Panicked r
  end.

(** Running an operation of the page tables. *)
Definition act {A} (c : VM A) (m : Machine) : option (A * Machine) :=
  match c (mv m) with Some (x, s) => Some (x, set_mv m s) | None => None end.
Definition run_vm {A} (c : VM A) (m : Mem) : Mem := step m (fun x => snd <$> act c x).
Definition ask {A} (d : A) (c : VM A) (m : Mem) : A := match m with Live x => default d (fst <$> act c x) | Panicked _ => d end.

(** ** Loads and stores *)

(** The walk of the processor: the physical address, and whether every level
    allows writing. *)
Definition mmu (s : Virt) (v : Z) : option (Z * bool) :=
  let w := words s in
  let e4 := entry w (Z.land (cr3 s) PHYS_ADDR_MASK) (index_for_addr v 3) in
  let e3 := entry w (Z.land e4 PHYS_ADDR_MASK) (index_for_addr v 2) in
  let e2 := entry w (Z.land e3 PHYS_ADDR_MASK) (index_for_addr v 1) in
  let e1 := entry w (Z.land e2 PHYS_ADDR_MASK) (index_for_addr v 0) in
  let size e n := Z.land e PHYS_ADDR_MASK / n * n + v mod n in
  if negb (pte_present e4) then None
  else if negb (pte_present e3) then None
  else if has e3 PS then Some (size e3 0x40000000, has e4 WRITABLE && has e3 WRITABLE)
  else if negb (pte_present e2) then None
  else if has e2 PS then Some (size e2 0x200000, has e4 WRITABLE && has e3 WRITABLE && has e2 WRITABLE)
  else if negb (pte_present e1) then None
  else Some (size e1 0x1000, has e4 WRITABLE && has e3 WRITABLE && has e2 WRITABLE && has e1 WRITABLE).

(** A page fault in the kernel, and the second attempt. *)
Definition retry (m : Machine) (v code : Z) : option (Z * Machine) :=
  match act (handle_page_fault (mcpu m) (kvma m) None v code) m with
  | Some (true, m') => match mmu (mv m') v with Some (a, _) => Some (a, m') | None => None end
  | _ => None
  end.

Definition access (m : Machine) (write : bool) (v : Z) : option (Z * Machine) :=
  match mmu (mv m) v with
  | Some (a, w) => if write && wp m && negb w then retry m v 3 else Some (a, m)
  | None => retry m v (if write then 2 else 0)
  end.

Definition byte_at (w : gmap Z Z) (a : Z) : Z := Z.shiftr (default 0 (w !! (a - a mod 8))) (8 * (a mod 8)) mod 256.
Definition put_byte (w : gmap Z Z) (a b : Z) : gmap Z Z :=
  let old := default 0 (w !! (a - a mod 8)) in
  <[a - a mod 8 := old + (b - byte_at w a) * 2 ^ (8 * (a mod 8))]> w.

Definition load_byte (m : Machine) (v : Z) : option (Z * Machine) :=
  match access m false v with Some (a, m') => Some (byte_at (words (mv m')) a, m') | None => None end.
Definition put (m : Machine) (v b : Z) : option Machine :=
  match access m true v with
  | Some (a, m') => Some (set_mv m' (with_words (mv m') (put_byte (words (mv m')) a b)))
  | None => None
  end.

Fixpoint load_list (n : nat) (m : Machine) (v : Z) : option (list Z * Machine) :=
  match n with
  | O => Some ([], m)
  | S n =>
    match load_byte m v with
    | Some (b, m1) => match load_list n m1 (v +u64 1) with Some (l, m2) => Some (b :: l, m2) | None => None end
    | None => None
    end
  end.

Fixpoint put_list (m : Machine) (v : Z) (l : list Z) : option Machine :=
  match l with
  | [] => Some m
  | b :: l => match put m v b with Some m => put_list m (v +u64 1) l | None => None end
  end.

Definition u64_bytes (x : Z) : list Z := map (fun k => Z.shiftr x (8 * k) mod 256) (seqZ 0 8).

(** ** Process memory *)

Definition drop_process (m : Machine) (a : Z) : option Machine :=
  match procs m !! a with
  | Some p =>
    match act (drop_tree (vma_tree p)) m with
    | Some (freed, m') => Some (set_boxes (set_procs m' (delete a (procs m'))) (freed ++ boxes m'))
    | None => None
    end
  | None => None
  end.

Definition process_add (m : Machine) (a start end_ : Z) : option Machine :=
  match procs m !! a, boxes m with
  | Some p, b :: bs =>
    match act (add_vma p b start end_ PReadWrite) m with
    | Some (p', m') => Some (set_boxes (set_procs m' (<[a := p']> (procs m'))) bs)
    | None => None
    end
  | _, _ => None
  end.

Definition process_remove (m : Machine) (a start : Z) : option Machine :=
  match procs m !! a with
  | Some p =>
    match act (remove (vma_tree p) start) m with
    | Some ((_, root, freed), m') =>
      Some (set_boxes (set_procs m' (<[a := mkProcess root (pml4_phys p) (next_free_vaddr p)]> (procs m'))) (freed ++ boxes m'))
    | None => None
    end
  | None => None
  end.

Definition process_vaddr (m : Mem) (a size : Z) : option Z * Mem :=
  match m with
  | Live x =>
    match procs x !! a with
    | Some p =>
      match act (alloc_user_vaddr p size) x with
      | Some ((r, p'), x') => (r, Live (set_procs x' (<[a := p']> (procs x'))))
      | None => (None, Panicked (root_of m))
      end
    | None => (None, Panicked (root_of m))
    end
  | Panicked _ => (None, m)
  end.

Definition process_overlaps (m : Mem) (a start end_ : Z) : bool * Mem :=
  match m with
  | Live x =>
    match procs x !! a with
    | Some p => (ask false (has_overlap (vma_tree p) start end_) m, run_vm (has_overlap (vma_tree p) start end_) m)
    | None => (false, Panicked (root_of m))
    end
  | Panicked _ => (false, m)
  end.

Definition fault (m : Mem) (a v code : Z) : bool * Mem :=
  match m with
  | Live x =>
    match act (handle_page_fault (mcpu x) (kvma x) (procs x !! a) v code) x with
    | Some (ok, x') => (ok, Live x')
    | None => (false, Panicked (root_of m))
    end
  | Panicked _ => (false, m)
  end.

(** ** The interfaces *)

Definition here (m : Mem) : nat := match m with Live x => mcpu x | Panicked _ => 0%nat end.

#[export] Instance Machine_ops : KernelMem Mem := {|
  kernel_pml4 := root_of;
  pml4_address := ask 0 current_pml4;
  KMem.read_pte := fun m p v => ask None (read_pte p v) m;
  KMem.write_pte := fun m p v e => run_vm (write_pte p v e) m;
  KMem.tlb_shootdown_range := fun m a b => run_vm (tlb_shootdown_range (here m) a b) m;
  KMem.map_contiguous := fun m p v a n => run_vm (map_contiguous p v a n DATA) m;
  KMem.unmap := fun m v => run_vm (unmap (here m) v) m;
  KMem.free_pml4 := fun m p => run_vm (free_pml4 p) m;
  pages_alloc := fun m n =>
    (ask None (fun s => let '(r, p) := alloc_pages (vphys s) n in Some (r, with_vphys s p)) m,
     run_vm (fun s => let '(r, p) := alloc_pages (vphys s) n in Some (r, with_vphys s p)) m);
  pages_free := fun m a n => run_vm (vmod (fun s => with_vphys s (free_pages_range (vphys s) a n))) m;
  write_bytes := fun m v b n => step m (fun x => put_list x v (replicate (Z.to_nat n) b));
  write_u64 := fun m v w => step m (fun x => put_list x v (u64_bytes w));
  drop_process_mem := fun m a => step m (fun x => drop_process x a);
|}.

#[export] Instance Machine_trap : TrapMem Mem := {|
  map_flags := fun m p v a n fl => run_vm (map_contiguous p v a n fl) m;
  flush_page := fun m v => run_vm (flush_page_all (here m) v) m;
  translate_addr := fun m v => ask None (translate v) m;
  page_free := fun m a => run_vm (release a) m;
  load_cr3 := fun m c => run_vm (switch_pml4 c) m;
  load_bytes := fun m v n => match m with Live x => match load_list n x v with Some (l, x') => Some (l, Live x') | None => None end | Panicked _ => None end;
  store_byte := fun m v b => step m (fun x => put x v b);
  page_fault := fault;
  vma_overlaps := process_overlaps;
  user_vaddr := process_vaddr;
  vma_add := fun m a s e => step m (fun x => process_add x a s e);
  vma_remove := fun m a s => step m (fun x => process_remove x a s);
|}.

(** ** The laws *)

(** The walk of [read_pte] as a function of the words of memory. *)
Definition to_table (a : Z) : option Z :=
  if a >=? HIGHER_HALF then Some (a - HIGHER_HALF)
  else let phys := Z.land a PHYS_ADDR_MASK in if phys >=? DIRECT_MAP_SIZE then None else Some phys.

Definition child_of (w : gmap Z Z) (huge : bool) (t i : Z) : option (option Z) :=
  let e := entry w t i in
  if negb (pte_present e) then Some None
  else if huge && has e PS then Some None
  else Some <$> to_table (Z.land e PHYS_ADDR_MASK).

Definition slot_w (w : gmap Z Z) (p v : Z) : option (option Z) :=
  match to_table (Z.land p PHYS_ADDR_MASK) with
  | None => None
  | Some t4 =>
    match child_of w true t4 (index_for_addr v 3) with
    | Some (Some t3) =>
      match child_of w true t3 (index_for_addr v 2) with
      | Some (Some t2) =>
        match child_of w false t2 (index_for_addr v 1) with
        | Some (Some t1) => Some (Some (slot_addr t1 (index_for_addr v 0)))
        | Some None => Some None
        | None => None
        end
      | Some None => Some None
      | None => None
      end
    | Some None => Some None
    | None => None
    end
  end.

Lemma phys_to_virtual_w a s : phys_to_virtual a s = (fun t => (t, s)) <$> to_table a.
Proof. unfold phys_to_virtual, to_table. destruct (_ >=? _); [done|]. cbv zeta. by destruct (_ >=? _). Qed.

Lemma pte_slot_w p v s : pte_slot p v s = (fun r => (r, s)) <$> slot_w (words s) p v.
Proof.
  unfold pte_slot, slot_w, child_of, vbind. rewrite phys_to_virtual_w. destruct (to_table _) as [t4|]; [|done]. cbn [fmap option_fmap option_map].
  rewrite rd_entry. set (e4 := entry _ t4 _). destruct (pte_present e4); [|done]. cbn [negb andb]. destruct (has e4 PS); [done|].
  rewrite phys_to_virtual_w. destruct (to_table (Z.land e4 _)) as [t3|]; [|done]. cbn [fmap option_fmap option_map].
  rewrite rd_entry. set (e3 := entry _ t3 _). destruct (pte_present e3); [|done]. cbn [negb andb]. destruct (has e3 PS); [done|].
  rewrite phys_to_virtual_w. destruct (to_table (Z.land e3 _)) as [t2|]; [|done]. cbn [fmap option_fmap option_map].
  rewrite rd_entry. set (e2 := entry _ t2 _). destruct (pte_present e2); [|done]. cbn [negb].
  rewrite phys_to_virtual_w. by destruct (to_table (Z.land e2 _)).
Qed.

Lemma child_clear w a h t i c : child_of (<[a := 0]> w) h t i = Some (Some c) -> child_of w h t i = Some (Some c).
Proof.
  unfold child_of, entry. destruct (decide (a = slot_addr t i)) as [->|Hne]; [by rewrite lookup_insert_eq|by rewrite lookup_insert_ne].
Qed.

(** Clearing a word creates no way through the tables. *)
Lemma slot_clear w a p v b : slot_w (<[a := 0]> w) p v = Some (Some b) -> slot_w w p v = Some (Some b).
Proof.
  unfold slot_w. destruct (to_table _) as [t4|]; [|done].
  destruct (child_of (<[a := 0]> w) true t4 _) as [[t3|]|] eqn:E4; [|done..]. rewrite (child_clear _ _ _ _ _ _ E4).
  destruct (child_of (<[a := 0]> w) true t3 _) as [[t2|]|] eqn:E3; [|done..]. rewrite (child_clear _ _ _ _ _ _ E3).
  destruct (child_of (<[a := 0]> w) false t2 _) as [[t1|]|] eqn:E2; [|done..]. by rewrite (child_clear _ _ _ _ _ _ E2).
Qed.

(** The leaf slot of an address that is mapped. *)
Definition maps (w : gmap Z Z) (p v : Z) : Prop := exists a, slot_w w p v = Some (Some a) /\ pte_present (default 0 (w !! a)) = true.

Lemma mapped_w (x : Machine) p v : mapped (Live x) p v <-> maps (words (mv x)) p v.
Proof.
  assert (KMem.read_pte (Live x) p v =
    match slot_w (words (mv x)) p v with Some (Some a) => Some (default 0 (words (mv x) !! a)) | Some None | None => None end) as E.
  { change (KMem.read_pte (Live x) p v) with (ask None (read_pte p v) (Live x)). unfold ask, act, read_pte, vbind. rewrite pte_slot_w.
    by destruct (slot_w _ p v) as [[a|]|]. }
  unfold mapped, maps. rewrite E. split.
  - intros (e & He & Hp). destruct (slot_w _ p v) as [[a|]|]; [|done..]. injection He as <-. by exists a.
  - intros (a & -> & Ha). eauto.
Qed.

Lemma not_mapped (r p v : Z) : ~ mapped (Panicked r) p v.
Proof. by intros (e & [=] & _). Qed.

(** Operations that leave the words of memory alone. *)
Definition keeps_words {A} (c : VM A) : Prop := forall s x s', c s = Some (x, s') -> words s' = words s.

Lemma words_bind {A B} (c : VM A) (k : A -> VM B) : keeps_words c -> (forall x, keeps_words (k x)) -> keeps_words (vbind c k).
Proof.
  intros Hc Hk s x s'. unfold vbind. destruct (c s) as [[y s1]|] eqn:E; [|done]. intros H. rewrite (Hk y s1 x s' H). by eapply Hc.
Qed.
Lemma words_ret {A} (x : A) : keeps_words (vret x).
Proof. by intros s y s' [= <- <-]. Qed.
Lemma words_panic {A} : keeps_words (@vpanic A).
Proof. by intros s y s'. Qed.
Lemma words_get {A} (f : Virt -> A) : keeps_words (vget f).
Proof. by intros s y s' [= <- <-]. Qed.
Lemma words_mod f : (forall s, words (f s) = words s) -> keeps_words (vmod f).
Proof. intros H s y s' [= <- <-]. apply H. Qed.
Lemma words_for {A} (l : list A) f : (forall x, keeps_words (f x)) -> keeps_words (vfor l f).
Proof. intros H. induction l as [|x l IH]; simpl; [apply words_ret|]. by apply words_bind. Qed.
Lemma words_collect l f : (forall x, keeps_words (f x)) -> keeps_words (vcollect l f).
Proof. intros H. induction l as [|x l IH]; simpl; [apply words_ret|]. apply words_bind; [done|]. intros. apply words_bind; [done|]. intros. apply words_ret. Qed.

Ltac words :=
  repeat match goal with
  | |- forall _, _ => intros ?
  | |- keeps_words (vbind _ _) => apply words_bind
  | |- keeps_words (vret _) => apply words_ret
  | |- keeps_words vpanic => apply words_panic
  | |- keeps_words (vget _) => apply words_get
  | |- keeps_words (vfor _ _) => apply words_for
  | |- keeps_words (vcollect _ _) => apply words_collect
  | |- keeps_words (vmod _) => apply words_mod; reflexivity
  | |- keeps_words (match ?x with _ => _ end) => destruct x
  end.

Lemma shootdown_words cpu a b : keeps_words (tlb_shootdown_range cpu a b).
Proof. unfold tlb_shootdown_range, pend_others, set_pending_flush, invlpg, send_ipi_others. words. Qed.

Lemma free_tree_words k node : keeps_words (free_tree k node).
Proof. revert node. induction k as [|k IH]; intros node; cbn [free_tree]; unfold load, deref, rd, free_node; words; apply IH. Qed.

Lemma mapped_same {A} (c : VM A) (m : Mem) p v : keeps_words c -> mapped (run_vm c m) p v -> mapped m p v.
Proof.
  intros Hc. destruct m as [x|]; [|done]. unfold run_vm, act, step. destruct (c (mv x)) as [[y s]|] eqn:E.
  - cbn [fmap option_fmap option_map snd]. rewrite !mapped_w. cbn [mv set_mv]. by rewrite (Hc _ _ _ E).
  - intros H. by apply not_mapped in H.
Qed.

Lemma drop_mapped (m : Mem) a p v : mapped (drop_process_mem m a) p v -> mapped m p v.
Proof.
  destruct m as [x|]; [|done]. change (drop_process_mem (Live x) a) with (step (Live x) (fun x => drop_process x a)). unfold step, drop_process, act.
  destruct (procs x !! a) as [q|]; [|intros H; by apply not_mapped in H].
  destruct (drop_tree _ _) as [[l s]|] eqn:E; [|intros H; by apply not_mapped in H]. rewrite !mapped_w. cbn [mv set_mv set_procs set_boxes].
  assert (keeps_words (drop_tree (vma_tree q))) as Hk; [|by rewrite (Hk _ _ _ E)].
  unfold drop_tree. destruct (_ =? 0); [apply words_ret|apply free_tree_words].
Qed.

Lemma write_pte_run (x : Machine) p v e :
  run_vm (write_pte p v e) (Live x) =
  match slot_w (words (mv x)) p v with
  | Some (Some a) => Live (set_mv x (with_flush (with_words (mv x) (<[a := e]> (words (mv x)))) v))
  | Some None => Live (set_mv x (mv x))
  | None => Panicked (KERNEL_PML4 (mv x))
  end.
Proof. unfold run_vm, step, act, write_pte, vbind. rewrite pte_slot_w. by destruct (slot_w _ p v) as [[a|]|]. Qed.

(** A cleared entry, on its own address and on others. *)
Lemma cleared_unmapped w a p v : slot_w w p v = Some (Some a) -> ~ maps (<[a := 0]> w) p v.
Proof.
  intros Ha (b & Hb & Hp). pose proof (slot_clear _ _ _ _ _ Hb) as Hb'. rewrite Ha in Hb'. injection Hb' as <-.
  by rewrite lookup_insert_eq in Hp.
Qed.

Lemma cleared_mapped w a p v : maps (<[a := 0]> w) p v -> maps w p v.
Proof.
  intros (b & Hb & Hp). exists b. split; [by eapply slot_clear|]. destruct (decide (a = b)) as [->|Hne]; [by rewrite lookup_insert_eq in Hp|].
  by rewrite lookup_insert_ne in Hp.
Qed.

#[export] Instance Machine_laws : KernelMemLaws Mem.
Proof.
  assert (forall (m : Mem) p v e, KMem.write_pte m p v e = run_vm (write_pte p v e) m) as Hw by done.
  split.
  - intros [x|] p v; rewrite Hw; [|apply not_mapped]. rewrite write_pte_run.
    destruct (slot_w (words (mv x)) p v) as [[a|]|] eqn:E; [| |apply not_mapped]; rewrite mapped_w; cbn [mv set_mv with_flush with_words words].
    + by apply cleared_unmapped.
    + intros (b & Hb & _). congruence.
  - intros [x|] p v v'; rewrite Hw; [|intros H; by apply not_mapped in H]. rewrite write_pte_run.
    destruct (slot_w (words (mv x)) p v) as [[a|]|] eqn:E; [| |intros H; by apply not_mapped in H];
      rewrite !mapped_w; cbn [mv set_mv with_flush with_words words]; [apply cleared_mapped|done].
  - intros [x|] p v; rewrite Hw; [|done]. rewrite write_pte_run. by destruct (slot_w (words (mv x)) p v) as [[a|]|].
  - intros m s e p v. apply mapped_same, shootdown_words.
  - intros m a n p v. apply mapped_same. by apply words_mod.
  - intros m a p v. apply drop_mapped.
Qed.
