(* ===== verification/MachineThms.v ===== *)
(** Theorems on memory management put together: the software walk against the
    walk of the processor, entries that are cleared, and copy on write from the
    page fault to the retried access. *)
From stdpp Require Import base tactics numbers list gmap.
From Stdlib Require Import ZArith Lia.
From S2P Require Import Prelude Phys PhysInv PhysSpec Percpu Slab KMem Vcpu Scheduler Gdf Virt VirtTree VirtThms Vma Trap Machine.

Local Open Scope Z_scope.
Local Open Scope word_scope.

(** ** Trees of tables, up to the words that hold them *)

Lemma tree_frame w w' root T :
  tree w root T -> (forall p t i, T !! p = Some t -> 0 <= i < 512 -> entry w' t i = entry w t i) -> tree w' root T.
Proof. intros [H1 H2 H3 H4 H5 H6] He. split; try done. intros p t i Hp Hl Hi. rewrite (He p t i Hp Hi). by apply H6. Qed.

Lemma plain_frame w w' T v :
  (forall p t i, T !! p = Some t -> 0 <= i < 512 -> entry w' t i = entry w t i) -> plain w T v -> plain w' T v.
Proof. intros He Hp q i r t Heq Hq. rewrite (He q t i Hq) by by eapply path3_bound. by eapply Hp. Qed.

Lemma leaf_frame w w' T v :
  (forall p t i, T !! p = Some t -> 0 <= i < 512 -> entry w' t i = entry w t i) -> leaf w' T v = leaf w T v.
Proof. intros He. unfold leaf. destruct (T !! path3 v) as [t|] eqn:E; [|done]. cbn. by rewrite (He _ _ _ E (index_bound v 0)). Qed.

(** ** The walk of the processor *)

Lemma mask_aligned e : Z.land e PHYS_ADDR_MASK / 0x1000 * 0x1000 = Z.land e PHYS_ADDR_MASK.
Proof.
  assert (Z.land e PHYS_ADDR_MASK mod 0x1000 = 0) as H; [|div_lia]. change 0x1000 with (2 ^ 12). rewrite <- Z.land_ones by lia.
  rewrite <- Z.land_assoc. change (Z.land PHYS_ADDR_MASK (Z.ones 12)) with 0. apply Z.land_0_r.
Qed.

Lemma mmu_tree s root T v :
  tree (words s) root T -> plain (words s) T v -> cr3 s = root ->
  fst <$> mmu s v = (fun e => Z.land e PHYS_ADDR_MASK + v mod 0x1000) <$> leaf (words s) T v.
Proof.
  intros HT Hpl Hcr. pose proof (t_root _ _ _ HT) as Hr. unfold mmu, leaf. rewrite Hcr. rewrite (table_mask root) by by eapply t_table. cbv zeta.
  destruct (plain_step _ _ _ _ (@nil Z) _ _ _ HT Hpl eq_refl Hr) as [[-> ->]|(-> & _ & H1)]; [done|]. cbn [negb app] in *.
  destruct (plain_step _ _ _ _ [index_for_addr v 3] _ _ _ HT Hpl eq_refl H1) as [[-> ->]|(-> & -> & H2)]; [done|]. cbn [negb app] in *.
  destruct (plain_step _ _ _ _ [index_for_addr v 3; index_for_addr v 2] _ _ _ HT Hpl eq_refl H2) as [[-> ->]|(-> & -> & H3)]; [done|]. cbn [negb app] in *.
  unfold path3. rewrite H3. cbn [mbind option_bind]. rewrite mask_aligned. by destruct (pte_present _).
Qed.

(** C27: [translate] is the walk of the processor: in a tree of tables with no huge
    page on the way to an address, the software walk and the hardware agree on
    whether the address is mapped and on its physical address. *)
Theorem translate_is_hardware_walk s root T v :
  tree (words s) root T -> no_huge s root v = true -> PT_INITIALIZED s = true -> cr3 s = root ->
  translate v s = Some (fst <$> mmu s v, s).
Proof.
  intros HT Hn Hi Hc. pose proof (no_huge_plain s root T v HT Hn) as Hpl.
  rewrite (translate_tree s root T v HT Hpl Hi Hc), (mmu_tree s root T v HT Hpl Hc).
  destruct (leaf (words s) T v) as [e|]; [|done]. cbn. rewrite page_offset; [done|]. pose proof (mask_aligned e). div_lia.
Qed.

(** ** Copying a page *)

Definition copied_words (w : gmap Z Z) (o n : Z) (l : list Z) : gmap Z Z := fold_left (fun w i => <[slot_addr n i := entry w o i]> w) l w.

Lemma copy_loop l o n s :
  vfor l (fun i => vbind (rd (slot_addr o i)) (fun w => wr (slot_addr n i) w)) s = Some (tt, with_words s (copied_words (words s) o n l)).
Proof.
  revert s. induction l as [|i l IH]; intros s; [by destruct s|]. cbn [vfor]. unfold vbind at 1 2. cbn [rd vget wr vmod].
  rewrite IH. by destruct s.
Qed.

Lemma deref_low p s : 0 <= p < 0x100000000 -> deref p s = Some (p, s).
Proof.
  intros Hp. unfold deref. destruct (Z.geb_spec p HIGHER_HALF); [unfold HIGHER_HALF in *; lia|]. by destruct (Z.ltb_spec p 0x100000000); [|lia].
Qed.

Lemma copy_page_run o n s :
  0 <= o < 0x100000000 -> 0 <= n < 0x100000000 -> copy_page o n s = Some (tt, with_words s (copied_words (words s) o n indices)).
Proof. intros Ho Hn. unfold copy_page, vbind at 1 2. rewrite (deref_low o s Ho), (deref_low n s Hn). apply copy_loop. Qed.

Lemma entry_copied w o n t i :
  table_ok o -> table_ok n -> table_ok t -> o <> n -> 0 <= i < 512 ->
  entry (copied_words w o n indices) t i = if decide (n = t) then entry w o i else entry w t i.
Proof.
  intros Ho Hn Ht Hne Hi.
  assert (forall l w, Forall (fun j => 0 <= j < 512) l ->
    entry (copied_words w o n l) t i = if decide (n = t /\ i ∈ l) then entry w o i else entry w t i) as H.
  { clear w. induction l as [|j l IH]; intros w Hl; [by rewrite decide_False by set_solver|].
    apply Forall_cons in Hl as [Hj Hl]. cbn. fold (copied_words (<[slot_addr n j := entry w o j]> w) o n l). rewrite (IH _ Hl), !entry_insert by done.
    rewrite (decide_False (P := n = o /\ j = i)) by (intros [? _]; done).
    destruct (decide (n = t)) as [->|Hnt]; [|by rewrite !decide_False by tauto]. destruct (decide (j = i)) as [->|Hji].
    - rewrite (decide_True (P := t = t /\ i ∈ i :: l)) by set_solver. rewrite (decide_True (P := t = t /\ i = i)) by done. by destruct (decide _).
    - rewrite (decide_False (P := t = t /\ j = i)) by tauto. destruct (decide (i ∈ l)); [by rewrite !decide_True by set_solver|by rewrite !decide_False by set_solver]. }
  assert (i ∈ indices) by (unfold indices; apply elem_of_seqZ; lia).
  rewrite H; [|apply Forall_forall; intros j Hj%elem_of_seqZ; lia]. by repeat case_decide; tauto.
Qed.

(** ** Copy on write *)

Lemma page_of_eq v : 0 <= v < 2 ^ 64 -> page_of v = v / 0x1000 * 0x1000.
Proof.
  intros Hv. unfold page_of. change (not64 0xFFF) with (Z.shiftl (Z.ones 52) 12).
  assert (Z.land v (Z.shiftl (Z.ones 52) 12) = Z.shiftl (Z.land (Z.shiftr v 12) (Z.ones 52)) 12) as ->.
  { apply Z.bits_inj'. intros n Hn. rewrite Z.land_spec. destruct (Z.ltb_spec n 12).
    - rewrite !Z.shiftl_spec_low by done. apply andb_false_r.
    - rewrite !Z.shiftl_spec, Z.land_spec, Z.shiftr_spec by lia. by replace (n - 12 + 12) with n by lia. }
  rewrite Z.land_ones, Z.shiftr_div_pow2, Z.shiftl_mul_pow2 by lia. change (2 ^ 12) with 0x1000. rewrite Z.mod_small by div_lia. done.
Qed.

Lemma page_of_index v k : 0 <= v < 2 ^ 64 -> 0 <= k -> index_for_addr (page_of v) k = index_for_addr v k.
Proof.
  intros Hv Hk. unfold index_for_addr. f_equal. rewrite page_of_eq by done. rewrite !Z.shiftr_div_pow2 by lia.
  rewrite Z.pow_add_r, <- !Z.div_div by lia. change (2 ^ 12) with 0x1000. by rewrite Z.div_mul by lia.
Qed.

Lemma page_of_path v : 0 <= v < 2 ^ 64 -> path3 (page_of v) = path3 v /\ index_for_addr (page_of v) 0 = index_for_addr v 0.
Proof. intros Hv. unfold path3. by rewrite !page_of_index by (done || lia). Qed.

Definition cow_entry (e new : Z) : Z := Z.lor (Z.lor new (Z.land (Z.land e 0xFFF) (not64 COW))) WRITABLE.

Lemma cow_entry_ok e new :
  table_ok new -> pte_present e = true -> pte_present (cow_entry e new) = true /\ Z.land (cow_entry e new) PHYS_ADDR_MASK = new.
Proof.
  intros Hn Hp. unfold cow_entry. split.
  - unfold pte_present in *. apply negb_true_iff, Z.eqb_neq. apply negb_true_iff, Z.eqb_neq in Hp. intros H. apply Hp.
    rewrite !Z.land_lor_distr_l in H. apply Z.lor_eq_0_iff in H as [[_ H]%Z.lor_eq_0_iff _].
    rewrite <- !Z.land_assoc in H. change (Z.land 0xFFF (Z.land (not64 COW) PRESENT)) with 1 in H. exact H.
  - rewrite !Z.land_lor_distr_l, (table_mask new Hn), <- !Z.land_assoc.
    change (Z.land 0xFFF (Z.land (not64 COW) PHYS_ADDR_MASK)) with 0. change (Z.land WRITABLE PHYS_ADDR_MASK) with 0.
    by rewrite Z.land_0_r, !Z.lor_0_r.
Qed.

(** The copy: a fresh page with the same words, mapped writable in place of the
    shared one, and nothing else. *)
Record cow_done (s : Virt) (P : list Z) (root : Z) (T : gmap (list Z) Z) (v e new : Z) (s' : Virt) : Prop := {
  cd_new : new / PAGE_SIZE ∈ P;
  cd_page : table_ok new;
  cd_tree : tree (words s') root T;
  cd_leaf : leaf (words s') T v = Some (cow_entry e new);
  cd_other : forall v', ~ same_page v v' -> leaf (words s') T v' = leaf (words s) T v';
  cd_plain : forall v', plain (words s) T v' -> plain (words s') T v';
  cd_copy : forall i, 0 <= i < 512 -> entry (words s') new i = entry (words s) (Z.land e PHYS_ADDR_MASK) i;
  cd_cr3 : cr3 s' = cr3 s;
}.

Lemma mask_page e : Z.land e PHYS_ADDR_MASK < 0x100000000 -> table_ok (Z.land e PHYS_ADDR_MASK).
Proof.
  intros H. pose proof (mask_aligned e). split; [div_lia|]. split; [apply Z.land_nonneg; by right|unfold DIRECT_MAP_SIZE; lia].
Qed.

(** Copying to a page outside the tables. *)
Lemma copy_page_frame (s : Virt) (T : gmap (list Z) Z) o n :
  table_ok o -> table_ok n -> o < 0x100000000 -> n < 0x100000000 -> o <> n ->
  (forall p t, T !! p = Some t -> table_ok t) -> (forall p t, T !! p = Some t -> t <> n) ->
  exists w1, copy_page o n s = Some (tt, with_words s w1) /\
    (forall p t i, T !! p = Some t -> 0 <= i < 512 -> entry w1 t i = entry (words s) t i) /\
    (forall i, 0 <= i < 512 -> entry w1 n i = entry (words s) o i).
Proof.
  intros Ho Hn Hol Hnl Hne Htab Hfr. exists (copied_words (words s) o n indices). split; [apply copy_page_run; destruct Ho, Hn; lia|]. split.
  - intros p t i Hp Hi. rewrite entry_copied by eauto. by rewrite decide_False by (intros <-; by eapply Hfr).
  - intros i Hi. rewrite entry_copied by done. by rewrite decide_True.
Qed.

Lemma resolve_cow_ok cpu s P root T v e tb :
  vinv s P root T -> P <> [] -> (forall pn, pn ∈ P -> pn < 0x100000) -> plain (words s) T v -> 0 <= v < 2 ^ 64 ->
  T !! path3 v = Some tb -> entry (words s) tb (index_for_addr v 0) = e -> pte_present e = true ->
  Z.land e PHYS_ADDR_MASK < 0x100000000 -> Z.land e PHYS_ADDR_MASK / PAGE_SIZE ∉ P ->
  exists s' new, resolve_cow cpu root (page_of v) e s = Some (true, s') /\ cow_done s P root T v e new s'.
Proof.
  intros [HT Hph Htk Hsm] Hne Hlow Hpl Hv Htb He Hpe Hold Hnot. destruct (alloc_page_ok _ _ Hph Hne) as (new & p' & P' & Ha & _ & HP & Hm & Hc).
  assert (new / PAGE_SIZE ∈ P) as Hin by (rewrite HP; left). pose proof (Hlow _ Hin) as Hnl.
  assert (new < 0x100000000) as Hn4 by (unfold PAGE_SIZE in *; div_lia).
  assert (table_ok new) as Hok by (split; [done|unfold DIRECT_MAP_SIZE; lia]).
  pose proof (mask_page e Hold) as Hoo. set (old := Z.land e PHYS_ADDR_MASK) in *.
  assert (old <> new) as Hon by (intros <-; done). assert (forall p t, T !! p = Some t -> t <> new) as Hfr by (intros p t Hp <-; by eapply Htk).
  destruct (copy_page_frame (with_vphys s p') T old new Hoo Hok Hold Hn4 Hon (t_table _ _ _ HT) Hfr) as (w1 & Hcopy & Hfw & Hcw).
  change (words (with_vphys s p')) with (words s) in Hfw, Hcw.
  pose proof (tree_frame _ _ _ _ HT Hfw) as HT1. pose proof (plain_frame _ _ _ v Hfw Hpl) as Hp1. destruct (page_of_path v Hv) as [Hpp Hpi].
  set (s1 := with_words (with_vphys s p') w1). set (sl := slot_addr tb (index_for_addr v 0)). set (w2 := <[sl := cow_entry e new]> w1).
  assert (pte_slot root (page_of v) s1 = Some (Some sl, s1)) as Hslot.
  { rewrite (pte_slot_tree s1 root T (page_of v) HT1); [by rewrite Hpp, Hpi, Htb|]. intros q i r t Heq. rewrite Hpp in Heq. by apply (Hp1 q i r t Heq). }
  set (s2 := with_flush (with_words s1 w2) (page_of v)). destruct (shootdown_mem cpu (page_of v) s2) as (s3 & E3 & (Hw3 & Hph3 & Hcr3 & _)).
  assert (tree w2 root T) as HT2 by (apply (tree_update _ _ _ (path3 v)); [done|done|apply index_bound|simpl; lia]).
  destruct (cow_entry_ok e new Hok Hpe) as [Hcp _].
  assert (forall s', words s' = w2 -> cr3 s' = cr3 s -> cow_done s P root T v e new s') as Hdone.
  { intros s' Hw Hcr. split; try rewrite Hw; try done.
    - unfold leaf. rewrite Htb. cbn. unfold w2, sl. rewrite entry_insert by (apply index_bound || by eapply t_table). by rewrite decide_True, Hcp.
    - intros v' Hns. unfold w2, sl. rewrite (leaf_write w1 root T v tb) by done. by apply leaf_frame.
    - intros v' Hp'. apply (write_leaf_plain w1 root T v); [done|done|apply index_bound|by eapply plain_frame].
    - intros i Hi. fold old. unfold w2, sl. rewrite entry_insert by (done || apply index_bound || by eapply t_table).
      rewrite decide_False by (intros [Hx _]; by apply (Hfr _ _ Htb)). by apply Hcw. }
  unfold resolve_cow, vbind at 1, alloc. rewrite Ha. unfold vbind at 1. fold old. rewrite Hcopy. fold s1. cbv zeta. fold (cow_entry e new).
  unfold vbind at 1, write_pte, vbind at 1. rewrite Hslot. cbn [vbind wr vmod invlpg vret]. change (with_flush (with_words s1 (<[sl := cow_entry e new]> (words s1))) (page_of v)) with s2.
  unfold vbind at 1, flush_page_all. rewrite E3. unfold vbind at 1, vunref_page. destruct (unref_page (vphys s3) _) as [last p3].
  set (s4 := with_vphys s3 p3).
  exists (if last : bool then with_vphys s4 (free_page (vphys s4) old) else s4), new. split; [by destruct last|].
  assert (words s4 = w2 /\ cr3 s4 = cr3 s) as [Hw4 Hc4] by (split; [exact Hw3|exact Hcr3]). clearbody s4. apply Hdone; by destruct last.
Qed.

Lemma root_aligned root : table_ok root -> Z.land root (not64 0xFFF) = root.
Proof. intros [Hm Hb]. fold (page_of root). rewrite page_of_eq by (unfold DIRECT_MAP_SIZE in *; lia). div_lia. Qed.

(** A write fault on a present page with the copy-on-write bit. *)
Lemma cow_fault_run cpu k pm s P root T v code e tb :
  vinv s P root T -> cr3 s = root -> P <> [] -> (forall pn, pn ∈ P -> pn < 0x100000) -> plain (words s) T v -> 0 <= v < 2 ^ 64 ->
  T !! path3 v = Some tb -> entry (words s) tb (index_for_addr v 0) = e -> pte_present e = true -> has e COW = true ->
  Z.land e PHYS_ADDR_MASK < 0x100000000 -> Z.land e PHYS_ADDR_MASK / PAGE_SIZE ∉ P -> has code 1 = true -> has code 2 = true ->
  exists s' new, handle_page_fault cpu k pm v code s = Some (true, s') /\ cow_done s P root T v e new s'.
Proof.
  intros Hinv Hcr Hne Hlow Hpl Hv Htb He Hpe Hcow Hold Hnot H1 H2. pose proof (vi_tree _ _ _ _ Hinv) as HT.
  destruct (resolve_cow_ok cpu s P root T v e tb Hinv Hne Hlow Hpl Hv Htb He Hpe Hold Hnot) as (s' & new & Hr & Hd).
  exists s', new. split; [|exact Hd]. unfold handle_page_fault. rewrite H1, H2. cbn [andb]. unfold vbind at 1, vget at 1.
  rewrite Hcr, root_aligned by (eapply t_table; [exact HT|apply (t_root _ _ _ HT)]).
  rewrite (vbind_some _ _ _ _ _ (read_pte_tree s root T v HT Hpl)). rewrite Htb. cbn [fmap option_fmap option_map]. rewrite He, Hcow. exact Hr.
Qed.

Section cow.
Context (cpu : nat) (bp_wait : Z).

(** C26: Copy on write is transparent to the program. A write to a present page that
    is marked copy-on-write enters the kernel as a page fault; the handler resumes
    the interrupted frame unchanged, and then the address leads to a page that was
    free, holds the same words as the shared page and is mapped writable, without
    the mark; every other page is mapped as before. (Pages below 4 GB, which the
    handler copies through the identity map.) *)
Theorem cow_fault_transparent f (t : Trap Mem) dr6 v x P root T e :
  tmem t = Live x -> vinv (mv x) P root T -> cr3 (mv x) = root -> P <> [] -> (forall pn, pn ∈ P -> pn < 0x100000) ->
  0 <= v < 2 ^ 64 -> no_huge (mv x) root v = true -> page_entry (mv x) root v = Some e -> has e COW = true ->
  Z.land e PHYS_ADDR_MASK < 0x100000000 -> Z.land e PHYS_ADDR_MASK / PAGE_SIZE ∉ P ->
  has (error_code f) 1 = true -> has (error_code f) 2 = true ->
  exists t' x' new, exception_handler cpu bp_wait f t 14 dr6 v = (Resume f, t') /\ tmem t' = Live x' /\ new / PAGE_SIZE ∈ P /\
    fst <$> mmu (mv x') v = Some (new + v mod 0x1000) /\ page_entry (mv x') root v = Some (cow_entry e new) /\
    (forall i, 0 <= i < 512 -> entry (words (mv x')) new i = entry (words (mv x)) (Z.land e PHYS_ADDR_MASK) i) /\
    (forall v', ~ same_page v v' -> no_huge (mv x) root v' = true -> page_entry (mv x') root v' = page_entry (mv x) root v').
Proof.
  intros Hm Hinv Hcr Hne Hlow Hv Hn He Hcow Hold Hnot H1 H2. pose proof (vi_tree _ _ _ _ Hinv) as HT.
  pose proof (no_huge_plain _ _ _ _ HT Hn) as Hpl. rewrite (page_entry_leaf _ _ _ _ HT Hpl) in He. unfold leaf in He.
  destruct (T !! path3 v) as [tb|] eqn:Htb; [|done]. cbn [mbind option_bind] in He. destruct (pte_present _) eqn:Hpe; [|done]. injection He as He.
  rewrite He in Hpe.
  destruct (cow_fault_run (mcpu x) (kvma x) (procs x !! my_process cpu t) (mv x) P root T v (error_code f) e tb) as (s' & new & Hr & Hd); try done.
  destruct Hd as [D1 D2 D3 D4 D5 D6 D7 D8]. exists (with_tmem t (Live (set_mv x s'))), (set_mv x s'), new.
  pose proof (D6 v Hpl) as Hpl'. pose proof (cow_entry_ok e new D2 Hpe) as [Hcp Hcm]. split_and!; try done.
  - unfold exception_handler. cbn [Z.eqb Pos.eqb]. change (page_fault (tmem t)) with (fault (tmem t)). rewrite Hm. unfold fault, act. by rewrite Hr.
  - cbn [mv set_mv]. rewrite (mmu_tree s' root T v D3 Hpl') by congruence. rewrite D4. cbn. by rewrite Hcm.
  - cbn [mv set_mv]. by rewrite (page_entry_leaf s' root T v D3 Hpl').
  - intros v' Hns Hn'. pose proof (no_huge_plain _ _ _ _ HT Hn') as Hp'. cbn [mv set_mv].
    rewrite (page_entry_leaf s' root T v' D3 (D6 v' Hp')), (page_entry_leaf _ root T v' HT Hp'). by apply D5.
Qed.
End cow.

(** The page tables keep what they promise the other components. Clearing an
    entry unmaps its address and maps no other, in no tree of tables, however the
    tables are linked; invalidating TLBs, freeing pages and dropping the memory of
    a process never map an address. *)
Theorem page_tables_keep_promises (x : Machine) p v :
  (forall u, act (write_pte p v 0) x = Some u ->
     ~ maps (words (mv (snd u))) p v /\ (forall p' v', maps (words (mv (snd u))) p' v' -> maps (words (mv x)) p' v')) /\
  (forall a b u, act (tlb_shootdown_range (mcpu x) a b) x = Some u -> words (mv (snd u)) = words (mv x)) /\
  (forall a u, drop_process x a = Some u -> words (mv u) = words (mv x)).
Proof.
  split_and!.
  - unfold act, write_pte, vbind. rewrite pte_slot_w. intros u Hu. destruct (slot_w (words (mv x)) p v) as [[a|]|] eqn:E; [| |done]; injection Hu as <-.
    + cbn. split; [by apply cleared_unmapped|]. intros p' v'. apply cleared_mapped.
    + cbn. split; [|done]. intros (b & Hb & _). congruence.
  - unfold act. intros a b u Hu. destruct (tlb_shootdown_range _ _ _ _) as [[y s]|] eqn:E; [|done]. injection Hu as <-. by apply (shootdown_words _ _ _ _ _ _ E).
  - unfold drop_process, act. intros a u Hu. destruct (procs x !! a) as [q|]; [|done]. destruct (drop_tree _ _) as [[l s]|] eqn:E; [|done]. injection Hu as <-.
    unfold drop_tree in E. destruct (_ =? 0); [by injection E as _ <-|by apply (free_tree_words _ _ _ _ _ E)].
Qed.
