(* ===== verification/TrapThms.v ===== *)
(** Trap handling: access control of system calls, the frames they return to,
    the checks on user pointers, delivery of messages and interrupts to drivers,
    and what becomes of exceptions. *)
From stdpp Require Import base tactics numbers list.
From Stdlib Require Import ZArith Lia.
From S2P Require Import Prelude Phys Percpu Slab KMem Vcpu Service Scheduler SchedulerThms Gdf GdfThms GdfBlock GdfCrash Virt Acpi Intr IntrThms Entry EntryThms Trap.

Local Open Scope Z_scope.
Local Open Scope word_scope.

Set Default Proof Using "Type".

Section trap_thms.
Context {M : Type} `{!KernelMem M} `{!TrapMem M}.
Context (cpu : nat) (frame_addr : Z) (fpu fpu_clean : FpuState).
Context (pci_space : Z -> Z -> Z) (bp_wait : Z).
Implicit Types (t : Trap M) (f : TrapFrame).

Notation syscall := (syscall_handler cpu frame_addr fpu fpu_clean pci_space).
Notation handle_interrupt := (interrupt_dispatcher cpu frame_addr fpu fpu_clean bp_wait).

(** ** System calls *)

(** The access table of the documentation. *)
Definition may_call (ty : VcpuType) (nr : Z) : Prop :=
  ty <> TIdle /\
  (0 <= nr <= 7 \/ (ty = HardwareDriver /\ 10 <= nr <= 15) \/
   ((ty = HardwareDriver \/ ty = AbstractionDriver) /\ (20 <= nr <= 22 \/ 30 <= nr <= 31))).

Lemma syscall_allowed_spec ty nr : syscall_allowed ty nr = true <-> may_call ty nr.
Proof. clear pci_space fpu_clean.
  unfold may_call, syscall_allowed. destruct ty.
  all: destruct ((0 <=? nr) && (nr <=? 7)) eqn:E1; try (split; [intros _|done]; split; [done|lia]).
  - split; [done|]. intros [_ [H|[[H _]|[[H|H] _]]]]; [lia|done..].
  - split; [|intros [_ [H|[[_ H]|[_ H]]]]; lia]. intros H. assert (10 <= nr <= 15 \/ 20 <= nr <= 22 \/ 30 <= nr <= 31) by lia. naive_solver.
  - split; [intros H; assert (20 <= nr <= 22 \/ 30 <= nr <= 31) by lia; naive_solver|]. intros [_ H]. destruct H as [H|[[H _]|[_ H]]]; [lia|done|lia].
  - split; [done|]. by intros [H _].
  - split; [done|]. by intros [H _].
Qed.

Lemma dispatch_total f t ty nr : may_call ty nr -> is_Some (dispatch cpu frame_addr fpu fpu_clean pci_space f t nr).
Proof.
  intros [_ H]. unfold dispatch.
  repeat lazymatch goal with |- is_Some (if ?b then _ else _) => destruct b eqn:?; [by eexists|] end. exfalso. lia.
Qed.

(** C21: Access control of system calls. Every call ends (the unreachable arm of the
    dispatch is unreachable): one that the table allows for the kind of the calling
    vCPU is carried out, and one that it does not allow returns the error value
    with nothing else changed. Calls 0 to 7 are open to all but idle vCPUs, 10 to
    15 to hardware drivers, 20 to 22, 30 and 31 to drivers of both kinds. *)
Theorem syscall_access_control f t :
  let ty := get_vcpu_type (slab (tsys t)) (current_vcpu_id (tsys t) cpu) in
  (may_call ty (rax f) -> exists r, dispatch cpu frame_addr fpu fpu_clean pci_space (sanitize f) t (rax f) = Some r /\ syscall f t = Some r) /\
  (~ may_call ty (rax f) -> syscall f t = Some (Resume (set_rax (sanitize f) U64_MAX), t)).
Proof.
  cbv zeta. unfold syscall_handler. assert (rax (sanitize f) = rax f) as -> by (unfold sanitize; by destruct (_ >=? _)).
  unfold me. set (ty := get_vcpu_type _ _). split.
  - intros H. destruct (dispatch_total (sanitize f) t ty (rax f) H) as [r Hr]. exists r. split; [done|].
    by rewrite (proj2 (syscall_allowed_spec ty (rax f)) H).
  - intros H. destruct (syscall_allowed ty (rax f)) eqn:E; [|done]. by apply syscall_allowed_spec in E.
Qed.

(** What [sanitize] makes of a frame. *)
Record sanitized f f' : Prop := {
  sa_gpr : forall r, r <> RAX -> gpr_of f' r = gpr_of f r;
  sa_rip : rip f' = rip f;
  sa_flags : rflags f' = Z.land (rflags f) 0x300000D7;
  sa_ring : if rsp f >=? HIGHER_HALF then cs f' = 0x08 /\ ss f' = 0x10 else cs f' = 0x1B /\ ss f' = 0x23;
}.

Lemma sanitize_ok f : sanitized f (sanitize f).
Proof. unfold sanitize. cbn [rsp set_iret]. split; destruct (_ >=? _); try done; by intros []. Qed.

Lemma sanitize_rax f v : sanitized f (set_rax (sanitize f) v).
Proof. destruct (sanitize_ok f) as [H1 H2 H3 H4]. split; [|done..]. intros r Hr. rewrite <- H1 by done. by destruct r. Qed.

(** The calls that do not give up the processor. *)
Definition non_blocking (nr : Z) : Prop := nr <> 0 /\ nr <> 1 /\ nr <> 22 /\ nr <> 31.

(** The calls that read a name from the memory of the caller, where it lies and
    how long it is: create_gang, once the scheduler runs, and gdf_register with an
    acceptable length. *)
Definition name_argument f t (ptr : Z) (n : nat) : Prop :=
  (rax f = 7 /\ ginit (gt (tsys t)) = true /\ ptr = rdx f /\ n = 32%nat) \/
  (rax f = 30 /\ 1 <= rsi f <= 31 /\ ptr = rdi f /\ n = Z.to_nat (rsi f)).

(** The kernel takes a page fault that nothing resolves while it reads the name. *)
Definition name_fault f t : Prop :=
  may_call (get_vcpu_type (slab (tsys t)) (current_vcpu_id (tsys t) cpu)) (rax f) /\
  exists ptr n, name_argument f t ptr n /\ ptr + Z.of_nat n <= HIGHER_HALF /\ load_bytes (tmem t) ptr n = None.

(** A handler that resumes its frame, but for RAX, or stops the machine if [P]. *)
Definition keeps_frame f (P : Prop) (r : ending) : Prop :=
  match r with Resume f' => (f' = f \/ exists v, f' = set_rax f v) /\ ~ P | Switch _ _ _ => False | Halt => P end.

Lemma ret_keeps f P t v : ~ P -> keeps_frame f P (fst (ret f t v)).
Proof. split; [|done]. right. by exists v. Qed.

Lemma keeps_frame_iff f P Q r : (P <-> Q) -> keeps_frame f P r -> keeps_frame f Q r.
Proof. intros H. destruct r as [f0|f0 z s0|]; simpl; [|done|]; rewrite H; done. Qed.

(** Copying faults exactly when the range is below the kernel half and the read faults. *)
Lemma copy_from_user_faults (m : M) src n :
  (0 < n)%nat -> (copy_from_user m src n = CopyFault <-> src + Z.of_nat n <= HIGHER_HALF /\ load_bytes m src n = None).
Proof. clear pci_space fpu_clean.
  intros Hn. unfold copy_from_user. destruct (Nat.eqb_spec n 0); [lia|]. unfold checked_add, HIGHER_HALF.
  destruct (Z.ltb_spec (src + Z.of_nat n) (2 ^ 64)); [|split; [done|lia]]. rewrite Z.geb_leb, Z.gtb_ltb.
  match goal with |- context [(?a <=? src) || (?b <? src + _)] => destruct (Z.leb_spec a src), (Z.ltb_spec b (src + Z.of_nat n)); cbn [orb] end;
    try (split; [done|lia]).
  destruct (load_bytes m src n) as [[]|]; split; [done|by intros [_ ?]|done..].
Qed.

Lemma create_gang_keeps f t e k ptr :
  keeps_frame f (ginit (gt (tsys t)) = true /\ ptr + 32 <= HIGHER_HALF /\ load_bytes (tmem t) ptr 32 = None) (fst (sys_create_gang f t e k ptr)).
Proof. clear pci_space fpu_clean.
  unfold sys_create_gang, sched_ready. destruct (ginit _); cbn [negb]; [|apply ret_keeps; by intros [? _]].
  pose proof (copy_from_user_faults (tmem t) ptr 32 ltac:(lia)) as H.
  destruct (copy_from_user _ _ _) as [l m| |]; [destruct (create_gang _ _ _ _ _ _) as [o s0]|..]; try (apply ret_keeps; naive_solver).
  simpl. naive_solver.
Qed.

Lemma with_name_keeps f t ptr len k :
  (forall nm t', exists v u, k nm t' = ret f u v) ->
  keeps_frame f (1 <= len <= 31 /\ ptr + Z.of_nat (Z.to_nat len) <= HIGHER_HALF /\ load_bytes (tmem t) ptr (Z.to_nat len) = None)
    (fst (with_name f t ptr len k)).
Proof. clear pci_space fpu_clean.
  intros Hk. unfold with_name. rewrite Z.gtb_ltb. destruct (Z.ltb_spec 31 len), (Z.eqb_spec len 0); cbn [orb]; try (apply ret_keeps; lia).
  destruct (decide (len < 0)) as [Hneg|Hpos].
  - replace (Z.to_nat len) with 0%nat by lia. cbn. destruct (Hk [] (with_tmem t (tmem t))) as (v & u & ->). apply ret_keeps. lia.
  - pose proof (copy_from_user_faults (tmem t) ptr (Z.to_nat len) ltac:(lia)) as Hcf.
    destruct (copy_from_user _ _ _) as [l m| |]; [destruct (Hk l (with_tmem t m)) as (v & u & ->)|..]; try (apply ret_keeps; naive_solver).
    simpl. split; [lia|]. by apply Hcf.
Qed.

Lemma dispatch_keeps f t nr r :
  non_blocking nr -> dispatch cpu frame_addr fpu fpu_clean pci_space f t nr = Some r -> nr = rax f ->
  keeps_frame f (exists ptr n, name_argument f t ptr n /\ ptr + Z.of_nat n <= HIGHER_HALF /\ load_bytes (tmem t) ptr n = None) (fst r).
Proof.
  intros (H0 & H1 & H22 & H31) Hd Hnr. unfold dispatch in Hd.
  destruct (decide (nr = 7)) as [E7|N7].
  { rewrite E7 in Hd. cbn in Hd. injection Hd as <-. eapply keeps_frame_iff; [|apply create_gang_keeps]. unfold name_argument. split.
    - intros (Hi & Hb & Hl). exists (rdx f), 32%nat. naive_solver lia.
    - intros (p & n & [(_ & Hi & -> & ->)|(H30 & _)] & Hb & Hl); [done|lia]. }
  destruct (decide (nr = 30)) as [E30|N30].
  { rewrite E30 in Hd. cbn in Hd. injection Hd as <-. eapply keeps_frame_iff; [|apply with_name_keeps].
    - unfold name_argument. split.
      + intros (Hi & Hb & Hl). exists (rdi f), (Z.to_nat (rsi f)). naive_solver lia.
      + intros (p & n & [(H7 & _)|(_ & Hi & -> & ->)] & Hb & Hl); [lia|done].
    - intros nm t'. cbv beta zeta. destruct (register_driver _ _ _ _ _) as [[] d]; by eexists _, _. }
  assert (~ exists ptr n, name_argument f t ptr n /\ ptr + Z.of_nat n <= HIGHER_HALF /\ load_bytes (tmem t) ptr n = None) as Hno.
  { intros (p & n & [(H7 & _)|(H30 & _)] & _); lia. }
  repeat lazymatch type of Hd with (if ?b then _ else _) = _ => destruct b eqn:?; [try lia|] end; [injection Hd as <-..|done].
  all: try (by apply ret_keeps); unfold sys_mmap, sys_munmap, sys_mmap_phys, sys_register_intr, sys_dma_alloc, sys_dma_free,
    sys_pci_config, sys_driver_recv, deliver_message, sys_driver_send, fail, sys_wake_vcpu.
  all: repeat (case_match; try (by apply ret_keeps)); (split; [by left|done]).
Qed.


(** Every system call of user code is a yield. With the number lost on entry, the
    kernel runs the yield call for whatever number a driver or a program asks for:
    the caller is blocked, and no other service is ever performed. *)
Theorem every_syscall_yields c t :
  get_vcpu_type (slab (tsys t)) (current_vcpu_id (tsys t) cpu) <> TIdle ->
  forall nr, syscall (syscall_frame (set_reg c RAX nr) 0) t = Some (sys_yield cpu frame_addr fpu fpu_clean (sanitize (syscall_frame c 0)) t).
Proof.
  intros Hty nr. unfold syscall_handler. change (syscall_frame (set_reg c RAX nr) 0) with (syscall_frame c 0).
  assert (rax (sanitize (syscall_frame c 0)) = 0) as -> by (unfold sanitize; by destruct (_ >=? _)).
  unfold me. by destruct (get_vcpu_type _ _).
Qed.

(** ** Blocking *)

Lemma cleanup_slot_keeps ids acc w v :
  vcpu_get (slab (snd acc)) w = Some v -> state v <> Terminated -> vcpu_get (slab (snd (fold_left cleanup_slot ids acc))) w = Some v.
Proof.
  revert acc. induction ids as [|o ids IH]; intros [[l c] s] Hv Hst; simpl; [done|]. apply IH; [|done]. simpl.
  destruct o as [x|]; [|done]. destruct (vcpu_get (slab s) x) as [u|] eqn:Ex; [|done].
  case_bool_decide as Ht; [|done]. simpl in Hv.
  assert (Z.to_nat x <> Z.to_nat w) as Hne.
  { intros He. rewrite (vcpu_get_alias s x w He) in Ex. congruence. }
  destruct (vcpu_free (slab s) (mm s) x) as [sl m] eqn:Ef. simpl.
  unfold vcpu_free in Ef. destruct (_ <? _)%nat; [|by simplify_eq].
  destruct (vcpus (slab s) !! Z.to_nat x) as [[]|]; simplify_eq; [|done..].
  unfold vcpu_get in *. simpl. by rewrite list_lookup_insert_ne.
Qed.

Lemma cleanup_keeps (s : Sched M) w v :
  vcpu_get (slab s) w = Some v -> state v <> Terminated -> vcpu_get (slab (cleanup s)) w = Some v.
Proof.
  intros Hv Hst. unfold cleanup. generalize (seq 1 (gcount (gt s) - 1)) as l. intros l. revert s Hv.
  induction l as [|i l IH]; intros s Hv; simpl; [done|]. apply IH. unfold cleanup_gang.
  destruct (gang_at _ _) as [ga|]; [|done].
  pose proof (cleanup_slot_keeps (vcpu_ids ga) ([], vcpu_total ga, s) w v Hv Hst) as H.
  destruct (fold_left cleanup_slot _ _) as [[ids c] s1]. simpl in H. by destruct (forallb _ _).
Qed.

Lemma load_next_keeps (s : Sched M) idle next f fo w v u :
  vcpu_get (slab s) w = Some v -> state v = Halted -> vcpu_get (slab s) next = Some u -> state u <> Halted ->
  vcpu_get (slab (d_state (load_next s cpu idle next f fo))) w = Some v.
Proof.
  intros Hv Hst Hu Hn. unfold load_next. rewrite Hu. set (s1 := with_slab s _).
  assert (vcpu_get (slab s1) w = Some v) as Hs1.
  { simpl. rewrite vcpu_get_set_other; [done|]. intros He. rewrite (vcpu_get_alias s _ w He) in Hu. congruence. }
  clearbody s1. destruct (negb _ && negb _); [done|].
  destruct (bool_decide _); [|destruct (validate_frame _); [|done]]; unfold commit; destruct (_ && (_ || _)); by case_match.
Qed.

(** The scheduler keeps the frame of the vCPU that has just been halted. *)
Lemma schedule_saves (s : Sched M) f w v :
  vcpu_get (slab s) w = Some v -> state v = Halted -> wrap 32 (current_vcpu (pc s) cpu) = w -> w <> idle_vcpu (pc s) cpu ->
  (1 <= gcount (gt s))%nat ->
  exists v', vcpu_get (slab (d_state (schedule_inner s cpu f frame_addr fpu fpu_clean))) w = Some v' /\ state v' = Halted /\
    saved_frame v' = saved_copy f frame_addr.
Proof.
  intros Hv Hst Hw Hidle Hg. unfold schedule_inner. destruct (Nat.ltb_spec (gcount (gt s)) 1); [lia|].
  assert (pc (cleanup s) = pc s) as Epc by apply cleanup_pc. rewrite Epc, Hw, (proj2 (Z.eqb_neq _ _)) by done.
  assert (vcpu_get (slab (cleanup s)) w = Some v) as Hc by (apply cleanup_keeps; congruence).
  set (v' := set_fpu (set_magic (set_frame v (saved_copy f frame_addr)) FRAME_MAGIC) fpu).
  set (s1 := save_current (cleanup s) w f frame_addr fpu).
  assert (vcpu_get (slab s1) w = Some v') as Hs1.
  { unfold s1, save_current. rewrite Hc. rewrite bool_decide_eq_true_2 by done. cbn [slab with_slab]. by eapply vcpu_get_set. }
  clearbody s1. exists v'. split; [|done].
  destruct (best_gang (gt s1)) as [gi|]; [|done]. destruct (gang_at (gt s1) gi) as [ga|]; [|done].
  pose proof (pick_vcpu_spec (slab s1) ga) as Hp. destruct (pick_vcpu (slab s1) ga) as [next|]; [|done].
  destruct Hp as (u & (_ & Hu & Hust) & _). set (r := if _ >? _ then _ else _).
  assert (slab (fst r) = slab s1) as Hr by (unfold r; destruct (_ >? _); [apply push_extras_keep|done]).
  destruct r as [s2 g2]. simpl in Hr. apply (load_next_keeps _ _ _ _ _ _ v' u); cbn [slab with_gt]; rewrite ?Hr; try done. congruence.
Qed.

Lemma block_saves (s : Sched M) f w v :
  vcpu_get (slab s) w = Some v -> wrap 32 (current_vcpu (pc s) cpu) = w -> w <> idle_vcpu (pc s) cpu -> (1 <= gcount (gt s))%nat ->
  exists v', vcpu_get (slab (d_state (block_current s cpu f frame_addr fpu fpu_clean))) w = Some v' /\ state v' = Halted /\
    saved_frame v' = saved_copy f frame_addr.
Proof.
  intros Hv Hw Hidle Hg. unfold block_current. rewrite Hw, (proj2 (Z.eqb_neq _ _)), Hv by done.
  destruct (if (0 <? _)%nat && _ then _ else _) as [ga|]; apply (schedule_saves _ _ _ (set_state v Halted)); try done; by eapply vcpu_get_set.
Qed.

Lemma wake_mm (s : Sched M) x : mm (wake s x) = mm s.
Proof. unfold wake. repeat case_match; done. Qed.

Lemma saved_copy_rax f a : rax (saved_copy f a) = rax f.
Proof. unfold saved_copy. by destruct (_ =? _). Qed.

(** What blocking leaves behind when it switches. *)
Lemma block_switches f t f2 p2 q2 t' w v :
  block cpu frame_addr fpu fpu_clean f t = (Switch f2 p2 q2, t') ->
  vcpu_get (slab (tsys t)) w = Some v -> current_vcpu_id (tsys t) cpu = w -> w <> idle_vcpu (pc (tsys t)) cpu -> (1 <= gcount (gt (tsys t)))%nat ->
  drivers (tg t') = drivers (tg t) /\
  exists v', vcpu_get (slab (tsys t')) w = Some v' /\ state v' = Halted /\ rax (saved_frame v') = rax f.
Proof.
  intros Hb Hv Hw Hi Hg. destruct (block_saves (tsys t) f w v Hv Hw Hi Hg) as (v' & H1 & H2 & H3).
  unfold block, carry_out in Hb. destruct (d_switched _); [|done]. injection Hb as _ _ _ <-.
  assert (rax (saved_frame v') = rax f) as Hr by (rewrite H3; apply saved_copy_rax).
  destruct (d_pml4 _ =? 0); (split; [done|]); by exists v'.
Qed.

(** C25: A blocking receive that really blocks never delivers. The driver asks for a
    message, none is there, and another vCPU is switched to; a command that is
    then sent makes the driver ready, but it resumes with the success value in RAX
    and its buffer unwritten, because the code after the block never runs for
    it; the message is still waiting in the mailbox. *)
Theorem blocking_receive_loses_message f t buf nm i d v c a0 a1 a2 f2 p2 q2 t' :
  solo (drivers (tg t)) nm i d -> dvcpu d = current_vcpu_id (tsys t) cpu -> Gdf.flags (mailbox d) = MAILBOX_IDLE -> blocked_buf_ptr d = 0 ->
  vcpu_get (slab (tsys t)) (dvcpu d) = Some v -> dvcpu d <> idle_vcpu (pc (tsys t)) cpu -> (1 <= gcount (gt (tsys t)))%nat ->
  sys_driver_recv_block cpu frame_addr fpu fpu_clean f t buf = (Switch f2 p2 q2, t') ->
  let '(ok, g2) := send_cmd (tg t') nm c a0 a1 a2 in
  ok = true /\ mm (sys g2) = tmem t' /\ fst (gdf_recv (drivers g2) (dvcpu d)) = Some (c, a0, a1, a2) /\
  exists v', vcpu_get (slab (sys g2)) (dvcpu d) = Some v' /\ state v' = Ready /\ rax (saved_frame v') = 0.
Proof.
  intros Hs Hme Hf Hbuf Hv Hidle Hg Hr. unfold sys_driver_recv_block in Hr. destruct (buf >=? HIGHER_HALF); [done|].
  unfold me in Hr. rewrite <- Hme, (solo_recv _ _ _ _ Hs), Hf in Hr. change (MAILBOX_IDLE =? MAILBOX_PENDING) with false in Hr. cbv iota in Hr.
  destruct (block _ _ _ _ _ _) as [[fr|fs ps qs|] tb] eqn:Eb; [| |done].
  { destruct (gdf_recv (drivers (tg tb)) (dvcpu d)) as [[[[[x0 x1] x2] x3]|] ds]; [|done].
    unfold deliver_message in Hr. by destruct (copy_message _ _ _ _ _ _). }
  injection Hr as -> -> -> ->.
  destruct (block_switches _ _ _ _ _ _ (dvcpu d) v Eb) as (Hd & v' & Hv' & Hst & Hrax); [done|done|done|done|]. change (drivers (tg t') = drivers (tg t)) in Hd.
  assert (solo (drivers (tg t')) nm i d) as Hs' by by rewrite Hd.
  destruct (solo_send_idle (tg t') nm i d c a0 a1 a2 Hs' Hf Hbuf) as [Hok Hdr].
  assert (sys (snd (send_cmd (tg t') nm c a0 a1 a2)) = wake (tsys t') (dvcpu d)) as Hsys.
  { unfold send_cmd. rewrite (solo_name _ _ _ _ Hs'), Hf. cbn [negb Z.eqb MAILBOX_IDLE]. cbn [blocked_buf_ptr set_mailbox]. by rewrite Hbuf. }
  destruct (send_cmd (tg t') nm c a0 a1 a2) as [ok g2]. cbn [fst snd] in *. rewrite Hsys, wake_mm. split_and!; [done|done| |].
  - rewrite Hdr. set (d1 := set_mailbox d _). assert (solo (set_driver (drivers (tg t')) i (Some d1)) nm i d1) as Hs1 by by eapply solo_set.
    change (dvcpu d) with (dvcpu d1). by rewrite (solo_recv _ _ _ _ Hs1).
  - eexists. split; [apply wake_halted; [|exact Hv'|exact Hst]|by split]. rewrite Hme. apply wrap_bound. lia.
Qed.

(** ** Interrupts *)

Lemma map_slot_pc t k : pc (tsys (map_slot cpu t k)) = set_slot (pc (tsys t)) cpu (k (slot (pc (tsys t)) cpu)).
Proof. done. Qed.

(** What the dispatcher does before it looks at the vector. *)
Definition entered f t : Trap M :=
  let t := flush_pending cpu (map_slot cpu t (fun p => with_saved_cr3 p (pml4_address (tmem t)))) in
  if Vcpu.vector f <? 256 then count_irq t (Vcpu.vector f) else t.

Lemma invs_fold l t : tg (fold_left with_inv l t) = tg t /\ tintr (fold_left with_inv l t) = tintr t /\ modes (fold_left with_inv l t) = modes t.
Proof. revert t. induction l as [|a l IH]; intros t; [done|]. cbn [fold_left]. apply (IH (with_inv t a)). Qed.

Lemma entered_keeps f t :
  slab (tsys (entered f t)) = slab (tsys t) /\ gt (tsys (entered f t)) = gt (tsys t) /\ tmem (entered f t) = tmem t /\
  tintr (entered f t) = tintr t /\ modes (entered f t) = modes t /\ drivers (tg (entered f t)) = drivers (tg t).
Proof. clear pci_space frame_addr fpu.
  unfold entered, flush_pending. set (t1 := map_slot cpu t _).
  assert (slab (tsys t1) = slab (tsys t) /\ gt (tsys t1) = gt (tsys t) /\ tmem t1 = tmem t /\ tintr t1 = tintr t /\ modes t1 = modes t /\
    drivers (tg t1) = drivers (tg t)) as H by done. clearbody t1.
  assert (forall u, tg u = tg (with_tsys t1 (with_pc (tsys t1) (snd (take_pending (pc (tsys t1)) cpu)))) -> tintr u = tintr t1 -> modes u = modes t1 ->
    let r := if Vcpu.vector f <? 256 then count_irq u (Vcpu.vector f) else u in
    slab (tsys r) = slab (tsys t) /\ gt (tsys r) = gt (tsys t) /\ tmem r = tmem t /\ tintr r = tintr t /\ modes r = modes t /\
    drivers (tg r) = drivers (tg t)) as Hu.
  { intros u U1 U2 U3. assert (forall k, k = u \/ k = count_irq u (Vcpu.vector f) -> tg k = tg u /\ tintr k = tintr u /\ modes k = modes u) as Hk
      by by intros k [->| ->].
    cbv zeta. destruct (Hk (if Vcpu.vector f <? 256 then count_irq u (Vcpu.vector f) else u)) as (K1 & K2 & K3); [case_match; tauto|].
    unfold tmem, tsys in *. rewrite K1, K2, K3, U1, U2, U3. exact H. }
  destruct (take_pending _ _) as [[l|] p]; [|by apply Hu].
  destruct (invs_fold l (with_tsys t1 (with_pc (tsys t1) p))) as (E1 & E2 & E3). by apply Hu.
Qed.

(** C24: An interrupt reaches its driver, and only it. On a vector registered for a
    driver, the dispatcher resumes the interrupted code with its frame as it was.
    The driver's vCPU becomes ready if it was halted and is left alone otherwise;
    every other vCPU, halted or not, every empty slot and the gangs are what they
    were, and so are memory and the table of drivers. *)
Theorem device_interrupt_wakes_driver f t dr6 cr2 w v :
  33 <= Vcpu.vector f <= 63 -> lookup_vector_driver (tintr t) (Vcpu.vector f) = w -> 0 < w < 2 ^ 32 ->
  vcpu_get (slab (tsys t)) w = Some v ->
  exists t', handle_interrupt f t dr6 cr2 = (Resume f, t') /\
    vcpu_get (slab (tsys t')) w = Some (if bool_decide (state v = Halted) then set_vruntime (set_state v Ready) 0 else v) /\
    (forall x, Z.to_nat x <> Z.to_nat w -> vcpu_get (slab (tsys t')) x = vcpu_get (slab (tsys t)) x) /\
    gt (tsys t') = gt (tsys t) /\ tmem t' = tmem t /\ drivers (tg t') = drivers (tg t).
Proof.
  intros Hvec Hl Hw Hv. destruct (entered_keeps f t) as (E1 & E2 & E3 & E4 & E5 & E6).
  exists (device_irq (eoi_if_ready (entered f t)) (Vcpu.vector f)). split.
  - unfold interrupt_dispatcher. fold (entered f t). destruct (Z.eqb_spec (Vcpu.vector f) 2); [lia|].
    destruct (Z.leb_spec 0 (Vcpu.vector f)), (Z.leb_spec (Vcpu.vector f) 31), (Z.leb_spec 32 (Vcpu.vector f)), (Z.leb_spec (Vcpu.vector f) 63);
      try lia. cbn [andb]. unfold irq_handler. destruct (Z.eqb_spec (Vcpu.vector f) 32); [lia|]. done.
  - set (t1 := entered f t) in *.
    assert (forall b : bool, let t2 := if b then pit_tick (eoi_if_ready t1) else eoi_if_ready t1 in tg t2 = tg t1) as Hp.
    { intros b. unfold eoi_if_ready. by destruct b, (apic_ready _). }
    assert (tintr (eoi_if_ready t1) = tintr t) as Ei by (rewrite <- E4; unfold eoi_if_ready; by destruct (apic_ready _)).
    unfold device_irq. rewrite Ei. set (b := bool_decide (lookup_vector_isa _ _ = _)). specialize (Hp b). cbv zeta in Hp.
    set (t2 := if b then _ else _) in *.
    assert (tintr t2 = tintr t) as Ei2 by (rewrite <- Ei; unfold t2; by destruct b).
    rewrite Ei2, Hl, (proj2 (Z.eqb_neq w 0)) by lia.
    assert (tsys t2 = tsys t1) as Es by (unfold tsys; by rewrite Hp). cbn [with_tsys with_tg tg]. unfold with_tsys, tmem.
    change (tsys (with_tg t2 (with_sys (tg t2) (wake (tsys t2) w)))) with (wake (tsys t2) w). rewrite Es, wake_mm.
    destruct (wake_tables (tsys t1) w) as [-> ->]; [lia|]. rewrite E1, E2. unfold vcpu_update. rewrite Hv. split_and!.
    + by eapply vcpu_get_set.
    + intros x Hx. by apply vcpu_get_set_other.
    + done.
    + exact E3.
    + change (drivers (tg t2) = drivers (tg t)). by rewrite Hp.
Qed.

(** ** Exceptions *)

(** The state in which an exception is found to be unresolved: a page fault has
    been tried first. *)
Definition after_fault f t (vec cr2 : Z) : Trap M :=
  if vec =? 14 then with_tmem t (snd (page_fault (tmem t) (my_process cpu t) cr2 (error_code f))) else t.

Lemma exception_unresolved f t vec dr6 cr2 :
  vec <> 1 -> vec <> 3 -> (vec = 14 -> fst (page_fault (tmem t) (my_process cpu t) cr2 (error_code f)) = false) ->
  exception_handler cpu bp_wait f t vec dr6 cr2 = unresolved cpu f (after_fault f t vec cr2) vec.
Proof.
  intros H1 H3 H14. unfold exception_handler, after_fault. destruct (Z.eqb_spec vec 1); [done|]. destruct (Z.eqb_spec vec 3); [done|].
  destruct (Z.eqb_spec vec 14); [|done]. specialize (H14 e). destruct (page_fault _ _ _ _) as [ok m]. cbn [fst snd] in *. by rewrite H14.
Qed.

(** The CPU goes on with a driver that was ready, in its address space and with a
    frame that [iretq] accepts, or with its idle vCPU. *)
Definition resumes f t t' f' : Prop :=
  let c := current_vcpu (pc (tsys t')) cpu in
  (exists v, vcpu_get (slab (tsys t)) c = Some v /\ is_driver (vcpu_type v) = true /\ state v = Ready /\ f' = saved_frame v /\ frame_safe f' /\
     vcpu_get (slab (tsys t')) c = Some (set_magic (set_state v Running) 0) /\ exists m, tmem t' = load_cr3 m (pml4 v)) \/
  (c = idle_vcpu (pc (tsys t)) cpu /\ f' = from_option saved_frame f (vcpu_get (slab (tsys t)) c)).

(** What the recovery of a driver keeps of the state that crash handling leaves. *)
Lemma recover_from f t vid :
  cpus_ok (tsys t) ->
  let g1 := handle_crash (tg t) vid in
  cpus_ok (sys g1) ->
  exists f' t', recover_driver cpu f t vid = (Resume f', t') /\ modes t' = modes t /\
  services (tg t') = services g1 /\ drivers (tg t') = drivers g1 /\ counters (tg t') = counters g1 /\ deferred (tg t') = deferred g1 /\
  gt (tsys t') = gt (sys g1) /\
  let c := current_vcpu (pc (tsys t')) cpu in
  ((exists v, vcpu_get (slab (sys g1)) c = Some v /\ is_driver (vcpu_type v) = true /\ state v = Ready /\ f' = saved_frame v /\ frame_safe f' /\
     slab (tsys t') = vcpu_set (slab (sys g1)) c (set_magic (set_state v Running) 0) /\ exists m, tmem t' = load_cr3 m (pml4 v)) \/
   (c = idle_vcpu (pc (sys g1)) cpu /\ f' = from_option saved_frame f (vcpu_get (slab (sys g1)) c) /\ slab (tsys t') = slab (sys g1))).
Proof.
  intros Hc g1 Hc1. unfold recover_driver. fold g1. change (tg (with_tg t g1)) with g1. unfold switch_frame_to_next_driver.
  pose proof (scan_drivers_spec 64 (sys g1) cpu [] Hc1) as H. pose proof (length_scan_drivers 64 (sys g1) cpu []) as Hl.
  destruct (scan_drivers_tables 64 (sys g1) cpu [] cpu) as [Hg Hi].
  destruct (scan_drivers 64 (sys g1) cpu []) as [[[[[w f'] p] k]|] s']; cbn [snd] in *.
  - destruct H as (v & H1 & H2 & H3 & H4 & -> & -> & -> & H5 & H6). eexists _, _. split; [reflexivity|]. split_and!; try done. cbv zeta. left.
    set (c := current_vcpu _ cpu). assert (c = w) as Ec.
    { rewrite <- H6. unfold c, current_vcpu, slot_of. by apply (slot_set_map current_vcpu_). }
    rewrite Ec. exists v. split_and!; try done; [by apply driver_frame_ok_safe|by eexists].
  - unfold switch_frame_to_idle. cbn [sys with_sys]. rewrite Hi, H. eexists _, _. split; [reflexivity|]. split_and!; try done. cbv zeta. right.
    set (c := current_vcpu _ cpu). assert (c = idle_vcpu (pc (sys g1)) cpu) as Ec.
    { unfold c, current_vcpu, set_current_vcpu. cbn. rewrite slot_set_eq; [done|]. apply slot_of_lt. unfold cpus_ok in Hc1. congruence. }
    rewrite Ec. split_and!; [done| |done]. by destruct (vcpu_get _ _).
Qed.

(** The driver's exception is contained. *)
Lemma recover_contains f t vid :
  cpus_ok (tsys t) -> vcpu_wf (slab (tsys t)) -> 0 <= vid -> is_driver (get_vcpu_type (slab (tsys t)) vid) = true ->
  (forall i ga x, gang_at (gt (tsys t)) i = Some ga -> Some x ∈ vcpu_ids ga -> 0 <= x) ->
  exists f' t', recover_driver cpu f t vid = (Resume f', t') /\ modes t' = modes t /\ resumes f t t' f' /\
    forall sid svc, find_by_vcpu (services (tg t)) vid = Some sid -> service_get (services (tg t)) sid = Some svc ->
      crash_treated (tg t) (tg t') vid sid svc (current_vcpu (pc (tsys t')) cpu).
Proof.
  intros Hc Hwf Hvid Hty Hids. set (g1 := handle_crash (tg t) vid).
  assert ((slab (sys g1) = slab (tsys t) \/ exists p, slab (sys g1) = vcpu_update (slab (tsys t)) vid (fun v => set_pml4 (set_state v Terminated) p)) /\
    pc (sys g1) = pc (tsys t)) as [Hsl Hpc].
  { unfold g1. destruct (find_by_vcpu (services (tg t)) vid) as [sid|] eqn:Ef; [|unfold handle_crash; rewrite Ef; auto].
    destruct (handle_crash_tables (tg t) vid sid Ef) as (? & ? & _). auto. }
  assert (forall x v, vcpu_get (slab (sys g1)) x = Some v -> state v = Ready -> vcpu_get (slab (tsys t)) x = Some v) as Hready.
  { intros x v Hx Hv. destruct Hsl as [E|[p E]]; rewrite E in Hx; [done|]. unfold vcpu_update in Hx. destruct (vcpu_get _ vid) as [u|]; [|done].
    apply vcpu_get_set_any in Hx as [?|[_ ->]]; done. }
  assert (forall x, from_option saved_frame f (vcpu_get (slab (sys g1)) x) = from_option saved_frame f (vcpu_get (slab (tsys t)) x)) as Hframe.
  { intros x. destruct Hsl as [->|[p ->]]; [done|]. unfold vcpu_update. destruct (vcpu_get (slab (tsys t)) vid) as [u|] eqn:Eu; [|done].
    destruct (decide (Z.to_nat vid = Z.to_nat x)) as [He|Hne]; [|by rewrite vcpu_get_set_other].
    rewrite (vcpu_get_alias (tsys t) vid x He) in Eu. by rewrite (vcpu_get_set_same _ _ _ _ _ He Eu), Eu. }
  destruct (recover_from f t vid Hc) as (f' & t' & Hr & Hm & S1 & S2 & S3 & S4 & S5 & S6); [unfold cpus_ok in *; by fold g1; rewrite Hpc|].
  fold g1 in S1, S2, S3, S4, S5, S6. exists f', t'. split; [done|]. split; [done|]. split.
  - destruct S6 as [(v & H1 & H2 & H3 & H4 & H5 & H6 & H7)|(H1 & H2 & H3)]; [left|right].
    + exists v. split_and!; try done; [by apply Hready|]. rewrite H6. by eapply vcpu_get_set.
    + rewrite <- Hpc, <- Hframe. done.
  - intros sid svc Hf Hs. unfold get_vcpu_type, vcpu_with in Hty. destruct (vcpu_get (slab (tsys t)) vid) as [v|] eqn:Ev; [|done].
    destruct (crash_treated_ok (tg t) vid sid svc v Hwf Hvid Hf Hs Ev Hids) as [(v' & T1 & T2) C2 C3 C4 C5 C6]. fold g1 in T1, C2, C3, C4, C5, C6.
    assert (forall x, Z.to_nat x <> Z.to_nat (current_vcpu (pc (tsys t')) cpu) \/ (exists v', vcpu_get (slab (sys g1)) x = Some v' /\ state v' = Terminated) ->
      vcpu_get (slab (tsys t')) x = vcpu_get (slab (sys g1)) x) as Hkeep.
    { intros x Hx. destruct S6 as [(u & H1 & H2 & H3 & H4 & H5 & H6 & H7)|(H1 & H2 & H3)]; [|by rewrite H3]. rewrite H6. apply vcpu_get_set_other.
      intros He. destruct Hx as [Hx|(u' & Hu' & Ht')]; [done|]. rewrite <- (vcpu_get_alias (sys g1) _ _ He) in Hu'. congruence. }
    split; rewrite ?S1, ?S2, ?S3, ?S4; try done.
    + exists v'. rewrite <- T1. split; [|done]. apply Hkeep. right. by exists v'.
    + intros i ga x. unfold gang_at. change (sys (tg t')) with (tsys t'). rewrite S5. apply C2.
    + intros x H1 H2. change (sys (tg t')) with (tsys t'). rewrite Hkeep by by left. apply C6; [done|exact H1].
Qed.


(** ** Pointers from user code *)

Definition user_writable (m : M) (a : Z) : Prop :=
  exists p pte, p / 0x1000 = a / 0x1000 /\ KMem.read_pte m (Z.land (pml4_address m) ADDR_MASK) p = Some pte /\
    Z.testbit pte 0 = true /\ (Z.testbit pte 1 = true \/ Z.land pte COW <> 0).

Lemma page_after a : 0 <= a < 2 ^ 52 -> Z.land a ADDR_MASK + 0x1000 = (a / 0x1000 + 1) * 0x1000.
Proof. clear pci_space fpu_clean.
  intros Ha. change ADDR_MASK with (Z.shiftl (Z.ones 40) 12).
  assert (Z.land a (Z.shiftl (Z.ones 40) 12) = Z.shiftl (Z.land (Z.shiftr a 12) (Z.ones 40)) 12) as ->.
  { apply Z.bits_inj'. intros n Hn. rewrite Z.land_spec. destruct (Z.ltb_spec n 12).
    - rewrite !Z.shiftl_spec_low by done. apply andb_false_r.
    - rewrite !Z.shiftl_spec, Z.land_spec, Z.shiftr_spec by lia. by replace (n - 12 + 12) with n by lia. }
  rewrite Z.land_ones, Z.shiftr_div_pow2, Z.shiftl_mul_pow2 by lia. change (2 ^ 12) with 0x1000. rewrite Z.mod_small by div_lia. lia.
Qed.

Lemma probe_sound fuel m a e :
  0 <= a -> e <= 2 ^ 52 -> probe_pages fuel m (Z.land (pml4_address m) ADDR_MASK) a e = true -> forall x, a <= x < e -> user_writable m x.
Proof. clear pci_space fpu_clean.
  revert a. induction fuel as [|fuel IH]; intros a Ha He Hp x Hx; [done|]. cbn [probe_pages] in Hp.
  destruct (Z.ltb_spec a e); [|lia]. destruct (KMem.read_pte _ _ _) as [pte|] eqn:Er; [|done].
  destruct (negb (Z.testbit pte 0) || _) eqn:Eb; [done|]. apply orb_false_iff in Eb as [Eb0%negb_false_iff Eb1].
  rewrite page_after in Hp by lia. destruct (decide (x / 0x1000 = a / 0x1000)) as [Hs|Hs].
  - exists a, pte. split_and!; try done. destruct (Z.testbit pte 1); [by left|right]. apply andb_false_iff in Eb1 as [|Eb1]; [done|]. by apply Z.eqb_neq in Eb1.
  - apply (IH ((a / 0x1000 + 1) * 0x1000)); try done; div_lia.
Qed.

(** The pointer [x] is refused. *)
Definition refused (m : M) (x : Z) : Prop :=
  match KMem.read_pte m (Z.land (pml4_address m) ADDR_MASK) x with
  | Some pte => Z.testbit pte 0 = false \/ (Z.testbit pte 1 = false /\ Z.land pte COW = 0)
  | None => True
  end.

(** A probe fails only because of a page, when the steps suffice. *)
Lemma probe_complete fuel m lo a e :
  0 <= lo -> e <= 2 ^ 52 -> lo <= a < e -> (Z.to_nat ((e - 1) / 0x1000 - a / 0x1000) + 1 < fuel)%nat ->
  probe_pages fuel m (Z.land (pml4_address m) ADDR_MASK) a e = false -> exists x, lo <= x < e /\ refused m x.
Proof. clear pci_space fpu_clean.
  intros Hlo He. revert a. induction fuel as [|fuel IH]; intros a Ha Hf Hp; [lia|]. cbn [probe_pages] in Hp.
  destruct (Z.ltb_spec a e); [|lia]. unfold refused.
  destruct (KMem.read_pte _ _ _) as [pte|] eqn:Er; [|exists a; by rewrite Er].
  destruct (negb (Z.testbit pte 0) || _) eqn:Eb.
  { exists a. split; [lia|]. rewrite Er. apply orb_true_iff in Eb as [Eb%negb_true_iff|Eb]; [by left|right].
    apply andb_true_iff in Eb as [?%negb_true_iff ?%Z.eqb_eq]. done. }
  rewrite page_after in Hp by lia. destruct (Z.ltb_spec ((a / 0x1000 + 1) * 0x1000) e) as [Hn|Hn].
  - apply (IH ((a / 0x1000 + 1) * 0x1000)); try done; [div_lia|]. rewrite Z.div_mul by lia. zify. div_lia.
  - destruct fuel as [|fuel]; [lia|]. cbn [probe_pages] in Hp. destruct (Z.ltb_spec ((a / 0x1000 + 1) * 0x1000) e); [lia|done].
Qed.

(** A message is copied to a driver only into memory the driver may write: if
    the copy is done, all 32 bytes lie below the kernel half, in pages that the
    current page tables map present and writable, or copy-on-write; otherwise
    nothing is written. The number of steps of the probe suffices for every
    address. *)
Theorem copy_message_checked m c a0 a1 a2 dst :
  0 <= dst < 2 ^ 52 - 32 ->
  match copy_message m c a0 a1 a2 dst with
  | Some m' => m' = write_message m dst c a0 a1 a2 /\ (forall x, dst <= x < dst + 32 -> x < HIGHER_HALF /\ user_writable m x)
  | None => exists x, dst <= x < dst + 32 /\ refused m x
  end.
Proof. clear pci_space fpu_clean.
  intros Hd. unfold copy_message. unfold checked_add. destruct (Z.ltb_spec (dst + 32) (2 ^ 64)); [|lia].
  destruct (Z.geb_spec dst HIGHER_HALF) as [|_]; [unfold HIGHER_HALF in *; lia|].
  rewrite (Z.gtb_ltb (dst + 32) HIGHER_HALF). destruct (Z.ltb_spec HIGHER_HALF (dst + 32)) as [|_]; [unfold HIGHER_HALF in *; lia|]. cbn [orb].
  destruct (probe_pages _ _ _ _ _) eqn:Ep.
  - split; [done|]. intros x Hx. split; [unfold HIGHER_HALF; lia|]. by eapply probe_sound; [| |exact Ep|]; lia.
  - eapply probe_complete; [| | | |exact Ep]; try lia. zify. div_lia.
Qed.

(** ** Device memory *)

Lemma first_index_same {A} (p : A -> bool) l k : (p <$> l) = (p <$> k) -> first_index p l = first_index p k.
Proof.
  revert k. induction l as [|x l IH]; intros [|y k]; cbn [fmap list_fmap first_index]; try done. intros [= Hxy Hlk].
  rewrite Hxy. destruct (p y); [done|]. by rewrite (IH k Hlk).
Qed.

(** Changing a service's resources does not change whose service it is. *)
Lemma find_by_vcpu_update tbl i (k : Service -> Service) vid s :
  service_get tbl i = Some s -> vcpu_id (k s) = vcpu_id s -> find_by_vcpu (service_update tbl i k) vid = find_by_vcpu tbl vid.
Proof.
  intros E Hk. unfold find_by_vcpu, service_update. rewrite E. f_equal. apply first_index_same.
  cbn [entries]. rewrite list_fmap_insert. apply list_insert_id. rewrite list_lookup_fmap. unfold service_get in E.
  destruct (_ <? _)%nat; [|done]. destruct (entries tbl !! Z.to_nat i) as [o|]; simpl in E; [subst o|done]. cbn. by rewrite Hk.
Qed.

(** The pages a tracked buffer was entered with. *)
Lemma tracked_pages s phys pages s' :
  resources_wf (resources s) -> Forall (fun e => fst e <> phys) (tracked_dma s) -> track_dma s phys pages = (true, s') ->
  let r := resources s' in
  exists k, first_index (fun e => fst e =? phys) (take (dma_count r) (dma r)) = Some k /\ dma r !! k = Some (phys, pages) /\
  vcpu_id s' = vcpu_id s /\ tracked_dma (snd (untrack_dma s' phys)) ≡ₚ tracked_dma s.
Proof.
  intros Hwf Hfresh Ht. pose proof Hwf as [_ _ [Hl Hc]]. unfold track_dma in Ht.
  destruct (Nat.leb_spec MAX_DMA (dma_count (resources s))); [done|]. injection Ht as <-. cbv zeta. cbn [resources set_resources dma_count dma vcpu_id].
  set (n := dma_count (resources s)) in *. exists n.
  assert (take (S n) (<[n := (phys, pages)]> (dma (resources s))) = tracked_dma s ++ [(phys, pages)]) as Et by (apply take_insert_snoc; lia).
  assert (length (tracked_dma s) = n) as Eln by (unfold tracked_dma; rewrite length_take; lia).
  rewrite Et. split.
  { apply (first_index_intro _ _ _ (phys, pages)); [rewrite <- Eln; by apply list_lookup_middle|apply Z.eqb_refl|].
    intros j y Hlt Hj. rewrite lookup_app_l in Hj by lia. rewrite Forall_lookup in Hfresh. by apply Z.eqb_neq, (Hfresh _ _ Hj). }
  split; [apply list_lookup_insert_eq; lia|]. split; [done|].
  set (s' := set_resources s _).
  assert (resources_wf (resources s')) as Hwf' by (destruct Hwf; split; cbn; [done|done|rewrite length_insert; lia]).
  pose proof (untrack_dma_spec s' phys Hwf') as H0. assert (tracked_dma s' = tracked_dma s ++ [(phys, pages)]) as Et' by exact Et.
  destruct (untrack_dma s' phys) as [[] s2]; rewrite Et' in H0; cbn [snd].
  - destruct H0 as (q & HP & _). assert ((phys, q) ∈ tracked_dma s ++ [(phys, pages)]) as Hin by (rewrite HP; left).
    apply elem_of_app in Hin as [Hin|Hin%list_elem_of_singleton]; [rewrite Forall_forall in Hfresh; by apply Hfresh in Hin|].
    injection Hin as ->. rewrite Permutation_app_comm in HP. by apply Permutation_cons_inv in HP.
  - destruct H0 as [_ H0]. apply Forall_app in H0 as [_ H0]. apply Forall_cons in H0 as [H0 _]. by destruct H0.
Qed.

(** DMA buffers go back where they came from, and only those. A service that is
    given a buffer and frees it gets success; exactly the pages that were
    allocated are released, after the mapping is made private to the kernel again,
    and the service's list of buffers is what it was. Freeing an address that the
    service does not hold fails and changes nothing. *)
Theorem dma_buffer_roundtrip f t size phys t1 sv svc :
  find_by_vcpu (services (tg t)) (current_vcpu_id (tsys t) cpu) = Some sv -> service_get (services (tg t)) sv = Some svc ->
  resources_wf (resources svc) -> Forall (fun e => fst e <> phys) (tracked_dma svc) -> phys <> U64_MAX ->
  sys_dma_alloc cpu f t size = (Resume (set_rax f phys), t1) ->
  let pages := saturating_add 64 (Z.max size 0x1000) 0xFFF / 0x1000 in
  fst (pages_alloc (tmem t) pages) = Some phys /\
  (exists t2 svc2, sys_dma_free cpu f t1 phys = (Resume (set_rax f 0), t2) /\
    tmem t2 = pages_free (remap_direct (tmem t1) phys pages DATA) phys pages /\
    service_get (services (tg t2)) sv = Some svc2 /\ tracked_dma svc2 ≡ₚ tracked_dma svc) /\
  sys_dma_free cpu f t phys = (Resume (set_rax f U64_MAX), t).
Proof.
  intros Hid Hsvc Hwf Hfresh Hmax Ha. cbv zeta. unfold sys_dma_alloc, me in Ha. set (pages := saturating_add _ _ _ / 0x1000) in *.
  destruct (pages_alloc (tmem t) pages) as [[p|] m]; [|injection Ha as Hx _; congruence].
  set (m1 := write_bytes _ _ _ _) in *. unfold track_service_dma, track_with in Ha.
  change (services (tg (with_tmem t m1))) with (services (tg t)) in Ha. rewrite Hid, Hsvc in Ha.
  destruct (track_dma svc p pages) as [[] svc1] eqn:Et; [|injection Ha as Hx _; congruence].
  injection Ha as Hx <-. subst p. split; [done|].
  destruct (tracked_pages svc phys pages svc1 Hwf Hfresh Et) as (k & Hk & Hd & Hvc & Hperm). split.
  - set (g1 := with_services _ _). set (t1 := with_tg t g1).
    assert (find_by_vcpu (services g1) (current_vcpu_id (tsys t1) cpu) = Some sv) as Hid1.
    { rewrite <- Hid. by apply (find_by_vcpu_update _ _ _ _ svc). }
    assert (service_get (services g1) sv = Some svc1) as Hs1.
    { change (services g1) with (service_update (services (tg t)) sv (fun _ => svc1)). by rewrite service_get_update, Hsvc. }
    unfold sys_dma_free, me, untrack_service_dma. change (tg t1) with g1. rewrite Hid1, Hs1, Hk, Hd. cbn [default snd from_option].
    eexists _, _. split; [reflexivity|]. split; [done|]. split; [|exact Hperm].
    transitivity (service_get (service_update (services g1) sv (fun s => snd (untrack_dma s phys))) sv); [done|].
    by rewrite service_get_update, Hs1.
  - unfold sys_dma_free, me, untrack_service_dma. rewrite Hid, Hsvc.
    assert (first_index (fun e => fst e =? phys) (take (dma_count (resources svc)) (dma (resources svc))) = None) as ->; [|by destruct t as [[]]].
    apply first_index_None. eapply Forall_impl; [exact Hfresh|]. intros x Hx. by apply Z.eqb_neq.
Qed.

(** ** PCI configuration space *)

Lemma pci_address_sum bdf off :
  0 <= bdf <= 0xFFFF -> 0 <= off <= 0xFF -> pci_address bdf off = off / 4 * 4 + bdf * 2 ^ 8 + 2 ^ 31.
Proof. clear pci_space fpu_clean.
  intros Hb Ho. unfold pci_address. rewrite (wrap_small 32 bdf), (wrap_small 32 off) by lia.
  rewrite Z.shiftl_mul_pow2, wrap_small by lia.
  assert (Z.land off 0xFC = off / 4 * 4) as ->.
  { change 0xFC with (Z.shiftl (Z.ones 6) 2).
    assert (Z.land off (Z.shiftl (Z.ones 6) 2) = Z.shiftl (Z.land (Z.shiftr off 2) (Z.ones 6)) 2) as ->.
    { apply Z.bits_inj'. intros n Hn. rewrite Z.land_spec. destruct (Z.ltb_spec n 2).
      - rewrite !Z.shiftl_spec_low by done. apply andb_false_r.
      - rewrite !Z.shiftl_spec, Z.land_spec, Z.shiftr_spec by lia. by replace (n - 2 + 2) with n by lia. }
    rewrite Z.land_ones, Z.shiftr_div_pow2, Z.shiftl_mul_pow2 by lia. change (2 ^ 2) with 4. rewrite Z.mod_small by div_lia. done. }
  rewrite (Z.lor_comm (Z.lor _ _)), (Z.lor_comm 0x80000000), Z.lor_assoc.
  rewrite <- (Z.shiftl_mul_pow2 bdf) by lia. rewrite lor_high by div_lia.
  change 0x80000000 with (Z.shiftl 1 31). rewrite lor_high by div_lia. rewrite ?Z.shiftl_mul_pow2 by lia. lia.
Qed.

(** The PCI configuration call checks its arguments and addresses the right
    register. An argument out of range is refused without touching a port;
    otherwise the address register gets the enable bit, the bus, device and
    function, and the double word of the offset, and the data port is written with
    the value cut to the width, or read. The offset within the double word is
    dropped, so bytes 1 to 3 of a double word cannot be reached. *)
Theorem pci_config_addresses f t bdf off width value is_write :
  0 <= bdf -> 0 <= off ->
  let r := sys_pci_config pci_space f t bdf off width value is_write in
  if (bdf <=? 0xFFFF) && (off <=? 0xFF) && ((width =? 1) || (width =? 2) || (width =? 4)) then
    let addr := pci_address bdf off in
    (addr / 2 ^ 31 = 1 /\ (addr / 2 ^ 16) mod 2 ^ 8 = bdf / 256 /\ (addr / 2 ^ 8) mod 2 ^ 8 = bdf mod 256 /\ addr mod 2 ^ 8 = off / 4 * 4) /\
    (if is_write =? 0 then r = (Resume (set_rax f (wrap (8 * width) (pci_space addr width))), with_port t 0xCF8 4 addr)
     else r = (Resume (set_rax f 0), with_port (with_port t 0xCF8 4 addr) 0xCFC width (wrap (8 * width) value))) /\
    (off mod 4 = 0 -> off + 3 <= 0xFF -> forall k, 0 <= k < 4 -> sys_pci_config pci_space f t bdf (off + k) width value is_write = r)
  else r = (Resume (set_rax f U64_MAX), t).
Proof. clear fpu_clean.
  intros Hb Ho. cbv zeta. unfold sys_pci_config. rewrite !Z.gtb_ltb.
  destruct (Z.ltb_spec 0xFFFF bdf), (Z.leb_spec bdf 0xFFFF); try lia; [done|]. destruct (Z.ltb_spec 0xFF off), (Z.leb_spec off 0xFF); try lia; [done|].
  cbn [orb andb]. destruct ((width =? 1) || (width =? 2) || (width =? 4)); [|done]. cbn [negb]. split; [|split].
  - rewrite pci_address_sum by lia. split_and!; div_lia.
  - by destruct (is_write =? 0).
  - intros Hm Hk k Hkk. rewrite Z.gtb_ltb. destruct (Z.ltb_spec 0xFF (off + k)); [lia|]. cbn [orb negb].
    assert ((off + k) / 4 = off / 4) as Ed by div_lia. by rewrite (pci_address_sum bdf (off + k)), (pci_address_sum bdf off), Ed by lia.
Qed.

(** ** Unmapping *)

(** Only the start of a range is checked against the kernel half: a range of two
    pages that starts just below it unmaps, and frees, a page of the kernel. *)
Theorem munmap_reaches_kernel f t :
  ginit (gt (tsys t)) = true -> my_process cpu t = 0 ->
  let p := Z.land (pml4_address (tmem t)) (not64 0xFFF) in
  sys_munmap cpu f t (HIGHER_HALF - 0x1000) 0x2000 =
  (Resume (set_rax f 0), with_tmem t (munmap_page p (munmap_page p (tmem t) (HIGHER_HALF - 0x1000)) HIGHER_HALF)).
Proof.
  intros Hi Hp. unfold sys_munmap, sched_ready. rewrite Hi. cbn [negb]. change (HIGHER_HALF - 0x1000 >=? HIGHER_HALF) with false. cbv iota.
  change ((Z.max 0x2000 0x1000 +u64 0xFFF) / 0x1000) with 2. change (seqZ 0 2) with [0; 1]. cbn [fold_left].
  change ((HIGHER_HALF - 0x1000) +u64 0 *u64 0x1000) with (HIGHER_HALF - 0x1000). change ((HIGHER_HALF - 0x1000) +u64 1 *u64 0x1000) with HIGHER_HALF.
  set (t1 := with_tmem t _). change (my_process cpu t1) with (my_process cpu t). by rewrite Hp.
Qed.
End trap_thms.
