(* ===== verification/TrapDemo.v ===== *)
(** A concrete machine for the trap handlers: one CPU whose page tables are at
    0x8000 and map 0x401000, a driver that runs as vCPU 1, and interrupt 33
    registered for it.  The theorems of [TrapThms] are applied to it. *)
From stdpp Require Import base tactics numbers list gmap.
From Stdlib Require Import ZArith Lia.
From S2P Require Import Prelude Phys PhysInv PhysSpec PhysThms Percpu Slab KMem Vcpu Service Scheduler SchedulerThms Gdf GdfThms GdfBlock GdfCrash Virt VirtTree VirtThms Vma Acpi Intr IntrThms Entry EntryThms Trap TrapThms Machine MachineThms.

Local Open Scope Z_scope.

(** The state of the scheduler, on a machine. *)
Definition on_machine (s : Sched FlatMem) (m : Mem) : Sched Mem := mkSched (gt s) (slab s) (pc s) m (tss_rsp0 s) (ipis s).

Definition mem_demo : Mem :=
  run_vm (map_page 0x8000 0x401000 0x9000 7) (Live (mkMachine virt_demo ∅ (mkKernelVma 0 false) [] 0 true)).

(** vCPU 1 runs on CPU 0. *)
Definition sched_running : Sched FlatMem :=
  let s := with_slab sched_driver (vcpu_update (slab sched_driver) 1 (fun v => set_state v Running)) in
  with_pc s (set_current_vcpu (pc s) 0 1).

Definition gdf_on (s : Sched FlatMem) : Gdf Mem :=
  mkGdf (on_machine s mem_demo) (mkServices (Some crash_service :: replicate 31 None) 1) (drivers gdf_demo)
    (replicate MAX_DRIVERS None) (replicate MAX_DEFERRED_RESTARTS None) (replicate MAX_DRIVERS None).

Definition intr_demo : Intr :=
  mkIntr (NEXT_VECTOR irq_table) (VECTOR_EXHAUSTED irq_table) (routes irq_table) (initialized irq_table) (IRQ_CPU_NEXT irq_table)
    [mkRuntime 50 17 1 true] (IOAPICS irq_table).

Definition trap_on (s : Sched FlatMem) : Trap Mem :=
  mkTrap (gdf_on s) intr_demo (mkCounts 0 0 (replicate 256 0) 0 0) (mkModes true false false false 0 0) (mkDebug 0 0 0 0 []) [] [].
Definition trap_demo : Trap Mem := trap_on sched_running.

(** The driver calls with number [nr]. *)
Definition call_frame (nr : Z) : TrapFrame := set_rax driver_frame nr.

Notation syscall_demo := (syscall_handler 0 0 [] [] (fun _ _ => 0)).

Lemma some_result {A} (o : option A) : match o with Some _ => true | None => false end = true -> exists x, o = Some x.
Proof. destruct o; [by eexists|done]. Qed.

Lemma syscall_access_control_witness : syscall_demo (call_frame 9) trap_demo = Some (Resume (set_rax (sanitize (call_frame 9)) U64_MAX), trap_demo).
Proof.
  apply (syscall_access_control 0 0 [] [] (fun _ _ => 0) (call_frame 9) trap_demo). unfold may_call. intros [_ H].
  change (rax (call_frame 9)) with 9 in H. lia.
Defined.


(** [f] as vector [v] enters the kernel. *)
Definition at_vector (f : TrapFrame) (v code : Z) : TrapFrame :=
  mkFrame (r15 f) (r14 f) (r13 f) (r12 f) (r11 f) (r10 f) (r9 f) (r8 f) (rax f) (rbx f) (rcx f) (rdx f)
    (rbp f) (rsi f) (rdi f) v code (rip f) (cs f) (rflags f) (rsp f) (ss f).

(** The driver is halted, CPU 0 idle. *)
Definition trap_halted : Trap Mem := trap_on (with_slab sched_driver (vcpu_update (slab sched_driver) 1 (fun v => set_state v Halted))).

Lemma device_interrupt_wakes_driver_witness :
  let f := at_vector idle_frame 50 0 in
  exists t' v, interrupt_dispatcher 0 0 [] [] 0 f trap_halted 0 0 = (Resume f, t') /\
    vcpu_get (slab (tsys t')) 1 = Some v /\ state v = Ready.
Proof.
  cbv zeta. destruct (some_result (vcpu_get (slab (tsys trap_halted)) 1)) as [v Hv]; [vm_compute; reflexivity|].
  destruct (device_interrupt_wakes_driver 0 0 [] [] 0 (at_vector idle_frame 50 0) trap_halted 0 0 1 v) as (t' & H & Hr & _).
  - cbn. lia.
  - vm_compute. reflexivity.
  - lia.
  - exact Hv.
  - assert ((state <$> vcpu_get (slab (tsys trap_halted)) 1) = Some Halted) as Hs by (vm_compute; reflexivity). rewrite Hv in Hs.
    injection Hs as Hs. rewrite bool_decide_eq_true_2 in Hr by done.
    exists t', (set_vruntime (set_state v Ready) 0). split_and!; [exact H|exact Hr|done].
Defined.


Definition driver_cpu : Cpu := mkCpu (fun r => if decide (r = RSP) then 0x7000 else 5) false 0x400123 0x1B 0x202 0x23 (fun _ => 0) 0 0 0 0.

Lemma every_syscall_yields_witness :
  syscall_demo (syscall_frame (set_reg driver_cpu RAX 7) 0) trap_demo = Some (sys_yield 0 0 [] [] (sanitize (syscall_frame driver_cpu 0)) trap_demo).
Proof. apply (every_syscall_yields 0 0 [] [] (fun _ _ => 0) driver_cpu trap_demo). vm_compute. discriminate. Defined.

Lemma copy_message_checked_witness :
  exists m', copy_message mem_demo 1 2 3 4 0x401010 = Some m' /\ user_writable mem_demo 0x40102F.
Proof.
  destruct (some_result (copy_message mem_demo 1 2 3 4 0x401010)) as [m' E]; [vm_compute; reflexivity|]. exists m'. split; [exact E|].
  pose proof (copy_message_checked mem_demo 1 2 3 4 0x401010 ltac:(lia)) as H. rewrite E in H. apply H. lia.
Defined.

Lemma pci_config_addresses_witness :
  sys_pci_config (fun _ _ => 0) driver_frame trap_demo 0x10000 0 4 0 0 = (Resume (set_rax driver_frame U64_MAX), trap_demo).
Proof. exact (pci_config_addresses (fun _ _ => 0) driver_frame trap_demo 0x10000 0 4 0 0 ltac:(lia) ltac:(lia)). Defined.

Lemma dma_buffer_roundtrip_witness :
  exists t2, sys_dma_free 0 driver_frame (snd (sys_dma_alloc 0 driver_frame trap_demo 0x1000)) 0x14000 = (Resume (set_rax driver_frame 0), t2).
Proof.
  destruct (dma_buffer_roundtrip 0 driver_frame trap_demo 0x1000 0x14000 (snd (sys_dma_alloc 0 driver_frame trap_demo 0x1000)) 0 crash_service)
    as (_ & (t2 & svc & H & _) & _).
  - vm_compute. reflexivity.
  - reflexivity.
  - split; cbn; repeat constructor; lia.
  - constructor.
  - discriminate.
  - rewrite (surjective_pairing (sys_dma_alloc 0 driver_frame trap_demo 0x1000)) at 1. f_equal.
  - by exists t2.
Defined.

(** A second driver, vCPU 2, is ready; the gang of the first has run longer. *)
Definition sched_two : Sched FlatMem :=
  let s := with_slab sched_running (snd (vcpu_alloc (slab sched_running) 0 0x6000 1 HardwareDriver)) in
  let s1 := snd (register_driver_vcpu s 2) in
  let s2 := with_slab s1 (vcpu_update (slab s1) 2 (fun v => set_magic (set_frame (set_state v Ready) driver_frame) FRAME_MAGIC)) in
  match gang_at (gt s2) 1 with
  | Some g => with_gt s2 (set_gang_at (gt s2) 1 (Some (set_running (set_gvruntime g 5) 1)))
  | None => s2
  end.
Definition trap_two : Trap Mem := trap_on sched_two.

Notation recv_result := (sys_driver_recv_block 0 0 [] [] driver_frame trap_two 0x401000).

Lemma trap_two_drivers : drivers (tg trap_two) = mkDrivers (Some demo_driver :: replicate 15 None) 1.
Proof. vm_compute. reflexivity. Qed.

Lemma switch_parts {T} (r : ending * T) :
  match fst r with Switch _ _ _ => true | Resume _ | Halt => false end = true -> exists f p q t, r = (Switch f p q, t).
Proof. destruct r as [[| |] t]; try done. by eexists _, _, _, _. Qed.

Lemma blocking_receive_loses_message_witness :
  exists f p q t', recv_result = (Switch f p q, t') /\
    exists v', vcpu_get (slab (sys (snd (send_cmd (tg t') demo_name 7 1 2 3)))) 1 = Some v' /\ state v' = Ready /\ rax (saved_frame v') = 0.
Proof.
  destruct (switch_parts recv_result) as (f & p & q & t' & E); [vm_compute; reflexivity|]. exists f, p, q, t'. split; [exact E|].
  destruct (some_result (vcpu_get (slab (tsys trap_two)) 1)) as [v Hv]; [vm_compute; reflexivity|].
  pose proof (blocking_receive_loses_message 0 0 [] [] driver_frame trap_two 0x401000 demo_name 0 demo_driver v 7 1 2 3 f p q t') as H.
  destruct (send_cmd (tg t') demo_name 7 1 2 3) as [ok g2]. cbn [snd]. apply H; [ |vm_compute; reflexivity|vm_compute; reflexivity|vm_compute; reflexivity|exact Hv| | |exact E].
  - rewrite trap_two_drivers. by apply solo_single.
  - vm_compute. discriminate.
  - vm_compute. lia.
Defined.

(** ** A page shared copy-on-write at 0x401000 *)

Definition cow_w1 : gmap Z Z := <[slot_addr 0x8000 0 := 0x5007]> (zero_words ∅ 0x5000).
Definition cow_w2 : gmap Z Z := <[slot_addr 0x5000 0 := 0x6007]> (zero_words cow_w1 0x6000).
Definition cow_w3 : gmap Z Z := <[slot_addr 0x6000 2 := 0x7007]> (zero_words cow_w2 0x7000).
Definition cow_words : gmap Z Z := <[slot_addr 0x7000 1 := 0x9805]> cow_w3.
Definition cow_tables : gmap (list Z) Z := <[[0; 0] ++ [2] := 0x7000]> (<[[0] ++ [0] := 0x6000]> (<[[] ++ [0] := 0x5000]> {[ [] := 0x8000 ]})).
Definition cow_virt : Virt := mkVirt demo cow_words 0x8000 0x8000 true 0 (default percpu_boot (mark_online percpu_boot 0)) [] 0.
Definition cow_machine : Machine := mkMachine cow_virt ∅ (mkKernelVma 0 false) [] 0 true.
Definition trap_cow : Trap Mem := with_tmem trap_demo (Live cow_machine).

Lemma page_table_ok a : (0 <=? a) && (a <? DIRECT_MAP_SIZE) && (a mod 4096 =? 0) = true -> table_ok a.
Proof. intros [[?%Z.leb_le ?%Z.ltb_lt]%andb_prop ?%Z.eqb_eq]%andb_prop. by split. Qed.

Lemma fresh_table (T : gmap (list Z) Z) c : forallb (fun x => negb (snd x =? c)) (map_to_list T) = true -> forall q, T !! q <> Some c.
Proof. intros H q Hq%elem_of_map_to_list. rewrite forallb_forall in H. apply list_elem_of_In, H in Hq. cbn in Hq. by rewrite Z.eqb_refl in Hq. Qed.

(** [tree_extend] at concrete tables. *)
Ltac extend H :=
  eapply tree_extend; [exact H|vm_compute; reflexivity|simpl; lia|lia|vm_compute; reflexivity|apply page_table_ok; vm_compute; reflexivity
    |apply fresh_table; vm_compute; reflexivity|vm_compute; reflexivity|vm_compute; reflexivity].

Lemma cow_tree : tree cow_words 0x8000 cow_tables.
Proof.
  assert (tree cow_w1 0x8000 (<[[] ++ [0] := 0x5000]> {[ [] := 0x8000 ]})) as H1.
  { extend (vi_tree _ _ _ _ virt_demo_inv). }
  assert (tree cow_w2 0x8000 (<[[0] ++ [0] := 0x6000]> (<[[] ++ [0] := 0x5000]> {[ [] := 0x8000 ]}))) as H2.
  { extend H1. }
  assert (tree cow_w3 0x8000 cow_tables) as H3.
  { unfold cow_tables, cow_w3. extend H2. }
  apply (tree_update _ _ _ [0; 0; 2] 0x7000); [done|reflexivity|lia|]. intros Hl. simpl in Hl. lia.
Qed.

Lemma cow_virt_inv : vinv cow_virt (seqZ 16 8) 0x8000 cow_tables.
Proof.
  split; [exact cow_tree|exact demo_inv| |].
  - intros p t Ht. assert (forallb (fun x => bool_decide (snd x / PAGE_SIZE ∉ seqZ 16 8)) (map_to_list cow_tables) = true) as H by (vm_compute; reflexivity).
    apply elem_of_map_to_list, list_elem_of_In in Ht. rewrite forallb_forall in H. apply H in Ht. by apply bool_decide_eq_true in Ht.
  - intros pn Hpn%elem_of_seqZ. unfold DIRECT_MAP_SIZE, PAGE_SIZE. div_lia.
Qed.

Lemma translate_is_hardware_walk_witness : translate 0x401234 cow_virt = Some (Some 0x9234, cow_virt).
Proof.
  assert (fst <$> mmu cow_virt 0x401234 = Some 0x9234) as E by (vm_compute; reflexivity). rewrite <- E.
  apply (translate_is_hardware_walk cow_virt 0x8000 cow_tables 0x401234 cow_tree); [vm_compute; reflexivity|reflexivity|reflexivity].
Defined.

Lemma cow_fault_transparent_witness :
  exists t' x' new, exception_handler 0 0 (at_vector driver_frame 14 7) trap_cow 14 0 0x401234 = (Resume (at_vector driver_frame 14 7), t') /\
    tmem t' = Live x' /\ fst <$> mmu (mv x') 0x401234 = Some (new + 0x234).
Proof.
  destruct (cow_fault_transparent 0 0 (at_vector driver_frame 14 7) trap_cow 0 0x401234 cow_machine (seqZ 16 8) 0x8000 cow_tables 0x9805)
    as (t' & x' & new & H1 & H2 & _ & H3 & _).
  - reflexivity.
  - exact cow_virt_inv.
  - reflexivity.
  - discriminate.
  - intros pn Hpn%elem_of_seqZ. lia.
  - lia.
  - vm_compute. reflexivity.
  - vm_compute. reflexivity.
  - reflexivity.
  - reflexivity.
  - apply (bool_decide_unpack _). vm_compute. exact I.
  - reflexivity.
  - reflexivity.
  - exists t', x', new. split_and!; [exact H1|exact H2|exact H3].
Defined.

Lemma page_tables_keep_promises_witness : exists u, act (write_pte 0x8000 0x401000 0) cow_machine = Some u /\ ~ maps (words (mv (snd u))) 0x8000 0x401000.
Proof.
  destruct (some_result (act (write_pte 0x8000 0x401000 0) cow_machine)) as [u Hu]; [vm_compute; reflexivity|].
  exists u. split; [exact Hu|]. by apply (page_tables_keep_promises cow_machine 0x8000 0x401000).
Defined.
