(* ===== verification/Boot.v ===== *)
(** The boot loader's reader of ext4 and its ELF loader (src/boot/src/load_kernel.rs):
    finding the partition in the GPT, superblock, group descriptors, inodes,
    extent trees and indirect blocks, the root directory, and loading a file; then
    placing the segments of the kernel in memory.

    Block devices are UEFI's: a device is a parameter, the function that reads
    whole blocks.  A function ends with a value, with [None] (here [Missing]), or
    with a panic, which is also what an access outside a buffer and recursion
    beyond the stack are taken for.  The heap is unbounded; logging is left out. *)
From stdpp Require Import base tactics numbers list gmap.
From Stdlib Require Import ZArith Lia.
From S2P Require Import Prelude Phys KMem Percpu Virt Vma Exec Entry.

Local Open Scope Z_scope.
Local Open Scope word_scope.

(** ** Outcomes *)

Inductive out (A : Type) := Got (x : A) | Missing | Crash.
Arguments Got {A}.
Arguments Missing {A}.
Arguments Crash {A}.

Definition obind {A B} (m : out A) (k : A -> out B) : out B :=
  match m with Got x => k x | Missing => Missing | Crash => Crash end.

Declare Scope boot_scope.
Delimit Scope boot_scope with boot.
Notation "'let+' x := m 'in' k" := (obind m (fun x => k)) (at level 200, x name, right associativity) : boot_scope.
Local Open Scope boot_scope.

(** [.ok()?] *)
Definition of_option {A} (o : option A) : out A := match o with Some x => Got x | None => Missing end.
(** Division by zero panics. *)
Definition nonzero (d : Z) : out unit := if d =? 0 then Crash else Got tt.

(** [&l[off..off + n]] *)
Definition slice (l : list Z) (off n : Z) : out (list Z) :=
  if (0 <=? off) && (0 <=? n) && (off + n <=? Z.of_nat (length l)) then Got (take (Z.to_nat n) (drop (Z.to_nat off) l)) else Crash.
Definition int_at (l : list Z) (off n : Z) : out Z := let+ b := slice l off n in Got (le b).
(** [dst[off..off + src.len()].copy_from_slice(src)] *)
Definition splice (dst : list Z) (off : Z) (src : list Z) : out (list Z) :=
  if (0 <=? off) && (off + Z.of_nat (length src) <=? Z.of_nat (length dst))
  then Got (take (Z.to_nat off) dst ++ src ++ drop (Z.to_nat off + length src) dst) else Crash.
Definition zeros (n : Z) : list Z := replicate (Z.to_nat n) 0.

(** A loop that stops early: [None] continues. *)
Fixpoint first_of {A B} (l : list A) (f : A -> out (option B)) : out (option B) :=
  match l with
  | [] => Got None
  | x :: l => let+ r := f x in match r with Some y => Got (Some y) | None => first_of l f end
  end.
Fixpoint fold_out {A B} (l : list A) (f : B -> A -> out B) (acc : B) : out B :=
  match l with
  | [] => Got acc
  | x :: l => let+ acc := f acc x in fold_out l f acc
  end.

Definition SECTOR_SIZE : Z := 512.
Definition EXT4_GUID : list Z := [0x3DAF; 0x0FC6; 0x8483; 0x4772; 0x798E; 0x693D; 0x47D8; 0xE47D].
Definition CACHE_SIZE : Z := 8.
Definition SB_MAGIC : Z := 0xEF53.
Definition SB_OFFSET : Z := 1024.
Definition EXT4_FEATURE_RO_COMPAT_64BIT : Z := 0x80.
Definition EXT4_64BIT_BGDT_SIZE : Z := 64.
Definition EXT4_32BIT_BGDT_SIZE : Z := 32.
Definition EXT4_EXTENTS_FL : Z := 0x80000.
Definition EXTENT_HEADER_SIZE : Z := 12.
Definition EXTENT_ENTRY_SIZE : Z := 12.
Definition KERNEL_LOAD_PHYS_LIMIT : Z := 0x40000000.

(** A handle with the block I/O protocol: [dev_read lba n] fills a buffer of [n]
    bytes; [None] is an error. *)
Record Dev := mkDev { dev_open : bool; dev_block_size : Z; dev_read : Z -> Z -> option (list Z) }.

Record SectorReader := mkReader { rdev : Dev; partition_offset : Z; cache_sectors : list Z; cache_data : list (list Z) }.
Definition reader_new (d : Dev) (part : Z) : option SectorReader :=
  if dev_open d then Some (mkReader d part (replicate 8 U64_MAX) (replicate 8 (zeros SECTOR_SIZE))) else None.

(** The sector at a byte offset, read into a buffer that held [old]. *)
Definition fetch (d : Dev) (byte_offset : Z) (old : list Z) : out (list Z) :=
  let bs := dev_block_size d in
  let+ _ := nonzero bs in
  let start_block := byte_offset / bs in
  let block_offset := byte_offset mod bs in
  let size := if bs >=? SECTOR_SIZE then bs else (SECTOR_SIZE + bs - 1) / bs * bs in
  let+ block_buf := of_option (dev_read d start_block size) in
  let copy_len := Z.min SECTOR_SIZE (size - block_offset) in
  let+ src := slice block_buf block_offset copy_len in
  splice old 0 src.

Definition read_sector (r : SectorReader) (sector : Z) : out SectorReader :=
  let idx := Z.to_nat (sector mod CACHE_SIZE) in
  if default 0 (cache_sectors r !! idx) =? sector then Got r
  else
    let byte_offset := (partition_offset r +u64 sector) *u64 SECTOR_SIZE in
    let+ data := fetch (rdev r) byte_offset (default [] (cache_data r !! idx)) in
    Got (mkReader (rdev r) (partition_offset r) (<[idx := sector]> (cache_sectors r)) (<[idx := data]> (cache_data r))).

(** ** Partition table *)

(** The buffer is kept when a read fails. *)
Definition read_sector_raw (d : Dev) (sector : Z) (buf : list Z) : out (list Z) :=
  if negb (dev_open d) then Missing else fetch d (sector *u64 SECTOR_SIZE) buf.

Definition guid_words (b : list Z) : list Z := map (fun j => field b (2 * j) 2) (seq 0 8).

(** One entry: the first block of the partition when its type is ext4's. *)
Definition gpt_entry (buf : list Z) (off : Z) : out (option Z) :=
  let+ type_guid := slice buf off 16 in
  if bool_decide (guid_words type_guid = EXT4_GUID) then
    let+ first_lba := int_at buf (off + 32) 8 in
    let+ _ := int_at buf (off + 40) 8 in
    Got (Some first_lba)
  else Got None.

Definition gpt_sector (entry_size entries_per_sector : Z) (buf : list Z) : out (option Z) :=
  first_of (filter (fun i => i * entry_size + entry_size <= SECTOR_SIZE) (seqZ 0 entries_per_sector)) (fun i => gpt_entry buf (i * entry_size)).

(** The sectors of the table; the buffer is threaded. *)
Fixpoint gpt_scan (d : Dev) (l : list Z) (lba entry_size entries_per_sector : Z) (buf : list Z) : out (option Z) * list Z :=
  match l with
  | [] => (Got None, buf)
  | s :: l =>
    match read_sector_raw d (lba +u64 s) buf with
    | Got buf =>
      match gpt_sector entry_size entries_per_sector buf with
      | Got None => gpt_scan d l lba entry_size entries_per_sector buf
      | r => (r, buf)
      end
    | Missing => (Missing, buf)
    | Crash => (Crash, buf)
    end
  end.

(** [Got None]: not here. *)
Definition try_handle_for_ext4 (d : Dev) (buf : list Z) : out (option Z) * list Z :=
  match read_sector_raw d 0 buf with
  | Got buf =>
    match read_sector_raw d 1 buf with
    | Got buf =>
      if negb (bool_decide (take 8 buf = [69; 70; 73; 32; 80; 65; 82; 84])) then (Missing, buf)
      else
        let entries_lba := field buf 72 8 in
        let num_entries := field buf 80 4 in
        let entry_size := field buf 84 4 in
        if entry_size =? 0 then (Crash, buf)
        else
          let entries_per_sector := SECTOR_SIZE / entry_size in
          if entries_per_sector =? 0 then (Crash, buf)
          else
            let sectors_needed := (num_entries + entries_per_sector - 1) / entries_per_sector in
            gpt_scan d (seqZ 0 sectors_needed) entries_lba entry_size entries_per_sector buf
    | Missing => (Missing, buf)
    | Crash => (Crash, buf)
    end
  | Missing => (Missing, buf)
  | Crash => (Crash, buf)
  end.

Fixpoint find_on (handles : list Dev) (buf : list Z) : out (Dev * Z) :=
  match handles with
  | [] => Missing
  | d :: hs =>
    match try_handle_for_ext4 d buf with
    | (Got (Some lba), _) => Got (d, lba)
    | (Crash, _) => Crash
    | (_, buf) => find_on hs buf
    end
  end.

(** [handles]: what [find_handles] returns. *)
Definition find_ext4_partition (handles : option (list Dev)) : out (Dev * Z) :=
  let+ hs := of_option handles in find_on hs (zeros SECTOR_SIZE).

(** ** Reading from the partition *)

(** The bytes that fill a buffer of [n] bytes. *)
Definition read_ext4_sectors (r : SectorReader) (sector n : Z) : out (list Z) :=
  if n =? 0 then Got []
  else
    let bs := dev_block_size (rdev r) in
    let byte_offset := (partition_offset r +u64 sector) *u64 SECTOR_SIZE in
    let+ _ := nonzero bs in
    if bs =? SECTOR_SIZE then
      let aligned := (n + SECTOR_SIZE - 1) / SECTOR_SIZE * SECTOR_SIZE in
      let+ aligned_buf := of_option (dev_read (rdev r) (byte_offset / bs) aligned) in
      slice aligned_buf 0 n
    else
      let total_sectors := n / SECTOR_SIZE + (if n mod SECTOR_SIZE >? 0 then 1 else 0) in
      fold_out (seqZ 0 total_sectors) (fun buf i =>
        let b := byte_offset +u64 i * SECTOR_SIZE in
        let+ block_buf := of_option (dev_read (rdev r) (b / bs) bs) in
        let dst := i * SECTOR_SIZE in
        let copy_len := Z.min SECTOR_SIZE (n - dst) in
        let+ src := slice block_buf (b mod bs) copy_len in
        Got (buf ++ src)) [].

Record Superblock := mkSb {
  s_inodes_count : Z; s_blocks_count_lo : Z; s_r_blocks_count_lo : Z; s_free_blocks_count_lo : Z; s_free_inodes_count : Z;
  s_first_data_block : Z; s_log_block_size : Z; s_log_cluster_size : Z; s_blocks_per_group : Z; s_clusters_per_group : Z;
  s_inodes_per_group : Z; s_mtime : Z; s_wtime : Z; s_mnt_count : Z; s_max_mnt_count : Z; s_magic : Z; s_state : Z; s_errors : Z;
  s_minor_rev_level : Z; s_lastcheck : Z; s_checkinterval : Z; s_creator_os : Z; s_rev_level : Z; s_def_resuid : Z; s_def_resgid : Z;
  s_first_ino : Z; s_inode_size : Z; s_block_group_nr : Z; s_feature_compat : Z; s_feature_incompat : Z; s_feature_ro_compat : Z;
}.

Definition parse_superblock (raw : list Z) : Superblock :=
  let rev := field raw 76 4 in
  let '(inode_size, ro_compat) := if rev >=? 1 then (field raw 88 2, field raw 100 4) else (128, 0) in
  mkSb (field raw 0 4) (field raw 4 4) (field raw 8 4) (field raw 12 4) (field raw 16 4) (field raw 20 4) (field raw 24 4) (field raw 28 4)
    (field raw 32 4) (field raw 36 4) (field raw 40 4) (field raw 44 4) (field raw 48 4) (field raw 52 2) (field raw 54 2) (field raw 56 2)
    (field raw 58 2) (field raw 60 2) (field raw 62 2) (field raw 64 4) (field raw 68 4) (field raw 72 4) rev (field raw 80 2) (field raw 82 2)
    (field raw 84 4) inode_size (field raw 90 2) (field raw 92 4) (field raw 96 4) ro_compat.

(** [1024u64 << sb.s_log_block_size]: the shift amount is taken modulo 64. *)
Definition block_size_of (sb : Superblock) : Z := wrap 64 (Z.shiftl 1024 (s_log_block_size sb mod 64)).
Definition sectors_per_block (sb : Superblock) : Z := block_size_of sb / SECTOR_SIZE.

Record BlockGroupDesc := mkBgd {
  bg_block_bitmap_lo : Z; bg_inode_bitmap_lo : Z; bg_inode_table_lo : Z; bg_free_blocks_count_lo : Z; bg_free_inodes_count_lo : Z;
  bg_used_dirs_count_lo : Z; bg_flags : Z; bg_exclude_bitmap_lo : Z; bg_block_bitmap_csum_lo : Z; bg_inode_bitmap_csum_lo : Z;
  bg_itable_unused_lo : Z; bg_checksum : Z;
}.
Definition bgd_default : BlockGroupDesc := mkBgd 0 0 0 0 0 0 0 0 0 0 0 0.

Definition parse_bgd (raw : list Z) (is64 : bool) (off : Z) : BlockGroupDesc :=
  let f o n := field raw (Z.to_nat (off + o)) n in
  let wide := is64 && (off + 64 <=? Z.of_nat (length raw)) in
  let bitmap_hi := if wide then Z.shiftl (f 32 4%nat) 32 else 0 in
  let itable_hi := if wide then Z.shiftl (f 40 4%nat) 32 else 0 in
  mkBgd (Z.land (Z.lor bitmap_hi (f 0 4%nat)) 0xFFFFFFFF) (Z.land (Z.lor bitmap_hi (f 4 4%nat)) 0xFFFFFFFF) (wrap 32 (Z.lor itable_hi (f 8 4%nat)))
    (f 12 2%nat) (f 14 2%nat) (f 16 2%nat) (f 18 2%nat) (f 20 4%nat) (f 24 2%nat) (f 26 2%nat) (f 28 2%nat) (f 30 2%nat).

(** The descriptors; those that do not fit keep their default. *)
Definition parse_bgdt (raw : list Z) (is64 : bool) (entry_size num_groups : Z) : list BlockGroupDesc :=
  map (fun i => if i * entry_size + entry_size >? Z.of_nat (length raw) then bgd_default else parse_bgd raw is64 (i * entry_size)) (seqZ 0 num_groups).

Record Inode := mkInode {
  i_mode : Z; i_uid : Z; i_size_lo : Z; i_atime : Z; i_ctime : Z; i_mtime : Z; i_dtime : Z; i_gid : Z; i_links_count : Z; i_blocks_lo : Z;
  i_flags : Z; i_osd1 : Z; i_block : list Z; i_generation : Z; i_file_acl_lo : Z; i_size_high : Z;
}.

Definition parse_inode (raw : list Z) : Inode :=
  mkInode (field raw 0 2) (field raw 2 2) (field raw 4 4) (field raw 8 4) (field raw 12 4) (field raw 16 4) (field raw 20 4) (field raw 24 2)
    (field raw 26 2) (field raw 28 4) (field raw 32 4) (field raw 36 4) (map (fun i => field raw (40 + i * 4) 4) (seq 0 15))
    (field raw 100 4) (field raw 104 4) (field raw 108 4).

(** The bytes of an inode, sector by sector: [first] in the first one. *)
Fixpoint inode_bytes (fuel : nat) (r : SectorReader) (sector src_start remaining : Z) : out (list Z) :=
  if remaining <=? 0 then Got []
  else
    match fuel with
    | O => Crash
    | S fuel =>
      let+ sector_buf := read_ext4_sectors r sector SECTOR_SIZE in
      let copy_len := Z.min (SECTOR_SIZE - src_start) remaining in
      let+ src := slice sector_buf src_start copy_len in
      let+ rest := inode_bytes fuel r (sector +u64 1) 0 (remaining - copy_len) in
      Got (src ++ rest)
    end.

Definition inode_size_of (sb : Superblock) : Z :=
  if (s_rev_level sb >=? 1) && negb (s_inode_size sb =? 0) then s_inode_size sb else 128.

Definition read_inode (r : SectorReader) (sb : Superblock) (descs : list BlockGroupDesc) (inode_num : Z) : out Inode :=
  if (inode_num =? 0) || (s_inodes_per_group sb =? 0) then Missing
  else
    let inode_size := inode_size_of sb in
    let group := (inode_num - 1) / s_inodes_per_group sb in
    let index := (inode_num - 1) mod s_inodes_per_group sb in
    match descs !! Z.to_nat group with
    | None => Missing
    | Some desc =>
      let inode_table_sector := bg_inode_table_lo desc *u64 block_size_of sb / SECTOR_SIZE in
      let inode_offset := index *u64 inode_size in
      let sector := inode_table_sector +u64 inode_offset / SECTOR_SIZE in
      let+ raw := inode_bytes 130 r sector (inode_offset mod SECTOR_SIZE) inode_size in
      if Z.of_nat (length raw) <? 112 then Crash else Got (parse_inode raw)
    end.

(** ** Extents *)

Record ExtentEntry := mkExtent { ee_block : Z; ee_len : Z; ee_start : Z }.

(** [i_block] as bytes in memory. *)
Definition i_block_bytes (i : Inode) : list Z := i_block i ≫= bytes_le 4.

Definition extent_off (i : Z) : Z := EXTENT_HEADER_SIZE + i * EXTENT_ENTRY_SIZE.
Definition extent_at (raw : list Z) (off : Z) : ExtentEntry :=
  let f o n := field raw (Z.to_nat (off + o)) n in
  mkExtent (f 0 4%nat) (Z.land (f 4 2%nat) 0x7FFF) (Z.lor (Z.shiftl (f 6 2%nat) 32) (f 8 4%nat)).
Definition child_at (raw : list Z) (off : Z) : Z :=
  let f o n := field raw (Z.to_nat (off + o)) n in Z.lor (Z.shiftl (f 8 2%nat) 32) (f 4 4%nat).

(** The indices of a node's entries that fit into it. *)
Definition extent_indices (raw : list Z) : list Z :=
  filter (fun i => extent_off i + EXTENT_ENTRY_SIZE <= Z.of_nat (length raw)) (seqZ 0 (field raw 2 2)).

(** A node of at most 4096 bytes. *)
Definition read_extent_block (r : SectorReader) (sb : Superblock) (block : Z) : out (list Z) :=
  let byte_count := Z.min (block_size_of sb) 4096 in
  let+ b := read_ext4_sectors r (block *u64 sectors_per_block sb) byte_count in
  Got (b ++ zeros (4096 - Z.of_nat (length b))).

(** The leaves below a node given by its bytes; [stack]: the levels of recursion
    that fit on the stack. *)
Fixpoint node_extents (stack : nat) (r : SectorReader) (sb : Superblock) (raw : list Z) : out (list ExtentEntry) :=
  if negb (field raw 0 2 =? 0xF30A) then Missing
  else if field raw 6 2 =? 0 then Got (map (fun i => extent_at raw (extent_off i)) (extent_indices raw))
  else
    fold_out (extent_indices raw) (fun acc i =>
      match stack with
      | O => Crash
      | S stack =>
        let+ child := read_extent_block r sb (child_at raw (extent_off i)) in
        let+ l := node_extents stack r sb child in
        Got (acc ++ l)
      end) [].

Definition collect_leaf_extents (stack : nat) (r : SectorReader) (sb : Superblock) (block : Z) : out (list ExtentEntry) :=
  let+ raw := read_extent_block r sb block in node_extents stack r sb raw.

Definition parse_extents (stack : nat) (r : SectorReader) (sb : Superblock) (inode : Inode) : out (list ExtentEntry) :=
  node_extents stack r sb (i_block_bytes inode).

(** The physical block of a logical one, searched in a node. *)
Fixpoint resolve_extent_in_block (stack : nat) (r : SectorReader) (sb : Superblock) (raw : list Z) (logical : Z) : out Z :=
  if Z.of_nat (length raw) <? 8 then Crash
  else
    let f o n := field raw (Z.to_nat o) n in
    if field raw 6 2 =? 0 then
      let+ found := first_of (extent_indices raw) (fun i =>
        let e := extent_at raw (extent_off i) in
        Got (if (logical >=? ee_block e) && (logical <? wrap 32 (ee_block e + ee_len e))
             then Some (wrap 32 (ee_start e +u64 (logical - ee_block e))) else None)) in
      of_option found
    else
      let+ found := first_of (extent_indices raw) (fun i =>
        let off := extent_off i in
        let next_off := extent_off (i + 1) in
        let next := if (i + 1 <? field raw 2 2) && (next_off + 4 <=? Z.of_nat (length raw)) then Some (f next_off 4%nat) else None in
        Got (if (logical >=? f off 4%nat) && match next with Some nb => logical <? nb | None => true end
             then Some (child_at raw off) else None)) in
      match found with
      | None => Missing
      | Some child =>
        let+ child_raw := read_ext4_sectors r (child *u64 sectors_per_block sb) (block_size_of sb) in
        match stack with O => Crash | S stack => resolve_extent_in_block stack r sb child_raw logical end
      end.

Definition resolve_block_extents (stack : nat) (r : SectorReader) (sb : Superblock) (inode : Inode) (logical : Z) : out Z :=
  let raw := i_block_bytes inode in
  if negb (field raw 0 2 =? 0xF30A) then Missing else resolve_extent_in_block stack r sb raw logical.

Definition resolve_block (stack : nat) (r : SectorReader) (sb : Superblock) (inode : Inode) (logical : Z) : out Z :=
  if negb (Z.land (i_flags inode) EXT4_EXTENTS_FL =? 0) then resolve_block_extents stack r sb inode logical
  else if logical <? 12 then Got (default 0 (i_block inode !! Z.to_nat logical))
  else
    let indirect_idx := logical - 12 in
    let indirect := default 0 (i_block inode !! 12%nat) in
    if (indirect_idx <? block_size_of sb / 4) && negb (indirect =? 0) then
      let+ buf := read_ext4_sectors r (indirect *u64 sectors_per_block sb) (block_size_of sb) in
      int_at buf (indirect_idx * 4) 4
    else Missing.

(** ** Files *)

Definition read_data_block (r : SectorReader) (sb : Superblock) (block : Z) (buf : list Z) : out (list Z) :=
  if block =? 0 then Got buf else read_ext4_sectors r (block *u64 sectors_per_block sb) (Z.of_nat (length buf)).

(** The extents of a file copied into [data]; [break] and [continue] as in the
    source. *)
Fixpoint copy_extents (r : SectorReader) (sb : Superblock) (l : list ExtentEntry) (data : list Z) : out (list Z) :=
  match l with
  | [] => Got data
  | e :: l =>
    let file_off := ee_block e *u64 block_size_of sb in
    let file_size := Z.of_nat (length data) in
    if file_off >=? file_size then Got data
    else
      let copy_len := Z.min (ee_len e *u64 block_size_of sb) (file_size - file_off) in
      if ee_start e =? 0 then copy_extents r sb l data
      else
        let+ b := read_ext4_sectors r (ee_start e *u64 sectors_per_block sb) copy_len in
        let+ data := splice data file_off b in
        copy_extents r sb l data
  end.

(** One block of a file of [file_size] bytes: where the next one goes, and the data. *)
Definition copy_block (stack : nat) (r : SectorReader) (sb : Superblock) (inode : Inode) (file_size : Z) (p : Z * list Z) (logical : Z) : out (Z * list Z) :=
  let '(offset, data) := p in
  let+ block := resolve_block stack r sb inode logical in
  let end_ := Z.min (offset + block_size_of sb) file_size in
  if block =? 0 then Got (end_, data)
  else
    let+ old := slice data offset (end_ - offset) in
    let+ b := read_data_block r sb block old in
    let+ data := splice data offset b in
    Got (end_, data).

Definition copy_blocks (stack : nat) (r : SectorReader) (sb : Superblock) (inode : Inode) (data : list Z) : out (list Z) :=
  let bs := block_size_of sb in
  let file_size := Z.of_nat (length data) in
  let+ _ := nonzero bs in
  let blocks_needed := (file_size +u64 bs -u64 1) / bs in
  let+ p := fold_out (seqZ 0 (wrap 32 blocks_needed)) (copy_block stack r sb inode file_size) (0, data) in
  Got (snd p).

Definition read_file_into (stack : nat) (r : SectorReader) (sb : Superblock) (inode : Inode) (data : list Z) : out (list Z) :=
  if negb (Z.land (i_flags inode) EXT4_EXTENTS_FL =? 0) then
    match parse_extents stack r sb inode with
    | Got extents => copy_extents r sb extents data
    | Missing => copy_blocks stack r sb inode data
    | Crash => Crash
    end
  else copy_blocks stack r sb inode data.

Definition file_size_of (i : Inode) : Z := Z.lor (Z.shiftl (i_size_high i) 32) (i_size_lo i).
Definition read_file (stack : nat) (r : SectorReader) (sb : Superblock) (inode : Inode) : out (list Z) :=
  read_file_into stack r sb inode (zeros (file_size_of inode)).

(** The inode number of a name in the bytes of a directory; 0 when it is not
    there. *)
Fixpoint find_entry (fuel : nat) (dir name : list Z) (off : Z) : Z :=
  match fuel with
  | O => 0
  | S fuel =>
    if off + 8 <=? Z.of_nat (length dir) then
      let f o n := field dir (Z.to_nat (off + o)) n in
      let inode := f 0 4%nat in
      let rec_len := f 4 2%nat in
      let name_len := f 6 1%nat in
      if rec_len =? 0 then 0
      else
        let name_end := off + 8 + name_len in
        if negb (inode =? 0) && (name_end <=? Z.of_nat (length dir)) &&
           bool_decide (take (Z.to_nat name_len) (drop (Z.to_nat (off + 8)) dir) = name) then inode
        else find_entry fuel dir name (off + rec_len)
    else 0
  end.

(** What the volume says of itself. *)
Definition mount (r : SectorReader) : out (Superblock * list BlockGroupDesc) :=
  let+ sb_raw := read_ext4_sectors r (SB_OFFSET / SECTOR_SIZE) SECTOR_SIZE in
  let sb := parse_superblock sb_raw in
  if negb (s_magic sb =? SB_MAGIC) then Missing
  else
    let+ _ := nonzero (s_blocks_per_group sb) in
    let num_groups := (s_blocks_count_lo sb + s_blocks_per_group sb - 1) / s_blocks_per_group sb in
    let bgdt_64bit := negb (Z.land (s_feature_ro_compat sb) EXT4_FEATURE_RO_COMPAT_64BIT =? 0) in
    let bgdt_entry_size := if bgdt_64bit then EXT4_64BIT_BGDT_SIZE else EXT4_32BIT_BGDT_SIZE in
    let bgdt_bytes := num_groups * bgdt_entry_size in
    let bgdt_block := if s_log_block_size sb =? 0 then 2 else 1 in
    let bgdt_sector := bgdt_block *u64 block_size_of sb / SECTOR_SIZE in
    let+ bgdt_raw := read_ext4_sectors r bgdt_sector ((bgdt_bytes + SECTOR_SIZE - 1) / SECTOR_SIZE * SECTOR_SIZE) in
    Got (sb, parse_bgdt bgdt_raw bgdt_64bit bgdt_entry_size num_groups).

(** The file of a mounted volume. *)
Definition load_from (stack : nat) (r : SectorReader) (sb : Superblock) (descs : list BlockGroupDesc) (filename : list Z) : out (list Z) :=
  let+ root_inode := read_inode r sb descs 2 in
  let+ root_data := read_file_into stack r sb root_inode (zeros (file_size_of root_inode)) in
  let ino := find_entry (length root_data) root_data filename 0 in
  if ino =? 0 then Missing
  else
    let+ file_inode := read_inode r sb descs ino in
    read_file stack r sb file_inode.

Definition load_file_from_ext4 (stack : nat) (handles : option (list Dev)) (filename : list Z) : out (list Z) :=
  let+ p := find_ext4_partition handles in
  let+ reader := of_option (reader_new (fst p) (snd p)) in
  let+ v := mount reader in
  load_from stack reader (fst v) (snd v) filename.

Definition kernel_elf : list Z := [107; 101; 114; 110; 101; 108; 46; 101; 108; 102].
Definition load_kernel_from_ext4 (stack : nat) (handles : option (list Dev)) : out (list Z) := load_file_from_ext4 stack handles kernel_elf.

(** ** Placing the kernel *)

Record MemoryRegion := mkRegion { phys_start : Z; rsize : Z }.

Definition addr_in_any_region (paddr size : Z) (regions : list MemoryRegion) (count : nat) : bool :=
  let end_ := saturating_add 64 paddr size in
  existsb (fun g => (paddr >=? phys_start g) && (end_ <=? saturating_add 64 (phys_start g) (rsize g))) (take count regions).

(** [read_u16_le], [read_u32_le], [read_u64_le] *)
Definition read_le (data : list Z) (offset n : Z) : out Z :=
  if offset +u64 (n - 1) >=? Z.of_nat (length data) then Crash else int_at data offset n.

(** One program header; the memory of the machine is threaded. *)
Definition load_segment (data : list Z) (regions : list MemoryRegion) (count : nat) (off : Z) (m : gmap Z Z) : out (gmap Z Z) :=
  let+ p_type_val := read_le data off 4 in
  if negb (p_type_val =? PT_LOAD) then Got m
  else
    let+ seg_offset := read_le data (off +u64 8) 8 in
    let+ vaddr := read_le data (off +u64 16) 8 in
    let+ paddr := read_le data (off +u64 24) 8 in
    let+ filesz := read_le data (off +u64 32) 8 in
    let+ memsz := read_le data (off +u64 40) 8 in
    let+ flags_ := read_le data (off +u64 4) 4 in
    let seg_end := default U64_MAX (checked_add 64 paddr memsz) in
    if seg_end >? KERNEL_LOAD_PHYS_LIMIT then Missing
    else if negb (addr_in_any_region paddr memsz regions count) then Missing
    else if seg_offset +u64 filesz >? Z.of_nat (length data) then Missing
    else
      let+ bytes := slice data seg_offset filesz in
      let m := write_at m paddr bytes in
      Got (if memsz >? filesz then write_at m (paddr + filesz) (zeros (memsz - filesz)) else m).

Definition load_elf (data : list Z) (regions : list MemoryRegion) (count : nat) (m : gmap Z Z) : out (Z * gmap Z Z) :=
  if Z.of_nat (length data) <? 64 then Missing
  else if negb (bool_decide (take 4 data = ELF_MAGIC)) then Missing
  else if negb (field data 4 1 =? ELFCLASS64) then Missing
  else if negb (field data 5 1 =? 1) then Missing
  else
    let+ et := read_le data 16 2 in
    if negb (et =? ET_EXEC) then Missing
    else
      let+ entry := read_le data 24 8 in
      let+ phoff := read_le data 32 8 in
      let+ phentsize := read_le data 54 2 in
      let+ phnum := read_le data 56 2 in
      if phoff +u64 phnum * phentsize >? Z.of_nat (length data) then Missing
      else
        let+ m := fold_out (seqZ 0 phnum) (fun m i => load_segment data regions count (phoff +u64 i * phentsize) m) m in
        Got (entry, m).
