(* ===== verification/BootThms.v ===== *)
(** The boot loader reads what the disk holds: sectors, inodes, extent trees,
    directories and whole files, for every block size that is a multiple of the
    sector size; and the kernel's segments go where its headers say, inside the
    memory that may be used. *)
From stdpp Require Import base tactics numbers list gmap sorting.
From Stdlib Require Import ZArith Lia.
From S2P Require Import Prelude Phys KMem Percpu Virt Vma Exec ExecThms Entry EntryThms Boot.

Local Open Scope Z_scope.
Local Open Scope word_scope.
Local Open Scope boot_scope.

(** ** Lists given by a function of the index *)

(** The values of [f] at [a], [a + 1], .., [n] of them. *)
Definition span (f : Z -> Z) (a n : Z) : list Z := map f (seqZ a n).

Lemma length_span f a n : length (span f a n) = Z.to_nat n.
Proof. unfold span. by rewrite length_map, length_seqZ. Qed.

Lemma lookup_span f a n (k : nat) : (k < Z.to_nat n)%nat -> span f a n !! k = Some (f (a + Z.of_nat k)).
Proof. intros Hk. unfold span. rewrite list_lookup_fmap, lookup_seqZ_lt by lia. done. Qed.

(** Lists of the same length with the same elements. *)
Lemma span_ext f g a b n : (forall k, 0 <= k < n -> f (a + k) = g (b + k)) -> span f a n = span g b n.
Proof.
  intros H. apply list_eq_same_length with (length (span f a n)); [by rewrite !length_span|done|].
  intros i x y Hi. rewrite length_span in Hi. rewrite !lookup_span by done. intros [= <-] [= <-]. apply H. lia.
Qed.

Lemma span_app f a n m : 0 <= n -> 0 <= m -> span f a (n + m) = span f a n ++ span f (a + n) m.
Proof. intros. unfold span. by rewrite seqZ_app, map_app by lia. Qed.

Lemma take_span f a n k : 0 <= k <= n -> take (Z.to_nat k) (span f a n) = span f a k.
Proof.
  intros Hk. replace n with (k + (n - k)) by lia. rewrite span_app by lia. rewrite take_app_length'; [done|]. by rewrite length_span.
Qed.

Lemma drop_span f a n k : 0 <= k <= n -> drop (Z.to_nat k) (span f a n) = span f (a + k) (n - k).
Proof.
  intros Hk. replace (span f a n) with (span f a (k + (n - k))) by (f_equal; lia). rewrite span_app by lia.
  rewrite drop_app_length'; [done|]. by rewrite length_span.
Qed.

Lemma slice_span f a n off k : 0 <= off -> 0 <= k -> off + k <= n -> slice (span f a n) off k = Got (span f (a + off) k).
Proof.
  intros Ho Hk Hn. unfold slice. rewrite length_span, Z2Nat.id by lia.
  destruct (Z.leb_spec 0 off), (Z.leb_spec 0 k), (Z.leb_spec (off + k) n); try lia. cbn [andb].
  by rewrite drop_span, take_span by lia.
Qed.

Lemma splice_span g n off h a k :
  0 <= off -> 0 <= k -> off + k <= n ->
  splice (span g 0 n) off (span h a k) = Got (span (fun i => if (off <=? i) && (i <? off + k) then h (a + i - off) else g i) 0 n).
Proof.
  intros Ho Hk Hn. unfold splice. rewrite !length_span, !Z2Nat.id by lia.
  destruct (Z.leb_spec 0 off), (Z.leb_spec (off + k) n); try lia. cbn [andb]. f_equal.
  replace (Z.to_nat off + Z.to_nat k)%nat with (Z.to_nat (off + k)) by lia. rewrite take_span, drop_span by lia.
  symmetry. replace n with (off + (k + (n - (off + k)))) at 1 by lia. rewrite !span_app by lia. f_equal; [|f_equal].
  - apply span_ext. intros i Hi. cbn. destruct (Z.leb_spec off (0 + i)); [lia|done].
  - apply span_ext. intros i Hi. destruct (Z.leb_spec off (0 + off + i)), (Z.ltb_spec (0 + off + i) (off + k)); try lia. cbn [andb]. f_equal. lia.
  - apply span_ext. intros i Hi. destruct (Z.ltb_spec (0 + off + k + i) (off + k)); [lia|]. rewrite andb_false_r. done.
Qed.

Lemma zeros_span n : zeros n = span (fun _ => 0) 0 n.
Proof.
  unfold zeros. apply list_eq_same_length with (Z.to_nat n); [by rewrite length_span|by rewrite length_replicate|].
  intros i x y Hi. rewrite lookup_replicate_2, lookup_span by done. congruence.
Qed.

Lemma filter_every {A} (P : A -> Prop) `{forall x, Decision (P x)} (l : list A) : Forall P l -> filter P l = l.
Proof. induction 1 as [|x l Hx _ IH]; [done|]. by rewrite filter_cons_True, IH. Qed.

(** ** Devices *)

Section volume.
(** The bytes of the device, its size, and the device. *)
Context (disk : Z -> Z) (cap : Z) (d : Dev) (part : Z).

(** What UEFI documents of the block protocol: reading whole blocks inside the
    device fills the buffer with them. *)
Record dev_ok : Prop := {
  dv_open : dev_open d = true;
  dv_block : 0 < dev_block_size d;
  dv_sector : dev_block_size d mod 512 = 0;
  dv_cap : cap mod dev_block_size d = 0;
  dv_small : cap < 2 ^ 64;
  dv_part : 0 <= part;
  dv_read : forall lba n, 0 <= lba -> 0 <= n -> n mod dev_block_size d = 0 -> lba * dev_block_size d + n <= cap ->
    dev_read d lba n = Some (span disk (lba * dev_block_size d) n);
}.
Context (Hd : dev_ok).

(** Bytes of the partition. *)
Definition vol (a : Z) : Z := disk (part * 512 + a).

Definition reader_ok (r : SectorReader) : Prop := rdev r = d /\ partition_offset r = part.

Lemma block_in_cap b k : 0 <= b -> 0 < k -> b + k <= cap -> b mod dev_block_size d + k <= dev_block_size d ->
  b / dev_block_size d * dev_block_size d + dev_block_size d <= cap.
Proof. destruct Hd as [_ Hb _ Hc _ _ _]. intros H0 Hk H1 H2. set (bs := dev_block_size d) in *. 
  pose proof (Z.div_mod cap bs ltac:(lia)). pose proof (Z.div_mod b bs ltac:(lia)). pose proof (Z.mod_pos_bound b bs Hb).
  set (q := b / bs) in *. set (c := cap / bs) in *. assert (q < c) by nia. nia.
Qed.

(** A sector read within its block. *)
Lemma read_block b k :
  0 <= b -> 0 < k -> b + k <= cap -> b mod dev_block_size d + k <= dev_block_size d ->
  exists l, dev_read d (b / dev_block_size d) (dev_block_size d) = Some l /\ slice l (b mod dev_block_size d) k = Got (span disk b k).
Proof.
  intros H0 Hk H1 H2. pose proof Hd as [_ Hb _ _ _ _ Hr]. set (bs := dev_block_size d) in *. pose proof (Z.mod_pos_bound b bs Hb).
  eexists. split; [apply Hr; [apply Z.div_pos; lia|lia|apply Z.mod_same; lia|by apply (block_in_cap b k)]|].
  rewrite slice_span by lia. do 2 f_equal. pose proof (Z.div_mod b bs). lia.
Qed.

Lemma sector_in_block s : (s * 512) mod dev_block_size d + 512 <= dev_block_size d.
Proof.
  destruct Hd as [_ Hb Hs _ _ _ _]. set (bs := dev_block_size d) in *. replace bs with (bs / 512 * 512) by div_lia.
  assert (0 < bs / 512) by div_lia. rewrite Z.mul_mod_distr_r by lia. pose proof (Z.mod_pos_bound s (bs / 512)). nia.
Qed.

(** The loop of whole sectors, from sector [i] of [t] on. *)
Lemma sector_loop s n t i acc :
  0 <= s -> 0 <= i <= t -> s * 512 + n <= cap -> 0 < n -> n <= t * 512 -> (t - 1) * 512 < n ->
  fold_out (seqZ i (t - i)) (fun buf k =>
    let b := (s * 512) +u64 k * 512 in
    let+ block_buf := of_option (dev_read d (b / dev_block_size d) (dev_block_size d)) in
    let dst := k * 512 in
    let copy_len := Z.min 512 (n - dst) in
    let+ src := slice block_buf (b mod dev_block_size d) copy_len in
    Got (buf ++ src)) acc = Got (acc ++ span disk (s * 512 + i * 512) (n - i * 512)).
Proof.
  intros Hs Hi Hn Hpos Ht Ht1. remember (Z.to_nat (t - i)) as m eqn:Em. revert i acc Hi Em. induction m as [|m IH]; intros i acc Hi Em.
  - assert (i = t) as -> by lia. replace (t - t) with 0 by lia. cbn [fold_out seqZ].
    assert (span disk (s * 512 + t * 512) (n - t * 512) = []) as ->; [|by rewrite app_nil_r].
    apply nil_length_inv. rewrite length_span. lia.
  - rewrite seqZ_cons by lia. cbn [fold_out]. rewrite (wrap_small 64 (s * 512 + i * 512)) by (destruct Hd; lia).
    replace (s * 512 + i * 512) with ((s + i) * 512) by lia. pose proof (sector_in_block (s + i)) as Hin.
    destruct (read_block ((s + i) * 512) (Z.min 512 (n - i * 512))) as (l & Hl & Hsl); [lia..|].
    rewrite Hl. cbn [of_option obind]. rewrite Hsl. cbn [obind]. replace (Z.pred (t - i)) with (t - Z.succ i) by lia.
    rewrite IH by lia. f_equal. rewrite <- app_assoc. f_equal.
    destruct (Z.le_gt_cases 512 (n - i * 512)).
    + rewrite Z.min_l by lia. replace (n - i * 512) with (512 + (n - Z.succ i * 512)) by lia. rewrite span_app by lia. f_equal. f_equal. lia.
    + rewrite Z.min_r by lia.  assert (n - Z.succ i * 512 <= 0) by lia.
      assert (span disk (s * 512 + Z.succ i * 512) (n - Z.succ i * 512) = []) as ->; [|by rewrite app_nil_r].
      apply nil_length_inv. rewrite length_span. lia.
Qed.

(** [read_ext4_sectors] returns the bytes of the partition. *)
Lemma read_sectors_ok r sector n :
  reader_ok r -> 0 <= sector -> 0 <= n -> (part + sector) * 512 + n <= cap -> read_ext4_sectors r sector n = Got (span vol (sector * 512) n).
Proof.
  intros [Er Ep] Hs Hn Hc. pose proof Hd as [_ Hb Hsec Hcap Hsm Hp Hr]. unfold read_ext4_sectors. destruct (Z.eqb_spec n 0) as [->|]; [done|].
  rewrite Er, Ep. rewrite (wrap_small 64 (part + sector)) by lia. unfold SECTOR_SIZE. rewrite (wrap_small 64 ((part + sector) * 512)) by lia.
  unfold nonzero. destruct (Z.eqb_spec (dev_block_size d) 0); [lia|]. cbn [obind].
  assert (span vol (sector * 512) n = span disk ((part + sector) * 512) n) as -> by (apply span_ext; intros k Hk; unfold vol; f_equal; lia).
  destruct (Z.eqb_spec (dev_block_size d) 512) as [E|E].
  - rewrite E in *. rewrite Z.div_mul by lia. set (al := (n + 512 - 1) / 512 * 512). assert (n <= al < n + 512 /\ al mod 512 = 0) as [Hal Hm] by (unfold al; div_lia).
    rewrite Hr; [|lia|lia|done|div_lia]. cbn [of_option obind]. rewrite slice_span by lia. by rewrite Z.add_0_r.
  - set (t := n / 512 + _). assert (n <= t * 512 /\ (t - 1) * 512 < n) as [Ht Ht1].
    { unfold t. rewrite Z.gtb_ltb. destruct (Z.ltb_spec 0 (n mod 512)); div_lia. }
    pose proof (sector_loop (part + sector) n t 0 [] ltac:(lia) ltac:(lia) Hc ltac:(lia) Ht Ht1) as Hl. rewrite Z.sub_0_r, Z.mul_0_l, Z.add_0_r, Z.sub_0_r in Hl.
    exact Hl.
Qed.

(** ** Inodes *)

Lemma inode_bytes_ok r fuel sector src n :
  reader_ok r -> 0 <= sector -> 0 <= src < 512 -> 0 <= n -> src + n <= Z.of_nat fuel * 512 -> (part + sector) * 512 + src + n + 512 <= cap ->
  inode_bytes fuel r sector src n = Got (span vol (sector * 512 + src) n).
Proof.
  intros Hr. revert sector src n. induction fuel as [|fuel IH]; intros sector src n Hs Hsrc Hn Hf Hc; cbn [inode_bytes];
    (destruct (Z.leb_spec n 0); [by assert (n = 0) as -> by lia|]); [lia|]. unfold SECTOR_SIZE.
  rewrite (read_sectors_ok r sector 512 Hr) by lia. cbn [obind]. rewrite slice_span by lia. cbn [obind].
  destruct Hd as [_ _ _ _ Hsm Hp _]. rewrite (wrap_small 64 (sector + 1)) by lia.
  destruct (Z.le_gt_cases (512 - src) n).
  - rewrite Z.min_l by lia. rewrite IH by lia. cbn [obind]. f_equal. replace n with ((512 - src) + (n - (512 - src))) at 2 by lia.
    rewrite span_app by lia. f_equal. f_equal. lia.
  - rewrite Z.min_r by lia. replace (n - n) with 0 by lia. assert (inode_bytes fuel r (sector + 1) 0 0 = Got []) as -> by by destruct fuel.
    cbn [obind]. by rewrite app_nil_r.
Qed.

(** Where inode [ino] lies on the partition. *)
Definition inode_addr (sb : Superblock) (descs : list BlockGroupDesc) (ino : Z) : option Z :=
  match descs !! Z.to_nat ((ino - 1) / s_inodes_per_group sb) with
  | Some g => Some (bg_inode_table_lo g * block_size_of sb + (ino - 1) mod s_inodes_per_group sb * inode_size_of sb)
  | None => None
  end.

(** Block sizes of ext4: 1 KB to 64 KB. *)
Definition sb_ok (sb : Superblock) : Prop := 0 <= s_log_block_size sb <= 6 /\ 0 < s_inodes_per_group sb /\ 112 <= inode_size_of sb <= 65535.

Lemma block_size_ok sb : sb_ok sb -> exists k, block_size_of sb = 512 * k /\ sectors_per_block sb = k /\ 0 < k <= 128.
Proof.
  intros ((Hl0 & Hl) & _). unfold sectors_per_block, block_size_of. rewrite Z.mod_small by lia.
  exists (2 ^ (s_log_block_size sb + 1)). rewrite Z.shiftl_mul_pow2 by lia. rewrite Z.pow_add_r by lia.
  pose proof (Z.pow_pos_nonneg 2 (s_log_block_size sb)). pose proof (Z.pow_le_mono_r 2 (s_log_block_size sb) 6). rewrite wrap_small by lia.
  split; [lia|]. split; [|lia]. unfold SECTOR_SIZE. replace (1024 * 2 ^ s_log_block_size sb) with (2 ^ s_log_block_size sb * 2 ^ 1 * 512) by lia.
  by rewrite Z.div_mul by lia.
Qed.

Lemma read_inode_ok r sb descs ino a :
  reader_ok r -> sb_ok sb -> 0 < ino -> inode_addr sb descs ino = Some a -> 0 <= a -> (forall g, g ∈ descs -> 0 <= bg_inode_table_lo g) ->
  part * 512 + a + inode_size_of sb + 1024 <= cap ->
  read_inode r sb descs ino = Got (parse_inode (span vol a (inode_size_of sb))).
Proof.
  intros Hr Hsb Hino Ha Ha0 Hg Hc. destruct (block_size_ok sb Hsb) as (k & Hbs & Hsp & Hk). destruct Hsb as (_ & Hi & Hsz).
  unfold read_inode, inode_addr in *. destruct (Z.eqb_spec ino 0); [lia|]. destruct (Z.eqb_spec (s_inodes_per_group sb) 0); [lia|]. cbn [orb].
  destruct (descs !! _) as [g|] eqn:Eg; [|done]. injection Ha as Ha. pose proof (Hg g (list_elem_of_lookup_2 _ _ _ Eg)) as Ht.
  pose proof (Z.mod_pos_bound (ino - 1) (s_inodes_per_group sb) Hi) as Hx. set (x := (ino - 1) mod s_inodes_per_group sb) in *. set (isz := inode_size_of sb) in *.
  set (tb := bg_inode_table_lo g) in *. destruct Hd as [_ _ _ _ Hsm Hp _]. rewrite Hbs in *.
  assert (0 <= x * isz) by lia. assert (0 <= tb * (512 * k)) by lia. rewrite (wrap_small 64 (tb * (512 * k))), (wrap_small 64 (x * isz)) by lia.
  replace (tb * (512 * k) / SECTOR_SIZE) with (tb * k) by (unfold SECTOR_SIZE; div_lia). unfold SECTOR_SIZE.
  assert (x * isz / 512 * 512 + (x * isz) mod 512 = x * isz) by div_lia. pose proof (Z.mod_pos_bound (x * isz) 512). assert (0 <= x * isz / 512) by div_lia.
  rewrite (wrap_small 64 (tb * k + x * isz / 512)) by nia.
  rewrite inode_bytes_ok by (done || nia). cbn [obind]. replace ((tb * k + x * isz / 512) * 512 + (x * isz) mod 512) with a by lia.
  rewrite length_span. destruct (Z.ltb_spec (Z.of_nat (Z.to_nat isz)) 112); [lia|done].
Qed.

(** ** Files made of extents *)

(** [e] holds byte [k] of the file. *)
Definition covers (bs : Z) (e : ExtentEntry) (k : Z) : bool := (ee_block e * bs <=? k) && (k <? (ee_block e + ee_len e) * bs).

(** Byte [k] of the file: from the extent that holds it, or from [g] in a hole. *)
Fixpoint overlay (bs : Z) (l : list ExtentEntry) (g : Z -> Z) (k : Z) : Z :=
  match l with
  | [] => g k
  | e :: l => if covers bs e k then (if ee_start e =? 0 then g k else vol (ee_start e * bs + (k - ee_block e * bs))) else overlay bs l g k
  end.

(** Extents in the order of the file, from block [b] on. *)
Fixpoint sorted_from (b : Z) (l : list ExtentEntry) : Prop :=
  match l with
  | [] => True
  | e :: l => b <= ee_block e /\ 0 <= ee_len e /\ sorted_from (ee_block e + ee_len e) l
  end.

(** The fields are in range and the blocks on the device. *)
Definition extent_ok (bs : Z) (e : ExtentEntry) : Prop :=
  ee_block e < 2 ^ 32 /\ ee_len e < 2 ^ 15 /\ 0 <= ee_start e < 2 ^ 48 /\ part * 512 + (ee_start e + ee_len e) * bs <= cap.

Lemma overlay_below bs b l g k : 0 <= bs -> sorted_from b l -> k < b * bs -> overlay bs l g k = g k.
Proof.
  intros Hbs. revert b. induction l as [|e l IH]; intros b Hs Hk; [done|]. destruct Hs as (Hb & Hl & Hs). cbn [overlay]. unfold covers.
  destruct (Z.leb_spec (ee_block e * bs) k); [nia|]. cbn [andb]. apply (IH _ Hs). nia.
Qed.

Lemma overlay_at bs l g g' k : g k = g' k -> overlay bs l g k = overlay bs l g' k.
Proof. intros Hg. induction l as [|e l IH]; [done|]. cbn [overlay]. rewrite IH, Hg. done. Qed.

Lemma copy_extents_ok r sb l g n b :
  reader_ok r -> sb_ok sb -> 0 <= n < 2 ^ 63 -> 0 <= b -> sorted_from b l -> Forall (extent_ok (block_size_of sb)) l ->
  copy_extents r sb l (span g 0 n) = Got (span (overlay (block_size_of sb) l g) 0 n).
Proof.
  intros Hr Hsb Hn. destruct (block_size_ok sb Hsb) as (k & Hbs & Hsp & Hk). revert g b. induction l as [|e l IH]; intros g b Hb Hs Hl; [done|].
  apply Forall_cons in Hl as [(Hb32 & Hl15 & Hst & Hcap) Hl]. destruct Hs as (Hbe & Hlen & Hs). cbn [copy_extents].
  rewrite Hsp, Hbs in *. set (bs := 512 * k) in *. rewrite length_span, Z2Nat.id by lia.
  rewrite (wrap_small 64 (ee_block e * bs)), (wrap_small 64 (ee_len e * bs)), (wrap_small 64 (ee_start e * k)) by (unfold bs; nia).
  rewrite Z.geb_leb. destruct (Z.leb_spec n (ee_block e * bs)) as [Hout|Hin].
  { f_equal. apply span_ext. intros i Hi. cbn [overlay]. unfold covers. destruct (Z.leb_spec (ee_block e * bs) (0 + i)); [lia|]. cbn [andb].
    symmetry. apply (overlay_below bs (ee_block e + ee_len e)); [unfold bs; lia|done|unfold bs in *; nia]. }
  destruct (Z.eqb_spec (ee_start e) 0) as [E0|E0].
  - rewrite (IH g (ee_block e + ee_len e)) by (done || lia). f_equal. apply span_ext. intros i Hi. cbn [overlay]. unfold covers. rewrite (proj2 (Z.eqb_eq _ _) E0).
    destruct (Z.leb_spec (ee_block e * bs) (0 + i)), (Z.ltb_spec (0 + i) ((ee_block e + ee_len e) * bs)); cbn [andb]; try done.
    by apply (overlay_below bs (ee_block e + ee_len e)); [unfold bs; lia|done|].
  - set (cl := Z.min (ee_len e * bs) (n - ee_block e * bs)). assert (0 <= cl) by (unfold cl, bs in *; nia). assert (cl <= ee_len e * bs) by (unfold cl; lia).
    rewrite (read_sectors_ok r (ee_start e * k) cl Hr) by (unfold bs in *; nia). cbn [obind].
    rewrite splice_span by (unfold cl, bs in *; nia). cbn [obind]. rewrite (IH _ (ee_block e + ee_len e)) by (done || lia). f_equal. apply span_ext. intros i Hi.
    set (i' := 0 + i). cbn [overlay]. unfold covers. rewrite (proj2 (Z.eqb_neq _ _) E0). set (off := ee_block e * bs) in *.
    assert ((i' <? off + cl) = (i' <? (ee_block e + ee_len e) * bs)) as Hcl.
    { destruct (Z.ltb_spec i' (off + cl)), (Z.ltb_spec i' ((ee_block e + ee_len e) * bs)); try done; unfold cl, i', off in *; nia. }
    destruct ((off <=? i') && (i' <? (ee_block e + ee_len e) * bs)) eqn:Ec.
    + pose proof Ec as [_ Hlt%Z.ltb_lt]%andb_prop. rewrite (overlay_below bs (ee_block e + ee_len e)) by (unfold bs; lia || done).
      rewrite Hcl, Ec. f_equal. unfold bs. lia.
    + apply overlay_at. by rewrite Hcl, Ec.
Qed.

(** The bytes of a file of [n] bytes with these extents; holes read as zero. *)
Definition content (bs : Z) (l : list ExtentEntry) (n : Z) : list Z := span (overlay bs l (fun _ => 0)) 0 n.

(** ** Extent trees *)

(** A node of the tree on disk, as [read_extent_block] sees it; this and what follows
    is the view of the loader, which is compared with the format below. *)
Definition node_at (sb : Superblock) (block : Z) : list Z :=
  span vol (block * block_size_of sb) (Z.min (block_size_of sb) 4096) ++ zeros (4096 - Z.min (block_size_of sb) 4096).

(** [raw] is a tree of at most [depth] levels below it, with leaves [l]. *)
Fixpoint ext_tree (sb : Superblock) (depth : nat) (raw : list Z) (l : list ExtentEntry) : Prop :=
  field raw 0 2 = 0xF30A /\
  ((field raw 6 2 = 0 /\ l = map (fun i => extent_at raw (extent_off i)) (extent_indices raw)) \/
   (field raw 6 2 <> 0 /\ match depth with
     | O => False
     | S depth => exists ls, l = concat ls /\ Forall2 (fun i li =>
         let c := child_at raw (extent_off i) in
         0 <= c < 2 ^ 48 /\ part * 512 + (c + 1) * block_size_of sb <= cap /\ ext_tree sb depth (node_at sb c) li) (extent_indices raw) ls
     end)).

Lemma read_extent_block_ok r sb c :
  reader_ok r -> sb_ok sb -> 0 <= c < 2 ^ 48 -> part * 512 + (c + 1) * block_size_of sb <= cap -> read_extent_block r sb c = Got (node_at sb c).
Proof.
  intros Hr Hsb Hc Hcap. destruct (block_size_ok sb Hsb) as (k & Hbs & Hsp & Hk). unfold read_extent_block, node_at. rewrite Hsp, Hbs in *.
  rewrite (wrap_small 64 (c * k)) by nia. rewrite (read_sectors_ok r (c * k) (Z.min (512 * k) 4096) Hr) by nia. cbn [obind].
  rewrite length_span, Z2Nat.id by lia. do 3 f_equal. lia.
Qed.

Lemma fold_children {A} (f : Z -> out (list A)) l ls acc :
  Forall2 (fun i li => f i = Got li) l ls ->
  fold_out l (fun acc i => let+ x := f i in Got (acc ++ x)) acc = Got (acc ++ concat ls).
Proof.
  intros H. revert acc. induction H as [|i li l ls Hi H IH]; intros acc; cbn [fold_out concat]; [by rewrite app_nil_r|].
  rewrite Hi. cbn [obind]. by rewrite IH, app_assoc.
Qed.

Lemma node_extents_ok r sb depth stack raw l :
  reader_ok r -> sb_ok sb -> (depth <= stack)%nat -> ext_tree sb depth raw l -> node_extents stack r sb raw = Got l.
Proof.
  intros Hr Hsb. revert stack raw l. induction depth as [|depth IH]; intros stack raw l Hst (Hm & [[H0 ->]|[H0 Hl]]); try done;
    (destruct stack; [try lia|]); cbn [node_extents]; rewrite (proj2 (Z.eqb_eq _ _) Hm); cbn [negb]; try by rewrite (proj2 (Z.eqb_eq _ _) H0).
  rewrite (proj2 (Z.eqb_neq _ _) H0). destruct Hl as (ls & -> & Hls). change (concat ls) with ([] ++ concat ls).
  rewrite <- (fold_children (fun i => let+ child := read_extent_block r sb (child_at raw (extent_off i)) in node_extents stack r sb child) (extent_indices raw) ls []).
  - generalize (@nil ExtentEntry). induction (extent_indices raw) as [|i js IHi] in Hls, ls |- *; intros acc; [done|].
    cbn [fold_out]. inversion Hls as [|? li ? ls' Hi Hls']; subst. destruct Hi as (Hc & Hcap & Ht). rewrite (read_extent_block_ok r sb _ Hr Hsb Hc Hcap). cbn [obind].
    rewrite (IH stack _ _ ltac:(lia) Ht). cbn [obind]. by eapply IHi.
  - eapply Forall2_impl; [exact Hls|]. intros i li (Hc & Hcap & Ht). rewrite (read_extent_block_ok r sb _ Hr Hsb Hc Hcap). cbn [obind]. apply IH; [lia|done].
Qed.

Lemma bytes_le_le l : Forall (fun b => 0 <= b < 256) l -> bytes_le (length l) (le l) = l.
Proof.
  induction l as [|b l IH]; intros Hl; [done|]. apply Forall_cons in Hl as [Hb Hl]. cbn [length bytes_le le].
  replace ((b + 256 * le l) mod 256) with b by div_lia. replace ((b + 256 * le l) / 256) with (le l) by div_lia. by rewrite IH.
Qed.

(** [i_block] has the bytes it had on disk. *)
Lemma i_block_raw raw :
  Forall (fun b => 0 <= b < 256) raw -> (100 <= length raw)%nat -> i_block_bytes (parse_inode raw) = take 60 (drop 40 raw).
Proof.
  intros Hb Hl. unfold i_block_bytes, parse_inode. cbn [i_block].
  assert (forall m j, (40 + (j + m) * 4 <= length raw)%nat -> map (fun i => field raw (40 + i * 4) 4) (seq j m) ≫= bytes_le 4 = take (m * 4) (drop (40 + j * 4) raw)) as H.
  { induction m as [|m IH]; intros j Hj; [done|]. cbn [seq map mbind list_bind]. rewrite IH by lia.
    assert (bytes_le 4 (field raw (40 + j * 4) 4) = take 4 (drop (40 + j * 4) raw)) as ->.
    { unfold field. assert (length (take 4 (drop (40 + j * 4) raw)) = 4%nat) as E by (rewrite length_take, length_drop; lia).
      rewrite <- E at 1. apply bytes_le_le. by apply Forall_take, Forall_drop. }
    replace (S m * 4)%nat with (4 + m * 4)%nat by lia. rewrite <- take_take_drop. f_equal. rewrite drop_drop. do 2 f_equal. lia. }
  by apply (H 15%nat 0%nat).
Qed.

(** ** Directories *)

(** A directory entry with [pad] bytes after the name. *)
Record DirRec := mkRec { d_inode : Z; d_type : Z; d_name : list Z; d_pad : list Z }.
Definition rec_len_of (e : DirRec) : Z := 8 + Z.of_nat (length (d_name e)) + Z.of_nat (length (d_pad e)).
Definition encode_rec (e : DirRec) : list Z :=
  bytes_le 4 (d_inode e) ++ bytes_le 2 (rec_len_of e) ++ [Z.of_nat (length (d_name e)); d_type e] ++ d_name e ++ d_pad e.
Definition rec_ok (e : DirRec) : Prop := 0 <= d_inode e < 2 ^ 32 /\ rec_len_of e < 2 ^ 16 /\ (length (d_name e) < 256)%nat.
Definition encode_dir (l : list DirRec) : list Z := l ≫= encode_rec.

(** The inode of the first entry in use with the name, 0 if there is none. *)
Fixpoint dir_find (l : list DirRec) (name : list Z) : Z :=
  match l with
  | [] => 0
  | e :: l => if negb (d_inode e =? 0) && bool_decide (d_name e = name) then d_inode e else dir_find l name
  end.

Lemma length_encode_rec e : Z.of_nat (length (encode_rec e)) = rec_len_of e.
Proof. unfold encode_rec, rec_len_of. rewrite !length_app, !length_bytes_le. cbn [length]. lia. Qed.

(** A field in the middle of a list. *)
Lemma field_mid pre x post k o n : k = Z.of_nat (length pre) -> (o + n <= length x)%nat ->
  field (pre ++ x ++ post) (Z.to_nat (k + Z.of_nat o)) n = le (take n (drop o x)).
Proof.
  intros -> Hn. unfold field. replace (Z.to_nat (Z.of_nat (length pre) + Z.of_nat o)) with (length pre + o)%nat by lia.
  rewrite <- drop_drop, drop_app_length, drop_app_le, take_app_le by (rewrite ?length_drop; lia). done.
Qed.

Lemma encode_fields e : rec_ok e ->
  le (take 4 (drop 0 (encode_rec e))) = d_inode e /\ le (take 2 (drop 4 (encode_rec e))) = rec_len_of e /\
  le (take 1 (drop 6 (encode_rec e))) = Z.of_nat (length (d_name e)) /\
  take (length (d_name e)) (drop 8 (encode_rec e)) = d_name e.
Proof.
  intros (Hi & Hr & Hn). assert (0 <= rec_len_of e) by (unfold rec_len_of; lia). unfold encode_rec. split_and!.
  - rewrite drop_0, take_app_length' by by rewrite length_bytes_le. by rewrite le_bytes_of.
  - rewrite drop_app_length', take_app_length' by by rewrite length_bytes_le. by rewrite le_bytes_of.
  - rewrite (drop_app_ge _ _ 6), (drop_app_ge _ _ (6 - _)) by (rewrite !length_bytes_le; lia). rewrite !length_bytes_le. cbn. lia.
  - rewrite (drop_app_ge _ _ 8), (drop_app_ge _ _ (8 - _)) by (rewrite !length_bytes_le; lia). rewrite !length_bytes_le. cbn [Nat.sub drop app].
    by rewrite drop_0, take_app_length.
Qed.

Lemma find_entry_step fuel pre e post name :
  rec_ok e ->
  find_entry (S fuel) (pre ++ encode_rec e ++ post) name (Z.of_nat (length pre)) =
  if negb (d_inode e =? 0) && bool_decide (d_name e = name) then d_inode e
  else find_entry fuel ((pre ++ encode_rec e) ++ post) name (Z.of_nat (length (pre ++ encode_rec e))).
Proof.
  intros He. destruct (encode_fields e He) as (F1 & F2 & F3 & F4). pose proof (length_encode_rec e) as Hl.
  assert (8 + length (d_name e) + length (d_pad e) = length (encode_rec e))%nat as Hl' by (unfold rec_len_of in Hl; lia). cbn [find_entry].
  rewrite !length_app. set (k := Z.of_nat (length pre)). rewrite (proj2 (Z.leb_le (k + 8) _)) by lia.
  pose proof (field_mid pre (encode_rec e) post k 0 4 eq_refl ltac:(lia)) as E1. pose proof (field_mid pre (encode_rec e) post k 4 2 eq_refl ltac:(lia)) as E2.
  pose proof (field_mid pre (encode_rec e) post k 6 1 eq_refl ltac:(lia)) as E3.
  change (Z.of_nat 0) with 0 in E1. change (Z.of_nat 4) with 4 in E2. change (Z.of_nat 6) with 6 in E3.
  rewrite E1, E2, E3, F1, F2, F3. destruct (Z.eqb_spec (rec_len_of e) 0); [unfold rec_len_of in *; lia|].
  rewrite (proj2 (Z.leb_le (k + 8 + Z.of_nat (length (d_name e))) _)) by lia.
  assert (take (Z.to_nat (Z.of_nat (length (d_name e)))) (drop (Z.to_nat (k + 8)) (pre ++ encode_rec e ++ post)) = d_name e) as ->.
  { rewrite Nat2Z.id. unfold k. replace (Z.to_nat (Z.of_nat (length pre) + 8)) with (length pre + 8)%nat by lia.
    rewrite <- drop_drop, drop_app_length, drop_app_le, take_app_le by (rewrite ?length_drop; lia). exact F4. }
  rewrite andb_true_r. destruct (negb _ && _); [done|]. rewrite <- app_assoc. f_equal. lia.
Qed.

(** Looking a name up in the bytes of a directory finds the first entry in use
    with that name. *)
Lemma find_entry_ok l name fuel :
  Forall rec_ok l -> (length l < fuel)%nat -> find_entry fuel (encode_dir l) name 0 = dir_find l name.
Proof.
  intros Hl. change (encode_dir l) with ([] ++ encode_dir l). change 0 with (Z.of_nat (@length Z [])). generalize (@nil Z). revert fuel.
  induction l as [|e l IH]; intros fuel pre Hf; (destruct fuel as [|fuel]; [cbn in Hf; lia|]).
  - cbn [find_entry encode_dir mbind list_bind]. rewrite app_nil_r. by destruct (Z.leb_spec (Z.of_nat (length pre) + 8) (Z.of_nat (length pre))); [lia|].
  - apply Forall_cons in Hl as [He Hl]. change (encode_dir (e :: l)) with (encode_rec e ++ encode_dir l). rewrite find_entry_step by done.
    cbn [dir_find]. destruct (negb _ && _); [done|]. apply (IH Hl). cbn in Hf. lia.
Qed.

Lemma encode_dir_length l : (length l <= length (encode_dir l))%nat /\ (l <> [] -> (length l < length (encode_dir l))%nat).
Proof.
  induction l as [|e l [IH _]]; [done|]. change (encode_dir (e :: l)) with (encode_rec e ++ encode_dir l). rewrite length_app.
  pose proof (length_encode_rec e) as H. unfold rec_len_of in H. cbn [length]. lia.
Qed.

(** ** Whole files *)

Context (Hbyte : forall a, 0 <= disk a < 256).

Lemma vol_bytes a n : Forall (fun b => 0 <= b < 256) (span vol a n).
Proof. apply Forall_fmap, Forall_forall. intros x _. apply Hbyte. Qed.

(** The loader sees in inode [ino] a file with these bytes: its extents form a tree
    of at most [depth] levels below the inode, in the order of the file. *)
Definition file_on_disk (sb : Superblock) (descs : list BlockGroupDesc) (depth : nat) (ino : Z) (data : list Z) : Prop :=
  exists a exts, let raw := span vol a (inode_size_of sb) in let i := parse_inode raw in
    inode_addr sb descs ino = Some a /\ 0 <= a /\ part * 512 + a + inode_size_of sb + 1024 <= cap /\
    Z.land (i_flags i) EXT4_EXTENTS_FL <> 0 /\ ext_tree sb depth (take 60 (drop 40 raw)) exts /\
    sorted_from 0 exts /\ Forall (extent_ok (block_size_of sb)) exts /\ file_size_of i < 2 ^ 63 /\
    data = content (block_size_of sb) exts (file_size_of i).

Lemma read_file_ok r sb descs depth stack ino data :
  reader_ok r -> sb_ok sb -> (depth <= stack)%nat -> 0 < ino -> (forall g, g ∈ descs -> 0 <= bg_inode_table_lo g) -> file_on_disk sb descs depth ino data ->
  exists i, read_inode r sb descs ino = Got i /\ read_file stack r sb i = Got data.
Proof.
  intros Hr Hsb Hst Hino Hg (a & exts & Ha & Ha0 & Hc & Hfl & Ht & Hs & Hex & Hsz & ->). set (raw := span vol a (inode_size_of sb)) in *.
  exists (parse_inode raw). split; [by apply read_inode_ok|]. unfold read_file, read_file_into. rewrite (proj2 (Z.eqb_neq _ _) Hfl). cbn [negb].
  assert (100 <= length raw)%nat as Hlen by (unfold raw; rewrite length_span; destruct Hsb as (_ & _ & ?); lia). pose proof (vol_bytes a (inode_size_of sb)) as Hb.
  unfold parse_extents. rewrite (i_block_raw raw Hb Hlen), (node_extents_ok r sb depth stack _ exts) by done. rewrite zeros_span.
  apply (copy_extents_ok r sb exts _ _ 0); try done. split; [|done]. unfold file_size_of. apply Z.lor_nonneg. split; [apply Z.shiftl_nonneg|]; apply field_bound; exact Hb.
Qed.

(** The group descriptors, as the loader parses them. *)
Definition group_table (sb : Superblock) : list BlockGroupDesc :=
  let num_groups := (s_blocks_count_lo sb + s_blocks_per_group sb - 1) / s_blocks_per_group sb in
  let is64 := negb (Z.land (s_feature_ro_compat sb) EXT4_FEATURE_RO_COMPAT_64BIT =? 0) in
  let entry_size := if is64 then EXT4_64BIT_BGDT_SIZE else EXT4_32BIT_BGDT_SIZE in
  let first := (if s_log_block_size sb =? 0 then 2 else 1) * block_size_of sb in
  parse_bgdt (span vol first ((num_groups * entry_size + 511) / 512 * 512)) is64 entry_size num_groups.

(** The table lies on the device. *)
Definition groups_ok (sb : Superblock) : Prop :=
  0 < s_blocks_per_group sb /\
  part * 512 + 2 * block_size_of sb + (s_blocks_count_lo sb + s_blocks_per_group sb) / s_blocks_per_group sb * 64 + 512 <= cap.

Lemma group_table_nonneg sb g : g ∈ group_table sb -> 0 <= bg_inode_table_lo g.
Proof.
  unfold group_table, parse_bgdt. intros (i & -> & _)%list_elem_of_fmap. destruct (_ >? _); [done|]. cbn [bg_inode_table_lo parse_bgd]. apply wrap_bound. lia.
Qed.

Lemma sb_count raw : s_blocks_count_lo (parse_superblock raw) = field raw 4 4.
Proof. unfold parse_superblock. by destruct (_ >=? 1). Qed.

Lemma mount_ok r :
  reader_ok r -> part * 512 + 2048 <= cap ->
  let sb := parse_superblock (span vol 1024 512) in
  s_magic sb = SB_MAGIC -> sb_ok sb -> groups_ok sb -> mount r = Got (sb, group_table sb).
Proof.
  intros Hr Hc sb Hm Hsb [Hg Hgc]. destruct (block_size_ok sb Hsb) as (k & Hbs & _ & Hk). unfold mount. change (SB_OFFSET / SECTOR_SIZE) with 2. change SECTOR_SIZE with 512.
  rewrite (read_sectors_ok r 2 512 Hr) by lia. cbn [obind]. change (2 * 512) with 1024. fold sb. rewrite (proj2 (Z.eqb_eq _ _) Hm). cbn [negb].
  unfold nonzero. destruct (Z.eqb_spec (s_blocks_per_group sb) 0); [lia|]. cbn [obind]. unfold group_table. set (is64 := negb _). set (ng := _ / s_blocks_per_group sb).
  assert (0 <= s_blocks_count_lo sb) as Hc0 by (unfold sb; rewrite sb_count; apply field_bound, vol_bytes).
  assert (0 <= ng <= (s_blocks_count_lo sb + s_blocks_per_group sb) / s_blocks_per_group sb) as Hng.
  { split; [apply Z.div_pos; lia|apply Z.div_le_mono; lia]. }
  set (es := if is64 then _ else _). assert (32 <= es <= 64) as Hes by (unfold es; destruct is64; done). set (fb := if s_log_block_size sb =? 0 then 2 else 1).
  assert (1 <= fb <= 2) as Hfb by (unfold fb; destruct (s_log_block_size sb =? 0); lia). clearbody ng es fb. rewrite Hbs in *.
  rewrite (wrap_small 64 (fb * (512 * k))) by nia. replace (fb * (512 * k) / 512) with (fb * k) by div_lia. replace (ng * es + 512 - 1) with (ng * es + 511) by lia.
  rewrite (read_sectors_ok r (fb * k) _ Hr); [|nia|apply Z.mul_nonneg_nonneg; [apply Z.div_pos; nia|lia]|]. 2:{ assert ((ng * es + 511) / 512 * 512 <= ng * es + 511) by div_lia. nia. }
  cbn [obind]. do 4 f_equal. lia.
Qed.

(** ** The format of ext4

    What the documentation of ext4 says of the bytes of a volume, without the
    loader's parsers. *)

(** The number of [n] bytes at [a]. *)
Definition num_at (a n : Z) : Z := le (span vol a n).

(** Block size, inode size, inodes per group, 64-bit descriptors (an incompatible
    feature), size and place of the descriptors, and the inode table of a group. *)
Definition x_bs : Z := 1024 * 2 ^ num_at 1048 4.
Definition x_isz : Z := if num_at 1100 4 =? 0 then 128 else num_at 1112 2.
Definition x_ipg : Z := num_at 1064 4.
Definition x_64 : bool := Z.testbit (num_at 1120 4) 7.
Definition x_desc : Z := if x_64 then num_at 1278 2 else 32.
Definition x_gdt : Z := (num_at 1044 4 + 1) * x_bs.
Definition x_table (g : Z) : Z :=
  num_at (x_gdt + g * x_desc + 8) 4 + (if x_64 then 2 ^ 32 * num_at (x_gdt + g * x_desc + 40) 4 else 0).
Definition x_group (ino : Z) : Z := (ino - 1) / x_ipg.
Definition x_inode (ino : Z) : Z := x_table (x_group ino) * x_bs + (ino - 1) mod x_ipg * x_isz.
Definition x_size (ino : Z) : Z := num_at (x_inode ino + 4) 4 + 2 ^ 32 * num_at (x_inode ino + 108) 4.

(** A volume: the magic number, a block size of 1 to 64 KB, the first data block that
    goes with it, and no feature that changes the layout beyond file types,
    extents, 64-bit descriptors, flexible groups and a checksum seed. *)
Record ext4_volume : Prop := {
  xv_magic : num_at 1080 2 = 0xEF53;
  xv_log : num_at 1048 4 <= 6;
  xv_ipg : 0 < x_ipg;
  xv_isz : 112 <= x_isz;
  xv_bpg : 0 < num_at 1056 4;
  xv_first : num_at 1044 4 = if num_at 1048 4 =? 0 then 1 else 0;
  xv_features : forall i, Z.testbit (num_at 1120 4) i = true -> i ∈ [1; 6; 7; 9; 13];
  xv_table : part * 512 + 2 * x_bs + (num_at 1028 4 + num_at 1056 4) / num_at 1056 4 * 64 + 512 <= cap;
}.

(** An extent: a length over 0x8000 is that of an extent not yet written. *)
Record Ext := mkExt { x_block : Z; x_len : Z; x_unwritten : bool; x_start : Z }.
Definition ext_at (a : Z) : Ext :=
  let v := num_at (a + 4) 2 in
  mkExt (num_at a 4) (if v <=? 0x8000 then v else v - 0x8000) (0x8000 <? v) (num_at (a + 8) 4 + 2 ^ 32 * num_at (a + 6) 2).

(** The node at [a] in [room] bytes is the root of a tree with [depth] levels below it
    and these extents; no node has entries beyond [limit] bytes. *)
Fixpoint x_tree (limit : Z) (depth : nat) (a room : Z) (l : list Ext) : Prop :=
  let n := num_at (a + 2) 2 in
  num_at a 2 = 0xF30A /\ num_at (a + 6) 2 = Z.of_nat depth /\ 12 + 12 * n <= Z.min room limit /\
  match depth with
  | O => l = map (fun i => ext_at (a + 12 + 12 * i)) (seqZ 0 n)
  | S depth => exists ls, l = concat ls /\ Forall2 (fun i li =>
      let e := a + 12 + 12 * i in let c := num_at (e + 4) 4 + 2 ^ 32 * num_at (e + 8) 2 in
      part * 512 + (c + 1) * x_bs <= cap /\ x_tree limit depth (c * x_bs) x_bs li) (seqZ 0 n) ls
  end.

(** Byte [k] of a file: from the extent that holds it; zero in a hole and in an
    extent not yet written. *)
Fixpoint x_byte (l : list Ext) (k : Z) : Z :=
  match l with
  | [] => 0
  | e :: l =>
    if (x_block e * x_bs <=? k) && (k <? (x_block e + x_len e) * x_bs)
    then if x_unwritten e then 0 else vol (x_start e * x_bs + (k - x_block e * x_bs)) else x_byte l k
  end.

(** Extents follow each other in the file, from block [b] on, and lie on the device
    behind the superblock. *)
Fixpoint x_extents (b : Z) (l : list Ext) : Prop :=
  match l with
  | [] => True
  | e :: l => b <= x_block e /\ 0 < x_start e /\ part * 512 + (x_start e + x_len e) * x_bs <= cap /\ x_extents (x_block e + x_len e) l
  end.

(** Inode [ino] describes a file in these extents, in a tree whose nodes have no
    entries beyond [limit] bytes. *)
Definition x_file (limit : Z) (depth : nat) (ino : Z) (l : list Ext) : Prop :=
  0 < ino /\ x_group ino < (num_at 1028 4 + num_at 1056 4 - 1) / num_at 1056 4 /\
  part * 512 + x_inode ino + x_isz + 1024 <= cap /\ Z.testbit (num_at (x_inode ino + 32) 4) 19 = true /\
  x_tree limit depth (x_inode ino + 40) 60 l /\ x_extents 0 l /\ x_size ino < 2 ^ 63.
Definition x_data (ino : Z) (l : list Ext) : list Z := span (x_byte l) 0 (x_size ino).

(** What the loader can read: the descriptor of the inode's group, which must be the
    first unless descriptors have 32 bytes and bit 7 of the read-only compatible
    features, which the loader takes for the 64-bit feature, is clear; and
    extents that are written and shorter than 0x8000 blocks. *)
Definition group_read (g : Z) : Prop :=
  x_table g < 2 ^ 32 /\ (g = 0 \/ (x_64 = false /\ Z.testbit (num_at 1124 4) 7 = false)).
Definition extent_read (e : Ext) : Prop := x_unwritten e = false /\ x_len e < 0x8000.

(** ** The loader's view is the format *)

Lemma num_at_bound a n : 0 <= n -> 0 <= num_at a n < 256 ^ n.
Proof. intros Hn. unfold num_at. pose proof (le_bound _ (vol_bytes a n)) as H. by rewrite length_span, Z2Nat.id in H by done. Qed.

(** Fields of a list that begins with bytes of the volume. *)
Definition holds (raw : list Z) (a n : Z) : Prop := exists rest, raw = span vol a n ++ rest.

Lemma holds_field raw a n o k : holds raw a n -> 0 <= o -> o + Z.of_nat k <= n -> field raw (Z.to_nat o) k = num_at (a + o) (Z.of_nat k).
Proof.
  intros [rest ->] Ho Hk. unfold field, num_at. f_equal. rewrite drop_app_le, take_app_le by (rewrite ?length_drop, length_span; lia).
  rewrite drop_span by lia. rewrite <- (Nat2Z.id k) at 1. by rewrite take_span by lia.
Qed.

Lemma holds_span a n m : 0 <= m <= n -> holds (span vol a n) a m.
Proof. intros Hm. exists (span vol (a + m) (n - m)). rewrite <- span_app by lia. f_equal. lia. Qed.

Section format.
Context (Hvol : ext4_volume).
Local Notation sb := (parse_superblock (span vol 1024 512)).

(** A field of the superblock. *)
Lemma sb_field o k : 0 <= o -> o + Z.of_nat k <= 512 -> field (span vol 1024 512) (Z.to_nat o) k = num_at (1024 + o) (Z.of_nat k).
Proof. intros Ho Hk. apply (holds_field _ 1024 512); [apply holds_span; lia|done|done]. Qed.

Lemma sb_parsed :
  s_magic sb = num_at 1080 2 /\ s_log_block_size sb = num_at 1048 4 /\ s_inodes_per_group sb = x_ipg /\ s_blocks_per_group sb = num_at 1056 4 /\
  s_blocks_count_lo sb = num_at 1028 4 /\ s_rev_level sb = num_at 1100 4 /\
  (if num_at 1100 4 =? 0 then s_feature_ro_compat sb = 0 else s_inode_size sb = num_at 1112 2 /\ s_feature_ro_compat sb = num_at 1124 4).
Proof using Hbyte.
  pose proof (num_at_bound 1100 4 ltac:(lia)) as Hrev.
  assert (forall o k, 0 <= o -> o + Z.of_nat k <= 512 -> field (span vol 1024 512) (Z.to_nat o) k = num_at (1024 + o) (Z.of_nat k)) as F by apply sb_field.
  unfold parse_superblock, x_ipg.
  change (field (span vol 1024 512) 76 4) with (field (span vol 1024 512) (Z.to_nat 76) 4). rewrite (F 76 4%nat) by (cbn; lia).
  change (1024 + 76) with 1100. change (Z.of_nat 4) with 4. rewrite Z.geb_leb.
  destruct (Z.eqb_spec (num_at 1100 4) 0) as [E|E], (Z.leb_spec 1 (num_at 1100 4)); try lia; cbn;
    split_and!; try done; first [exact (F 56 2%nat ltac:(lia) ltac:(cbn; lia))|exact (F 24 4%nat ltac:(lia) ltac:(cbn; lia))|exact (F 40 4%nat ltac:(lia) ltac:(cbn; lia))|
      exact (F 32 4%nat ltac:(lia) ltac:(cbn; lia))|exact (F 4 4%nat ltac:(lia) ltac:(cbn; lia))|exact (F 88 2%nat ltac:(lia) ltac:(cbn; lia))|exact (F 100 4%nat ltac:(lia) ltac:(cbn; lia))].
Qed.
Lemma sb_values : sb_ok sb /\ block_size_of sb = x_bs /\ inode_size_of sb = x_isz /\ groups_ok sb /\ s_magic sb = SB_MAGIC.
Proof using Hbyte Hvol.
  destruct Hvol as [Hmag Hlog Hipg Hisz Hbpg _ _ Htab]. destruct sb_parsed as (E1 & E2 & E3 & E4 & E5 & E6 & E7).
  pose proof (num_at_bound 1048 4 ltac:(lia)) as Hl0. pose proof (num_at_bound 1112 2 ltac:(lia)) as Hi0. pose proof (num_at_bound 1100 4 ltac:(lia)) as Hr0.
  assert (block_size_of sb = x_bs) as Hbs.
  { unfold block_size_of, x_bs. rewrite E2, Z.mod_small by lia. rewrite Z.shiftl_mul_pow2 by lia. apply wrap_small.
    pose proof (Z.pow_le_mono_r 2 (num_at 1048 4) 6 ltac:(lia) Hlog). pose proof (Z.pow_pos_nonneg 2 (num_at 1048 4)). lia. }
  assert (inode_size_of sb = x_isz) as Hsz.
  { unfold inode_size_of, x_isz in *. rewrite E6, Z.geb_leb. destruct (Z.eqb_spec (num_at 1100 4) 0) as [E|E]; destruct (Z.leb_spec 1 (num_at 1100 4)); try lia; [done|].
    destruct E7 as [-> _]. by destruct (Z.eqb_spec (num_at 1112 2) 0); [lia|]. }
  split; [|split; [done|split; [done|split; [split; rewrite ?E4, ?E5, ?Hbs; done|by rewrite E1]]]].
  unfold sb_ok. rewrite E2, E3, Hsz. split; [lia|]. split; [done|]. split; [done|]. unfold x_isz. destruct (_ =? 0); lia.
Qed.

Lemma gdt_place : (if s_log_block_size sb =? 0 then 2 else 1) * block_size_of sb = x_gdt.
Proof using Hbyte Hvol.
  destruct sb_values as (_ & -> & _). destruct sb_parsed as (_ & -> & _). unfold x_gdt. rewrite (xv_first Hvol). by destruct (num_at 1048 4 =? 0).
Qed.

(** The inode table of a group that the loader reads right. *)
Lemma table_seen g :
  group_read g -> 0 <= g < (num_at 1028 4 + num_at 1056 4 - 1) / num_at 1056 4 ->
  exists desc, group_table sb !! Z.to_nat g = Some desc /\ bg_inode_table_lo desc = x_table g.
Proof using Hbyte Hvol.
  intros [Hlt Hg] Hrange. unfold group_table. cbv zeta. rewrite gdt_place. destruct sb_parsed as (_ & _ & _ & E4 & E5 & _ & E7). rewrite E4, E5.
  set (ng := (_ - 1) / _) in *. set (is64 := negb _). set (es := if is64 then _ else _). set (raw := span vol x_gdt _). unfold parse_bgdt.
  rewrite list_lookup_fmap, lookup_seqZ_lt by lia. cbn [fmap option_fmap option_map]. rewrite Z.add_0_l, Z2Nat.id by lia.
  assert (32 <= es <= 64) as Hes by (unfold es; destruct is64; done). assert (length raw = Z.to_nat ((ng * es + 511) / 512 * 512)) as Hlen by apply length_span.
  assert (g * es + es <= (ng * es + 511) / 512 * 512) as Hfit by (assert ((g + 1) * es <= ng * es) by nia; div_lia).
  rewrite Z.gtb_ltb, (proj2 (Z.ltb_ge _ _)) by (rewrite Hlen; lia). eexists. split; [reflexivity|]. cbn [bg_inode_table_lo parse_bgd].
  assert (field raw (Z.to_nat (g * es + 8)) 4 = num_at (x_gdt + g * x_desc + 8) 4) as ->.
  { unfold raw. rewrite (holds_field _ x_gdt ((ng * es + 511) / 512 * 512)) by (lia || apply holds_span; lia). change (Z.of_nat 4) with 4. f_equal.
    destruct Hg as [->|[H64 Hro]]; [lia|]. unfold x_desc. rewrite H64. assert (es = 32) as ->; [|lia]. unfold es, is64.
    destruct (num_at 1100 4 =? 0); [by rewrite E7|]. destruct E7 as [_ ->]. unfold EXT4_FEATURE_RO_COMPAT_64BIT.
    assert (Z.land (num_at 1124 4) 0x80 = 0) as ->; [|done]. apply Z.bits_inj'. intros n Hn. rewrite Z.land_spec, Z.bits_0. change 0x80 with (2 ^ 7).
    destruct (Z.eq_dec n 7) as [->|Hne]; [by rewrite Hro|]. rewrite Z.pow2_bits_false by lia. apply andb_false_r. }
  pose proof (num_at_bound (x_gdt + g * x_desc + 8) 4 ltac:(lia)) as Hb.
  assert (x_table g = num_at (x_gdt + g * x_desc + 8) 4) as ->.
  { unfold x_table in *. destruct x_64; [|lia]. pose proof (num_at_bound (x_gdt + g * x_desc + 40) 4 ltac:(lia)). lia. }
  set (v := num_at _ 4) in *. rewrite Z.lor_comm. destruct (is64 && _); [rewrite lor_high by lia|rewrite Z.lor_0_r; by apply wrap_small].
  unfold wrap. rewrite Z_mod_plus_full. by apply Z.mod_small.
Qed.

(** An extent, as the loader parses it. *)
Definition seen (e : Ext) : ExtentEntry := mkExtent (x_block e) (x_len e) (x_start e).

Lemma extent_seen raw a n o : holds raw a n -> 0 <= o -> o + 12 <= n -> extent_read (ext_at (a + o)) -> extent_at raw o = seen (ext_at (a + o)).
Proof using Hbyte.
  intros Hh Ho Hn [Hw Hl]. unfold extent_at, seen, ext_at in *. cbn [x_unwritten x_len x_block x_start] in *.
  rewrite (holds_field raw a n (o + 0)), (holds_field raw a n (o + 4)), (holds_field raw a n (o + 6)), (holds_field raw a n (o + 8)) by (done || lia).
  rewrite !Z.add_assoc, Z.add_0_r. change (Z.of_nat 4) with 4. change (Z.of_nat 2) with 2. set (v := num_at (a + o + 4) 2) in *. pose proof (num_at_bound (a + o + 4) 2 ltac:(lia)) as Hv. fold v in Hv.
  destruct (Z.ltb_spec 0x8000 v); [done|]. rewrite (proj2 (Z.leb_le v 0x8000)) in * by lia. f_equal.
  - change 0x7FFF with (Z.ones 15). rewrite Z.land_ones by lia. apply Z.mod_small. lia.
  - pose proof (num_at_bound (a + o + 8) 4 ltac:(lia)). rewrite Z.lor_comm, lor_high by lia. lia.
Qed.

Lemma indices_seen raw a n : holds raw a n -> 12 + 12 * num_at (a + 2) 2 <= n -> extent_indices raw = seqZ 0 (num_at (a + 2) 2).
Proof using Hbyte.
  intros Hh Hn. unfold extent_indices. pose proof (num_at_bound (a + 2) 2 ltac:(lia)) as Hb.
  pose proof (holds_field raw a n 2 2 Hh ltac:(lia) ltac:(lia)) as E. change (Z.to_nat 2) with 2%nat in E. change (Z.of_nat 2) with 2 in E. rewrite E.
  apply filter_every. apply Forall_forall. intros i Hi%elem_of_seqZ. unfold extent_off, EXTENT_HEADER_SIZE, EXTENT_ENTRY_SIZE.
  destruct Hh as [rest ->]. rewrite length_app, length_span. lia.
Qed.

Lemma child_seen raw a n o : holds raw a n -> 0 <= o -> o + 12 <= n -> child_at raw o = num_at (a + o + 4) 4 + 2 ^ 32 * num_at (a + o + 8) 2.
Proof using Hbyte.
  intros Hh Ho Hn. unfold child_at. rewrite (holds_field raw a n (o + 4)), (holds_field raw a n (o + 8)) by (done || lia).
  rewrite !Z.add_assoc. change (Z.of_nat 4) with 4. change (Z.of_nat 2) with 2. pose proof (num_at_bound (a + o + 4) 4 ltac:(lia)). rewrite Z.lor_comm, lor_high by lia. lia.
Qed.

Lemma tree_seen depth : forall a room raw l,
  x_tree 4096 depth a room l -> Forall extent_read l -> holds raw a (Z.min room 4096) -> ext_tree sb depth raw (map seen l).
Proof using Hbyte Hvol.
  destruct sb_values as (Hsb & Hbs & _). destruct (block_size_ok sb Hsb) as (bk & Hbk & _ & Hbk2).
  induction depth as [|depth IH]; intros a room raw l (Hm & Hd0 & Hn & Hl) Hr Hh; set (n := num_at (a + 2) 2) in *; cbn [ext_tree];
    (assert (0 <= n) by (apply num_at_bound; lia));
    (pose proof (holds_field raw a _ 0 2 Hh ltac:(lia) ltac:(lia)) as F0; pose proof (holds_field raw a _ 6 2 Hh ltac:(lia) ltac:(lia)) as F6;
     rewrite Z.add_0_r in F0; change (Z.to_nat 0) with 0%nat in F0; change (Z.to_nat 6) with 6%nat in F6; change (Z.of_nat 2) with 2 in F0, F6;
     rewrite F0, F6, Hd0, (indices_seen raw a (Z.min room 4096) Hh Hn); fold n; split; [exact Hm|]).
  - left. split; [done|]. subst l. rewrite map_map. rewrite Forall_map, Forall_forall in Hr. apply map_ext_in. intros i Hi%list_elem_of_In. symmetry.
    pose proof (Hr i Hi) as Hri. apply elem_of_seqZ in Hi. unfold extent_off, EXTENT_HEADER_SIZE, EXTENT_ENTRY_SIZE.
    replace (a + 12 + 12 * i) with (a + (12 + i * 12)) in Hri |- * by lia. eapply extent_seen; [exact Hh|lia|lia|exact Hri].
  - right. split; [lia|]. destruct Hl as (ls & -> & Hls). exists (map (map seen) ls). split; [apply concat_map|].
    apply Forall2_fmap_r. assert (Forall (fun li => Forall extent_read li) ls) as Hr' by by apply Forall_concat.
    revert Hls Hr'.
    assert (Forall (fun i => 0 <= i < n) (seqZ 0 n)) as Hin by (apply Forall_forall; intros i Hi%elem_of_seqZ; lia). revert Hin. generalize (seqZ 0 n).
    intros js Hin Hls. induction Hls as [|i li js ls Hi _ IHls]; intros Hr'; [constructor|].
    apply Forall_cons in Hin as [Hin0 Hin]. apply Forall_cons in Hr' as [Hr0 Hr']. constructor; [|apply IHls; try done; cbn in Hr; by apply Forall_app in Hr as [_ Hr]].
    cbv zeta. unfold extent_off, EXTENT_HEADER_SIZE, EXTENT_ENTRY_SIZE. rewrite (child_seen raw a (Z.min room 4096)) by (done || lia).
    replace (a + (12 + i * 12)) with (a + 12 + 12 * i) by lia. destruct Hi as [Hc Ht]. set (c := _ + 2 ^ 32 * _) in *.
    assert (0 <= c < 2 ^ 48) as Hc0.
    { unfold c. pose proof (num_at_bound (a + 12 + 12 * i + 4) 4 ltac:(lia)). pose proof (num_at_bound (a + 12 + 12 * i + 8) 2 ltac:(lia)). lia. }
    split; [done|]. rewrite Hbs. split; [done|]. apply (IH (c * x_bs) x_bs); [done|done|]. unfold node_at. rewrite Hbs. by eexists.
Qed.

Lemma extents_seen b l : Forall extent_read l -> x_extents b l -> Forall (fun e => exists a, e = ext_at a) l ->
  sorted_from b (map seen l) /\ Forall (extent_ok (block_size_of sb)) (map seen l).
Proof using Hbyte Hvol.
  destruct sb_values as (_ & Hbs & _). rewrite Hbs. intros Hr. revert b. induction Hr as [|e l [_ Hl] _ IH]; intros b Hx Ha; [done|].
  destruct Hx as (Hb & Hs & Hc & Hx). apply Forall_cons in Ha as [[a ->] Ha]. destruct (IH _ Hx Ha) as [IH1 IH2].
  pose proof (num_at_bound a 4 ltac:(lia)). pose proof (num_at_bound (a + 4) 2 ltac:(lia)). pose proof (num_at_bound (a + 6) 2 ltac:(lia)). pose proof (num_at_bound (a + 8) 4 ltac:(lia)).
  assert (0 <= x_len (ext_at a)) by (unfold ext_at; cbn [x_len]; destruct (Z.leb_spec (num_at (a + 4) 2) 0x8000); lia).
  split; [by split_and!|]. constructor; [|done]. split_and!; cbn [seen ee_block ee_len ee_start]; try done; unfold ext_at in *; cbn [x_block x_start] in *; lia.
Qed.

Lemma tree_extents limit depth : forall a room l, x_tree limit depth a room l -> Forall (fun e => exists a, e = ext_at a) l.
Proof using Type.
  induction depth as [|depth IH]; intros a room l (_ & _ & _ & Hl).
  - subst l. apply Forall_map, Forall_forall. intros i _. by eexists.
  - destruct Hl as (ls & -> & Hls). apply Forall_concat. eapply Forall2_Forall_r; [exact Hls|]. apply Forall_forall. intros i _ li [_ Ht]. by eapply IH.
Qed.

Lemma bytes_seen l n : Forall extent_read l -> Forall (fun e => 0 < x_start e) l -> content x_bs (map seen l) n = span (x_byte l) 0 n.
Proof using Type.
  intros Hr Hs. apply span_ext. intros k _. rewrite Z.add_0_l. induction Hr as [|e l [Hw _] _ IH]; [done|]. apply Forall_cons in Hs as [Hs0 Hs].
  cbn [map overlay x_byte]. unfold covers. cbn [seen ee_block ee_len ee_start]. rewrite Hw, (proj2 (Z.eqb_neq (x_start e) 0)) by lia.
  destruct (_ && _); [done|]. by apply IH.
Qed.

Lemma extents_start b l : x_extents b l -> Forall (fun e => 0 < x_start e) l.
Proof using Type. revert b. induction l as [|e l IH]; intros b Hx; [constructor|]. destruct Hx as (_ & Hs & _ & Hx). constructor; [done|by eapply IH]. Qed.

(** A file of the format is a file of the loader. *)
Lemma file_seen depth ino l :
  x_file 4096 depth ino l -> group_read (x_group ino) -> Forall extent_read l -> file_on_disk sb (group_table sb) depth ino (x_data ino l).
Proof using Hbyte Hvol.
  intros (Hi & Hg & Hc & Hfl & Ht & Hx & Hsz) Hgr Hr. destruct sb_values as (Hsb & Hbs & Hisz & _). destruct sb_parsed as (_ & _ & Hipg & _).
  pose proof (xv_ipg Hvol) as Hipg0. pose proof (xv_isz Hvol) as Hisz0. set (a := x_inode ino) in *.
  assert (0 <= x_group ino) as Hg0 by (apply Z.div_pos; lia). destruct (table_seen (x_group ino) Hgr ltac:(lia)) as (desc & Hdesc & Htab).
  assert (0 <= x_table (x_group ino)) as Htb.
  { unfold x_table. pose proof (num_at_bound (x_gdt + x_group ino * x_desc + 8) 4 ltac:(lia)). pose proof (num_at_bound (x_gdt + x_group ino * x_desc + 40) 4 ltac:(lia)). destruct x_64; lia. }
  assert (0 < x_bs) as Hbs0 by (rewrite <- Hbs; destruct (block_size_ok sb Hsb) as (k & -> & _ & ?); lia).
  exists a, (map seen l). cbv zeta. rewrite Hisz. set (raw := span vol a x_isz).
  assert (holds raw a x_isz) as Hraw by (apply holds_span; lia).
  assert (forall o k, 0 <= o -> o + Z.of_nat k <= x_isz -> field raw (Z.to_nat o) k = num_at (a + o) (Z.of_nat k)) as F by (intros; by eapply holds_field).
  assert (file_size_of (parse_inode raw) = x_size ino) as Hsize.
  { unfold file_size_of, parse_inode. cbn [i_size_high i_size_lo]. pose proof (F 4 4%nat ltac:(lia) ltac:(lia)) as F4. pose proof (F 108 4%nat ltac:(lia) ltac:(lia)) as F108.
    change (Z.to_nat 4) with 4%nat in F4. change (Z.to_nat 108) with 108%nat in F108. rewrite F4, F108. change (Z.of_nat 4) with 4. unfold x_size. fold a.
    pose proof (num_at_bound (a + 4) 4 ltac:(lia)). rewrite Z.lor_comm, lor_high by lia. lia. }
  destruct (extents_seen 0 l Hr Hx (tree_extents _ _ _ _ _ Ht)) as [Hsort Hok].
  split_and!; try done.
  - unfold inode_addr. rewrite Hipg. fold (x_group ino). rewrite Hdesc, Htab, Hbs, Hisz. done.
  - unfold a, x_inode. assert (0 <= (ino - 1) mod x_ipg) by (apply Z.mod_pos_bound; lia). nia.
  - unfold parse_inode. cbn [i_flags]. pose proof (F 32 4%nat ltac:(lia) ltac:(lia)) as F32. change (Z.to_nat 32) with 32%nat in F32. rewrite F32.
    change (Z.of_nat 4) with 4. intros E. assert (Z.testbit (Z.land (num_at (a + 32) 4) EXT4_EXTENTS_FL) 19 = false) as Hz by (by rewrite E, Z.bits_0).
    rewrite Z.land_spec in Hz. rewrite Hfl in Hz. done.
  - apply (tree_seen depth (a + 40) 60); [done|done|]. change (Z.min 60 4096) with 60. exists []. rewrite app_nil_r. unfold raw.
    change (drop 40) with (drop (A := Z) (Z.to_nat 40)). rewrite drop_span by lia.
    change (take 60) with (take (A := Z) (Z.to_nat 60)). by rewrite take_span by lia.
  - by rewrite Hsize.
  - rewrite Hsize, Hbs. unfold x_data. symmetry. apply bytes_seen; [done|]. by eapply extents_start.
Qed.
End format.

(** C31: The boot loader loads the file. On a device whose partition holds an ext4
    volume (block size 1 to 64 KB, on any device block size that is a multiple of
    512), with a root directory and a file stored as extent trees of any depth that
    fits the stack, [load_file_from_ext4] returns exactly the bytes that the format
    of ext4 gives the file, zeros for its holes, and reports a name that the
    directory does not have. The format is written down here from its
    documentation. Assumed beyond it is what the loader does not handle: the inodes
    are in the first group, or descriptors have 32 bytes; extents are written and
    have less than 0x8000 blocks; nodes have at most 340 entries, as they do when
    blocks have no more than 4 KB. *)
Theorem load_file_correct stack handles name l droot rexts :
  find_ext4_partition handles = Got (d, part) -> part * 512 + 2048 <= cap -> ext4_volume ->
  (droot <= stack)%nat -> x_file 4096 droot 2 rexts -> group_read (x_group 2) -> Forall extent_read rexts ->
  x_data 2 rexts = encode_dir l -> Forall rec_ok l ->
  (dir_find l name = 0 -> load_file_from_ext4 stack handles name = Missing) /\
  (forall depth exts, let ino := dir_find l name in
     (depth <= stack)%nat -> x_file 4096 depth ino exts -> group_read (x_group ino) -> Forall extent_read exts ->
     load_file_from_ext4 stack handles name = Got (x_data ino exts)).
Proof.
  intros Hf Hc Hvol Hst Hroot Hgr Hex Hdir Hl. pose proof (file_seen Hvol _ _ _ Hroot Hgr Hex) as Hroot'. rewrite Hdir in Hroot'.
  destruct (sb_values Hvol) as (Hsb & _ & _ & Hg & Hm). set (sb := parse_superblock (span vol 1024 512)) in *.
  unfold load_file_from_ext4. rewrite Hf. cbn [obind fst snd]. unfold reader_new. rewrite (dv_open Hd). cbn [of_option obind].
  set (r := mkReader _ _ _ _). assert (reader_ok r) as Hr by done. clearbody r. pose proof (mount_ok r Hr Hc Hm Hsb Hg) as Hmount. fold sb in Hmount. rewrite Hmount.
  cbn [obind fst snd]. unfold load_from.
  destruct (read_file_ok r sb (group_table sb) droot stack 2 (encode_dir l) Hr Hsb Hst ltac:(lia) (group_table_nonneg sb) Hroot') as (i & Hi & Hdata).
  rewrite Hi. cbn [obind]. unfold read_file in Hdata. rewrite Hdata. cbn [obind].
  assert (find_entry (length (encode_dir l)) (encode_dir l) name 0 = dir_find l name) as ->.
  { destruct l as [|e l']; [done|]. apply find_entry_ok; [done|]. by apply encode_dir_length. }
  split.
  - by intros ->.
  - set (ino := dir_find l name). intros depth exts Hst' Hfile Hgr' Hex'. assert (0 < ino) as Hpos by apply Hfile. rewrite (proj2 (Z.eqb_neq _ _)) by lia.
    destruct (read_file_ok r sb (group_table sb) depth stack ino _ Hr Hsb Hst' Hpos (group_table_nonneg sb) (file_seen Hvol _ _ _ Hfile Hgr' Hex')) as (j & Hj & Hjd).
    rewrite Hj. exact Hjd.
Qed.

(** ** Partition table *)

Lemma fetch_ok s old : 0 <= s -> s * 512 + 512 <= cap -> length old = 512%nat -> fetch d (s * 512) old = Got (span disk (s * 512) 512).
Proof.
  intros Hs Hc Hl. pose proof Hd as [_ Hb Hsec _ _ _ _]. pose proof (sector_in_block s) as Hin. unfold fetch, nonzero.
  destruct (Z.eqb_spec (dev_block_size d) 0); [lia|]. cbn [obind]. unfold SECTOR_SIZE. rewrite Z.geb_leb. destruct (Z.leb_spec 512 (dev_block_size d)); [|div_lia].
  rewrite Z.min_l by lia. destruct (read_block (s * 512) 512) as (l & -> & Hsl); [lia..|]. cbn [of_option obind]. rewrite Hsl. cbn [obind].
  unfold splice. rewrite length_span, Hl. cbn [Z.leb andb Z.add Z.of_nat]. rewrite drop_ge by (rewrite Hl; simpl; lia). by rewrite app_nil_r.
Qed.

Lemma read_raw_ok s old : 0 <= s -> s * 512 + 512 <= cap -> length old = 512%nat -> read_sector_raw d s old = Got (span disk (s * 512) 512).
Proof.
  intros Hs Hc Hl. unfold read_sector_raw. rewrite (dv_open Hd). cbn [negb]. unfold SECTOR_SIZE. rewrite wrap_small by (destruct Hd; lia). by apply fetch_ok.
Qed.

Lemma first_of_none {A B} (l : list A) (f : A -> out (option B)) : Forall (fun x => f x = Got None) l -> first_of l f = Got None.
Proof. induction 1 as [|x l Hx _ IH]; [done|]. cbn [first_of]. by rewrite Hx. Qed.

Lemma first_of_hit {A B} (l1 l2 : list A) x (f : A -> out (option B)) y :
  Forall (fun x => f x = Got None) l1 -> f x = Got (Some y) -> first_of (l1 ++ x :: l2) f = Got (Some y).
Proof. intros H Hx. induction H as [|z l Hz _ IH]; cbn [app first_of]; [by rewrite Hx|by rewrite Hz]. Qed.

Section gpt.
(** The table at block [lba], entries of [es] bytes. *)
Context (lba es : Z) (Hes : 48 <= es) (Hdiv : 512 mod es = 0) (Hlba : 0 <= lba).

Definition entry_pos (j : Z) : Z := lba * 512 + j * es.
Definition is_ext4 (j : Z) : bool := bool_decide (guid_words (span disk (entry_pos j) 16) = EXT4_GUID).
Definition first_block (j : Z) : Z := le (span disk (entry_pos j + 32) 8).

Lemma entries_fit : 0 < 512 / es /\ 512 / es * es = 512.
Proof. assert (es <= 512). { destruct (Z.le_gt_cases es 512); [done|]. rewrite Z.mod_small in Hdiv by lia. done. } split; div_lia. Qed.

Lemma gpt_entry_ok s i :
  0 <= s -> 0 <= i < 512 / es ->
  gpt_entry (span disk ((lba + s) * 512) 512) (i * es) = Got (if is_ext4 (s * (512 / es) + i) then Some (first_block (s * (512 / es) + i)) else None).
Proof.
  intros Hs Hi. destruct entries_fit as [Hp Hf]. set (n := 512 / es) in *. assert (i * es + es <= 512) by nia. unfold gpt_entry, int_at.
  rewrite !slice_span by nia. cbn [obind]. unfold is_ext4, first_block.
  replace (entry_pos (s * n + i)) with ((lba + s) * 512 + i * es) by (unfold entry_pos; nia). rewrite Z.add_assoc. by destruct (bool_decide _).
Qed.

Lemma gpt_sector_none s :
  0 <= s -> (forall j, s * (512 / es) <= j < (s + 1) * (512 / es) -> is_ext4 j = false) ->
  gpt_sector es (512 / es) (span disk ((lba + s) * 512) 512) = Got None.
Proof.
  intros Hs Hn. unfold gpt_sector. apply first_of_none, Forall_forall. intros i [_ Hi%elem_of_seqZ]%list_elem_of_filter.
  rewrite gpt_entry_ok by lia. by rewrite Hn by nia.
Qed.

Lemma gpt_sector_hit s i :
  0 <= s -> 0 <= i < 512 / es -> is_ext4 (s * (512 / es) + i) = true -> (forall j, s * (512 / es) <= j < s * (512 / es) + i -> is_ext4 j = false) ->
  gpt_sector es (512 / es) (span disk ((lba + s) * 512) 512) = Got (Some (first_block (s * (512 / es) + i))).
Proof.
  intros Hs Hi Hx Hn. destruct entries_fit as [Hp Hf]. unfold gpt_sector.
  assert (filter (fun i => i * es + es <= SECTOR_SIZE) (seqZ 0 (512 / es)) = seqZ 0 i ++ i :: seqZ (i + 1) (512 / es - i - 1)) as ->.
  { rewrite filter_every. 2:{ apply Forall_forall. intros k Hk%elem_of_seqZ. unfold SECTOR_SIZE. nia. }
    replace (512 / es) with (i + (512 / es - i)) at 1 by lia. rewrite seqZ_app by lia. rewrite Z.add_0_l, (seqZ_cons i) by lia. f_equal. }
  apply first_of_hit; [|by rewrite gpt_entry_ok, Hx by lia]. apply Forall_forall. intros k Hk%elem_of_seqZ. rewrite gpt_entry_ok by lia. by rewrite Hn by lia.
Qed.

Lemma gpt_scan_ok J : forall m s,
  0 <= s -> (lba + s + Z.of_nat m) * 512 <= cap ->
  s * (512 / es) <= J < (s + Z.of_nat m) * (512 / es) -> is_ext4 J = true -> (forall j, s * (512 / es) <= j < J -> is_ext4 j = false) ->
  forall buf, length buf = 512%nat -> fst (gpt_scan d (seqZ s (Z.of_nat m)) lba es (512 / es) buf) = Got (Some (first_block J)).
Proof.
  destruct entries_fit as [Hp Hf]. induction m as [|m IH]; intros s Hs Hc HJ Hx Hn b Hb; [lia|]. rewrite seqZ_cons by lia. cbn [gpt_scan].
  rewrite (wrap_small 64 (lba + s)) by (destruct Hd; lia). rewrite read_raw_ok by lia.
  destruct (Z.lt_ge_cases J ((s + 1) * (512 / es))) as [Hin|Hout].
  - replace J with (s * (512 / es) + (J - s * (512 / es))) in Hx |- * by lia. by rewrite (gpt_sector_hit s (J - s * (512 / es))) by (done || lia || (intros; apply Hn; lia)).
  - rewrite gpt_sector_none by (done || (intros; apply Hn; lia)). replace (Z.pred (Z.of_nat (S m))) with (Z.of_nat m) by lia.
    apply IH; try done; try lia. intros j Hj. apply Hn. lia.
Qed.
End gpt.

(** The partition is found. On a disk with a GUID partition table whose entries
    have a size that divides a sector, the first entry with the type of a Linux file
    system is found, and its first block returned. *)
Theorem gpt_partition_found buf J :
  let hdr := span disk 512 512 in let lba := field hdr 72 8 in let n := field hdr 80 4 in let es := field hdr 84 4 in
  length buf = 512%nat -> 1024 <= cap -> take 8 hdr = [69; 70; 73; 32; 80; 65; 82; 84] -> 48 <= es -> 512 mod es = 0 ->
  (lba + n) * 512 <= cap -> 0 <= J < n -> is_ext4 lba es J = true -> (forall j, 0 <= j < J -> is_ext4 lba es j = false) ->
  fst (try_handle_for_ext4 d buf) = Got (Some (first_block lba es J)).
Proof.
  intros hdr lba n es Hb Hc Hsig Hes Hdiv Htab HJ Hx Hn. assert (0 <= lba) as Hlba by (apply field_bound, Forall_fmap, Forall_forall; intros; apply Hbyte).
  destruct (entries_fit es Hes Hdiv) as [Hp Hf]. unfold try_handle_for_ext4. rewrite (read_raw_ok 0) by lia. rewrite (read_raw_ok 1) by (lia || apply length_span).
  change (1 * 512) with 512. fold hdr. rewrite bool_decide_eq_true_2 by exact Hsig. cbn [negb]. fold lba n es. unfold SECTOR_SIZE.
  destruct (Z.eqb_spec es 0); [lia|]. destruct (Z.eqb_spec (512 / es) 0); [lia|]. set (sn := (n + 512 / es - 1) / (512 / es)).
  assert (n <= sn * (512 / es) /\ 0 <= sn <= n) as [Hsn Hsn2].
  { unfold sn. set (q := 512 / es) in *. pose proof (Z.div_mod (n + q - 1) q ltac:(lia)). pose proof (Z.mod_pos_bound (n + q - 1) q Hp). split; [nia|]. split; [apply Z.div_pos; lia|].
    apply Z.div_le_upper_bound; nia. }
  rewrite <- (Z2Nat.id sn) by lia. apply (gpt_scan_ok lba es Hes Hdiv Hlba J); try done; rewrite ?Z2Nat.id by lia; try nia; try apply length_span.
Qed.

(** A table whose entries have no bytes, or more than a sector, stops the loader: a
    division by zero. *)
Lemma bad_entry_size_panics buf :
  let hdr := span disk 512 512 in let es := field hdr 84 4 in
  length buf = 512%nat -> 1024 <= cap -> take 8 hdr = [69; 70; 73; 32; 80; 65; 82; 84] -> es = 0 \/ 512 < es ->
  fst (try_handle_for_ext4 d buf) = Crash.
Proof.
  intros hdr es Hb Hc Hsig Hes. unfold try_handle_for_ext4. rewrite (read_raw_ok 0) by lia. rewrite (read_raw_ok 1) by (lia || apply length_span).
  change (1 * 512) with 512. fold hdr. rewrite bool_decide_eq_true_2 by exact Hsig. cbn [negb]. fold es. destruct (Z.eqb_spec es 0); [done|].
  unfold SECTOR_SIZE. by rewrite (Z.div_small 512 es) by lia.
Qed.

(** ** Files with a block map *)

(** The block of the file's block [j] in a map of twelve direct blocks and one
    indirect block. *)
Definition bmap (sb : Superblock) (i : Inode) (j : Z) : Z :=
  if j <? 12 then default 0 (i_block i !! Z.to_nat j)
  else le (span vol (default 0 (i_block i !! 12%nat) * block_size_of sb + (j - 12) * 4) 4).

(** The blocks that the map can name. *)
Definition mapped_blocks (sb : Superblock) : Z := 12 + block_size_of sb / 4.
Definition block_on_disk (sb : Superblock) (b : Z) : Prop := 0 <= b < 2 ^ 32 /\ part * 512 + (b + 1) * block_size_of sb <= cap.

(** The map of a file of [n] blocks lies on the device. *)
Definition map_ok (sb : Superblock) (i : Inode) (n : Z) : Prop :=
  Z.land (i_flags i) EXT4_EXTENTS_FL = 0 /\ (forall j, 0 <= j < n -> block_on_disk sb (bmap sb i j)) /\
  (12 < n -> default 0 (i_block i !! 12%nat) <> 0 /\ block_on_disk sb (default 0 (i_block i !! 12%nat))).

Lemma resolve_block_ok stack r sb i n j :
  reader_ok r -> sb_ok sb -> map_ok sb i n -> 0 <= j < n -> n <= mapped_blocks sb -> resolve_block stack r sb i j = Got (bmap sb i j).
Proof.
  intros Hr Hsb (Hfl & _ & Hind) Hj Hn. destruct (block_size_ok sb Hsb) as (k & Hbs & Hsp & Hk). unfold resolve_block, bmap, mapped_blocks in *.
  rewrite (proj2 (Z.eqb_eq _ _) Hfl). cbn [negb]. destruct (Z.ltb_spec j 12); [done|]. destruct Hind as (H0 & [Hb Hc]); [lia|].
  set (ib := default 0 (i_block i !! 12%nat)) in *. rewrite (proj2 (Z.ltb_lt _ _)), (proj2 (Z.eqb_neq _ _) H0) by lia. cbn [andb negb]. rewrite Hsp, Hbs in *.
  rewrite (wrap_small 64 (ib * k)) by nia. rewrite (read_sectors_ok r (ib * k) (512 * k) Hr) by nia. cbn [obind]. unfold int_at.
  assert (512 * k / 4 = 128 * k) by div_lia. rewrite slice_span by lia. cbn [obind]. do 2 f_equal. f_equal. lia.
Qed.

(** Byte [k] of a file with a block map. *)
Definition map_byte (sb : Superblock) (i : Inode) (k : Z) : Z :=
  let b := bmap sb i (k / block_size_of sb) in if b =? 0 then 0 else vol (b * block_size_of sb + k mod block_size_of sb).
(** The first [o] bytes of the file, then zeros. *)
Definition map_prefix (sb : Superblock) (i : Inode) (o k : Z) : Z := if k <? o then map_byte sb i k else 0.

Lemma map_byte_in sb i bs j k : block_size_of sb = bs -> 0 < bs -> j * bs <= k < (j + 1) * bs ->
  map_byte sb i k = if bmap sb i j =? 0 then 0 else vol (bmap sb i j * bs + (k - j * bs)).
Proof.
  intros Hbs H0 Hk. assert (k / bs = j) as Hq. { symmetry. apply (Z.div_unique k bs j (k - j * bs)); lia. }
  unfold map_byte. rewrite Hbs, Z.mod_eq, Hq by lia. by rewrite (Z.mul_comm bs j).
Qed.

Lemma copy_block_ok stack r sb i n size j :
  reader_ok r -> sb_ok sb -> map_ok sb i n -> n <= mapped_blocks sb -> 0 <= j < n -> j * block_size_of sb < size ->
  copy_block stack r sb i size (j * block_size_of sb, span (map_prefix sb i (j * block_size_of sb)) 0 size) j =
  Got (Z.min ((j + 1) * block_size_of sb) size, span (map_prefix sb i ((j + 1) * block_size_of sb)) 0 size).
Proof.
  intros Hr Hsb Hmap Hn Hj Hlt. destruct (block_size_ok sb Hsb) as (k & Hbs & Hsp & Hk). unfold copy_block.
  rewrite (resolve_block_ok stack r sb i n j) by done. cbn [obind]. destruct Hmap as (_ & Hdisk & _). destruct (Hdisk j Hj) as [Hb Hc].
  assert (forall x, map_prefix sb i ((j + 1) * block_size_of sb) x =
    if (j * block_size_of sb <=? x) && (x <? (j + 1) * block_size_of sb) then map_byte sb i x else map_prefix sb i (j * block_size_of sb) x) as Hpre.
  { intros x. unfold map_prefix. destruct (Z.leb_spec (j * block_size_of sb) x), (Z.ltb_spec x ((j + 1) * block_size_of sb)), (Z.ltb_spec x (j * block_size_of sb)); try done; nia. }
  pose proof (map_byte_in sb i (block_size_of sb) j) as Hin. rewrite Hbs in *. set (bs := 512 * k) in *. replace (j * bs + bs) with ((j + 1) * bs) by lia.
  set (e := Z.min ((j + 1) * bs) size). assert (j * bs < e <= size) as He by (unfold e, bs; lia). set (b := bmap sb i j) in *.
  destruct (Z.eqb_spec b 0) as [E|E].
  - do 2 f_equal. apply span_ext. intros x Hx. rewrite Hpre. destruct ((j * bs <=? 0 + x) && (0 + x <? (j + 1) * bs)) eqn:Eb; [|done].
    apply andb_prop in Eb as [?%Z.leb_le ?%Z.ltb_lt]. rewrite Hin by (unfold bs; lia || done). unfold map_prefix. by rewrite (proj2 (Z.ltb_ge (0 + x) (j * bs))) by lia.
  - rewrite slice_span by (unfold bs in *; nia). cbn [obind]. unfold read_data_block. rewrite (proj2 (Z.eqb_neq _ _) E), length_span, Z2Nat.id, Hsp, (wrap_small 64 (b * k)) by nia.
    assert (e - j * bs <= bs) by (unfold e; lia). rewrite (read_sectors_ok r (b * k) (e - j * bs) Hr) by (unfold bs in *; nia). cbn [obind].
    rewrite splice_span by (unfold bs in *; nia). cbn [obind]. do 2 f_equal. apply span_ext. intros x Hx. rewrite Hpre.
    replace (0 + x <? j * bs + (e - j * bs)) with (0 + x <? (j + 1) * bs).
    2:{ unfold e. destruct (Z.ltb_spec (0 + x) ((j + 1) * bs)), (Z.ltb_spec (0 + x) (j * bs + (Z.min ((j + 1) * bs) size - j * bs))); try done; lia. }
    destruct ((j * bs <=? 0 + x) && (0 + x <? (j + 1) * bs)) eqn:Eb; [|done]. apply andb_prop in Eb as [?%Z.leb_le ?%Z.ltb_lt].
    rewrite Hin by (unfold bs; lia || done). f_equal. unfold bs. lia.
Qed.

Lemma fold_out_app {A B} (l1 l2 : list A) (f : B -> A -> out B) b : fold_out (l1 ++ l2) f b = obind (fold_out l1 f b) (fold_out l2 f).
Proof. revert b. induction l1 as [|x l1 IH]; intros b; [done|]. cbn [app fold_out]. destruct (f b x); cbn [obind]; [apply IH|done..]. Qed.

Lemma copy_prefix stack r sb i n size m :
  reader_ok r -> sb_ok sb -> map_ok sb i n -> n <= mapped_blocks sb -> Z.of_nat m <= n -> (Z.of_nat m - 1) * block_size_of sb < size -> 0 < size ->
  fold_out (seqZ 0 (Z.of_nat m)) (copy_block stack r sb i size) (0, span (fun _ => 0) 0 size) =
  Got (Z.min (Z.of_nat m * block_size_of sb) size, span (map_prefix sb i (Z.of_nat m * block_size_of sb)) 0 size).
Proof.
  intros Hr Hsb Hmap Hn Hm Hlt H0. destruct (block_size_ok sb Hsb) as (k & Hbs & _ & Hk). induction m as [|m IH].
  - rewrite seqZ_nil by lia. cbn [fold_out]. rewrite Z.mul_0_l, Z.min_l by lia. do 2 f_equal. apply span_ext. intros x Hx. unfold map_prefix. by rewrite (proj2 (Z.ltb_ge _ _)) by lia.
  - rewrite Nat2Z.inj_succ in *. unfold Z.succ in *. rewrite seqZ_app, fold_out_app, IH by nia. cbn [obind]. rewrite Z.min_l by nia. rewrite Z.add_0_l.
    rewrite seqZ_cons, (seqZ_nil _ (Z.pred 1)) by lia. cbn [fold_out]. by rewrite (copy_block_ok stack r sb i n size) by (done || nia).
Qed.

(** The blocks of a file, counted as the code does. *)
Definition blocks_of (sb : Superblock) (i : Inode) : Z := (file_size_of i + block_size_of sb - 1) / block_size_of sb.

Lemma read_file_map stack r sb i :
  sb_ok sb -> Z.land (i_flags i) EXT4_EXTENTS_FL = 0 -> 0 < file_size_of i -> blocks_of sb i < 2 ^ 32 ->
  read_file stack r sb i = obind (fold_out (seqZ 0 (blocks_of sb i)) (copy_block stack r sb i (file_size_of i)) (0, span (fun _ => 0) 0 (file_size_of i))) (fun p => Got (snd p)) /\
  (blocks_of sb i - 1) * block_size_of sb < file_size_of i <= blocks_of sb i * block_size_of sb.
Proof.
  intros Hsb Hfl H0 Hn. destruct (block_size_ok sb Hsb) as (k & Hbs & _ & Hk). unfold read_file, read_file_into.
  rewrite (proj2 (Z.eqb_eq _ _) Hfl). cbn [negb]. unfold copy_blocks, nonzero, blocks_of in *. destruct (Z.eqb_spec (block_size_of sb) 0) as [|_]; [lia|]. cbn [obind].
  rewrite zeros_span, length_span, Z2Nat.id by lia. set (size := file_size_of i) in *. set (bs := block_size_of sb) in *. set (n := (size + bs - 1) / bs) in *.
  assert (size + bs - 1 = n * bs + (size + bs - 1) mod bs /\ 0 <= (size + bs - 1) mod bs < bs) as [Hdm Hmod] by (unfold n; split; [pose proof (Z.div_mod (size + bs - 1) bs); lia|apply Z.mod_pos_bound; lia]).
  rewrite (wrap_small 64 (size + bs)) by nia. rewrite (wrap_small 64 (size + bs - 1)) by nia. fold n. assert (0 <= n) by nia. rewrite (wrap_small 32 n) by lia.
  split; [done|nia].
Qed.

Lemma mapped_small sb : sb_ok sb -> 0 <= mapped_blocks sb <= 2 ^ 16.
Proof. intros Hsb. destruct (block_size_ok sb Hsb) as (k & Hbs & _ & Hk). unfold mapped_blocks. rewrite Hbs. div_lia. Qed.

(** Files with block maps. Without extents, a file of at most 12 + bs/4 blocks is
    read exactly: every byte comes from the block that the inode or its indirect
    block names, zeros where the number is 0; a longer file is refused, never
    returned in part. *)
Theorem block_map_read stack r sb i :
  reader_ok r -> sb_ok sb -> map_ok sb i (Z.min (blocks_of sb i) (mapped_blocks sb)) -> 0 < file_size_of i -> blocks_of sb i < 2 ^ 32 ->
  read_file stack r sb i = if blocks_of sb i <=? mapped_blocks sb then Got (span (map_byte sb i) 0 (file_size_of i)) else Missing.
Proof.
  intros Hr Hsb Hmap H0 Hn. pose proof (mapped_small sb Hsb) as Hmb. pose proof Hmap as (Hfl & _). destruct (read_file_map stack r sb i Hsb Hfl H0 Hn) as [-> Hsz].
  destruct (block_size_ok sb Hsb) as (k & Hbs & _ & Hk). set (size := file_size_of i) in *. set (n := blocks_of sb i) in *. set (mb := mapped_blocks sb) in *. assert (0 < n) by nia. destruct (Z.leb_spec n mb).
  - rewrite Z.min_l in Hmap by lia. rewrite <- (Z2Nat.id n) at 1 by lia. rewrite (copy_prefix stack r sb i n) by (done || rewrite ?Z2Nat.id; lia). cbn [obind snd]. rewrite Z2Nat.id by lia.
    f_equal. apply span_ext. intros x Hx. unfold map_prefix. by rewrite (proj2 (Z.ltb_lt _ _)) by lia.
  - rewrite Z.min_r in Hmap by lia. replace n with (Z.of_nat (Z.to_nat mb) + (n - mb)) by lia. rewrite seqZ_app, fold_out_app by lia.
    rewrite (copy_prefix stack r sb i mb) by (done || rewrite ?Z2Nat.id; nia). cbn [obind]. rewrite seqZ_cons by lia. cbn [fold_out]. unfold copy_block at 1. rewrite Z2Nat.id by lia.
    assert (resolve_block stack r sb i (0 + mb) = Missing) as ->; [|done]. unfold resolve_block, mb, mapped_blocks. rewrite (proj2 (Z.eqb_eq _ _) Hfl). cbn [negb].
    assert (0 <= block_size_of sb / 4) by (apply Z.div_pos; lia). rewrite (proj2 (Z.ltb_ge _ _)) by lia. by rewrite (proj2 (Z.ltb_ge (0 + _ - 12) _)) by lia.
Qed.

(** An index node that is its own child exhausts any stack. *)
Lemma extent_cycle_crashes r sb block raw stack :
  read_extent_block r sb block = Got raw -> field raw 0 2 = 0xF30A -> field raw 6 2 <> 0 -> (24 <= length raw)%nat -> 0 < field raw 2 2 ->
  child_at raw (extent_off 0) = block -> collect_leaf_extents stack r sb block = Crash.
Proof.
  intros Hrd Hm Hd0 Hl Hn Hc. unfold collect_leaf_extents. rewrite Hrd. cbn [obind].
  assert (exists js, extent_indices raw = 0 :: js) as (js & Hjs).
  { unfold extent_indices. rewrite seqZ_cons by lia. rewrite filter_cons_True by (unfold extent_off, EXTENT_HEADER_SIZE, EXTENT_ENTRY_SIZE; lia). by eexists. }
  induction stack as [|stack IH]; cbn [node_extents]; rewrite (proj2 (Z.eqb_eq _ _) Hm), (proj2 (Z.eqb_neq _ _) Hd0), Hjs; cbn [negb fold_out]; [done|].
  rewrite Hc, Hrd. cbn [obind]. by rewrite IH.
Qed.
End volume.
