(* ===== verification/BootElf.v ===== *)
(** The boot loader's ELF loader: on a well-formed kernel image every segment ends
    up at its physical address, inside the memory that may be used, and nothing else
    is written; and what happens to images that are not. *)
From stdpp Require Import base tactics numbers list gmap.
From Stdlib Require Import ZArith Lia.
From S2P Require Import Prelude Phys KMem Percpu Virt Vma Exec ExecThms Entry Boot.

Local Open Scope Z_scope.
Local Open Scope word_scope.
Local Open Scope boot_scope.

(** ** The segments of an image *)

Record Segment := mkSegment { sg_type : Z; sg_off : Z; sg_paddr : Z; sg_filesz : Z; sg_memsz : Z }.

Definition segment_at (data : list Z) (off : Z) : Segment :=
  let f o n := field data (Z.to_nat (off + o)) n in
  mkSegment (f 0 4%nat) (f 8 8%nat) (f 24 8%nat) (f 32 8%nat) (f 40 8%nat).

(** The program headers, in the order of the table. *)
Definition headers (data : list Z) : list Segment :=
  map (fun i => segment_at data (field data 32 8 + i * field data 54 2)) (seqZ 0 (field data 56 2)).
Definition segments (data : list Z) : list Segment := filter (fun s => sg_type s = PT_LOAD) (headers data).

(** What a byte of the segment is: the file's, then zeros. *)
Definition seg_byte (data : list Z) (s : Segment) (k : Z) : Z :=
  if k <? sg_filesz s then default 0 (data !! Z.to_nat (sg_off s + k)) else 0.
Definition in_seg (s : Segment) (a : Z) : Prop := sg_paddr s <= a < sg_paddr s + sg_memsz s.

(** A segment that may be loaded. *)
Definition seg_fits (data : list Z) (regions : list MemoryRegion) (count : nat) (s : Segment) : Prop :=
  sg_off s + sg_filesz s <= Z.of_nat (length data) /\ sg_filesz s <= sg_memsz s /\ sg_paddr s + sg_memsz s <= KERNEL_LOAD_PHYS_LIMIT /\
  exists g, g ∈ take count regions /\ phys_start g <= sg_paddr s /\ sg_paddr s + sg_memsz s <= phys_start g + rsize g.

(** An image the loader accepts. *)
Record header_ok (data : list Z) : Prop := {
  ho_size : 64 <= Z.of_nat (length data) < 2 ^ 63;
  ho_bytes : Forall (fun b => 0 <= b < 256) data;
  ho_magic : take 4 data = ELF_MAGIC;
  ho_class : field data 4 1 = ELFCLASS64;
  ho_endian : field data 5 1 = 1;
  ho_type : field data 16 2 = ET_EXEC;
  ho_entry : field data 56 2 = 0 \/ 56 <= field data 54 2;
  ho_table : field data 32 8 + field data 56 2 * field data 54 2 <= Z.of_nat (length data);
}.

(** No byte belongs to two segments. *)
Definition seg_disjoint (s t : Segment) : Prop := forall a, in_seg s a -> in_seg t a -> False.
Definition disjoint_segs (l : list Segment) : Prop :=
  forall i j s t, l !! i = Some s -> l !! j = Some t -> i <> j -> seg_disjoint s t.

Lemma read_le_ok data o n :
  Z.of_nat (length data) < 2 ^ 63 -> 0 <= o -> 0 < n -> o + n <= Z.of_nat (length data) -> read_le data o n = Got (field data (Z.to_nat o) (Z.to_nat n)).
Proof.
  intros Hl Ho Hn Hon. unfold read_le, int_at, slice. rewrite wrap_small by lia. rewrite Z.geb_leb. destruct (Z.leb_spec (Z.of_nat (length data)) (o + (n - 1))); [lia|].
  destruct (Z.leb_spec 0 o), (Z.leb_spec 0 n), (Z.leb_spec (o + n) (Z.of_nat (length data))); try lia. done.
Qed.

(** The state a segment leaves. *)
Definition place (data : list Z) (s : Segment) (m : gmap Z Z) : gmap Z Z :=
  write_at (write_at m (sg_paddr s) (take (Z.to_nat (sg_filesz s)) (drop (Z.to_nat (sg_off s)) data)))
    (sg_paddr s + sg_filesz s) (zeros (sg_memsz s - sg_filesz s)).

Lemma in_region regions count paddr size :
  0 <= paddr -> 0 <= size -> paddr + size <= KERNEL_LOAD_PHYS_LIMIT ->
  (exists g, g ∈ take count regions /\ phys_start g <= paddr /\ paddr + size <= phys_start g + rsize g) -> addr_in_any_region paddr size regions count = true.
Proof.
  intros Hp Hs Hl (g & Hg & H1 & H2). unfold addr_in_any_region, KERNEL_LOAD_PHYS_LIMIT in *. apply existsb_exists. exists g.
  split; [by apply list_elem_of_In|]. unfold saturating_add. rewrite andb_true_iff, Z.geb_leb, !Z.leb_le. lia.
Qed.

Section image.
Context (data : list Z) (regions : list MemoryRegion) (count : nat) (Hh : header_ok data).

Lemma seg_bounds off : 0 <= sg_off (segment_at data off) /\ 0 <= sg_paddr (segment_at data off) /\ 0 <= sg_filesz (segment_at data off) /\ 0 <= sg_memsz (segment_at data off).
Proof. pose proof (ho_bytes _ Hh) as Hb. unfold segment_at. cbn. split_and!; apply (field_bound _ _ _ Hb). Qed.

Lemma read_header off o n : 0 <= off -> off + 56 <= Z.of_nat (length data) -> 0 <= o -> 0 < n -> o + n <= 56 -> read_le data (off +u64 o) n = Got (field data (Z.to_nat (off + o)) (Z.to_nat n)).
Proof. intros. pose proof (ho_size _ Hh). rewrite wrap_small by lia. apply read_le_ok; lia. Qed.

Lemma boot_segment_ok off m :
  0 <= off -> off + 56 <= Z.of_nat (length data) -> let s := segment_at data off in
  (sg_type s = PT_LOAD -> seg_fits data regions count s) ->
  load_segment data regions count off m = Got (if decide (sg_type s = PT_LOAD) then place data s m else m).
Proof.
  intros H0 H56 s Hfit. pose proof (ho_size _ Hh) as Hsz. pose proof (seg_bounds off) as Hbd. fold s in Hbd. unfold load_segment.
  rewrite <- (Z.add_0_r off) at 1. rewrite <- (wrap_small 64 (off + 0)) by lia. rewrite read_header by lia. cbn [obind]. change (field data (Z.to_nat (off + 0)) (Z.to_nat 4)) with (sg_type s).
  destruct (decide (sg_type s = PT_LOAD)) as [Ht|Ht]; [|by rewrite (proj2 (Z.eqb_neq _ _) Ht)]. rewrite (proj2 (Z.eqb_eq _ _) Ht). cbn [negb].
  rewrite !read_header by lia. cbn [obind].
  change (field data (Z.to_nat (off + 8)) (Z.to_nat 8)) with (sg_off s). change (field data (Z.to_nat (off + 24)) (Z.to_nat 8)) with (sg_paddr s).
  change (field data (Z.to_nat (off + 32)) (Z.to_nat 8)) with (sg_filesz s). change (field data (Z.to_nat (off + 40)) (Z.to_nat 8)) with (sg_memsz s).
  clearbody s. destruct (Hfit Ht) as (F1 & F2 & F3 & F4). assert (KERNEL_LOAD_PHYS_LIMIT < 2 ^ 64) by done. unfold checked_add. rewrite (proj2 (Z.ltb_lt _ _)) by lia. cbn [default from_option id].
  rewrite Z.gtb_ltb, (proj2 (Z.ltb_ge _ _)) by lia. rewrite in_region by (done || lia). cbn [negb]. rewrite (wrap_small 64 (_ + sg_filesz s)) by lia.
  rewrite Z.gtb_ltb, (proj2 (Z.ltb_ge _ _)) by lia. unfold slice. destruct (Z.leb_spec 0 (sg_off s)), (Z.leb_spec 0 (sg_filesz s)), (Z.leb_spec (sg_off s + sg_filesz s) (Z.of_nat (length data))); try lia.
  cbn [andb obind]. unfold place. rewrite Z.gtb_ltb. destruct (Z.ltb_spec (sg_filesz s) (sg_memsz s)); [done|]. by replace (sg_memsz s - sg_filesz s) with 0 by lia.
Qed.

Lemma length_file_part s : 0 <= sg_off s -> 0 <= sg_filesz s -> sg_off s + sg_filesz s <= Z.of_nat (length data) ->
  Z.of_nat (length (take (Z.to_nat (sg_filesz s)) (drop (Z.to_nat (sg_off s)) data))) = sg_filesz s.
Proof. intros. rewrite length_take, length_drop. lia. Qed.

(** A placed segment holds its bytes and the rest of memory is as before. *)
Lemma place_lookup s m a :
  0 <= sg_off s -> 0 <= sg_filesz s -> sg_off s + sg_filesz s <= Z.of_nat (length data) -> sg_filesz s <= sg_memsz s ->
  place data s m !! a = if decide (in_seg s a) then Some (seg_byte data s (a - sg_paddr s)) else m !! a.
Proof.
  intros H0 H1 H2 H3. unfold place, zeros, in_seg. rewrite !write_at_lookup, length_replicate, length_file_part, Z2Nat.id by lia. unfold seg_byte.
  destruct (decide (sg_paddr s <= a < sg_paddr s + sg_memsz s)) as [Hin|Hout]; [|by rewrite !decide_False by lia].
  destruct (Z.ltb_spec (a - sg_paddr s) (sg_filesz s)).
  - rewrite decide_False, decide_True by lia. rewrite lookup_take_lt, lookup_drop by lia.
    replace (Z.to_nat (sg_off s) + Z.to_nat (a - sg_paddr s))%nat with (Z.to_nat (sg_off s + (a - sg_paddr s))) by lia.
    destruct (lookup_lt_is_Some_2 data (Z.to_nat (sg_off s + (a - sg_paddr s)))) as [x ->]; [lia|done].
  - rewrite decide_True by lia. apply lookup_replicate. split; [done|lia].
Qed.

Definition seg_good (s : Segment) : Prop := 0 <= sg_off s /\ 0 <= sg_filesz s /\ seg_fits data regions count s.

Lemma disjoint_tail s l : disjoint_segs (s :: l) -> disjoint_segs l.
Proof. intros H i j x y Hi Hj Hij. apply (H (S i) (S j)); [done|done|congruence]. Qed.

(** All segments placed. *)
Lemma place_all l m :
  Forall seg_good l -> disjoint_segs l -> let m' := fold_left (fun m s => place data s m) l m in
  (forall s a, s ∈ l -> in_seg s a -> m' !! a = Some (seg_byte data s (a - sg_paddr s))) /\
  (forall a, (forall s, s ∈ l -> ~ in_seg s a) -> m' !! a = m !! a).
Proof.
  intros Hg. revert m. induction Hg as [|s l (G0 & G1 & G2 & G3 & _) Hg IH]; intros m Hd; cbn [fold_left]; [by split; [intros s a ?%elem_of_nil|]|].
  destruct (IH (place data s m) (disjoint_tail _ _ Hd)) as [A B]. split.
  - intros t a [->|Ht]%elem_of_cons Ha; [|by apply A]. rewrite B; [by rewrite place_lookup, decide_True by done|].
    intros u [j Hj]%list_elem_of_lookup Hua. by apply (Hd 0%nat (S j) s u eq_refl Hj ltac:(lia) a).
  - intros a Ha. rewrite B by (intros t Ht; apply Ha; by right). rewrite place_lookup, decide_False by (done || apply Ha; by left). done.
Qed.

Lemma load_headers l m :
  Forall (fun i => let off := field data 32 8 + i * field data 54 2 in 0 <= off /\ off + 56 <= Z.of_nat (length data) /\
    (sg_type (segment_at data off) = PT_LOAD -> seg_fits data regions count (segment_at data off)) /\ 0 <= i < 2 ^ 16) l ->
  fold_out l (fun m i => load_segment data regions count (field data 32 8 +u64 i * field data 54 2) m) m =
  Got (fold_left (fun m s => place data s m) (filter (fun s => sg_type s = PT_LOAD) (map (fun i => segment_at data (field data 32 8 + i * field data 54 2)) l)) m).
Proof.
  pose proof (ho_size _ Hh) as Hsz. intros H. revert m. induction H as [|i l (H0 & H1 & H2 & H3) _ IH]; intros m; [done|]. cbn [fold_out map].
  rewrite (wrap_small 64 (_ + _)) by lia. rewrite boot_segment_ok by done. cbn [obind]. rewrite IH, filter_cons. by destruct (decide _).
Qed.

Lemma load_elf_places m :
  Forall (seg_fits data regions count) (segments data) ->
  load_elf data regions count m = Got (field data 24 8, fold_left (fun m s => place data s m) (segments data) m).
Proof.
  intros Hf. destruct Hh as [Hsz Hb Hm Hc He Ht Hent Htab]. pose proof (field_bound data 32 8 Hb). pose proof (field_bound data 54 2 Hb). pose proof (field_bound data 56 2 Hb).
  unfold load_elf. rewrite (proj2 (Z.ltb_ge _ _)) by lia. rewrite bool_decide_eq_true_2 by done. cbn [negb].
  rewrite (proj2 (Z.eqb_eq _ _) Hc), (proj2 (Z.eqb_eq _ _) He). cbn [negb]. rewrite !read_le_ok by lia. cbn [obind].
  change (field data (Z.to_nat 16) (Z.to_nat 2)) with (field data 16 2). rewrite (proj2 (Z.eqb_eq _ _) Ht). cbn [negb].
  change (field data (Z.to_nat 32) (Z.to_nat 8)) with (field data 32 8). change (field data (Z.to_nat 54) (Z.to_nat 2)) with (field data 54 2).
  change (field data (Z.to_nat 56) (Z.to_nat 2)) with (field data 56 2). change (field data (Z.to_nat 24) (Z.to_nat 8)) with (field data 24 8).
  rewrite (wrap_small 64 (_ + _)) by lia. rewrite Z.gtb_ltb, (proj2 (Z.ltb_ge _ _)) by lia. rewrite load_headers; [done|].
  apply Forall_forall. intros i Hi. pose proof Hi as Hi'%elem_of_seqZ. cbn zeta. split_and!; try (change (256 ^ Z.of_nat 2) with 65536 in *; nia).
  intros HL. rewrite Forall_forall in Hf. apply Hf. unfold segments. apply list_elem_of_filter. split; [done|]. apply list_elem_of_fmap. by exists i.
Qed.
End image.

(** C32: The kernel is placed. For a well-formed image with disjoint segments, each
    inside one of the usable regions and below 1 GiB, the boot loader's [load_elf]
    succeeds, returns the entry point of the header, and leaves in memory each
    segment's bytes from the file followed by zeros up to its size in memory; no
    other byte of memory changes. *)
Theorem kernel_image_placed data regions count m :
  header_ok data -> Forall (seg_fits data regions count) (segments data) -> disjoint_segs (segments data) ->
  exists m', load_elf data regions count m = Got (field data 24 8, m') /\
    (forall s k, s ∈ segments data -> 0 <= k < sg_memsz s -> m' !! (sg_paddr s + k) = Some (seg_byte data s k)) /\
    (forall a, (forall s, s ∈ segments data -> ~ in_seg s a) -> m' !! a = m !! a).
Proof.
  intros Hh Hf Hd. eexists. split; [by apply load_elf_places|].
  assert (Forall (seg_good data regions count) (segments data)) as Hg.
  { apply Forall_forall. intros s Hs. rewrite Forall_forall in Hf. pose proof (Hf s Hs) as Hfs.
    unfold segments, headers in Hs. apply list_elem_of_filter in Hs as [_ (i & -> & _)%list_elem_of_fmap]. destruct (seg_bounds data Hh (field data 32 8 + i * field data 54 2)) as (B1 & B2 & B3 & _). done. }
  destruct (place_all data regions count (segments data) m Hg Hd) as [A B]. split; [|exact B].
  intros s k Hs Hk. rewrite (A s (sg_paddr s + k) Hs) by (unfold in_seg; lia). do 2 f_equal. lia.
Qed.
