(* ===== verification/BootDemo.v ===== *)
(** A disk with a partition table and a volume, and a kernel image: the results on
    the boot loader hold of them.  Then inputs the loader does not handle. *)
From stdpp Require Import base tactics numbers list gmap.
From Stdlib Require Import ZArith Lia.
From S2P Require Import Prelude Phys KMem Percpu Virt Vma Exec ExecThms Entry Boot BootThms BootElf.

Local Open Scope Z_scope.
Local Open Scope word_scope.
Local Open Scope boot_scope.

(** ** A disk *)

(** The bytes listed at their offsets, zero elsewhere. *)
Fixpoint patch (l : list (Z * list Z)) (a : Z) : Z :=
  match l with
  | [] => 0
  | (off, b) :: l => if (off <=? a) && (a <? off + Z.of_nat (length b)) then default 0 (b !! Z.to_nat (a - off)) else patch l a
  end.

Lemma patch_bytes l a : Forall (fun p => Forall (fun b => 0 <= b < 256) (snd p)) l -> 0 <= patch l a < 256.
Proof.
  induction 1 as [|[off b] l Hb _ IH]; [done|]. cbn [patch]. destruct (_ && _); [|done]. destruct (b !! _) as [x|] eqn:E; [|done].
  cbn [snd] in Hb. rewrite Forall_forall in Hb. apply Hb. by eapply list_elem_of_lookup_2.
Qed.

Definition ext4_type : list Z := EXT4_GUID ≫= bytes_le 2.

(** The partition starts at sector 8; blocks have 1024 bytes; the table of inodes is
    block 5, the root directory block 10; the file has one index node, block 12, and
    two extents, of blocks 20 and 22, with a hole between them. *)
Definition demo_disk : Z -> Z := patch [
  (512, [69; 70; 73; 32; 80; 65; 82; 84]); (512 + 72, bytes_le 8 2); (512 + 80, bytes_le 4 4); (512 + 84, bytes_le 4 128);
  (1024 + 128, ext4_type); (1024 + 128 + 32, bytes_le 8 8);
  (5120 + 4, bytes_le 4 32); (5120 + 20, bytes_le 4 1); (5120 + 32, bytes_le 4 64); (5120 + 40, bytes_le 4 16); (5120 + 56, bytes_le 2 SB_MAGIC);
  (4096 + 2048 + 8, bytes_le 4 5);
  (4096 + 5120 + 128 + 4, bytes_le 4 48); (4096 + 5120 + 128 + 32, bytes_le 4 EXT4_EXTENTS_FL);
  (4096 + 5120 + 128 + 40, bytes_le 2 0xF30A ++ bytes_le 2 1 ++ bytes_le 2 4 ++ bytes_le 2 0 ++ bytes_le 4 0 ++ bytes_le 4 0 ++ bytes_le 2 1 ++ bytes_le 2 0 ++ bytes_le 4 10);
  (4096 + 5120 + 256 + 4, bytes_le 4 2100); (4096 + 5120 + 256 + 32, bytes_le 4 EXT4_EXTENTS_FL);
  (4096 + 5120 + 256 + 40, bytes_le 2 0xF30A ++ bytes_le 2 1 ++ bytes_le 2 4 ++ bytes_le 2 1 ++ bytes_le 4 0 ++ bytes_le 4 0 ++ bytes_le 4 12 ++ bytes_le 4 0);
  (4096 + 10240, bytes_le 4 2 ++ bytes_le 2 12 ++ [1; 2; 46; 0; 0; 0]);
  (4096 + 10240 + 12, bytes_le 4 0 ++ bytes_le 2 16 ++ [3; 1; 111; 108; 100; 0; 0; 0; 0; 0]);
  (4096 + 10240 + 28, bytes_le 4 3 ++ bytes_le 2 20 ++ [10; 1] ++ kernel_elf ++ [0; 0]);
  (4096 + 12288, bytes_le 2 0xF30A ++ bytes_le 2 2 ++ bytes_le 2 4 ++ bytes_le 2 0 ++ bytes_le 4 0 ++
     bytes_le 4 0 ++ bytes_le 2 1 ++ bytes_le 2 0 ++ bytes_le 4 20 ++ bytes_le 4 2 ++ bytes_le 2 1 ++ bytes_le 2 0 ++ bytes_le 4 22);
  (4096 + 20 * 1024, [127; 69; 76; 70]); (4096 + 22 * 1024, [1; 2; 3])].

Definition demo_cap : Z := 65536.
Definition demo_dev : Dev := mkDev true 2048 (fun lba n => Some (span demo_disk (lba * 2048) n)).
Definition demo_dir : list DirRec := [mkRec 2 2 [46] [0; 0; 0]; mkRec 0 1 [111; 108; 100] (replicate 5 0); mkRec 3 1 kernel_elf [0; 0]].
Notation demo_sb := (parse_superblock (span (vol demo_disk 8) 1024 512)).

Lemma demo_dev_ok : dev_ok demo_disk demo_cap demo_dev 8.
Proof. split; done. Qed.

Lemma demo_bytes a : 0 <= demo_disk a < 256.
Proof. apply patch_bytes. apply (bool_decide_unpack _). vm_compute. exact I. Qed.

Lemma demo_volume : ext4_volume demo_disk demo_cap 8.
Proof.
  split; try (vm_compute; done). intros i. replace (num_at demo_disk 8 1120 4) with 0 by (vm_compute; reflexivity). by rewrite Z.bits_0.
Qed.

Lemma demo_group ino : x_group demo_disk 8 ino = 0 -> group_read demo_disk 8 (x_group demo_disk 8 ino).
Proof. intros ->. split; [vm_compute; reflexivity|by left]. Qed.

Definition root_exts : list Ext := [mkExt 0 1 false 10].
Lemma demo_root : x_file demo_disk demo_cap 8 4096 0 2 root_exts.
Proof.
  split; [lia|]. split; [vm_compute; reflexivity|]. split; [vm_compute; discriminate|]. split; [vm_compute; reflexivity|].
  split; [split_and!; vm_compute; done|]. split; [cbn; split_and!; vm_compute; done|vm_compute; reflexivity].
Qed.

Definition demo_exts : list Ext := [mkExt 0 1 false 20; mkExt 2 1 false 22].
Definition demo_extents : list ExtentEntry := [mkExtent 0 1 20; mkExtent 2 1 22].
Notation demo_file := (content demo_disk 8 1024 demo_extents 2100).

Lemma demo_kernel : x_file demo_disk demo_cap 8 4096 1 3 demo_exts.
Proof.
  split; [lia|]. split; [vm_compute; reflexivity|]. split; [vm_compute; discriminate|]. split; [vm_compute; reflexivity|].
  split. { split; [vm_compute; reflexivity|]. split; [vm_compute; reflexivity|]. split; [vm_compute; discriminate|].
    exists [demo_exts]. split; [done|]. replace (seqZ 0 _) with [0] by (vm_compute; reflexivity). constructor; [|constructor].
    split; [vm_compute; discriminate|]. split_and!; vm_compute; done. }
  split; [cbn; split_and!; vm_compute; done|vm_compute; reflexivity].
Qed.

Lemma find_on_first d hs lba buf : fst (try_handle_for_ext4 d buf) = Got (Some lba) -> find_on (d :: hs) buf = Got (d, lba).
Proof. cbn [find_on]. destruct (try_handle_for_ext4 d buf) as [o b]. cbn [fst]. by intros ->. Qed.

Lemma load_file_correct_witness : load_file_from_ext4 3 (Some [demo_dev]) kernel_elf = Got demo_file.
Proof.
  assert (find_ext4_partition (Some [demo_dev]) = Got (demo_dev, 8)) as Hf by (apply find_on_first; vm_compute; reflexivity).
  destruct (load_file_correct demo_disk demo_cap demo_dev 8 demo_dev_ok demo_bytes 3 (Some [demo_dev]) kernel_elf demo_dir 0 root_exts) as [_ H].
  - exact Hf.
  - vm_compute. discriminate.
  - exact demo_volume.
  - lia.
  - exact demo_root.
  - apply demo_group. vm_compute. reflexivity.
  - repeat constructor.
  - vm_compute. reflexivity.
  - repeat constructor; vm_compute; done.
  - rewrite (H 1%nat demo_exts); [vm_compute; reflexivity|lia|exact demo_kernel|apply demo_group; vm_compute; reflexivity|].
    repeat constructor.
Defined.

Lemma gpt_partition_found_witness : fst (try_handle_for_ext4 demo_dev (zeros 512)) = Got (Some 8).
Proof.
  refine (gpt_partition_found demo_disk demo_cap demo_dev 8 demo_dev_ok demo_bytes (zeros 512) 1 _ _ _ _ _ _ _ _ _).
  - vm_compute. reflexivity.
  - vm_compute. discriminate.
  - vm_compute. reflexivity.
  - vm_compute. discriminate.
  - vm_compute. reflexivity.
  - vm_compute. discriminate.
  - split; vm_compute; done.
  - vm_compute. reflexivity.
  - intros j Hj. replace j with 0 by lia. vm_compute. reflexivity.
Defined.

(** ** A file with a block map *)

Definition demo_inode : Inode := mkInode 0 0 2100 0 0 0 0 0 0 0 0 0 ([20; 0; 22] ++ replicate 12 0) 0 0 0.
Definition demo_reader : SectorReader := mkReader demo_dev 8 (replicate 8 U64_MAX) (replicate 8 (zeros SECTOR_SIZE)).

Lemma block_map_read_witness : read_file 0 demo_reader demo_sb demo_inode = Got demo_file.
Proof.
  rewrite (block_map_read demo_disk demo_cap demo_dev 8 demo_dev_ok 0 demo_reader demo_sb demo_inode).
  - vm_compute. reflexivity.
  - done.
  - split_and!; vm_compute; done.
  - split; [reflexivity|]. replace (Z.min _ _) with 3 by (vm_compute; reflexivity). split; [|lia]. intros j Hj. assert (j = 0 \/ j = 1 \/ j = 2) as [-> | [-> | ->]] by lia; split; vm_compute; done.
  - vm_compute. reflexivity.
  - vm_compute. reflexivity.
Defined.

(** ** A kernel image *)

(** One program header of [ty], [filesz] and [memsz], the file's bytes after it. *)
Definition image (ty paddr filesz memsz : Z) (body : list Z) : list Z :=
  ELF_MAGIC ++ [ELFCLASS64; 1] ++ replicate 10 0 ++ bytes_le 2 ET_EXEC ++ replicate 6 0 ++ bytes_le 8 0x100000 ++ bytes_le 8 64 ++
  replicate 14 0 ++ bytes_le 2 56 ++ bytes_le 2 1 ++ replicate 6 0 ++
  bytes_le 4 ty ++ bytes_le 4 5 ++ bytes_le 8 120 ++ bytes_le 8 paddr ++ bytes_le 8 paddr ++ bytes_le 8 filesz ++ bytes_le 8 memsz ++ bytes_le 8 0 ++ body.

Definition demo_image : list Z := image PT_LOAD 0x100000 3 6 [17; 34; 51].
Definition demo_regions : list MemoryRegion := [mkRegion 0 0x80000; mkRegion 0x100000 0x1000].

Lemma kernel_image_placed_witness :
  exists m', load_elf demo_image demo_regions 2 ∅ = Got (0x100000, m') /\ m' !! 0x100002 = Some 51 /\ m' !! 0x100003 = Some 0 /\ m' !! 0x100006 = None.
Proof.
  destruct (kernel_image_placed demo_image demo_regions 2 ∅) as (m' & He & Hs & Ho).
  - split; [split; vm_compute; done|apply (bool_decide_unpack _); vm_compute; exact I|vm_compute; reflexivity..|right; vm_compute; discriminate|vm_compute; discriminate].
  - replace (segments demo_image) with [segment_at demo_image 64] by (vm_compute; reflexivity). apply Forall_singleton. do 3 (split; [vm_compute; discriminate|]).
    exists (mkRegion 0x100000 0x1000). split; [|split; vm_compute; discriminate]. right. left.
  - replace (segments demo_image) with [segment_at demo_image 64] by (vm_compute; reflexivity). intros [|i] [|j] s t Hi Hj Hij; done.
  - assert (segments demo_image = [mkSegment 1 120 0x100000 3 6]) as E by (vm_compute; reflexivity). rewrite E in Hs, Ho.
    exists m'. split; [exact He|]. split; [|split].
    + apply (Hs (mkSegment 1 120 0x100000 3 6) 2); [left|cbn; lia].
    + apply (Hs (mkSegment 1 120 0x100000 3 6) 3); [left|cbn; lia].
    + rewrite Ho; [done|]. intros s [->|[]%elem_of_nil]%elem_of_cons. unfold in_seg. cbn. lia.
Defined.

(** ** What the loader gets wrong *)

(** A header with more bytes in the file than in memory is accepted, and bytes are
    written behind the region: only the size in memory is checked. *)
Lemma file_part_overruns_region :
  exists m', load_elf (image PT_LOAD 0x100000 3 0 [17; 34; 51]) [mkRegion 0x100000 0] 1 ∅ = Got (0x100000, m') /\ m' !! 0x100002 = Some 51.
Proof. eexists. split; vm_compute; reflexivity. Qed.

(** An initialised extent of the largest length, 0x8000 blocks, is taken for one of
    no blocks: the file keeps its zeros. *)
Lemma longest_extent_dropped r sb raw off data :
  field raw (Z.to_nat (off + 4)) 2 = 0x8000 -> 0 <= ee_block (extent_at raw off) *u64 block_size_of sb -> copy_extents r sb [extent_at raw off] data = Got data.
Proof.
  intros Hl H0. cbn [copy_extents]. assert (ee_len (extent_at raw off) = 0) as -> by (unfold extent_at; cbn [ee_len]; by rewrite Hl).
  set (o := ee_block _ *u64 _) in *. rewrite Z.geb_leb. destruct (Z.leb_spec (Z.of_nat (length data)) o); [done|]. destruct (_ =? 0); [done|].
  rewrite Z.mul_0_l. change (wrap 64 0) with 0. rewrite Z.min_l by lia. cbn [read_ext4_sectors]. unfold read_ext4_sectors. cbn [Z.eqb obind].
  unfold splice. rewrite (proj2 (Z.leb_le 0 o)), (proj2 (Z.leb_le _ _)) by (cbn [length]; lia). cbn [andb obind copy_extents length app]. by rewrite Nat.add_0_r, take_drop.
Qed.

(** An extent that is not yet written, whose blocks read as zeros, is taken for one that
    is: the loader returns what the blocks hold. *)
Lemma unwritten_extent_read raw off n :
  0 <= n < 0x8000 -> field raw (Z.to_nat (off + 4)) 2 = 0x8000 + n -> ee_len (extent_at raw off) = n.
Proof.
  intros Hn Hl. unfold extent_at. cbn [ee_len]. rewrite Hl. change 0x7FFF with (Z.ones 15). rewrite Z.land_ones by lia.
  change 0x8000 with (1 * 2 ^ 15). rewrite Z.add_comm, Z_mod_plus_full. apply Z.mod_small. change (2 ^ 15) with 0x8000. lia.
Qed.

(** Of a node of more than 4 KB, of which the loader has the first 4 KB, the entries
    behind the 340th are left out. *)
Lemma long_node_cut raw : (length raw <= 4096)%nat -> Forall (fun i => i < 340) (extent_indices raw).
Proof.
  intros Hl. unfold extent_indices. apply Forall_forall. intros i [Hi _]%list_elem_of_filter. unfold extent_off, EXTENT_HEADER_SIZE, EXTENT_ENTRY_SIZE in Hi. lia.
Qed.

(** The 64-bit feature is an incompatible one, bit 7 at offset 96 of the
    superblock; the loader looks at offset 100.  On this volume of two groups with
    64-byte descriptors, whose tables are blocks 5 and 7, the second is taken to be
    at block 0. *)
Definition wide_disk : Z -> Z := patch [
  (1024 + 4, bytes_le 4 128); (1024 + 32, bytes_le 4 64); (1024 + 40, bytes_le 4 16); (1024 + 56, bytes_le 2 SB_MAGIC); (1024 + 76, bytes_le 4 1);
  (1024 + 88, bytes_le 2 128); (1024 + 96, bytes_le 4 0x80); (2048 + 8, bytes_le 4 5); (2048 + 64 + 8, bytes_le 4 7)].
Definition wide_reader : SectorReader := mkReader (mkDev true 512 (fun lba n => Some (span wide_disk (lba * 512) n))) 0 (replicate 8 U64_MAX) (replicate 8 (zeros SECTOR_SIZE)).

Lemma wide_descriptors_misread :
  exists sb descs, mount wide_reader = Got (sb, descs) /\ s_feature_incompat sb = 0x80 /\ map bg_inode_table_lo descs = [5; 0] /\
    bg_inode_table_lo (parse_bgd (span wide_disk 2048 128) true 64) = 7.
Proof. eexists _, _. split; [vm_compute; reflexivity|]. split; [|split]; vm_compute; reflexivity. Qed.
