(* ===== verification/Smp.v ===== *)
(** Starting the other processors: enumeration by the boot loader (src/boot/src/mp.rs), the preparation and the start protocol
    on the first processor (src/kernel/src/ap_start.rs, arch/smp.rs), and what a started processor does: the real-mode trampoline
    (arch/smp_trampoline.S) and the first steps of [ap_entry].

    The trampoline page, which the processors share, is physical memory by address.  Cache flushes are left out, and so are the
    delays between the interrupts. *)
From stdpp Require Import base tactics numbers list.
From Stdlib Require Import ZArith Lia.
From S2P Require Import Prelude Percpu KMem Entry.

Local Open Scope Z_scope.
Local Open Scope word_scope.

(** ** Boot loader *)

(** What the firmware says of a processor. *)
Record Proc := mkProc { processor_id : Z; is_enabled : bool; is_healthy : bool; p_is_bsp : bool }.

Record BootInfo := mkBoot { bsp_apic_id : Z; ap_count : Z; ap_apic_ids : list Z }.

(** The loop over processors from [ap_index] recorded ones on. *)
Fixpoint enumerate (limit : nat) (procs : list Proc) (ap_index : nat) (b : BootInfo) : nat * BootInfo :=
  match procs with
  | [] => (ap_index, b)
  | p :: procs =>
    if (limit <=? ap_index)%nat then (ap_index, b)
    else if negb (is_enabled p) || negb (is_healthy p) then enumerate limit procs ap_index b
    else if p_is_bsp p then enumerate limit procs ap_index (mkBoot (wrap 32 (processor_id p)) (ap_count b) (ap_apic_ids b))
    else if (MAX_CPUS - 1 <=? ap_index)%nat then (ap_index, b)
    else enumerate limit procs (S ap_index) (mkBoot (bsp_apic_id b) (ap_count b) (<[ap_index := wrap 32 (processor_id p)]> (ap_apic_ids b)))
  end.

Definition enumerate_aps (procs : list Proc) (b : BootInfo) : BootInfo :=
  let enabled := length (filter (fun p => is_enabled p = true) procs) in
  let to_record := Nat.min enabled MAX_CPUS in
  let '(n, b) := enumerate (Nat.min to_record (MAX_CPUS - 1)) procs 0 b in
  mkBoot (bsp_apic_id b) (Z.of_nat n) (ap_apic_ids b).

(** ** The trampoline page *)

Definition TRAMP_PHYS : Z := 0x8000.
Definition MAILBOX_OFF : Z := 0x400.
Definition MAILBOX_SLOT_SIZE : Z := 0x80.
Definition SLOT_MAP_PHYS : Z := TRAMP_PHYS + 0x300.
Definition MB_STACK : Z := 0x40.
Definition MB_GDT_LIMIT : Z := 0x48.
Definition MB_GDT_BASE : Z := 0x50.
Definition MB_IDT_LIMIT : Z := 0x58.
Definition MB_IDT_BASE : Z := 0x60.
Definition MB_ENTRY : Z := 0x68.
Definition MB_STATUS : Z := 0x70.
Definition MB_PML4 : Z := 0x78.

Definition slot_base (slot : nat) : Z := TRAMP_PHYS + MAILBOX_OFF + Z.of_nat slot * MAILBOX_SLOT_SIZE.

Definition write_mailbox_slot (m : Z -> Z) (slot : nat) (stack_top gdt_limit gdt_base idt_limit idt_base entry pml4 : Z) : Z -> Z :=
  let base := slot_base slot in
  let m := store_le m (base + MB_STACK) 8 stack_top in
  let m := store_le m (base + MB_GDT_LIMIT) 2 gdt_limit in
  let m := store_le m (base + MB_GDT_BASE) 8 gdt_base in
  let m := store_le m (base + MB_IDT_LIMIT) 2 idt_limit in
  let m := store_le m (base + MB_IDT_BASE) 8 idt_base in
  let m := store_le m (base + MB_ENTRY) 8 entry in
  let m := store_le m (base + MB_STATUS) 1 0 in
  store_le m (base + MB_PML4) 8 pml4.

Definition check_ap_slot (m : Z -> Z) (slot : nat) : bool := negb (m (slot_base slot + MB_STATUS) =? 0).

(** [load_trampoline]; [None]: the assertion fails. *)
Definition load_trampoline (bin : list Z) (m : Z -> Z) : option (Z -> Z) :=
  if Z.of_nat (length bin) <=? MAILBOX_OFF
  then Some (fun a => if (TRAMP_PHYS <=? a) && (a <? TRAMP_PHYS + Z.of_nat (length bin)) then nth (Z.to_nat (a - TRAMP_PHYS)) bin 0 else m a)
  else None.

(** ** The first processor *)

(** [AP_BOOT_STATE]: 0 idle, 1 interrupts sent, 2 all ready, 3 error. *)
Record ApBoot := mkApBoot { AP_BOOT_STATE : Z; AP_BOOT_TOTAL : nat; AP_BOOT_SLOTS : list nat; AP_BOOT_APIC_IDS : list Z }.
Definition ap_boot_init : ApBoot := mkApBoot 0 0 (replicate MAX_CPUS 0%nat) (replicate MAX_CPUS 0).

(** The broadcasts of the local APIC. *)
Inductive Ipi := InitAll | SipiAll (vector : Z).

Record Smp (M : Type) := mkSmp {
  low : Z -> Z; pcs : Percpu; segs : nat -> Segments; kmem : M; ap_boot : ApBoot; ipis : list Ipi;
}.
Arguments mkSmp {M}. Arguments low {M}. Arguments pcs {M}. Arguments segs {M}. Arguments kmem {M}. Arguments ap_boot {M}. Arguments ipis {M}.

Definition AP_STACK_PAGES : Z := 4.

Section smp.
Context {M : Type} `{!KernelMem M}.
(** [virt::map_region]; addresses of the per-CPU tables; the interrupt table registers; the address of [ap_entry]. *)
Context (map_region : M -> Z -> Z -> Z -> Z -> M) (seg_addrs : nat -> SegAddrs) (idt_ptr : nat -> Z * Z) (ap_entry_fn : Z).
Implicit Types (w : Smp M).

Definition with_low w (m : Z -> Z) : Smp M := mkSmp m (pcs w) (segs w) (kmem w) (ap_boot w) (ipis w).
Definition with_pcs w (p : Percpu) : Smp M := mkSmp (low w) p (segs w) (kmem w) (ap_boot w) (ipis w).
Definition with_kmem w (m : M) : Smp M := mkSmp (low w) (pcs w) (segs w) m (ap_boot w) (ipis w).
Definition with_boot w (b : ApBoot) : Smp M := mkSmp (low w) (pcs w) (segs w) (kmem w) b (ipis w).
Definition set_boot_state w (v : Z) : Smp M :=
  let b := ap_boot w in with_boot w (mkApBoot v (AP_BOOT_TOTAL b) (AP_BOOT_SLOTS b) (AP_BOOT_APIC_IDS b)).
Definition send w (i : Ipi) : Smp M := mkSmp (low w) (pcs w) (segs w) (kmem w) (ap_boot w) (ipis w ++ [i]).

Definition ids_at (info : BootInfo) (i : nat) : Z := nth i (ap_apic_ids info) 0.

(** Phase 1 for processor [i]: its entry of the slot map and its mailbox. *)
Definition prepare_mailbox (info : BootInfo) (ap_stacks : list Z) (ap_slots : list nat) (pml4_phys : Z) (sg : nat -> Segments) (m : Z -> Z) (i : nat) : Z -> Z :=
  let apic_id := ids_at info i in
  let slot := nth i ap_slots 0%nat in
  let m := if apic_id <? 256 then store_le m (SLOT_MAP_PHYS + apic_id) 1 (wrap 8 (Z.of_nat slot)) else m in
  let '(gdt_limit, gdt_base) := gdt_ptr (sg (slot_of slot)) in
  let '(idt_limit, idt_base) := idt_ptr (slot_of slot) in
  write_mailbox_slot m slot (nth i ap_stacks 0 -u64 8) gdt_limit gdt_base idt_limit idt_base ap_entry_fn pml4_phys.

Definition send_ipis (info : BootInfo) (ap_stacks : list Z) (ap_slots : list nat) w : Smp M :=
  let count := Z.to_nat (ap_count info) in
  if (count =? 0)%nat then set_boot_state w 2
  else if (length ap_stacks <? count)%nat || (length ap_slots <? count)%nat then set_boot_state w 3
  else
    let pml4_phys := pml4_address (kmem w) in
    let count := Nat.min count (MAX_CPUS - 1) in
    let b := ap_boot w in
    let w := with_boot w (mkApBoot (AP_BOOT_STATE b) count
      (take count ap_slots ++ drop count (AP_BOOT_SLOTS b))
      (map (fun i => wrap 8 (ids_at info i)) (seq 0 count) ++ drop count (AP_BOOT_APIC_IDS b))) in
    let m := fun a => if (SLOT_MAP_PHYS <=? a) && (a <? SLOT_MAP_PHYS + 256) then 0xFF else low w a in
    let w := with_low w (fold_left (prepare_mailbox info ap_stacks ap_slots pml4_phys (segs w)) (seq 0 count) m) in
    let w := send w InitAll in
    let w := send w (SipiAll 0x08) in
    let w := send w (SipiAll 0x08) in
    set_boot_state w 1.

(** One poll from the idle loop. *)
Definition poll_aps_ready w : bool * Smp M :=
  let state := AP_BOOT_STATE (ap_boot w) in
  if state =? 2 then (true, w)
  else if negb (state =? 1) then (false, w)
  else
    let total := AP_BOOT_TOTAL (ap_boot w) in
    let ready := length (filter (fun i => check_ap_slot (low w) (nth i (AP_BOOT_SLOTS (ap_boot w)) 0%nat) = true) (seq 0 total)) in
    if (total <=? ready)%nat then (true, set_boot_state w 2) else (false, w).

(** Slots for the processors [i ..]; [None]: the panic when there is none. *)
Fixpoint alloc_slots (info : BootInfo) (n i : nat) (p : Percpu) : option (list nat * Percpu) :=
  match n with
  | O => Some ([], p)
  | S n =>
    match find_slot p (ids_at info i) with
    | (Some slot, p) => '(l, p) ← alloc_slots info n (S i) p; Some (slot :: l, p)
    | (None, _) => None
    end
  end.

(** Stacks for [n] processors; [None]: an allocation failed. *)
Fixpoint alloc_stacks (n : nat) (m : M) : option (list Z) * M :=
  match n with
  | O => (Some [], m)
  | S n =>
    match pages_alloc m AP_STACK_PAGES with
    | (None, m) => (None, m)
    | (Some stack_phys, m) =>
      let stack_size := AP_STACK_PAGES * 4096 in
      let stack_top := stack_phys +u64 stack_size in
      let m := if saturating_add 64 stack_phys stack_size >? 0x100000000
               then map_region m (kernel_pml4 m) stack_phys stack_size (Z.lor (Z.lor 2 1) (Z.shiftl 1 63)) else m in
      let '(l, m) := alloc_stacks n m in
      (cons stack_top <$> l, m)
    end
  end.

(** [None] is a panic. *)
Definition smp_boot_aps (info : BootInfo) w : option (Smp M) :=
  let count := Z.to_nat (ap_count info) in
  if (count =? 0)%nat then Some w
  else
    let count := Nat.min count (MAX_CPUS - 1) in
    '(ap_slots, p) ← alloc_slots info count 0 (pcs w);
    let sg := fold_left (fun sg slot => fun i => if (i =? slot)%nat then init_tss_descriptor_for_slot (seg_addrs slot) (sg slot) else sg i) ap_slots (segs w) in
    let w := mkSmp (low w) p sg (kmem w) (ap_boot w) (ipis w) in
    match alloc_stacks count (kmem w) with
    | (None, m) => Some (with_kmem w m)
    | (Some ap_stacks, m) => Some (send_ipis info ap_stacks ap_slots (with_kmem w m))
    end.

(** ** A started processor *)

(** The registers the trampoline loads. *)
Record ApRegs := mkApRegs { ap_cr3 : Z; ap_gdt : Z * Z; ap_idt : Z * Z; ap_rsp : Z; ap_rip : Z }.

(** The slot: the map's entry, or the low bits of the APIC ID when there is none. *)
Definition trampoline_slot (m : Z -> Z) (apic_id : Z) : nat :=
  let cl := m (SLOT_MAP_PHYS + apic_id) in
  Z.to_nat (if cl =? 0xFF then Z.land apic_id 3 else cl).

(** From the startup interrupt to the jump to [ap_entry]; only the low half of the page table's address is loaded. *)
Definition trampoline (m : Z -> Z) (apic_id : Z) : ApRegs * (Z -> Z) :=
  let b := slot_base (trampoline_slot m apic_id) in
  (mkApRegs (le_at m (b + MB_PML4) 4) (le_at m (b + MB_GDT_LIMIT) 2, le_at m (b + MB_GDT_BASE) 8)
     (le_at m (b + MB_IDT_LIMIT) 2, le_at m (b + MB_IDT_BASE) 8) (le_at m (b + MB_STACK) 8) (le_at m (b + MB_ENTRY) 8),
   store_le m (b + MB_STATUS) 1 1).

(** [ap_entry] up to registering: the slot from the map, then [mark_online_for_slot]; [None]: the index is out of range. *)
Definition ap_register (apic_id : Z) w : option (Smp M) :=
  let slot := Z.to_nat (low w (SLOT_MAP_PHYS + apic_id)) in
  with_pcs w <$> mark_online_for_slot (pcs w) apic_id slot.
End smp.
