(* ===== verification/SmpThms.v ===== *)
(** Starting the other processors gives each its own slot, stack and tables; the poll says when all have arrived.  Where the
    protocol fails: a processor that was not counted takes the stack of another. *)
From stdpp Require Import base tactics numbers list sets.
From Stdlib Require Import ZArith Lia.
From S2P Require Import Prelude Percpu Phys PhysInv PhysSpec KMem HeapThms ExecThms Entry Smp.

Local Open Scope Z_scope.
Local Open Scope word_scope.
Set Default Proof Using "Type".

(** ** Slots *)

Lemma first_index_at {A} (f : A -> bool) l1 x l2 :
  Forall (fun y => f y = false) l1 -> f x = true -> first_index f (l1 ++ x :: l2) = Some (length l1).
Proof. induction l1 as [|y l1 IH]; simpl; intros Hf Hx; [by rewrite Hx|]. apply Forall_cons in Hf as [-> Hf]. by rewrite IH. Qed.

Lemma first_index_none {A} (f : A -> bool) l : Forall (fun y => f y = false) l -> first_index f l = None.
Proof. induction l as [|y l IH]; simpl; intros Hf; [done|]. apply Forall_cons in Hf as [-> Hf]. by rewrite IH. Qed.

(** The first [k] slots are taken, the others are not; only the first processor has registered. *)
Definition claimed (bsp : Z) (p : Percpu) (k : nat) : Prop :=
  exists on off, PERCPU p = on ++ off /\ length on = k /\ (length (on ++ off) = MAX_CPUS)%nat /\
    Forall (fun x => online x = true) on /\ Forall (fun x => online x = false) off /\
    Forall (fun x => apic_id x = bsp \/ apic_id x = U32_MAX) (on ++ off).

Lemma find_slot_claims bsp p k id :
  claimed bsp p k -> (k < MAX_CPUS)%nat -> id <> bsp -> id <> U32_MAX ->
  exists p', find_slot p id = (Some k, p') /\ claimed bsp p' (S k) /\ APIC_TO_SLOT p' = APIC_TO_SLOT p.
Proof.
  intros (on & off & E & <- & Hlen & Hon & Hoff & Hid) Hk Hb Hu. unfold find_slot. rewrite E.
  rewrite first_index_none by (eapply Forall_impl; [exact Hid|]; intros x [Hx|Hx]; simpl; apply Z.eqb_neq; congruence).
  rewrite length_app in Hlen. destruct off as [|x off]; [simpl in Hlen; lia|].
  apply Forall_cons in Hoff as [Hx Hoff].
  rewrite first_index_at; [|by eapply Forall_impl; [exact Hon|]; intros y ->|by rewrite Hx].
  eexists. split; [done|]. split; [|done]. exists (on ++ [with_online x true]), off. simpl. unfold slot.
  rewrite E, lookup_app_r, Nat.sub_diag by lia. simpl. rewrite insert_app_r_alt, Nat.sub_diag by lia. simpl.
  rewrite <-app_assoc. split_and!; [done|rewrite length_app; simpl; lia|rewrite !length_app in *; simpl in *; lia| |done|].
  - apply Forall_app. split; [done|]. by apply Forall_singleton.
  - apply Forall_app in Hid as [? Hid]. apply Forall_cons in Hid as [? ?]. apply Forall_app. split; [done|]. by apply Forall_cons.
Qed.

Lemma alloc_slots_seq bsp info n : forall i p,
  claimed bsp p (S i) -> (S i + n <= MAX_CPUS)%nat -> (forall j, (i <= j < i + n)%nat -> ids_at info j <> bsp /\ ids_at info j <> U32_MAX) ->
  exists p', alloc_slots info n i p = Some (seq (S i) n, p') /\ claimed bsp p' (S i + n) /\ APIC_TO_SLOT p' = APIC_TO_SLOT p.
Proof.
  induction n as [|n IH]; intros i p Hc Hn Hid; simpl.
  - exists p. by rewrite Nat.add_0_r.
  - destruct (Hid i ltac:(lia)) as [Hb Hu]. destruct (find_slot_claims bsp p (S i) (ids_at info i) Hc ltac:(lia) Hb Hu) as (p1 & -> & Hc1 & E1).
    destruct (IH (S i) p1 Hc1 ltac:(lia)) as (p' & -> & Hc' & E'); [intros; apply Hid; lia|]. exists p'. split; [done|].
    split; [|congruence]. by replace (S (i + S n)) with (S (S i) + n)%nat by lia.
Qed.

(** ** Stacks *)

(** What the page allocator and the mapping of stacks promise: the pages handed out are distinct. *)
Class StackMem (M : Type) `{!KernelMem M} (map_region : M -> Z -> Z -> Z -> Z -> M) := {
  held : M -> list Z -> Prop;
  held_alloc : forall m C a m', held m C -> pages_alloc m AP_STACK_PAGES = (Some a, m') ->
    0 < a /\ a mod PAGE_SIZE = 0 /\ held m' (range_pages a (a + AP_STACK_PAGES * PAGE_SIZE) ++ C);
  held_map : forall m C p a n f, held m C -> held (map_region m p a n f) C;
  held_perm : forall m C C', C ≡ₚ C' -> held m C -> held m C';
  held_nodup : forall m C, held m C -> NoDup C /\ Forall (fun pn => pn < 2 ^ 35) C;
}.

Definition no_map (m : FlatMem) (_ _ _ _ : Z) : FlatMem := m.

#[export] Instance FlatMem_stacks : StackMem FlatMem no_map.
Proof.
  apply (Build_StackMem FlatMem _ no_map flat_held).
  - intros m C a m' (P & Hinv & Hnd & Hb) E. simpl in E. destruct (alloc_pages (fm_phys m) AP_STACK_PAGES) as [r s] eqn:Ea. simplify_eq.
    destruct (alloc_pages_some _ P AP_STACK_PAGES a s Hinv ltac:(unfold AP_STACK_PAGES; lia) Ea) as (_ & H1 & H2 & P' & Hinv' & Hsub). split; [done|]. split; [done|].
    exists P'. split; [done|]. assert ((range_pages a (a + AP_STACK_PAGES * PAGE_SIZE) ++ C) ++ P' ⊆+ C ++ P) as Hs.
    { rewrite <-app_assoc, (Permutation_app_swap_app _ C P'). by apply submseteq_skips_l. }
    split; [by eapply submseteq_NoDup|]. rewrite Forall_forall in *. intros pn Hpn. apply Hb. by eapply elem_of_submseteq.
  - done.
  - intros m C C' Hp (P & Hinv & Hnd & Hb). exists P. by rewrite <-Hp.
  - intros m C (P & _ & Hnd & Hb). apply NoDup_app in Hnd as [? _]. by apply Forall_app in Hb as [? _].
Defined.

(** The pages of the stack that ends at [top]. *)
Definition stack_pages (top : Z) : list Z := range_pages (top - AP_STACK_PAGES * PAGE_SIZE) top.

Lemma bind_disjoint {A B} (f : A -> list B) l i j x y :
  NoDup (l ≫= f) -> l !! i = Some x -> l !! j = Some y -> i <> j -> f x ## f y.
Proof.
  revert i j. induction l as [|z l IH]; intros i j Hnd Hi Hj Hne; [done|]. simpl in Hnd.
  apply NoDup_app in Hnd as (_ & Hd & Hnd).
  assert (forall k y, l !! k = Some y -> f z ## f y) as Hz.
  { intros k y' Hk b Hb Hb'. apply (Hd b Hb), list_elem_of_bind. exists y'. split; [done|]. by eapply list_elem_of_lookup_2. }
  destruct i, j; simplify_eq/=; [by eapply Hz|intros b ? ?; by eapply Hz|]. eapply IH; eauto.
Qed.

Section stacks.
Context {M : Type} `{!KernelMem M} (map_region : M -> Z -> Z -> Z -> Z -> M) `{!StackMem M map_region}.

Lemma alloc_stacks_held k : forall m C l m',
  held m C -> alloc_stacks map_region k m = (Some l, m') ->
  held m' ((l ≫= stack_pages) ++ C) /\ Forall (fun top => AP_STACK_PAGES * PAGE_SIZE < top < 2 ^ 48 /\ top mod PAGE_SIZE = 0) l.
Proof.
  induction k as [|k IH]; intros m C l m' Hh E; simpl in E; [by simplify_eq|].
  destruct (pages_alloc m AP_STACK_PAGES) as [[a|] m1] eqn:Ea; [|done]. destruct (held_alloc _ _ _ _ Hh Ea) as (Ha & Hal & Hh1).
  pose proof (proj2 (held_nodup _ _ Hh1)) as Hb. apply Forall_app in Hb as [Hb _]. rewrite Forall_forall in Hb.
  assert (a / PAGE_SIZE < 2 ^ 35) as Hlt.
  { apply Hb, elem_of_seqZ. unfold AP_STACK_PAGES, PAGE_SIZE. div_lia. }
  assert (a +u64 (AP_STACK_PAGES * 4096) = a + AP_STACK_PAGES * PAGE_SIZE) as Etop.
  { apply wrap_small. unfold AP_STACK_PAGES, PAGE_SIZE in *. div_lia. }
  rewrite Etop in E. destruct (alloc_stacks map_region k _) as [[l1|] m2] eqn:E1; simplify_eq/=.
  eapply (IH _ (range_pages a (a + AP_STACK_PAGES * PAGE_SIZE) ++ C)) in E1 as [H1 H2];
    [|destruct (_ >? _); [by apply held_map|done]].
  split.
  - eapply held_perm, H1. unfold stack_pages at 2. rewrite Z.add_simpl_r. solve_Permutation.
  - constructor; [|done]. unfold AP_STACK_PAGES, PAGE_SIZE in *. div_lia.
Qed.

(** Two of the stacks do not overlap. *)
Lemma stacks_disjoint k m l m' i j :
  held m [] -> alloc_stacks map_region k m = (Some l, m') -> (i < length l)%nat -> (j < length l)%nat -> i <> j ->
  nth i l 0 <= nth j l 0 - AP_STACK_PAGES * 4096 \/ nth j l 0 <= nth i l 0 - AP_STACK_PAGES * 4096.
Proof.
  intros Hh E Hi Hj Hne. destruct (alloc_stacks_held _ _ _ _ _ Hh E) as [Hh' Hf]. rewrite app_nil_r in Hh'.
  destruct (lookup_lt_is_Some_2 l i Hi) as [x Hx], (lookup_lt_is_Some_2 l j Hj) as [y Hy].
  rewrite (nth_lookup_Some _ _ _ _ Hx), (nth_lookup_Some _ _ _ _ Hy).
  pose proof (bind_disjoint _ _ _ _ _ _ (proj1 (held_nodup _ _ Hh')) Hx Hy Hne) as Hd.
  rewrite Forall_forall in Hf. destruct (Hf x) as [Hx1 Hx2]; [by eapply list_elem_of_lookup_2|]. destruct (Hf y) as [Hy1 Hy2]; [by eapply list_elem_of_lookup_2|].
  destruct (Z.le_gt_cases x (y - AP_STACK_PAGES * 4096)); [by left|]. right. apply Z.le_ngt. intros Hlt.
  apply (Hd (Z.min x y / PAGE_SIZE - 1)); apply elem_of_seqZ; unfold AP_STACK_PAGES, PAGE_SIZE in *; div_lia.
Qed.
End stacks.

(** ** Mailboxes *)

(** What a mailbox holds; the status apart. *)
Record Mailbox := mkMailbox { b_stack : Z; b_gdt : Z * Z; b_idt : Z * Z; b_entry : Z; b_pml4 : Z }.
Definition mailbox_ok (b : Mailbox) : Prop :=
  0 <= b_stack b < 2 ^ 64 /\ 0 <= (b_gdt b).1 < 2 ^ 16 /\ 0 <= (b_gdt b).2 < 2 ^ 64 /\ 0 <= (b_idt b).1 < 2 ^ 16 /\ 0 <= (b_idt b).2 < 2 ^ 64 /\
  0 <= b_entry b < 2 ^ 64 /\ 0 <= b_pml4 b < 2 ^ 32.

Definition holds (m : Z -> Z) (slot : nat) (b : Mailbox) : Prop :=
  let p := slot_base slot in
  le_at m (p + MB_STACK) 8 = b_stack b /\ le_at m (p + MB_GDT_LIMIT) 2 = (b_gdt b).1 /\ le_at m (p + MB_GDT_BASE) 8 = (b_gdt b).2 /\
  le_at m (p + MB_IDT_LIMIT) 2 = (b_idt b).1 /\ le_at m (p + MB_IDT_BASE) 8 = (b_idt b).2 /\ le_at m (p + MB_ENTRY) 8 = b_entry b /\
  le_at m (p + MB_PML4) 4 = b_pml4 b.

(** The addresses of a mailbox. *)
Definition in_slot (slot : nat) (a : Z) : Prop := slot_base slot <= a < slot_base slot + MAILBOX_SLOT_SIZE.

Lemma slots_disjoint i j a : in_slot i a -> in_slot j a -> i = j.
Proof. unfold in_slot, slot_base, MAILBOX_SLOT_SIZE. lia. Qed.

Lemma map_not_slot id i : 0 <= id < 256 -> ~ in_slot i (SLOT_MAP_PHYS + id).
Proof. unfold in_slot, slot_base, SLOT_MAP_PHYS, MAILBOX_OFF, MAILBOX_SLOT_SIZE. lia. Qed.

Lemma write_mailbox_out m slot st gl gb il ib en pm a : ~ in_slot slot a -> write_mailbox_slot m slot st gl gb il ib en pm a = m a.
Proof.
  intros H. unfold in_slot, MAILBOX_SLOT_SIZE in H. unfold write_mailbox_slot, MB_STACK, MB_GDT_LIMIT, MB_GDT_BASE, MB_IDT_LIMIT, MB_IDT_BASE, MB_ENTRY, MB_STATUS, MB_PML4.
  rewrite !store_le_out by (simpl; lia). done.
Qed.

Lemma le_at_prefix m p v n k : 0 <= v < 256 ^ Z.of_nat k -> (k <= n)%nat -> le_at (store_le m p n v) p k = v.
Proof.
  intros Hv Hk. rewrite (le_at_digits _ k p v); [by apply Z.mod_small|]. intros i Hi. unfold store_le.
  rewrite (proj2 (Z.leb_le _ _)), (proj2 (Z.ltb_lt _ _)) by lia. cbn [andb]. by replace (p + i - p) with i by lia.
Qed.

Lemma write_mailbox_holds m slot b :
  mailbox_ok b ->
  let m' := write_mailbox_slot m slot (b_stack b) (b_gdt b).1 (b_gdt b).2 (b_idt b).1 (b_idt b).2 (b_entry b) (b_pml4 b) in
  holds m' slot b /\ check_ap_slot m' slot = false.
Proof.
  intros (H1 & H2 & H3 & H4 & H5 & H6 & H7). cbv zeta. unfold holds, check_ap_slot, write_mailbox_slot.
  unfold MB_STACK, MB_GDT_LIMIT, MB_GDT_BASE, MB_IDT_LIMIT, MB_IDT_BASE, MB_ENTRY, MB_STATUS, MB_PML4. set (p := slot_base slot).
  split.
  - split_and!; repeat (rewrite le_at_store_out by (simpl; lia)); first [by apply le_at_store|by apply le_at_prefix; [|lia]].
  - rewrite store_le_out by (simpl; lia). unfold store_le at 1.
    rewrite (proj2 (Z.leb_le _ _)), (proj2 (Z.ltb_lt _ _)) by (simpl; lia). cbn [andb]. by rewrite Z.div_0_l by (apply Z.pow_nonzero; lia).
Qed.

Lemma holds_ext m m' slot b : holds m slot b -> (forall a, in_slot slot a -> a <> slot_base slot + MB_STATUS -> m' a = m a) -> holds m' slot b.
Proof.
  intros H E. unfold holds in *. unfold in_slot, MAILBOX_SLOT_SIZE, MB_STACK, MB_GDT_LIMIT, MB_GDT_BASE, MB_IDT_LIMIT, MB_IDT_BASE, MB_ENTRY, MB_STATUS, MB_PML4 in *.
  destruct H as (<- & <- & <- & <- & <- & <- & <-). split_and!; apply le_at_ext; intros a Ha; apply E; simpl in Ha; lia.
Qed.

Lemma status_in_slot i : in_slot i (slot_base i + MB_STATUS).
Proof. unfold in_slot, MB_STATUS, MAILBOX_SLOT_SIZE. lia. Qed.

Section boot.
Context {M : Type} `{!KernelMem M}.
Context (map_region : M -> Z -> Z -> Z -> Z -> M) (seg_addrs : nat -> SegAddrs) (idt_ptr : nat -> Z * Z) (ap_entry_fn : Z).
Context (info : BootInfo) (n : nat) (stacks : list Z) (pml4 : Z) (sg : nat -> Segments).
Context (Hn : (n <= MAX_CPUS - 1)%nat).
Context (Hids : forall i, (i < n)%nat -> 0 <= ids_at info i < 256).
Context (Hdist : forall i j, (i < n)%nat -> (j < n)%nat -> ids_at info i = ids_at info j -> i = j).

(** The mailbox of processor [i], whose slot is [i + 1]. *)
Definition box (i : nat) : Mailbox :=
  mkMailbox (nth i stacks 0 -u64 8) (gdt_ptr (sg (slot_of (S i)))) (idt_ptr (slot_of (S i))) ap_entry_fn pml4.
Context (Hbox : forall i, (i < n)%nat -> mailbox_ok (box i)).

(** Processor [i] can start: its entry of the map and its mailbox. *)
Definition prepared (m : Z -> Z) (i : nat) : Prop := m (SLOT_MAP_PHYS + ids_at info i) = Z.of_nat (S i) /\ holds m (S i) (box i).

Local Notation prepare := (prepare_mailbox idt_ptr ap_entry_fn info stacks (seq 1 n) pml4 sg).

Lemma prepare_eq m i : (i < n)%nat ->
  prepare m i = write_mailbox_slot (store_le m (SLOT_MAP_PHYS + ids_at info i) 1 (Z.of_nat (S i))) (S i)
    (b_stack (box i)) (b_gdt (box i)).1 (b_gdt (box i)).2 (b_idt (box i)).1 (b_idt (box i)).2 (b_entry (box i)) (b_pml4 (box i)).
Proof using Hn Hids.
  intros Hi. pose proof (Hids i Hi). unfold prepare_mailbox. rewrite (proj2 (Z.ltb_lt _ 256)) by lia. rewrite seq_nth by done.
  rewrite wrap_small by (unfold MAX_CPUS in Hn; lia). simpl (1 + i)%nat. unfold box. cbn [b_stack b_gdt b_idt b_entry b_pml4].
  destruct (gdt_ptr _), (idt_ptr _). done.
Qed.

Lemma prepare_self m i : (i < n)%nat -> prepared (prepare m i) i /\ check_ap_slot (prepare m i) (S i) = false.
Proof using Hn Hids Hbox.
  intros Hi. rewrite prepare_eq by done. destruct (write_mailbox_holds (store_le m (SLOT_MAP_PHYS + ids_at info i) 1 (Z.of_nat (S i))) (S i) (box i) (Hbox i Hi)) as [Hh Hs].
  split; [|done]. split; [|done]. rewrite write_mailbox_out by (by apply map_not_slot, Hids). unfold store_le.
  rewrite (proj2 (Z.leb_le _ _)), (proj2 (Z.ltb_lt _ _)) by (simpl; lia). cbn [andb].
  rewrite Z.sub_diag, Z.pow_0_r, Z.div_1_r. apply Z.mod_small. unfold MAX_CPUS in Hn. lia.
Qed.

Lemma prepare_out m i a : (i < n)%nat -> a <> SLOT_MAP_PHYS + ids_at info i -> ~ in_slot (S i) a -> prepare m i a = m a.
Proof using Hn Hids.
  intros Hi Ha Hs. rewrite prepare_eq by done. rewrite write_mailbox_out by done. apply store_le_out. simpl. lia.
Qed.

(** A change outside the map's entry and the mailbox of processor [j], its status apart, keeps it prepared. *)
Lemma prepared_ext m m' j :
  prepared m j -> m' (SLOT_MAP_PHYS + ids_at info j) = m (SLOT_MAP_PHYS + ids_at info j) ->
  (forall a, in_slot (S j) a -> a <> slot_base (S j) + MB_STATUS -> m' a = m a) -> prepared m' j.
Proof. intros [Hm Hh] E Ho. split; [by rewrite E|]. by apply (holds_ext m). Qed.

Lemma prepare_other m i j : (i < n)%nat -> (j < n)%nat -> i <> j -> prepared m j ->
  prepared (prepare m i) j /\ check_ap_slot (prepare m i) (S j) = check_ap_slot m (S j).
Proof using Hn Hids Hdist.
  intros Hi Hj Hne Hp.
  assert (forall a, in_slot (S j) a -> prepare m i a = m a) as Ha.
  { intros a Hs. apply prepare_out; [done| |].
    - intros ->. by apply (map_not_slot (ids_at info i) (S j)); [apply Hids|].
    - intros Hs'. pose proof (slots_disjoint _ _ _ Hs Hs'). lia. }
  split.
  - apply (prepared_ext m); [done| |auto]. apply prepare_out; [done| |by apply map_not_slot, Hids].
    intros E. apply Hne. symmetry. apply Hdist; [done..|lia].
  - unfold check_ap_slot. by rewrite Ha by apply status_in_slot.
Qed.

Lemma all_prepared m k : (k <= n)%nat -> forall i, (i < k)%nat ->
  prepared (fold_left prepare (seq 0 k) m) i /\ check_ap_slot (fold_left prepare (seq 0 k) m) (S i) = false.
Proof using Hn Hids Hdist Hbox.
  induction k as [|k IH]; intros Hk i Hi; [lia|]. rewrite seq_S, fold_left_app. cbn [fold_left]. simpl (0 + k)%nat.
  destruct (decide (i = k)) as [->|Hne]; [by apply prepare_self|].
  destruct (IH ltac:(lia) i ltac:(lia)) as [Hp Hs]. rewrite <-Hs. apply prepare_other; (done || lia).
Qed.

(** ** Arrival *)

(** The registers of processor [i]. *)
Definition regs_of (i : nat) : ApRegs :=
  mkApRegs pml4 (gdt_ptr (sg (slot_of (S i)))) (idt_ptr (slot_of (S i))) (nth i stacks 0 -u64 8) ap_entry_fn.

Definition arrive (m : Z -> Z) (i : nat) : Z -> Z := (trampoline m (ids_at info i)).2.

Lemma trampoline_prepared m i : (i < n)%nat -> prepared m i ->
  trampoline m (ids_at info i) = (regs_of i, store_le m (slot_base (S i) + MB_STATUS) 1 1).
Proof using Hn.
  intros Hi [Hm (H1 & H2 & H3 & H4 & H5 & H6 & H7)]. unfold trampoline, trampoline_slot. rewrite Hm.
  rewrite (proj2 (Z.eqb_neq (Z.of_nat (S i)) 0xFF)) by (unfold MAX_CPUS in Hn; lia). rewrite Nat2Z.id.
  rewrite H1, H2, H3, H4, H5, H6, H7. unfold regs_of, box. cbn [b_stack b_gdt b_idt b_entry b_pml4]. by rewrite <-!surjective_pairing.
Qed.

Lemma arrive_keeps m i j : (i < n)%nat -> (j < n)%nat -> prepared m i -> prepared m j ->
  prepared (arrive m i) j /\ check_ap_slot (arrive m i) (S j) = check_ap_slot m (S j) || bool_decide (i = j).
Proof using Hn Hids.
  intros Hi Hj Hp Hpj. unfold arrive. rewrite trampoline_prepared by done. cbn [snd].
  assert (forall a, a <> slot_base (S i) + MB_STATUS -> store_le m (slot_base (S i) + MB_STATUS) 1 1 a = m a) as Ho
    by (intros a Ha; apply store_le_out; simpl; lia).
  split.
  - apply (prepared_ext m); [done| |].
    + apply Ho. intros E. apply (map_not_slot (ids_at info j) (S i)); [by apply Hids|]. rewrite E. apply status_in_slot.
    + intros a Ha Hne. apply Ho. intros ->. pose proof (slots_disjoint _ _ _ Ha (status_in_slot (S i))) as E. injection E as ->. done.
  - unfold check_ap_slot. case_bool_decide as Hd.
    + subst j. rewrite orb_true_r. unfold store_le. rewrite (proj2 (Z.leb_le _ _)), (proj2 (Z.ltb_lt _ _)) by (simpl; lia). cbn [andb].
      by rewrite Z.sub_diag.
    + rewrite orb_false_r, Ho; [done|]. intros E. apply Hd. pose proof (status_in_slot (S j)) as Hs. rewrite E in Hs.
      pose proof (slots_disjoint _ _ _ Hs (status_in_slot (S i))). lia.
Qed.

(** Processors arrive in any order, once or more. *)
Lemma arrivals order : forall m,
  Forall (fun i => (i < n)%nat) order -> (forall j, (j < n)%nat -> prepared m j) ->
  forall j, (j < n)%nat -> prepared (fold_left arrive order m) j /\
    check_ap_slot (fold_left arrive order m) (S j) = check_ap_slot m (S j) || bool_decide (j ∈ order).
Proof using Hn Hids.
  clear Hdist Hbox seg_addrs map_region. induction order as [|i order IH]; intros m Ho Hp j Hj; cbn [fold_left].
  - split; [by apply Hp|]. rewrite bool_decide_eq_false_2 by (by intros ?%elem_of_nil). by rewrite orb_false_r.
  - apply Forall_cons in Ho as [Hi Ho].
    destruct (IH (arrive m i) Ho) with (j := j) as [H1 H2]; [|done|].
    { intros k Hk. apply (arrive_keeps m i k); auto. }
    split; [done|]. rewrite H2. destruct (arrive_keeps m i j) as [_ ->]; auto. rewrite <-orb_assoc. f_equal.
    rewrite <-bool_decide_or. apply bool_decide_ext. rewrite elem_of_cons. naive_solver.
Qed.
End boot.

Lemma filter_keeps_all {A} (P : A -> Prop) `{!forall x, Decision (P x)} l : (length l <= length (filter P l))%nat <-> Forall P l.
Proof.
  induction l as [|x l IH]; [split; [by constructor|done]|]. rewrite filter_cons, Forall_cons.
  pose proof (length_filter P l). destruct (decide (P x)); simpl; [rewrite <-Nat.succ_le_mono, IH; naive_solver|split; [lia|naive_solver]].
Qed.

Section boot_all.
Context {M : Type} `{!KernelMem M} (map_region : M -> Z -> Z -> Z -> Z -> M) `{!StackMem M map_region}.
Context (seg_addrs : nat -> SegAddrs) (idt_ptr : nat -> Z * Z) (ap_entry_fn : Z).

Lemma alloc_stacks_length k : forall m l m', alloc_stacks map_region k m = (Some l, m') -> length l = k.
Proof.
  induction k as [|k IH]; intros m l m' E; simpl in E; [by simplify_eq|].
  destruct (pages_alloc m AP_STACK_PAGES) as [[p|] m1]; [|done].
  destruct (alloc_stacks map_region k _) as [[l1|] m2] eqn:E1; simplify_eq/=. f_equal. by eapply IH.
Qed.

(** Preparing the tables of distinct slots. *)
Lemma tables_prepared l : forall (sg : nat -> Segments) i, NoDup l -> i ∈ l ->
  gdt_ptr (fold_left (fun sg slot => fun i => if (i =? slot)%nat then init_tss_descriptor_for_slot (seg_addrs slot) (sg slot) else sg i) l sg i) =
    (SIZEOF_GDT - 1, a_gdt (seg_addrs i)).
Proof.
  clear idt_ptr ap_entry_fn. clear dependent map_region. assert (forall l sg i, i ∉ l -> fold_left (fun (sg : nat -> Segments) slot => fun i => if (i =? slot)%nat then init_tss_descriptor_for_slot (seg_addrs slot) (sg slot) else sg i) l sg i = sg i) as Hout.
  { induction l0 as [|j l0 IH]; intros sg i Hi; [done|]. cbn [fold_left]. rewrite IH by set_solver.
    destruct (Nat.eqb_spec i j); [set_solver|done]. }
  induction l as [|j l IH]; intros sg i Hd Hi; [by apply elem_of_nil in Hi|]. apply NoDup_cons in Hd as [Hj Hd]. cbn [fold_left].
  apply elem_of_cons in Hi as [->|Hi]; [|by apply IH]. rewrite Hout by done. rewrite Nat.eqb_refl. unfold init_tss_descriptor_for_slot. by destruct (make_tss_descriptor _ _).
Qed.

(** What the kernel knows when it starts the others: the first processor has slot 0; at most three others with distinct small IDs. *)
Record boot_ready (info : BootInfo) (w : Smp M) (bsp : Z) (n : nat) : Prop := {
  br_count : ap_count info = Z.of_nat n;
  br_bound : (1 <= n <= MAX_CPUS - 1)%nat;
  br_ids : forall i, (i < n)%nat -> 0 <= ids_at info i < 256 /\ ids_at info i <> bsp;
  br_distinct : forall i j, (i < n)%nat -> (j < n)%nat -> ids_at info i = ids_at info j -> i = j;
  br_slots : claimed bsp (pcs w) 1;
  br_table : length (APIC_TO_SLOT (pcs w)) = 256%nat;
  br_entry : 0 <= ap_entry_fn < 2 ^ 64;
  br_tables : forall i, (i < MAX_CPUS)%nat -> 0 <= a_gdt (seg_addrs i) < 2 ^ 64 /\ 0 <= (idt_ptr i).1 < 2 ^ 16 /\ 0 <= (idt_ptr i).2 < 2 ^ 64;
}.

Lemma register_own_slot (w : Smp M) id i :
  low w (SLOT_MAP_PHYS + id) = Z.of_nat (S i) -> length (PERCPU (pcs w)) = MAX_CPUS -> length (APIC_TO_SLOT (pcs w)) = 256%nat ->
  (S i < MAX_CPUS)%nat -> 0 <= id < 256 ->
  exists w'', ap_register id w = Some w'' /\
    apic_id (slot (pcs w'') (S i)) = id /\ online (slot (pcs w'') (S i)) = true /\ APIC_TO_SLOT (pcs w'') !! Z.to_nat id = Some (Z.of_nat (S i)).
Proof.
  clear. intros Em Hl Ht Hi Hid. unfold ap_register, mark_online_for_slot. rewrite Em, Nat2Z.id, (proj2 (Z.ltb_lt id 256)) by lia.
  destruct (lookup_lt_is_Some_2 (PERCPU (pcs w)) (S i)) as [x Hx]; [lia|]. rewrite Hx. eexists. split; [done|]. cbn [pcs with_pcs]. unfold slot. cbn [PERCPU APIC_TO_SLOT].
  rewrite list_lookup_insert_eq by (apply lookup_lt_Some in Hx; lia). split_and!; [done..|].
  rewrite list_lookup_insert_eq by lia. f_equal. apply wrap_small. unfold MAX_CPUS in *. lia.
Qed.

Lemma poll_iff (w : Smp M) n rest :
  AP_BOOT_STATE (ap_boot w) = 1 -> AP_BOOT_TOTAL (ap_boot w) = n -> AP_BOOT_SLOTS (ap_boot w) = seq 1 n ++ rest ->
  (poll_aps_ready w).1 = true <-> forall i, (i < n)%nat -> check_ap_slot (low w) (S i) = true.
Proof.
  clear. intros E1 E2 E3. unfold poll_aps_ready. rewrite E1, E2, E3. cbn [Z.eqb Pos.eqb negb].
  set (P := fun i => check_ap_slot (low w) (nth i (seq 1 n ++ rest) 0%nat) = true).
  assert ((n <=? length (filter P (seq 0 n)))%nat = true <-> forall i, (i < n)%nat -> check_ap_slot (low w) (S i) = true) as H.
  { rewrite Nat.leb_le. rewrite <-(length_seq n 0) at 1. rewrite filter_keeps_all, Forall_forall. unfold P. split.
    - intros Hf i Hi. specialize (Hf i). rewrite app_nth1, seq_nth in Hf by (rewrite ?length_seq; done). apply Hf, elem_of_seq. lia.
    - intros Hf i Hi%elem_of_seq. rewrite app_nth1, seq_nth by (rewrite ?length_seq; lia). apply Hf. lia. }
  by destruct (n <=? _)%nat.
Qed.

(** C39: Every processor starts with its own slot, stack and tables.  Let the boot loader have found up to three other
    processors with distinct APIC IDs, and let the stacks be allocated.  Then one INIT and two startup interrupts are broadcast, no two
    stacks overlap, and in whatever order the processors arrive, each finds its own mailbox: the kernel's page tables, the descriptor table and
    interrupt table of its slot, its own stack and the kernel's entry point; it registers under its APIC ID in that slot, which no
    other has; and the poll of the idle loop says ready exactly when all have arrived. *)
Theorem processors_start_separately info (w : Smp M) bsp n stacks m' :
  boot_ready info w bsp n -> held (kmem w) [] -> alloc_stacks map_region n (kmem w) = (Some stacks, m') -> 0 <= pml4_address m' < 2 ^ 32 ->
  exists w', smp_boot_aps map_region seg_addrs idt_ptr ap_entry_fn info w = Some w' /\
    ipis w' = ipis w ++ [InitAll; SipiAll 8; SipiAll 8] /\
    (forall i j, (i < n)%nat -> (j < n)%nat -> i <> j ->
      nth i stacks 0 <= nth j stacks 0 - AP_STACK_PAGES * 4096 \/ nth j stacks 0 <= nth i stacks 0 - AP_STACK_PAGES * 4096) /\
    forall order, Forall (fun i => (i < n)%nat) order ->
      let m := fold_left (arrive info) order (low w') in
      (forall i, (i < n)%nat ->
        (trampoline m (ids_at info i)).1 =
          mkApRegs (pml4_address m') (SIZEOF_GDT - 1, a_gdt (seg_addrs (S i))) (idt_ptr (S i)) (nth i stacks 0 -u64 8) ap_entry_fn /\
        exists w'', ap_register (ids_at info i) (with_low w' m) = Some w'' /\
          apic_id (slot (pcs w'') (S i)) = ids_at info i /\ online (slot (pcs w'') (S i)) = true /\
          APIC_TO_SLOT (pcs w'') !! Z.to_nat (ids_at info i) = Some (Z.of_nat (S i))) /\
      ((poll_aps_ready (with_low w' m)).1 = true <-> forall i, (i < n)%nat -> i ∈ order).
Proof.
  intros [Hcnt Hb Hids Hdist Hcl Htbl Hent Htab] Hheld Hst Hpml. unfold smp_boot_aps. rewrite Hcnt, Nat2Z.id.
  rewrite (proj2 (Nat.eqb_neq n 0)), Nat.min_l by lia.
  destruct (alloc_slots_seq bsp info n 0 (pcs w) Hcl ltac:(lia)) as (p' & -> & (on & off & Ep & Hlon & Hlen & _) & Et).
  { intros j Hj. destruct (Hids j ltac:(lia)). split; [done|]. unfold U32_MAX. lia. }
  cbn [mbind option_bind kmem]. rewrite Hst. eexists. split; [done|].
  unfold send_ipis. rewrite Hcnt, Nat2Z.id, (alloc_stacks_length _ _ _ _ Hst), length_seq, Nat.ltb_irrefl.
  rewrite (proj2 (Nat.eqb_neq n 0)), Nat.min_l by lia. cbn [orb]. split; [by cbn [ipis send set_boot_state with_boot with_low with_kmem]; rewrite <-!app_assoc|].
  split. { intros i j Hi Hj. apply (stacks_disjoint map_region n (kmem w) stacks m'); [done..| |]; by rewrite (alloc_stacks_length _ _ _ _ Hst). }
  intros order Ho.
  cbn [low ap_boot pcs segs kmem ipis send set_boot_state with_boot with_low with_kmem AP_BOOT_STATE AP_BOOT_TOTAL AP_BOOT_SLOTS AP_BOOT_APIC_IDS].
  set (sg := fold_left _ (seq 1 n) (segs w)). set (m0 := fun a => if _ && _ then 0xFF else _). set (m := fold_left (arrive info) order _).
  assert (forall i, (i < n)%nat -> gdt_ptr (sg (S i)) = (SIZEOF_GDT - 1, a_gdt (seg_addrs (S i)))) as Hgdt.
  { intros i Hi. apply tables_prepared; [apply NoDup_seq|apply elem_of_seq; lia]. }
  assert (forall i, (i < n)%nat -> slot_of (S i) = S i) as Hso by (intros; apply slot_of_small; unfold MAX_CPUS in *; lia).
  assert (forall i, (i < n)%nat -> mailbox_ok (box idt_ptr ap_entry_fn stacks (pml4_address m') sg i)) as Hbox.
  { intros i Hi. unfold mailbox_ok, box. cbn [b_stack b_gdt b_idt b_entry b_pml4]. rewrite Hso, Hgdt by done. cbn [fst snd].
    destruct (Htab (S i) ltac:(unfold MAX_CPUS in *; lia)) as (? & ? & ?). split_and!; try done; try (apply wrap_bound; lia); lia. }
  assert (forall i, (i < n)%nat -> 0 <= ids_at info i < 256) as Hid by (intros; by apply Hids).
  pose proof (all_prepared idt_ptr ap_entry_fn info n stacks (pml4_address m') sg ltac:(lia) Hid Hdist Hbox m0 n ltac:(lia)) as Hprep.
  assert (forall j, (j < n)%nat -> prepared idt_ptr ap_entry_fn info stacks (pml4_address m') sg m j /\ check_ap_slot m (S j) = bool_decide (j ∈ order)) as Harr.
  { intros j Hj. destruct (arrivals idt_ptr ap_entry_fn info n stacks (pml4_address m') sg ltac:(lia) Hid order _ Ho (fun i Hi => proj1 (Hprep i Hi)) j Hj) as [H1 H2].
    split; [done|]. unfold m. rewrite H2. by destruct (Hprep j Hj) as [_ ->]. }
  split.
  - intros i Hi. destruct (Harr i Hi) as [Hp _]. split.
    + rewrite (trampoline_prepared idt_ptr ap_entry_fn info n stacks (pml4_address m') sg ltac:(lia) m i Hi Hp).
      unfold regs_of. by rewrite Hso, Hgdt.
    + apply register_own_slot; [apply Hp|by cbn; rewrite Ep|by cbn; rewrite Et|unfold MAX_CPUS in *; lia|by apply Hid].
  - rewrite (poll_iff _ n (drop n (AP_BOOT_SLOTS (ap_boot w)))) by (done || by rewrite take_ge by (by rewrite length_seq)).
    split; intros H i Hi.
    + eapply bool_decide_eq_true_1. rewrite <-(proj2 (Harr i Hi)). exact (H i Hi).
    + etransitivity; [exact (proj2 (Harr i Hi))|]. by apply bool_decide_eq_true_2, H.
Qed.
End boot_all.

(** ** Enumeration *)

(** The processors the kernel can start. *)
Definition usable (p : Proc) : Prop := is_enabled p = true /\ is_healthy p = true /\ p_is_bsp p = false.
#[export] Instance usable_dec p : Decision (usable p) := _.

Lemma enumerate_spec limit procs : forall k b n b',
  (limit <= MAX_CPUS - 1)%nat -> length (ap_apic_ids b) = MAX_CPUS -> (k <= limit)%nat -> enumerate limit procs k b = (n, b') ->
  let new := map (fun p => wrap 32 (processor_id p)) (take (limit - k) (filter usable procs)) in
  n = (k + length new)%nat /\ take n (ap_apic_ids b') = take k (ap_apic_ids b) ++ new /\ length (ap_apic_ids b') = MAX_CPUS.
Proof.
  induction procs as [|p procs IH]; intros k b n b' Hl Hlen Hk E; cbn [enumerate] in E.
  - simplify_eq. cbn. rewrite take_nil. cbn. rewrite Nat.add_0_r, app_nil_r. done.
  - destruct (Nat.leb_spec limit k) as [Hlk|Hlk].
    { simplify_eq. replace (limit - n)%nat with 0%nat by lia. cbn. rewrite Nat.add_0_r, app_nil_r. done. }
    rewrite filter_cons. destruct (is_enabled p) eqn:Een; cbn [negb orb] in E;
      [|rewrite decide_False by (intros (? & ? & ?); congruence); by apply (IH k b)].
    destruct (is_healthy p) eqn:Ehe; cbn [negb] in E;
      [|rewrite decide_False by (intros (? & ? & ?); congruence); by apply (IH k b)].
    destruct (p_is_bsp p) eqn:Ebs;
      [rewrite decide_False by (intros (? & ? & ?); congruence); by apply (IH k _ n b' Hl) in E|].
    rewrite decide_True by done. destruct (Nat.leb_spec (MAX_CPUS - 1) k); [lia|].
    pose proof (fun A B => IH _ _ _ _ Hl A B E) as H'. cbn [ap_apic_ids] in H'. destruct H' as (-> & Et & El); [by rewrite length_insert|lia|].
    replace (limit - k)%nat with (S (limit - S k)) by lia. cbn [take map length]. split; [lia|]. split; [|done].
    rewrite Et. rewrite (take_S_r _ _ (wrap 32 (processor_id p))) by (rewrite list_lookup_insert_eq; [done|unfold MAX_CPUS in *; lia]).
    rewrite take_insert_ge by lia. by rewrite <-app_assoc.
Qed.

(** The boot loader records the first processors that are enabled, healthy and not the one it runs on, three at most. *)
Theorem enumeration_correct procs b :
  length (ap_apic_ids b) = MAX_CPUS ->
  let found := map (fun p => wrap 32 (processor_id p)) (take (Nat.min (length (filter (fun p => is_enabled p = true) procs)) 3) (filter usable procs)) in
  ap_count (enumerate_aps procs b) = Z.of_nat (length found) /\ take (length found) (ap_apic_ids (enumerate_aps procs b)) = found.
Proof.
  intros Hl. cbv zeta. unfold enumerate_aps. destruct (enumerate _ procs 0 b) as [n b'] eqn:E.
  apply enumerate_spec in E as (-> & Et & _); [|unfold MAX_CPUS; lia|done|lia]. cbn [ap_count ap_apic_ids].
  rewrite Nat.sub_0_r in *. replace (Nat.min (Nat.min (length (filter (fun p => is_enabled p = true) procs)) MAX_CPUS) (MAX_CPUS - 1))
    with (Nat.min (length (filter (fun p => is_enabled p = true) procs)) 3) in * by (unfold MAX_CPUS; lia). done.
Qed.

(** The loop stops at the third of them: a first processor that the firmware lists later is not recorded. *)
Theorem late_bsp_missed :
  let ap id := mkProc id true true false in
  bsp_apic_id (enumerate_aps [ap 4; ap 5; ap 6; mkProc 7 true true true] (mkBoot 0 0 [0; 0; 0; 0])) = 0.
Proof. by vm_compute. Qed.

(** ** Instances *)

Definition demo_addrs (i : nat) : SegAddrs := mkSegAddrs (0x3000 + 0x100 * Z.of_nat i) (0x4000 + 0x40 * Z.of_nat i) 0x5000 0x6000 0x7000 0x9000.
Definition demo_idt (i : nat) : Z * Z := (4095, 0x2000 + 16 * Z.of_nat i).
Definition demo_info : BootInfo := mkBoot 0 2 [1; 2; 0; 0].
Definition demo_smp_mem : FlatMem := mkFlat ∅ (init_from_regions phys_boot [(0x10000, 0x20000)] 0x40000 0 0 []) 0x1000 0x1000.
Definition demo_smp : Smp FlatMem :=
  mkSmp (fun _ => 0) (default percpu_boot (mark_online percpu_boot 0)) (fun _ => mkSegments gdt_static (mkTss 0 0 0 0) (0, 0)) demo_smp_mem ap_boot_init [].
Definition demo_started : Smp FlatMem := default demo_smp (smp_boot_aps no_map demo_addrs demo_idt 0xFFFF800000100000 demo_info demo_smp).
Definition demo_stacks : list Z := default [] (alloc_stacks no_map 2 demo_smp_mem).1.

Lemma demo_smp_held : held demo_smp_mem [].
Proof.
  destruct (init_from_regions_inv phys_boot [(0x10000, 0x20000)] 0x40000 0 0 []) as (Hinv & _);
    [done|repeat constructor; simpl; lia|lia|lia| |].
  - apply (bool_decide_unpack (NoDup _)). vm_compute. exact I.
  - eexists. split; [exact Hinv|]. split; [apply (bool_decide_unpack (NoDup _)); vm_compute; exact I|].
    apply (bool_decide_unpack (Forall _ _)). vm_compute. exact I.
Qed.

Lemma processors_start_separately_witness :
  demo_stacks <> [] /\ exists w', smp_boot_aps no_map demo_addrs demo_idt 0xFFFF800000100000 demo_info demo_smp = Some w' /\ ipis w' = [InitAll; SipiAll 8; SipiAll 8].
Proof.
  split; [by vm_compute|].
  destruct (processors_start_separately no_map demo_addrs demo_idt 0xFFFF800000100000 demo_info demo_smp 0 2 demo_stacks (alloc_stacks no_map 2 demo_smp_mem).2) as (w' & E & Hi & _).
  - split.
    + done.
    + unfold MAX_CPUS. lia.
    + intros [|[|i]] Hi; [by vm_compute..|lia].
    + intros [|[|i]] [|[|j]] Hi Hj; (done || lia).
    + exists (take 1 (PERCPU (pcs demo_smp))), (drop 1 (PERCPU (pcs demo_smp))). split_and!; [by vm_compute..| | |].
      all: try (vm_compute; repeat constructor; fail).
    + by vm_compute.
    + lia.
    + intros i. intros Hi. unfold MAX_CPUS in Hi. cbn [demo_addrs a_gdt demo_idt fst snd]. lia.
  - exact demo_smp_held.
  - by vm_compute.
  - by vm_compute.
  - exists w'. split; [exact E|exact Hi].
Defined.

(** The broadcast reaches processors that were not counted.  One with APIC ID 5 has no entry of the slot map, so the trampoline
    takes the low bits of its ID: it gets the stack and the tables of processor 1, and marks the mailbox of that processor as
    arrived.  If it comes to register, the slot it reads is out of range and the kernel panics. *)
Theorem uncounted_processor_shares_stack :
  let m := low demo_started in
  5 ∉ take 2 (ap_apic_ids demo_info) /\ ap_rsp (trampoline m 5).1 = 0x2BFF8 /\ ap_rsp (trampoline m 1).1 = 0x2BFF8 /\
  ap_gdt (trampoline m 5).1 = ap_gdt (trampoline m 1).1 /\ check_ap_slot (trampoline m 5).2 1 = true /\
  ap_register 5 demo_started = None.
Proof. split; [by apply (bool_decide_unpack _)|]. vm_compute. done. Qed.

(** On a machine with one processor the start returns before anything is recorded, so the poll never says ready and the idle loop
    keeps polling: the page stays mapped. *)
Theorem single_processor_never_ready {M} `{!KernelMem M} mr sa ip fn info (w : Smp M) :
  ap_count info = 0 -> AP_BOOT_STATE (ap_boot w) = 0 ->
  smp_boot_aps mr sa ip fn info w = Some w /\ poll_aps_ready w = (false, w).
Proof. intros Hc Hs. unfold smp_boot_aps, poll_aps_ready. by rewrite Hc, Hs. Qed.
