(* ===== verification/FbDrv.v ===== *)
(** The framebuffer driver (src/drivers/src/bin/framebuffer.rs) and the packing of the
    geometry that the kernel sends it (src/kernel/src/main.rs).

    A mapping is a buffer of the whole pages that the system calls map, from the
    address they return; an access outside it is a page fault, [None], also where an
    earlier mapping may reach.  So is an overflow, which panics in the profile that
    is built.  The font is a file of the build, a parameter: the byte of a glyph
    row. *)
From stdpp Require Import base tactics numbers list.
From Stdlib Require Import ZArith Lia.
From S2P Require Import Prelude.

Local Open Scope Z_scope.
Local Open Scope word_scope.

(** ** Memory *)

Record Buf := mkBuf { bsize : Z; byte_at : Z -> Z }.

(** [buf.add(off).write(v)] *)
Definition poke (b : Buf) (off v : Z) : option Buf :=
  if (0 <=? off) && (off <? bsize b) then Some (mkBuf (bsize b) (fun a => if a =? off then v else byte_at b a)) else None.
(** [write_bytes(buf.add(off), v, n)] *)
Definition fill_bytes (b : Buf) (off v n : Z) : option Buf :=
  if (0 <=? off) && (off + n <=? bsize b) then Some (mkBuf (bsize b) (fun a => if (off <=? a) && (a <? off + n) then v else byte_at b a)) else None.
(** [copy(src.add(from), dst, n)] *)
Definition move_bytes (src : Buf) (from : Z) (dst : Buf) (n : Z) : option Buf :=
  if (0 <=? from) && (from + n <=? bsize src) && (n <=? bsize dst)
  then Some (mkBuf (bsize dst) (fun a => if (0 <=? a) && (a <? n) then byte_at src (from + a) else byte_at dst a)) else None.

(** A loop whose body may fault. *)
Fixpoint ofold {A B} (l : list A) (f : B -> A -> option B) (b : B) : option B :=
  match l with
  | [] => Some b
  | x :: l => match f b x with Some b' => ofold l f b' | None => None end
  end.

(** ** The driver *)

Definition GLYPH_W : Z := 8.
Definition GLYPH_H : Z := 16.
Definition FB_CMD_ACQUIRE : Z := 0xFF.
Definition FB_CMD_CLEAR : Z := 2.
Definition FB_CMD_DRAW_TEXT : Z := 5.
Definition FB_CMD_SET_FG : Z := 6.
Definition FB_CMD_SET_BG : Z := 7.
Definition FB_CMD_SCROLL : Z := 8.
Definition FB_CMD_PRESENT : Z := 10.

Record Color := mkColor { red : Z; green : Z; blue : Z }.

Record Fb := mkFb {
  fb_ptr : Buf; shadow : Buf; w : Z; h : Z; stride : Z; bpp : Z; is_bgr : bool; fg : Color; bg : Color;
}.
Definition with_shadow (f : Fb) (b : Buf) : Fb := mkFb (fb_ptr f) b (w f) (h f) (stride f) (bpp f) (is_bgr f) (fg f) (bg f).
Definition with_front (f : Fb) (b : Buf) : Fb := mkFb b (shadow f) (w f) (h f) (stride f) (bpp f) (is_bgr f) (fg f) (bg f).

(** [a * b] of [usize]. *)
Definition checked_mul (a b : Z) : option Z := if a * b <? 2 ^ 64 then Some (a * b) else None.

(** The kernel's side: geometry in one word. *)
Definition pack_geometry (width height stride bytes_per_pixel : Z) (bgr : bool) : Z :=
  let row := stride *u64 bytes_per_pixel in
  Z.lor (Z.lor (Z.lor (Z.lor width (wrap 64 (Z.shiftl height 16))) (wrap 64 (Z.shiftl row 32))) (wrap 64 (Z.shiftl bytes_per_pixel 48)))
    (wrap 64 (Z.shiftl (Z.b2z bgr) 56)).

(** The size the kernel sends with it. *)
Definition saturating_mul (a b : Z) : Z := Z.min (a * b) U64_MAX.
Definition fb_bytes (height stride bytes_per_pixel : Z) : Z := saturating_mul (saturating_mul height stride) bytes_per_pixel.

(** The bytes [sys_mmap_phys] and [sys_mmap] map for a size: whole pages; bit 0 of the
    size of [sys_mmap] is a flag. *)
Definition phys_mapped (size : Z) : Z := saturating_add 64 (Z.max size 0x1000) 0xFFF / 0x1000 * 0x1000.
Definition anon_mapped (size : Z) : Z := (Z.max (Z.land size (not64 1)) 0x1000 +u64 0xFFF) / 0x1000 * 0x1000.

(** The bytes from a physical address to the end of the pages that [sys_mmap_phys] maps: it
    begins with the page of the address. *)
Definition phys_window (phys size : Z) : Z := phys_mapped size - phys mod 0x1000.

(** The mappings: the addresses the kernel returns, what the memory at a physical address and fresh memory
    hold. *)
Record Maps := mkMaps { map_phys_ret : Z -> Z -> Z; map_ret : Z -> Z; phys_bytes : Z -> Z -> Z; fresh_bytes : Z -> Z }.

Definition acquire (k : Maps) (fb_phys fb_size packed : Z) : option Fb :=
  let w := Z.land packed 0xFFFF in
  let h := Z.land (Z.shiftr packed 16) 0xFFFF in
  let stride := Z.land (Z.shiftr packed 32) 0xFFFF in
  let bpp := Z.land (Z.shiftr packed 48) 0xFF in
  let is_bgr := negb (Z.land (Z.shiftr packed 56) 1 =? 0) in
  if (fb_phys =? 0) || (w =? 0) || (h =? 0) || negb (bpp =? 4) then None
  else
    let p := map_phys_ret k fb_phys fb_size in
    if (p =? 0) || (p =? U64_MAX) then None
    else
      let s := map_ret k fb_size in
      if (s =? 0) || (s =? U64_MAX) then None
      else Some (mkFb (mkBuf (phys_window fb_phys fb_size) (phys_bytes k fb_phys)) (mkBuf (anon_mapped fb_size) (fresh_bytes k)) w h stride bpp is_bgr (mkColor 200 255 100) (mkColor 0 0 0)).

Section draw.
Context (font : Z -> Z).

Definition set_pixel (f : Fb) (buf : Buf) (x y : Z) (c : Color) : option Buf :=
  if (x >=? w f) || (y >=? h f) then Some buf
  else
    let off := y * stride f + x * bpp f in
    let '(b0, b2) := if is_bgr f then (blue c, red c) else (red c, blue c) in
    buf ← poke buf off b0;
    buf ← poke buf (off + 1) (green c);
    buf ← poke buf (off + 2) b2;
    poke buf (off + 3) 0.

Definition clear (f : Fb) : option Fb := with_shadow f <$> fill_bytes (shadow f) 0 0 (h f * stride f).

Definition fill_rect (f : Fb) (buf : Buf) (x0 y0 x1 y1 : Z) (c : Color) : option Buf :=
  ofold (seqZ y0 (Z.min y1 (h f) - y0)) (fun buf y =>
    ofold (seqZ x0 (Z.min x1 (w f) - x0)) (fun buf x => set_pixel f buf x y c) buf) buf.

Definition put_char (f : Fb) (buf : Buf) (ch x y : Z) (c b : Color) : option Buf :=
  if ch >=? 128 then Some buf
  else
    let base := ch * GLYPH_H in
    buf ← fill_rect f buf x y (x + GLYPH_W) (y + GLYPH_H) b;
    ofold (seqZ 0 GLYPH_H) (fun buf gy =>
      let row := font (base + gy) in
      ofold (seqZ 0 GLYPH_W) (fun buf gx =>
        if negb (Z.land (Z.shiftr row (7 - gx)) 1 =? 0) then set_pixel f buf (x + gx) (y + gy) c else Some buf) buf) buf.

(** The characters from [cx], [cy] on. *)
Fixpoint draw_chars (f : Fb) (buf : Buf) (text : list Z) (start_x cx cy : Z) : option Buf :=
  match text with
  | [] => Some buf
  | ch :: text =>
    if ch =? 10 then draw_chars f buf text start_x start_x (cy + GLYPH_H + 2)
    else if ch =? 13 then draw_chars f buf text start_x start_x cy
    else if ch =? 9 then draw_chars f buf text start_x (Z.land (cx + 4 * GLYPH_W) (not64 (4 * GLYPH_W - 1))) cy
    else if (32 <=? ch) && (ch <=? 127) then
      buf ← put_char f buf ch cx cy (fg f) (bg f);
      draw_chars f buf text start_x (cx + GLYPH_W) cy
    else draw_chars f buf text start_x cx cy
  end.

(** [text]: the [text_len] bytes at [text_virt]. *)
Definition draw_text (f : Fb) (text_virt : Z) (text : list Z) (start_x start_y : Z) : option Fb :=
  if (text_virt =? 0) || (Z.of_nat (length text) =? 0) then Some f
  else with_shadow f <$> draw_chars f (shadow f) (take 4096 text) start_x start_x start_y.

Definition scroll (f : Fb) (lines : Z) : option Fb :=
  if (lines =? 0) || (h f =? 0) then Some f
  else
    shift ← checked_mul lines (GLYPH_H + 2) ≫= (fun n => checked_mul n (stride f));
    let total := h f * stride f in
    if shift >=? total then clear f
    else
      b ← move_bytes (shadow f) shift (shadow f) (total - shift);
      with_shadow f <$> fill_bytes b (total - shift) 0 shift.

Definition present (f : Fb) : option Fb := with_front f <$> move_bytes (shadow f) 0 (fb_ptr f) (h f * stride f).

Definition rgb (v : Z) : Color := mkColor (Z.land (Z.shiftr v 16) 0xFF) (Z.land (Z.shiftr v 8) 0xFF) (Z.land v 0xFF).

(** One message: the response and the new state; [None]: the driver faults. *)
Definition serve (k : Maps) (fb : option Fb) (msg_cmd arg0 arg1 arg2 : Z) : option (Z * option Fb) :=
  let cmd := wrap 32 msg_cmd in
  let on (op : Fb -> option Fb) : option (Z * option Fb) :=
    match fb with Some f => f' ← op f; Some (0, Some f') | None => Some (2, fb) end in
  if cmd =? FB_CMD_ACQUIRE then
    match fb with
    | Some _ => Some (1, fb)
    | None =>
      match acquire k arg0 arg1 arg2 with
      | Some f => s ← fill_bytes (shadow f) 0 0xFF (h f * stride f); f' ← present (with_shadow f s); Some (0, Some f')
      | None => Some (2, fb)
      end
    end
  else if cmd =? FB_CMD_CLEAR then on clear
  else if cmd =? FB_CMD_DRAW_TEXT then
    match fb with
    | Some f =>
      let start_x := Z.shiftr arg2 32 in
      let start_y := Z.land arg2 0xFFFFFFFF in
      let mapped := negb (arg0 =? 0) && negb (arg1 =? 0) in
      if mapped && (2 ^ 64 <=? arg1 + 0xFFF) then None else
      let pages := (arg1 + 0xFFF) / 0x1000 * 0x1000 in
      let text_virt := if mapped then map_phys_ret k arg0 pages else 0 in
      if (text_virt =? 0) && negb (arg1 =? 0) then Some (2, fb)
      else if text_virt =? U64_MAX then None
      else if mapped && (phys_window arg0 pages <? Z.min arg1 4096) then None
      else
        f ← draw_text f text_virt (map (phys_bytes k arg0) (seqZ 0 (Z.min arg1 4096))) start_x start_y;
        f ← present f;
        Some (0, Some f)
    | None => Some (2, fb)
    end
  else if cmd =? FB_CMD_SET_FG then
    on (fun f => Some (mkFb (fb_ptr f) (shadow f) (w f) (h f) (stride f) (bpp f) (is_bgr f) (rgb arg0) (bg f)))
  else if cmd =? FB_CMD_SET_BG then
    on (fun f => Some (mkFb (fb_ptr f) (shadow f) (w f) (h f) (stride f) (bpp f) (is_bgr f) (fg f) (rgb arg0)))
  else if cmd =? FB_CMD_SCROLL then on (fun f => scroll f arg0)
  else if cmd =? FB_CMD_PRESENT then on present
  else Some (1, fb).
End draw.
