(* ===== verification/FbDrvThms.v ===== *)
(** The framebuffer driver draws what it is told and stays inside its mappings.

    A buffer represents an image ([rep]) when the four bytes of every pixel on the screen are
    those of the image; every drawing operation is specified by the image it leaves. *)
From stdpp Require Import base tactics numbers list.
From Stdlib Require Import ZArith Lia.
From S2P Require Import Prelude FbDrv.

Local Open Scope Z_scope.
Local Open Scope word_scope.
Set Default Proof Using "Type".

(** ** Loops *)

Lemma ofold_inv {A B} (P : nat -> B -> Prop) (f : B -> A -> option B) l : forall b,
  (forall k x b, l !! k = Some x -> P k b -> exists b', f b x = Some b' /\ P (S k) b') ->
  P 0%nat b -> exists b', ofold l f b = Some b' /\ P (length l) b'.
Proof.
  revert P. induction l as [|x l IH]; intros P b Hstep H0; simpl; [eauto|].
  destruct (Hstep 0%nat x b eq_refl H0) as (b' & -> & H1).
  apply (IH (fun k => P (S k))); [|done]. intros k y b1 Hy. by apply Hstep.
Qed.

(** A loop over [a .. a + n): the invariant at the position reached. *)
Lemma ofold_range {B} (P : Z -> B -> Prop) (f : B -> Z -> option B) a n b :
  (forall i b, a <= i < a + n -> P i b -> exists b', f b i = Some b' /\ P (i + 1) b') ->
  P a b -> exists b', ofold (seqZ a n) f b = Some b' /\ P (a + Z.max n 0) b'.
Proof.
  intros Hstep H0.
  destruct (ofold_inv (fun k => P (a + Z.of_nat k)) f (seqZ a n) b) as (b' & -> & Hb').
  - intros k x b1 [-> Hk]%lookup_seqZ Hb1.
    destruct (Hstep (a + Z.of_nat k) b1) as (b2 & -> & ?); [lia|done|].
    exists b2. split; [done|]. by replace (a + Z.of_nat (S k)) with (a + Z.of_nat k + 1) by lia.
  - by rewrite Z.add_0_r.
  - exists b'. split; [done|]. rewrite length_seqZ in Hb'.
    by replace (a + Z.max n 0) with (a + Z.of_nat (Z.to_nat n)) by lia.
Qed.

(** ** Images *)

Definition image := Z -> Z -> list Z.

(** The four bytes of a color, in the order of the device. *)
Definition encode (f : Fb) (c : Color) : list Z :=
  if is_bgr f then [blue c; green c; red c; 0] else [red c; green c; blue c; 0].

Definition pixel (f : Fb) (b : Buf) (x y : Z) : list Z :=
  let off := y * stride f + x * bpp f in
  [byte_at b off; byte_at b (off + 1); byte_at b (off + 2); byte_at b (off + 3)].

Definition on_screen (f : Fb) (x y : Z) : Prop := 0 <= x < w f /\ 0 <= y < h f.

(** The geometry: rows hold their pixels. *)
Definition geometry (f : Fb) : Prop := bpp f = 4 /\ w f * 4 <= stride f /\ 0 <= w f /\ 0 <= h f.

Definition rep (f : Fb) (n : Z) (b : Buf) (I : image) : Prop :=
  bsize b = n /\ h f * stride f <= n /\ forall x y, on_screen f x y -> pixel f b x y = I x y.

(** An image with the pixels of a region given the color. *)
Definition over (f : Fb) (R : Z -> Z -> bool) (c : Color) (I : image) : image :=
  fun x y => if R x y then encode f c else I x y.

Definition in_rect (x0 y0 x1 y1 x y : Z) : bool := (x0 <=? x) && (x <? x1) && (y0 <=? y) && (y <? y1).

Lemma rep_ext f n b I I' :
  rep f n b I -> (forall x y, on_screen f x y -> I x y = I' x y) -> rep f n b I'.
Proof. intros (? & ? & Hp) HI. split_and!; [done..|]. intros x y Hs. by rewrite Hp, HI. Qed.

(** Decides the comparisons of a goal about regions. *)
Ltac region :=
  unfold over, in_rect, on_screen in *;
  repeat match goal with
  | |- context [?a <=? ?b] => destruct (Z.leb_spec a b)
  | |- context [?a <? ?b] => destruct (Z.ltb_spec a b)
  | |- context [?a =? ?b] => destruct (Z.eqb_spec a b)
  end; simpl; try reflexivity; try lia.

Lemma pixel_inside f x y :
  geometry f -> on_screen f x y -> 0 <= y * stride f + x * bpp f /\ y * stride f + x * bpp f + 4 <= h f * stride f.
Proof. intros (-> & Hw & _) [Hx Hy]. nia. Qed.

Lemma pixels_apart f x y x' y' d :
  geometry f -> on_screen f x y -> on_screen f x' y' -> -3 <= d <= 3 ->
  y * stride f + x * bpp f = y' * stride f + x' * bpp f + d -> x = x' /\ y = y'.
Proof.
  intros (-> & Hw & _) [Hx Hy] [Hx' Hy'] Hd E.
  assert (y = y') as ->; [|lia].
  destruct (Z.lt_trichotomy y y') as [?|[?|?]]; [nia|done|nia].
Qed.

Lemma poke_in b off v :
  0 <= off < bsize b -> poke b off v = Some (mkBuf (bsize b) (fun a => if a =? off then v else byte_at b a)).
Proof. intros H. unfold poke. by rewrite (proj2 (Z.leb_le _ _)), (proj2 (Z.ltb_lt _ _)) by lia. Qed.

Lemma set_pixel_rep f n b I x y c :
  geometry f -> rep f n b I -> 0 <= x -> 0 <= y ->
  exists b', set_pixel f b x y c = Some b' /\ rep f n b' (over f (fun x' y' => (x' =? x) && (y' =? y)) c I).
Proof.
  intros G HR Hx Hy. unfold set_pixel.
  destruct (Z.geb_spec x (w f)); [|destruct (Z.geb_spec y (h f))]; simpl.
  1,2: exists b; split; [done|]; apply (rep_ext _ _ _ I); [done|]; intros; region.
  destruct HR as (Hsz & Hn & Hp).
  assert (on_screen f x y) as Hs by (unfold on_screen; lia).
  destruct (pixel_inside _ _ _ G Hs) as [Hlo Hhi].
  set (off := y * stride f + x * bpp f) in *.
  destruct (if is_bgr f then (blue c, red c) else (red c, blue c)) as [b0 b2] eqn:Ec.
  rewrite poke_in by lia; cbn -[Z.add]. rewrite poke_in by (cbn -[Z.add]; lia); cbn -[Z.add].
  rewrite poke_in by (cbn -[Z.add]; lia); cbn -[Z.add]. rewrite poke_in by (cbn -[Z.add]; lia); cbn -[Z.add].
  eexists. split; [done|]. split_and!; [done..|].
  intros x' y' Hs'. unfold over, pixel. cbn -[Z.add]. fold (pixel f b x' y').
  destruct (decide (x' = x /\ y' = y)) as [[-> ->]|Hne].
  - rewrite !Z.eqb_refl. cbn -[Z.add]. fold off. unfold encode.
    repeat match goal with |- context [?a =? ?b] => (destruct (Z.eqb_spec a b); [lia|]) || (destruct (Z.eqb_spec a b); [|lia]) end.
    destruct (is_bgr f); by simplify_eq.
  - assert ((x' =? x) && (y' =? y) = false) as -> by (destruct (Z.eqb_spec x' x), (Z.eqb_spec y' y); naive_solver).
    rewrite <-Hp by done. unfold pixel.
    assert (forall a e, 0 <= a - (y' * stride f + x' * bpp f) <= 3 -> 0 <= e - off <= 3 -> (a =? e) = false) as Hf.
    { intros a e Ha He. apply Z.eqb_neq. intros ->. apply Hne.
      apply (pixels_apart f x' y' x y (off + (y' * stride f + x' * bpp f) - 2 * off)); [done..|lia|]. subst off. lia. }
    by rewrite !Hf by lia.
Qed.

Lemma fill_row_rep f n b I x0 x1 y c :
  geometry f -> rep f n b I -> 0 <= x0 -> 0 <= y ->
  exists b', ofold (seqZ x0 (Z.min x1 (w f) - x0)) (fun buf x => set_pixel f buf x y c) b = Some b' /\
    rep f n b' (over f (in_rect x0 y x1 (y + 1)) c I).
Proof.
  intros G HR Hx Hy.
  destruct (ofold_range (fun k b => rep f n b (over f (in_rect x0 y k (y + 1)) c I))
    (fun buf x => set_pixel f buf x y c) x0 (Z.min x1 (w f) - x0) b) as (b' & -> & HR').
  - intros i b1 Hi HR1. destruct (set_pixel_rep f n b1 _ i y c G HR1) as (b2 & -> & HR2); [lia..|].
    exists b2. split; [done|]. apply (rep_ext _ _ _ _ _ HR2). intros; region.
  - apply (rep_ext _ _ _ _ _ HR). intros; region.
  - exists b'. split; [done|]. apply (rep_ext _ _ _ _ _ HR'). intros; region.
Qed.

Lemma fill_rect_rep f n b I x0 y0 x1 y1 c :
  geometry f -> rep f n b I -> 0 <= x0 -> 0 <= y0 ->
  exists b', fill_rect f b x0 y0 x1 y1 c = Some b' /\ rep f n b' (over f (in_rect x0 y0 x1 y1) c I).
Proof.
  intros G HR Hx Hy. unfold fill_rect.
  destruct (ofold_range (fun k b => rep f n b (over f (in_rect x0 y0 x1 k) c I))
    (fun buf y => ofold (seqZ x0 (Z.min x1 (w f) - x0)) (fun buf x => set_pixel f buf x y c) buf)
    y0 (Z.min y1 (h f) - y0) b) as (b' & -> & HR').
  - intros i b1 Hi HR1. destruct (fill_row_rep f n b1 _ x0 x1 i c G HR1) as (b2 & -> & HR2); [lia..|].
    exists b2. split; [done|]. apply (rep_ext _ _ _ _ _ HR2). intros; region.
  - apply (rep_ext _ _ _ _ _ HR). intros; region.
  - exists b'. split; [done|]. apply (rep_ext _ _ _ _ _ HR'). intros; region.
Qed.

Section draw.
Context (font : Z -> Z).

(** The bit of a glyph. *)
Definition glyph_bit (ch gx gy : Z) : bool := negb (Z.land (Z.shiftr (font (ch * GLYPH_H + gy)) (7 - gx)) 1 =? 0).

(** An image with a character at a position. *)
Definition with_glyph (f : Fb) (ch x0 y0 : Z) (c b : Color) (I : image) : image :=
  fun x y => if in_rect x0 y0 (x0 + GLYPH_W) (y0 + GLYPH_H) x y
             then encode f (if glyph_bit ch (x - x0) (y - y0) then c else b) else I x y.

(** The glyph as far as row [gy], column [gx] of it. *)
Definition partial_glyph (f : Fb) (ch x0 y0 gx gy : Z) (c : Color) (I : image) : image :=
  fun x y => if in_rect x0 y0 (x0 + GLYPH_W) (y0 + GLYPH_H) x y && ((y - y0 <? gy) || ((y - y0 =? gy) && (x - x0 <? gx)))
                && glyph_bit ch (x - x0) (y - y0)
             then encode f c else I x y.

Lemma glyph_row_rep f n b I ch x0 y0 gy c :
  geometry f -> rep f n b (partial_glyph f ch x0 y0 0 gy c I) -> 0 <= x0 -> 0 <= y0 -> 0 <= gy < GLYPH_H ->
  exists b', ofold (seqZ 0 GLYPH_W) (fun buf gx =>
      if negb (Z.land (Z.shiftr (font (ch * GLYPH_H + gy)) (7 - gx)) 1 =? 0) then set_pixel f buf (x0 + gx) (y0 + gy) c else Some buf) b = Some b' /\
    rep f n b' (partial_glyph f ch x0 y0 0 (gy + 1) c I).
Proof.
  intros G HR Hx Hy Hgy.
  destruct (ofold_range (fun gx b => rep f n b (partial_glyph f ch x0 y0 gx gy c I)) (fun buf gx =>
      if negb (Z.land (Z.shiftr (font (ch * GLYPH_H + gy)) (7 - gx)) 1 =? 0) then set_pixel f buf (x0 + gx) (y0 + gy) c else Some buf)
      0 GLYPH_W b) as (b' & -> & HR'); [|done|].
  - intros gx b1 Hgx HR1. fold (glyph_bit ch gx gy). destruct (glyph_bit ch gx gy) eqn:Eb.
    + destruct (set_pixel_rep f n b1 _ (x0 + gx) (y0 + gy) c G HR1) as (b2 & -> & HR2); [lia..|].
      exists b2. split; [done|]. apply (rep_ext _ _ _ _ _ HR2). intros x y Hs.
      unfold over, partial_glyph. destruct (decide (x - x0 = gx /\ y - y0 = gy)) as [[Ex Ey]|Hne].
      * rewrite Ex, Ey, Eb. unfold GLYPH_W, GLYPH_H in *. region.
      * unfold GLYPH_W, GLYPH_H in *. region.
    + exists b1. split; [done|]. apply (rep_ext _ _ _ _ _ HR1). intros x y Hs.
      unfold partial_glyph. destruct (decide (x - x0 = gx /\ y - y0 = gy)) as [[Ex Ey]|Hne].
      * by rewrite Ex, Ey, Eb, !andb_false_r.
      * unfold GLYPH_W, GLYPH_H in *. region.
  - exists b'. split; [done|]. apply (rep_ext _ _ _ _ _ HR'). intros x y Hs.
    unfold partial_glyph, GLYPH_W, GLYPH_H in *. simpl (Z.max 8 0). region.
Qed.

Lemma put_char_rep f n b I ch x0 y0 c bgc :
  geometry f -> rep f n b I -> 0 <= x0 -> 0 <= y0 -> ch < 128 ->
  exists b', put_char font f b ch x0 y0 c bgc = Some b' /\ rep f n b' (with_glyph f ch x0 y0 c bgc I).
Proof.
  intros G HR Hx Hy Hch. unfold put_char. destruct (Z.geb_spec ch 128); [lia|].
  destruct (fill_rect_rep f n b I x0 y0 (x0 + GLYPH_W) (y0 + GLYPH_H) bgc G HR) as (b1 & -> & HR1); [lia..|]. cbn [mbind option_bind].
  set (J := over f (in_rect x0 y0 (x0 + GLYPH_W) (y0 + GLYPH_H)) bgc I) in *.
  match goal with |- context [ofold _ ?body b1] => set (rows := body) end.
  destruct (ofold_range (fun gy b => rep f n b (partial_glyph f ch x0 y0 0 gy c J)) rows 0 GLYPH_H b1) as (b' & Hf & HR').
  - intros gy b2 Hgy HR2. by apply glyph_row_rep.
  - apply (rep_ext _ _ _ _ _ HR1). intros. unfold partial_glyph, GLYPH_W, GLYPH_H in *. region.
  - exists b'. split; [done|]. apply (rep_ext _ _ _ _ _ HR'). intros x y Hs.
    unfold partial_glyph, with_glyph, J. simpl (Z.max GLYPH_H 0). unfold GLYPH_W, GLYPH_H in *.
    destruct (glyph_bit ch (x - x0) (y - y0)); region.
Qed.

(** ** Text *)

Definition printable (ch : Z) : Prop := 32 <= ch <= 127.
Definition LINE_H : Z := GLYPH_H + 2.

(** Lines as the bytes of a message. *)
Fixpoint text_of (lines : list (list Z)) : list Z :=
  match lines with
  | [] => []
  | [l] => l
  | l :: lines => l ++ 10 :: text_of lines
  end.

(** The character whose cell holds a pixel: the text is a grid of cells of 8 by 16 pixels with
    two pixels between the lines. *)
Definition char_at (lines : list (list Z)) (x0 y0 x y : Z) : option Z :=
  if (x0 <=? x) && (y0 <=? y) && ((y - y0) mod LINE_H <? GLYPH_H)
  then l ← lines !! Z.to_nat ((y - y0) / LINE_H); l !! Z.to_nat ((x - x0) / GLYPH_W) else None.

Definition with_text (f : Fb) (lines : list (list Z)) (x0 y0 : Z) (I : image) : image :=
  fun x y =>
    match char_at lines x0 y0 x y with
    | Some ch => encode f (if glyph_bit ch ((x - x0) mod GLYPH_W) ((y - y0) mod LINE_H) then fg f else bg f)
    | None => I x y
    end.

Definition with_line (f : Fb) (l : list Z) (x0 y0 : Z) (I : image) : image :=
  fun x y =>
    if (x0 <=? x) && (y0 <=? y) && (y <? y0 + GLYPH_H) then
      match l !! Z.to_nat ((x - x0) / GLYPH_W) with
      | Some ch => encode f (if glyph_bit ch ((x - x0) mod GLYPH_W) (y - y0) then fg f else bg f)
      | None => I x y
      end
    else I x y.

Lemma with_line_cons f ch l x0 y0 I x y :
  with_line f l (x0 + GLYPH_W) y0 (with_glyph f ch x0 y0 (fg f) (bg f) I) x y = with_line f (ch :: l) x0 y0 I x y.
Proof.
  unfold with_line, with_glyph, in_rect, GLYPH_W, GLYPH_H.
  destruct (Z.leb_spec x0 x); simpl; [|by destruct (Z.leb_spec (x0 + 8) x); [lia|]].
  destruct (Z.leb_spec (x0 + 8) x).
  - rewrite (proj2 (Z.ltb_ge x (x0 + 8))) by lia. simpl.
    replace ((x - x0) / 8) with ((x - (x0 + 8)) / 8 + 1) by div_lia.
    replace ((x - x0) mod 8) with ((x - (x0 + 8)) mod 8) by div_lia.
    by replace (Z.to_nat ((x - (x0 + 8)) / 8 + 1)) with (S (Z.to_nat ((x - (x0 + 8)) / 8))) by div_lia.
  - rewrite (proj2 (Z.ltb_lt x (x0 + 8))) by lia. simpl.
    replace ((x - x0) / 8) with 0 by div_lia. by replace ((x - x0) mod 8) with (x - x0) by div_lia.
Qed.

Lemma draw_line_rep f n l : forall b I rest sx x0 y0,
  geometry f -> rep f n b I -> 0 <= x0 -> 0 <= y0 -> Forall printable l ->
  exists b', draw_chars font f b (l ++ rest) sx x0 y0 = draw_chars font f b' rest sx (x0 + GLYPH_W * Z.of_nat (length l)) y0 /\
    rep f n b' (with_line f l x0 y0 I).
Proof.
  induction l as [|ch l IH]; intros b I rest sx x0 y0 G HR Hx Hy Hl.
  - exists b. simpl length. rewrite Z.mul_0_r, Z.add_0_r. split; [done|]. apply (rep_ext _ _ _ _ _ HR). intros x y _.
    unfold with_line. by destruct (_ && _).
  - apply Forall_cons in Hl as [Hch Hl]. unfold printable in Hch. simpl.
    destruct (Z.eqb_spec ch 10); [lia|]. destruct (Z.eqb_spec ch 13); [lia|]. destruct (Z.eqb_spec ch 9); [lia|].
    rewrite (proj2 (Z.leb_le 32 ch)), (proj2 (Z.leb_le ch 127)) by lia. simpl.
    destruct (put_char_rep f n b I ch x0 y0 (fg f) (bg f) G HR) as (b1 & -> & HR1); [lia..|]. simpl.
    destruct (IH b1 _ rest sx (x0 + GLYPH_W) y0 G HR1) as (b' & -> & HR'); [unfold GLYPH_W; lia|done..|].
    exists b'. split.
    + f_equal. unfold GLYPH_W. lia.
    + apply (rep_ext _ _ _ _ _ HR'). intros. apply with_line_cons.
Qed.

Lemma with_text_cons f l lines x0 y0 I x y :
  with_text f lines x0 (y0 + LINE_H) (with_line f l x0 y0 I) x y = with_text f (l :: lines) x0 y0 I x y.
Proof.
  unfold with_text, char_at, with_line, LINE_H, GLYPH_H. change (16 + 2) with 18.
  destruct (Z.leb_spec x0 x); simpl; [|done].
  destruct (Z.leb_spec (y0 + 18) y).
  - rewrite (proj2 (Z.leb_le y0 y)), (proj2 (Z.ltb_ge y (y0 + 16))) by lia. cbn [andb].
    replace ((y - y0) mod 18) with ((y - (y0 + 18)) mod 18) by div_lia.
    replace ((y - y0) / 18) with ((y - (y0 + 18)) / 18 + 1) by div_lia.
    by replace (Z.to_nat ((y - (y0 + 18)) / 18 + 1)) with (S (Z.to_nat ((y - (y0 + 18)) / 18))) by div_lia.
  - simpl. destruct (Z.leb_spec y0 y); simpl; [|done].
    replace ((y - y0) mod 18) with (y - y0) by div_lia. replace ((y - y0) / 18) with 0 by div_lia.
    destruct (Z.ltb_spec y (y0 + 16)), (Z.ltb_spec (y - y0) 16); try lia; simpl; [|done].
    by destruct (l !! _).
Qed.

Lemma with_text_nil f x0 y0 I x y : with_text f [] x0 y0 I x y = I x y.
Proof. unfold with_text, char_at. by destruct (_ && _). Qed.

Lemma draw_lines_rep f n lines : forall b I sx sy,
  geometry f -> rep f n b I -> 0 <= sx -> 0 <= sy -> Forall (Forall printable) lines ->
  exists b', draw_chars font f b (text_of lines) sx sx sy = Some b' /\ rep f n b' (with_text f lines sx sy I).
Proof.
  induction lines as [|l lines IH]; intros b I sx sy G HR Hx Hy Hl.
  - exists b. split; [done|]. apply (rep_ext _ _ _ _ _ HR). intros. by rewrite with_text_nil.
  - apply Forall_cons in Hl as [Hl Hls].
    destruct lines as [|l' lines].
    + destruct (draw_line_rep f n l b I [] sx sx sy G HR) as (b1 & E & HR1); [done..|]. rewrite app_nil_r in E.
      exists b1. split; [done|]. apply (rep_ext _ _ _ _ _ HR1). intros.
      by rewrite <-with_text_cons, with_text_nil.
    + destruct (draw_line_rep f n l b I (10 :: text_of (l' :: lines)) sx sx sy G HR) as (b1 & E & HR1); [done..|].
      destruct (IH b1 _ sx (sy + LINE_H) G HR1) as (b' & E' & HR'); [done|unfold LINE_H, GLYPH_H; lia|done|].
      exists b'. split.
      * change (text_of (l :: l' :: lines)) with (l ++ 10 :: text_of (l' :: lines)). rewrite E.
        change (10 :: ?t) with ([10] ++ t). cbn [draw_chars app Z.eqb Pos.eqb]. rewrite <-E'. f_equal. unfold LINE_H. lia.
      * apply (rep_ext _ _ _ _ _ HR'). intros. apply with_text_cons.
Qed.
End draw.

(** ** The operations of the driver *)

(** What the driver holds after a successful ACQUIRE: both mappings hold the screen. *)
Definition fits (f : Fb) : Prop :=
  geometry f /\ h f * stride f <= bsize (shadow f) /\ h f * stride f <= bsize (fb_ptr f).

(** Everything but the contents of the buffers and the colors. *)
Definition same_screen (f f' : Fb) : Prop :=
  w f' = w f /\ h f' = h f /\ stride f' = stride f /\ bpp f' = bpp f /\ is_bgr f' = is_bgr f /\
  bsize (shadow f') = bsize (shadow f) /\ bsize (fb_ptr f') = bsize (fb_ptr f).

Lemma same_screen_fits f f' : fits f -> same_screen f f' -> fits f'.
Proof.
  intros ((Hb & Hw & H0 & H1) & Hs & Hf) (E1 & E2 & E3 & E4 & _ & E5 & E6). unfold fits, geometry. by rewrite E1, E2, E3, E4, E5, E6.
Qed.

Lemma same_screen_trans f g k : same_screen f g -> same_screen g k -> same_screen f k.
Proof. unfold same_screen. intuition congruence. Qed.

Lemma rep_self f : fits f -> rep f (bsize (shadow f)) (shadow f) (pixel f (shadow f)).
Proof. intros (_ & Hs & _). by split_and!. Qed.

Lemma area_nonneg f : geometry f -> 0 <= h f * stride f.
Proof. intros (_ & ? & ? & ?). nia. Qed.

Lemma fill_bytes_in b off v n :
  0 <= off -> off + n <= bsize b ->
  fill_bytes b off v n = Some (mkBuf (bsize b) (fun a => if (off <=? a) && (a <? off + n) then v else byte_at b a)).
Proof. intros. unfold fill_bytes. by rewrite (proj2 (Z.leb_le 0 off)), (proj2 (Z.leb_le (off + n) _)) by lia. Qed.

Lemma move_bytes_in src from dst n :
  0 <= from -> from + n <= bsize src -> n <= bsize dst ->
  move_bytes src from dst n =
    Some (mkBuf (bsize dst) (fun a => if (0 <=? a) && (a <? n) then byte_at src (from + a) else byte_at dst a)).
Proof. intros. unfold move_bytes. by rewrite (proj2 (Z.leb_le 0 from)), !(proj2 (Z.leb_le (_ + _) _)), (proj2 (Z.leb_le n _)) by lia. Qed.

(** [present]: the device shows the shadow. *)
Lemma present_shows f :
  fits f -> exists f', present f = Some f' /\ same_screen f f' /\ shadow f' = shadow f /\ fg f' = fg f /\ bg f' = bg f /\
    forall x y, on_screen f x y -> pixel f (fb_ptr f') x y = pixel f (shadow f) x y.
Proof.
  intros (G & Hs & Hf). unfold present. rewrite move_bytes_in by lia.
  eexists. split; [done|]. split_and!; [done..|]. intros x y Hon. unfold pixel. cbn -[Z.add].
  destruct (pixel_inside _ _ _ G Hon).
  by rewrite !(proj2 (Z.leb_le 0 _)), !(proj2 (Z.ltb_lt _ (h f * stride f))) by lia.
Qed.

Lemma clear_shows f :
  fits f -> exists f', clear f = Some f' /\ same_screen f f' /\ fb_ptr f' = fb_ptr f /\
    forall x y, on_screen f x y -> pixel f (shadow f') x y = [0; 0; 0; 0].
Proof.
  intros (G & Hs & Hf). unfold clear. rewrite fill_bytes_in by lia.
  eexists. split; [done|]. split_and!; [done..|]. intros x y Hon. unfold pixel. cbn -[Z.add].
  destruct (pixel_inside _ _ _ G Hon).
  by rewrite !(proj2 (Z.leb_le 0 _)), !(proj2 (Z.ltb_lt _ (h f * stride f))) by lia.
Qed.

(** [scroll] moves the shadow up by whole text lines of 18 pixels and leaves black rows below. *)
Theorem scroll_shows f lines :
  fits f -> 0 <= lines -> lines * LINE_H * stride f < 2 ^ 64 -> lines * LINE_H < 2 ^ 64 ->
  exists f', scroll f lines = Some f' /\ same_screen f f' /\
    forall x y, on_screen f x y ->
      pixel f (shadow f') x y = if y + lines * LINE_H <? h f then pixel f (shadow f) x (y + lines * LINE_H) else [0; 0; 0; 0].
Proof.
  intros F Hl Hov Hov1. pose proof F as (G & Hs & Hf). pose proof (area_nonneg f G) as Ha.
  assert (0 <= stride f) as Hst by (destruct G; lia).
  unfold scroll. destruct (Z.eqb_spec lines 0) as [->|Hn]; [|unfold checked_mul]; cbn [orb].
  { exists f. split_and!; [done..|]. intros x y [Hx Hy]. rewrite Z.add_0_r. by rewrite (proj2 (Z.ltb_lt y _)) by lia. }
  destruct (Z.eqb_spec (h f) 0) as [Eh|Hh].
  { exists f. split_and!; [done..|]. intros x y [Hx Hy]. lia. }
  fold LINE_H. assert (0 <= lines * LINE_H) by (unfold LINE_H, GLYPH_H; lia).
  rewrite (proj2 (Z.ltb_lt (lines * LINE_H) _)) by done. cbn [mbind option_bind]. rewrite (proj2 (Z.ltb_lt (_ * stride f) _)) by done. cbn [mbind option_bind].
  destruct (Z.geb_spec (lines * LINE_H * stride f) (h f * stride f)) as [Hge|Hlt].
  - destruct (clear_shows f F) as (f' & -> & Hsame & _ & Hp). exists f'. split_and!; [done..|].
    intros x y Hon. rewrite Hp by done.
    destruct (Z.ltb_spec (y + lines * LINE_H) (h f)); [|done]. destruct G as (_ & Hw & _), Hon. nia.
  - rewrite move_bytes_in by nia. simpl. rewrite fill_bytes_in by (cbn -[Z.mul]; nia).
    eexists. split; [done|]. split_and!; [done..|]. intros x y Hon.
    destruct (pixel_inside _ _ _ G Hon) as [Hlo Hhi]. pose proof G as (Hb & Hw & _).
    unfold pixel. cbn -[Z.add Z.mul LINE_H]. destruct (Z.ltb_spec (y + lines * LINE_H) (h f)).
    + assert (y * stride f + x * bpp f + 4 <= h f * stride f - lines * LINE_H * stride f) by (rewrite Hb; destruct Hon; nia).
      rewrite !(proj2 (Z.leb_gt (h f * stride f - _) _)) by lia. cbn -[Z.add Z.mul LINE_H].
      rewrite !(proj2 (Z.leb_le 0 _)), !(proj2 (Z.ltb_lt _ (h f * stride f - _))) by lia. cbn -[Z.add Z.mul LINE_H].
      replace ((y + lines * LINE_H) * stride f) with (lines * LINE_H * stride f + y * stride f) by lia. by rewrite !Z.add_assoc.
    + assert (h f * stride f - lines * LINE_H * stride f <= y * stride f + x * bpp f) by (rewrite Hb; destruct Hon; nia).
      by rewrite !(proj2 (Z.leb_le (h f * stride f - _) _)), !(proj2 (Z.ltb_lt _ (h f * stride f - _ + _))) by lia.
Qed.

(** ** Geometry of the kernel *)

(** The screens whose geometry fits the fields of the message. *)
Definition screen_ok (width height stride : Z) : Prop :=
  0 < width < 2 ^ 16 /\ 0 < height < 2 ^ 16 /\ width <= stride /\ stride * 4 < 2 ^ 16.

Lemma phys_mapped_covers n : 0 <= n < 2 ^ 63 -> n <= phys_mapped n.
Proof. intros Hn. unfold phys_mapped, saturating_add. div_lia. Qed.

Lemma anon_mapped_covers n : 0 <= n < 2 ^ 63 -> n mod 2 = 0 -> n <= anon_mapped n.
Proof.
  intros Hn He. unfold anon_mapped. change (not64 1) with (not64 (2 ^ 1 - 1)). rewrite land_not64 by lia.
  rewrite wrap_small by div_lia. change (2 ^ 1) with 2. div_lia.
Qed.

Lemma fb_bytes_exact height stride : 0 <= height < 2 ^ 16 -> 0 <= stride < 2 ^ 16 -> fb_bytes height stride 4 = height * stride * 4.
Proof. intros. unfold fb_bytes, saturating_mul, U64_MAX. nia. Qed.

(** The fields of the packed word. *)
Lemma pack_geometry_sum width height stride bgr :
  screen_ok width height stride ->
  pack_geometry width height stride 4 bgr =
    width + height * 2 ^ 16 + stride * 4 * 2 ^ 32 + 4 * 2 ^ 48 + Z.b2z bgr * 2 ^ 56.
Proof.
  intros (Hw & Hh & Hs & Hr). unfold pack_geometry.
  assert (0 <= Z.b2z bgr <= 1) by (destruct bgr; simpl; lia).
  rewrite (wrap_small 64 (stride * 4)) by lia. rewrite !Z.shiftl_mul_pow2 by lia.
  rewrite !wrap_small by lia.
  assert (forall k a b, 0 <= k -> 0 <= a < 2 ^ k -> Z.lor a (b * 2 ^ k) = a + b * 2 ^ k) as Hor.
  { intros k a b Hk Ha. rewrite <-Z.add_lor_land. assert (Z.land a (b * 2 ^ k) = 0) as ->; [|lia].
    apply Z.bits_inj'. intros n Hn. rewrite Z.land_spec, Z.bits_0, <-Z.shiftl_mul_pow2, Z.shiftl_spec by lia.
    destruct (Z.ltb_spec n k); [by rewrite (Z.testbit_neg_r _ (n - k)), andb_false_r by lia|].
    rewrite <-(Z.mod_small a (2 ^ k)) by lia. by rewrite Z.mod_pow2_bits_high by lia. }
  rewrite (Hor 16), (Hor 32), (Hor 48), (Hor 56) by lia. lia.
Qed.

(** The kernel's ACQUIRE message makes the driver's state: the fields come through and both mappings hold the
    screen. *)
Lemma acquire_kernel k phys width height stride bgr :
  screen_ok width height stride -> phys <> 0 -> height * stride * 4 <= phys_window phys (height * stride * 4) ->
  (forall s, map_phys_ret k phys s <> 0 /\ map_phys_ret k phys s <> U64_MAX) ->
  (forall s, map_ret k s <> 0 /\ map_ret k s <> U64_MAX) ->
  exists f, acquire k phys (fb_bytes height stride 4) (pack_geometry width height stride 4 bgr) = Some f /\
    w f = width /\ h f = height /\ FbDrv.stride f = stride * 4 /\ is_bgr f = bgr /\ fits f.
Proof.
  intros Hok Hp Hwin Hmp Hm. pose proof Hok as (Hw & Hh & Hs & Hr). unfold acquire.
  rewrite pack_geometry_sum by done. set (p := width + _ + _ + _ + _).
  assert (0 <= Z.b2z bgr <= 1) by (destruct bgr; simpl; lia).
  rewrite !Z.shiftr_div_pow2 by lia.
  change 0xFFFF with (Z.ones 16). change 0xFF with (Z.ones 8). change (Z.land (p / 2 ^ 56) 1) with (Z.land (p / 2 ^ 56) (Z.ones 1)).
  rewrite !Z.land_ones by lia.
  assert (p mod 2 ^ 16 = width) as -> by (subst p; div_lia).
  assert (p / 2 ^ 16 mod 2 ^ 16 = height) as -> by (subst p; div_lia).
  assert (p / 2 ^ 32 mod 2 ^ 16 = stride * 4) as -> by (subst p; div_lia).
  assert (p / 2 ^ 48 mod 2 ^ 8 = 4) as -> by (subst p; div_lia).
  assert (p / 2 ^ 56 mod 2 ^ 1 = Z.b2z bgr) as -> by (subst p; div_lia).
  destruct (Hmp (fb_bytes height stride 4)) as [Hm1 Hm2], (Hm (fb_bytes height stride 4)) as [Hm3 Hm4].
  rewrite !(proj2 (Z.eqb_neq phys 0)), !(proj2 (Z.eqb_neq width 0)), !(proj2 (Z.eqb_neq height 0)) by lia.
  rewrite (proj2 (Z.eqb_neq (map_phys_ret _ _ _) 0)), (proj2 (Z.eqb_neq (map_phys_ret _ _ _) _)) by done.
  rewrite (proj2 (Z.eqb_neq (map_ret _ _) 0)), (proj2 (Z.eqb_neq (map_ret _ _) _)) by done.
  cbn [orb negb Z.eqb Pos.eqb]. eexists. split; [done|].
  split_and!; [done..|by destruct bgr|].
  rewrite fb_bytes_exact by lia.
  assert (0 <= height * stride * 4 < 2 ^ 63) by nia.
  assert ((height * stride * 4) mod 2 = 0) by (apply Z.mod_divide; [lia|]; exists (height * stride * 2); lia).
  pose proof (anon_mapped_covers (height * stride * 4) ltac:(done) ltac:(done)).
  unfold fits, geometry. cbn [FbDrv.w FbDrv.h FbDrv.stride FbDrv.bpp FbDrv.shadow FbDrv.fb_ptr bsize]. lia.
Qed.

(** ** Messages *)

Section serve.
Context (font : Z -> Z).

Lemma draw_chars_safe f n text : forall b I sx x y,
  geometry f -> rep f n b I -> 0 <= sx -> 0 <= x -> 0 <= y ->
  exists b' I', draw_chars font f b text sx x y = Some b' /\ rep f n b' I'.
Proof.
  induction text as [|ch text IH]; intros b I sx x y G HR Hs Hx Hy; simpl; [eauto|].
  destruct (ch =? 10); [apply (IH b I); unfold GLYPH_H; (done || lia)|].
  destruct (ch =? 13); [by apply (IH b I)|].
  destruct (ch =? 9).
  { apply (IH b I); try done. apply Z.land_nonneg. left. unfold GLYPH_W. lia. }
  destruct ((32 <=? ch) && (ch <=? 127)) eqn:Ec; [|by apply (IH b I)].
  apply andb_true_iff in Ec as [_ Ec%Z.leb_le].
  destruct (put_char_rep font f n b I ch x y (fg f) (bg f) G HR) as (b1 & -> & HR1); [lia..|].
  apply (IH b1 _ sx _ y G HR1); unfold GLYPH_W; lia.
Qed.

(** The text of a message can be read: its length does not overflow when it is rounded up, the kernel does
    not refuse the mapping with the error value, and the bytes that are read end in the pages that the length,
    rounded up, has from the page of the text on. *)
Definition text_mapped (k : Maps) (phys len : Z) : Prop :=
  let pages := (len + 0xFFF) / 0x1000 * 0x1000 in
  len + 0xFFF < 2 ^ 64 /\ map_phys_ret k phys pages <> U64_MAX /\ Z.min len 4096 <= phys_window phys pages.

(** The arguments of a message that the driver survives: no overflow in SCROLL, a text that can be read in DRAW_TEXT. *)
Definition message_ok (k : Maps) (row : Z) (msg : Z * Z * Z * Z) : Prop :=
  let '(cmd, arg0, arg1, arg2) := msg in
  0 <= arg0 /\ 0 <= arg1 /\ 0 <= arg2 /\
  (wrap 32 cmd = FB_CMD_DRAW_TEXT -> arg0 <> 0 -> arg1 <> 0 -> text_mapped k arg0 arg1) /\
  (wrap 32 cmd = FB_CMD_SCROLL -> arg0 * LINE_H * row < 2 ^ 64).

Lemma scroll_safe f lines : fits f -> 0 <= lines -> 0 < stride f -> lines * LINE_H * stride f < 2 ^ 64 -> exists f', scroll f lines = Some f' /\ same_screen f f'.
Proof.
  intros F Hl Hst Hov. pose proof F as (G & Hs & Hf). pose proof (area_nonneg f G) as Ha. unfold scroll.
  destruct ((lines =? 0) || (h f =? 0)); [by exists f|]. fold LINE_H. unfold checked_mul.
  assert (lines * LINE_H < 2 ^ 64) by (unfold LINE_H, GLYPH_H in *; nia). rewrite (proj2 (Z.ltb_lt (lines * LINE_H) _)) by done. cbn [mbind option_bind].
  rewrite (proj2 (Z.ltb_lt (_ * stride f) _)) by done. cbn [mbind option_bind].
  set (shift := _ * stride f). assert (0 <= shift) by (unfold shift, LINE_H, GLYPH_H; nia).
  destruct (Z.geb_spec shift (h f * stride f)) as [|Hlt].
  - destruct (clear_shows f F) as (f' & -> & ? & _). by exists f'.
  - rewrite move_bytes_in by lia. simpl. rewrite fill_bytes_in by (simpl; lia). by eexists.
Qed.

Lemma draw_text_safe f tv text sx sy :
  fits f -> 0 <= sx -> 0 <= sy -> exists f', draw_text font f tv text sx sy = Some f' /\ same_screen f f'.
Proof.
  intros F Hx Hy. unfold draw_text. destruct (_ || _); [by exists f|].
  destruct (draw_chars_safe f _ (take 4096 text) (shadow f) _ sx sx sy (proj1 F) (rep_self f F)) as (b & I & -> & HR); [done..|].
  eexists. split; [done|]. destruct HR as (Hsz & _). by split_and!.
Qed.

Lemma serve_safe k f cmd arg0 arg1 arg2 :
  fits f -> 0 < stride f -> message_ok k (stride f) (cmd, arg0, arg1, arg2) ->
  exists r f', serve font k (Some f) cmd arg0 arg1 arg2 = Some (r, Some f') /\ fits f' /\ same_screen f f'.
Proof.
  intros F Hst (H0 & H1 & H2 & Ht & Hsc).
  assert (forall op, (exists f', op f = Some f' /\ same_screen f f') ->
    exists r f', (f' ← op f; Some (0, Some f')) = Some (r, Some f') /\ fits f' /\ same_screen f f') as Hon.
  { intros op (f' & -> & HS). exists 0, f'. split_and!; [done| |done]. by apply (same_screen_fits f). }
  assert (exists f', present f = Some f' /\ same_screen f f') as Hpres.
  { destruct (present_shows f F) as (f' & ? & ? & _). by exists f'. }
  assert (exists f', clear f = Some f' /\ same_screen f f') as Hclear.
  { destruct (clear_shows f F) as (f' & ? & ? & _). by exists f'. }
  unfold serve. destruct (_ =? FB_CMD_ACQUIRE); [by exists 1, f|].
  destruct (_ =? FB_CMD_CLEAR); [by apply Hon|].
  destruct (Z.eqb_spec (wrap 32 cmd) FB_CMD_DRAW_TEXT) as [Hcmd|_].
  { specialize (Ht Hcmd). cbv zeta. set (mp := negb (arg0 =? 0) && negb (arg1 =? 0)). set (pages := (arg1 + 0xFFF) / 0x1000 * 0x1000).
    assert (mp = true -> text_mapped k arg0 arg1) as Hmp.
    { unfold mp. intros [?%negb_true_iff%Z.eqb_neq ?%negb_true_iff%Z.eqb_neq]%andb_true_iff. by apply Ht. }
    assert (mp && (2 ^ 64 <=? arg1 + 0xFFF) = false) as ->.
    { destruct mp; [|done]. destruct (Hmp eq_refl) as [? _]. cbn [andb]. apply Z.leb_gt. lia. }
    assert (mp && (phys_window arg0 pages <? Z.min arg1 4096) = false) as ->.
    { destruct mp; [|done]. destruct (Hmp eq_refl) as (_ & _ & ?). cbn [andb]. by apply Z.ltb_ge. }
    set (tv := if mp then _ else 0). destruct ((tv =? 0) && negb (arg1 =? 0)); [by exists 2, f|].
    destruct (Z.eqb_spec tv U64_MAX) as [E|_].
    { unfold tv in E. destruct mp; [|done]. by destruct (Hmp eq_refl) as (_ & ? & _). }
    destruct (draw_text_safe f tv (map (phys_bytes k arg0) (seqZ 0 (Z.min arg1 4096))) (Z.shiftr arg2 32) (Z.land arg2 0xFFFFFFFF))
      as (f1 & -> & HS1); [done|by apply Z.shiftr_nonneg|apply Z.land_nonneg; by right|]. simpl.
    destruct (present_shows f1) as (f2 & -> & HS2 & _); [by apply (same_screen_fits f)|]. simpl.
    exists 0, f2. pose proof (same_screen_trans _ _ _ HS1 HS2). split_and!; [done| |done]. by apply (same_screen_fits f). }
  destruct (_ =? FB_CMD_SET_FG); [by apply (Hon (fun f => Some _)); eexists|].
  destruct (_ =? FB_CMD_SET_BG); [by apply (Hon (fun f => Some _)); eexists|].
  destruct (Z.eqb_spec (wrap 32 cmd) FB_CMD_SCROLL) as [Hcmd|_]; [apply (Hon (fun f => scroll f arg0)); apply scroll_safe; auto|].
  destruct (_ =? FB_CMD_PRESENT); [by apply Hon|]. by exists 1, f.
Qed.

(** The messages of a session, with the responses. *)
Fixpoint serve_all (k : Maps) (fb : option Fb) (msgs : list (Z * Z * Z * Z)) : option (list Z * option Fb) :=
  match msgs with
  | [] => Some ([], fb)
  | (cmd, arg0, arg1, arg2) :: msgs =>
    '(r, fb) ← serve font k fb cmd arg0 arg1 arg2;
    '(rs, fb) ← serve_all k fb msgs;
    Some (r :: rs, fb)
  end.

Lemma serve_all_safe k msgs : forall f,
  fits f -> 0 < stride f -> Forall (message_ok k (stride f)) msgs ->
  exists rs f', serve_all k (Some f) msgs = Some (rs, Some f') /\ fits f' /\ same_screen f f'.
Proof.
  induction msgs as [|[[[cmd a0] a1] a2] msgs IH]; intros f F Hst Hm; simpl; [by eexists _, f|].
  apply Forall_cons in Hm as [H1 Hm].
  destruct (serve_safe k f cmd a0 a1 a2 F Hst H1) as (r & f1 & -> & F1 & HS1). simpl. pose proof HS1 as (_ & _ & E3 & _).
  destruct (IH f1 F1) as (rs & f2 & -> & F2 & HS2); [by rewrite E3..|]. simpl. eexists _, f2. split_and!; [done..|].
  by apply (same_screen_trans _ f1).
Qed.


Lemma draw_text_shows f tv lines sx sy :
  fits f -> tv <> 0 -> (length (text_of lines) <= 4096)%nat -> 0 <= sx -> 0 <= sy -> Forall (Forall printable) lines ->
  exists f', draw_text font f tv (text_of lines) sx sy = Some f' /\ same_screen f f' /\ fb_ptr f' = fb_ptr f /\
    forall x y, on_screen f x y -> pixel f (shadow f') x y = with_text font f lines sx sy (pixel f (shadow f)) x y.
Proof.
  intros F Htv Hlen Hx Hy Hl.
  destruct (draw_lines_rep font f _ lines (shadow f) _ sx sy (proj1 F) (rep_self f F) Hx Hy Hl) as (b & E & Hsz & _ & Hp).
  unfold draw_text. rewrite (proj2 (Z.eqb_neq tv 0)) by done. cbn [orb].
  destruct (Z.eqb_spec (Z.of_nat (length (text_of lines))) 0) as [Hz|_].
  - exists f. split_and!; [done..|]. intros x y Hon. rewrite <-Hp by done.
    destruct (text_of lines); [|simpl in Hz; lia]. simpl in E. by simplify_eq.
  - rewrite take_ge by lia. rewrite E. eexists. split; [done|]. by split_and!.
Qed.

End serve.

(** ** Instances and limits *)

Definition demo_font (a : Z) : Z := a mod 256.
(** Mappings that succeed at the physical address; "Hi" and "!" on two lines at 0x5000. *)
Definition demo_maps : Maps :=
  mkMaps (fun p _ => p) (fun _ => 0x400000) (fun p i => if p =? 0x5000 then nth (Z.to_nat i) [72; 105; 10; 33] 0 else 7) (fun a => a mod 7).


(** A screen of 16 by 20 pixels. *)
Definition demo_fb : Fb :=
  mkFb (mkBuf 4096 (fun _ => 9)) (mkBuf 4096 (fun a => a mod 251)) 16 20 64 4 true (mkColor 1 2 3) (mkColor 4 5 6).


(** A row of 65536 bytes or more does not fit its field and spills into the bytes per pixel: a screen 16384 pixels wide is
    refused, one with rows of 65536 pixels gets a row size of 0. *)
Theorem wide_rows_misread :
  acquire demo_maps 0x80000000 (fb_bytes 20 16384 4) (pack_geometry 16384 20 16384 4 false) = None /\
  (exists f, acquire demo_maps 0x80000000 (fb_bytes 20 65536 4) (pack_geometry 1024 20 65536 4 false) = Some f /\ stride f = 0).
Proof. split; [done|]. by eexists. Qed.

(** ACQUIRE does not compare the geometry with the size: with a size too small the driver faults while it
    answers. *)
Theorem acquire_trusts_geometry :
  serve demo_font demo_maps None FB_CMD_ACQUIRE 0x80000000 4096 (pack_geometry 640 480 640 4 true) = None.
Proof. by vm_compute. Qed.

(** DRAW_TEXT compares the address of the mapped text with 0 only: when the kernel refuses the mapping, the driver reads at
    the error value. *)
Theorem refused_text_faults f k cmd phys len pos :
  wrap 32 cmd = FB_CMD_DRAW_TEXT -> phys <> 0 -> len <> 0 -> (forall s, map_phys_ret k phys s = U64_MAX) ->
  serve demo_font k (Some f) cmd phys len pos = None.
Proof.
  intros Hc Hp Hl Hm. unfold serve. rewrite Hc, !Hm. simpl.
  rewrite (proj2 (Z.eqb_neq phys 0)), (proj2 (Z.eqb_neq len 0)) by done. simpl. by destruct (_ <=? _).
Qed.

(** A text that crosses the end of a page is read beyond the pages mapped for it: its length is rounded up from its first
    byte, not from the page it begins in. *)
Theorem crossing_text_faults f k cmd phys len pos :
  wrap 32 cmd = FB_CMD_DRAW_TEXT -> 0 < phys -> 0 < len <= 4096 -> 4096 < phys mod 4096 + len ->
  (forall s, map_phys_ret k phys s <> 0) -> serve demo_font k (Some f) cmd phys len pos = None.
Proof.
  intros Hc Hp Hl Hx Hm. unfold serve. rewrite Hc. change (FB_CMD_DRAW_TEXT =? FB_CMD_ACQUIRE) with false. change (FB_CMD_DRAW_TEXT =? FB_CMD_CLEAR) with false.
  cbn iota. rewrite Z.eqb_refl. rewrite !(proj2 (Z.eqb_neq phys 0)), !(proj2 (Z.eqb_neq len 0)) by lia. cbn [andb negb]. cbv zeta.
  rewrite (proj2 (Z.leb_gt (2 ^ 64) _)) by lia. replace ((len + 4095) / 4096) with 1 by div_lia. change (1 * 4096) with 4096.
  rewrite (proj2 (Z.eqb_neq _ 0)) by done. cbn [andb]. destruct (_ =? U64_MAX); [done|].
  unfold phys_window. change (phys_mapped 4096) with 4096. rewrite (proj2 (Z.ltb_lt _ _)) by lia. done.
Qed.

(** The same of a frame buffer that does not begin at a page and fills its last one. *)
Theorem unaligned_frame_buffer_faults :
  serve demo_font demo_maps None FB_CMD_ACQUIRE 0x80000800 (fb_bytes 32 32 4) (pack_geometry 32 32 32 4 true) = None.
Proof. by vm_compute. Qed.

(** The shift of SCROLL overflows: a request for 2^63 lines ends the driver instead of clearing the screen. *)
Theorem scroll_overflows : scroll demo_fb (2 ^ 63) = None.
Proof. by vm_compute. Qed.
