(* ===== verification/Handover.v ===== *)
(** From the firmware to the kernel: the memory map, screen mode and ACPI pointer the boot loader records (src/boot/src/main.rs), and
    the first phase of the kernel, which turns the map into the regions of the page allocator, protects what is in use, and looks
    for the interrupt controllers (src/kernel/src/main.rs).

    What the firmware returns is an argument.  The linker symbols are the section variables; logging is left out. *)
From stdpp Require Import base tactics numbers list.
From Stdlib Require Import ZArith Lia.
From S2P Require Import Prelude Phys Acpi FbDrv.

Local Open Scope Z_scope.
Local Open Scope word_scope.

Definition MAX_MEMORY_REGIONS : nat := 128.
Definition APIC_MMIO_BASE : Z := 0xFEC00000.
Definition APIC_MMIO_SIZE : Z := 0x400000.

(** ** Boot loader *)

Inductive MemoryType := CONVENTIONAL | OtherMemory (code : Z).
#[export] Instance MemoryType_eq_dec : EqDecision MemoryType.
Proof. solve_decision. Defined.

Record MemDesc := mkMemDesc { ty : MemoryType; phys_start : Z; page_count : Z }.
Notation MemoryRegion := (Z * Z)%type (only parsing).

Record FramebufferInfo := mkFbInfo { fb_phys_addr : Z; fb_width : Z; fb_height : Z; fb_stride : Z; fb_bytes_per_pixel : Z; fb_is_bgr : bool }.

Record BootInfo := mkBootInfo {
  memory_regions : list MemoryRegion; memory_region_count : nat; framebuffer : FramebufferInfo;
  kernel_image : Z * Z; drivers_elf : Z * Z; rsdp_addr : Z; madt_addr : Z;
}.

Fixpoint collect_entries (entries : list MemDesc) (regions : list MemoryRegion) (region_count : nat) : list MemoryRegion * nat :=
  match entries with
  | [] => (regions, region_count)
  | e :: entries =>
    if bool_decide (ty e = CONVENTIONAL) && (page_count e >? 0) && (region_count <? MAX_MEMORY_REGIONS)%nat
    then collect_entries entries (<[region_count := (phys_start e, page_count e *u64 4096)]> regions) (S region_count)
    else collect_entries entries regions region_count
  end.

(** [None]: the firmware gives no memory map. *)
Definition collect_usable_memory_regions (memory_map : option (list MemDesc)) (b : BootInfo) : BootInfo :=
  let none := replicate MAX_MEMORY_REGIONS (0, 0) in
  let '(regions, n) := match memory_map with Some entries => collect_entries entries none 0 | None => (none, 0%nat) end in
  mkBootInfo regions n (framebuffer b) (kernel_image b) (drivers_elf b) (rsdp_addr b) (madt_addr b).

(** The mode to set: 1024x768, or else the first of those with most pixels; modes are given by their resolution. *)
Definition most_pixels (modes : list (Z * Z)) : option (Z * Z) :=
  (fold_left (fun '(best, best_pixels) '(w, h) =>
    let pixels := w *u64 h in if pixels >? best_pixels then (Some (w, h), pixels) else (best, best_pixels)) modes (None, 0)).1.
Definition best_mode (modes : list (Z * Z)) : option (Z * Z) :=
  match find (fun '(w, h) => (w =? 1024) && (h =? 768)) modes with
  | Some m => Some m
  | None => most_pixels modes
  end.

(** The first entry of the configuration table with one of the two ACPI identifiers. *)
Inductive Guid := ACPI2_GUID | ACPI_GUID | OtherGuid (id : Z).
Definition find_rsdp_entry (entries : list (Guid * Z)) : Z :=
  match find (fun '(g, _) => match g with OtherGuid _ => false | _ => true end) entries with
  | Some (_, address) => address
  | None => 0
  end.

(** ** Kernel *)

Section kernel.
Context (sym_kernel_start sym_kernel_end : Z).

Definition kernel_end : Z := Z.land (sym_kernel_end +u64 0xFFF) (not64 0xFFF).
Definition kernel_size : Z := kernel_end -u64 sym_kernel_start.

(** [regions[nregions] = r; nregions += 1], while there is room. *)
Definition push_region (regions : list MemoryRegion) (r : MemoryRegion) : list MemoryRegion :=
  if (length regions <? 256)%nat then regions ++ [r] else regions.

(** One region of the loop; [regions] are the entries in use. *)
Definition layout_region (regions : list MemoryRegion) (r : MemoryRegion) : list MemoryRegion :=
  let '(rstart, rsize) := r in
  if rsize =? 0 then regions
  else
    let rend := saturating_add 64 rstart rsize in
    let rstart := Z.land (rstart +u64 0xFFF) (not64 0xFFF) in
    let rend := Z.land rend (not64 0xFFF) in
    if rstart >=? rend then regions
    else if (kernel_size >? 0) && (rstart <? kernel_end) && (rend >? sym_kernel_start) then
      let regions := if rstart <? sym_kernel_start then push_region regions (rstart, sym_kernel_start - rstart) else regions in
      if kernel_end <? rend then push_region regions (kernel_end, rend - kernel_end) else regions
    else push_region regions (rstart, rend - rstart).

Definition build_memory_layout (info : BootInfo) : list MemoryRegion :=
  let region_count := Nat.min (memory_region_count info) MAX_MEMORY_REGIONS in
  fold_left layout_region (take region_count (memory_regions info)) [].

(** The ranges the allocator leaves alone. *)
Definition exclude_list (info : BootInfo) : list (Z * Z) :=
  let fb := framebuffer info in
  let fb_base := Z.land (fb_phys_addr fb) (not64 0xFFF) in
  let fb_end := saturating_add 64 (fb_phys_addr fb) (fb_bytes (fb_height fb) (fb_stride fb) (fb_bytes_per_pixel fb)) in
  let used r := if negb (fst r =? 0) && negb (snd r =? 0) then [r] else [] in
  [(0, 0x100000)] ++ (if fb_end -u64 fb_base >? 0 then [(fb_base, fb_end -u64 fb_base)] else [])
  ++ used (kernel_image info) ++ used (drivers_elf info) ++ [(APIC_MMIO_BASE, APIC_MMIO_SIZE)].

(** The allocator after phase 1. *)
Definition init_memory (boot_info : Z) (info : BootInfo) : PhysState :=
  init_from_regions phys_boot (build_memory_layout info) boot_info sym_kernel_start kernel_size (exclude_list info).
End kernel.

(** The I/O APICs and the MADT; memory is a function of addresses. *)
Definition discover_acpi (mem : Z -> Z) (info : BootInfo) : list IoApicInfo * option MadtInfo :=
  let madt := if negb (madt_addr info =? 0) then madt_addr info
    else default 0 (acpi_init mem (if negb (rsdp_addr info =? 0) then Some (rsdp_addr info) else None) ≫= Acpi.madt_addr) in
  if madt =? 0 then ([], None)
  else match parse mem madt with
  | None => ([], None)
  | Some m => (ioapics m, Some m)
  end.
