(* ===== verification/HandoverThms.v ===== *)
(** What the kernel starts with: from the firmware's memory map to the free pages of the allocator, and the choice of the screen
    mode. *)
From stdpp Require Import base tactics numbers list.
From Stdlib Require Import ZArith Lia.
From S2P Require Import Prelude Phys PhysInv PhysSpec Acpi FbDrv Handover.

Local Open Scope Z_scope.
Local Open Scope word_scope.
Set Default Proof Using "Type".

(** ** The map *)

Definition usable_desc (e : MemDesc) : Prop := ty e = CONVENTIONAL /\ 0 < page_count e.
#[export] Instance usable_desc_dec e : Decision (usable_desc e).
Proof. unfold usable_desc. apply _. Defined.

(** What the firmware promises: whole pages, below the limit of physical addresses. *)
Definition desc_ok (e : MemDesc) : Prop :=
  0 <= phys_start e /\ phys_start e mod 4096 = 0 /\ 0 <= page_count e /\ phys_start e + page_count e * 4096 <= 2 ^ 52.

Definition desc_region (e : MemDesc) : MemoryRegion := (phys_start e, page_count e * 4096).
Definition desc_pages (e : MemDesc) : list Z := seqZ (phys_start e / 4096) (page_count e).

(** The boot loader records the usable entries in order, the first 128 of them. *)
Lemma collect_entries_spec es : forall rs k,
  Forall desc_ok es -> length rs = MAX_MEMORY_REGIONS -> (k <= MAX_MEMORY_REGIONS)%nat ->
  let new := desc_region <$> take (MAX_MEMORY_REGIONS - k) (filter usable_desc es) in
  (collect_entries es rs k).2 = (k + length new)%nat /\ take (k + length new) (collect_entries es rs k).1 = take k rs ++ new /\
  length (collect_entries es rs k).1 = MAX_MEMORY_REGIONS.
Proof.
  induction es as [|e es IH]; intros rs k Hok Hl Hk; cbn [collect_entries].
  - cbn. rewrite take_nil. cbn. by rewrite Nat.add_0_r, app_nil_r.
  - apply Forall_cons in Hok as [He Hok]. rewrite filter_cons.
    destruct (bool_decide_reflect (ty e = CONVENTIONAL)) as [Hty|Hty]; cbn [andb];
      [|rewrite decide_False by (by intros []); by apply IH].
    rewrite Z.gtb_ltb. destruct (Z.ltb_spec 0 (page_count e)); cbn [andb];
      [|rewrite decide_False by (intros []; lia); by apply IH].
    rewrite decide_True by done. destruct (Nat.ltb_spec k MAX_MEMORY_REGIONS) as [Hlt|Hge].
    + destruct He as (H0 & H1 & H2 & H3). cbv zeta. rewrite wrap_small by lia. change (phys_start e, page_count e * 4096) with (desc_region e).
      replace (MAX_MEMORY_REGIONS - k)%nat with (S (MAX_MEMORY_REGIONS - S k)) by lia. cbn [take fmap list_fmap length].
      destruct (IH (<[k:=desc_region e]> rs) (S k) Hok ltac:(by rewrite length_insert) ltac:(lia)) as (En & E & El).
      split; [etransitivity; [exact En|lia]|]. split; [|exact El]. rewrite <-Nat.add_succ_comm. etransitivity; [exact E|].
      rewrite (take_S_r _ _ (desc_region e)) by (rewrite list_lookup_insert_eq; [done|lia]).
      by rewrite take_insert_ge, <-app_assoc by lia.
    + destruct (IH rs k Hok Hl Hk) as (En & E & E'). replace (MAX_MEMORY_REGIONS - k)%nat with 0%nat in * by lia. cbn in *. done.
Qed.

(** ** Regions outside the kernel *)

Section kernel.
Context (ks ke : Z).
(** The linker puts the kernel on a page boundary, below the limit. *)
Context (Hks : 0 <= ks) (Hal : ks mod 4096 = 0) (Hke : ks <= ke < 2 ^ 52).

Lemma clear_page_bits x : 0 <= x < 2 ^ 64 -> Z.land x (not64 0xFFF) = x - x mod 4096.
Proof. clear. intros. by apply (land_not64 x 12); lia. Qed.

Lemma kernel_end_eq : kernel_end ke = (ke + 4095) / 4096 * 4096.
Proof using Hks Hal Hke. unfold kernel_end. rewrite wrap_small by lia. rewrite clear_page_bits by lia. div_lia. Qed.

Lemma kernel_size_eq : kernel_size ks ke = kernel_end ke - ks.
Proof using Hks Hal Hke. unfold kernel_size. apply wrap_small. rewrite kernel_end_eq. div_lia. Qed.

(** Pages outside the kernel. *)
Definition apart_pages : list Z -> list Z := filter (outside ks (kernel_end ke)).

Lemma region_pages_aligned a n :
  0 <= a -> a mod 4096 = 0 -> 0 <= n -> n mod 4096 = 0 -> a + n <= 2 ^ 52 -> region_pages (a, n) = seqZ (a / 4096) (n / 4096).
Proof. clear.
  intros. unfold region_pages, region_bounds. cbn [fst snd]. unfold saturating_add. rewrite Z.min_l by lia.
  rewrite align_up_page, align_down_page by lia. rewrite Z.min_l by lia. unfold range_pages, PAGE_SIZE. f_equal; div_lia.
Qed.

Definition region_fits (r : MemoryRegion) : Prop :=
  0 <= r.1 /\ r.1 mod 4096 = 0 /\ 0 <= r.2 /\ r.2 mod 4096 = 0 /\ r.1 + r.2 <= 2 ^ 52.

Lemma apart_split p n : 0 <= n ->
  apart_pages (seqZ p n) = seqZ p (Z.max 0 (Z.min (p + n) (ks / 4096) - p)) ++
    seqZ (Z.max p (kernel_end ke / 4096)) (Z.max 0 (p + n - Z.max p (kernel_end ke / 4096))).
Proof using Hks Hal Hke.
  intros Hn. assert (ks / 4096 <= kernel_end ke / 4096) as Hk by (rewrite kernel_end_eq; div_lia). unfold apart_pages.
  assert (forall x, outside ks (kernel_end ke) x <-> ~ (ks / 4096 <= x < kernel_end ke / 4096)) as Ho by done.
  revert Hk Ho. generalize (ks / 4096), (kernel_end ke / 4096). intros a b Hk Ho.
  set (n1 := Z.max 0 _). set (n3 := Z.max 0 _).
  assert (seqZ p n = seqZ p n1 ++ seqZ (p + n1) (n - n1 - n3) ++ seqZ (p + n - n3) n3) as ->.
  { replace (p + n - n3) with (p + n1 + (n - n1 - n3)) by lia. rewrite <-!seqZ_app by lia. f_equal. lia. }
  rewrite !filter_app. rewrite (filter_all _ (seqZ p n1)) by (apply Forall_forall; intros x Hx%elem_of_seqZ; apply Ho; lia).
  rewrite filter_none by (apply Forall_forall; intros x Hx%elem_of_seqZ; rewrite Ho; lia).
  rewrite filter_all by (apply Forall_forall; intros x Hx%elem_of_seqZ; apply Ho; lia). cbn [app]. f_equal.
  destruct (Z.le_gt_cases n3 0); [|f_equal; lia]. by rewrite !seqZ_nil by lia.
Qed.

Lemma push_room regions r : (length regions < 256)%nat -> push_region regions r = regions ++ [r].
Proof. clear. intros. unfold push_region. by rewrite (proj2 (Nat.ltb_lt _ _)). Qed.

Lemma seqZ_same p n p' n' : Z.max 0 n = Z.max 0 n' -> (0 < n -> p = p') -> seqZ p n = seqZ p' n'.
Proof. clear. intros Hn Hp. destruct (Z.le_gt_cases n 0); [by rewrite !seqZ_nil by lia|]. rewrite Hp by lia. f_equal. lia. Qed.

Lemma seqZ_two p n p1 n1 p2 n2 :
  Z.max 0 n = Z.max 0 n1 + Z.max 0 n2 -> (0 < n1 -> p = p1) -> (0 < n2 -> p2 = p + Z.max 0 n1) -> seqZ p n = seqZ p1 n1 ++ seqZ p2 n2.
Proof. clear.
  intros Hn H1 H2. rewrite (seqZ_same p1 n1 p (Z.max 0 n1)), (seqZ_same p2 n2 (p + Z.max 0 n1) (Z.max 0 n2)) by lia.
  rewrite <-seqZ_app by lia. apply seqZ_same; lia.
Qed.

(** Cutting the kernel out of a region. *)
Lemma layout_region_pages regions r :
  (length regions + 2 <= 256)%nat -> region_fits r ->
  exists new, layout_region ks ke regions r = regions ++ new /\ (length new <= 2)%nat /\ Forall region_fits new /\
    (new ≫= region_pages) = apart_pages (seqZ (r.1 / 4096) (r.2 / 4096)).
Proof using Hks Hal Hke.
  destruct r as [a n]. unfold region_fits. cbn [fst snd]. intros Hl (H1 & H2 & H3 & H4 & H5). rewrite apart_split by div_lia. unfold layout_region.
  destruct (Z.eqb_spec n 0) as [->|Hn].
  { exists []. rewrite app_nil_r, !seqZ_nil by (change (0 / 4096) with 0; lia). by repeat constructor. }
  unfold saturating_add. rewrite Z.min_l, wrap_small, !clear_page_bits by lia.
  replace (a + 4095 - (a + 4095) mod 4096) with a by div_lia. replace (a + n - (a + n) mod 4096) with (a + n) by div_lia.
  destruct (Z.geb_spec a (a + n)); [lia|]. rewrite kernel_size_eq, !Z.gtb_ltb. pose proof kernel_end_eq as Eke.
  assert (kernel_end ke mod 4096 = 0 /\ ks <= kernel_end ke) as [Hkm Hkk] by (rewrite Eke; div_lia). clear Eke.
  revert Hkm Hkk. generalize (kernel_end ke). intros K Hkm Hkk.
  destruct (Z.ltb_spec 0 (K - ks)), (Z.ltb_spec a K), (Z.ltb_spec ks (a + n)); cbn [andb].
  1: { exists ((if a <? ks then [(a, ks - a)] else []) ++ (if K <? a + n then [(K, a + n - K)] else [])).
    destruct (Z.ltb_spec a ks), (Z.ltb_spec K (a + n)); rewrite ?(push_room regions) by lia; rewrite ?push_room by (rewrite ?length_app; cbn; lia);
      (split; [by rewrite ?app_nil_r, <-?app_assoc|]); (split; [cbn; lia|]); (split; [repeat constructor; cbn; div_lia|]);
      cbn [app mbind list_bind]; rewrite ?app_nil_r, ?region_pages_aligned by div_lia.
    - f_equal; apply seqZ_same; div_lia.
    - apply seqZ_two; div_lia.
    - apply seqZ_two; div_lia.
    - by rewrite !seqZ_nil by div_lia. }
  all: exists [(a, n)]; rewrite push_room by lia; replace (a + n - a) with n by lia; (split; [done|]); (split; [cbn; lia|]); (split; [by apply Forall_singleton|]);
    cbn [mbind list_bind]; rewrite app_nil_r, region_pages_aligned by lia; apply seqZ_two; div_lia.
Qed.

(** All regions. *)
Lemma layout_pages rs : forall regions,
  (length regions + 2 * length rs <= 256)%nat -> Forall region_fits rs -> Forall region_fits regions ->
  Forall region_fits (fold_left (layout_region ks ke) rs regions) /\
  (fold_left (layout_region ks ke) rs regions ≫= region_pages) =
    (regions ≫= region_pages) ++ apart_pages (rs ≫= fun r => seqZ (r.1 / 4096) (r.2 / 4096)).
Proof using Hks Hal Hke.
  induction rs as [|r rs IH]; intros regions Hl Hf Hr; cbn [fold_left].
  - split; [done|]. cbn. by rewrite app_nil_r.
  - apply Forall_cons in Hf as [Hfr Hf]. cbn [length] in Hl.
    destruct (layout_region_pages regions r ltac:(lia) Hfr) as (new & -> & Hn & Hnf & Hp).
    destruct (IH (regions ++ new)) as [H1 H2]; [rewrite length_app; lia|done|by apply Forall_app|]. split; [done|].
    rewrite H2, bind_app, Hp, bind_cons. unfold apart_pages. by rewrite filter_app, app_assoc.
Qed.

(** ** What is protected *)

(** A page is below or above a range. *)
Definition clear_of (pn : Z) (r : Z * Z) : Prop := pn * 4096 + 4096 <= r.1 \/ r.1 + r.2 <= pn * 4096.

Lemma is_excluded_apart pn excl :
  0 <= pn -> pn * 4096 + 4096 <= 2 ^ 52 -> Forall region_ok excl -> is_excluded (pn * 4096) excl = false <-> Forall (clear_of pn) excl.
Proof. clear.
  intros H0 H1 Hok. unfold is_excluded. rewrite <-not_true_iff_false, existsb_exists, Forall_forall. unfold clear_of, saturating_add, PAGE_SIZE. split.
  - intros Hn [a n] Hin. rewrite Forall_forall in Hok. destruct (Hok _ Hin) as [Ha Hb]. cbn [fst snd] in *.
    destruct (Z.le_gt_cases (a + n) (pn * 4096)); [by right|]. left. apply Z.le_ngt. intros Hlt. apply Hn. exists (a, n).
    split; [by apply list_elem_of_In|]. rewrite andb_true_iff, Z.gtb_lt, Z.ltb_lt. lia.
  - intros Hf [[a n] [Hin%list_elem_of_In Ht]]. specialize (Hf _ Hin). rewrite Forall_forall in Hok. destruct (Hok _ Hin) as [Ha Hb].
    cbn [fst snd] in *. rewrite andb_true_iff, Z.gtb_lt, Z.ltb_lt in Ht. lia.
Qed.

(** The bytes of the screen: the rows, each of [fb_stride] pixels. *)
Definition screen_bytes (f : FramebufferInfo) : Z := fb_height f * fb_stride f * fb_bytes_per_pixel f.
Definition screen_ok (f : FramebufferInfo) : Prop :=
  0 <= fb_height f /\ 0 <= fb_stride f /\ 0 <= fb_bytes_per_pixel f /\ 0 <= fb_phys_addr f /\ fb_phys_addr f + screen_bytes f < 2 ^ 64 /\
  (screen_bytes f = 0 -> fb_phys_addr f mod 4096 = 0).

(** An image in memory, or none. *)
Definition image_ok (r : Z * Z) : Prop := region_ok r /\ (r.1 = 0 -> r.2 = 0).

(** What the boot loader records about the screen and the images. *)
Definition info_ok (b : BootInfo) : Prop := screen_ok (framebuffer b) /\ image_ok (kernel_image b) /\ image_ok (drivers_elf b).

Lemma screen_bytes_pos f : screen_ok f -> 0 <= screen_bytes f.
Proof. clear. intros (? & ? & ? & _). unfold screen_bytes. nia. Qed.

Lemma fb_bytes_screen f : screen_ok f -> fb_bytes (fb_height f) (fb_stride f) (fb_bytes_per_pixel f) = screen_bytes f.
Proof. clear.
  intros H. pose proof (screen_bytes_pos f H). destruct H as (H1 & H2 & H3 & H4 & H5 & _). unfold fb_bytes, saturating_mul, screen_bytes in *.
  destruct (decide (fb_bytes_per_pixel f = 0)) as [->|]; [unfold U64_MAX; lia|].
  assert (fb_height f * fb_stride f <= fb_height f * fb_stride f * fb_bytes_per_pixel f) by nia.
  rewrite (Z.min_l (_ * _)), Z.min_l by (unfold U64_MAX; lia). done.
Qed.

(** The range of the screen that is left alone: from the beginning of its first page. *)
Lemma exclude_list_eq b : info_ok b ->
  let f := framebuffer b in
  let used r := if negb (fst r =? 0) && negb (snd r =? 0) then [r] else [] in
  exclude_list b = [(0, 0x100000)] ++
    (if fb_phys_addr f mod 4096 + screen_bytes f >? 0 then [(fb_phys_addr f - fb_phys_addr f mod 4096, fb_phys_addr f mod 4096 + screen_bytes f)] else [])
    ++ used (kernel_image b) ++ used (drivers_elf b) ++ [(0xFEC00000, 0x400000)].
Proof. clear.
  intros (Hs & _). cbv zeta. unfold exclude_list. rewrite fb_bytes_screen by done. pose proof (screen_bytes_pos _ Hs).
  destruct Hs as (_ & _ & _ & H4 & H5 & _). unfold saturating_add. rewrite Z.min_l, clear_page_bits by lia.
  rewrite wrap_small by div_lia.
  by replace (fb_phys_addr (framebuffer b) + screen_bytes (framebuffer b) - (fb_phys_addr (framebuffer b) - fb_phys_addr (framebuffer b) mod 4096))
    with (fb_phys_addr (framebuffer b) mod 4096 + screen_bytes (framebuffer b)) by lia.
Qed.

Lemma exclude_list_ok b : info_ok b -> Forall region_ok (exclude_list b).
Proof. clear.
  intros Hi. rewrite exclude_list_eq by done. destruct Hi as (Hs & [Hk _] & [Hd _]). cbv zeta. pose proof (screen_bytes_pos _ Hs).
  assert (forall r, region_ok r -> Forall region_ok (if negb (r.1 =? 0) && negb (r.2 =? 0) then [r] else [])) as Hu.
  { intros r Hr. destruct (_ && _); [by apply Forall_singleton|constructor]. }
  destruct Hs as (_ & _ & _ & H4 & H5 & _).
  repeat (apply Forall_app; split); auto; try (apply Forall_singleton; unfold region_ok; cbn; lia).
  destruct (_ >? _); [|constructor]. apply Forall_singleton. unfold region_ok. cbn [fst snd]. div_lia.
Qed.

(** A page and a range of bytes have no byte in common. *)
Definition page_apart (pn : Z) (r : Z * Z) : Prop := forall a, pn * 4096 <= a < pn * 4096 + 4096 -> ~ (r.1 <= a < r.1 + r.2).

(** What must not be handed out: the kernel, the boot information, the first megabyte, the screen, the images of the kernel and of
    the drivers, the registers of the interrupt controllers. *)
Definition protected (bip : Z) (info : BootInfo) : list (Z * Z) :=
  [(ks, ke - ks); (bip, SIZEOF_BOOTINFO); (0, 0x100000); (fb_phys_addr (framebuffer info), screen_bytes (framebuffer info));
   kernel_image info; drivers_elf info; (0xFEC00000, 0x400000)].

Lemma page_apart_clear pn a n : 0 < n -> page_apart pn (a, n) <-> clear_of pn (a, n).
Proof. clear.
  intros Hn. unfold page_apart, clear_of. cbn [fst snd]. split; [|lia]. intros H. destruct (Z.le_gt_cases (pn * 4096 + 4096) a); [by left|].
  right. specialize (H (Z.max a (pn * 4096))). lia.
Qed.

Definition apartb (pn : Z) (r : Z * Z) : bool := (r.2 <=? 0) || (pn * 4096 + 4096 <=? r.1) || (r.1 + r.2 <=? pn * 4096).
Lemma apartb_spec pn r : apartb pn r = true <-> page_apart pn r.
Proof. clear.
  destruct r as [a n]. unfold apartb. rewrite !orb_true_iff, !Z.leb_le. cbn [fst snd]. destruct (Z.le_gt_cases n 0).
  - split; [|lia]. intros _ x _. cbn [fst snd]. lia.
  - rewrite page_apart_clear by lia. unfold clear_of. cbn [fst snd]. lia.
Qed.

(** Rounding a range to whole pages changes nothing. *)
Lemma page_apart_rounded pn a n b m :
  0 < n -> b mod 4096 = 0 -> b <= a < b + 4096 -> (a + n <= b + m < a + n + 4096) -> (b + m = a + n \/ (b + m) mod 4096 = 0) ->
  page_apart pn (a, n) <-> clear_of pn (b, m).
Proof. clear. intros Hn Hb Ha He Hm. rewrite page_apart_clear by done. unfold clear_of. cbn [fst snd]. div_lia. Qed.

Lemma page_apart_used pn r : image_ok r -> page_apart pn r <-> Forall (clear_of pn) (if negb (r.1 =? 0) && negb (r.2 =? 0) then [r] else []).
Proof. clear.
  destruct r as [a n]. intros [[H0 H1] Hz]. cbn [fst snd] in *. destruct (Z.eqb_spec n 0) as [->|].
  - rewrite andb_false_r, Forall_nil. split; [done|]. intros _ x _. cbn [fst snd]. lia.
  - rewrite (proj2 (Z.eqb_neq a 0)) by lia. cbn [negb andb]. rewrite Forall_singleton. apply page_apart_clear. lia.
Qed.

(** The code's own ranges say the same. *)
Lemma protected_clear bip b pn :
  info_ok b -> 0 <= bip -> bip mod 4096 + SIZEOF_BOOTINFO <= 4096 ->
  Forall (page_apart pn) (protected bip b) <-> Forall (clear_of pn) ((ks, kernel_end ke - ks) :: (bip - bip mod 4096, 4096) :: exclude_list b).
Proof using Hks Hal Hke.
  intros Hi Hb Hs. unfold protected. rewrite exclude_list_eq by done. destruct Hi as (Hf & Hk & Hd). cbv zeta.
  rewrite !Forall_cons, !Forall_app, !Forall_singleton, <-!page_apart_used by done.
  rewrite (page_apart_rounded pn bip SIZEOF_BOOTINFO (bip - bip mod 4096) 4096) by (unfold SIZEOF_BOOTINFO in *; div_lia).
  rewrite (page_apart_clear pn 0), (page_apart_clear pn 0xFEC00000) by lia.
  assert (page_apart pn (ks, ke - ks) <-> clear_of pn (ks, kernel_end ke - ks)) as ->.
  { rewrite kernel_end_eq. destruct (decide (ke = ks)) as [->|]; [|apply page_apart_rounded; div_lia].
    replace ((ks + 4095) / 4096 * 4096) with ks by div_lia. unfold page_apart, clear_of. cbn [fst snd]. split; [div_lia|lia]. }
  pose proof (screen_bytes_pos _ Hf). destruct Hf as (_ & _ & _ & H4 & H5 & H6). rewrite Z.gtb_ltb.
  assert (page_apart pn (fb_phys_addr (framebuffer b), screen_bytes (framebuffer b)) <->
    Forall (clear_of pn) (if 0 <? fb_phys_addr (framebuffer b) mod 4096 + screen_bytes (framebuffer b)
      then [(fb_phys_addr (framebuffer b) - fb_phys_addr (framebuffer b) mod 4096, fb_phys_addr (framebuffer b) mod 4096 + screen_bytes (framebuffer b))]
      else [])) as ->; [|rewrite Forall_nil; tauto].
  destruct (Z.ltb_spec 0 (fb_phys_addr (framebuffer b) mod 4096 + screen_bytes (framebuffer b))).
  - rewrite Forall_singleton. apply page_apart_rounded; div_lia.
  - rewrite Forall_nil. split; [done|]. intros _ x _. cbn [fst snd]. div_lia.
Qed.

Lemma init_memory_statics regions bip ksz excl :
  Forall region_ok regions -> NoDup (regions ≫= region_pages) ->
  forall pn, is_reserved_page (init_from_regions phys_boot regions bip ks ksz excl) pn = is_reserved_page (record_reservations phys_boot bip ks ksz) pn.
Proof. clear Hks Hal Hke.
  intros Hok Hnd pn. rewrite init_from_regions_eq by done.
  destruct (add_regions_inv excl regions (set_zone (record_reservations phys_boot bip ks ksz) (empty_zone regions)) []) as [Hst _];
    [apply empty_zone_inv|done|rewrite app_nil_r; by apply NoDup_filter|].
  transitivity (is_reserved_page (set_zone (record_reservations phys_boot bip ks ksz) (empty_zone regions)) pn); [|done].
  assert (forall x, is_reserved_page (finish_init x) pn = is_reserved_page x pn) as -> by done.
  apply is_reserved_page_statics. rewrite <-Hst. exact (remove_range_all_orders_statics _ _ _).
Qed.

Lemma in_reservation_false pn a n :
  0 <= a < 2 ^ 52 -> a mod 4096 = 0 -> 0 <= n -> n mod 4096 = 0 -> in_reservation pn (a / 4096) (n / 4096) = false <-> clear_of pn (a, n).
Proof. clear.
  intros Ha Hma Hn Hmn. unfold in_reservation, clear_of. cbn [fst snd]. rewrite (proj2 (Z.eqb_neq (a / 4096) U64_MAX)) by (unfold U64_MAX; div_lia).
  cbn [negb andb]. destruct (Z.eqb_spec (n / 4096) 0); cbn [negb andb]; [split; [div_lia|done]|].
  destruct (Z.leb_spec (a / 4096) pn), (Z.ltb_spec pn (a / 4096 + n / 4096)); cbn [andb]; split; try done; div_lia.
Qed.

Lemma reserved_apart bip pn : 0 <= bip < 2 ^ 52 ->
  is_reserved_page (record_reservations phys_boot bip ks (kernel_size ks ke)) pn = false <->
  pn <> 0 /\ pn <> 5 /\ clear_of pn (ks, kernel_end ke - ks) /\ clear_of pn (bip - bip mod 4096, 4096).
Proof using Hks Hal Hke.
  intros Hb. unfold record_reservations. rewrite kernel_size_eq. pose proof kernel_end_eq as E.
  assert (ks <= kernel_end ke < 2 ^ 53 /\ kernel_end ke mod 4096 = 0) as [HK HKm] by (rewrite E; div_lia). clear E.
  unfold saturating_add. rewrite Z.min_l, !align_down_page, align_up_page, Z.min_l by lia.
  replace (ks + (kernel_end ke - ks)) with (kernel_end ke) by lia. replace (ks - ks mod 4096) with ks by lia.
  replace (kernel_end ke + 4095 - (kernel_end ke + 4095) mod 4096) with (kernel_end ke) by div_lia.
  change ((SIZEOF_BOOTINFO + PAGE_SIZE - 1) / PAGE_SIZE) with (4096 / 4096). rewrite Z.gtb_ltb.
  rewrite <-(in_reservation_false pn (bip - bip mod 4096) 4096), <-(in_reservation_false pn ks (kernel_end ke - ks)) by div_lia.
  unfold is_reserved_page. change (BOOTINFO_HANDOFF_PAGE / PAGE_SIZE) with 5.
  destruct (Z.ltb_spec 0 (kernel_end ke - ks)); cbn [BOOTINFO_RESERVED_PN BOOTINFO_RESERVED_PAGES KERNEL_RESERVED_PN KERNEL_RESERVED_PAGES];
    rewrite !orb_false_iff, !Z.eqb_neq; [tauto|].
  replace (kernel_end ke - ks) with 0 by lia. change (0 / 4096) with 0.
  assert (in_reservation pn (ks / 4096) 0 = false) by (unfold in_reservation; cbn [negb Z.eqb]; by rewrite andb_false_r).
  assert (in_reservation pn (KERNEL_RESERVED_PN phys_boot) (KERNEL_RESERVED_PAGES phys_boot) = false) by done. tauto.
Qed.
End kernel.

Lemma desc_region_fits e : desc_ok e -> region_fits (desc_region e).
Proof. intros (H1 & H2 & H3 & H4). unfold region_fits, desc_region. cbn [fst snd]. rewrite Z.mod_mul by lia. lia. Qed.

Lemma desc_region_pages e : desc_ok e -> seqZ ((desc_region e).1 / 4096) ((desc_region e).2 / 4096) = desc_pages e.
Proof. intros _. unfold desc_region, desc_pages. cbn [fst snd]. by rewrite Z.div_mul. Qed.

Lemma region_fits_ok r : region_fits r -> region_ok r.
Proof. unfold region_fits, region_ok. lia. Qed.

Lemma bind_take_submseteq {A B} (f : A -> list B) n l : take n l ≫= f ⊆+ l ≫= f.
Proof. rewrite <-(take_drop n l) at 2. rewrite bind_app. apply submseteq_inserts_r. done. Qed.

Lemma usable_ok n es : Forall desc_ok es -> Forall desc_ok (take n (filter usable_desc es)).
Proof. intros H. apply Forall_take. rewrite Forall_forall in *. intros e [_ He]%list_elem_of_filter. auto. Qed.

(** The regions of the kernel are the pages of the map, less the kernel. *)
Lemma memory_layout ks ke es b :
  0 <= ks -> ks mod 4096 = 0 -> ks <= ke < 2 ^ 52 -> Forall desc_ok es ->
  let layout := build_memory_layout ks ke (collect_usable_memory_regions (Some es) b) in
  Forall region_fits layout /\
  (layout ≫= region_pages) = apart_pages ks ke (take MAX_MEMORY_REGIONS (filter usable_desc es) ≫= desc_pages).
Proof.
  intros Hks Hal Hke Hes. cbv zeta. unfold build_memory_layout, collect_usable_memory_regions.
  destruct (collect_entries_spec es (replicate MAX_MEMORY_REGIONS (0, 0)) 0 Hes) as (En & Et & El); [by rewrite length_replicate|lia|].
  destruct (collect_entries es _ 0) as [rs n]. cbn [fst snd memory_region_count memory_regions] in *. rewrite Nat.sub_0_r in *.
  set (u := take MAX_MEMORY_REGIONS (filter usable_desc es)) in *.
  assert (Forall desc_ok u) as Hu by (by apply usable_ok).
  assert (length u <= MAX_MEMORY_REGIONS)%nat as Hlen by (unfold u; rewrite length_take; lia).
  rewrite take_0, Nat.add_0_l, length_fmap in *. cbn [app] in Et. rewrite En, Nat.min_l, Et by lia.
  destruct (layout_pages ks ke Hks Hal Hke (desc_region <$> u) []) as [H1 H2];
    [rewrite length_fmap; unfold MAX_MEMORY_REGIONS in Hlen; cbn [length]; lia
    |apply Forall_fmap; eapply Forall_impl; [exact Hu|apply desc_region_fits]|constructor|].
  split; [exact H1|]. rewrite H2. cbn [app mbind list_bind]. f_equal. clear -Hu.
  induction u as [|e u IH]; [done|]. apply Forall_cons in Hu as [He Hu]. cbn [fmap list_fmap mbind list_bind].
  rewrite desc_region_pages by done. f_equal. by apply IH.
Qed.

Lemma collect_keeps m b :
  exclude_list (collect_usable_memory_regions m b) = exclude_list b /\
  forall ks ke bip, protected ks ke bip (collect_usable_memory_regions m b) = protected ks ke bip b.
Proof. unfold collect_usable_memory_regions. destruct (match m with Some es => _ | None => _ end). done. Qed.

(** C38: The kernel starts with exactly the memory that is free.  Let the firmware's map list disjoint ranges of whole pages, and let
    the kernel lie on a page boundary and the boot information inside one page.  Then after the first phase the allocator is well formed, every page it holds can be
    released again, and a page is free exactly if it belongs to one of the first 128 ranges of conventional memory and has no
    byte in common with the kernel, the boot information, the first megabyte, the bytes of the screen, the kernel image and the
    drivers image the boot loader left in memory, or the 4 MiB at FEC00000h with the registers of the interrupt controllers. *)
Theorem kernel_memory_handover ks ke es b bip :
  0 <= ks -> ks mod 4096 = 0 -> ks <= ke < 2 ^ 52 -> 0 <= bip < 2 ^ 52 -> bip mod 4096 + SIZEOF_BOOTINFO <= 4096 -> info_ok b ->
  Forall desc_ok es -> NoDup (filter usable_desc es ≫= desc_pages) ->
  let info := collect_usable_memory_regions (Some es) b in
  let s := init_memory ks ke bip info in
  exists P, phys_inv s P /\ Forall (freeable s) P /\
    forall pn, pn ∈ P <->
      (exists e, e ∈ take MAX_MEMORY_REGIONS (filter usable_desc es) /\ pn ∈ desc_pages e) /\ Forall (page_apart pn) (protected ks ke bip info).
Proof.
  intros Hks Hal Hke Hb Hone Hi Hes Hnd. cbv zeta. unfold init_memory. destruct (collect_keeps (Some es) b) as [-> Hpr]. rewrite Hpr.
  destruct (memory_layout ks ke es b Hks Hal Hke Hes) as [Hfit Hpages].
  set (regions := build_memory_layout ks ke _) in *. set (u := take _ _) in *. pose proof (exclude_list_ok b Hi) as Hex.
  assert (Forall region_ok regions) as Hok by (eapply Forall_impl; [exact Hfit|apply region_fits_ok]).
  assert (NoDup (regions ≫= region_pages)) as Hnd'.
  { rewrite Hpages. apply NoDup_filter. eapply submseteq_NoDup; [apply bind_take_submseteq|exact Hnd]. }
  pose proof (init_from_regions_inv phys_boot regions bip ks (kernel_size ks ke) (exclude_list b) eq_refl Hok ltac:(lia) ltac:(lia) Hnd') as (Hinv & _).
  pose proof (init_freeable phys_boot regions bip ks (kernel_size ks ke) (exclude_list b) eq_refl Hok ltac:(lia) ltac:(lia) Hnd') as Hfree.
  eexists. split; [exact Hinv|]. split; [exact Hfree|]. intros pn. unfold free_part. rewrite list_elem_of_filter, Hpages.
  rewrite (protected_clear ks ke Hks Hal Hke bip b pn Hi) by (done || lia).
  unfold apart_pages. rewrite list_elem_of_filter, list_elem_of_bind. unfold page_free.
  rewrite init_memory_statics by done. rewrite andb_true_iff, !negb_true_iff, (reserved_apart ks ke Hks Hal Hke bip pn Hb).
  assert (Forall desc_ok u) as Hu by (by apply usable_ok). rewrite !Forall_cons.
  assert (forall e, e ∈ u -> pn ∈ desc_pages e -> is_excluded (pn * PAGE_SIZE) (exclude_list b) = false <-> Forall (clear_of pn) (exclude_list b)) as He.
  { intros e He Hpn%elem_of_seqZ. rewrite Forall_forall in Hu. destruct (Hu e He) as (? & ? & ? & ?). apply is_excluded_apart; [div_lia..|done]. }
  split.
  - intros [[(_ & _ & Hk & Hbi) Hx] [_ (e & Hpn & Hin)]]. split; [by exists e|]. split; [done|]. split; [done|]. by apply (He e).
  - intros [(e & Hin & Hpn) (Hk & Hbi & Hx)]. assert (clear_of pn (0, 0x100000)) as H1 by (by apply Forall_cons in Hx as [? _]).
    apply (He e Hin Hpn) in Hx. unfold clear_of in H1. cbn [fst snd] in H1.
    split; [split; [|done]; split_and!; [lia|lia|done|done]|]. split; [|by exists e].
    unfold outside, PAGE_SIZE. unfold clear_of in Hk. cbn [fst snd] in Hk. div_lia.
Qed.

(** Three ranges, one of them with the kernel in the middle. *)
Definition demo_map : list MemDesc :=
  [mkMemDesc CONVENTIONAL 0 160; mkMemDesc CONVENTIONAL 0x100000 64; mkMemDesc (OtherMemory 4) 0x140000 8; mkMemDesc CONVENTIONAL 0x148000 8].
Definition demo_boot_info : BootInfo :=
  mkBootInfo [] 0 (mkFbInfo 0x80000000 1024 768 1024 4 false) (0x13F000, 0x800) (0x14A123, 100) 0 0.

Lemma kernel_memory_handover_witness :
  let s := init_memory 0x100000 0x120001 0x130010 (collect_usable_memory_regions (Some demo_map) demo_boot_info) in
  exists P, phys_inv s P /\ 0x121 ∈ P /\ 0x120 ∉ P /\ 0x130 ∉ P /\ 0x149 ∈ P /\ 0x14A ∉ P.
Proof.
  cbv zeta. destruct (kernel_memory_handover 0x100000 0x120001 demo_map demo_boot_info 0x130010) as (P & Hinv & _ & HP).
  - lia.
  - done.
  - lia.
  - lia.
  - done.
  - unfold info_ok, image_ok, screen_ok, screen_bytes, region_ok; cbn; lia.
  - repeat constructor; cbn; lia.
  - apply (bool_decide_unpack _). by vm_compute.
  - exists P. split; [exact Hinv|].
    assert (forall pn, pn ∈ P <-> bool_decide (pn ∈ take MAX_MEMORY_REGIONS (filter usable_desc demo_map) ≫= desc_pages) &&
      forallb (apartb pn) (protected 0x100000 0x120001 0x130010 (collect_usable_memory_regions (Some demo_map) demo_boot_info)) = true) as H.
    { intros pn. rewrite HP, andb_true_iff, bool_decide_eq_true, list_elem_of_bind, forallb_forall, Forall_forall.
      setoid_rewrite apartb_spec. setoid_rewrite <-list_elem_of_In. naive_solver. }
    split_and!; rewrite H; by vm_compute.
Defined.

(** Only the page of its first byte is reserved for the boot information: where the rest lies in the next page, that page is handed
    out if the map lists it. *)
Fixpoint handed_out (n : nat) (s : PhysState) : list (option Z) :=
  match n with O => [] | S n => let '(r, s) := alloc_page s in r :: handed_out n s end.
Theorem straddling_boot_info :
  let s := init_memory 0x100000 0x120001 0x130C00 (collect_usable_memory_regions (Some demo_map) demo_boot_info) in
  is_reserved_page s 0x130 = true /\ ~ page_apart 0x131 (0x130C00, SIZEOF_BOOTINFO) /\
  last (handed_out 7 s) = Some (Some 0x131000).
Proof.
  split_and!; [by vm_compute| |by vm_compute]. intros H. apply (H 0x131000); unfold SIZEOF_BOOTINFO; cbn; lia.
Qed.

(** ** Screen mode and ACPI pointer *)

Definition pixels (m : Z * Z) : Z := m.1 * m.2.

Lemma most_pixels_spec modes :
  Forall (fun m => 0 < m.1 < 2 ^ 32 /\ 0 < m.2 < 2 ^ 32) modes -> modes <> [] ->
  exists m, most_pixels modes = Some m /\ m ∈ modes /\ Forall (fun m' => pixels m' <= pixels m) modes.
Proof.
  intros Hm. unfold most_pixels. set (f := fun '(best, best_pixels) '(w, h) => _).
  assert (forall l, Forall (fun m => 0 < m.1 < 2 ^ 32 /\ 0 < m.2 < 2 ^ 32) l -> l = [] /\ fold_left f l (None, 0) = (None, 0) \/
    exists m, fold_left f l (None, 0) = (Some m, pixels m) /\ m ∈ l /\ Forall (fun m' => pixels m' <= pixels m) l) as H.
  { induction l as [|[w h] l IH] using rev_ind; intros Hl; [by left|]. right. apply Forall_app in Hl as [Hl [Hw Hh]%Forall_singleton]. cbn [fst snd] in *.
    assert (w *u64 h = pixels (w, h)) as Ew by (apply wrap_small; unfold pixels; cbn [fst snd]; nia).
    assert (0 < pixels (w, h)) by (unfold pixels; cbn [fst snd]; nia).
    rewrite fold_left_app. destruct (IH Hl) as [[-> ->]|(m & -> & Hin & Hmax)]; cbn [fold_left]; unfold f; rewrite Ew, Z.gtb_ltb.
    - rewrite (proj2 (Z.ltb_lt _ _)) by done. exists (w, h). split; [done|]. split; [apply list_elem_of_here|]. by apply Forall_singleton.
    - destruct (Z.ltb_spec (pixels m) (pixels (w, h))).
      + exists (w, h). split; [done|]. rewrite elem_of_app, list_elem_of_singleton, Forall_app, Forall_singleton. split; [by right|].
        split; [|lia]. eapply Forall_impl; [exact Hmax|]. intros m' ?. simpl in *. lia.
      + exists m. split; [done|]. rewrite elem_of_app, Forall_app, Forall_singleton. split; [by left|]. split; [done|lia]. }
  intros Hne. destruct (H modes Hm) as [[? _]|(m & -> & ? & ?)]; [done|]. by exists m.
Qed.

(** A screen with modes gets one of them: 1024x768 if it has it, otherwise one with as many pixels as any. *)
Theorem best_mode_correct modes :
  Forall (fun m => 0 < m.1 < 2 ^ 32 /\ 0 < m.2 < 2 ^ 32) modes -> modes <> [] ->
  exists m, best_mode modes = Some m /\ m ∈ modes /\ (m = (1024, 768) \/ (1024, 768) ∉ modes /\ Forall (fun m' => pixels m' <= pixels m) modes).
Proof.
  intros Hm Hne. unfold best_mode. destruct (find _ modes) as [[w h]|] eqn:E.
  - apply find_some in E as [Hin [Hw%Z.eqb_eq Hh%Z.eqb_eq]%andb_true_iff]. subst. exists (1024, 768).
    split; [done|]. split; [by apply list_elem_of_In|by left].
  - destruct (most_pixels_spec modes Hm Hne) as (m & -> & Hin & Hmax). exists m. split; [done|]. split; [done|]. right. split; [|done].
    intros Hx%list_elem_of_In. by apply (find_none _ _ E) in Hx.
Qed.

(** The first of the ACPI entries is taken: where the firmware lists the version 1 pointer first, it is preferred to the newer one. *)
Theorem older_rsdp_preferred a b rest : find_rsdp_entry ((ACPI_GUID, a) :: (ACPI2_GUID, b) :: rest) = a.
Proof. done. Qed.

(** Without a memory map the kernel starts with no memory at all. *)
Theorem no_map_no_memory ks ke b : build_memory_layout ks ke (collect_usable_memory_regions None b) = [].
Proof. done. Qed.
