(* ===== verification/IdeDrv.v ===== *)
(** The IDE driver (src/drivers/src/bin/ide.rs).

    The drive is hardware, a parameter: a class of port operations, with the documented
    behaviour of a drive that reads by programmed input as laws.  Physical memory is seen through the
    kernel's direct map.  DMA memory comes from the kernel, a parameter too. *)
From stdpp Require Import base tactics numbers list.
From Stdlib Require Import ZArith Lia.
From S2P Require Import Prelude.

Local Open Scope Z_scope.
Local Open Scope word_scope.

(** ** The drive *)

Class AtaDrive (D : Type) := {
  outb : D -> Z -> Z -> D;
  inb : D -> Z -> Z * D;
  inw : D -> Z -> Z * D;
}.

(** The kernel's DMA memory: the address, or the error value.  Memory is an argument and a result: the kernel clears the pages it
    hands out. *)
Class DmaHeap (A : Type) := {
  dma_alloc : (Z -> Z) -> A -> Z -> Z * (Z -> Z) * A;
  dma_free : (Z -> Z) -> A -> Z -> Z -> (Z -> Z) * A;
}.

Record World (D A : Type) := mkWorld { pm : Z -> Z; dev : D; heap : A }.
Arguments mkWorld {_ _}. Arguments pm {_ _}. Arguments dev {_ _}. Arguments heap {_ _}.

(** A loop of a fixed number of rounds with an early exit. *)
Fixpoint rounds {S R} (n : positive) (f : S -> R + S) (s : S) : R + S :=
  match n with
  | xH => f s
  | xO n => match rounds n f s with inl r => inl r | inr s => rounds n f s end
  | xI n =>
    match f s with
    | inl r => inl r
    | inr s => match rounds n f s with inl r => inl r | inr s => rounds n f s end
    end
  end.

(** ** The driver *)

Definition IDE_DATA : Z := 0x1F0.
Definition IDE_SEC_COUNT : Z := 0x1F2.
Definition IDE_LBA_LO : Z := 0x1F3.
Definition IDE_LBA_MI : Z := 0x1F4.
Definition IDE_LBA_HI : Z := 0x1F5.
Definition IDE_DRIVE : Z := 0x1F6.
Definition IDE_CMD : Z := 0x1F7.
Definition IDE_STATUS : Z := 0x1F7.
Definition ATA_READ : Z := 0x20.
Definition STS_BSY : Z := 0x80.
Definition STS_DRQ : Z := 0x08.
Definition STS_ERR : Z := 0x01.

(** Two bytes at an address, low byte first. *)
Definition store16 (m : Z -> Z) (p v : Z) : Z -> Z :=
  fun a => if a =? p then Z.land v 0xFF else if a =? p + 1 then Z.shiftr v 8 else m a.

Section ide.
Context {D A : Type} `{!AtaDrive D, !DmaHeap A}.

(** One status read: the verdict, or busy. *)
Definition poll_once (d : D) : (bool * D) + D :=
  let '(sts, d) := inb d IDE_STATUS in
  if Z.land sts STS_BSY =? 0 then
    if negb (Z.land sts STS_ERR =? 0) then inl (false, d)
    else if negb (Z.land sts STS_DRQ =? 0) then inl (true, d)
    else inl (false, d)
  else inr d.

Definition ide_poll (d : D) : bool * D :=
  match rounds 10000000 poll_once d with inl r => r | inr d => (false, d) end.

(** The words of one sector. *)
Fixpoint read_words (n : nat) (d : D) (m : Z -> Z) (buf : Z) : D * (Z -> Z) :=
  match n with
  | O => (d, m)
  | S n => let '(v, d) := inw d IDE_DATA in read_words n d (store16 m buf v) (buf + 2)
  end.

Fixpoint read_each (count : nat) (d : D) (m : Z -> Z) (buf : Z) : bool * D * (Z -> Z) :=
  match count with
  | O => (true, d, m)
  | S count =>
    match ide_poll d with
    | (false, d) => (false, d, m)
    | (true, d) => let '(d, m) := read_words 256 d m buf in read_each count d m (buf + 512)
    end
  end.

Definition ide_read_sectors (wd : World D A) (sector count buf_phys : Z) : bool * World D A :=
  if sector >? 0x0FFFFFFF then (false, wd)
  else
    let d := outb (dev wd) IDE_DRIVE (Z.lor 0xE0 (Z.land (wrap 8 (Z.shiftr sector 24)) 0x0F)) in
    let d := outb d IDE_SEC_COUNT (wrap 8 count) in
    let d := outb d IDE_LBA_LO (wrap 8 sector) in
    let d := outb d IDE_LBA_MI (wrap 8 (Z.shiftr sector 8)) in
    let d := outb d IDE_LBA_HI (wrap 8 (Z.shiftr sector 16)) in
    let d := outb d IDE_CMD ATA_READ in
    let '(ok, d, m) := read_each (Z.to_nat count) d (pm wd) buf_phys in
    (ok, mkWorld m d (heap wd)).

(** [sys_dma_alloc] of the driver: whole pages. *)
Definition ide_dma_alloc (wd : World D A) (size : Z) : Z * World D A :=
  let '(p, m, a) := dma_alloc (pm wd) (heap wd) (Z.land (size +u64 0xFFF) (not64 0xFFF)) in (p, mkWorld m (dev wd) a).

(** One message: the response and the world after it. *)
Definition ide_serve (wd : World D A) (cmd arg0 arg1 arg2 : Z) : Z * World D A :=
  if cmd =? 10 then
    let sector := arg0 in
    let count := wrap 16 arg1 in
    let '(dma_phys, wd) := if negb (arg2 =? 0) then (arg2, wd) else ide_dma_alloc wd (Z.land (count *u64 512 +u64 0xFFF) (not64 0xFFF)) in
    if (dma_phys =? 0) || (dma_phys =? U64_MAX) then (U64_MAX, wd)
    else
      match ide_read_sectors wd sector count dma_phys with
      | (true, wd) => (dma_phys, wd)
      | (false, wd) => (U64_MAX, wd)
      end
  else if cmd =? 20 then
    let '(phys, wd) := ide_dma_alloc wd (Z.land (arg0 +u64 0xFFF) (not64 0xFFF)) in
    if (phys =? 0) || (phys =? U64_MAX) then (U64_MAX, wd) else (phys, wd)
  else (U64_MAX, wd).
End ide.
