(* ===== verification/IdeThms.v ===== *)
(** The IDE driver reads the sectors it is asked for.  Proved against the documented behaviour of a drive, the class
    [AtaLaws]; [Sim] is a drive of that kind. *)
From stdpp Require Import base tactics numbers list.
From Stdlib Require Import ZArith Lia.
From S2P Require Import Prelude IdeDrv.

Local Open Scope Z_scope.
Local Open Scope word_scope.
Set Default Proof Using "Type".

(** ** Loops with an early exit *)

Fixpoint chain {S R} (f : S -> R + S) (k : nat) (s s' : S) : Prop :=
  match k with
  | O => s = s'
  | S k => exists s1, f s = inr s1 /\ chain f k s1 s'
  end.

Lemma chain_split {S R} (f : S -> R + S) a b : forall s s', chain f (a + b) s s' -> exists m, chain f a s m /\ chain f b m s'.
Proof.
  induction a as [|a IH]; simpl; intros s s' H; [by exists s|].
  destruct H as (s1 & E & H). destruct (IH _ _ H) as (m & ? & ?). exists m. split; [by exists s1|done].
Qed.

(** The loop runs on while the body asks for it, and stops with its first verdict. *)
Lemma rounds_chain {S R} (f : S -> R + S) n : forall s s' k r, chain f k s s' ->
  ((k < Pos.to_nat n)%nat -> f s' = inl r -> rounds n f s = inl r) /\
  (k = Pos.to_nat n -> rounds n f s = inr s').
Proof.
  assert (forall n, (forall s s' k r, chain f k s s' ->
      ((k < Pos.to_nat n)%nat -> f s' = inl r -> rounds n f s = inl r) /\ (k = Pos.to_nat n -> rounds n f s = inr s')) ->
    forall s s' k r, chain f k s s' ->
      ((k < 2 * Pos.to_nat n)%nat -> f s' = inl r -> match rounds n f s with inl r => inl r | inr s => rounds n f s end = inl r) /\
      (k = (2 * Pos.to_nat n)%nat -> match rounds n f s with inl r => inl r | inr s => rounds n f s end = inr s')) as Htwice.
  { intros p IH s s' k r Hc. destruct (decide (k < Pos.to_nat p)%nat) as [Hlt|Hge].
    - split; [|lia]. intros _ Hf. by rewrite (proj1 (IH s s' k r Hc) Hlt Hf).
    - replace k with (Pos.to_nat p + (k - Pos.to_nat p))%nat in Hc by lia.
      destruct (chain_split _ _ _ _ _ Hc) as (m & H1 & H2).
      rewrite (proj2 (IH s m _ r H1) eq_refl).
      destruct (IH m s' _ r H2) as [I1 I2]. split; intros; [apply I1|apply I2]; (done || lia). }
  induction n as [n IH|n IH|]; intros s s' k r Hc; simpl.
  - destruct k as [|k]; simpl in Hc.
    + subst s'. split; [intros _ ->; done|lia].
    + destruct Hc as (s1 & -> & Hc). destruct (Htwice n IH s1 s' k r Hc) as [I1 I2].
      split; intros; [apply I1|apply I2]; (done || lia).
  - destruct (Htwice n IH s s' k r Hc) as [I1 I2]. split; intros; [apply I1|apply I2]; (done || lia).
  - destruct k as [|[|k]]; simpl in Hc.
    + subst. split; [by intros|lia].
    + destruct Hc as (s1 & E & <-). split; [lia|by rewrite E].
    + split; lia.
Qed.

(** ** Drives *)

(** What a drive is doing: a read of [c] sectors from [s] on that will be ready after [k] status reads, or whose word [i]
    of sector [s] comes next. *)
Inductive Phase := Idle | Waiting (s c : Z) (k : nat) | Sending (s c i : Z).

Definition lba_of (r : Z -> Z) : Z :=
  r IDE_LBA_LO + r IDE_LBA_MI * 2 ^ 8 + r IDE_LBA_HI * 2 ^ 16 + (r IDE_DRIVE mod 16) * 2 ^ 24.
Definition count_of (r : Z -> Z) : Z := if r IDE_SEC_COUNT =? 0 then 256 else r IDE_SEC_COUNT.

(** A drive answers within the patience of the driver.  Its registers are the host's only while it is idle, with BSY and DRQ clear:
    nothing is promised about a write at another time. *)
Definition patience : Z := 10000000.

Class AtaLaws (D : Type) `{!AtaDrive D} := {
  phase : D -> Phase;
  regs : D -> Z -> Z;
  platter : Z -> Z;
  sectors : Z;
  platter_byte a : 0 <= platter a < 256;
  outb_reg d p v : phase d = Idle -> IDE_SEC_COUNT <= p <= IDE_DRIVE ->
    phase (outb d p v) = Idle /\ forall q, regs (outb d p v) q = if q =? p then v else regs d q;
  outb_read d : phase d = Idle -> lba_of (regs d) + count_of (regs d) <= sectors ->
    exists k, Z.of_nat k < patience /\ phase (outb d IDE_CMD ATA_READ) = Waiting (lba_of (regs d)) (count_of (regs d)) k;
  inb_busy d s c k : phase d = Waiting s c (S k) ->
    exists sts d', inb d IDE_STATUS = (sts, d') /\ Z.land sts STS_BSY <> 0 /\ phase d' = Waiting s c k;
  inb_ready d s c : phase d = Waiting s c 0 ->
    exists sts d', inb d IDE_STATUS = (sts, d') /\ Z.land sts STS_BSY = 0 /\ Z.land sts STS_ERR = 0 /\ Z.land sts STS_DRQ <> 0 /\
      phase d' = Sending s c 0;
  inw_word d s c i : phase d = Sending s c i -> 0 <= i < 256 ->
    exists d', inw d IDE_DATA = (platter (512 * s + 2 * i) + 256 * platter (512 * s + 2 * i + 1), d') /\
      (i < 255 -> phase d' = Sending s c (i + 1)) /\
      (i = 255 -> c <> 1 -> exists k, Z.of_nat k < patience /\ phase d' = Waiting (s + 1) (c - 1) k) /\
      (i = 255 -> c = 1 -> phase d' = Idle);
}.

Section ide.
Context {D A : Type} `{!AtaDrive D, !DmaHeap A, !AtaLaws D}.

Lemma poll_chain s c k : forall d, phase d = Waiting s c k ->
  exists d1 d2, chain poll_once k d d1 /\ poll_once d1 = inl (true, d2) /\ phase d2 = Sending s c 0.
Proof.
  induction k as [|k IH]; intros d Hd.
  - destruct (inb_ready d s c Hd) as (sts & d2 & E & Hb & He & Hq & Hp). exists d, d2. split_and!; [done| |done].
    unfold poll_once. rewrite E, Hb, He. simpl. by rewrite (proj2 (Z.eqb_neq _ _) Hq).
  - destruct (inb_busy d s c k Hd) as (sts & d' & E & Hb & Hp). destruct (IH d' Hp) as (d1 & d2 & Hc & ? & ?).
    exists d1, d2. split_and!; [|done..]. exists d'. split; [|done].
    unfold poll_once. rewrite E. by rewrite (proj2 (Z.eqb_neq _ _) Hb).
Qed.

Lemma ide_poll_ready d s c k :
  phase d = Waiting s c k -> Z.of_nat k < patience -> exists d', ide_poll d = (true, d') /\ phase d' = Sending s c 0.
Proof.
  intros Hd Hk. destruct (poll_chain s c k d Hd) as (d1 & d2 & Hc & Hp & Hs). exists d2. split; [|done].
  unfold ide_poll. rewrite (proj1 (rounds_chain poll_once _ _ _ _ (true, d2) Hc)); [done| |done].
  unfold patience in Hk. lia.
Qed.

(** Memory with the bytes from disk offset [from] at [buf]. *)
Definition loaded (m : Z -> Z) (buf n from : Z) : Z -> Z :=
  fun a => if (buf <=? a) && (a <? buf + n) then platter (from + (a - buf)) else m a.

Lemma store16_word m p x y a :
  0 <= x < 256 -> 0 <= y < 256 ->
  store16 m p (x + 256 * y) a = if a =? p then x else if a =? p + 1 then y else m a.
Proof.
  intros Hx Hy. unfold store16. change 255 with (Z.ones 8). rewrite Z.land_ones, Z.shiftr_div_pow2 by lia.
  replace ((x + 256 * y) mod 2 ^ 8) with x by div_lia. by replace ((x + 256 * y) / 2 ^ 8) with y by div_lia.
Qed.

Lemma read_words_ok s c n : forall d m buf i,
  phase d = Sending s c i -> i + Z.of_nat n = 256 -> 0 <= i -> (n <> 0)%nat ->
  exists d' m', read_words n d m buf = (d', m') /\
    (forall a, m' a = loaded m buf (2 * Z.of_nat n) (512 * s + 2 * i) a) /\
    (c <> 1 -> exists k, Z.of_nat k < patience /\ phase d' = Waiting (s + 1) (c - 1) k) /\ (c = 1 -> phase d' = Idle).
Proof.
  induction n as [|n IH]; intros d m buf i Hd Hi Hi0 Hn; [done|]. cbn [read_words].
  destruct (inw_word d s c i Hd) as (d1 & -> & Hmore & Hlast & Hend); [lia|].
  pose proof (platter_byte (512 * s + 2 * i)). pose proof (platter_byte (512 * s + 2 * i + 1)).
  destruct n as [|n].
  - exists d1. eexists. split; [done|]. split; [|split; [intros; apply Hlast; [lia|done]|intros; apply Hend; [lia|done]]].
    intros a. rewrite store16_word by done. unfold loaded.
    destruct (Z.eqb_spec a buf) as [->|]; [|destruct (Z.eqb_spec a (buf + 1)) as [->|]].
    + rewrite (proj2 (Z.leb_le _ _)), (proj2 (Z.ltb_lt _ _)) by lia. simpl. f_equal. lia.
    + rewrite (proj2 (Z.leb_le _ _)), (proj2 (Z.ltb_lt _ _)) by lia. simpl. f_equal. lia.
    + destruct (Z.leb_spec buf a), (Z.ltb_spec a (buf + 2 * Z.of_nat 1)); simpl; (done || lia).
  - destruct (IH d1 (store16 m buf (platter (512 * s + 2 * i) + 256 * platter (512 * s + 2 * i + 1))) (buf + 2) (i + 1))
      as (d' & m' & -> & Hm & Hk); [apply Hmore; lia|lia..|].
    exists d', m'. split; [done|]. split; [|exact Hk]. intros a. rewrite Hm. unfold loaded.
    rewrite store16_word by done.
    destruct (Z.leb_spec (buf + 2) a), (Z.ltb_spec a (buf + 2 + 2 * Z.of_nat (S n))),
      (Z.leb_spec buf a), (Z.ltb_spec a (buf + 2 * Z.of_nat (S (S n)))); simpl; try lia.
    + f_equal. lia.
    + rewrite (proj2 (Z.eqb_neq a buf)), (proj2 (Z.eqb_neq a (buf + 1))) by lia. done.
    + destruct (Z.eqb_spec a buf) as [->|]; [f_equal; lia|]. destruct (Z.eqb_spec a (buf + 1)) as [->|]; [f_equal; lia|lia].
    + rewrite (proj2 (Z.eqb_neq a buf)), (proj2 (Z.eqb_neq a (buf + 1))) by lia. done.
Qed.

Lemma read_each_ok c : forall d m buf s k,
  phase d = Waiting s (Z.of_nat c) k -> Z.of_nat k < patience -> (c <> 0)%nat ->
  exists d' m', read_each c d m buf = (true, d', m') /\ phase d' = Idle /\
    forall a, m' a = loaded m buf (512 * Z.of_nat c) (512 * s) a.
Proof.
  induction c as [|c IH]; intros d m buf s k Hd Hk Hc; cbn [read_each].
  - done.
  - destruct (ide_poll_ready d _ _ _ Hd Hk) as (d1 & -> & Hs).
    destruct (read_words_ok s (Z.of_nat (S c)) 256 d1 m buf 0 Hs) as (d2 & m2 & -> & Hm & Hnext & Hend); [done..|].
    destruct c as [|c].
    + exists d2, m2. split; [done|]. split; [by apply Hend|]. intros a. rewrite Hm. unfold loaded. by rewrite Z.add_0_r.
    + destruct Hnext as (k2 & Hk2 & Hp2); [lia|].
      destruct (IH d2 m2 (buf + 512) (s + 1) k2) as (d' & m' & -> & Hi' & Hm'); [by rewrite Hp2; f_equal; lia|done|done|].
      exists d', m'. split; [done|]. split; [done|]. intros a. rewrite Hm'. unfold loaded. rewrite Hm. unfold loaded.
      destruct (Z.leb_spec (buf + 512) a), (Z.ltb_spec a (buf + 512 + 512 * Z.of_nat (S c))),
        (Z.leb_spec buf a), (Z.ltb_spec a (buf + 512 * Z.of_nat (S (S c)))), (Z.ltb_spec a (buf + 2 * Z.of_nat 256));
        simpl; try lia; try done; f_equal; lia.
Qed.

(** The registers the driver programs name the sectors. *)
Lemma drive_register s : 0 <= s < 2 ^ 28 -> Z.lor 0xE0 (Z.land (wrap 8 (Z.shiftr s 24)) 0x0F) mod 16 = s / 2 ^ 24.
Proof.
  intros Hs. change 16 with (2 ^ 4). rewrite <-Z.land_ones, Z.land_lor_distr_l by lia.
  change (Z.land 0xE0 (Z.ones 4)) with 0. rewrite Z.lor_0_l. change 0x0F with (Z.ones 4). rewrite <-Z.land_assoc, Z.land_diag.
  rewrite Z.land_ones, Z.shiftr_div_pow2 by lia. unfold wrap. div_lia.
Qed.

Lemma ide_sectors_read (wd : World D A) s c buf :
  phase (dev wd) = Idle -> 0 <= s -> s + c <= 2 ^ 28 -> s + c <= sectors -> 0 < c <= 256 ->
  exists d m, ide_read_sectors wd s c buf = (true, mkWorld m d (heap wd)) /\ phase d = Idle /\
    forall a, m a = loaded (pm wd) buf (512 * c) (512 * s) a.
Proof.
  intros Hidle Hs0 Hs28 Hcap Hc. unfold ide_read_sectors. destruct (Z.gtb_spec s 0x0FFFFFFF); [lia|].
  destruct (outb_reg (dev wd) IDE_DRIVE (Z.lor 0xE0 (Z.land (wrap 8 (Z.shiftr s 24)) 0x0F)) Hidle) as [I1 R1]; [done|]. set (d1 := outb _ IDE_DRIVE _) in *.
  destruct (outb_reg d1 IDE_SEC_COUNT (wrap 8 c) I1) as [I2 R2]; [done|]. set (d2 := outb d1 _ _) in *.
  destruct (outb_reg d2 IDE_LBA_LO (wrap 8 s) I2) as [I3 R3]; [done|]. set (d3 := outb d2 _ _) in *.
  destruct (outb_reg d3 IDE_LBA_MI (wrap 8 (Z.shiftr s 8)) I3) as [I4 R4]; [done|]. set (d4 := outb d3 _ _) in *.
  destruct (outb_reg d4 IDE_LBA_HI (wrap 8 (Z.shiftr s 16)) I4) as [I5 R5]; [done|]. set (d5 := outb d4 _ _) in *.
  assert (lba_of (regs d5) = s /\ count_of (regs d5) = c) as [El Ec].
  { unfold lba_of, count_of. rewrite !R5, !R4, !R3, !R2, !R1. cbn [Z.eqb Pos.eqb IDE_LBA_LO IDE_LBA_MI IDE_LBA_HI IDE_DRIVE IDE_SEC_COUNT].
    rewrite drive_register by lia. rewrite !Z.shiftr_div_pow2 by lia. unfold wrap. split; [div_lia|].
    destruct (Z.eqb_spec (c mod 2 ^ 8) 0); div_lia. }
  destruct (outb_read d5 I5) as (k & Hk & Hp); [lia|]. rewrite El, Ec in Hp.
  destruct (read_each_ok (Z.to_nat c) _ (pm wd) buf s k ltac:(rewrite Hp; f_equal; lia) Hk ltac:(lia)) as (d' & m' & -> & Hi & Hm).
  exists d', m'. split; [done|]. split; [done|]. intros a. rewrite Hm. by rewrite Z2Nat.id by lia.
Qed.


(** Out of the 28-bit range, or a request that is not known: the answer is the error value and memory stays. *)
Theorem ide_refuses (wd : World D A) cmd s arg1 buf :
  (cmd = 10 /\ buf <> 0 /\ 2 ^ 28 <= s) \/ (cmd <> 10 /\ cmd <> 20) -> ide_serve wd cmd s arg1 buf = (U64_MAX, wd).
Proof.
  intros [(-> & Hb & Hs)|[H1 H2]]; unfold ide_serve.
  - rewrite (proj2 (Z.eqb_neq buf 0)) by done. simpl (10 =? 10). cbn [negb].
    rewrite (proj2 (Z.eqb_neq buf 0)) by done. cbn [orb]. destruct (buf =? U64_MAX); [done|].
    unfold ide_read_sectors. by destruct (Z.gtb_spec s 0x0FFFFFFF); [|lia].
  - by rewrite (proj2 (Z.eqb_neq cmd 10)), (proj2 (Z.eqb_neq cmd 20)) by done.
Qed.
End ide.

(** ** A drive *)

Module Sim.
(** Ports as last written and phase; every sector is ready at the third status read.  The contents are [img]. *)
Record Drive (img : Z -> Z) := mkDrive { ports : Z -> Z; doing : Phase }.
Arguments mkDrive {_}. Arguments ports {_}. Arguments doing {_}.

Section sim.
Context {img : Z -> Z}.
Definition bytes (a : Z) : Z := img a mod 256.
Definition capacity : Z := 4096.

Definition sim_outb (d : Drive img) (p v : Z) : Drive img :=
  if p =? IDE_CMD then
    mkDrive (ports d) (if (v =? ATA_READ) && (lba_of (ports d) + count_of (ports d) <=? capacity)
                       then Waiting (lba_of (ports d)) (count_of (ports d)) 2 else Idle)
  else mkDrive (fun q => if q =? p then v else ports d q) (doing d).
Definition sim_inb (d : Drive img) (p : Z) : Z * Drive img :=
  match doing d with
  | Idle => (0x40, d)
  | Waiting s c (S k) => (0x80, mkDrive (ports d) (Waiting s c k))
  | Waiting s c O => (0x48, mkDrive (ports d) (Sending s c 0))
  | Sending _ _ _ => (0x48, d)
  end.
Definition sim_inw (d : Drive img) (p : Z) : Z * Drive img :=
  match doing d with
  | Sending s c i =>
    (bytes (512 * s + 2 * i) + 256 * bytes (512 * s + 2 * i + 1),
     mkDrive (ports d) (if i <? 255 then Sending s c (i + 1) else if c =? 1 then Idle else Waiting (s + 1) (c - 1) 2))
  | _ => (0, d)
  end.

#[export] Instance sim_drive : AtaDrive (Drive img) := { outb := sim_outb; inb := sim_inb; inw := sim_inw }.

#[export] Program Instance sim_laws : AtaLaws (Drive img) := {
  phase := doing; regs := ports; platter := bytes; sectors := capacity;
}.
Next Obligation. intros a. apply Z.mod_pos_bound. lia. Qed.
Next Obligation.
  intros d p v Hd [_ Hp]. simpl. unfold sim_outb. destruct (Z.eqb_spec p IDE_CMD) as [->|]; [|done]. by destruct Hp.
Qed.
Next Obligation.
  intros d _ Hd. exists 2%nat. split; [done|]. simpl. unfold sim_outb. simpl. by rewrite (proj2 (Z.leb_le _ _) Hd).
Qed.
Next Obligation. intros d s c k Hd. simpl in *. unfold sim_inb. rewrite Hd. by eexists _, _. Qed.
Next Obligation. intros d s c Hd. simpl in *. unfold sim_inb. rewrite Hd. by eexists _, _. Qed.
Next Obligation.
  intros d s c i Hd Hi. simpl in *. unfold sim_inw. rewrite Hd. eexists. split; [done|]. split; simpl.
  - intros. by rewrite (proj2 (Z.ltb_lt i 255)) by lia.
  - split; [|by intros -> ->]. intros -> Hc. exists 2%nat. simpl. by rewrite (proj2 (Z.eqb_neq c 1)).
Qed.

End sim.

(** DMA memory: up to a thousand buffers of 64 KiB, one per megabyte, which are not given back. *)
Definition slot (i : nat) : Z * Z := (0x100000 * (Z.of_nat i + 1), 0x10000).
Definition cleared (m : Z -> Z) (r : Z * Z) : Z -> Z := fun a => if (r.1 <=? a) && (a <? r.1 + r.2) then 0 else m a.
#[export] Instance bump_heap : DmaHeap nat := {
  dma_alloc := fun m n size => if (size <=? 0x10000) && (Z.of_nat n <? 1000) then ((slot n).1, cleared m (slot n), S n) else (U64_MAX, m, n);
  dma_free := fun m n _ _ => (m, n);
}.
End Sim.
Import Sim.

Definition demo_img (a : Z) : Z := a * 7 + a / 512.
Definition demo_world : World (Drive demo_img) nat := mkWorld (fun a => a mod 5) (mkDrive (fun _ => 0) Idle) 0%nat.


(** A request for 0 sectors is answered with success although the drive was told to send 256. *)
Theorem ide_zero_sectors :
  (ide_serve demo_world 10 5 0 0x9000).1 = 0x9000 /\ doing (dev (ide_serve demo_world 10 5 0 0x9000).2) = Waiting 5 256 2.
Proof. by vm_compute. Qed.

(** More than 256 sectors: the count register takes the low byte; the driver reads that many and then reports failure, with
    the buffer partly written. *)
Theorem ide_count_truncated :
  (ide_serve demo_world 10 5 258 0x9000).1 = U64_MAX /\ pm (ide_serve demo_world 10 5 258 0x9000).2 0x9001 <> pm demo_world 0x9001.
Proof. by vm_compute. Qed.
