(* ===== verification/Ext4Drv.v ===== *)
(** The ext4 driver (src/drivers/src/bin/ext4.rs).

    Disk drivers are reached by calls through the kernel: the class [DiskService].  Buffers are physical memory seen through
    the kernel's direct map.  A division by zero is a panic; the walk down the extent tree has fuel. *)
From stdpp Require Import base tactics numbers list.
From Stdlib Require Import ZArith Lia.
From S2P Require Import Prelude.

Local Open Scope Z_scope.
Local Open Scope word_scope.

(** The disk driver that is called. *)
Inductive Drv := ahci | ide.

Class DiskService (W : Type) := {
  mem : W -> Z -> Z;
  set_mem : W -> (Z -> Z) -> W;
  sys_driver_call : W -> Drv -> Z -> Z -> Z -> Z -> Z * W;
  sys_dma_free : W -> Z -> Z -> W;
}.

Inductive outcome (W A : Type) := Done (a : A) (wd : W) | Panic | OutOfFuel.
Arguments Done {_ _}. Arguments Panic {_ _}. Arguments OutOfFuel {_ _}.

Definition EXT4_MAGIC : Z := 0xEF53.
Definition EXT4_EXTENTS_FL : Z := 0x80000.
Definition EXT4_EXTENT_MAGIC : Z := 0xF30A.
Definition INODE_ROOT : Z := 2.
Definition PART_LBA : Z := 2048.

(** ** Memory *)

(** The offset is turned into an index: it is rounded down to the size of the value. *)
Definition r8 (m : Z -> Z) (p o : Z) : Z := m (p + o).
Definition r16 (m : Z -> Z) (p o : Z) : Z := le_at m (p + o / 2 * 2) 2.
Definition r32 (m : Z -> Z) (p o : Z) : Z := le_at m (p + o / 4 * 4) 4.
Definition w8 (m : Z -> Z) (p o v : Z) : Z -> Z := fun a => if a =? p + o then v else m a.
(** [copy_nonoverlapping] *)
Definition copy_bytes (m : Z -> Z) (src dst n : Z) : Z -> Z :=
  fun a => if (dst <=? a) && (a <? dst + n) then m (src + (a - dst)) else m a.

Record Fs := mkFs {
  use_ide : bool; part_lba : Z; block_size : Z; sec_per_blk : Z; inodes_per_g : Z; inode_size : Z; bg_blk : Z;
}.
Definition drv (fs : Fs) : Drv := if use_ide fs then ide else ahci.

Section ext4.
Context {W : Type} `{!DiskService W}.
Implicit Types (fs : Fs) (wd : W).

Definition read_via wd (name : Drv) (sector count dst : Z) : bool * W :=
  let '(r, wd) := sys_driver_call wd name 10 sector count dst in (r =? dst, wd).

Definition write_via wd (name : Drv) (sector count src : Z) : bool * W :=
  let '(r, wd) := sys_driver_call wd name 11 sector count src in (r =? 0, wd).

Definition alloc_via wd (name : Drv) (size : Z) : Z * W :=
  let '(r, wd) := sys_driver_call wd name 20 size 0 0 in
  (if (r =? 0) || (r =? U64_MAX) then U64_MAX else r, wd).

(** The file system a superblock describes. *)
Definition fs_of (m : Z -> Z) (use_ide : bool) (sb_phys : Z) : Fs :=
  let lbs := r32 m sb_phys 24 in
  let bs := wrap 64 (Z.shiftl 1024 (lbs mod 64)) in
  mkFs use_ide PART_LBA bs (bs / 512) (r32 m sb_phys 40) (r16 m sb_phys 88) (if bs >? 1024 then 1 else 2).

Fixpoint mount_from (attempts : nat) wd : option Fs * W :=
  match attempts with
  | O => (None, wd)
  | S attempts =>
    let '(sb, wd) := sys_driver_call wd ahci 10 (PART_LBA + 2) 2 0 in
    if negb (sb =? 0) && negb (sb =? U64_MAX) && (r16 (mem wd) sb 56 =? EXT4_MAGIC) then (Some (fs_of (mem wd) false sb), wd)
    else
      let '(sb, wd) := sys_driver_call wd ide 10 (PART_LBA + 2) 2 0 in
      if (sb =? 0) || (sb =? U64_MAX) then mount_from attempts wd
      else if negb (r16 (mem wd) sb 56 =? EXT4_MAGIC) then (None, wd)
      else (Some (fs_of (mem wd) true sb), wd)
  end.
Definition mount wd : option Fs * W := mount_from 500 wd.

Definition alloc_buf fs wd (size : Z) : Z * W := alloc_via wd (drv fs) size.

Definition read_blk fs wd (block dst : Z) : bool * W :=
  read_via wd (drv fs) (part_lba fs +u64 (block *u64 sec_per_blk fs)) (sec_per_blk fs) dst.

Definition write_blk fs wd (block src : Z) : bool * W :=
  write_via wd (drv fs) (part_lba fs +u64 (block *u64 sec_per_blk fs)) (sec_per_blk fs) src.

Definition read_inode fs wd (ino dst : Z) : outcome W bool :=
  if inodes_per_g fs =? 0 then Panic
  else
    let g := wrap 32 (ino - 1) / inodes_per_g fs in
    let idx := wrap 32 (ino - 1) mod inodes_per_g fs in
    let '(bg, wd) := alloc_buf fs wd (block_size fs) in
    if bg =? U64_MAX then Done false wd
    else
      let '(ok, wd) := read_blk fs wd (bg_blk fs +u64 (g *u64 sec_per_blk fs)) bg in
      if negb ok then Done false wd
      else
        let tbl_lo := r32 (mem wd) bg 8 in
        let tbl_hi := r32 (mem wd) bg 24 in
        let tbl := Z.lor tbl_lo (Z.shiftl tbl_hi 32) in
        let off := idx * inode_size fs in
        if block_size fs =? 0 then Panic
        else
          let blk := tbl +u64 (off / block_size fs) in
          let '(ok, wd) := read_blk fs wd blk dst in
          if negb ok then Done false (sys_dma_free wd bg (block_size fs))
          else
            let in_blk := off mod block_size fs in
            let wd := if negb (in_blk =? 0)
                      then set_mem wd (copy_bytes (mem wd) (dst + in_blk) dst (Z.min (inode_size fs) (block_size fs - in_blk))) else wd in
            Done true (sys_dma_free wd bg (block_size fs)).

(** How a step of the copy loop goes on. *)
Inductive flow := Next (dst : Z) | Stop (r : option Z).

Definition free2 fs wd (ext dat : Z) : W := sys_dma_free (sys_dma_free wd ext (block_size fs)) dat (block_size fs).

(** The blocks [start + b] .. of an extent. *)
Fixpoint copy_blocks fs (sz ext dat file_phys start : Z) (n : nat) (b dst : Z) wd : flow * W :=
  match n with
  | O => (Next dst, wd)
  | S n =>
    let copy := Z.min (block_size fs) (saturating_sub sz dst) in
    if copy =? 0 then (Stop (Some sz), free2 fs wd ext dat)
    else
      let '(ok, wd) := read_blk fs wd (start + b) dat in
      if negb ok then (Stop None, free2 fs wd ext dat)
      else
        let wd := set_mem wd (copy_bytes (mem wd) dat (file_phys +u64 dst) copy) in
        copy_blocks fs sz ext dat file_phys start n (b + 1) (dst + copy) wd
  end.

(** Extent [e] of a node: the first block and the length. *)
Definition extent_at (m : Z -> Z) (ext e : Z) : Z * Z :=
  let eo := 12 + e * 12 in
  let lv := r16 m ext (eo + 4) in
  let sh := r16 m ext (eo + 6) in
  let sl := r32 m ext (eo + 8) in
  (Z.lor (Z.shiftl sh 32) sl, Z.land lv 0x7FFF).

Fixpoint copy_extents fs (sz ext dat file_phys : Z) (n : nat) (e dst : Z) wd : flow * W :=
  match n with
  | O => (Next dst, wd)
  | S n =>
    let '(start, elen) := extent_at (mem wd) ext e in
    match copy_blocks fs sz ext dat file_phys start (Z.to_nat elen) 0 dst wd with
    | (Next dst, wd) => copy_extents fs sz ext dat file_phys n (e + 1) dst wd
    | (Stop r, wd) => (Stop r, wd)
    end
  end.

(** The [loop]: down the tree along first entries, to the leaf. *)
Fixpoint walk (fuel : nat) fs (sz ext dat file_phys : Z) wd : outcome W (option Z) :=
  match fuel with
  | O => OutOfFuel
  | S fuel =>
    if negb (r16 (mem wd) ext 0 =? EXT4_EXTENT_MAGIC) then Done None (free2 fs wd ext dat)
    else
      let depth := r16 (mem wd) ext 6 in
      let entries := r16 (mem wd) ext 2 in
      if depth =? 0 then
        match copy_extents fs sz ext dat file_phys (Z.to_nat entries) 0 0 wd with
        | (Next _, wd) => Done (Some sz) (free2 fs wd ext dat)
        | (Stop r, wd) => Done r wd
        end
      else
        let ll := r32 (mem wd) ext 16 in
        let lh := r16 (mem wd) ext 20 in
        let '(ok, wd) := read_blk fs wd (Z.lor (Z.shiftl lh 32) ll) ext in
        if negb ok then Done None (free2 fs wd ext dat) else walk fuel fs sz ext dat file_phys wd
  end.

Definition read_file (fuel : nat) fs wd (ino file_phys : Z) : outcome W (option Z) :=
  let '(inode, wd) := alloc_buf fs wd (block_size fs) in
  if inode =? U64_MAX then Done None wd
  else
    match read_inode fs wd ino inode with
    | Panic => Panic
    | OutOfFuel => OutOfFuel
    | Done false wd => Done None wd
    | Done true wd =>
      let sz_lo := r32 (mem wd) inode 4 in
      let sz_hi := r32 (mem wd) inode 108 in
      let sz := Z.lor (Z.shiftl sz_hi 32) sz_lo in
      if sz =? 0 then Done (Some 0) (sys_dma_free wd inode (block_size fs))
      else
        let flags := r32 (mem wd) inode 32 in
        if Z.land flags EXT4_EXTENTS_FL =? 0 then Done None (sys_dma_free wd inode (block_size fs))
        else
          let '(ext, wd) := alloc_buf fs wd (block_size fs) in
          let '(dat, wd) := alloc_buf fs wd (block_size fs) in
          if (ext =? U64_MAX) || (dat =? U64_MAX) then Done None (sys_dma_free wd inode (block_size fs))
          else
            let wd := set_mem wd (fold_left (fun m i => w8 m ext i (r8 m inode (40 + i))) (seqZ 0 60) (mem wd)) in
            let wd := sys_dma_free wd inode (block_size fs) in
            walk fuel fs sz ext dat file_phys wd
    end.

(** The bytes of an entry's name are those of [name], from byte [i] on. *)
Fixpoint name_matches (m : Z -> Z) (p : Z) (name : list Z) (i : Z) : bool :=
  match name with
  | [] => true
  | c :: name => if negb (r8 m p i =? c) then false else name_matches m p name (i + 1)
  end.

(** The scan of directory entries; every round moves on by at least 8 bytes. *)
Fixpoint scan_dir (fuel : nat) (m : Z -> Z) (scratch dir_sz : Z) (name : list Z) (off : Z) : option Z :=
  match fuel with
  | O => None
  | S fuel =>
    if negb (off + 8 <=? dir_sz) then None
    else
      let ino := r32 m scratch off in
      if ino =? 0 then scan_dir fuel m scratch dir_sz name (off + 8)
      else
        let rl := r16 m scratch (off + 4) in
        if rl <? 8 then None
        else
          let nl := r8 m scratch (off + 6) in
          if (nl =? Z.of_nat (length name)) && name_matches m scratch name (off + 8) then Some ino
          else scan_dir fuel m scratch dir_sz name (off + rl)
  end.

Definition find_in_dir (fuel : nat) fs wd (dir_ino : Z) (name : list Z) (scratch : Z) : outcome W (option Z) :=
  match read_file fuel fs wd dir_ino scratch with
  | Panic => Panic
  | OutOfFuel => OutOfFuel
  | Done None wd => Done None wd
  | Done (Some dir_sz) wd =>
    if dir_sz =? 0 then Done None wd
    else Done (scan_dir (S (Z.to_nat (dir_sz / 8))) (mem wd) scratch dir_sz name 0) wd
  end.

(** [b"file.txt"] *)
Definition FILE_TXT : list Z := [102; 105; 108; 101; 46; 116; 120; 116].

(** One message: the response, the size to report and the state after it. *)
Definition ext4_serve (fuel : nat) fs (result scratch : Z) (last_sz : Z) wd (cmd : Z) : outcome W (Z * Z) :=
  if cmd =? 1 then
    match find_in_dir fuel fs wd INODE_ROOT FILE_TXT scratch with
    | Panic => Panic
    | OutOfFuel => OutOfFuel
    | Done None wd => Done (U64_MAX, last_sz) wd
    | Done (Some i) wd =>
      match read_file fuel fs wd i result with
      | Panic => Panic
      | OutOfFuel => OutOfFuel
      | Done (Some sz) wd => Done (result, sz) wd
      | Done None wd => Done (U64_MAX, last_sz) wd
      end
    end
  else if cmd =? 2 then Done (last_sz, last_sz) wd
  else Done (U64_MAX, last_sz) wd.

(** The start: mount, then the two buffers. *)
Definition ext4_start wd : option (Fs * Z * Z) * W :=
  match mount wd with
  | (None, wd) => (None, wd)
  | (Some fs, wd) =>
    let '(result, wd) := alloc_buf fs wd 4096 in
    let '(scratch, wd) := alloc_buf fs wd (block_size fs) in
    (Some (fs, result, scratch), wd)
  end.
End ext4.
