(* ===== verification/Ext4Thms.v ===== *)
(** The ext4 driver returns the file.  Proved against [DiskLaws], what a disk driver and the kernel's DMA memory
    promise; the IDE driver gives them. *)
From stdpp Require Import base tactics numbers list sets.
From Stdlib Require Import ZArith Lia.
From S2P Require Import Prelude IdeDrv IdeThms Ext4Drv.

Local Open Scope Z_scope.
Local Open Scope word_scope.
Set Default Proof Using "Type".

(** ** What the driver relies on *)

Definition within (a : Z) (r : Z * Z) : Prop := r.1 <= a < r.1 + r.2.
Definition disjoint_areas (r q : Z * Z) : Prop := forall a, within a r -> within a q -> False.

(** The disk, the driver that serves it, the DMA buffers in use ([live]: address and bytes), how many more there is
    memory for ([budget]), and that no request is under way ([ready]).  Only the buffers in use are promised to keep their bytes:
    the kernel clears the pages it hands out and keeps its lists in free ones. *)
Class DiskLaws (W : Type) `{!DiskService W} := {
  disk : Z -> Z;
  nsectors : Z;
  serving : Drv;
  live : W -> list (Z * Z);
  budget : W -> Z;
  ready : W -> Prop;
  disk_byte a : 0 <= disk a < 256;
  live_pos w r : r ∈ live w -> 0 < r.2 /\ 0 <= r.1 /\ r.1 + r.2 < 2 ^ 64;
  nsectors_28 : nsectors <= 2 ^ 28;
  mem_set w m : mem (set_mem w m) = m;
  live_set w m : live (set_mem w m) = live w;
  budget_set w m : budget (set_mem w m) = budget w;
  ready_set w m : ready w -> ready (set_mem w m);
  call_read w s c r : ready w -> r ∈ live w -> 0 < c <= 256 -> 512 * c <= r.2 -> 0 <= s -> s + c <= nsectors ->
    exists w', sys_driver_call w serving 10 s c r.1 = (r.1, w') /\ ready w' /\ live w' = live w /\ budget w' = budget w /\
      forall q a, q ∈ live w -> within a q ->
        mem w' a = if (r.1 <=? a) && (a <? r.1 + 512 * c) then disk (512 * s + (a - r.1)) else mem w a;
  call_alloc w n : ready w -> 0 < n <= 2 ^ 16 -> 0 < budget w ->
    exists r w', sys_driver_call w serving 20 n 0 0 = (r.1, w') /\ ready w' /\ r.1 <> 0 /\ r.1 <> U64_MAX /\ n <= r.2 /\
      live w' = r :: live w /\ budget w' = budget w - 1 /\ Forall (disjoint_areas r) (live w) /\
      forall q a, q ∈ live w -> within a q -> mem w' a = mem w a;
  free_ready w p n : ready w -> ready (sys_dma_free w p n);
  free_mem w p n q a : q ∈ live w -> q.1 <> p -> within a q -> mem (sys_dma_free w p n) a = mem w a;
  free_budget w p n : budget w <= budget (sys_dma_free w p n);
  free_keeps w p n r : r ∈ live w -> r.1 <> p -> r ∈ live (sys_dma_free w p n);
  free_only w p n r : r ∈ live (sys_dma_free w p n) -> r ∈ live w;
}.

Lemma lor_shift hi lo : 0 <= lo < 2 ^ 32 -> Z.lor (Z.shiftl hi 32) lo = lo + hi * 2 ^ 32.
Proof.
  intros Hl. rewrite Z.shiftl_mul_pow2 by lia.
  assert (Z.land (hi * 2 ^ 32) lo = 0) as E; [|pose proof (Z.add_lor_land (hi * 2 ^ 32) lo); lia].
  apply Z.bits_inj'. intros n Hn. rewrite Z.land_spec, Z.bits_0, <-Z.shiftl_mul_pow2, Z.shiftl_spec by lia.
  destruct (Z.ltb_spec n 32); [by rewrite (Z.testbit_neg_r _ (n - 32)) by lia|].
  rewrite <-(Z.mod_small lo (2 ^ 32)) by lia. by rewrite Z.mod_pow2_bits_high, andb_false_r by lia.
Qed.

Section ext4.
Context {W : Type} `{!DiskService W, !DiskLaws W}.
Implicit Types (w : W) (fs : Fs) (r : Z * Z).

(** ** Buffers *)

(** No request is under way, and buffers in use have no byte in common. *)
Definition sound w : Prop := ready w /\ forall r q, r ∈ live w -> q ∈ live w -> r = q \/ disjoint_areas r q.

(** [w] came from [w0]: buffers in use stay in use, and those whose address is not in [X] keep their bytes. *)
Definition since (w0 w : W) (X : list Z) : Prop :=
  (forall r, r ∈ live w0 -> r ∈ live w) /\ sound w /\
  (forall r a, r ∈ live w0 -> r.1 ∉ X -> within a r -> mem w a = mem w0 a).

(** A buffer the code may write: one of [X], or one that [w0] does not know. *)
Definition own (w0 : W) (X : list Z) (p : Z) : Prop := p ∈ X \/ forall r, r ∈ live w0 -> r.1 <> p.

Lemma since_refl w X : sound w -> since w w X.
Proof. by intros. Qed.

(** A write inside a buffer. *)
Lemma since_write w0 w w' X r :
  since w0 w X -> r ∈ live w -> own w0 X r.1 -> ready w' -> live w' = live w ->
  (forall q a, q ∈ live w -> within a q -> ~ within a r -> mem w' a = mem w a) -> since w0 w' X.
Proof.
  intros (Hl & [_ Hs] & Hm) Hr Ho Hrd El Hw. split_and!.
  - intros q Hq. rewrite El. auto.
  - split; [done|]. intros q1 q2. rewrite El. apply Hs.
  - intros q a Hq HX Ha. rewrite (Hw q); [by apply Hm with q|by apply Hl|done|]. intros Ha'.
    destruct (Hs q r (Hl q Hq) Hr) as [->|Hd]; [|by apply (Hd a)]. destruct Ho as [Ho|Ho]; [done|]. by apply (Ho r).
Qed.

Lemma since_free w0 w X p n : since w0 w X -> (forall r, r ∈ live w0 -> r.1 <> p) -> since w0 (sys_dma_free w p n) X.
Proof.
  intros (Hl & [Hrd Hs] & Hm) Hp. split_and!.
  - intros r Hr. apply free_keeps; auto.
  - split; [by apply free_ready|]. intros r q Hr%free_only Hq%free_only. by apply Hs.
  - intros r a Hr HX Ha. rewrite (free_mem w p n r) by auto. by apply Hm with r.
Qed.

Lemma since_trans w0 w1 w2 X Y :
  since w0 w1 X -> since w1 w2 Y -> (forall p, p ∈ Y -> own w0 X p) -> since w0 w2 X.
Proof.
  intros (Hl & _ & Hm) (Hl' & Hs' & Hm') Ho. split_and!; [auto|done|].
  intros r a Hr HX Ha. rewrite (Hm' r a); [by apply Hm with r|auto| |done].
  intros HY. destruct (Ho _ HY) as [?|Hf]; [done|]. by apply (Hf r Hr).
Qed.

Lemma since_sound w0 w X : since w0 w X -> sound w.
Proof. by intros (_ & ? & _). Qed.

Definition known w p : Prop := exists r, r ∈ live w /\ r.1 = p.

Lemma alloc_ok fs w n :
  drv fs = serving -> sound w -> 0 < n <= 2 ^ 16 -> 0 < budget w ->
  exists r w', alloc_buf fs w n = (r.1, w') /\ (r.1 =? U64_MAX) = false /\ n <= r.2 /\ r ∈ live w' /\ since w w' [] /\
    (forall q, q ∈ live w -> q.1 <> r.1) /\ Forall (disjoint_areas r) (live w) /\ live w' = r :: live w /\ budget w' = budget w - 1 /\
    (forall q a, q ∈ live w -> within a q -> mem w' a = mem w a).
Proof.
  intros Hd [Hrd Hs] Hn Hbud. destruct (call_alloc w n Hrd Hn Hbud) as (r & w' & E & Hrd' & H0 & H1 & Hsz & El & Eb & Hdis & Hm).
  exists r, w'. unfold alloc_buf, alloc_via. rewrite Hd, E.
  rewrite (proj2 (Z.eqb_neq r.1 0)), (proj2 (Z.eqb_neq r.1 _)) by done. rewrite Forall_forall in Hdis.
  split; [done|]. split; [done|]. split; [done|]. split; [rewrite El; by left|]. split.
  { split_and!; [intros q Hq; rewrite El; by right| |by intros q a Hq _; apply Hm].
    split; [done|]. intros q k. rewrite El, !elem_of_cons. intros [->|Hq] [->|Hk]; [by left|right; auto| |auto].
    right. intros a Ha Hb. by apply (Hdis q Hq a). }
  split; [|by rewrite Forall_forall].
  intros q Hq E1. destruct (live_pos w q Hq) as (? & _). apply (Hdis q Hq q.1); unfold within; rewrite ?E1; lia.
Qed.

(** ** Blocks *)

Definition geometry_ok fs : Prop :=
  block_size fs = 512 * sec_per_blk fs /\ 1 < sec_per_blk fs <= 128 /\ 0 <= part_lba fs /\ drv fs = serving.

Definition block_ok fs (b : Z) : Prop := 0 <= b /\ part_lba fs + (b + 1) * sec_per_blk fs <= nsectors.

(** Byte [i] of the file system. *)
Definition fs_byte fs (i : Z) : Z := disk (512 * part_lba fs + i).

Lemma read_blk_ok fs w0 w X b r :
  geometry_ok fs -> since w0 w X -> r ∈ live w -> own w0 X r.1 -> block_size fs <= r.2 -> block_ok fs b ->
  exists w', read_blk fs w b r.1 = (true, w') /\ since w0 w' X /\ live w' = live w /\ budget w' = budget w /\
    (forall i, 0 <= i < block_size fs -> mem w' (r.1 + i) = fs_byte fs (b * block_size fs + i)) /\
    (forall q a, q ∈ live w -> within a q -> ~ (r.1 <= a < r.1 + block_size fs) -> mem w' a = mem w a).
Proof.
  intros (Hbs & Hsec & Hp & Hd) HS Hr Ho Hn (Hb0 & Hb). unfold read_blk, read_via. pose proof nsectors_28.
  rewrite (wrap_small 64 (b * _)), wrap_small by nia. rewrite Hd.
  destruct (call_read w (part_lba fs + b * sec_per_blk fs) (sec_per_blk fs) r (proj1 (since_sound _ _ _ HS)) Hr)
    as (w' & -> & Hrd & El & Eb & Hm); [lia|lia|nia|lia|].
  rewrite Z.eqb_refl. exists w'. split; [done|].
  assert (forall q a, q ∈ live w -> within a q -> ~ (r.1 <= a < r.1 + block_size fs) -> mem w' a = mem w a) as Hout.
  { intros q a Hq Haq Ha. rewrite (Hm q) by done. destruct (Z.leb_spec r.1 a), (Z.ltb_spec a (r.1 + 512 * sec_per_blk fs)); simpl; (done || lia). }
  split_and!; [|done|done| |done].
  - apply (since_write w0 w w' X r); [done..|]. intros q a Hq Haq Ha. apply (Hout q); [done..|]. unfold within in Ha. lia.
  - intros i Hi. rewrite (Hm r) by (done || unfold within; lia). rewrite (proj2 (Z.leb_le _ _)), (proj2 (Z.ltb_lt _ _)) by lia. simpl. unfold fs_byte. f_equal. nia.
Qed.

Lemma read_at_most fs w b q n i o :
  (forall i, 0 <= i < block_size fs -> mem w (q + i) = fs_byte fs (b * block_size fs + i)) ->
  0 <= o -> o + Z.of_nat n <= block_size fs -> i = b * block_size fs + o -> le_at (mem w) (q + o) n = le_at (fs_byte fs) i n.
Proof.
  intros H Ho Hn ->. apply le_at_shift. intros j Hj. rewrite <-!Z.add_assoc. apply H. lia.
Qed.

(** ** Inodes *)

(** The file system is the one of the superblock: block size, inodes per group, size of an inode, and the block of the group
    descriptors, the one after the first data block. *)
Definition describes fs : Prop :=
  block_size fs = 1024 * 2 ^ le_at (fs_byte fs) 1048 4 /\ inodes_per_g fs = le_at (fs_byte fs) 1064 4 /\
  inode_size fs = (if le_at (fs_byte fs) 1100 4 =? 0 then 128 else le_at (fs_byte fs) 1112 2) /\
  bg_blk fs = le_at (fs_byte fs) 1044 4 + 1.

(** The inode table of the first block group (its upper half counts where descriptors have 64 bytes), and the bytes of an inode in
    it. *)
Definition table fs : Z :=
  le_at (fs_byte fs) (bg_blk fs * block_size fs + 8) 4 +
  (if Z.testbit (le_at (fs_byte fs) 1120 4) 7 then le_at (fs_byte fs) (bg_blk fs * block_size fs + 40) 4 * 2 ^ 32 else 0).
Definition inode_byte fs (ino i : Z) : Z := fs_byte fs (table fs * block_size fs + (ino - 1) * inode_size fs + i).

(** Inodes do not cross blocks.  The field at 24 of the group descriptor, checksums of the bitmaps, is zero. *)
Definition inodes_ok fs : Prop :=
  describes fs /\ 0 < inodes_per_g fs < 2 ^ 32 /\ 128 <= inode_size fs /\ (inode_size fs | block_size fs) /\ block_ok fs (bg_blk fs) /\
  le_at (fs_byte fs) (bg_blk fs * block_size fs + 24) 4 = 0.

(** An inode of the first group. *)
Definition inode_ok fs (ino : Z) : Prop :=
  1 <= ino <= inodes_per_g fs /\ block_ok fs (table fs + (ino - 1) * inode_size fs / block_size fs).

Lemma fs_byte_bound fs a : 0 <= fs_byte fs a < 256.
Proof. apply disk_byte. Qed.

(** What the driver takes from a superblock of revision 1, with the first data block that goes with the block size, describes it. *)
Lemma fs_of_describes m ide_used sb :
  let fs := fs_of m ide_used sb in
  (forall i, 0 <= i < 1024 -> m (sb + i) = fs_byte fs (1024 + i)) -> le_at (fs_byte fs) 1048 4 <= 6 -> le_at (fs_byte fs) 1100 4 <> 0 ->
  le_at (fs_byte fs) 1044 4 = (if le_at (fs_byte fs) 1048 4 =? 0 then 1 else 0) -> describes fs.
Proof.
  cbv zeta. intros Hm Hlog Hrev Hfirst.
  assert (forall o n, 0 <= o -> o + Z.of_nat n <= 1024 -> le_at m (sb + o) n = le_at (fs_byte (fs_of m ide_used sb)) (1024 + o) n) as Hrd.
  { intros o n Ho Hn. apply le_at_shift. intros i Hi. rewrite <-!Z.add_assoc. apply Hm. lia. }
  unfold describes. rewrite (proj2 (Z.eqb_neq _ 0) Hrev), Hfirst.
  change (inodes_per_g (fs_of m ide_used sb)) with (le_at m (sb + 40) 4). change (inode_size (fs_of m ide_used sb)) with (le_at m (sb + 88) 2).
  rewrite !Hrd by lia. split; [|split; [done|split; [done|]]].
  - change (block_size (fs_of m ide_used sb)) with (wrap 64 (Z.shiftl 1024 (le_at m (sb + 24) 4 mod 64))). rewrite Hrd by lia.
    pose proof (le_at_bound (fs_byte (fs_of m ide_used sb)) 4 (fs_byte_bound _) 1048). change (1024 + 24) with 1048.
    rewrite Z.mod_small, Z.shiftl_mul_pow2 by lia. apply wrap_small.
    pose proof (Z.pow_le_mono_r 2 _ 6 ltac:(lia) Hlog). pose proof (Z.pow_pos_nonneg 2 (le_at (fs_byte (fs_of m ide_used sb)) 1048 4)). lia.
  - unfold bg_blk, fs_of. cbv zeta. unfold r32. change (24 / 4 * 4) with 24. rewrite Hrd by lia. change (1024 + 24) with 1048.
    pose proof (le_at_bound (fs_byte (fs_of m ide_used sb)) 4 (fs_byte_bound _) 1048) as Hb.
    set (x := le_at _ 1048 4) in *. rewrite Z.mod_small by lia. rewrite Z.gtb_ltb.
    assert (x = 0 \/ x = 1 \/ x = 2 \/ x = 3 \/ x = 4 \/ x = 5 \/ x = 6) as Hx by lia.
    by destruct Hx as [-> | [-> | [-> | [-> | [-> | [-> | ->]]]]]].
Qed.

Lemma inode_in_block fs off :
  0 < inode_size fs -> (inode_size fs | block_size fs) -> 0 < block_size fs -> 0 <= off -> (inode_size fs | off) ->
  off mod block_size fs + inode_size fs <= block_size fs.
Proof.
  intros Hi [k Hk] Hb Ho [j ->]. rewrite Hk. rewrite (Z.mul_comm k), (Z.mul_comm j).
  rewrite Z.mul_mod_distr_l by nia. pose proof (Z.mod_pos_bound j k ltac:(nia)). nia.
Qed.

(** A table on the disk has no upper half. *)
Lemma table_low fs ino :
  geometry_ok fs -> 0 <= inode_size fs -> inode_ok fs ino -> table fs = le_at (fs_byte fs) (bg_blk fs * block_size fs + 8) 4.
Proof.
  intros (Hbs & Hsec & Hp & _) Hi (Hino & _ & Hcap). unfold table in *. pose proof nsectors_28.
  pose proof (le_at_bound (fs_byte fs) 4 (fs_byte_bound fs) (bg_blk fs * block_size fs + 8)).
  pose proof (le_at_bound (fs_byte fs) 4 (fs_byte_bound fs) (bg_blk fs * block_size fs + 40)).
  assert (0 <= (ino - 1) * inode_size fs / block_size fs) by (apply Z.div_pos; nia).
  destruct (Z.testbit _ 7); [|lia]. destruct (decide (le_at (fs_byte fs) (bg_blk fs * block_size fs + 40) 4 = 0)) as [E|]; [rewrite E; lia|].
  exfalso. nia.
Qed.

Lemma ext_read_inode fs w0 w X ino r :
  geometry_ok fs -> inodes_ok fs -> inode_ok fs ino -> since w0 w X -> r ∈ live w -> own w0 X r.1 -> block_size fs <= r.2 -> 0 < budget w ->
  exists w', read_inode fs w ino r.1 = Done true w' /\ since w0 w' X /\ budget w - 1 <= budget w' /\ (forall q, q ∈ live w -> q ∈ live w') /\
    forall i, 0 <= i < inode_size fs -> mem w' (r.1 + i) = inode_byte fs ino i.
Proof.
  intros G (_ & Hg & Hisz & Hdiv & Hbg & Hhi) (Hino & Hblk) HS Hr Ho Hn Hbud. pose proof G as (Hbs & Hsec & Hp & Hd).
  assert (0 < block_size fs <= 2 ^ 16) as Hb by lia.
  unfold read_inode. rewrite (proj2 (Z.eqb_neq (inodes_per_g fs) 0)), (proj2 (Z.eqb_neq (block_size fs) 0)) by lia.
  rewrite (wrap_small 32 (ino - 1)) by lia. rewrite (Z.div_small (ino - 1)), (Z.mod_small (ino - 1)) by lia.
  destruct (alloc_ok fs w (block_size fs) Hd (since_sound _ _ _ HS) Hb Hbud) as (br & w1 & -> & -> & Hbsz & Hbgl & HS1 & Hfresh & Hdis & El1 & Eb1 & Hm1).
  set (bg := br.1) in *.
  assert (since w0 w1 X) as HS01 by (eapply since_trans; [done..|set_solver]).
  assert (forall q, q ∈ live w0 -> q.1 <> bg) as Hbg0 by (intros q Hq; apply Hfresh, HS, Hq).
  rewrite Z.mul_0_l, (wrap_small 64 0), Z.add_0_r by lia.
  assert (0 <= bg_blk fs < 2 ^ 28) as Hbgb by (destruct Hbg; pose proof nsectors_28; nia). rewrite (wrap_small 64 (bg_blk fs)) by lia.
  destruct (read_blk_ok fs w0 w1 X (bg_blk fs) br G HS01 Hbgl) as (w2 & E2 & HS2 & El2 & Eb2 & Hin2 & Hout2);
    [by right|lia|done|]. fold bg in E2, Hin2, Hout2. rewrite E2. cbn [negb].
  assert (r32 (mem w2) bg 8 = table fs) as ->.
  { rewrite (table_low fs ino) by (done || lia). apply (read_at_most fs w2 (bg_blk fs) bg 4 _ 8 Hin2); lia. }
  assert (r32 (mem w2) bg 24 = 0) as -> by (rewrite <-Hhi; apply (read_at_most fs w2 (bg_blk fs) bg 4 _ 24 Hin2); lia).
  rewrite Z.shiftl_0_l, Z.lor_0_r.
  set (off := (ino - 1) * inode_size fs) in *. assert (0 <= off) by nia.
  rewrite (wrap_small 64 (table fs + _)) by (destruct Hblk; pose proof nsectors_28; nia).
  assert (r ∈ live w2) as Hr2 by (rewrite El2, El1; by right).
  destruct (read_blk_ok fs w0 w2 X (table fs + off / block_size fs) r G HS2 Hr2 Ho Hn Hblk) as (w3 & -> & HS3 & El3 & Eb3 & Hin3 & Hout3).
  cbn [negb]. eexists. split; [done|].
  pose proof (Z.div_mod off (block_size fs) ltac:(lia)) as Hdm. pose proof (Z.mod_pos_bound off (block_size fs) ltac:(lia)) as Hmb.
  assert (off mod block_size fs + inode_size fs <= block_size fs) as Hfit
    by (apply inode_in_block; try lia; [done|]; by exists (ino - 1)).
  match goal with |- context [sys_dma_free ?x _ _] => set (w4 := x) end.
  assert (budget w4 = budget w3) as Eb4 by (unfold w4; by destruct (negb _); [apply budget_set|]).
  assert (live w4 = live w3) as El4 by (unfold w4; by destruct (negb _); [apply live_set|]).
  assert (ready w4) as Hrd4 by (pose proof (proj1 (since_sound _ _ _ HS3)); unfold w4; by destruct (negb _); [apply ready_set|]).
  assert (forall i, 0 <= i < inode_size fs -> mem w4 (r.1 + i) = inode_byte fs ino i) as Hbytes.
  { intros i Hi. transitivity (mem w3 (r.1 + (off mod block_size fs + i))).
    - unfold w4. destruct (Z.eqb_spec (off mod block_size fs) 0) as [->|]; simpl; [done|].
      rewrite mem_set. unfold copy_bytes. rewrite Z.min_l by lia.
      rewrite (proj2 (Z.leb_le _ _)), (proj2 (Z.ltb_lt _ _)) by lia. simpl. f_equal. lia.
    - rewrite Hin3 by lia. unfold inode_byte. f_equal. fold off. lia. }
  split_and!.
  - apply since_free; [|done]. apply (since_write w0 w3 w4 X r); [done|by rewrite El3|done|done|done|].
    intros _ a _ _ Ha. unfold w4. destruct (negb _); [|done]. rewrite mem_set. unfold copy_bytes, within in *.
    destruct (Z.leb_spec r.1 a), (Z.ltb_spec a (r.1 + Z.min (inode_size fs) (block_size fs - off mod block_size fs))); simpl; (done || lia).
  - pose proof (free_budget w4 bg (block_size fs)). lia.
  - intros q Hq. apply free_keeps; [|by apply Hfresh]. rewrite El4, El3, El2, El1. by right.
  - intros i Hi. rewrite (free_mem w4 bg _ r); [by apply Hbytes|by rewrite El4, El3|by apply Hfresh|unfold within; lia].
Qed.

(** ** Files *)

(** An extent: its first block in the file, the number of blocks, whether it is not yet written, and its first block in
    the file system.  A length over 0x8000 is that of an extent not yet written. *)
Record Extent := mkExtent { ee_block : Z; ee_len : Z; ee_unwritten : bool; ee_start : Z }.
Definition extent_of (node : Z -> Z) (e : Z) : Extent :=
  let o := 12 + 12 * e in
  let v := le_at node (o + 4) 2 in
  mkExtent (le_at node o 4) (if v <=? 0x8000 then v else v - 0x8000) (0x8000 <? v) (le_at node (o + 8) 4 + le_at node (o + 6) 2 * 2 ^ 32).

(** Byte [i] of a file: from the extent that holds it; zero in a hole and in an extent not yet written. *)
Fixpoint file_byte fs (l : list Extent) (i : Z) : Z :=
  match l with
  | [] => 0
  | e :: l =>
    if (ee_block e * block_size fs <=? i) && (i <? (ee_block e + ee_len e) * block_size fs)
    then if ee_unwritten e then 0 else fs_byte fs (ee_start e * block_size fs + (i - ee_block e * block_size fs))
    else file_byte fs l i
  end.

(** Extents without a gap from block [b] of the file on, all of them written, shorter than 0x8000 blocks and on the disk. *)
Fixpoint plain_extents fs (b : Z) (l : list Extent) : Prop :=
  match l with
  | [] => True
  | e :: l => ee_block e = b /\ ee_unwritten e = false /\ 0 < ee_len e < 0x8000 /\ 0 <= ee_start e /\
    part_lba fs + (ee_start e + ee_len e) * sec_per_blk fs <= nsectors /\ plain_extents fs (b + ee_len e) l
  end.
Definition extents_blocks (l : list Extent) : Z := foldr (fun e n => ee_len e + n) 0 l.

(** Byte [i] of the given blocks, one after the other. *)
Definition block_byte fs (blocks : list Z) (i : Z) : Z :=
  fs_byte fs (nth (Z.to_nat (i / block_size fs)) blocks 0 * block_size fs + i mod block_size fs).

Fixpoint blocks_from (start : Z) (n : nat) : list Z :=
  match n with O => [] | S n => start :: blocks_from (start + 1) n end.

(** The copy loop over a list of blocks. *)
Fixpoint copy_list fs (sz ext dat file : Z) (bl : list Z) (dst : Z) w : flow * W :=
  match bl with
  | [] => (Next dst, w)
  | b :: bl =>
    let copy := Z.min (block_size fs) (saturating_sub sz dst) in
    if copy =? 0 then (Stop (Some sz), free2 fs w ext dat)
    else
      let '(ok, w) := read_blk fs w b dat in
      if negb ok then (Stop None, free2 fs w ext dat)
      else copy_list fs sz ext dat file bl (dst + copy) (set_mem w (copy_bytes (mem w) dat (file +u64 dst) copy))
  end.

Lemma copy_blocks_list fs sz ext dat file start n : forall b dst w,
  copy_blocks fs sz ext dat file start n b dst w = copy_list fs sz ext dat file (blocks_from (start + b) n) dst w.
Proof.
  induction n as [|n IH]; intros b dst w; simpl; [done|]. destruct (_ =? 0); [done|].
  destruct (read_blk fs w (start + b) dat) as [[] w']; simpl; [|done]. rewrite IH. by rewrite Z.add_assoc.
Qed.

Lemma copy_bytes_out m src dst n a : ~ (dst <= a < dst + n) -> copy_bytes m src dst n a = m a.
Proof. intros H. unfold copy_bytes. destruct (Z.leb_spec dst a), (Z.ltb_spec a (dst + n)); simpl; (done || lia). Qed.

Lemma copy_bytes_in m src dst n a : dst <= a < dst + n -> copy_bytes m src dst n a = m (src + (a - dst)).
Proof. intros H. unfold copy_bytes. by rewrite (proj2 (Z.leb_le _ _)), (proj2 (Z.ltb_lt _ _)) by lia. Qed.

Section copy.
Context (fs : Fs) (w0 : W) (X : list Z) (sz : Z) (er dr : Z * Z) (file : Z * Z) (blocks : list Z) (node : Z -> Z) (B : Z).
Local Notation ext := (er.1).
Local Notation dat := (dr.1).
Context (Her : block_size fs <= er.2) (Hdr : block_size fs <= dr.2) (G : geometry_ok fs) (Hsz : 0 < sz <= file.2) (Hblocks : Forall (block_ok fs) blocks).
Context (Hfile : own w0 X file.1) (Hdat : own w0 X dat) (Hfd : file.1 <> dat) (Hfe : file.1 <> ext) (Hed : ext <> dat).

(** After [k] blocks. *)
Definition copied w (k : nat) : Prop :=
  since w0 w X /\ file ∈ live w /\ er ∈ live w /\ dr ∈ live w /\
  (forall i, 0 <= i < Z.min sz (block_size fs * Z.of_nat k) -> mem w (file.1 + i) = block_byte fs blocks i) /\
  (forall i, 0 <= i < 60 -> mem w (ext + i) = node i) /\ B <= budget w.

Lemma apart w r q a : since w0 w X -> r ∈ live w -> q ∈ live w -> r.1 <> q.1 -> within a r -> ~ within a q.
Proof.
  intros (_ & [_ Hs] & _) Hr Hq Hne Ha Ha'. destruct (Hs r q Hr Hq) as [->|Hd]; [done|]. by apply (Hd a).
Qed.

Lemma copied_block w k b :
  copied w k -> blocks !! k = Some b -> block_size fs * Z.of_nat k < sz ->
  let copy := Z.min (block_size fs) (saturating_sub sz (block_size fs * Z.of_nat k)) in
  exists w', read_blk fs w b dat = (true, w') /\ copy <> 0 /\
    block_size fs * Z.of_nat k + copy = Z.min sz (block_size fs * Z.of_nat (S k)) /\
    copied (set_mem w' (copy_bytes (mem w') dat (file.1 +u64 (block_size fs * Z.of_nat k)) copy)) (S k).
Proof using Her Hdr G Hsz Hblocks Hfile Hdat Hfd Hfe Hed.
  intros (HS & Hlf & Hle & Hld & Hbytes & Hnode & HB) Hb Hlt copy. pose proof G as (Hbs & Hsec & _).
  assert (60 < block_size fs) by lia.
  assert (copy = Z.min (block_size fs) (sz - block_size fs * Z.of_nat k)) as Ecopy by (unfold copy, saturating_sub; lia).
  destruct (read_blk_ok fs w0 w X b dr G HS Hld Hdat) as (w' & E & HS' & El & Eb & Hin & Hout);
    [simpl; lia|by eapply Forall_lookup_1|]. simpl in E, Hin, Hout.
  exists w'. split_and!; [done|lia|lia|].
  destruct (live_pos w file Hlf) as (_ & Hf0 & Hf1). rewrite wrap_small by lia. set (at_ := file.1 + block_size fs * Z.of_nat k).
  assert (forall a, within a file -> ~ (dat <= a < dat + block_size fs)) as Hfa.
  { intros a Ha Hx. apply (apart w file dr a HS Hlf Hld Hfd Ha). unfold within. lia. }
  assert (forall a, within a er -> ~ (dat <= a < dat + block_size fs)) as Hea.
  { intros a Ha Hx. apply (apart w er dr a HS Hle Hld Hed Ha). unfold within. lia. }
  assert (forall a, within a er -> ~ within a file) as Hef
    by (intros a Ha; apply (apart w er file); [done..|naive_solver|done]).
  unfold copied. rewrite mem_set, live_set, budget_set, El, Eb. split; [|split; [done|split; [done|split; [done|split; [|split; [|done]]]]]].
  - apply (since_write w0 w' _ X file); [done|by rewrite El|done|apply ready_set, (since_sound _ _ _ HS')|by rewrite live_set|].
    intros _ a _ _ Ha. rewrite mem_set. apply copy_bytes_out. unfold within, at_ in *. lia.
  - intros i Hi. destruct (Z.ltb_spec i (block_size fs * Z.of_nat k)) as [Hi'|Hi'].
    + assert (within (file.1 + i) file) by (unfold within; lia).
      rewrite copy_bytes_out by (unfold at_; lia). rewrite (Hout file) by auto. apply Hbytes. lia.
    + rewrite copy_bytes_in by (unfold at_; lia).
      replace (dat + (file.1 + i - at_)) with (dat + (i - block_size fs * Z.of_nat k)) by (unfold at_; lia).
      rewrite Hin by lia. unfold block_byte.
      assert (i / block_size fs = Z.of_nat k) as -> by (symmetry; apply Z.div_unique with (i - block_size fs * Z.of_nat k); lia).
      rewrite Nat2Z.id, (nth_lookup_Some _ _ _ _ Hb). f_equal. rewrite Z.mod_eq by lia.
      assert (i / block_size fs = Z.of_nat k) as -> by (symmetry; apply Z.div_unique with (i - block_size fs * Z.of_nat k); lia). done.
  - intros i Hi. assert (within (ext + i) er) by (unfold within; lia).
    rewrite copy_bytes_out; [rewrite (Hout er) by auto; by apply Hnode|].
    + pose proof (Hef (ext + i) ltac:(unfold within; simpl; lia)) as Hx. unfold within, at_ in *. lia.
Qed.

Lemma copied_enough w k j : copied w k -> sz <= block_size fs * Z.of_nat k -> copied w j.
Proof.
  clear Her Hdr G Hsz Hblocks Hfile Hdat Hfd Hfe Hed. intros (? & ? & ? & ? & Hby & ? & ?) Hk. split_and!; [done..| |done|done].
  intros i Hi. apply Hby. lia.
Qed.

(** The loop over a part of the blocks: it goes on, or stops with the size once the file is complete. *)
Lemma copy_list_ok bl : forall k w post,
  copied w k -> blocks = take k blocks ++ bl ++ post -> (k <= length blocks)%nat ->
  exists w', copied w' (k + length bl) /\
    (copy_list fs sz ext dat file.1 bl (Z.min sz (block_size fs * Z.of_nat k)) w =
       (Next (Z.min sz (block_size fs * Z.of_nat (k + length bl))), w') \/
     copy_list fs sz ext dat file.1 bl (Z.min sz (block_size fs * Z.of_nat k)) w = (Stop (Some sz), free2 fs w' ext dat) /\
       sz <= block_size fs * Z.of_nat (k + length bl)).
Proof using Her Hdr G Hsz Hblocks Hfile Hdat Hfd Hfe Hed.
  induction bl as [|b bl IH]; intros k w post Hc Hbl Hk; pose proof G as (Hbs & Hsec & _).
  - exists w. simpl. rewrite Nat.add_0_r. split; [done|by left].
  - assert (blocks !! k = Some b) as Hb.
    { rewrite Hbl. rewrite lookup_app_r by (rewrite length_take; lia). by rewrite length_take, Nat.min_l, Nat.sub_diag by lia. }
    cbn [copy_list]. destruct (Z.ltb_spec (block_size fs * Z.of_nat k) sz) as [Hlt|Hge].
    + rewrite (Z.min_r sz) by lia.
      destruct (copied_block w k b Hc Hb Hlt) as (w1 & -> & Hc0 & Edst & Hc1).
      rewrite (proj2 (Z.eqb_neq _ 0) Hc0). cbn [negb]. rewrite Edst.
      destruct (IH (S k) _ post Hc1) as (w' & Hc' & HE).
      { rewrite Hbl at 1. rewrite (take_S_r _ _ _ Hb), <-!app_assoc. done. }
      { apply lookup_lt_Some in Hb. lia. }
      exists w'. cbn [length]. rewrite Nat.add_succ_r. done.
    + rewrite (Z.min_l sz) by lia. unfold saturating_sub. rewrite Z.sub_diag, Z.max_id, Z.min_r by lia. cbn [Z.eqb].
      exists w. split; [|right; split; [done|nia]].
      apply (copied_enough w k); [done|lia].
Qed.

(** The blocks of the extents of a node from extent [e] on, as the driver takes them. *)
Definition taken (e : Z) : Z * Z :=
  let o := 12 + 12 * e in
  (le_at node (o + 8) 4 + le_at node (o + 6) 2 * 2 ^ 32, le_at node (o + 4) 2 mod 2 ^ 15).
Fixpoint node_blocks (n : nat) (e : Z) : list Z :=
  match n with
  | O => []
  | S n => blocks_from (taken e).1 (Z.to_nat (taken e).2) ++ node_blocks n (e + 1)
  end.

Lemma node_read (m : Z -> Z) n o :
  (forall i, 0 <= i < 60 -> m (ext + i) = node i) -> 0 <= o -> o + Z.of_nat n <= 60 -> le_at m (ext + o) n = le_at node o n.
Proof. clear Her Hdr G Hsz Hblocks Hfile Hdat Hfd Hfe Hed. intros H Ho Hn. apply le_at_shift. intros i Hi. rewrite <-Z.add_assoc. apply H. lia. Qed.

Lemma extent_at_node m e :
  (forall a, 0 <= node a < 256) -> (forall i, 0 <= i < 60 -> m (ext + i) = node i) -> 0 <= e < 4 -> extent_at m ext e = taken e.
Proof.
  clear Her Hdr G Hsz Hblocks Hfile Hdat Hfd Hfe Hed. intros Hb H He. unfold extent_at, taken, r16, r32.
  replace ((12 + e * 12 + 4) / 2 * 2) with (12 + 12 * e + 4) by div_lia. replace ((12 + e * 12 + 6) / 2 * 2) with (12 + 12 * e + 6) by div_lia.
  replace ((12 + e * 12 + 8) / 4 * 4) with (12 + 12 * e + 8) by div_lia.
  rewrite !node_read by (done || lia). change 0x7FFF with (Z.ones 15). rewrite Z.land_ones by lia.
  rewrite lor_shift; [done|]. apply (le_at_bound node 4 Hb).
Qed.

Lemma ext_copy_extents n : forall k w e,
  (forall a, 0 <= node a < 256) -> copied w k -> blocks = take k blocks ++ node_blocks n e -> (k <= length blocks)%nat ->
  0 <= e -> e + Z.of_nat n <= 4 ->
  exists w', copied w' (length blocks) /\
    ((exists dst, copy_extents fs sz ext dat file.1 n e (Z.min sz (block_size fs * Z.of_nat k)) w = (Next dst, w')) \/
     copy_extents fs sz ext dat file.1 n e (Z.min sz (block_size fs * Z.of_nat k)) w = (Stop (Some sz), free2 fs w' ext dat)).
Proof using Her Hdr G Hsz Hblocks Hfile Hdat Hfd Hfe Hed.
  induction n as [|n IH]; intros k w e Hb Hc Hbl Hk He Hn.
  - exists w. cbn [node_blocks] in Hbl. rewrite app_nil_r in Hbl. apply (f_equal length) in Hbl. rewrite length_take in Hbl.
    replace (length blocks) with k by lia. split; [done|]. left. by eexists.
  - cbn [copy_extents]. rewrite (extent_at_node _ e Hb (proj1 (proj2 (proj2 (proj2 (proj2 (proj2 Hc))))))) by lia.
    cbn [node_blocks] in Hbl. destruct (taken e) as [start elen]. cbn [fst snd] in Hbl.
    rewrite copy_blocks_list, Z.add_0_r. set (bl := blocks_from start (Z.to_nat elen)) in *.
    destruct (copy_list_ok bl k w (node_blocks n (e + 1)) Hc Hbl Hk) as (w1 & Hc1 & [->|[-> Hs]]).
    + destruct (IH (k + length bl)%nat w1 (e + 1) Hb Hc1) as (w' & Hc' & HE); [| |lia|lia|].
      * rewrite Hbl at 1. rewrite app_assoc. f_equal. rewrite Hbl at 2. rewrite app_assoc, take_app_length'; [done|].
        rewrite length_app, length_take. lia.
      * apply (f_equal length) in Hbl. rewrite !length_app, length_take in Hbl. lia.
      * exists w'. done.
    + exists w1. split; [by apply (copied_enough w1 (k + length bl))|by right].
Qed.

(** A node with extents of its own. *)
Definition leaf_node : Prop :=
  (forall a, 0 <= node a < 256) /\ le_at node 0 2 = EXT4_EXTENT_MAGIC /\ le_at node 6 2 = 0 /\ le_at node 2 2 <= 4 /\
  blocks = node_blocks (Z.to_nat (le_at node 2 2)) 0.

Lemma walk_ok fuel w :
  leaf_node -> copied w 0 ->
  exists w', walk (S fuel) fs sz ext dat file.1 w = Done (Some sz) (free2 fs w' ext dat) /\ copied w' (length blocks).
Proof using Her Hdr G Hsz Hblocks Hfile Hdat Hfd Hfe Hed.
  intros (Hb & Hmag & Hdep & Hent & Hbl) Hc. pose proof (proj1 (proj2 (proj2 (proj2 (proj2 (proj2 Hc)))))) as Hnode.
  cbn [walk]. unfold r16.
  change (0 / 2 * 2) with 0. change (6 / 2 * 2) with 6. change (2 / 2 * 2) with 2. rewrite !node_read by (done || lia).
  rewrite Hmag, Hdep. rewrite Z.eqb_refl. cbn [negb Z.eqb].
  pose proof (le_at_bound node 2 Hb 2).
  destruct (ext_copy_extents (Z.to_nat (le_at node 2 2)) 0 w 0 Hb Hc) as (w' & Hc' & HE); [done|lia|lia|lia|].
  rewrite Z.mul_0_r, Z.min_r in HE by lia.
  exists w'. destruct HE as [[dst ->]| ->]; done.
Qed.
End copy.

Lemma fold_w8 (m : Z -> Z) (ext inode : Z) (n : nat) a :
  (forall i, 0 <= i < 60 -> ~ (ext <= inode + 40 + i < ext + 60)) -> (n <= 60)%nat ->
  fold_left (fun m i => w8 m ext i (r8 m inode (40 + i))) (seqZ 0 (Z.of_nat n)) m a =
    if (ext <=? a) && (a <? ext + Z.of_nat n) then m (inode + 40 + (a - ext)) else m a.
Proof.
  intros Hd. revert a. induction n as [|n IH]; intros a Hn.
  - simpl. destruct (Z.leb_spec ext a), (Z.ltb_spec a (ext + Z.of_nat 0)); simpl; (done || lia).
  - rewrite seqZ_S, fold_left_app, Nat2Z.inj_succ. cbn [fold_left]. unfold w8 at 1, r8. rewrite !IH by lia. rewrite Z.add_0_l.
    destruct (Z.eqb_spec a (ext + Z.of_nat n)) as [->|Hne].
    + rewrite (proj2 (Z.leb_le ext (ext + _))), (proj2 (Z.ltb_lt (ext + _) (ext + Z.succ _))) by lia. cbn [andb].
      specialize (Hd (Z.of_nat n) ltac:(lia)).
      destruct (Z.leb_spec ext (inode + (40 + Z.of_nat n))), (Z.ltb_spec (inode + (40 + Z.of_nat n)) (ext + Z.of_nat n)); cbn [andb];
        try lia; f_equal; lia.
    + destruct (Z.leb_spec ext a), (Z.ltb_spec a (ext + Z.of_nat n)), (Z.ltb_spec a (ext + Z.succ (Z.of_nat n))); cbn [andb]; (done || lia).
Qed.

(** A leaf of the extent tree with up to four extents. *)
Definition leaf_extents (node : Z -> Z) (l : list Extent) : Prop :=
  le_at node 0 2 = 0xF30A /\ le_at node 6 2 = 0 /\ le_at node 2 2 <= 4 /\ l = map (extent_of node) (seqZ 0 (le_at node 2 2)).

(** A file of the first group with its extents in the inode and no part of it missing. *)
Definition file_at fs (ino sz : Z) (l : list Extent) : Prop :=
  inode_ok fs ino /\ 0 < sz /\
  le_at (inode_byte fs ino) 4 4 + le_at (inode_byte fs ino) 108 4 * 2 ^ 32 = sz /\
  Z.testbit (le_at (inode_byte fs ino) 32 4) 19 = true /\
  leaf_extents (fun i => inode_byte fs ino (40 + i)) l /\
  plain_extents fs 0 l /\ sz <= block_size fs * extents_blocks l.

(** The blocks of extents. *)
Definition blocks_of (l : list Extent) : list Z := l ≫= fun e => blocks_from (ee_start e) (Z.to_nat (ee_len e)).

Lemma length_blocks_from n : forall b, length (blocks_from b n) = n.
Proof. induction n as [|n IH]; intros b; simpl; [done|]. by rewrite IH. Qed.

Lemma nth_blocks_from n : forall b k d, (k < n)%nat -> nth k (blocks_from b n) d = b + Z.of_nat k.
Proof.
  induction n as [|n IH]; intros b [|k] d Hk; simpl; [lia|lia|lia|]. rewrite IH by lia. lia.
Qed.

Lemma length_blocks_of fs l : forall b, plain_extents fs b l -> Z.of_nat (length (blocks_of l)) = extents_blocks l.
Proof.
  induction l as [|e l IH]; intros b; [done|]. cbn [plain_extents]. intros (_ & _ & He & _ & _ & Hl).
  unfold blocks_of in *. rewrite bind_cons, length_app, length_blocks_from. cbn [extents_blocks foldr]. specialize (IH _ Hl).
  unfold extents_blocks in IH. lia.
Qed.

Lemma blocks_of_ok fs l : forall b, 0 <= sec_per_blk fs -> plain_extents fs b l -> Forall (block_ok fs) (blocks_of l).
Proof.
  induction l as [|e l IH]; intros b Hs; [constructor|]. cbn [plain_extents]. intros (_ & _ & He & H0 & H1 & Hl).
  unfold blocks_of in *. rewrite bind_cons. apply Forall_app. split; [|by apply (IH _ Hs Hl)].
  apply Forall_lookup_2. intros k x Hx. pose proof (lookup_lt_Some _ _ _ Hx) as Hk. rewrite length_blocks_from in Hk.
  apply (nth_lookup_Some _ _ 0) in Hx. rewrite nth_blocks_from in Hx by done. subst x. split; [lia|nia].
Qed.

(** Without gaps the blocks in order are the file. *)
Lemma blocks_of_file fs l : forall b i, 0 < block_size fs -> plain_extents fs b l -> 0 <= i < block_size fs * extents_blocks l ->
  block_byte fs (blocks_of l) i = file_byte fs l (b * block_size fs + i).
Proof.
  induction l as [|e l IH]; intros b i Hbs; [cbn; lia|]. cbn [plain_extents file_byte extents_blocks foldr]. fold (extents_blocks l).
  intros (Hb & Hw & He & _ & _ & Hl) Hi. unfold blocks_of in *. rewrite bind_cons, Hw, Hb. unfold block_byte.
  pose proof (Z.div_mod i (block_size fs) ltac:(lia)) as Hdm. pose proof (Z.mod_pos_bound i (block_size fs) ltac:(lia)) as Hm.
  destruct (Z.ltb_spec i (ee_len e * block_size fs)) as [Hlt|Hge].
  - rewrite (proj2 (Z.leb_le _ _)), (proj2 (Z.ltb_lt _ _)) by nia. cbn [andb].
    assert (0 <= i / block_size fs < ee_len e) by (split; [apply Z.div_pos; lia|apply Z.div_lt_upper_bound; nia]).
    rewrite app_nth1 by (rewrite length_blocks_from; lia). rewrite nth_blocks_from, Z2Nat.id by lia. f_equal. nia.
  - rewrite (proj2 (Z.ltb_ge (b * block_size fs + i) _)), andb_false_r by nia.
    replace (b * block_size fs + i) with ((b + ee_len e) * block_size fs + (i - ee_len e * block_size fs)) by ring.
    rewrite <-(IH (b + ee_len e) (i - ee_len e * block_size fs)) by (done || nia). unfold block_byte.
    replace i with (i - ee_len e * block_size fs + ee_len e * block_size fs) at 1 2 by ring.
    rewrite Z.div_add, Z.mod_add by lia.
    assert (0 <= (i - ee_len e * block_size fs) / block_size fs) by (apply Z.div_pos; lia).
    rewrite app_nth2 by (rewrite length_blocks_from; lia). rewrite length_blocks_from. 
    by replace (Z.to_nat _ - Z.to_nat (ee_len e))%nat with (Z.to_nat ((i - ee_len e * block_size fs) / block_size fs)) by lia.
Qed.

(** The driver takes written, short extents for what they are. *)
Lemma node_blocks_of fs node n : forall e b, (forall a, 0 <= node a < 256) -> plain_extents fs b (map (extent_of node) (seqZ e (Z.of_nat n))) ->
  node_blocks node n e = blocks_of (map (extent_of node) (seqZ e (Z.of_nat n))).
Proof.
  induction n as [|n IH]; intros e b Hn; [done|]. rewrite seqZ_cons by lia. cbn [map plain_extents]. intros (_ & Hw & Hlen & _ & _ & Hl).
  replace (Z.pred (Z.of_nat (S n))) with (Z.of_nat n) in * by lia. unfold blocks_of in *. rewrite bind_cons, <-(IH _ _ Hn Hl).
  cbn [node_blocks]. unfold taken, extent_of in *. cbn [ee_start ee_len ee_unwritten fst snd] in *. apply Z.ltb_ge in Hw. rewrite (proj2 (Z.leb_le _ _)) in * by lia.
  rewrite (Z.mod_small _ (2 ^ 15)) by lia. by rewrite <-Z.add_1_r.
Qed.

(** What the copy needs. *)
Definition blocks_at fs (ino sz : Z) (blocks : list Z) : Prop :=
  0 < sz /\ leaf_node blocks (fun i => inode_byte fs ino (40 + i)) /\
  Forall (block_ok fs) blocks /\ sz <= block_size fs * Z.of_nat (length blocks).

Lemma file_blocks fs ino sz l :
  geometry_ok fs -> file_at fs ino sz l -> blocks_at fs ino sz (blocks_of l) /\ forall i, 0 <= i < sz -> block_byte fs (blocks_of l) i = file_byte fs l i.
Proof.
  intros (Hbs & Hsec & _) (_ & Hsz & _ & _ & (Hmag & Hdep & Hent & El) & Hpl & Hlen). split.
  - split; [done|]. split; [|split; [by apply (blocks_of_ok _ _ 0); [lia|]|by rewrite (length_blocks_of fs l 0)]].
    assert (forall a, 0 <= inode_byte fs ino (40 + a) < 256) as Hb by (intros; apply fs_byte_bound).
    pose proof (le_at_bound (fun i => inode_byte fs ino (40 + i)) 2 Hb 2).
    split; [done|]. split; [done|]. split; [done|]. split; [done|]. subst l. rewrite <-(Z2Nat.id (le_at _ 2 2)) in Hpl |- * by lia.
    symmetry. rewrite Nat2Z.id. by apply (node_blocks_of fs _ _ 0 0).
  - intros i Hi. rewrite (blocks_of_file fs l 0) by (done || lia). done.
Qed.

(** The part of [read_file] after the inode's checks: the node is copied and its extents are read. *)
Lemma copy_node_ok fuel fs w w2 ino sz blocks file nr :
  let nd := nr.1 in
  geometry_ok fs -> blocks_at fs ino sz blocks -> sz <= file.2 -> file ∈ live w -> 2 <= budget w2 ->
  since w w2 [file.1] -> nr ∈ live w2 -> block_size fs <= nr.2 -> (forall r, r ∈ live w -> r.1 <> nd) ->
  (forall i, 0 <= i < 128 -> mem w2 (nd + i) = inode_byte fs ino i) ->
  exists w',
    (let '(ext, wd) := alloc_buf fs w2 (block_size fs) in
     let '(dat, wd) := alloc_buf fs wd (block_size fs) in
     if (ext =? U64_MAX) || (dat =? U64_MAX) then Done None (sys_dma_free wd nd (block_size fs))
     else
       let wd := set_mem wd (fold_left (fun m i => w8 m ext i (r8 m nd (40 + i))) (seqZ 0 60) (mem wd)) in
       let wd := sys_dma_free wd nd (block_size fs) in
       walk (S fuel) fs sz ext dat file.1 wd) = Done (Some sz) w' /\
    since w w' [file.1] /\ budget w2 - 2 <= budget w' /\ forall i, 0 <= i < sz -> mem w' (file.1 + i) = block_byte fs blocks i.
Proof.
  intros nd G (Hsz & Hleaf & Hbl & Hlen) Hfit Hfile Hbud HS2 Hnd2 Hnsz Hf1 Hin. pose proof G as (Hbs & Hsec & _ & Hd).
  assert (0 < block_size fs <= 2 ^ 16) as Hb by lia.
  destruct (alloc_ok fs w2 (block_size fs) Hd (since_sound _ _ _ HS2) Hb ltac:(lia)) as (er & w3 & -> & Eex & Hesz & Hl3 & HS3 & Hf3 & Hd3 & El3 & Eb3 & Hm3).
  destruct (alloc_ok fs w3 (block_size fs) Hd (since_sound _ _ _ HS3) Hb ltac:(lia)) as (dr & w4 & -> & Eda & Hdsz & Hl4 & HS4 & Hf4 & _ & El4 & Eb4 & Hm4).
  rewrite Eex, Eda. cbn [orb]. set (ex := er.1) in *. set (da := dr.1) in *.
  assert (since w w4 [file.1]) as HS4'.
  { eapply since_trans; [|exact HS4|set_solver]. eapply since_trans; [exact HS2|exact HS3|set_solver]. }
  assert (forall r, r ∈ live w -> r.1 <> ex) as Hwe by (intros r Hr; by apply Hf3, HS2).
  assert (forall r, r ∈ live w -> r.1 <> da) as Hwd by (intros r Hr; apply Hf4; rewrite El3; right; by apply HS2).
  assert (ex <> nd) as Hen by (intros E; by apply (Hf3 _ Hnd2)).
  assert (da <> nd) as Hdn by (intros E; apply (Hf4 nr); [rewrite El3; by right|done]).
  assert (ex <> da) as Hed by (intros E; by apply (Hf4 _ Hl3)).
  set (w5 := set_mem w4 _). set (w6 := sys_dma_free w5 nd (block_size fs)). assert (live w5 = live w4) as El5 by apply live_set.
  assert (forall a, mem w5 a = if (ex <=? a) && (a <? ex + 60) then mem w4 (nd + 40 + (a - ex)) else mem w4 a) as Hm5.
  { intros a. unfold w5. rewrite mem_set. apply (fold_w8 (mem w4) ex nd 60); [|done].
    intros i Hi Hx. rewrite Forall_forall in Hd3. apply (Hd3 _ Hnd2 (nd + 40 + i)); unfold within; fold ex nd; lia. }
  assert (copied fs w [file.1] sz er dr file blocks (fun i => inode_byte fs ino (40 + i)) (budget w2 - 2) w6 0) as Hc.
  { split_and!.
    - apply since_free; [|done]. apply (since_write w w4 w5 _ er); [done|rewrite El4; by right|by right|apply ready_set, (since_sound _ _ _ HS4)|done|].
      intros _ a _ _ Ha. rewrite Hm5.
      unfold within in Ha. fold ex in Ha. destruct (Z.leb_spec ex a), (Z.ltb_spec a (ex + 60)); simpl; (done || lia).
    - apply free_keeps; [|by apply Hf1]. rewrite El5. by apply HS4'.
    - apply free_keeps; [|done]. rewrite El5, El4. by right.
    - apply free_keeps; [|done]. by rewrite El5.
    - lia.
    - intros i Hi. fold ex. unfold w6. rewrite (free_mem w5 nd _ er) by (done || (rewrite El5, El4; by right) || (unfold within; fold ex; lia)).
      rewrite Hm5, (proj2 (Z.leb_le ex _)), (proj2 (Z.ltb_lt _ (ex + 60))) by lia. simpl.
      replace (nd + 40 + (ex + i - ex)) with (nd + (40 + i)) by lia. assert (within (nd + (40 + i)) nr) by (unfold within; fold nd; lia).
      rewrite (Hm4 nr), (Hm3 nr) by (done || (rewrite El3; by right)). apply Hin. lia.
    - pose proof (free_budget w5 nd (block_size fs)). fold w6 in H. assert (budget w5 = budget w4) by apply budget_set. lia. }
  assert (own w [file.1] file.1) as Hof by (left; by apply list_elem_of_singleton).
  destruct (walk_ok fs w [file.1] sz er dr file blocks (fun i => inode_byte fs ino (40 + i)) (budget w2 - 2) Hesz Hdsz G (conj Hsz Hfit) Hbl Hof
    (or_intror Hwd) (Hwd _ Hfile) (Hwe _ Hfile) Hed fuel w6 Hleaf Hc) as (w7 & E7 & Hc7).
  fold ex da in E7. rewrite E7.
  eexists. split; [done|]. destruct Hc7 as (HS7 & Hlf7 & _ & _ & Hby & _ & HB7). split_and!.
  - unfold free2. by apply since_free; [apply since_free|].
  - unfold free2. pose proof (free_budget w7 ex (block_size fs)). pose proof (free_budget (sys_dma_free w7 ex (block_size fs)) da (block_size fs)). lia.
  - intros i Hi. assert (within (file.1 + i) file) by (unfold within; lia). pose proof (Hwe _ Hfile). pose proof (Hwd _ Hfile).
    unfold free2. rewrite !(free_mem _ _ _ file) by (done || by apply free_keeps). apply Hby. lia.
Qed.

Lemma ext_read_file fuel fs w ino sz l file :
  geometry_ok fs -> inodes_ok fs -> file_at fs ino sz l -> sound w -> file ∈ live w -> sz <= file.2 -> 4 <= budget w ->
  exists w', read_file (S fuel) fs w ino file.1 = Done (Some sz) w' /\ since w w' [file.1] /\ budget w - 4 <= budget w' /\
    forall i, 0 <= i < sz -> mem w' (file.1 + i) = file_byte fs l i.
Proof.
  intros G HI HF Hsep Hfile Hfit Hbud. pose proof HF as (Hino & Hsz & Esz & Hfl & _). pose proof G as (Hbs & Hsec & _ & Hd).
  pose proof HI as (_ & _ & Hisz & _). assert (0 < block_size fs <= 2 ^ 16) as Hb by lia.
  unfold read_file.
  destruct (alloc_ok fs w (block_size fs) Hd Hsep Hb ltac:(lia)) as (nr & w1 & -> & -> & Hnsz & Hl1 & HS1 & Hf1 & _ & _ & Eb1 & _).
  assert (since w w1 [file.1]) as HS1' by (eapply since_trans; [by apply since_refl|done|set_solver]).
  destruct (ext_read_inode fs w w1 [file.1] ino nr G HI Hino HS1' Hl1) as (w2 & E2 & HS2 & Hb2 & Hk2 & Hin); [by right|done|lia|]. rewrite E2. set (nd := nr.1) in *.
  assert (forall o n, 0 <= o -> o + Z.of_nat n <= 128 -> le_at (mem w2) (nd + o) n = le_at (inode_byte fs ino) o n) as Hrd.
  { intros o n Ho Hn. apply le_at_shift. intros i Hi. rewrite <-Z.add_assoc. apply Hin. lia. }
  unfold r32. change (4 / 4 * 4) with 4. change (108 / 4 * 4) with 108. change (32 / 4 * 4) with 32. rewrite !Hrd by (simpl; lia).
  rewrite lor_shift by (apply (le_at_bound _ 4); intros; apply fs_byte_bound). rewrite Esz.
  assert (Z.land (le_at (inode_byte fs ino) 32 4) EXT4_EXTENTS_FL <> 0) as Hfl'.
  { intros E. apply (f_equal (fun z => Z.testbit z 19)) in E. by rewrite Z.land_spec, Hfl in E. }
  rewrite (proj2 (Z.eqb_neq sz 0)), (proj2 (Z.eqb_neq _ 0) Hfl') by lia. destruct (file_blocks fs ino sz l G HF) as [HFb Hbb].
  destruct (copy_node_ok fuel fs w w2 ino sz (blocks_of l) file nr) as (w' & E & HS & HB & Hby); [done..|lia|done|by apply Hk2|done|done| |].
  { intros i Hi. apply Hin. lia. }
  exists w'. split_and!; [done|done|lia|]. intros i Hi. rewrite Hby by done. by apply Hbb.
Qed.

(** ** Directories *)

(** The entries of a directory: inode, name, record length; laid out from [off] to the end. *)
Fixpoint dir_layout (b : Z -> Z) (dir_sz off : Z) (es : list (Z * list Z * Z)) : Prop :=
  match es with
  | [] => off = dir_sz
  | (ino, name, rl) :: es =>
    ino <> 0 /\ le_at b off 4 = ino /\ le_at b (off + 4) 2 = rl /\ b (off + 6) = Z.of_nat (length name) /\ rl mod 4 = 0 /\
    8 + Z.of_nat (length name) <= rl /\ (forall i c, name !! i = Some c -> b (off + 8 + Z.of_nat i) = c) /\
    dir_layout b dir_sz (off + rl) es
  end.

Fixpoint lookup_entry (es : list (Z * list Z * Z)) (name : list Z) : option Z :=
  match es with
  | [] => None
  | (ino, nm, _) :: es => if decide (nm = name) then Some ino else lookup_entry es name
  end.

Lemma dir_layout_le b dir_sz es : forall off, dir_layout b dir_sz off es -> off <= dir_sz.
Proof.
  induction es as [|[[ino nm] rl] es IH]; intros off; cbn [dir_layout]; [lia|]. intros (_ & _ & _ & _ & _ & ? & _ & H%IH). lia.
Qed.

Lemma name_matches_spec m p nm name : forall i,
  (forall j c, nm !! j = Some c -> m (p + i + Z.of_nat j) = c) -> length nm = length name ->
  name_matches m p name i = bool_decide (nm = name).
Proof.
  revert name. induction nm as [|c nm IH]; intros [|d name] i H Hl; try done. simpl.
  pose proof (H 0%nat c eq_refl) as H0. change (Z.of_nat 0) with 0 in H0. rewrite Z.add_0_r in H0. unfold r8. rewrite H0.
  destruct (Z.eqb_spec c d) as [->|Hne]; simpl; [|by rewrite bool_decide_eq_false_2 by congruence].
  rewrite (IH name (i + 1)); [|intros j x Hj; rewrite <-(H (S j) x Hj); f_equal; lia|by simplify_eq/=].
  apply bool_decide_ext. split; congruence.
Qed.

Lemma scan_dir_ok (m b : Z -> Z) scratch dir_sz name es : forall fuel off,
  (forall i, 0 <= i < dir_sz -> m (scratch + i) = b i) -> dir_layout b dir_sz off es -> 0 <= off -> off mod 4 = 0 ->
  (dir_sz - off) / 8 < Z.of_nat fuel -> scan_dir fuel m scratch dir_sz name off = lookup_entry es name.
Proof.
  induction es as [|[[ino nm] rl] es IH]; intros fuel off Hm HL Ho Hmod Hf; cbn [dir_layout] in HL.
  - destruct fuel; [done|]. simpl. subst off. by rewrite (proj2 (Z.leb_gt _ _)) by lia.
  - destruct HL as (Hi0 & Hino & Hrl & Hnl & Hrm & Hlen & Hname & HL). pose proof (dir_layout_le _ _ _ _ HL) as Hle.
    destruct fuel as [|fuel]; [div_lia|]. cbn [scan_dir]. rewrite (proj2 (Z.leb_le (off + 8) dir_sz)) by lia. cbn [negb].
    assert (forall o n, off <= o -> o + Z.of_nat n <= off + 8 -> le_at m (scratch + o) n = le_at b o n) as Hrd.
    { intros o n Ho1 Ho2. apply le_at_shift. intros i Hi. rewrite <-Z.add_assoc. apply Hm. lia. }
    unfold r32, r16. replace (off / 4 * 4) with off by div_lia. replace ((off + 4) / 2 * 2) with (off + 4) by div_lia.
    rewrite !Hrd by lia. rewrite Hino, Hrl. rewrite (proj2 (Z.eqb_neq ino 0)), (proj2 (Z.ltb_ge rl 8)) by (done || lia).
    unfold r8 at 1. rewrite Hm, Hnl by lia. cbn [lookup_entry].
    assert (scan_dir fuel m scratch dir_sz name (off + rl) = lookup_entry es name) as Hrest
      by (apply (IH fuel (off + rl)); [done|done|lia|div_lia|div_lia]).
    destruct (Z.eqb_spec (Z.of_nat (length nm)) (Z.of_nat (length name))) as [El|Hne]; cbn [andb].
    + rewrite (name_matches_spec m scratch nm name (off + 8)); [|intros j c Hj|lia].
      * case_bool_decide; [by rewrite decide_True|by rewrite decide_False].
      * pose proof (lookup_lt_Some _ _ _ Hj). rewrite <-(Hname j c Hj), <-Z.add_assoc. apply Hm. lia.
    + rewrite decide_False by congruence. done.
Qed.

(** A directory without deleted entries. *)
Definition dir_at fs (ino : Z) (es : list (Z * list Z * Z)) (sz : Z) (l : list Extent) : Prop :=
  file_at fs ino sz l /\ sz < 2 ^ 32 /\ dir_layout (file_byte fs l) sz 0 es.

Lemma find_in_dir_ok fuel fs w dir es dsz dl name scratch :
  geometry_ok fs -> inodes_ok fs -> dir_at fs dir es dsz dl -> sound w -> scratch ∈ live w -> dsz <= scratch.2 -> 4 <= budget w ->
  exists w', find_in_dir (S fuel) fs w dir name scratch.1 = Done (lookup_entry es name) w' /\ since w w' [scratch.1] /\ budget w - 4 <= budget w'.
Proof.
  intros G HI (HF & Hs32 & HL) Hsep Hsc Hfit Hbud. unfold find_in_dir.
  destruct (ext_read_file fuel fs w dir dsz dl scratch G HI HF Hsep Hsc Hfit Hbud) as (w' & -> & HS & HB & Hby).
  destruct HF as (_ & Hpos & _). rewrite (proj2 (Z.eqb_neq dsz 0)) by lia. exists w'. split; [|done]. f_equal.
  apply (scan_dir_ok _ (file_byte fs dl)); [done|done|done|done|]. rewrite Z.sub_0_r. div_lia.
Qed.

End ext4.
