(* ===== verification/Ext4Demo.v ===== *)
(** The ext4 driver on the IDE driver: the disk interface is implemented, and an image is served end to end.  What the driver
    does not handle. *)
From stdpp Require Import base tactics numbers list.
From Stdlib Require Import ZArith Lia.
From S2P Require Import Prelude IdeDrv IdeThms Ext4Drv Ext4Thms.
Import Sim.

Local Open Scope Z_scope.
Local Open Scope word_scope.
Set Default Proof Using "Type".

(** ** The IDE driver gives [DiskLaws] *)

(** What the kernel's DMA memory promises: [areas] are the buffers handed out and [room] is how many more there is memory for; new buffers
    are cleared, and no buffer in use is touched. *)
Class DmaLaws (A : Type) `{!DmaHeap A} := {
  areas : A -> list (Z * Z);
  room : A -> Z;
  areas_pos a r : r ∈ areas a -> 0 < r.2 /\ 0 < r.1 /\ r.1 + r.2 < 2 ^ 64;
  dma_alloc_ok m a n : 0 < n <= 2 ^ 16 -> 0 < room a ->
    exists r m' a', dma_alloc m a n = (r.1, m', a') /\ n <= r.2 /\ 0 < r.1 < U64_MAX /\ areas a' = r :: areas a /\ room a' = room a - 1 /\
      Forall (disjoint_areas r) (areas a) /\ (forall x, within x r -> m' x = 0) /\ forall q x, q ∈ areas a -> within x q -> m' x = m x;
  dma_free_mem m a p n q x : q ∈ areas a -> q.1 <> p -> within x q -> (dma_free m a p n).1 x = m x;
  dma_free_room m a p n : room a <= room (dma_free m a p n).2;
  dma_free_keeps m a p n r : r ∈ areas a -> r.1 <> p -> r ∈ areas (dma_free m a p n).2;
  dma_free_only m a p n r : r ∈ areas (dma_free m a p n).2 -> r ∈ areas a;
}.

Section service.
Context {D A : Type} `{!AtaDrive D, !DmaHeap A, !AtaLaws D, !DmaLaws A}.

(** Calls by name: the AHCI driver finds no controller and refuses. *)
#[export] Instance ide_service : DiskService (World D A) := {
  mem := pm;
  set_mem := fun w m => mkWorld m (dev w) (heap w);
  sys_driver_call := fun w name cmd a0 a1 a2 => match name with ide => ide_serve w cmd a0 a1 a2 | ahci => (U64_MAX, w) end;
  sys_dma_free := fun w p n => let '(m, a) := dma_free (pm w) (heap w) p n in mkWorld m (dev w) a;
}.

Lemma page_round n : 0 < n <= 2 ^ 16 -> let r := Z.land (n +u64 0xFFF) (not64 0xFFF) in n <= r <= 2 ^ 16 /\ Z.land (r +u64 0xFFF) (not64 0xFFF) = r.
Proof.
  intros Hn. cbn zeta. change (not64 0xFFF) with (not64 (2 ^ 12 - 1)).
  rewrite (wrap_small 64 (n + 0xFFF)) by lia. rewrite (land_not64 (n + 0xFFF)) by lia.
  rewrite wrap_small by div_lia. rewrite land_not64 by div_lia. div_lia.
Qed.

Lemma ide_alloc (w : World D A) n :
  0 < n <= 2 ^ 16 -> 0 < room (heap w) ->
  exists r w', ide_serve w 20 n 0 0 = (r.1, w') /\ dev w' = dev w /\ r.1 <> 0 /\ r.1 <> U64_MAX /\ n <= r.2 /\ areas (heap w') = r :: areas (heap w) /\
    room (heap w') = room (heap w) - 1 /\ Forall (disjoint_areas r) (areas (heap w)) /\
    forall q a, q ∈ areas (heap w) -> within a q -> pm w' a = pm w a.
Proof.
  intros Hn Hroom. destruct (page_round n Hn) as [Hr Hid].
  destruct (dma_alloc_ok (pm w) (heap w) _ (conj (Z.lt_le_trans _ _ _ (proj1 Hn) (proj1 Hr)) (proj2 Hr)) Hroom) as (r & m' & a' & E & Hsz & Hp & Ea & Er & Hd & _ & Hm).
  unfold ide_serve. cbn [Z.eqb Pos.eqb]. unfold ide_dma_alloc. rewrite Hid, E.
  exists r, (mkWorld m' (dev w) a').
  rewrite (proj2 (Z.eqb_neq r.1 0)), (proj2 (Z.eqb_neq r.1 _)) by lia. split_and!; [done|done|lia|lia|lia|done..].
Qed.

Lemma free_world (w : World D A) p n : sys_dma_free w p n = mkWorld (dma_free (pm w) (heap w) p n).1 (dev w) (dma_free (pm w) (heap w) p n).2.
Proof. cbn. by destruct (dma_free _ _ _ _). Qed.

#[export] Program Instance ide_disk : DiskLaws (World D A) := {
  disk := platter; nsectors := Z.min sectors (2 ^ 28); serving := ide;
  live := fun w => areas (heap w); budget := fun w => room (heap w);
  ready := fun w => phase (dev w) = Idle;
}.
Next Obligation. apply platter_byte. Qed.
Next Obligation. intros w r Hr. destruct (areas_pos _ r Hr). lia. Qed.
Next Obligation. lia. Qed.
Next Obligation. done. Qed.
Next Obligation. done. Qed.
Next Obligation. done. Qed.
Next Obligation. done. Qed.
Next Obligation.
  intros w s c r Hi Hr Hc Hn Hs Hsec. destruct (areas_pos _ r Hr) as (? & ? & ?).
  destruct (ide_sectors_read w s c r.1) as (d & m & E & Hi' & Hm); [done|lia..|].
  exists (mkWorld m d (heap w)). split_and!; [|done|done|done|by intros q a _ _]. simpl. unfold ide_serve. cbn [Z.eqb Pos.eqb].
  rewrite (wrap_small 16) by lia. rewrite (proj2 (Z.eqb_neq r.1 0)) by lia. cbn [negb].
  rewrite (proj2 (Z.eqb_neq r.1 0)), (proj2 (Z.eqb_neq r.1 _)) by (unfold U64_MAX; lia). cbn [orb]. by rewrite E.
Qed.
Next Obligation.
  intros w n Hi Hn Hroom. destruct (ide_alloc w n Hn Hroom) as (r & w' & E & Ed & H). exists r, w'. split; [done|]. split; [by rewrite Ed|done].
Qed.
Next Obligation. intros w p n. by rewrite free_world. Qed.
Next Obligation. intros w p n q a Hq Hp Ha. rewrite free_world. by apply (dma_free_mem (pm w) (heap w) p n q). Qed.
Next Obligation. intros. rewrite free_world. apply dma_free_room. Qed.
Next Obligation. intros w p n r Hr Hp. rewrite free_world. by apply dma_free_keeps. Qed.
Next Obligation. intros w p n r. rewrite free_world. apply dma_free_only. Qed.
End service.

(** The buffers of the example heap. *)
Fixpoint slots (n : nat) : list (Z * Z) := match n with O => [] | S n => slot n :: slots n end.

Lemma elem_slots n r : r ∈ slots n <-> exists i, (i < n)%nat /\ r = slot i.
Proof.
  induction n as [|n IH]; simpl.
  - split; [by intros ?%elem_of_nil|intros (i & ? & _); lia].
  - rewrite elem_of_cons, IH. split.
    + intros [->|(i & Hi & ->)]; [exists n|exists i]; split; (done || lia).
    + intros (i & Hi & ->). destruct (decide (i = n)) as [->|]; [by left|]. right. exists i. split; [lia|done].
Qed.

#[export] Program Instance bump_laws : DmaLaws nat := {
  areas := fun n => slots (Nat.min n 1000); room := fun n => 1000 - Z.of_nat n;
}.
Next Obligation. intros n r (i & Hi & ->)%elem_slots. unfold slot. simpl. lia. Qed.
Next Obligation.
  intros m n k Hk Hroom. exists (slot n), (cleared m (slot n)), (S n). cbn [dma_alloc bump_heap].
  rewrite (proj2 (Z.leb_le k _)), (proj2 (Z.ltb_lt (Z.of_nat n) 1000)) by lia. cbn [andb].
  rewrite (Nat.min_l n 1000), (Nat.min_l (S n) 1000) by lia. unfold U64_MAX. split_and!; [done|simpl; lia|simpl; lia|simpl; lia|done|lia| | |].
  - apply Forall_forall. intros r (i & Hi & ->)%elem_slots a Ha Hb. unfold within, slot in *. simpl in *. lia.
  - intros x Hx. unfold cleared, within in *. by rewrite (proj2 (Z.leb_le _ _)), (proj2 (Z.ltb_lt _ _)) by lia.
  - intros q x (i & Hi & ->)%elem_slots Hx. unfold cleared, within, slot in *. simpl in *.
    destruct (Z.leb_spec (0x100000 * (Z.of_nat n + 1)) x), (Z.ltb_spec x (0x100000 * (Z.of_nat n + 1) + 0x10000)); simpl; (done || lia).
Qed.
Next Obligation. done. Qed.
Next Obligation. done. Qed.
Next Obligation. done. Qed.
Next Obligation. done. Qed.

(** ** An image *)

Fixpoint bytes_of (n : nat) (v : Z) : list Z := match n with O => [] | S n => v mod 256 :: bytes_of n (v / 256) end.

(** The value of the first piece (offset, bytes) that holds an address, or of the function. *)
Fixpoint piece (ps : list (Z * list Z)) (f : Z -> Z) (a : Z) : Z :=
  match ps with
  | [] => f a
  | (o, bs) :: ps => if (o <=? a) && (a <? o + Z.of_nat (length bs)) then nth (Z.to_nat (a - o)) bs 0 else piece ps f a
  end.

(** An inode's fields: size, flag, and the root of the extent tree with leaf extents (logical block, length, first block). *)
Definition extent_bytes (e : Z * Z * Z) : list Z := let '(lb, len, start) := e in (bytes_of 4 lb ++ bytes_of 2 len ++ bytes_of 2 0 ++ bytes_of 4 start)%list.
Definition inode_pieces (at_ sz : Z) (es : list (Z * Z * Z)) : list (Z * list Z) :=
  [(at_ + 4, bytes_of 4 sz); (at_ + 32, bytes_of 4 0x80000);
   (at_ + 40, (bytes_of 2 0xF30A ++ bytes_of 2 (Z.of_nat (length es)) ++ bytes_of 2 4 ++ bytes_of 2 0 ++ bytes_of 4 0 ++ concat (map extent_bytes es))%list)].
Definition entry_bytes (ino : Z) (name : list Z) (rl : Z) : list Z :=
  (bytes_of 4 ino ++ bytes_of 2 rl ++ [Z.of_nat (length name); 1] ++ name)%list.

(** A file system with 1 KiB blocks: superblock, first group, root directory in block 8, and inode 12 as given.  Data starts at
    block 10. *)
Definition image (sz : Z) (es : list (Z * Z * Z)) (dir : list (Z * list Z)) : Z -> Z :=
  let ps := ([(1024 + 20, bytes_of 4 1); (1024 + 24, bytes_of 4 0); (1024 + 76, bytes_of 4 1); (1024 + 40, bytes_of 4 16); (1024 + 56, bytes_of 2 0xEF53); (1024 + 88, bytes_of 2 128);
              (2048 + 8, bytes_of 4 5)] ++ inode_pieces (5120 + 128) 1024 [(0, 1, 8)] ++ inode_pieces (5120 + 11 * 128) sz es ++ dir)%list in
  fun a => let o := a - 512 * PART_LBA in piece ps (fun o => if o <? 10240 then 0 else o * 3 mod 251) o.

Definition dot_entries : list (Z * list Z) := [(8192, entry_bytes 2 [46] 12); (8192 + 12, entry_bytes 2 [46; 46] 12)].
Definition demo_dir : list (Z * list Z) := (dot_entries ++ [(8192 + 24, entry_bytes 12 FILE_TXT 1000)])%list.
(** A file of 1500 bytes in blocks 10 and 20. *)
Definition demo_image : Z -> Z := image 1500 [(0, 1, 10); (1, 1, 20)] demo_dir.
Definition demo_fs : Fs := mkFs true PART_LBA 1024 2 16 128 2.

Definition fresh (img : Z -> Z) : World (Drive img) nat := mkWorld (fun _ => 0) (mkDrive (fun _ => 0) Idle) 0%nat.
(** Two buffers are in use. *)
Definition demo_w : World (Drive demo_image) nat := mkWorld (fun _ => 0) (mkDrive (fun _ => 0) Idle) 2%nat.

Definition demo_entries : list (Z * list Z * Z) := [(2, [46], 12); (2, [46; 46], 12); (12, FILE_TXT, 1000)].

Ltac bytes_evident := intros i c Hi; repeat (destruct i as [|i]; [simpl in Hi; injection Hi as <-; vm_compute; reflexivity|]); done.

Lemma demo_fs_ok : geometry_ok (W := World (Drive demo_image) nat) demo_fs /\ inodes_ok (W := World (Drive demo_image) nat) demo_fs.
Proof.
  split; [by vm_compute|]. unfold inodes_ok, describes, block_ok. split_and!; try by vm_compute. by exists 8.
Qed.

Definition demo_root_extents : list Extent := [mkExtent 0 1 false 8].
Definition demo_extents : list Extent := [mkExtent 0 1 false 10; mkExtent 1 1 false 20].

Lemma demo_file_ok ino sz l :
  (ino, sz, l) = (2, 1024, demo_root_extents) \/ (ino, sz, l) = (12, 1500, demo_extents) -> file_at (W := World (Drive demo_image) nat) demo_fs ino sz l.
Proof.
  intros [[= -> -> ->]|[= -> -> ->]]; unfold file_at, inode_ok, block_ok, leaf_extents; split_and!; try by vm_compute.
  all: cbn [plain_extents demo_root_extents demo_extents]; split_and!; by vm_compute.
Qed.

Lemma demo_dir_ok : dir_at (W := World (Drive demo_image) nat) demo_fs INODE_ROOT demo_entries 1024 demo_root_extents.
Proof.
  split; [apply demo_file_ok; by left|]. split; [done|]. unfold demo_entries. cbn [dir_layout].
  split_and!; match goal with |- forall _, _ => bytes_evident | |- _ => by vm_compute end.
Qed.

Lemma bump_separate (n : nat) : forall r q, r ∈ slots n -> q ∈ slots n -> r = q \/ disjoint_areas r q.
Proof.
  intros r q (i & _ & ->)%elem_slots (j & _ & ->)%elem_slots. destruct (decide (i = j)) as [->|Hne]; [by left|right].
  intros a Ha Hb. unfold within, slot in *. simpl in *. lia.
Qed.


(** The whole way, from the superblock: mounting through the IDE driver, command 1, command 2. *)
Theorem ext4_end_to_end :
  match ext4_start (fresh demo_image) with
  | (Some (fs, result, scratch), w) =>
    fs = demo_fs /\
    match ext4_serve 1 fs result scratch 0 w 1 with
    | Done (r, sz) w' => r = result /\ sz = 1500 /\ map (fun i => mem w' (result + i)) (seqZ 0 1500) =
        map (fun i => demo_image (512 * PART_LBA + if i <? 1024 then 10240 + i else 20480 + (i - 1024))) (seqZ 0 1500) /\
        match ext4_serve 1 fs result scratch sz w' 2 with Done (r, _) _ => r = 1500 | _ => False end
    | _ => False
    end
  | _ => False
  end.
Proof. vm_compute. repeat split. Qed.

(** ** What the driver does not handle *)

(** The answer to command 1 on an image: whether it is the result buffer, the size, and bytes of the buffer. *)
Definition answer (img : Z -> Z) (from n : Z) : option (bool * Z * list Z) :=
  match ext4_start (fresh img) with
  | (Some (fs, result, scratch), w) =>
    match ext4_serve 1 fs result scratch 0 w 1 with
    | Done (r, sz) w' => Some (r =? result, sz, map (fun i => mem w' (result + i)) (seqZ from n))
    | _ => None
    end
  | _ => None
  end.

(** Inodes of other block groups: the descriptor of group [g] is looked for [g] times the sectors of a block further instead of in the
    table of descriptors.  A file with inode 17, whose group has 16 inodes, is returned as empty. *)
Definition second_group : Z -> Z :=
  image 0 [] (dot_entries ++ (8192 + 24, entry_bytes 17 FILE_TXT 1000) :: (2048 + 32 + 8, bytes_of 4 30) :: inode_pieces (30 * 1024) 1500 [(0, 2, 40)])%list.
Theorem second_group_empty : answer second_group 0 0 = Some (true, 0, []).
Proof. by vm_compute. Qed.

(** The upper half of the table's block number is read from offset 24, which is a checksum, instead of 40: with a
    checksum there the file is not found. *)
Theorem checksum_taken_for_table : answer (image 1500 [(0, 2, 10)] (demo_dir ++ [(2048 + 24, bytes_of 2 1)])%list) 0 0 = Some (false, 0, []).
Proof. by vm_compute. Qed.

(** A deleted entry (inode 0) is skipped by 8 bytes instead of its record length: the entries after it are lost. *)
Definition after_deleted : Z -> Z :=
  image 1500 [(0, 2, 10)] (dot_entries ++ [(8192 + 24, entry_bytes 0 [111; 108; 100; 46; 116; 120; 116] 16); (8192 + 40, entry_bytes 12 FILE_TXT 984)])%list.
Theorem deleted_entry_hides_rest : answer after_deleted 0 0 = Some (false, 0, []).
Proof. by vm_compute. Qed.

(** Holes: the logical block of an extent is not looked at.  Block 1 of a file without block 0 is returned as its beginning. *)
Theorem hole_ignored :
  answer (image 1500 [(1, 1, 10)] demo_dir) 0 4 = Some (true, 1500, map (fun i => (10240 + i) * 3 mod 251) (seqZ 0 4)).
Proof. by vm_compute. Qed.

(** An extent not yet written is returned with what the disk holds instead of zeros. *)
Theorem unwritten_extent_returned :
  answer (image 1500 [(0, 0x8002, 10)] demo_dir) 0 4 = Some (true, 1500, map (fun i => (10240 + i) * 3 mod 251) (seqZ 0 4)).
Proof. by vm_compute. Qed.

(** The size is not compared with the result buffer of 4096 bytes: a file of 5000 bytes is written past its end. *)
Theorem result_overrun :
  answer (image 5000 [(0, 5, 10)] demo_dir) 4096 4 = Some (true, 5000, map (fun i => (10240 + 4096 + i) * 3 mod 251) (seqZ 0 4)).
Proof. by vm_compute. Qed.

(** An index block whose first entry names itself: the walk down the extent tree never ends. *)
Theorem extent_cycle_spins {W : Type} `{!DiskService W, !DiskLaws W} fs (w : W) sz dat file ext b fuel :
  geometry_ok fs -> sound w -> ext ∈ live w -> block_size fs <= ext.2 -> block_ok fs b ->
  le_at (fs_byte fs) (b * block_size fs) 2 = EXT4_EXTENT_MAGIC -> le_at (fs_byte fs) (b * block_size fs + 6) 2 <> 0 ->
  le_at (fs_byte fs) (b * block_size fs + 16) 4 = b -> le_at (fs_byte fs) (b * block_size fs + 20) 2 = 0 ->
  (forall i, 0 <= i < block_size fs -> mem w (ext.1 + i) = fs_byte fs (b * block_size fs + i)) ->
  walk fuel fs sz ext.1 dat file w = OutOfFuel.
Proof.
  intros G Hsep Hext Hsz Hb Hmag Hdep Hlo Hhi. revert w Hsep Hext. induction fuel as [|fuel IH]; intros w Hsep Hext Hin; [done|].
  pose proof G as (Hbs & Hsec & _). cbn [walk]. unfold r16, r32.
  change (0 / 2 * 2) with 0. change (2 / 2 * 2) with 2. change (6 / 2 * 2) with 6. change (16 / 4 * 4) with 16. change (20 / 2 * 2) with 20.
  assert (forall o n, 0 <= o -> o + Z.of_nat n <= 60 -> le_at (mem w) (ext.1 + o) n = le_at (fs_byte fs) (b * block_size fs + o) n) as Hrd
    by (intros o n Ho Hn; apply (read_at_most fs w b ext.1 n _ o Hin); lia).
  rewrite !Hrd by (simpl; lia). rewrite (Z.add_0_r (b * block_size fs)), Hmag, Hlo, Hhi. cbn [negb]. rewrite Z.eqb_refl. cbn [negb].
  rewrite (proj2 (Z.eqb_neq _ 0) Hdep). rewrite Z.shiftl_0_l, Z.lor_0_l.
  destruct (read_blk_ok fs w w [ext.1] b ext G (since_refl w _ Hsep) Hext) as (w' & -> & HS & El & _ & Hin' & _);
    [left; by apply list_elem_of_singleton|done..|]. cbn [negb].
  apply IH; [by apply (since_sound w w' _ HS)|by rewrite El|done].
Qed.
