(* ===== verification/AhciDrv.v ===== *)
(** The AHCI driver (src/drivers/src/bin/ahci.rs).

    The controller, PCI configuration space and the kernel's calls are the class [HbaHost] of operations on a world with
    physical memory; registers are read and written one at a time. *)
From stdpp Require Import base tactics numbers list.
From Stdlib Require Import ZArith Lia.
From S2P Require Import Prelude IdeDrv.

Local Open Scope Z_scope.
Local Open Scope word_scope.

Class HbaHost (W : Type) := {
  hmem : W -> Z -> Z;
  hset_mem : W -> (Z -> Z) -> W;
  mmio_read : W -> Z -> Z * W;
  mmio_write : W -> Z -> Z -> W;
  hba_dma_alloc : W -> Z -> Z * W;
  hba_dma_free : W -> Z -> Z -> W;
  hba_mmap_phys : W -> Z -> Z -> Z * W;
  sys_pci_read : W -> Z -> Z -> Z -> Z * W;
  sys_pci_write : W -> Z -> Z -> Z -> Z -> W;
}.

(** ** Registers *)

Definition HBA_GHC : Z := 0x04.
Definition HBA_CAP : Z := 0x00.
Definition HBA_PI : Z := 0x0C.
Definition HBA_GHCR_HR : Z := 1.
Definition PORT_BASE : Z := 0x100.
Definition PORT_SIZE : Z := 0x80.
Definition PORT_CLB : Z := 0x00.
Definition PORT_CLBU : Z := 0x04.
Definition PORT_FB : Z := 0x08.
Definition PORT_FBU : Z := 0x0C.
Definition PORT_IE : Z := 0x14.
Definition PORT_CMD : Z := 0x18.
Definition PORT_SIG : Z := 0x24.
Definition PORT_SSTS : Z := 0x28.
Definition PORT_CI : Z := 0x38.
Definition CMD_ST : Z := 1.
Definition CMD_FRE : Z := Z.shiftl 1 4.
Definition CMD_POD : Z := Z.shiftl 1 2.
Definition CMD_SUD : Z := Z.shiftl 1 1.
Definition CMD_FR : Z := Z.shiftl 1 14.
Definition CMD_CR : Z := Z.shiftl 1 15.
Definition SIG_ATA : Z := 0x00000101.
Definition SIG_ATAPI : Z := 0xEB140101.
Definition ATA_CMD_READ_DMA_EXT : Z := 0x25.
Definition ATA_CMD_WRITE_DMA_EXT : Z := 0x35.

(** Complement of a 32-bit word. *)
Definition not32 (z : Z) : Z := Z.lxor z U32_MAX.

(** A 32-bit value in memory, low byte first. *)
Definition store32 (m : Z -> Z) (p v : Z) : Z -> Z :=
  fun a => if (p <=? a) && (a <? p + 4) then Z.land (Z.shiftr v (8 * (a - p))) 0xFF else m a.
Definition store8 (m : Z -> Z) (p v : Z) : Z -> Z := fun a => if a =? p then v else m a.

(** ** The command *)

Definition prdt_entries (count : Z) : Z :=
  let byte_count := count * 512 in
  let prdt_count := wrap 16 ((byte_count + 0x1FFFFF) / 0x200000) in
  if prdt_count =? 0 then 1 else prdt_count.

(** The last word of entry [i]: the byte count less one, and the interrupt bit. *)
Definition prdt_dbc (count n i : Z) : Z :=
  let dma_offset := i * 0x200000 in
  Z.lor (if i =? n - 1 then
           let last := saturating_sub (count * 512) dma_offset in
           if last =? 0 then 0x1FFFFF else if last >? 0x200000 then 0x1FFFFF else wrap 32 (last - 1)
         else 0x1FFFFF) 0x80000000.

Definition write_prdt (m : Z -> Z) (ct dma_phys count n i : Z) : Z -> Z :=
  let prdt_base := ct + 128 + i * 16 in
  let dba := dma_phys +u64 (i * 0x200000) in
  let m := store32 m prdt_base (wrap 32 dba) in
  let m := store32 m (prdt_base + 4) (wrap 32 (Z.shiftr dba 32)) in
  let m := store32 m (prdt_base + 8) 0 in
  store32 m (prdt_base + 12) (prdt_dbc count n i).

Definition write_header (m : Z -> Z) (hdr ct n : Z) (write : bool) : Z -> Z :=
  let m := fold_left (fun m i => store32 m (hdr + 4 * i) 0) (seqZ 0 32) m in
  let w := Z.lor (Z.lor 5 (Z.shiftl n 16)) (if write then 0x40 else 0) in
  let m := store32 m hdr w in
  let m := store32 m (hdr + 4) 0 in
  let m := store32 m (hdr + 8) (wrap 32 ct) in
  let m := store32 m (hdr + 12) (wrap 32 (Z.shiftr ct 32)) in
  let m := store32 m (hdr + 16) 0 in
  store32 m (hdr + 20) 0.

(** The bytes of the command FIS, by offset; byte 14 is not written. *)
Definition fis_bytes (sector count : Z) (write : bool) : list (Z * Z) :=
  [(0, 0x27); (1, 0x80); (2, if write then ATA_CMD_WRITE_DMA_EXT else ATA_CMD_READ_DMA_EXT); (3, 0);
   (4, Z.land sector 0xFF); (5, Z.land (Z.shiftr sector 8) 0xFF); (6, Z.land (Z.shiftr sector 16) 0xFF); (7, 0x40);
   (8, Z.land (Z.shiftr sector 24) 0xFF); (9, Z.land (Z.shiftr sector 32) 0xFF); (10, Z.land (Z.shiftr sector 40) 0xFF); (11, 0);
   (12, Z.land count 0xFF); (13, Z.land (Z.shiftr count 8) 0xFF); (15, 0)].
Definition write_fis (m : Z -> Z) (ct sector count : Z) (write : bool) : Z -> Z :=
  fold_left (fun m e => store8 m (ct + e.1) e.2) (fis_bytes sector count write) m.

Definition build_command (m : Z -> Z) (hdr ct sector count dma_phys : Z) (write : bool) : Z -> Z :=
  let n := prdt_entries count in
  let m := write_header m hdr ct n write in
  let m := fold_left (fun m i => write_prdt m ct dma_phys count n i) (seqZ 0 n) m in
  write_fis m ct sector count write.

Section ahci.
Context {W : Type} `{!HbaHost W}.
Implicit Types (wd : W).

Definition mmio_read32 wd (base offset : Z) : Z * W := mmio_read wd (base + offset / 4 * 4).
Definition mmio_write32 wd (base offset val : Z) : W := mmio_write wd (base + offset / 4 * 4) val.
Definition mmio_or32 wd (base offset bits : Z) : W :=
  let '(v, wd) := mmio_read32 wd base offset in mmio_write32 wd base offset (Z.lor v bits).
Definition mmio_and32 wd (base offset bits : Z) : W :=
  let '(v, wd) := mmio_read32 wd base offset in mmio_write32 wd base offset (Z.land v bits).

(** One round of the waiting loops. *)
Definition check_bits (want : bool) (base offset mask : Z) wd : W + W :=
  let '(v, wd) := mmio_read32 wd base offset in
  if Bool.eqb (negb (Z.land v mask =? 0)) want then inl wd else inr wd.
Definition wait_while wd (base offset mask : Z) (timeout : positive) : bool * W :=
  match rounds timeout (check_bits false base offset mask) wd with inl wd => (true, wd) | inr wd => (false, wd) end.
Definition wait_until wd (base offset mask : Z) (timeout : positive) : bool * W :=
  match rounds timeout (check_bits true base offset mask) wd with inl wd => (true, wd) | inr wd => (false, wd) end.

(** ** Finding the controller *)

Definition bdf_of (bus dev func : Z) : Z := Z.lor (Z.lor (Z.shiftl bus 20) (Z.shiftl dev 15)) (Z.shiftl func 12).

(** The functions of a device from [func] on. *)
Fixpoint scan_functions (n : nat) wd (bus dev func : Z) : option Z * W :=
  match n with
  | O => (None, wd)
  | S n =>
    let bdf := bdf_of bus dev func in
    let '(vd, wd) := sys_pci_read wd bdf 0 4 in
    if (vd =? 0) || (vd =? 0xFFFFFFFF) then
      if func =? 0 then (None, wd) else scan_functions n wd bus dev (func + 1)
    else
      let '(class, wd) := sys_pci_read wd bdf 8 4 in
      let class_code := wrap 8 (Z.shiftr class 24) in
      let subclass := Z.land (Z.shiftr class 16) 0xFF in
      if (class_code =? 0x01) && (subclass =? 0x06) then (Some bdf, wd) else scan_functions n wd bus dev (func + 1)
  end.

Fixpoint scan_devices (n : nat) wd (bus dev : Z) : option Z * W :=
  match n with
  | O => (None, wd)
  | S n =>
    match scan_functions 8 wd bus dev 0 with
    | (Some bdf, wd) => (Some bdf, wd)
    | (None, wd) => scan_devices n wd bus (dev + 1)
    end
  end.
(** Bus 0 only. *)
Definition find_ahci_bdf wd : option Z * W := scan_devices 32 wd 0 0.

Definition get_bar5 wd (bdf : Z) : Z * W :=
  let '(low, wd) := sys_pci_read wd bdf 0x24 4 in
  let '(high, wd) := sys_pci_read wd bdf 0x28 4 in
  (Z.lor (Z.land low (not64 0xF)) (wrap 64 (Z.shiftl high 32)), wd).

Definition pci_enable_bus_master wd (bdf : Z) : W :=
  let '(cmd, wd) := sys_pci_read wd bdf 4 2 in sys_pci_write wd bdf 4 2 (Z.lor cmd 0x6).

(** ** Initialisation *)

(** [if phys == 0 || phys == !0] *)
Definition no_memory (p : Z) : bool := (p =? 0) || (p =? U64_MAX).

Definition init_port wd (port : Z) : bool * W :=
  let wd := mmio_or32 wd port PORT_CMD (Z.lor CMD_POD CMD_SUD) in
  let '(up, wd) := wait_until wd port PORT_SSTS 0x0F 10000 in
  if negb up then (false, mmio_and32 wd port PORT_CMD (not32 CMD_POD))
  else
    let wd := mmio_and32 wd port PORT_CMD (not32 CMD_ST) in
    let '(_, wd) := wait_while wd port PORT_CMD CMD_CR 1000 in
    let wd := mmio_and32 wd port PORT_CMD (not32 CMD_FRE) in
    let '(_, wd) := wait_while wd port PORT_CMD CMD_FR 1000 in
    let '(clb_phys, wd) := hba_dma_alloc wd 1024 in
    if no_memory clb_phys then (false, wd)
    else
      let wd := mmio_write32 wd port PORT_CLB (wrap 32 clb_phys) in
      let wd := mmio_write32 wd port PORT_CLBU (wrap 32 (Z.shiftr clb_phys 32)) in
      let '(fb_phys, wd) := hba_dma_alloc wd 256 in
      if no_memory fb_phys then (false, wd)
      else
        let wd := mmio_write32 wd port PORT_FB (wrap 32 fb_phys) in
        let wd := mmio_write32 wd port PORT_FBU (wrap 32 (Z.shiftr fb_phys 32)) in
        let wd := mmio_write32 wd port PORT_IE 0 in
        let wd := mmio_or32 wd port PORT_CMD CMD_FRE in
        let wd := mmio_or32 wd port PORT_CMD CMD_ST in
        (true, wd).

Definition is_disk_sig (sig : Z) : bool := (sig =? SIG_ATA) || (sig =? SIG_ATAPI).

(** The ports [p ..], with whether one was found so far. *)
Fixpoint init_ports (n : nat) wd (abar pi p : Z) (found : bool) : bool * W :=
  match n with
  | O => (found, wd)
  | S n =>
    if Z.land pi (Z.shiftl 1 p) =? 0 then init_ports n wd abar pi (p + 1) found
    else
      let port_base := abar + PORT_BASE + p * PORT_SIZE in
      let '(sig, wd) := mmio_read32 wd port_base PORT_SIG in
      if is_disk_sig sig then
        let '(ok, wd) := init_port wd port_base in init_ports n wd abar pi (p + 1) (found || ok)
      else init_ports n wd abar pi (p + 1) found
  end.

Definition ahci_init wd (abar : Z) : bool * W :=
  let '(cap, wd) := mmio_read32 wd abar HBA_CAP in
  let n_ports := Z.land (Z.shiftr cap 8) 0x1F + 1 in
  let '(pi, wd) := mmio_read32 wd abar HBA_PI in
  let wd := mmio_write32 wd abar HBA_GHC HBA_GHCR_HR in
  let '(ok, wd) := wait_while wd abar HBA_GHC HBA_GHCR_HR 10000 in
  if negb ok then (false, wd)
  else
    let wd := mmio_write32 wd abar HBA_GHC 0 in
    let '(ok, wd) := wait_while wd abar HBA_GHC HBA_GHCR_HR 10000 in
    if negb ok then (false, wd)
    else
      let wd := mmio_or32 wd abar HBA_GHC (Z.shiftl 1 31) in
      init_ports (Z.to_nat n_ports) wd abar pi 0 false.

(** The first port with a disk, or 0. *)
Fixpoint first_port (n : nat) wd (abar pi p : Z) : Z * W :=
  match n with
  | O => (0, wd)
  | S n =>
    if Z.land pi (Z.shiftl 1 p) =? 0 then first_port n wd abar pi (p + 1)
    else
      let pb := abar + PORT_BASE + p * PORT_SIZE in
      let '(ssts, wd) := mmio_read32 wd pb PORT_SSTS in
      if Z.land ssts 0x0F =? 0x03 then
        let '(sig, wd) := mmio_read32 wd pb PORT_SIG in
        if is_disk_sig sig then (pb, wd) else first_port n wd abar pi (p + 1)
      else first_port n wd abar pi (p + 1)
  end.

(** From the start to the command loop: the port, or [None] for the loop that refuses everything. *)
Definition ahci_start wd : option Z * W :=
  match find_ahci_bdf wd with
  | (None, wd) => (None, wd)
  | (Some bdf, wd) =>
    let wd := pci_enable_bus_master wd bdf in
    let '(abar_phys, wd) := get_bar5 wd bdf in
    if abar_phys =? 0 then (None, wd)
    else
      let '(abar_virt, wd) := hba_mmap_phys wd abar_phys 0x10000 in
      if no_memory abar_virt then (None, wd)
      else
        let '(ok, wd) := ahci_init wd abar_virt in
        if negb ok then (None, wd)
        else
          let '(pi, wd) := mmio_read32 wd abar_virt HBA_PI in
          let '(port_base, wd) := first_port 32 wd abar_virt pi 0 in
          (if port_base =? 0 then None else Some port_base, wd)
  end.

(** ** Commands *)

Definition ahci_op wd (port_base sector count dma_phys : Z) (write : bool) : bool * W :=
  let '(clb_low, wd) := mmio_read32 wd port_base PORT_CLB in
  let '(clb_high, wd) := mmio_read32 wd port_base PORT_CLBU in
  let clb_phys := Z.lor clb_low (wrap 64 (Z.shiftl clb_high 32)) in
  let '(ct_phys, wd) := hba_dma_alloc wd 256 in
  if no_memory ct_phys then (false, wd)
  else
    let wd := hset_mem wd (build_command (hmem wd) clb_phys ct_phys sector count dma_phys write) in
    let wd := mmio_write32 wd port_base PORT_CI 1 in
    let '(ok, wd) := wait_while wd port_base PORT_CI 1 1000000 in
    (ok, hba_dma_free wd ct_phys 256).

Definition ahci_read wd (port_base sector count dma_phys : Z) : bool * W := ahci_op wd port_base sector count dma_phys false.
Definition ahci_write wd (port_base sector count dma_phys : Z) : bool * W := ahci_op wd port_base sector count dma_phys true.

(** One message: the response and the world after it. *)
Definition ahci_serve wd (port_base cmd arg0 arg1 arg2 : Z) : Z * W :=
  if cmd =? 10 then
    let sector := arg0 in
    let count := wrap 16 arg1 in
    let '(dma_phys, wd) := if negb (arg2 =? 0) then (arg2, wd) else hba_dma_alloc wd (Z.land (count * 512 + 0xFFF) (not64 0xFFF)) in
    if no_memory dma_phys then (U64_MAX, wd)
    else
      match ahci_read wd port_base sector count dma_phys with
      | (true, wd) => (dma_phys, wd)
      | (false, wd) => (U64_MAX, wd)
      end
  else if cmd =? 11 then
    let sector := arg0 in
    let count := wrap 16 arg1 in
    let dma_phys := arg2 in
    if no_memory dma_phys then (U64_MAX, wd)
    else
      match ahci_write wd port_base sector count dma_phys with
      | (true, wd) => (0, wd)
      | (false, wd) => (U64_MAX, wd)
      end
  else if cmd =? 20 then
    let size := Z.land (arg0 +u64 0xFFF) (not64 0xFFF) in
    let '(phys, wd) := hba_dma_alloc wd size in
    if no_memory phys then (U64_MAX, wd) else (phys, wd)
  else (U64_MAX, wd).
End ahci.
