(* ===== verification/AhciThms.v ===== *)
(** The AHCI driver: the command it builds is the one that was asked for, reads are correct, and the controller is
    never found.  The decoding of commands is that of the AHCI specification. *)
From stdpp Require Import base tactics numbers list.
From Stdlib Require Import ZArith Lia.
From S2P Require Import Prelude IdeDrv IdeThms AhciDrv Ext4Drv Ext4Thms.

Local Open Scope Z_scope.
Local Open Scope word_scope.
Set Default Proof Using "Type".

(** ** What a controller reads from memory *)

(** A command: direction, first sector, number of sectors, and the memory regions in order. *)
Record Command := mkCommand { c_write : bool; c_lba : Z; c_count : Z; c_regions : list (Z * Z) }.

Definition ld32 (m : Z -> Z) (p : Z) : Z := le_at m p 4.

Definition decode (m : Z -> Z) (clb : Z) : option Command :=
  let dw0 := ld32 m clb in
  let ct := ld32 m (clb + 8) + ld32 m (clb + 12) * 2 ^ 32 in
  let write := Z.testbit dw0 6 in
  if (dw0 mod 32 =? 5) && (m ct =? 0x27) && Z.testbit (m (ct + 1)) 7 && (m (ct + 2) =? if write then 0x35 else 0x25) then
    let lba := m (ct + 4) + m (ct + 5) * 2 ^ 8 + m (ct + 6) * 2 ^ 16 + m (ct + 8) * 2 ^ 24 + m (ct + 9) * 2 ^ 32 + m (ct + 10) * 2 ^ 40 in
    let c := m (ct + 12) + m (ct + 13) * 2 ^ 8 in
    Some (mkCommand write lba (if c =? 0 then 65536 else c)
      (map (fun i => let e := ct + 128 + 16 * i in (ld32 m e + ld32 m (e + 4) * 2 ^ 32, ld32 m (e + 12) mod 2 ^ 22 + 1)) (seqZ 0 (dw0 / 2 ^ 16))))
  else None.

(** ** Words in memory *)

Lemma byte_of_word v o : 0 <= o -> Z.land (Z.shiftr v (8 * o)) 0xFF = (v / 2 ^ (8 * o)) mod 256.
Proof. intros Ho. change 0xFF with (Z.ones 8). by rewrite Z.land_ones, Z.shiftr_div_pow2 by lia. Qed.

Lemma ld32_word f p v : 0 <= v < 2 ^ 32 -> (forall o, 0 <= o < 4 -> f (p + o) = (v / 2 ^ (8 * o)) mod 256) -> ld32 f p = v.
Proof.
  intros Hv H. unfold ld32. cbn [le_at].
  replace (p + 1 + 1 + 1) with (p + 3) by lia. replace (p + 1 + 1) with (p + 2) by lia.
  rewrite <-(Z.add_0_r p) at 1. rewrite !H by lia. simpl (8 * _).
  change (2 ^ 0) with 1. div_lia.
Qed.

Lemma store32_in m p v o : 0 <= o < 4 -> store32 m p v (p + o) = (v / 2 ^ (8 * o)) mod 256.
Proof.
  intros Ho. unfold store32. rewrite (proj2 (Z.leb_le _ _)), (proj2 (Z.ltb_lt _ _)) by lia. cbn [andb].
  replace (p + o - p) with o by lia. apply byte_of_word. lia.
Qed.

Lemma store32_out m p v a : ~ (p <= a < p + 4) -> store32 m p v a = m a.
Proof. intros H. unfold store32. destruct (Z.leb_spec p a), (Z.ltb_spec a (p + 4)); simpl; (done || lia). Qed.

(** ** The parts of the command *)

Lemma write_fis_out m ct s c wr a : ~ (ct <= a < ct + 16) -> write_fis m ct s c wr a = m a.
Proof.
  intros H. unfold write_fis, fis_bytes. cbn [fold_left fst snd]. unfold store8.
  repeat match goal with |- context [a =? ?x] => rewrite (proj2 (Z.eqb_neq a x)) by lia end. done.
Qed.

Lemma eqb_add_l x a b : (x + a =? x + b) = (a =? b).
Proof. destruct (Z.eqb_spec (x + a) (x + b)), (Z.eqb_spec a b); (done || lia). Qed.

(** Byte [k] of the FIS. *)
Definition fis_at (s c : Z) (wr : bool) (k : Z) : Z := default 0 (snd <$> find (fun e => e.1 =? k) (fis_bytes s c wr)).

Lemma write_fis_in m ct s c wr k : 0 <= k < 16 -> k <> 14 -> write_fis m ct s c wr (ct + k) = fis_at s c wr k.
Proof.
  intros Hk Hk14. unfold write_fis, fis_bytes. cbn [fold_left fst snd]. unfold store8. rewrite !eqb_add_l.
  assert (k = 0 \/ k = 1 \/ k = 2 \/ k = 3 \/ k = 4 \/ k = 5 \/ k = 6 \/ k = 7 \/ k = 8 \/ k = 9 \/ k = 10 \/ k = 11 \/ k = 12 \/ k = 13 \/ k = 15) as Hc by lia.
  by repeat (destruct Hc as [->|Hc]); [..|subst k].
Qed.

(** Byte [o] of entry [i] of the region table. *)
Definition prdt_byte (dma count n i o : Z) : Z :=
  let dba := dma +u64 (i * 0x200000) in
  let v := if o <? 4 then wrap 32 dba else if o <? 8 then wrap 32 (Z.shiftr dba 32) else if o <? 12 then 0 else prdt_dbc count n i in
  (v / 2 ^ (8 * (o mod 4))) mod 256.

Lemma write_prdt_byte m ct dma count n i a :
  write_prdt m ct dma count n i a =
    if (ct + 128 + i * 16 <=? a) && (a <? ct + 128 + i * 16 + 16) then prdt_byte dma count n i (a - (ct + 128 + i * 16)) else m a.
Proof.
  unfold write_prdt. set (e := ct + 128 + i * 16). destruct (Z.leb_spec e a), (Z.ltb_spec a (e + 16)); cbn [andb].
  2-4: by rewrite !store32_out by lia.
  set (o := a - e). replace a with (e + o) by lia. unfold prdt_byte.
  destruct (Z.ltb_spec o 4); [|destruct (Z.ltb_spec o 8); [|destruct (Z.ltb_spec o 12)]].
  - rewrite (store32_out _ (e + 12)), (store32_out _ (e + 8)), (store32_out _ (e + 4)) by lia.
    rewrite store32_in by lia. by rewrite (Z.mod_small o 4) by lia.
  - rewrite (store32_out _ (e + 12)), (store32_out _ (e + 8)) by lia. replace (e + o) with (e + 4 + (o - 4)) by lia.
    rewrite store32_in by lia. replace (o mod 4) with (o - 4) by div_lia. done.
  - rewrite (store32_out _ (e + 12)) by lia. replace (e + o) with (e + 8 + (o - 8)) by lia.
    rewrite store32_in by lia. replace (o mod 4) with (o - 8) by div_lia. done.
  - replace (e + o) with (e + 12 + (o - 12)) by lia. rewrite store32_in by lia. by replace (o mod 4) with (o - 12) by div_lia.
Qed.

Lemma prdt_fold_byte m ct dma count n k a :
  fold_left (fun m i => write_prdt m ct dma count n i) (seqZ 0 (Z.of_nat k)) m a =
    if (ct + 128 <=? a) && (a <? ct + 128 + 16 * Z.of_nat k)
    then prdt_byte dma count n ((a - (ct + 128)) / 16) ((a - (ct + 128)) mod 16) else m a.
Proof.
  revert a. induction k as [|k IH]; intros a.
  - simpl. destruct (Z.leb_spec (ct + 128) a), (Z.ltb_spec a (ct + 128 + 16 * Z.of_nat 0)); cbn [andb]; (done || lia).
  - rewrite seqZ_S, fold_left_app. cbn [fold_left]. rewrite write_prdt_byte, IH, Z.add_0_l.
    destruct (Z.leb_spec (ct + 128 + Z.of_nat k * 16) a), (Z.ltb_spec a (ct + 128 + Z.of_nat k * 16 + 16)),
      (Z.leb_spec (ct + 128) a), (Z.ltb_spec a (ct + 128 + 16 * Z.of_nat k)), (Z.ltb_spec a (ct + 128 + 16 * Z.of_nat (S k))); cbn [andb]; try (done || lia).
    f_equal; div_lia.
Qed.

Lemma prdt_table_byte m ct dma count n k a : 0 <= k ->
  fold_left (fun m i => write_prdt m ct dma count n i) (seqZ 0 k) m a =
    if (ct + 128 <=? a) && (a <? ct + 128 + 16 * k)
    then prdt_byte dma count n ((a - (ct + 128)) / 16) ((a - (ct + 128)) mod 16) else m a.
Proof. intros Hk. rewrite <-(Z2Nat.id k) by done. apply prdt_fold_byte. Qed.

Lemma clear_fold_out m hdr l a : (forall i, i ∈ l -> ~ (hdr + 4 * i <= a < hdr + 4 * i + 4)) ->
  fold_left (fun m i => store32 m (hdr + 4 * i) 0) l m a = m a.
Proof.
  revert m. induction l as [|i l IH]; intros m H; simpl; [done|]. rewrite IH by (intros j Hj; apply H; by right).
  apply store32_out. apply H. by left.
Qed.

Lemma write_header_out m hdr ct n wr a : ~ (hdr <= a < hdr + 128) -> write_header m hdr ct n wr a = m a.
Proof.
  intros H. unfold write_header. rewrite !store32_out by lia. apply clear_fold_out.
  intros i [??]%elem_of_seqZ. lia.
Qed.

Lemma header_words m hdr ct n wr :
  0 <= ct < 2 ^ 64 -> let w := write_header m hdr ct n wr in let v := Z.lor (Z.lor 5 (Z.shiftl n 16)) (if wr then 0x40 else 0) in
  0 <= v < 2 ^ 32 -> ld32 w hdr = v /\ ld32 w (hdr + 8) = ct mod 2 ^ 32 /\ ld32 w (hdr + 12) = ct / 2 ^ 32.
Proof.
  intros Hct w v Hv. unfold w, write_header. fold v. split_and!; apply ld32_word.
  - done.
  - intros o Ho. rewrite (store32_out _ (hdr + 20)), (store32_out _ (hdr + 16)), (store32_out _ (hdr + 12)), (store32_out _ (hdr + 8)), (store32_out _ (hdr + 4)) by lia.
    by apply store32_in.
  - div_lia.
  - intros o Ho. rewrite (store32_out _ (hdr + 20)), (store32_out _ (hdr + 16)), (store32_out _ (hdr + 12)) by lia. by apply store32_in.
  - div_lia.
  - intros o Ho. rewrite (store32_out _ (hdr + 20)), (store32_out _ (hdr + 16)) by lia. rewrite store32_in by lia.
    unfold wrap. rewrite Z.shiftr_div_pow2 by lia. rewrite (Z.mod_small (ct / 2 ^ 32)); [done|div_lia].
Qed.

(** The number of regions, and the first word of the header. *)
Lemma prdt_entries_count count : 0 < count < 2 ^ 16 -> prdt_entries count = (count * 512 + 0x1FFFFF) / 0x200000 /\ 1 <= prdt_entries count <= 16.
Proof.
  intros Hc. unfold prdt_entries. rewrite wrap_small by div_lia.
  assert (1 <= (count * 512 + 0x1FFFFF) / 0x200000 <= 16) by div_lia. by rewrite (proj2 (Z.eqb_neq _ 0)) by lia.
Qed.

Lemma header_word n wr : 1 <= n <= 16 -> Z.lor (Z.lor 5 (Z.shiftl n 16)) (if wr : bool then 0x40 else 0) = n * 2 ^ 16 + (if wr then 69 else 5).
Proof.
  intros Hn. assert (exists k : nat, (k < 17)%nat /\ n = Z.of_nat k) as (k & Hk & ->) by (exists (Z.to_nat n); lia).
  do 17 (destruct k as [|k]; [by destruct wr|]). lia.
Qed.

(** The bytes of a region. *)
Lemma prdt_dbc_value count i :
  0 < count < 2 ^ 16 -> 0 <= i < prdt_entries count ->
  0 <= prdt_dbc count (prdt_entries count) i < 2 ^ 32 /\
  prdt_dbc count (prdt_entries count) i mod 2 ^ 22 + 1 = Z.min (2 ^ 21) (count * 512 - i * 2 ^ 21).
Proof.
  intros Hc Hi. destruct (prdt_entries_count count Hc) as [En Hn]. unfold prdt_dbc, saturating_sub.
  set (x := if i =? _ then _ else _). assert (x = Z.min (2 ^ 21) (count * 512 - i * 2 ^ 21) - 1) as Hx.
  { unfold x. destruct (Z.eqb_spec i (prdt_entries count - 1)) as [Ei|Hne].
    - rewrite Z.max_l by div_lia. rewrite (proj2 (Z.eqb_neq _ 0)) by div_lia.
      destruct (Z.gtb_spec (count * 512 - i * 0x200000) 0x200000); [div_lia|]. rewrite wrap_small; div_lia.
    - rewrite Z.min_l; [done|]. div_lia. }
  assert (0 <= x < 2 ^ 21) as Hxb by div_lia.
  assert (Z.lor x 0x80000000 = x + 2 ^ 31) as ->.
  { pose proof (Z.add_lor_land x 0x80000000). assert (Z.land x 0x80000000 = 0) as E; [|lia].
    apply Z.bits_inj'. intros k Hk. rewrite Z.land_spec, Z.bits_0. change 0x80000000 with (2 ^ 31). rewrite Z.pow2_bits_eqb by lia.
    destruct (Z.eqb_spec 31 k) as [<-|]; [|by rewrite andb_false_r].
    rewrite <-(Z.mod_small x (2 ^ 21)) by lia. by rewrite Z.mod_pow2_bits_high by lia. }
  split; [lia|]. div_lia.
Qed.

(** Contiguous regions of two megabytes that make up [total] bytes. *)
Definition tiles (dma total : Z) : list (Z * Z) :=
  map (fun i => (dma + i * 2 ^ 21, Z.min (2 ^ 21) (total - i * 2 ^ 21))) (seqZ 0 ((total + (2 ^ 21 - 1)) / 2 ^ 21)).

Definition apart_areas (p n q k : Z) : Prop := forall a, p <= a < p + n -> q <= a < q + k -> False.

Section command.
Context (m : Z -> Z) (clb ct sector count dma : Z) (wr : bool).
Context (Hcount : 0 < count < 2 ^ 16) (Hct : 0 <= ct < 2 ^ 64) (Hapart : apart_areas clb 128 ct 384).
Context (Hsector : 0 <= sector < 2 ^ 48) (Hdma : 0 <= dma) (Hdma' : dma + 512 * count < 2 ^ 64).
Local Notation built := (build_command m clb ct sector count dma wr).

Lemma built_header p : 0 <= p -> p + 4 <= 128 -> ld32 built (clb + p) = ld32 (write_header m clb ct (prdt_entries count) wr) (clb + p).
Proof using Hcount Hapart.
  intros Hp Hp'. apply le_at_ext. intros a Ha. simpl in Ha. unfold build_command.
  destruct (prdt_entries_count count Hcount) as [_ Hn].
  assert (~ (ct <= a < ct + 384)) as Hout by (intros Hx; apply (Hapart a); lia).
  rewrite write_fis_out by lia. rewrite prdt_table_byte by lia.
  destruct (Z.leb_spec (ct + 128) a), (Z.ltb_spec a (ct + 128 + 16 * prdt_entries count)); cbn [andb]; (done || lia).
Qed.

Lemma built_fis k : 0 <= k < 16 -> k <> 14 -> built (ct + k) = fis_at sector count wr k.
Proof. intros. by apply write_fis_in. Qed.

Lemma built_prdt i j : 0 <= i < prdt_entries count -> 0 <= j < 4 ->
  ld32 built (ct + 128 + 16 * i + 4 * j) =
    nth (Z.to_nat j) [wrap 32 (dma +u64 (i * 0x200000)); wrap 32 (Z.shiftr (dma +u64 (i * 0x200000)) 32); 0; prdt_dbc count (prdt_entries count) i] 0.
Proof using Hcount Hct Hsector.
  intros Hi Hj. destruct (prdt_entries_count count Hcount) as [_ Hn]. destruct (prdt_dbc_value count i Hcount Hi) as [Hd _].
  assert (exists v, nth (Z.to_nat j) [wrap 32 (dma +u64 (i * 0x200000)); wrap 32 (Z.shiftr (dma +u64 (i * 0x200000)) 32); 0; prdt_dbc count (prdt_entries count) i] 0 = v /\
    0 <= v < 2 ^ 32 /\ forall o, 0 <= o < 4 -> prdt_byte dma count (prdt_entries count) i (4 * j + o) = (v / 2 ^ (8 * o)) mod 256) as (v & -> & Hv & Hbytes).
  { eexists. split; [done|]. unfold prdt_byte.
    assert (j = 0 \/ j = 1 \/ j = 2 \/ j = 3) as [-> |[-> |[-> | ->]]] by lia; (split; [simpl; first [apply wrap_bound; lia|lia|done]|]);
      intros o Ho; replace ((4 * _ + o) mod 4) with o by div_lia;
      repeat match goal with |- context [?a <? ?b] => destruct (Z.ltb_spec a b); try lia end; done. }
  apply ld32_word; [done|]. intros o Ho. rewrite <-Hbytes by done. unfold build_command.
  rewrite write_fis_out by lia. rewrite prdt_table_byte by lia.
  rewrite (proj2 (Z.leb_le (ct + 128) _)), (proj2 (Z.ltb_lt _ (ct + 128 + _))) by lia. cbn [andb]. f_equal; div_lia.
Qed.

Lemma fis_lba : fis_at sector count wr 4 + fis_at sector count wr 5 * 2 ^ 8 + fis_at sector count wr 6 * 2 ^ 16 + fis_at sector count wr 8 * 2 ^ 24 +
    fis_at sector count wr 9 * 2 ^ 32 + fis_at sector count wr 10 * 2 ^ 40 = sector.
Proof using Hsector.
  clear Hcount Hct Hapart Hdma Hdma' m clb ct dma. unfold fis_at. cbn [find fis_bytes fst Z.eqb Pos.eqb fmap option_fmap option_map default snd id].
  change 0xFF with (Z.ones 8). rewrite !Z.land_ones, !Z.shiftr_div_pow2 by lia. div_lia.
Qed.

Lemma fis_count : fis_at sector count wr 12 + fis_at sector count wr 13 * 2 ^ 8 = count.
Proof using Hcount.
  clear Hsector Hct Hapart Hdma Hdma' m clb ct dma. unfold fis_at. cbn [find fis_bytes fst Z.eqb Pos.eqb fmap option_fmap option_map default snd id].
  change 0xFF with (Z.ones 8). rewrite !Z.land_ones, !Z.shiftr_div_pow2 by lia. div_lia.
Qed.

Lemma built_regions :
  map (fun i => let e := ct + 128 + 16 * i in (ld32 built e + ld32 built (e + 4) * 2 ^ 32, ld32 built (e + 12) mod 2 ^ 22 + 1)) (seqZ 0 (prdt_entries count)) =
  tiles dma (512 * count).
Proof using Hcount Hct Hsector Hdma Hdma'.
  destruct (prdt_entries_count count Hcount) as [En Hn]. unfold tiles.
  replace ((512 * count + (2 ^ 21 - 1)) / 2 ^ 21) with (prdt_entries count) by (rewrite En; f_equal; lia).
  apply map_ext_in. intros i [Hi0 Hi1]%list_elem_of_In%elem_of_seqZ.
  destruct (prdt_dbc_value count i Hcount ltac:(lia)) as [_ Hlen]. assert (i * 2 ^ 21 < 512 * count) by div_lia.
  cbv zeta. pose proof (built_prdt i 0 ltac:(lia) ltac:(lia)) as H0. rewrite Z.mul_0_r, Z.add_0_r in H0.
  pose proof (built_prdt i 1 ltac:(lia) ltac:(lia)) as H1. pose proof (built_prdt i 3 ltac:(lia) ltac:(lia)) as H3.
  change (4 * 1) with 4 in H1. change (4 * 3) with 12 in H3. rewrite H0, H1, H3.
  change (Z.to_nat 0) with 0%nat. change (Z.to_nat 1) with 1%nat. change (Z.to_nat 3) with 3%nat. cbn [nth].
  rewrite Hlen, (wrap_small 64 (dma + _)) by lia. f_equal; [|lia].
  unfold wrap. rewrite Z.shiftr_div_pow2 by lia. div_lia.
Qed.

Lemma ahci_command_roundtrip_sub : decode built clb = Some (mkCommand wr sector count (tiles dma (512 * count))).
Proof using Hcount Hct Hapart Hsector Hdma Hdma'.
  destruct (prdt_entries_count count Hcount) as [En Hn].
  pose proof (header_words m clb ct (prdt_entries count) wr Hct) as Hh. cbv zeta in Hh. rewrite header_word in Hh by done.
  destruct Hh as (H0 & H8 & H12); [destruct wr; lia|].
  pose proof (built_header 0 ltac:(lia) ltac:(lia)) as B0. rewrite Z.add_0_r in B0.
  unfold decode. rewrite B0, !built_header, H0, H8, H12 by lia.
  replace (ct mod 2 ^ 32 + ct / 2 ^ 32 * 2 ^ 32) with ct by div_lia.
  pose proof (built_fis 0 ltac:(lia) ltac:(lia)) as F0. rewrite Z.add_0_r in F0.
  rewrite F0, !built_fis, fis_lba, fis_count by lia.
  assert (Z.testbit (prdt_entries count * 2 ^ 16 + (if wr then 69 else 5)) 6 = wr) as ->.
  { rewrite Z.testbit_odd, Z.shiftr_div_pow2 by lia.
    replace ((prdt_entries count * 2 ^ 16 + (if wr then 69 else 5)) / 2 ^ 6) with (2 * (prdt_entries count * 2 ^ 9) + Z.b2z wr) by (destruct wr; simpl Z.b2z; div_lia).
    rewrite Z.odd_add_mul_2 || rewrite Z.add_comm, Z.odd_add_mul_2. by destruct wr. }
  replace ((prdt_entries count * 2 ^ 16 + (if wr then 69 else 5)) mod 32) with 5 by (destruct wr; div_lia).
  replace ((prdt_entries count * 2 ^ 16 + (if wr then 69 else 5)) / 2 ^ 16) with (prdt_entries count) by (destruct wr; div_lia).
  pose proof built_regions as HR. cbv zeta in HR |- *. rewrite HR, (proj2 (Z.eqb_neq count 0)) by lia. by destruct wr.
Qed.
End command.

(** ** Transfers *)

(** The regions filled in order with the bytes of [src] from [off] on. *)
Fixpoint scatter (rs : list (Z * Z)) (src : Z -> Z) (off : Z) (m : Z -> Z) : Z -> Z :=
  match rs with
  | [] => m
  | (p, n) :: rs => scatter rs src (off + n) (fun a => if (p <=? a) && (a <? p + n) then src (off + (a - p)) else m a)
  end.

(** The address of byte [j] of the regions. *)
Fixpoint locate (rs : list (Z * Z)) (j : Z) : Z :=
  match rs with
  | [] => 0
  | (p, n) :: rs => if j <? n then p + j else locate rs (j - n)
  end.

Definition tile (dma total i : Z) : Z * Z := (dma + i * 2 ^ 21, Z.min (2 ^ 21) (total - i * 2 ^ 21)).

Lemma scatter_tiles src dma total n : forall k off m a,
  k * 2 ^ 21 <= total <= (k + Z.of_nat n) * 2 ^ 21 -> (n = 0%nat \/ (k + Z.of_nat n - 1) * 2 ^ 21 < total) ->
  scatter (map (tile dma total) (seqZ k (Z.of_nat n))) src off m a =
    if (dma + k * 2 ^ 21 <=? a) && (a <? dma + total) then src (off + (a - (dma + k * 2 ^ 21))) else m a.
Proof.
  induction n as [|n IH]; intros k off m a Hk Hl.
  - simpl. destruct (Z.leb_spec (dma + k * 2 ^ 21) a), (Z.ltb_spec a (dma + total)); cbn [andb]; (done || lia).
  - rewrite Nat2Z.inj_succ, seqZ_cons by lia. rewrite Z.pred_succ. cbn [map scatter]. unfold tile at 1. cbn iota.
    destruct n as [|n].
    + change (seqZ (Z.succ k) (Z.of_nat 0)) with (@nil Z). cbn [map scatter]. rewrite Z.min_r by lia.
      destruct (Z.leb_spec (dma + k * 2 ^ 21) a), (Z.ltb_spec a (dma + k * 2 ^ 21 + (total - k * 2 ^ 21))), (Z.ltb_spec a (dma + total)); cbn [andb]; (done || lia).
    + rewrite IH by lia. rewrite Z.min_l by lia.
      destruct (Z.leb_spec (dma + Z.succ k * 2 ^ 21) a), (Z.ltb_spec a (dma + total)), (Z.leb_spec (dma + k * 2 ^ 21) a),
        (Z.ltb_spec a (dma + k * 2 ^ 21 + 2 ^ 21)); cbn [andb]; try (done || lia). f_equal. lia.
Qed.

Lemma locate_tiles dma total n : forall k j,
  total <= (k + Z.of_nat n) * 2 ^ 21 -> 0 <= j < total - k * 2 ^ 21 ->
  locate (map (tile dma total) (seqZ k (Z.of_nat n))) j = dma + k * 2 ^ 21 + j.
Proof.
  induction n as [|n IH]; intros k j Hk Hj; [lia|].
  rewrite Nat2Z.inj_succ, seqZ_cons by lia. rewrite Z.pred_succ. cbn [map locate]. unfold tile at 1. cbn iota.
  destruct (Z.ltb_spec j (Z.min (2 ^ 21) (total - k * 2 ^ 21))); [done|]. rewrite Z.min_l in * by lia. rewrite IH by lia. lia.
Qed.

Lemma tiles_as_tile dma total : 0 < total -> exists n, tiles dma total = map (tile dma total) (seqZ 0 (Z.of_nat n)) /\
  total <= Z.of_nat n * 2 ^ 21 /\ (Z.of_nat n - 1) * 2 ^ 21 < total.
Proof.
  intros Ht. exists (Z.to_nat ((total + (2 ^ 21 - 1)) / 2 ^ 21)). unfold tiles, tile. rewrite Z2Nat.id by div_lia. split; [done|]. div_lia.
Qed.

(** A command under way: memory and disk when it was issued, and how often the driver will still see it busy. *)
Record Transfer := mkTransfer { t_cmd : Command; t_mem : Z -> Z; t_disk : Z -> Z; t_polls : nat }.

(** Memory and disk once it is carried out. *)
Definition mem_after (t : Transfer) (a : Z) : Z :=
  if c_write (t_cmd t) then t_mem t a else scatter (c_regions (t_cmd t)) (t_disk t) (512 * c_lba (t_cmd t)) (t_mem t) a.
Definition disk_after (t : Transfer) (b : Z) : Z :=
  let c := t_cmd t in
  if c_write c && (512 * c_lba c <=? b) && (b <? 512 * (c_lba c + c_count c)) then t_mem t (locate (c_regions c) (b - 512 * c_lba c)) else t_disk t b.

(** What a controller with a disk promises: the registers of the port, and that an issued command is carried out, within the driver's
    patience; until then nothing is known of memory and disk.  The controller writes into the command list and the area for
    received messages too.  And what DMA memory promises: pages that are not in use, cleared, or the error value; buffers in use are
    not touched. *)
Class HbaLaws (W : Type) `{!HbaHost W} := {
  hport : Z;
  hsectors : Z;
  hdisk : W -> Z -> Z;
  clb : W -> Z;
  fisb : W -> Z;
  pending : W -> option Transfer;
  hlive : W -> list (Z * Z);
  clb_range w : 0 <= clb w < 2 ^ 64;
  clb_live w : exists n, 1024 <= n /\ (clb w, n) ∈ hlive w;
  hlive_sep w r q : r ∈ hlive w -> q ∈ hlive w -> r = q \/ disjoint_areas r q;
  hlive_range w r : r ∈ hlive w -> 0 < r.1 /\ 0 < r.2 /\ r.1 + r.2 < 2 ^ 64;
  hset_laws w m : hmem (hset_mem w m) = m /\ hdisk (hset_mem w m) = hdisk w /\ clb (hset_mem w m) = clb w /\ fisb (hset_mem w m) = fisb w /\
    pending (hset_mem w m) = pending w /\ hlive (hset_mem w m) = hlive w;
  read_clb w : mmio_read w hport = (clb w mod 2 ^ 32, w);
  read_clbu w : mmio_read w (hport + 4) = (clb w / 2 ^ 32, w);
  alloc_table w : exists p w', hba_dma_alloc w 256 = (p, w') /\
    (forall r a, r ∈ hlive w -> within a r -> hmem w' a = hmem w a) /\
    hdisk w' = hdisk w /\ clb w' = clb w /\ fisb w' = fisb w /\ pending w' = pending w /\
    (p = U64_MAX /\ hlive w' = hlive w \/
     0 < p /\ p + 4096 < 2 ^ 64 /\ Forall (disjoint_areas (p, 4096)) (hlive w) /\ (forall a, within a (p, 4096) -> hmem w' a = 0) /\
       hlive w' = (p, 4096) :: hlive w);
  free_table w p : exists w', hba_dma_free w p 256 = w' /\ hdisk w' = hdisk w /\ clb w' = clb w /\ fisb w' = fisb w /\ pending w' = pending w /\
    forall r, r ∈ hlive w -> r.1 <> p -> r ∈ hlive w' /\ forall a, within a r -> hmem w' a = hmem w a;
  issue w c : pending w = None -> decode (hmem w) (clb w) = Some c -> 0 <= c_lba c -> c_lba c + c_count c <= hsectors ->
    exists k w', Z.of_nat k < 1000000 /\ mmio_write w (hport + 0x38) 1 = w' /\ pending w' = Some (mkTransfer c (hmem w) (hdisk w) k) /\
      clb w' = clb w /\ fisb w' = fisb w /\ hlive w' = hlive w;
  poll_busy w c m d k : pending w = Some (mkTransfer c m d (S k)) ->
    exists v w', mmio_read w (hport + 0x38) = (v, w') /\ Z.land v 1 <> 0 /\ pending w' = Some (mkTransfer c m d k) /\
      clb w' = clb w /\ fisb w' = fisb w /\ hlive w' = hlive w;
  poll_done w c m d : pending w = Some (mkTransfer c m d 0) ->
    exists v w', mmio_read w (hport + 0x38) = (v, w') /\ Z.land v 1 = 0 /\ pending w' = None /\
      clb w' = clb w /\ fisb w' = fisb w /\ hlive w' = hlive w /\
      (forall r a, r ∈ hlive w -> r.1 <> clb w -> r.1 <> fisb w -> within a r -> hmem w' a = mem_after (mkTransfer c m d 0) a) /\
      (forall b, hdisk w' b = disk_after (mkTransfer c m d 0) b);
}.

Section transfer.
Context {W : Type} `{!HbaHost W, !HbaLaws W}.
Implicit Types (w : W).

(** Command list, message area and buffers are where they were. *)
Definition same_places w w' : Prop := clb w' = clb w /\ fisb w' = fisb w /\ hlive w' = hlive w.

(** A buffer that is the client's: not the command list or the message area. *)
Definition client_buffer w (r : Z * Z) : Prop := r ∈ hlive w /\ r.1 <> clb w /\ r.1 <> fisb w.

(** The command is carried out. *)
Definition completed w (t : Transfer) w' : Prop :=
  pending w' = None /\ same_places w w' /\ (forall r a, client_buffer w r -> within a r -> hmem w' a = mem_after t a) /\
  (forall b, hdisk w' b = disk_after t b).

Lemma ci_chain c m d k : forall w, pending w = Some (mkTransfer c m d k) ->
  exists w1 w2, chain (check_bits false hport PORT_CI 1) k w w1 /\ check_bits false hport PORT_CI 1 w1 = inl w2 /\
    completed w (mkTransfer c m d k) w2.
Proof.
  induction k as [|k IH]; intros w Hp.
  - destruct (poll_done w c m d Hp) as (v & w2 & E & Hv & Hp2 & Hc & Hf & Hl & Hm & Hd). exists w, w2. split; [done|]. split.
    + unfold check_bits, mmio_read32. change (PORT_CI / 4 * 4) with 0x38. by rewrite E, Hv.
    + split; [done|]. split; [done|]. split; [|done]. intros r a (? & ? & ?). by apply Hm.
  - destruct (poll_busy w c m d k Hp) as (v & w' & E & Hv & Hp' & Hc & Hf & Hl). destruct (IH w' Hp') as (w1 & w2 & Hch & Hin & H1 & (H2 & H3 & H4) & H5 & H6).
    exists w1, w2. split; [|split; [done|]].
    + exists w'. split; [|done]. unfold check_bits, mmio_read32. change (PORT_CI / 4 * 4) with 0x38. by rewrite E, (proj2 (Z.eqb_neq _ 0) Hv).
    + split; [done|]. unfold same_places. rewrite <-Hc, <-Hf, <-Hl. split; [done|]. split; [|done]. intros r a (? & ? & ?) Ha.
      apply (H5 r a); [|done]. unfold client_buffer. by rewrite Hl, Hc, Hf.
Qed.

Lemma wait_ci c m d k w : pending w = Some (mkTransfer c m d k) -> Z.of_nat k < 1000000 ->
  exists w2, wait_while w hport PORT_CI 1 1000000 = (true, w2) /\ completed w (mkTransfer c m d k) w2.
Proof.
  intros Hp Hk. destruct (ci_chain c m d k w Hp) as (w1 & w2 & Hc & Hl & H). exists w2. split; [|done].
  unfold wait_while. rewrite (proj1 (rounds_chain _ 1000000 _ _ _ w2 Hc)); [done|lia|done].
Qed.

(** Memory that is neither the command list nor the command table. *)
Lemma build_outside m hdr ct s c dma wr a :
  0 < c < 2 ^ 16 -> ~ (hdr <= a < hdr + 128) -> ~ (ct <= a < ct + 384) -> build_command m hdr ct s c dma wr a = m a.
Proof.
  intros Hc H1 H2. destruct (prdt_entries_count c Hc) as [_ Hn]. unfold build_command.
  rewrite write_fis_out by lia. rewrite prdt_table_byte by lia.
  destruct (Z.leb_spec (ct + 128) a), (Z.ltb_spec a (ct + 128 + 16 * prdt_entries c)); cbn [andb]; try lia; by apply write_header_out.
Qed.

(** What an operation leaves behind: no command under way, and the buffers in use still in use. *)
Definition port_idle w w' : Prop :=
  pending w' = None /\ clb w' = clb w /\ fisb w' = fisb w /\ forall r, r ∈ hlive w -> r ∈ hlive w'.

(** Nothing was transferred. *)
Definition untouched w w' : Prop :=
  (forall b, hdisk w' b = hdisk w b) /\ forall r a, r ∈ hlive w -> within a r -> hmem w' a = hmem w a.

(** Sectors [s .. s + c - 1] went to the buffer at [buf], or the bytes there to the sectors; nothing else changed. *)
Definition transferred (wr : bool) w (s c buf : Z) w' : Prop :=
  (forall b, hdisk w' b = if wr && (512 * s <=? b) && (b <? 512 * (s + c)) then hmem w (buf + (b - 512 * s)) else hdisk w b) /\
  (forall r a, client_buffer w r -> within a r ->
    hmem w' a = if negb wr && (buf <=? a) && (a <? buf + 512 * c) then hdisk w (512 * s + (a - buf)) else hmem w a).

(** Memory when the command is issued. *)
Lemma issued_mem w w1 ct s c dma wr r a :
  0 < c < 2 ^ 16 -> Forall (disjoint_areas (ct, 4096)) (hlive w) -> (forall r a, r ∈ hlive w -> within a r -> hmem w1 a = hmem w a) ->
  client_buffer w r -> within a r -> build_command (hmem w1) (clb w) ct s c dma wr a = hmem w a.
Proof.
  intros Hc Hdis Hm (Hr & Hrc & _) Ha. rewrite Forall_forall in Hdis. destruct (clb_live w) as (cn & Hcn & Hclive).
  rewrite build_outside; [by apply (Hm r)|done| |].
  - intros Hx. destruct (hlive_sep w r _ Hr Hclive) as [->|Hd]; [done|]. apply (Hd a); [done|]. unfold within. simpl. lia.
  - intros Hx. apply (Hdis r Hr a); [|done]. unfold within. simpl. lia.
Qed.

(** The completed command is the transfer that was asked for. *)
Lemma completed_transfer w w3 w4 m wr s c buf k :
  0 < c -> 512 * c <= buf.2 -> client_buffer w buf -> (forall r a, client_buffer w r -> within a r -> m a = hmem w a) ->
  (forall r, client_buffer w r -> client_buffer w3 r) ->
  completed w3 (mkTransfer (mkCommand wr s c (tiles buf.1 (512 * c))) m (hdisk w) k) w4 -> transferred wr w s c buf.1 w4.
Proof.
  intros Hc Hlen Hbuf Hm Hcl (_ & _ & Hm4 & Hd4).
  destruct (tiles_as_tile buf.1 (512 * c) ltac:(lia)) as (n & Et & Hn1 & Hn2). unfold disk_after, mem_after in *.
  cbn [t_cmd t_mem t_disk c_write c_lba c_count c_regions] in *. split.
  - intros b. rewrite Hd4. destruct wr; cbn [andb]; [|done].
    destruct (Z.leb_spec (512 * s) b), (Z.ltb_spec b (512 * (s + c))); cbn [andb]; try done.
    rewrite Et, locate_tiles by lia. rewrite Z.mul_0_l, Z.add_0_r. apply (Hm buf); [done|]. unfold within. lia.
  - intros r a Hr Ha. rewrite (Hm4 r) by auto. destruct wr; cbn [negb andb]; [by apply (Hm r)|].
    rewrite Et, scatter_tiles by lia. rewrite Z.mul_0_l, Z.add_0_r. destruct (_ && _); [done|by apply (Hm r)].
Qed.

Lemma disjoint_start (p n : Z) (r : Z * Z) : 0 < n -> 0 < r.2 -> disjoint_areas (p, n) r -> r.1 <> p.
Proof. intros Hn Hr Hd E. apply (Hd p); unfold within; simpl; lia. Qed.

Lemma ahci_op_ok w s c buf wr :
  pending w = None -> client_buffer w buf -> 512 * c <= buf.2 -> 0 < c < 2 ^ 16 -> 0 <= s < 2 ^ 48 -> s + c <= hsectors ->
  exists w', port_idle w w' /\
    if (hba_dma_alloc w 256).1 =? U64_MAX then ahci_op w hport s c buf.1 wr = (false, w') /\ untouched w w'
    else ahci_op w hport s c buf.1 wr = (true, w') /\ transferred wr w s c buf.1 w'.
Proof.
  intros Hp Hbuf Hlen Hc Hs Hcap. unfold ahci_op, mmio_read32, mmio_write32.
  change (PORT_CLB / 4 * 4) with 0. change (PORT_CLBU / 4 * 4) with 4. change (PORT_CI / 4 * 4) with 0x38. rewrite Z.add_0_r, read_clb, read_clbu.
  pose proof (clb_range w) as Hclb.
  assert (Z.lor (clb w mod 2 ^ 32) (wrap 64 (Z.shiftl (clb w / 2 ^ 32) 32)) = clb w) as ->.
  { rewrite wrap_small by (rewrite Z.shiftl_mul_pow2 by lia; div_lia). rewrite Z.lor_comm, lor_shift by (apply Z.mod_pos_bound; lia). div_lia. }
  destruct (alloc_table w) as (ct & w1 & -> & Hm1 & Ed1 & Ec1 & Ef1 & Ep1 & [[-> El1]|(Hct & Hct' & Hdis & _ & El1)]); cbn [fst].
  { exists w1. unfold port_idle, untouched. rewrite Ep1, Ec1, Ef1, El1, Ed1. by rewrite Z.eqb_refl. }
  assert (no_memory ct = false) as -> by (unfold no_memory, U64_MAX; by rewrite !(proj2 (Z.eqb_neq ct _)) by lia).
  rewrite (proj2 (Z.eqb_neq ct _)) by (unfold U64_MAX; lia).
  set (m := build_command _ _ _ _ _ _ _). destruct (hset_laws w1 m) as (Em2 & Ed2 & Ec2 & Ef2 & Ep2 & El2). set (w2 := hset_mem w1 m) in *.
  destruct (clb_live w) as (cn & Hcn & Hclive). destruct (hlive_range w buf (proj1 Hbuf)) as (Hb0 & _ & Hb1).
  assert (decode (hmem w2) (clb w2) = Some (mkCommand wr s c (tiles buf.1 (512 * c)))) as Hdec.
  { rewrite Em2, Ec2, Ec1. apply ahci_command_roundtrip_sub; try lia. intros a Ha Hx. rewrite Forall_forall in Hdis.
    apply (Hdis _ Hclive a); unfold within; simpl; lia. }
  destruct (issue w2 _ ltac:(by rewrite Ep2, Ep1) Hdec) as (k & w3 & Hk & -> & Hp3 & Ec3 & Ef3 & El3); [simpl; lia..|].
  destruct (wait_ci _ _ _ k w3 Hp3 Hk) as (w4 & -> & H4). pose proof H4 as (Hp4 & (Ec4 & Ef4 & El4) & _).
  destruct (free_table w4 ct) as (w5 & -> & Ed5 & Ec5 & Ef5 & Ep5 & Hl5).
  assert (forall r, r ∈ hlive w -> r ∈ hlive w4 /\ r.1 <> ct) as Hkeep.
  { intros r Hr. split; [rewrite El4, El3, El2, El1; by right|]. rewrite Forall_forall in Hdis. destruct (hlive_range w r Hr) as (_ & ? & _).
    by apply (disjoint_start ct 4096); [lia| |apply Hdis]. }
  exists w5. split.
  { unfold port_idle. rewrite Ep5, Ec5, Ef5, Ec4, Ef4, Ec3, Ef3, Ec2, Ef2, Ec1, Ef1. split_and!; [done..|]. intros r Hr. by apply Hl5; apply Hkeep. }
  split; [done|]. rewrite Em2, Ed2, Ed1 in H4.
  destruct (completed_transfer w w3 w4 m wr s c buf k) as [Hd Hm]; [lia|done|done| | |exact H4|].
  - intros r a Hr Ha. unfold m. by apply (issued_mem w w1 ct s c buf.1 wr r).
  - intros r (Hr & ? & ?). unfold client_buffer. rewrite El3, El2, El1, Ec3, Ec2, Ec1, Ef3, Ef2, Ef1. split; [by right|done].
  - split; [by rewrite Ed5|]. intros r a Hr Ha. destruct (Hkeep r (proj1 Hr)). rewrite (proj2 (Hl5 r ltac:(done) ltac:(done))) by done. by apply (Hm r).
Qed.

(** C36: The AHCI driver transfers what it is asked for.  On every controller that carries out commands as specified, with no command under
    way, a READ message for 1 to 65535 sectors inside the disk is answered with the buffer's address and leaves the bytes of those sectors in
    the buffer; a WRITE message is answered 0 and leaves the buffer's bytes in those sectors.  No other byte of the disk changes, and no
    other byte of a DMA buffer in use, the command list and the area for received messages apart.  If the kernel has no memory for the command
    table, the answer is the error value and neither disk nor buffers change.  In every case the port is idle again and all buffers are
    still in use. *)
Theorem ahci_transfer_correct w s c arg1 buf :
  pending w = None -> client_buffer w buf -> 512 * c <= buf.2 -> wrap 16 arg1 = c -> 0 < c -> 0 <= s < 2 ^ 48 -> s + c <= hsectors ->
  (exists w', port_idle w w' /\
    if (hba_dma_alloc w 256).1 =? U64_MAX then ahci_serve w hport 10 s arg1 buf.1 = (U64_MAX, w') /\ untouched w w'
    else ahci_serve w hport 10 s arg1 buf.1 = (buf.1, w') /\ transferred false w s c buf.1 w') /\
  (exists w', port_idle w w' /\
    if (hba_dma_alloc w 256).1 =? U64_MAX then ahci_serve w hport 11 s arg1 buf.1 = (U64_MAX, w') /\ untouched w w'
    else ahci_serve w hport 11 s arg1 buf.1 = (0, w') /\ transferred true w s c buf.1 w').
Proof.
  intros Hp Hbuf Hlen Hw Hc0 Hs Hcap. destruct (hlive_range w buf (proj1 Hbuf)) as (Hb0 & _ & Hb1).
  assert (0 < c < 2 ^ 16) as Hc by (pose proof (wrap_bound 16 arg1 ltac:(lia)); lia).
  assert (no_memory buf.1 = false) as Hnm by (unfold no_memory, U64_MAX; by rewrite !(proj2 (Z.eqb_neq buf.1 _)) by lia).
  unfold ahci_serve, ahci_read, ahci_write. cbn [Z.eqb Pos.eqb]. rewrite Hw, (proj2 (Z.eqb_neq buf.1 0)) by lia. cbn [negb]. rewrite Hnm.
  destruct (ahci_op_ok w s c buf false) as (w1 & Hi1 & H1); [done..|]. destruct (ahci_op_ok w s c buf true) as (w2 & Hi2 & H2); [done..|].
  split; [exists w1|exists w2]; (split; [done|]); destruct (_ =? U64_MAX); [destruct H1 as [-> ?]|destruct H1 as [-> ?]|destruct H2 as [-> ?]|destruct H2 as [-> ?]]; done.
Qed.
End transfer.
