(* ===== verification/AhciDemo.v ===== *)
(** A controller that behaves as specified, and where the AHCI driver fails: the controller is looked for at addresses that the kernel's
    system call does not take, and requests for no sectors. *)
From stdpp Require Import base tactics numbers list.
From Stdlib Require Import ZArith Lia.
From S2P Require Import Prelude Vcpu Entry Trap IdeDrv IdeThms Ext4Drv Ext4Thms AhciDrv AhciThms.

Local Open Scope Z_scope.
Local Open Scope word_scope.
Set Default Proof Using "Type".

Module Hba.
(** Memory, disk, the command under way, and whether the page for tables is taken.  The command list is at 0x10000, received messages at
    0x11000, the page for tables at 0x20000, and there is a buffer at 0x30000. *)
Record Host := mkHost { smem : Z -> Z; sdisk : Z -> Z; spend : option Transfer; staken : bool }.
Definition CLB : Z := 0x10000.
Definition FISB : Z := 0x11000.
Definition TABLE : Z := 0x20000.
Definition PORT : Z := 0x1000.
Definition CAPACITY : Z := 1000000.

(** When a command completes, a message is left as well. *)
Definition host_read (w : Host) (p : Z) : Z * Host :=
  if p =? PORT then (CLB mod 2 ^ 32, w)
  else if p =? PORT + 4 then (CLB / 2 ^ 32, w)
  else if p =? PORT + 0x38 then
    match spend w with
    | Some (mkTransfer c m d (S k)) => (1, mkHost (smem w) (sdisk w) (Some (mkTransfer c m d k)) (staken w))
    | Some t => (0, mkHost (fun a => if a =? FISB + 0x40 then 0x34 else mem_after t a) (disk_after t) None (staken w))
    | None => (0, w)
    end
  else (0, w).
Definition host_write (w : Host) (p v : Z) : Host :=
  if (p =? PORT + 0x38) && (v =? 1)
  then mkHost (smem w) (sdisk w)
         (c ← decode (smem w) CLB; if c_lba c + c_count c <=? CAPACITY then Some (mkTransfer c (smem w) (sdisk w) 3%nat) else None) (staken w)
  else w.

Definition host_alloc (w : Host) (size : Z) : Z * Host :=
  if staken w || (size >? 4096) then (U64_MAX, w)
  else (TABLE, mkHost (fun a => if (TABLE <=? a) && (a <? TABLE + 4096) then 0 else smem w a) (sdisk w) (spend w) true).
Definition host_free (w : Host) (p size : Z) : Host := mkHost (smem w) (sdisk w) (spend w) (staken w && negb (p =? TABLE)).

#[export] Instance host : HbaHost Host := {
  hmem := smem; hset_mem := fun w m => mkHost m (sdisk w) (spend w) (staken w); mmio_read := host_read; mmio_write := host_write;
  hba_dma_alloc := host_alloc; hba_dma_free := host_free; hba_mmap_phys := fun w p _ => (p, w);
  sys_pci_read := fun w _ _ _ => (0xFFFFFFFF, w); sys_pci_write := fun w _ _ _ _ => w;
}.

Definition fixed_areas : list (Z * Z) := [(CLB, 1024); (FISB, 256); (0x30000, 0x100000)].
Definition host_areas (w : Host) : list (Z * Z) := if staken w then (TABLE, 4096) :: fixed_areas else fixed_areas.

Lemma host_area w r : r ∈ host_areas w -> r ∈ (TABLE, 4096) :: fixed_areas.
Proof. unfold host_areas. destruct (staken w); [done|by right]. Qed.

Lemma areas_apart r q : r ∈ (TABLE, 4096) :: fixed_areas -> q ∈ (TABLE, 4096) :: fixed_areas -> r = q \/ disjoint_areas r q.
Proof.
  unfold fixed_areas, TABLE, CLB, FISB. rewrite !elem_of_cons, !elem_of_nil. intros Hr Hq.
  destruct Hr as [->|[->|[->|[->|[]]]]], Hq as [->|[->|[->|[->|[]]]]]; (by left) || (right; intros a Ha Hb; unfold within in *; simpl in *; lia).
Qed.

#[export] Program Instance host_laws : HbaLaws Host := {
  hport := PORT; hsectors := CAPACITY; hdisk := sdisk; clb := fun _ => CLB; fisb := fun _ => FISB; pending := spend; hlive := host_areas;
}.
Next Obligation. done. Qed.
Next Obligation. intros w. exists 1024. split; [lia|]. unfold host_areas. destruct (staken w); [right|]; by left. Qed.
Next Obligation. intros w r q Hr%host_area Hq%host_area. by apply areas_apart. Qed.
Next Obligation.
  intros w r Hr%host_area. unfold fixed_areas, TABLE, CLB, FISB in Hr. rewrite !elem_of_cons, elem_of_nil in Hr.
  destruct Hr as [->|[->|[->|[->|[]]]]]; simpl; lia.
Qed.
Next Obligation. done. Qed.
Next Obligation. done. Qed.
Next Obligation. done. Qed.
Next Obligation.
  intros w. unfold hba_dma_alloc, host, host_alloc. destruct (staken w) eqn:Et; cbn [orb Z.gtb Z.compare Pos.compare Pos.compare_cont].
  { exists U64_MAX, w. split_and!; [done..|by left]. }
  eexists _, _. split; [done|]. cbn [smem sdisk spend staken hmem]. unfold host_areas. rewrite Et. cbn [staken].
  assert (forall r, r ∈ fixed_areas -> disjoint_areas (TABLE, 4096) r) as Hd.
  { intros r Hr. destruct (areas_apart (TABLE, 4096) r) as [<-|]; [by left|by right| |done].
    unfold fixed_areas, TABLE, CLB, FISB in Hr. rewrite !elem_of_cons, elem_of_nil in Hr. naive_solver. }
  split; [|split_and!; [done..|right; split_and!; [done|done| | |done]]].
  - intros r a Hr Ha. destruct (Z.leb_spec TABLE a), (Z.ltb_spec a (TABLE + 4096)); cbn [andb]; try done.
    exfalso. apply (Hd r Hr a); [unfold within; simpl; lia|done].
  - by apply Forall_forall.
  - intros a [Ha Hb]. cbn [fst snd] in *. by rewrite (proj2 (Z.leb_le _ _)), (proj2 (Z.ltb_lt _ _)) by lia.
Qed.
Next Obligation.
  intros w p. eexists. split; [done|]. split_and!; [done..|]. intros r Hr Hp. split; [|done]. unfold host_areas in *. simpl.
  destruct (staken w); [|done]. destruct (Z.eqb_spec p TABLE) as [->|]; [|done]. by apply elem_of_cons in Hr as [->|].
Qed.
Next Obligation.
  intros w c Hp Hd Hl Hc. exists 3%nat. eexists. split; [done|]. split; [done|]. unfold mmio_write, host, host_write. simpl.
  simpl in Hd. rewrite Hd. simpl. by rewrite (proj2 (Z.leb_le _ _) Hc).
Qed.
Next Obligation. intros w c m d k Hp. simpl in *. unfold host_read. simpl. rewrite Hp. by eexists _, _. Qed.
Next Obligation.
  intros w c m d Hp. simpl in *. unfold host_read. simpl. rewrite Hp. eexists _, _. split; [done|]. split; [done|]. simpl. split_and!; [done|done|done|done| |done].
  intros r a Hr Hc Hf Ha. destruct (Z.eqb_spec a (FISB + 0x40)) as [->|]; [|done].
  destruct (areas_apart r (FISB, 256)) as [->|Hd]; [by apply host_area in Hr|right; right; by left|done|].
  exfalso. apply (Hd (FISB + 0x40)); [done|]. unfold within, FISB. simpl. lia.
Qed.
End Hba.
Import Hba.

Definition demo_host : Host := mkHost (fun a => a mod 3) (fun b => b * 5 mod 253) None false.

Lemma ahci_transfer_correct_witness :
  (exists w', port_idle demo_host w' /\ ahci_serve demo_host PORT 10 777 2 0x30000 = (0x30000, w') /\ transferred false demo_host 777 2 0x30000 w') /\
  (exists w', port_idle demo_host w' /\ ahci_serve demo_host PORT 11 777 2 0x30000 = (0, w') /\ transferred true demo_host 777 2 0x30000 w').
Proof.
  assert (client_buffer demo_host (0x30000, 0x100000)) as Hb by (split; [right; right; by left|done]).
  assert (777 + 2 <= hsectors) as Hs by by vm_compute.
  exact (ahci_transfer_correct demo_host 777 2 2 (0x30000, 0x100000) ltac:(done) Hb ltac:(by simpl) ltac:(done) ltac:(done) ltac:(done) Hs).
Defined.

(** A request for 0 sectors becomes a command for 65536 sectors with one region of two megabytes. *)
Theorem ahci_zero_sectors :
  decode (build_command (fun _ => 0) CLB 0x20000 5 0 0x30000 false) CLB = Some (mkCommand false 5 65536 [(0x30000, 0x200000)]).
Proof. by vm_compute. Qed.

(** ** The search for the controller *)

(** What the kernel answers to [sys_pci_read]. *)
Definition pci_answer {M} (pci_space : Z -> Z -> Z) (f : TrapFrame) (t : Trap M) (bdf offset width : Z) : Z :=
  match (sys_pci_config pci_space f t bdf offset width 0 0).1 with Resume f' => rax f' | _ => 0 end.

Lemma pci_answer_eq {M} pci_space f (t : Trap M) bdf offset :
  pci_answer pci_space f t bdf offset 4 =
    if (bdf >? 0xFFFF) || (offset >? 0xFF) then U64_MAX else wrap 32 (pci_space (pci_address bdf offset) 4).
Proof. unfold pci_answer, sys_pci_config. destruct (_ || (offset >? 255)); done. Qed.

Lemma land_le_r a b : 0 <= a -> 0 <= b -> Z.land a b <= b.
Proof.
  intros Ha Hb. rewrite <-(Z2N.id a), <-(Z2N.id b) by done. rewrite <-N2Z.inj_land. apply N2Z.inj_le. apply N.land_le_r.
Qed.

Section search.
Context {W M : Type} `{!HbaHost W} (pci_space : Z -> Z -> Z) (f : TrapFrame) (t : Trap M).
(** The driver's reads are the kernel's, and only bus 0 has devices. *)
Context (Hread : forall w bdf offset width, sys_pci_read w bdf offset width = (pci_answer pci_space f t bdf offset width, w)).
Context (Hbus : forall addr, (addr / 2 ^ 16) mod 2 ^ 8 <> 0 -> pci_space addr 4 = 0xFFFFFFFF).

(** Whether the function's class is that of an AHCI controller. *)
Definition is_ahci (class : Z) : bool := (wrap 8 (Z.shiftr class 24) =? 0x01) && (Z.land (Z.shiftr class 16) 0xFF =? 0x06).

(** What one function of the scan looks like. *)
Lemma probe_missing (w : W) bus dev func n :
  let bdf := bdf_of bus dev func in
  pci_answer pci_space f t bdf 0 4 = 0xFFFFFFFF -> func <> 0 ->
  scan_functions (S n) w bus dev func = scan_functions n w bus dev (func + 1).
Proof using Hread.
  intros bdf E Hf. cbn [scan_functions]. fold bdf. rewrite Hread, E. cbn [orb Z.eqb Pos.eqb]. by rewrite (proj2 (Z.eqb_neq func 0)).
Qed.

Lemma probe_refused (w : W) bus dev func n :
  bdf_of bus dev func > 0xFFFF -> scan_functions (S n) w bus dev func = scan_functions n w bus dev (func + 1).
Proof using Hread.
  intros Hb. cbn [scan_functions]. rewrite !Hread, !pci_answer_eq. rewrite Z.gtb_ltb, (proj2 (Z.ltb_lt _ _)) by lia. done.
Qed.

Lemma probe_first (w : W) n :
  is_ahci (pci_answer pci_space f t 0 8 4) = false ->
  scan_functions (S n) w 0 0 0 = (None, w) \/ scan_functions (S n) w 0 0 0 = scan_functions n w 0 0 1.
Proof using Hread.
  clear Hbus. intros Hc. cbn [scan_functions]. change (bdf_of 0 0 0) with 0. rewrite !Hread. unfold is_ahci in Hc. rewrite Hc.
  destruct (_ || _); [by left|by right].
Qed.

Lemma probe_none (w : W) bus dev n :
  pci_answer pci_space f t (bdf_of bus dev 0) 0 4 = 0xFFFFFFFF -> scan_functions (S n) w bus dev 0 = (None, w).
Proof using Hread. clear Hbus. intros E. cbn [scan_functions]. by rewrite Hread, E. Qed.

Lemma device_none n (w : W) dev : scan_functions 8 w 0 dev 0 = (None, w) -> scan_devices (S n) w 0 dev = scan_devices n w 0 (dev + 1).
Proof. clear Hread Hbus. intros E. cbn [scan_devices]. by rewrite E. Qed.

Lemma bdf_large dev func : 2 <= dev -> 0 <= func -> bdf_of 0 dev func > 0xFFFF.
Proof.
  clear Hread Hbus. intros Hd Hf. unfold bdf_of. rewrite Z.shiftl_0_l, Z.lor_0_l.
  assert (0 <= Z.shiftl dev 15 /\ 0 <= Z.shiftl func 12) as [Ha Hb] by (split; apply Z.shiftl_nonneg; lia).
  pose proof (Z.add_lor_land (Z.shiftl dev 15) (Z.shiftl func 12)). pose proof (land_le_r (Z.shiftl dev 15) (Z.shiftl func 12) Ha Hb).
  rewrite (Z.shiftl_mul_pow2 dev) in * by lia. lia.
Qed.

Lemma functions_refused n (w : W) dev func : 2 <= dev -> 0 <= func -> scan_functions n w 0 dev func = (None, w).
Proof using Hread.
  clear Hbus. revert func. induction n as [|n IH]; intros func Hd Hf; [done|]. rewrite probe_refused by (by apply bdf_large). apply IH; lia.
Qed.

Lemma devices_refused n (w : W) dev : 2 <= dev -> scan_devices n w 0 dev = (None, w).
Proof using Hread.
  clear Hbus. revert dev. induction n as [|n IH]; intros dev Hd; [done|]. cbn [scan_devices]. rewrite functions_refused by lia. apply IH. lia.
Qed.

Lemma answer_missing bdf : 0 <= bdf <= 0xFFFF -> (pci_address bdf 0 / 2 ^ 16) mod 2 ^ 8 <> 0 -> pci_answer pci_space f t bdf 0 4 = 0xFFFFFFFF.
Proof using Hbus.
  intros Hb Ha. rewrite pci_answer_eq, Hbus by done. by rewrite Z.gtb_ltb, (proj2 (Z.ltb_ge _ _)) by lia.
Qed.

(** The controller is never found: the driver puts the device number at bit 15 and the function at bit 12, the kernel expects them at bits
    3 and 0 and refuses what is over 16 bits.  On a machine whose devices are all on bus 0, and for whatever controllers it has there, the
    search fails unless the controller is the very first function. *)
Theorem controller_never_found (w : W) :
  is_ahci (pci_answer pci_space f t 0 8 4) = false -> find_ahci_bdf w = (None, w).
Proof using Hread Hbus.
  intros Hfirst. unfold find_ahci_bdf. rewrite (device_none 31), (device_none 30).
  - apply devices_refused. lia.
  - apply probe_none. by apply answer_missing.
  - destruct (probe_first w 7 Hfirst) as [->| ->]; [done|].
    assert (forall k : nat, (k <= 7)%nat -> scan_functions k w 0 0 (8 - Z.of_nat k) = (None, w)) as H; [|exact (H 7%nat ltac:(lia))].
    induction k as [|k IH]; intros Hk; [done|]. rewrite probe_missing.
    + replace (8 - Z.of_nat (S k) + 1) with (8 - Z.of_nat k) by lia. apply IH. lia.
    + do 7 (destruct k as [|k]; [by apply answer_missing|]). lia.
    + lia.
Qed.
End search.

(** A configuration space with an AHCI controller at device 31, function 2 of bus 0, and a host bridge. *)
Definition demo_space (addr width : Z) : Z :=
  if addr =? pci_address 0 0 then 0x29C08086 else if addr =? pci_address 0 8 then 0x06000000
  else if addr =? pci_address (31 * 8 + 2) 0 then 0x29228086 else if addr =? pci_address (31 * 8 + 2) 8 then 0x01060100 else 0xFFFFFFFF.

(** Device numbers the kernel would take: with them this controller can be seen. *)
Theorem controller_is_there {M} f (t : Trap M) : is_ahci (pci_answer demo_space f t (31 * 8 + 2) 8 4) = true.
Proof. rewrite pci_answer_eq. by vm_compute. Qed.

(** The upper half of the register base is taken from offset 0x28, which belongs to another field: a pointer there makes
    the address wrong. *)
Theorem bar5_upper_half {W} `{!HbaHost W} (w : W) :
  (forall w o width, sys_pci_read w 0 o width = (if o =? 0x24 then 0xFEBF1000 else if o =? 0x28 then 0x12345678 else 0, w)) ->
  (get_bar5 w 0).1 = 0x12345678FEBF1000.
Proof. intros H. unfold get_bar5. by rewrite !H. Qed.
