(* ===== verification/TermInput.v ===== *)
(** Input of the kernel terminal: the receive ring of COM2
    (src/kernel/src/serial2.rs), the boot handshake (katerm/mod.rs), the line
    buffer (katerm/buffer.rs) and the key decoder (katerm/tui/input.rs).

    Bytes are [Z]; indices into the fixed arrays are [nat], and a [list] of the
    array's length stands for the array. *)
From stdpp Require Import base tactics numbers list.
From Stdlib Require Import ZArith Lia.
From S2P Require Import Prelude.

Local Open Scope Z_scope.

(** ** The receive ring *)

Definition RING_SIZE : Z := 1024.
Definition RING_MASK : Z := RING_SIZE - 1.

Record Ring := mkRing { RING_BUF : list Z; RING_HEAD : Z; RING_TAIL : Z }.

Definition push_ring (r : Ring) (byte : Z) : Ring :=
  let head := RING_HEAD r in
  let tail := RING_TAIL r in
  let buf := <[Z.to_nat head := byte]> (RING_BUF r) in
  let next := Z.land (head + 1) RING_MASK in
  let tail' := if next =? tail then Z.land (tail + 1) RING_MASK else tail in
  mkRing buf next tail'.

Definition pop_ring (r : Ring) : option Z * Ring :=
  let tail := RING_TAIL r in
  let head := RING_HEAD r in
  if tail =? head then (None, r)
  else
    let byte := default 0 (RING_BUF r !! Z.to_nat tail) in
    (Some byte, mkRing (RING_BUF r) head (Z.land (tail + 1) RING_MASK)).

Definition data_available (r : Ring) : bool := negb (RING_TAIL r =? RING_HEAD r).

(** The interrupt handler drains the UART: one interrupt delivers the bytes
    that are in its FIFO. *)
Definition irq_handler (r : Ring) (fifo : list Z) : Ring := fold_left push_ring fifo r.

(** ** The boot handshake *)

(** ["bootkaterm"] *)
Definition BOOT_CMD : list Z := [98; 111; 111; 116; 107; 97; 116; 101; 114; 109].

Definition handle_boot_byte (pos : nat) (b : Z) : bool * nat :=
  if (pos <? length BOOT_CMD)%nat && bool_decide (BOOT_CMD !! pos = Some b) then ((pos + 1 =? length BOOT_CMD)%nat, (pos + 1)%nat)
  else (false, if bool_decide (BOOT_CMD !! 0%nat = Some b) then 1%nat else 0%nat).

(** The loops that feed it: until the command is complete. *)
Fixpoint scan_boot (pos : nat) (bytes : list Z) : bool * nat * list Z :=
  match bytes with
  | [] => (false, pos, [])
  | b :: rest =>
    let '(done, pos) := handle_boot_byte pos b in
    if done then (true, pos, rest) else scan_boot pos rest
  end.

(** ** The line buffer *)

Definition MAX_LINE : nat := 256.

(** [echo] is what the active connector was given. *)
Record LineBuf := mkLine { BUF : list Z; POS : nat; LINE_LEN : nat; active : bool; echo : list Z }.

Definition line_init (act : bool) : LineBuf := mkLine (replicate MAX_LINE 0) 0 0 act [].
Definition say (l : LineBuf) (s : list Z) : LineBuf :=
  if active l then mkLine (BUF l) (POS l) (LINE_LEN l) (active l) (echo l ++ s) else l.

Definition push_byte (l : LineBuf) (b : Z) : bool * LineBuf :=
  let pos := POS l in
  if b =? 13 then (false, l)
  else if b =? 10 then (true, mkLine (<[pos := 0]> (BUF l)) 0 pos (active l) (echo l))
  else if (b =? 0x7F) || (b =? 0x08) then
    (false, if (0 <? pos)%nat then say (mkLine (BUF l) (pos - 1) (LINE_LEN l) (active l) (echo l)) [8; 32; 8] else l)
  else if (0x20 <=? b) && (b <=? 0x7E) then
    (false, if (pos <? MAX_LINE - 1)%nat then say (mkLine (<[pos := b]> (BUF l)) (pos + 1) (LINE_LEN l) (active l) (echo l)) [b] else l)
  else (false, l).

Definition as_str (l : LineBuf) : list Z := take (LINE_LEN l) (BUF l).
Definition reset_line (l : LineBuf) : LineBuf := mkLine (BUF l) 0 (LINE_LEN l) (active l) (echo l).

(** ** The key decoder *)

Inductive KeyEvent :=
  | KChar (c : Z) | KEnter | KBackspace | KTab | KShiftTab | KEscape | KUp | KDown | KLeft | KRight
  | KHome | KEnd | KPageUp | KPageDown | KInsert | KDelete | KF (n : Z) | KCtrl (c : Z).

Inductive PState := Ground | Esc | Csi | CsiParam | Osc.

Record InputParser := mkParser { pstate : PState; param : list Z; param_len : nat }.

Definition parser_new : InputParser := mkParser Ground (replicate 8 0) 0.

Definition is_ascii_digit (b : Z) : bool := (48 <=? b) && (b <=? 57).

Definition decode_ground (byte : Z) : KeyEvent :=
  if byte =? 0x09 then KTab
  else if (byte =? 0x0D) || (byte =? 0x0A) then KEnter
  else if (byte =? 0x08) || (byte =? 0x7F) then KBackspace
  else if byte =? 0x03 then KCtrl 99
  else if byte =? 0x04 then KCtrl 100
  else if byte =? 0x0C then KCtrl 108
  else if byte =? 0x01 then KHome
  else if byte =? 0x05 then KEnd
  else if byte =? 0x0B then KUp
  else KChar byte.

Definition decode_csi (par code : Z) : option KeyEvent :=
  if code =? 65 then Some KUp
  else if code =? 66 then Some KDown
  else if code =? 67 then Some KRight
  else if code =? 68 then Some KLeft
  else if code =? 72 then Some KHome
  else if code =? 70 then Some KEnd
  else if code =? 90 then Some KShiftTab
  else if code =? 126 then
    if par =? 1 then Some KHome
    else if par =? 2 then Some KInsert
    else if par =? 3 then Some KDelete
    else if par =? 4 then Some KEnd
    else if par =? 5 then Some KPageUp
    else if par =? 6 then Some KPageDown
    else if (11 <=? par) && (par <=? 24) then Some (KF (par - 10))
    else None
  else if code =? 80 then Some (KF 1)
  else if code =? 81 then Some (KF 2)
  else if code =? 82 then Some (KF 3)
  else if code =? 83 then Some (KF 4)
  else None.

(** [saturating_mul] of bytes. *)
Definition saturating_mul8 (a b : Z) : Z := Z.min (a * b) 255.

Definition feed (p : InputParser) (byte : Z) : option KeyEvent * InputParser :=
  match pstate p with
  | Ground =>
    if byte =? 0x1B then (None, mkParser Esc (param p) (param_len p))
    else (Some (decode_ground byte), p)
  | Esc =>
    if byte =? 91 then (None, mkParser Csi (replicate 8 0) 0)
    else if byte =? 79 then (None, mkParser Osc (param p) (param_len p))
    else (None, mkParser Ground (param p) (param_len p))
  | Csi =>
    if is_ascii_digit byte || (byte =? 59) then
      (None, if is_ascii_digit byte then mkParser CsiParam (<[0%nat := byte - 48]> (replicate 8 0)) 1
             else mkParser CsiParam (replicate 8 0) 0)
    else (decode_csi 0 byte, mkParser Ground (param p) (param_len p))
  | CsiParam =>
    if is_ascii_digit byte then
      let idx := Nat.min (param_len p) 7 in
      let v := saturating_add 8 (saturating_mul8 (default 0 (param p !! idx)) 10) (byte - 48) in
      (None, mkParser CsiParam (<[idx := v]> (param p)) (param_len p))
    else if byte =? 59 then (None, mkParser CsiParam (param p) (Nat.min (param_len p + 1) 7))
    else (decode_csi (default 0 (param p !! 0%nat)) byte, mkParser Ground (param p) (param_len p))
  | Osc => (None, mkParser Ground (param p) (param_len p))
  end.

Definition reset_parser (p : InputParser) : InputParser := mkParser Ground (param p) 0.

(** The events of a stream of bytes. *)
Fixpoint feed_all (p : InputParser) (bytes : list Z) : list KeyEvent * InputParser :=
  match bytes with
  | [] => ([], p)
  | b :: rest =>
    let '(k, p1) := feed p b in
    let '(ks, p2) := feed_all p1 rest in
    (if k is Some e then e :: ks else ks, p2)
  end.

(** * Theorems *)

(** ** The ring is a queue that forgets its oldest byte *)

Record ring_rep (r : Ring) (l : list Z) : Prop := {
  rr_buf : length (RING_BUF r) = 1024%nat;
  rr_tail : 0 <= RING_TAIL r < 1024;
  rr_len : (length l < 1024)%nat;
  rr_head : RING_HEAD r = (RING_TAIL r + Z.of_nat (length l)) mod 1024;
  rr_elem : forall i x, l !! i = Some x -> RING_BUF r !! Z.to_nat ((RING_TAIL r + Z.of_nat i) mod 1024) = Some x;
}.

Lemma ring_mask x : Z.land x RING_MASK = x mod 1024.
Proof. change RING_MASK with (Z.ones 10). by rewrite Z.land_ones. Qed.

(** The abstract queue of at most 1023 bytes. *)
Definition queue_in (l : list Z) (b : Z) : list Z := drop (S (length l) - 1023) (l ++ [b]).
Definition queue_out (l : list Z) : option Z * list Z := match l with [] => (None, []) | x :: l => (Some x, l) end.

Lemma ring_written r l b i x :
  ring_rep r l -> (l ++ [b]) !! i = Some x ->
  <[Z.to_nat (RING_HEAD r) := b]> (RING_BUF r) !! Z.to_nat ((RING_TAIL r + Z.of_nat i) mod 1024) = Some x.
Proof.
  intros [Hb Ht Hl Hh He] Hi. destruct (decide (i = length l)) as [->|Hne].
  - rewrite lookup_app_r, Nat.sub_diag in Hi by lia. injection Hi as <-. rewrite <-Hh. apply list_lookup_insert_eq. rewrite Hh, Hb. div_lia.
  - pose proof (lookup_lt_Some _ _ _ Hi) as Hlt. rewrite length_app in Hlt. simpl in Hlt. rewrite lookup_app_l in Hi by lia.
    rewrite list_lookup_insert_ne; [by apply He|]. rewrite Hh. div_lia.
Qed.

Lemma push_ring_rep r l b : ring_rep r l -> ring_rep (push_ring r b) (queue_in l b).
Proof.
  intros Hr. pose proof (ring_written r l b) as Hw. destruct Hr as [Hb Ht Hl Hh He] eqn:E. clear E.
  unfold push_ring, queue_in. rewrite !ring_mask. destruct (Z.eqb_spec ((RING_HEAD r + 1) mod 1024) (RING_TAIL r)) as [Hfull|Hfull].
  - assert (length l = 1023%nat) as Hlen by (rewrite Hh in Hfull; div_lia). rewrite Hlen. change (1024 - 1023)%nat with 1%nat.
    destruct l as [|y l]; [done|]. change (drop 1 ((y :: l) ++ [b])) with (l ++ [b]). simpl in Hlen. split; cbn [RING_BUF RING_HEAD RING_TAIL]; [by rewrite length_insert|div_lia|rewrite length_app; simpl; lia| |].
    + rewrite length_app. simpl. rewrite Hh. simpl. div_lia.
    + intros i x Hi. specialize (Hw (S i) x Hr Hi). rewrite <-Hw. f_equal. div_lia.
  - assert (length l < 1023)%nat as Hlen by (rewrite Hh in Hfull; div_lia). replace (S (length l) - 1023)%nat with 0%nat by lia. rewrite drop_0.
    split; cbn [RING_BUF RING_HEAD RING_TAIL]; [by rewrite length_insert|done|rewrite length_app; simpl; lia| |].
    + rewrite length_app. simpl. rewrite Hh. div_lia.
    + intros i x Hi. by apply Hw.
Qed.

Lemma pop_ring_rep r l : ring_rep r l -> fst (pop_ring r) = fst (queue_out l) /\ ring_rep (snd (pop_ring r)) (snd (queue_out l)).
Proof.
  intros Hr. pose proof Hr as [Hb Ht Hl Hh He]. unfold pop_ring. rewrite ring_mask. destruct l as [|x l].
  - simpl in Hh. rewrite Z.add_0_r, Z.mod_small in Hh by lia. rewrite Hh, Z.eqb_refl. done.
  - simpl in *. destruct (Z.eqb_spec (RING_TAIL r) (RING_HEAD r)) as [Heq|_]; [rewrite Hh in Heq; div_lia|]. simpl. split.
    + specialize (He 0%nat x eq_refl). rewrite Z.add_0_r, Z.mod_small in He by lia. by rewrite He.
    + split; cbn [RING_BUF RING_HEAD RING_TAIL]; [done|div_lia|lia|rewrite Hh; div_lia|]. intros i y Hi. specialize (He (S i) y Hi). rewrite <-He. f_equal. div_lia.
Qed.

Inductive RingOp := Receive (fifo : list Z) | Read.

Fixpoint ring_run (r : Ring) (ops : list RingOp) : list (option Z) :=
  match ops with
  | [] => []
  | Receive fifo :: ops => ring_run (irq_handler r fifo) ops
  | Read :: ops => let '(b, r') := pop_ring r in b :: ring_run r' ops
  end.

Fixpoint queue_run (l : list Z) (ops : list RingOp) : list (option Z) :=
  match ops with
  | [] => []
  | Receive fifo :: ops => queue_run (fold_left queue_in fifo l) ops
  | Read :: ops => let '(b, l') := queue_out l in b :: queue_run l' ops
  end.

(** For every interleaving of receive interrupts and reads, the ring of 1024
    bytes with masked indices behaves as a queue that keeps the latest 1023
    bytes: reads return them in order, an overflow loses the oldest. *)
Theorem ring_refines_queue r l ops : ring_rep r l -> ring_run r ops = queue_run l ops.
Proof.
  revert r l. induction ops as [|[fifo|] ops IH]; intros r l Hr; simpl; [done| |].
  - apply IH. unfold irq_handler. revert r l Hr. induction fifo as [|b fifo IHf]; intros r l Hr; simpl; [done|]. by apply IHf, push_ring_rep.
  - destruct (pop_ring_rep r l Hr) as [E Hr']. destruct (pop_ring r), (queue_out l). simpl in *. by rewrite E, (IH _ _ Hr').
Qed.

Lemma ring_refines_queue_witness :
  ring_run (mkRing (replicate 1024 0) 1023 1023) [Receive [97; 98]; Read; Read; Read] = [Some 97; Some 98; None].
Proof.
  rewrite (ring_refines_queue _ []); [reflexivity|]. split; cbn [RING_BUF RING_HEAD RING_TAIL length]; [reflexivity|lia|lia|reflexivity|]. by intros i x Hi.
Defined.

(** ** The handshake finds the boot command *)

(** [pos] is the length of the longest prefix of the command that the bytes [w]
    end with, and the command has not been seen. *)
Record boot_inv (w : list Z) (pos : nat) : Prop := {
  bi_pos : (pos < 10)%nat;
  bi_ends : take pos BOOT_CMD `suffix_of` w;
  bi_max : forall k, (k <= 10)%nat -> take k BOOT_CMD `suffix_of` w -> (k <= pos)%nat;
  bi_none : forall pre suf, w <> pre ++ BOOT_CMD ++ suf;
}.

Lemma suffix_drop {A} (x y w : list A) :
  x `suffix_of` w -> y `suffix_of` w -> (length x <= length y)%nat -> x = drop (length y - length x) y.
Proof.
  intros [p ->] [q Hq] Hl. pose proof (f_equal length Hq) as Hlen. rewrite !length_app in Hlen.
  apply (f_equal (drop (length p))) in Hq. rewrite drop_app_length, drop_app_ge in Hq by lia.
  rewrite Hq at 1. f_equal. lia.
Qed.

(** No proper prefix of the command ends in a shorter non-empty one. *)
Lemma boot_borders pos k : (pos < 10)%nat -> (k < pos)%nat -> take k BOOT_CMD = drop (pos - k) (take pos BOOT_CMD) -> k = 0%nat.
Proof.
  intros Hp Hk He.
  assert (forallb (fun pos => forallb (fun k => (k =? 0)%nat || (pos <=? k)%nat ||
    negb (bool_decide (take k BOOT_CMD = drop (pos - k) (take pos BOOT_CMD)))) (seq 0 10)) (seq 0 10) = true) as H by reflexivity.
  rewrite forallb_forall in H. specialize (H pos ltac:(apply in_seq; lia)). rewrite forallb_forall in H.
  specialize (H k ltac:(apply in_seq; lia)). rewrite bool_decide_eq_true_2 in H by done.
  destruct (Nat.eqb_spec k 0); [done|]. destruct (Nat.leb_spec pos k); [lia|done].
Qed.

Lemma boot_snoc w b k :
  (k < 10)%nat -> take (S k) BOOT_CMD `suffix_of` w ++ [b] -> BOOT_CMD !! k = Some b /\ take k BOOT_CMD `suffix_of` w.
Proof.
  intros Hk Hs. destruct (lookup_lt_is_Some_2 BOOT_CMD k) as [c Hc]; [simpl; lia|].
  rewrite (take_S_r _ _ c Hc) in Hs. pose proof (suffix_snoc_inv_1 _ _ _ _ Hs) as ->. by apply suffix_snoc_inv_2 in Hs.
Qed.

Lemma boot_max w pos b k :
  boot_inv w pos -> (k <= 10)%nat -> take k BOOT_CMD `suffix_of` w ++ [b] -> BOOT_CMD !! pos <> Some b ->
  (k <= if bool_decide (BOOT_CMD !! 0%nat = Some b) then 1 else 0)%nat.
Proof.
  intros Hi Hk Hs Hne. destruct k as [|k]; [lia|]. apply boot_snoc in Hs as [Hc Hs]; [|lia].
  pose proof (bi_max _ _ Hi k ltac:(lia) Hs) as Hle. assert (k <> pos) by congruence.
  assert (k = 0%nat) as ->.
  { apply (boot_borders pos k); [apply Hi|lia|]. pose proof (bi_pos _ _ Hi). pose proof (suffix_drop _ _ _ Hs (bi_ends _ _ Hi)) as Hd.
    rewrite !length_take in Hd. change (length BOOT_CMD) with 10%nat in Hd. rewrite !Nat.min_l in Hd by lia. apply Hd. lia. }
  rewrite bool_decide_eq_true_2 by done. lia.
Qed.

Lemma boot_fresh w b pos :
  (forall pre suf, w <> pre ++ BOOT_CMD ++ suf) -> (forall k, (k <= 10)%nat -> take k BOOT_CMD `suffix_of` w ++ [b] -> (k <= pos)%nat) -> (pos < 10)%nat ->
  forall pre suf, w ++ [b] <> pre ++ BOOT_CMD ++ suf.
Proof.
  intros Hno Hmax Hp pre suf He. destruct suf as [|x suf _] using rev_ind.
  - rewrite app_nil_r in He. specialize (Hmax 10%nat (le_n _)). rewrite He in Hmax. specialize (Hmax ltac:(by exists pre)). lia.
  - rewrite !(assoc_L (++)) in He. apply app_inj_tail in He as [He _]. apply (Hno pre suf). by rewrite (assoc_L (++)).
Qed.

(** A byte takes the automaton on, or completes the command. *)
Lemma boot_step w pos b :
  boot_inv w pos ->
  let '(found, pos') := handle_boot_byte pos b in
  if found then BOOT_CMD `suffix_of` w ++ [b] else boot_inv (w ++ [b]) pos'.
Proof.
  intros Hi. pose proof Hi as [Hp Hends Hmax Hno]. unfold handle_boot_byte. change (length BOOT_CMD) with 10%nat.
  rewrite (proj2 (Nat.ltb_lt pos 10)) by done. simpl andb. case_bool_decide as Hc.
  - assert (take (S pos) BOOT_CMD `suffix_of` w ++ [b]) as Hs.
    { rewrite (take_S_r _ _ b Hc). destruct Hends as [p ->]. exists p. by rewrite (assoc_L (++)). }
    destruct (Nat.eqb_spec (pos + 1) 10) as [He|He].
    + by replace pos with 9%nat in Hs by lia.
    + assert (forall k, (k <= 10)%nat -> take k BOOT_CMD `suffix_of` w ++ [b] -> (k <= pos + 1)%nat) as Hm.
      { intros [|k] Hk Hs'; [lia|]. apply boot_snoc in Hs' as [_ Hs']; [|lia]. specialize (Hmax k ltac:(lia) Hs'). lia. }
      split; [lia|by rewrite Nat.add_1_r|done|]. apply (boot_fresh w b (pos + 1)); [done|done|lia].
  - pose proof (fun k => boot_max w pos b k Hi) as Hm. split.
    + case_bool_decide; lia.
    + case_bool_decide as H0; [|apply suffix_nil]. exists w. injection H0 as <-. done.
    + intros k Hk Hs. by apply Hm.
    + eapply boot_fresh; [done|intros k Hk Hs; by apply (Hm k)|]. case_bool_decide; lia.
Qed.

(** The scan for the boot command stops exactly at the first occurrence of
    "bootkaterm" in the bytes received, leaving what follows it, and reports
    nothing when there is none: the automaton that restarts on a mismatch misses
    no overlapping occurrence. *)
Theorem scan_boot_correct bytes :
  let '(found, _, rest) := scan_boot 0 bytes in
  if found
  then exists pre, bytes = pre ++ BOOT_CMD ++ rest /\ forall pre' rest', bytes = pre' ++ BOOT_CMD ++ rest' -> (length pre <= length pre')%nat
  else forall pre suf, bytes <> pre ++ BOOT_CMD ++ suf.
Proof.
  assert (forall w pos, boot_inv w pos ->
    let '(found, _, rest) := scan_boot pos bytes in
    if found
    then exists pre, w ++ bytes = pre ++ BOOT_CMD ++ rest /\ forall pre' rest', w ++ bytes = pre' ++ BOOT_CMD ++ rest' -> (length pre <= length pre')%nat
    else forall pre suf, w ++ bytes <> pre ++ BOOT_CMD ++ suf) as Hgen.
  2: { apply (Hgen [] 0%nat). split; [lia|apply suffix_nil| |by intros [|??]].
       intros k Hk [p Hs]. apply (f_equal length) in Hs. rewrite length_app, length_take in Hs. change (length BOOT_CMD) with 10%nat in Hs. simpl in Hs. lia. }
  induction bytes as [|b bytes IH]; intros w pos Hi; cbn [scan_boot].
  - rewrite app_nil_r. apply Hi.
  - pose proof (boot_step w pos b Hi) as Hs. destruct (handle_boot_byte pos b) as [[] pos'].
    + destruct Hs as [pre Hpre]. exists pre. rewrite cons_middle, (assoc_L (++)), Hpre, <-(assoc_L (++)). split; [done|].
      intros pre' rest' He. destruct (decide (length pre <= length pre')%nat) as [|Hlt]; [done|]. exfalso.
      apply (f_equal (take (length w))) in He as Hw. pose proof (f_equal length Hpre) as Hl. rewrite !length_app in Hl. change (length BOOT_CMD) with 10%nat in Hl. simpl in Hl.
      assert (take (length w) (pre ++ BOOT_CMD ++ bytes) = w) as Ew.
      { rewrite (assoc_L (++)), <-Hpre, <-(assoc_L (++)), take_app_length. done. }
      rewrite Ew, (assoc_L (++)), take_app_ge in Hw by (rewrite length_app; simpl; lia).
      apply (bi_none _ _ Hi pre' (take (length w - length (pre' ++ BOOT_CMD)) rest')). by rewrite (assoc_L (++)).
    + specialize (IH (w ++ [b]) pos' Hs). by rewrite <-(assoc_L (++)) in IH.
Qed.

(** ** The line buffer *)

(** What a byte does to the line being typed. *)
Definition edit (line : list Z) (b : Z) : list Z :=
  if (b =? 0x7F) || (b =? 0x08) then removelast line
  else if (0x20 <=? b) && (b <=? 0x7E) && (length line <? 255)%nat then line ++ [b] else line.

Fixpoint typed_lines (cur : list Z) (bytes : list Z) : list (list Z) :=
  match bytes with
  | [] => []
  | b :: rest => if b =? 10 then cur :: typed_lines [] rest else typed_lines (edit cur b) rest
  end.

(** The loop of [process_input] over the buffer: the lines it executes. *)
Fixpoint read_lines (l : LineBuf) (bytes : list Z) : list (list Z) :=
  match bytes with
  | [] => []
  | b :: rest =>
    let '(complete, l) := push_byte l b in
    if complete then as_str l :: read_lines (reset_line l) rest else read_lines l rest
  end.

Record line_rep (l : LineBuf) (cur : list Z) : Prop := {
  lr_buf : length (BUF l) = MAX_LINE;
  lr_pos : POS l = length cur;
  lr_room : (length cur <= 255)%nat;
  lr_cur : take (POS l) (BUF l) = cur;
}.

Lemma say_rep l s cur : line_rep l cur -> line_rep (say l s) cur.
Proof. intros []. unfold say. destruct (active l); by split. Qed.

Lemma removelast_take {A} (l : list A) : removelast l = take (length l - 1) l.
Proof.
  destruct l as [|x l _] using rev_ind; [done|]. rewrite removelast_last, length_app. simpl. rewrite Nat.add_sub. by rewrite take_app_length.
Qed.

Lemma push_byte_rep l cur b :
  line_rep l cur -> b <> 10 -> fst (push_byte l b) = false /\ line_rep (snd (push_byte l b)) (edit cur b).
Proof.
  intros Hl Hb. pose proof Hl as [Hbuf Hpos Hroom Hcur]. unfold push_byte, edit.
  destruct (Z.eqb_spec b 13) as [->|]; [by split|]. rewrite (proj2 (Z.eqb_neq b 10)) by done.
  destruct ((b =? 0x7F) || (b =? 0x08)).
  - split; [done|]. simpl. rewrite Hpos. destruct (Nat.ltb_spec 0 (length cur)) as [Hlt|Hlt].
    + apply say_rep. rewrite removelast_take. split; cbn [BUF POS]; rewrite ?length_take; [done|lia|lia|].
      transitivity (take (length cur - 1) (take (POS l) (BUF l))); [rewrite take_take; f_equal; lia|by rewrite Hcur].
    + by destruct cur; [|simpl in Hlt; lia].
  - destruct ((0x20 <=? b) && (b <=? 0x7E)) eqn:Ep; [|by split]. split; [done|]. cbn [snd andb]. rewrite Hpos. change (MAX_LINE - 1)%nat with 255%nat.
    destruct (Nat.ltb_spec (length cur) 255); [|done].
    apply say_rep. split; cbn [BUF POS]; rewrite ?length_insert, ?length_app; [done|simpl; lia|simpl; lia|].
    rewrite Nat.add_1_r. erewrite take_S_r; [|apply list_lookup_insert_eq; rewrite Hbuf; unfold MAX_LINE; lia].
    rewrite take_insert_ge by lia. by rewrite <-Hpos, Hcur.
Qed.

(** The lines handed to the command interpreter are the lines typed: printable
    bytes in order, a backspace taking back the byte before it, carriage returns
    and other control bytes ignored, and at most 255 bytes kept per line, for any
    stream of bytes. *)
Theorem read_lines_correct l bytes : length (BUF l) = MAX_LINE -> POS l = 0%nat -> read_lines l bytes = typed_lines [] bytes.
Proof.
  intros Hb Hp. assert (line_rep l []) as Hl by (split; [done|done|simpl; lia|by rewrite Hp]). clear Hb Hp.
  generalize dependent (@nil Z). revert l. induction bytes as [|b bytes IH]; intros l cur Hl; simpl; [done|].
  destruct (Z.eqb_spec b 10) as [->|Hb].
  - simpl. destruct Hl as [Hbuf Hpos Hroom Hcur]. f_equal.
    + unfold as_str. cbn [LINE_LEN BUF]. by rewrite take_insert_ge.
    + apply IH. split; [by cbn [reset_line BUF]; rewrite length_insert|done|simpl; lia|done].
  - destruct (push_byte_rep l cur b Hl Hb) as [Hf Hl']. destruct (push_byte l b) as [c l']. simpl in *. subst c. by apply IH.
Qed.

Lemma read_lines_correct_witness : read_lines (line_init true) [112; 115; 113; 8; 40; 41; 13; 10] = [[112; 115; 40; 41]].
Proof. rewrite read_lines_correct; [reflexivity..]. Defined.

(** ** The key decoder *)

(** A machine state of the decoder: the arrays have their length, the parameters
    are bytes. *)
Definition parser_ok (p : InputParser) : Prop :=
  length (param p) = 8%nat /\ (param_len p <= 7)%nat /\ Forall (fun x => 0 <= x < 256) (param p).

Lemma feed_ok p byte : parser_ok p -> 0 <= byte < 256 -> parser_ok (snd (feed p byte)).
Proof.
  intros (Hl & Hn & Hp) Hb. assert (Forall (fun x => 0 <= x < 256) (replicate 8 0)) as Hz by (by apply Forall_replicate).
  unfold feed, is_ascii_digit, saturating_add, saturating_mul8. destruct (pstate p).
  - by case_match.
  - repeat case_match; by (split_and!; simpl; try lia).
  - destruct (Z.leb_spec 48 byte), (Z.leb_spec byte 57); cbn [andb orb]; repeat case_match; split_and!; simpl; try (done || lia).
    all: repeat constructor; lia.
  - destruct (Z.leb_spec 48 byte), (Z.leb_spec byte 57); cbn [andb]; repeat case_match; split_and!; cbn [param param_len snd]; try (done || lia).
    + by rewrite length_insert.
    + apply Forall_insert; [done|]. destruct (param p !! Nat.min (param_len p) 7) as [x|] eqn:Ex; simpl; [|lia].
      rewrite Forall_lookup in Hp. specialize (Hp _ _ Ex). simpl in Hp. lia.
  - by split_and!.
Qed.

Lemma decode_ground_escape b : decode_ground b <> KEscape.
Proof. unfold decode_ground. by repeat case_match. Qed.

Lemma decode_csi_escape par c : decode_csi par c <> Some KEscape.
Proof. unfold decode_csi. by repeat case_match. Qed.

Lemma feed_escape p b : fst (feed p b) <> Some KEscape.
Proof.
  unfold feed. destruct (pstate p); repeat case_match; simpl; try done; try apply decode_csi_escape.
  intros [= He]. by destruct (decode_ground_escape b).
Qed.

(** No stream of bytes makes the decoder report the Escape key. *)
Lemma feed_all_escape p bytes : KEscape ∉ fst (feed_all p bytes).
Proof.
  revert p. induction bytes as [|b bytes IH]; intros p; cbn [feed_all]; [apply not_elem_of_nil|].
  pose proof (feed_escape p b) as Hf. destruct (feed p b) as [k p1]. specialize (IH p1). destruct (feed_all p1 bytes) as [ks p2]. simpl in *.
  destruct k as [e|]; [|done]. apply not_elem_of_cons. split; [congruence|done].
Qed.

(** Only the first digit of a key number counts: the second digit of a sequence
    ESC [ d e ~ is stored in the next parameter, so F5 to F12 (15~ to 24~) are
    reported as Home or Insert. *)
Theorem second_digit_ignored p d e :
  pstate p = Ground -> 48 <= d <= 57 -> 48 <= e <= 57 ->
  fst (feed_all p [27; 91; d; e; 126]) = option_list (decode_csi (d - 48) 126) /\
  fst (feed_all p [27; 91; d; 126]) = option_list (decode_csi (d - 48) 126).
Proof.
  intros Hp Hd He. assert (is_ascii_digit d = true /\ is_ascii_digit e = true) as [Ed Ee] by (unfold is_ascii_digit; lia).
  cbn [feed_all]. unfold feed at 1 6. rewrite Hp. cbn [Z.eqb Pos.eqb feed pstate]. rewrite Ed. cbn [orb feed pstate]. rewrite Ee.
  split.
  - cbn [feed pstate param param_len]. change (is_ascii_digit 126) with false. cbn [Z.eqb Pos.eqb].
    rewrite list_lookup_insert_ne by done. simpl. by destruct (decode_csi (d - 48) 126).
  - cbn [feed pstate param param_len]. change (is_ascii_digit 126) with false. cbn [Z.eqb Pos.eqb]. simpl. by destruct (decode_csi (d - 48) 126).
Qed.

Lemma second_digit_ignored_witness : fst (feed_all parser_new [27; 91; 49; 53; 126]) = [KHome].
Proof. apply (second_digit_ignored parser_new 49 53); [reflexivity|lia|lia]. Defined.
