(* ===== verification/TermScreen.v ===== *)
(** The screen of the terminal (src/kernel/src/katerm/tui/screen.rs): drawing into
    the cells, and sending the difference to the previous frame.

    What the connector is given is a list of tokens, one per escape sequence or
    character: [TSgr n] is [ESC [ n m], [TGoto y x] is [ESC [ y ; x H]. *)
From stdpp Require Import base tactics numbers list.
From Stdlib Require Import ZArith Lia.
From S2P Require Import Prelude.

Local Open Scope Z_scope.

Definition WIDTH : nat := 80.
Definition HEIGHT : nat := 25.

(** ** Colours, styles, cells *)

Definition BLACK : Z := 0.
Definition RED : Z := 1.
Definition GREEN : Z := 2.
Definition BLUE : Z := 4.
Definition CYAN : Z := 6.
Definition WHITE : Z := 7.

Definition ansi_fg (c : Z) : Z := if (0 <=? c) && (c <=? 7) then 30 + c else 39.
Definition ansi_bg (c : Z) : Z := if (0 <=? c) && (c <=? 7) then 40 + c else 49.

Record Style := mkStyle { fg : Z; bg : Z; bold : bool; dim : bool; underline : bool; reverse : bool }.
#[export] Instance style_eq_dec : EqDecision Style.
Proof. solve_decision. Defined.

Definition style_plain : Style := mkStyle WHITE BLACK false false false false.
Definition style_dim : Style := mkStyle WHITE BLACK false true false false.
Definition colored (f b : Z) : Style := mkStyle f b false false false false.
Definition style_reverse (s : Style) : Style := mkStyle (fg s) (bg s) (bold s) (dim s) (underline s) true.

Record Cell := mkCell { ch : Z; style : Style }.
#[export] Instance cell_eq_dec : EqDecision Cell.
Proof. solve_decision. Defined.

Definition cell_empty : Cell := mkCell 32 style_plain.

Record Rect := mkRect { rx : Z; ry : Z; rw : Z; rh : Z }.

(** ** The screen *)

Record Screen := mkScreen {
  cells : list (list Cell); prev_cells : list (list Cell);
  cursor_x : Z; cursor_y : Z; cursor_visible : bool; dirty : bool;
}.

Definition blank_rows : list (list Cell) := replicate HEIGHT (replicate WIDTH cell_empty).
Definition screen_new : Screen := mkScreen blank_rows blank_rows 0 0 true true.

Definition with_cells (s : Screen) (c : list (list Cell)) : Screen :=
  mkScreen c (prev_cells s) (cursor_x s) (cursor_y s) (cursor_visible s) (dirty s).
Definition with_dirty (s : Screen) (d : bool) : Screen :=
  mkScreen (cells s) (prev_cells s) (cursor_x s) (cursor_y s) (cursor_visible s) d.

Definition screen_clear (s : Screen) : Screen := with_dirty (with_cells s blank_rows) true.
Definition force_redraw (s : Screen) : Screen :=
  mkScreen (cells s) blank_rows (cursor_x s) (cursor_y s) (cursor_visible s) true.
Definition set_cursor (s : Screen) (x y : Z) : Screen := mkScreen (cells s) (prev_cells s) x y (cursor_visible s) (dirty s).

(** [self.cells[y][x] = c]; an index out of range panics. *)
Definition put_cell (y x : nat) (c : Cell) (s : Screen) : option Screen :=
  row ← cells s !! y;
  if (x <? length row)%nat then Some (with_cells s (<[y := <[x := c]> row]> (cells s))) else None.

(** A loop whose body may panic. *)
Fixpoint oloop {A B} (l : list A) (f : A -> B -> option B) (s : B) : option B :=
  match l with
  | [] => Some s
  | x :: l => s' ← f x s; oloop l f s'
  end.

(** The coordinates a loop [a..a.saturating_add(n)] visits before [break] at
    [limit]. *)
Definition span (a n limit : Z) : list nat := Z.to_nat <$> seqZ a (Z.min (saturating_add 16 a n) limit - a).

Definition fill (area : Rect) (c : Z) (st : Style) (s : Screen) : option Screen :=
  s' ← oloop (span (ry area) (rh area) (Z.of_nat HEIGHT))
         (fun y => oloop (span (rx area) (rw area) (Z.of_nat WIDTH)) (fun x => put_cell y x (mkCell c st))) s;
  Some (with_dirty s' true).

(** Characters from column [cx] on, while there is room before [limit]. *)
Fixpoint put_text (y cx limit : nat) (text : list Z) (st : Style) (s : Screen) : option (nat * Screen) :=
  match text with
  | [] => Some (cx, s)
  | c :: text =>
    if (cx <? limit)%nat then s' ← put_cell y cx (mkCell c st) s; put_text y (S cx) limit text st s'
    else put_text y cx limit text st s
  end.

Definition write_str (x y : Z) (text : list Z) (st : Style) (s : Screen) : option Screen :=
  if Z.of_nat HEIGHT <=? y then Some s
  else r ← put_text (Z.to_nat y) (Z.to_nat x) WIDTH text st s; Some (with_dirty (snd r) true).

Definition write_char (x y c : Z) (st : Style) (s : Screen) : option Screen :=
  if (y <? Z.of_nat HEIGHT) && (x <? Z.of_nat WIDTH)
  then s' ← put_cell (Z.to_nat y) (Z.to_nat x) (mkCell c st) s; Some (with_dirty s' true) else Some s.

(** ** Sending the difference *)

Inductive Tok := TSgr (n : Z) | TGoto (y x : Z) | TPut (b : Z) | THide | TShow.

Definition write_style_diff (prev curr : Style) : list Tok :=
  if negb (fg prev =? fg curr) || negb (bg prev =? bg curr) || negb (Bool.eqb (bold prev) (bold curr)) || negb (Bool.eqb (dim prev) (dim curr))
     || negb (Bool.eqb (underline prev) (underline curr)) || negb (Bool.eqb (reverse prev) (reverse curr))
  then [TSgr 0] ++ (if bold curr then [TSgr 1] else []) ++ (if dim curr then [TSgr 2] else []) ++
       (if underline curr then [TSgr 4] else []) ++ (if reverse curr then [TSgr 7] else []) ++
       [TSgr (ansi_fg (fg curr)); TSgr (ansi_bg (bg curr))]
  else [].

(** [from_utf8(&[cell.ch as u8]).unwrap_or(" ")] *)
Definition shown (c : Cell) : Z := let b := ch c mod 256 in if b <? 128 then b else 32.

(** A row being drawn: the previous frame's row, the style in effect, the output. *)
Record RowState := mkRow { prow : list Cell; last_style : Style; out : list Tok }.

(** The inner loop: changed cells until an unchanged one in the same style. *)
Fixpoint draw_run (fuel : nat) (row : list Cell) (x : nat) (r : RowState) : nat * RowState :=
  match fuel with
  | O => (x, r)
  | S fuel =>
    if (x <? WIDTH)%nat then
      let cell := default cell_empty (row !! x) in
      let prev := default cell_empty (prow r !! x) in
      if bool_decide (cell = prev) && bool_decide (style cell = last_style r) then (x, r)
      else
        let sgr := if bool_decide (style cell = last_style r) then [] else write_style_diff (last_style r) (style cell) in
        draw_run fuel row (S x) (mkRow (<[x := cell]> (prow r)) (style cell) (out r ++ sgr ++ [TPut (shown cell)]))
    else (x, r)
  end.

(** The outer loop over the columns. *)
Fixpoint draw_row (fuel : nat) (y : nat) (row : list Cell) (x : nat) (r : RowState) : RowState :=
  match fuel with
  | O => r
  | S fuel =>
    if (x <? WIDTH)%nat then
      if bool_decide (row !! x = prow r !! x) then draw_row fuel y row (S x) r
      else
        let r := mkRow (prow r) (last_style r) (out r ++ [TGoto (Z.of_nat y + 1) (Z.of_nat x + 1)]) in
        let '(x, r) := draw_run WIDTH row x r in
        draw_row fuel y row x r
    else r
  end.

(** All rows; each starts from the plain style. *)
Fixpoint draw_rows (y : nat) (rows prevs : list (list Cell)) : list (list Cell) * list Tok :=
  match rows, prevs with
  | row :: rows, prev :: prevs =>
    let r := draw_row (S WIDTH) y row 0 (mkRow prev style_plain []) in
    let '(prevs, toks) := draw_rows (S y) rows prevs in
    (prow r :: prevs, out r ++ toks)
  | _, _ => (prevs, [])
  end.

Definition render_diff (s : Screen) : Screen * list Tok :=
  if negb (dirty s) then (s, [])
  else
    let '(prevs, toks) := draw_rows 0 (cells s) (prev_cells s) in
    (mkScreen (cells s) prevs (cursor_x s) (cursor_y s) (cursor_visible s) false,
     [THide] ++ toks ++ [TSgr 0; TGoto (cursor_y s + 1) (cursor_x s + 1)] ++ if cursor_visible s then [TShow] else []).

(** * Theorems *)

(** ** A character terminal *)

(** What it shows at a row and column (from 0), with the attributes set since the
    last reset, and where the cursor is. *)
Record Vt := mkVt { grid : nat -> nat -> Z * list Z; vy : nat; vx : nat; attrs : list Z }.

Definition grid_set (g : nat -> nat -> Z * list Z) (y x : nat) (v : Z * list Z) : nat -> nat -> Z * list Z :=
  fun y' x' => if (y' =? y)%nat && (x' =? x)%nat then v else g y' x'.

Definition vt_step (t : Vt) (k : Tok) : Vt :=
  match k with
  | TSgr n => mkVt (grid t) (vy t) (vx t) (if n =? 0 then [] else attrs t ++ [n])
  | TGoto y x => mkVt (grid t) (Z.to_nat (y - 1)) (Z.to_nat (x - 1)) (attrs t)
  | TPut b => mkVt (grid_set (grid t) (vy t) (vx t) (b, attrs t)) (vy t) (S (vx t)) (attrs t)
  | THide | TShow => t
  end.

Definition vt_run (t : Vt) (ks : list Tok) : Vt := fold_left vt_step ks t.

Definition char_at (t : Vt) (y x : nat) : Z := fst (grid t y x).

Lemma vt_run_app t k k' : vt_run t (k ++ k') = vt_run (vt_run t k) k'.
Proof. apply fold_left_app. Qed.

(** Style changes move nothing. *)
Lemma vt_run_sgr t ks :
  Forall (fun k => exists n, k = TSgr n) ks ->
  grid (vt_run t ks) = grid t /\ vy (vt_run t ks) = vy t /\ vx (vt_run t ks) = vx t.
Proof. intros H. revert t. induction H as [|k ks [n ->] _ IH]; intros t; [done|]. simpl. by rewrite !(proj1 (IH _)), !(proj1 (proj2 (IH _))), !(proj2 (proj2 (IH _))). Qed.

Lemma style_diff_sgr p c : Forall (fun k => exists n, k = TSgr n) (write_style_diff p c).
Proof.
  unfold write_style_diff. case_match; [|constructor]. repeat apply Forall_app_2; repeat case_match; repeat constructor; eexists; reflexivity.
Qed.

(** The row of the terminal shows the characters of [row]. *)
Definition row_shows (t : Vt) (y : nat) (row : list Cell) : Prop :=
  forall x c, row !! x = Some c -> char_at t y x = shown c.

(** What drawing part of a row achieves: from a terminal that shows the previous
    row to one that shows the row up to column [x], other rows untouched. *)
Record drawn (t0 t : Vt) (y x : nat) (row : list Cell) (prev : list Cell) : Prop := {
  dr_len : length prev = length row;
  dr_shows : row_shows t y prev;
  dr_same : forall i, (i < x)%nat -> prev !! i = row !! i;
  dr_other : forall y' x', y' <> y -> grid t y' x' = grid t0 y' x';
}.

Lemma draw_cell_ok t0 t y x row prev cell sgr :
  drawn t0 t y x row prev -> vy t = y -> vx t = x -> row !! x = Some cell ->
  Forall (fun k => exists n, k = TSgr n) sgr ->
  let t' := vt_run t (sgr ++ [TPut (shown cell)]) in
  drawn t0 t' y (S x) row (<[x := cell]> prev) /\ vy t' = y /\ vx t' = S x.
Proof.
  intros [Hlen Hsh Hsame Hoth] Hy Hx Hcell Hsgr t'. destruct (vt_run_sgr t sgr Hsgr) as (Hg & Hvy & Hvx).
  unfold t'. rewrite vt_run_app. simpl. rewrite Hvy, Hvx, Hy, Hx. split; [|done].
  pose proof (lookup_lt_Some _ _ _ Hcell) as Hlt. split.
  - by rewrite length_insert.
  - intros x' c Hc. unfold char_at, grid_set. simpl. rewrite Nat.eqb_refl, Hg. destruct (Nat.eqb_spec x' x) as [->|Hne]; simpl.
    + rewrite list_lookup_insert_eq in Hc by lia. by injection Hc as <-.
    + rewrite list_lookup_insert_ne in Hc by done. by apply Hsh.
  - intros i Hi. destruct (decide (i = x)) as [->|]; [rewrite list_lookup_insert_eq by lia; done|].
    rewrite list_lookup_insert_ne by done. apply Hsame. lia.
  - intros y' x' Hne. simpl. unfold grid_set. rewrite (proj2 (Nat.eqb_neq y' y)) by done. simpl. rewrite Hg. by apply Hoth.
Qed.

Lemma draw_run_ok t0 t y row : length row = WIDTH -> forall fuel x r,
  (WIDTH - x <= fuel)%nat -> (x <= WIDTH)%nat ->
  drawn t0 (vt_run t (out r)) y x row (prow r) -> vy (vt_run t (out r)) = y -> vx (vt_run t (out r)) = x ->
  let '(x', r') := draw_run fuel row x r in
  (x <= x' <= WIDTH)%nat /\ drawn t0 (vt_run t (out r')) y x' row (prow r') /\
  ((x < WIDTH)%nat -> row !! x <> prow r !! x -> (x < x')%nat).
Proof.
  intros Hrow. induction fuel as [|fuel IH]; intros x r Hf Hx Hd Hy Hvx; cbn [draw_run]; [split; [lia|]; split; [done|lia]|].
  destruct (Nat.ltb_spec x WIDTH) as [Hlt|]; [|split; [lia|split; [done|lia]]]. pose proof (dr_len _ _ _ _ _ _ Hd) as Hlen.
  destruct (lookup_lt_is_Some_2 row x) as [cell Hcell]; [lia|]. destruct (lookup_lt_is_Some_2 (prow r) x) as [prev Hprev]; [lia|].
  rewrite Hcell, Hprev. cbn [from_option id]. destruct (bool_decide (cell = prev) && _) eqn:E.
  - apply andb_prop in E as [E%bool_decide_eq_true_1 _]. split; [lia|]. split; [done|congruence].
  - clear E. set (r1 := mkRow _ _ _).
    destruct (draw_cell_ok t0 (vt_run t (out r)) y x row (prow r) cell
      (if bool_decide (style cell = last_style r) then [] else write_style_diff (last_style r) (style cell)) Hd Hy Hvx Hcell) as (Hd1 & Hy1 & Hx1).
    { case_match; [constructor|apply style_diff_sgr]. }
    rewrite <-vt_run_app in Hd1, Hy1, Hx1. specialize (IH (S x) r1 ltac:(lia) ltac:(lia) Hd1 Hy1 Hx1).
    destruct (draw_run fuel row (S x) r1) as [x' r']. destruct IH as (H1 & H2 & _). split; [lia|]. split; [done|lia].
Qed.

Lemma draw_row_ok t0 t y row : length row = WIDTH -> forall fuel x r,
  (WIDTH - x < fuel)%nat -> (x <= WIDTH)%nat -> drawn t0 (vt_run t (out r)) y x row (prow r) ->
  let r' := draw_row fuel y row x r in drawn t0 (vt_run t (out r')) y WIDTH row (prow r').
Proof.
  intros Hrow. induction fuel as [|fuel IH]; intros x r Hf Hx Hd; [lia|]. cbn [draw_row].
  destruct (Nat.ltb_spec x WIDTH) as [Hlt|]; [|by replace WIDTH with x by lia]. case_bool_decide as Heq.
  - apply IH; [lia|lia|]. destruct Hd as [H1 H2 H3 H4]. split; [done|done| |done]. intros i Hi.
    destruct (decide (i = x)) as [->|]; [done|]. apply H3. lia.
  - set (r1 := mkRow _ _ _).
    assert (vt_run t (out r1) = mkVt (grid (vt_run t (out r))) y x (attrs (vt_run t (out r)))) as Et.
    { unfold r1. cbn [out]. rewrite vt_run_app. simpl. f_equal; lia. }
    pose proof (draw_run_ok t0 t y row Hrow WIDTH x r1 ltac:(lia) ltac:(lia)) as Hr. rewrite Et in Hr.
    specialize (Hr ltac:(destruct Hd; by split) eq_refl eq_refl).
    destruct (draw_run WIDTH row x r1) as [x' r']. destruct Hr as (H1 & H2 & H3). specialize (H3 Hlt Heq). apply IH; [lia|lia|done].
Qed.

(** The rows from [y] on. *)
Lemma draw_rows_ok t y rows prevs :
  Forall (fun row => length row = WIDTH) rows -> Forall2 (fun a b : list Cell => length a = length b) rows prevs ->
  (forall i prev, prevs !! i = Some prev -> row_shows t (y + i) prev) ->
  let '(prevs', toks) := draw_rows y rows prevs in
  prevs' = rows /\ (forall i row, rows !! i = Some row -> row_shows (vt_run t toks) (y + i) row) /\
  (forall y' x', (y' < y)%nat -> grid (vt_run t toks) y' x' = grid t y' x').
Proof.
  intros Hw H2. revert t y Hw. induction H2 as [|row prev rows prevs Hl H2 IH]; intros t y Hw Hs; cbn [draw_rows]; [by split_and!|].
  apply Forall_cons in Hw as [Hrow Hw].
  pose proof (draw_row_ok t t y row Hrow (S WIDTH) 0 (mkRow prev style_plain []) ltac:(lia) ltac:(lia)) as Hr.
  assert (drawn t t y 0 row prev) as Hd.
  { split; [done| |lia|done]. specialize (Hs 0%nat prev eq_refl). by rewrite Nat.add_0_r in Hs. }
  specialize (Hr Hd). cbn zeta in Hr. set (r := draw_row _ _ _ _ _) in *. destruct Hr as [R1 R2 R3 R4].
  assert (prow r = row) as Epr.
  { apply list_eq_same_length with (length row); [done|done|]. intros i a b Hi Ha Hb. rewrite R3 in Ha by lia. congruence. }
  specialize (IH (vt_run t (out r)) (S y) Hw). destruct (draw_rows (S y) rows prevs) as [prevs' toks].
  destruct IH as (-> & I1 & I2).
  { intros i p Hi x c Hc. unfold char_at. rewrite R4 by lia. rewrite Nat.add_succ_comm. by apply (Hs (S i) p). }
  rewrite vt_run_app. split; [by rewrite Epr|]. split.
  - intros [|i] q Hq; simpl in Hq.
    + injection Hq as <-. rewrite Nat.add_0_r. intros x c Hc. unfold char_at. rewrite I2 by lia. apply R2. by rewrite Epr.
    + rewrite <-Nat.add_succ_comm. by apply I1.
  - intros y' x' Hy'. rewrite I2 by lia. apply R4. lia.
Qed.

Definition screen_ok (s : Screen) : Prop :=
  Forall (fun row => length row = WIDTH) (cells s) /\ Forall2 (fun a b : list Cell => length a = length b) (cells s) (prev_cells s).

(** A terminal that shows the characters of the previous frame shows those of the
    current frame after it has been sent the difference, and the current frame
    becomes the previous one: no changed cell is skipped, and every character
    sent lands in its own cell. *)
Theorem render_diff_shows s t :
  screen_ok s -> dirty s = true -> (forall y row, prev_cells s !! y = Some row -> row_shows t y row) ->
  let '(s', toks) := render_diff s in
  cells s' = cells s /\ prev_cells s' = cells s /\ dirty s' = false /\
  forall y row, cells s !! y = Some row -> row_shows (vt_run t toks) y row.
Proof.
  intros [H1 H2] Hd Hs. unfold render_diff. rewrite Hd. pose proof (draw_rows_ok t 0 (cells s) (prev_cells s) H1 H2 Hs) as Hr. simpl negb.
  destruct (draw_rows 0 (cells s) (prev_cells s)) as [prevs toks]. destruct Hr as (-> & Hr & _). split_and!; [done..|].
  intros y row Hy x c Hc. specialize (Hr y row Hy x c Hc). simpl in Hr. rewrite !vt_run_app.
  unfold char_at in *. destruct (cursor_visible s); simpl; exact Hr.
Qed.

(** A red letter at the end of the first row, a plain one in the next. *)
Definition two_letters : Screen :=
  default screen_new (s ← write_char 79 0 65 (colored RED BLACK) screen_new; write_char 0 1 66 style_plain s).

Definition first_row : list Cell := default [] (cells two_letters !! 0%nat).

Definition blank_vt : Vt := mkVt (fun _ _ => (32, [])) 0 0 [].

Lemma render_diff_shows_witness :
  char_at (vt_run blank_vt (snd (render_diff two_letters))) 0 79 = 65.
Proof.
  pose proof (render_diff_shows two_letters blank_vt) as H.
  assert (forall row, row ∈ blank_rows -> row = replicate WIDTH cell_empty) as Hb by (intros row Hr; by apply elem_of_replicate in Hr as [-> _]).
  assert (screen_ok two_letters) as Hok.
  { split; [apply (bool_decide_unpack (Forall (fun row => length row = WIDTH) (cells two_letters)))|
      apply (bool_decide_unpack (Forall2 (fun a b : list Cell => length a = length b) (cells two_letters) (prev_cells two_letters)))]; vm_compute; exact I. }
  specialize (H Hok eq_refl). destruct (render_diff two_letters) as [s' toks] eqn:E. destruct H as (_ & _ & _ & H).
  - intros y row Hy x c Hc. rewrite (Hb row) in Hc by (by eapply list_elem_of_lookup_2). apply lookup_replicate in Hc as [-> _]. reflexivity.
  - assert (cells two_letters !! 0%nat = Some first_row) as E0 by (vm_compute; reflexivity).
    apply (H 0%nat first_row E0 79%nat (mkCell 65 (colored RED BLACK))). vm_compute. reflexivity.
Defined.

(** The style is wrong, though: each row assumes that the terminal is in the
    plain style, so a plain letter is drawn in the style in which the row above
    ended. *)
Theorem style_leaks_to_next_row :
  default cell_empty (default [] (cells two_letters !! 1%nat) !! 0%nat) = mkCell 66 style_plain /\
  grid (vt_run blank_vt (snd (render_diff two_letters))) 1 0 = (66, [ansi_fg RED; ansi_bg BLACK]).
Proof. split; vm_compute; reflexivity. Qed.
