(* ===== verification/TermEdit.v ===== *)
(** The panels of the terminal (src/kernel/src/katerm/tui/panels/): the input line
    with its history, the output pane, the tab and status bars, and the key
    handling of tui/mod.rs.  In the input line an index or a slice out of range is a
    panic, [None]. *)
From stdpp Require Import base tactics numbers list.
From Stdlib Require Import ZArith Lia.
From S2P Require Import Prelude TermInput TermScreen.

Local Open Scope Z_scope.

(** [core::str::from_utf8]: well-formed UTF-8. *)
Definition utf8_cont (b : Z) : bool := (0x80 <=? b) && (b <=? 0xBF).
Definition utf8_two (a b : Z) : bool := (0xC2 <=? a) && (a <=? 0xDF) && utf8_cont b.
Definition utf8_three (a b c : Z) : bool :=
  (((a =? 0xE0) && (0xA0 <=? b) && (b <=? 0xBF)) || ((0xE1 <=? a) && (a <=? 0xEC) && utf8_cont b) ||
   ((a =? 0xED) && (0x80 <=? b) && (b <=? 0x9F)) || ((0xEE <=? a) && (a <=? 0xEF) && utf8_cont b)) && utf8_cont c.
Definition utf8_four (a b c d : Z) : bool :=
  (((a =? 0xF0) && (0x90 <=? b) && (b <=? 0xBF)) || ((0xF1 <=? a) && (a <=? 0xF3) && utf8_cont b) ||
   ((a =? 0xF4) && (0x80 <=? b) && (b <=? 0x8F))) && utf8_cont c && utf8_cont d.

(** The characters of a byte string, if it is well formed. *)
Fixpoint utf8_chars (l : list Z) : option (list Z) :=
  match l with
  | [] => Some []
  | a :: l1 =>
    if a <? 0x80 then cons a <$> utf8_chars l1
    else match l1 with
      | [] => None
      | b :: l2 =>
        if utf8_two a b then cons (Z.land a 0x1F * 64 + Z.land b 0x3F) <$> utf8_chars l2
        else match l2 with
          | [] => None
          | c :: l3 =>
            if utf8_three a b c then cons (Z.land a 0xF * 4096 + Z.land b 0x3F * 64 + Z.land c 0x3F) <$> utf8_chars l3
            else match l3 with
              | [] => None
              | d :: l4 =>
                if utf8_four a b c d
                then cons (Z.land a 0x7 * 262144 + Z.land b 0x3F * 4096 + Z.land c 0x3F * 64 + Z.land d 0x3F) <$> utf8_chars l4 else None
              end
          end
      end
  end.

(** [from_utf8(..).unwrap_or("")], and [.chars()] of it. *)
Definition str_or_empty (l : list Z) : list Z := if utf8_chars l is Some _ then l else [].
Definition chars_or_empty (l : list Z) : list Z := default [] (utf8_chars l).

(** ** The input line *)

Definition MAX_INPUT : nat := 256.

(** [submitted] lists what the callback was given. *)
Record InputLine := mkInput {
  ibuf : list Z; ilen : nat; icursor : nat;
  history : list (list Z); history_lens : list nat; history_count : nat; history_pos : nat;
  idirty : bool; submitted : list (list Z);
}.

Definition input_new : InputLine :=
  mkInput (replicate MAX_INPUT 0) 0 0 (replicate 32 (replicate MAX_INPUT 0)) (replicate 32 0%nat) 0 0 true [].

Definition with_text (s : InputLine) (b : list Z) (n c : nat) : InputLine :=
  mkInput b n c (history s) (history_lens s) (history_count s) (history_pos s) true (submitted s).
Definition with_pos (s : InputLine) (p : nat) : InputLine :=
  mkInput (ibuf s) (ilen s) (icursor s) (history s) (history_lens s) (history_count s) p (idirty s) (submitted s).

(** [dst[..len].copy_from_slice(&src[..len])], and with the check of both slices. *)
Definition copy_prefix (dst src : list Z) (len : nat) : list Z := take len src ++ drop len dst.
Definition copy_slice (dst src : list Z) (len : nat) : option (list Z) :=
  if ((len <=? length dst) && (len <=? length src))%nat then Some (copy_prefix dst src len) else None.

(** [a[i] = v] *)
Definition store_at {A} (a : list A) (i : nat) (v : A) : option (list A) := if (i <? length a)%nat then Some (<[i := v]> a) else None.

Definition get_input (s : InputLine) : option (list Z) :=
  if (ilen s <=? length (ibuf s))%nat then Some (str_or_empty (take (ilen s) (ibuf s))) else None.
Definition set_input (s : InputLine) (text : list Z) : option InputLine :=
  let len := Nat.min (length text) MAX_INPUT in
  b ← copy_slice (ibuf s) text len;
  Some (with_text s b len len).
Definition input_clear (s : InputLine) : InputLine := with_text s (ibuf s) 0 0.

Definition push_history (s : InputLine) : option InputLine :=
  if (ilen s =? 0)%nat then Some s
  else
    let idx := (history_count s mod 32)%nat in
    old ← history s !! idx;
    new ← copy_slice old (ibuf s) (ilen s);
    h ← store_at (history s) idx new;
    hl ← store_at (history_lens s) idx (ilen s);
    let n := if (history_count s <? 32)%nat then S (history_count s) else history_count s in
    Some (mkInput (ibuf s) (ilen s) (icursor s) h hl n n (idirty s) (submitted s)).

(** The entry at a position becomes the line. *)
Definition recall (s : InputLine) : option InputLine :=
  let idx := (history_pos s mod 32)%nat in
  len ← history_lens s !! idx;
  h ← history s !! idx;
  b ← copy_slice (ibuf s) h len;
  Some (with_text s b len len).

Definition history_up (s : InputLine) : option InputLine :=
  if (history_count s =? 0)%nat then Some s
  else recall (if (0 <? history_pos s)%nat then with_pos s (history_pos s - 1) else s).

Definition history_down (s : InputLine) : option InputLine :=
  let s := if (history_pos s <? history_count s)%nat then with_pos s (S (history_pos s)) else s in
  if (history_count s <=? history_pos s)%nat then Some (with_text s (ibuf s) 0 0) else recall s.

(** [buf[i] = buf[j]] *)
Definition move_byte (i j : nat) (buf : list Z) : option (list Z) := v ← buf !! j; store_at buf i v.

(** [for i in (a..b).rev() { buf[i + 1] = buf[i] }] *)
Definition shift_right (a b : nat) (buf : list Z) : option (list Z) := oloop (rev (seq a (b - a))) (fun i => move_byte (S i) i) buf.

(** [for i in a..b { buf[i - 1] = buf[i] }] *)
Definition shift_left (a b : nat) (buf : list Z) : option (list Z) :=
  oloop (seq a (b - a)) (fun i buf => if i is S j then move_byte j i buf else None) buf.

(** [for i in a..b { buf[i] = buf[i + 1] }] *)
Definition shift_down (a b : nat) (buf : list Z) : option (list Z) := oloop (seq a (b - a)) (fun i => move_byte i (S i)) buf.

Definition submit (s : InputLine) : option InputLine :=
  let len := Nat.min (ilen s) 256 in
  input_buf ← copy_slice (replicate 256 0) (ibuf s) len;
  let input := str_or_empty (take len input_buf) in
  s ← push_history s;
  Some (mkInput (ibuf s) 0 0 (history s) (history_lens s) (history_count s) (history_pos s) true (submitted s ++ [input])).

(** [x -= 1] *)
Definition less_one (n : nat) : option nat := if n is S m then Some m else None.

(** The branches that write into the array. *)
Definition insert_char (s : InputLine) (c : Z) : option InputLine :=
  b ← shift_right (icursor s) (ilen s) (ibuf s);
  b ← store_at b (icursor s) (c mod 256);
  Some (with_text s b (S (ilen s)) (S (icursor s))).
Definition backspace (s : InputLine) : option InputLine :=
  b ← shift_left (icursor s) (ilen s) (ibuf s);
  cursor ← less_one (icursor s);
  len ← less_one (ilen s);
  Some (with_text s b len cursor).
Definition delete_char (s : InputLine) : option InputLine :=
  last ← less_one (ilen s);
  b ← shift_down (icursor s) last (ibuf s);
  Some (with_text s b last (icursor s)).

Definition handle_key (s : InputLine) (key : KeyEvent) : option (bool * InputLine) :=
  match key with
  | KChar c => pair true <$> (if (ilen s <? MAX_INPUT)%nat then insert_char s c else Some s)
  | KEnter => pair true <$> submit s
  | KBackspace => pair true <$> (if (0 <? icursor s)%nat then backspace s else Some s)
  | KDelete => pair true <$> (if (icursor s <? ilen s)%nat then delete_char s else Some s)
  | KLeft => Some (true, if (0 <? icursor s)%nat then with_text s (ibuf s) (ilen s) (icursor s - 1) else s)
  | KRight => Some (true, if (icursor s <? ilen s)%nat then with_text s (ibuf s) (ilen s) (S (icursor s)) else s)
  | KHome => Some (true, with_text s (ibuf s) (ilen s) 0)
  | KEnd => Some (true, with_text s (ibuf s) (ilen s) (ilen s))
  | KUp => pair true <$> history_up s
  | KDown => pair true <$> history_down s
  | _ => Some (false, s)
  end.

(** ** The output pane *)

Definition MAX_LINES : nat := 200.
Definition MAX_LINE_LEN : nat := 256.

Record OutputPane := mkPane {
  area : Rect; lines : list (list Z); line_lens : list nat; line_styles : list Style;
  phead : nat; pcount : nat; scroll : Z; pdirty : bool;
}.

Definition pane_new (a : Rect) : OutputPane :=
  mkPane a (replicate MAX_LINES (replicate MAX_LINE_LEN 0)) (replicate MAX_LINES 0%nat) (replicate MAX_LINES style_plain) 0 0 0 true.

Definition push_line (p : OutputPane) (text : list Z) (st : Style) : OutputPane :=
  let idx := ((phead p + pcount p) mod MAX_LINES)%nat in
  let len := Nat.min (length text) MAX_LINE_LEN in
  let ls := <[idx := copy_prefix (default [] (lines p !! idx)) text len]> (lines p) in
  let '(h, n) := if (pcount p <? MAX_LINES)%nat then (phead p, S (pcount p)) else ((S (phead p) mod MAX_LINES)%nat, pcount p) in
  mkPane (area p) ls (<[idx := len]> (line_lens p)) (<[idx := st]> (line_styles p)) h n 0 true.

(** [text.split('\n')] *)
Fixpoint split_lines (text : list Z) : list (list Z) :=
  match text with
  | [] => [[]]
  | c :: text =>
    if c =? 10 then [] :: split_lines text
    else match split_lines text with l :: ls => (c :: l) :: ls | [] => [[c]] end
  end.

Definition push_output (p : OutputPane) (text : list Z) : OutputPane :=
  fold_left (fun p line => if negb (bool_decide (line = [])) || (pcount p =? 0)%nat then push_line p line style_plain else p)
    (split_lines text) p.
Definition push_error (p : OutputPane) (text : list Z) : OutputPane :=
  fold_left (fun p line => push_line p line (colored RED BLACK)) (split_lines text) p.
Definition push_info (p : OutputPane) (text : list Z) : OutputPane :=
  fold_left (fun p line => push_line p line (colored CYAN BLACK)) (split_lines text) p.

Definition with_scroll (p : OutputPane) (z : Z) : OutputPane :=
  mkPane (area p) (lines p) (line_lens p) (line_styles p) (phead p) (pcount p) z true.
Definition scroll_up (p : OutputPane) (amount : Z) : OutputPane :=
  let max_scroll := saturating_sub (Z.of_nat (pcount p)) (rh (area p)) in with_scroll p (Z.min (wrap 64 (scroll p + amount)) max_scroll).
Definition scroll_down (p : OutputPane) (amount : Z) : OutputPane := with_scroll p (saturating_sub (scroll p) amount).
Definition scroll_page_up (p : OutputPane) : OutputPane := scroll_up p (wrap 64 (rh (area p) - 2)).
Definition scroll_page_down (p : OutputPane) : OutputPane := scroll_down p (wrap 64 (rh (area p) - 2)).
Definition scroll_to_bottom (p : OutputPane) : OutputPane := with_scroll p 0.
Definition pane_clear (p : OutputPane) : OutputPane :=
  mkPane (area p) (lines p) (line_lens p) (line_styles p) 0 0 0 true.

Definition pane_key (p : OutputPane) (key : KeyEvent) : bool * OutputPane :=
  match key with
  | KPageUp => (true, scroll_page_up p)
  | KPageDown => (true, scroll_page_down p)
  | KUp => (true, scroll_up p 1)
  | KDown => (true, scroll_down p 1)
  | _ => (false, p)
  end.

(** The first line shown. *)
Definition first_visible (p : OutputPane) : Z :=
  let visible := rh (area p) in
  let total := Z.of_nat (pcount p) in
  if total >? visible + scroll p then total - visible - scroll p else 0.

(** Drawing the lines (the scroll indicator, computed in floating point, is not
    modelled). *)
Definition render_lines (p : OutputPane) (s : Screen) : option Screen :=
  let a := area p in
  s ← fill a 32 style_plain s;
  let start := first_visible p in
  oloop (seq 0 (Z.to_nat (Z.min (rh a) (Z.of_nat (pcount p) - start)))) (fun row s =>
    let idx := ((phead p + (Z.to_nat start + row)) mod MAX_LINES)%nat in
    let line := chars_or_empty (take (default 0%nat (line_lens p !! idx)) (default [] (lines p !! idx))) in
    let y := (Z.to_nat (ry a) + row)%nat in
    if (y <? 25)%nat
    then snd <$> put_text y (Z.to_nat (rx a)) (Z.to_nat (rx a) + Z.to_nat (rw a)) line (default style_plain (line_styles p !! idx)) s
    else Some s) s.

(** ** Rendering of the input line *)

Definition render_input (y : nat) (prompt : list Z) (i : InputLine) (s : Screen) : option Screen :=
  s ← oloop (seq 0 80) (fun x => put_cell y x (mkCell 32 (colored BLACK WHITE))) s;
  r ← put_text y 0 80 prompt (colored BLACK GREEN) s;
  snd <$> put_text y (fst r) 79 (take (ilen i) (ibuf i)) (colored BLACK WHITE) (snd r).

(** ** The status and tab bars *)

Record StatusBar := mkStatus { sarea : Rect; left_text : list Z; left_len : nat; right_text : list Z; right_len : nat }.

Definition status_new (y : Z) : StatusBar := mkStatus (mkRect 0 y 80 1) (replicate 40 0) 0 (replicate 40 0) 0.
Definition set_left (b : StatusBar) (text : list Z) : StatusBar :=
  let len := Nat.min (length text) 40 in
  mkStatus (sarea b) (copy_prefix (left_text b) text len) len (right_text b) (right_len b).
Definition set_right (b : StatusBar) (text : list Z) : StatusBar :=
  let len := Nat.min (length text) 40 in
  mkStatus (sarea b) (left_text b) (left_len b) (copy_prefix (right_text b) text len) len.

Definition render_status (b : StatusBar) (s : Screen) : option Screen :=
  let st := colored BLACK WHITE in
  s ← fill (sarea b) 32 st s;
  let y := Z.to_nat (ry (sarea b)) in
  r ← put_text y 0 79 (chars_or_empty (take (left_len b) (left_text b))) st s;
  let right := str_or_empty (take (right_len b) (right_text b)) in
  r ← put_text y (80 - length right) 80 (chars_or_empty right) st (snd r);
  let sep_x := (left_len b + 2)%nat in
  if (0 <? left_len b)%nat && (0 <? right_len b)%nat && (sep_x <? 80)%nat
  then put_cell y sep_x (mkCell 124 (colored BLACK CYAN)) (snd r) else Some (snd r).

Record TabBar := mkTabs { tarea : Rect; tabs : list (list Z); tactive : nat }.

Definition tabs_new (y : Z) (names : list (list Z)) : TabBar := mkTabs (mkRect 0 y 80 1) names 0.
Definition tabs_set_active (b : TabBar) (idx : nat) : TabBar :=
  if (idx <? length (tabs b))%nat then mkTabs (tarea b) (tabs b) idx else b.

(** One tab, from the column reached so far. *)
Definition draw_tab (y act : nat) (p : nat * list Z) (r : nat * Screen) : option (nat * Screen) :=
  let '(i, tab) := p in
  let on := (i =? act)%nat in
  let st := if on then style_reverse (colored BLACK WHITE) else colored WHITE BLUE in
  r ← put_text y (fst r) 80 (if on then [32] else []) st (snd r);
  r ← put_text y (fst r) 80 tab st (snd r);
  r ← put_text y (fst r) 80 (if on then [32] else []) st (snd r);
  put_text y (fst r) 80 [32] (colored BLACK BLUE) (snd r).

Definition render_tabs (b : TabBar) (s : Screen) : option Screen :=
  s ← fill (tarea b) 32 (colored BLACK BLUE) s;
  r ← oloop (imap pair (tabs b)) (draw_tab (Z.to_nat (ry (tarea b))) (tactive b)) (1%nat, s);
  Some (snd r).

(** ** Key handling of the whole interface *)

(** The inspectors by their titles; which one is shown. *)
Record Inspector := mkInspector { titles : list (list Z); iactive : nat }.
Definition inspector_set_active (i : Inspector) (idx : nat) : Inspector :=
  if (idx <? length (titles i))%nat then mkInspector (titles i) idx else i.
Definition active_title (i : Inspector) : list Z := default [] (titles i !! iactive i).

(** [inspector_keys] are the keys passed on to the active inspector. *)
Record TuiState := mkTui {
  parser : InputParser; active_panel : nat; inspector_tab : nat; inspector : Inspector;
  input : InputLine; status : StatusBar; tabbar : TabBar; inspector_keys : list KeyEvent;
}.

(** ["TUI | output"], ["TUI | inspector"], ["TUI | "] *)
Definition S_OUTPUT : list Z := [84; 85; 73; 32; 124; 32; 111; 117; 116; 112; 117; 116].
Definition S_INSPECTOR : list Z := [84; 85; 73; 32; 124; 32; 105; 110; 115; 112; 101; 99; 116; 111; 114].
Definition S_PREFIX : list Z := [84; 85; 73; 32; 124; 32].
Definition S_TUI : list Z := [84; 85; 73].

Definition with_tab (s : TuiState) (tab : nat) : TuiState :=
  mkTui (parser s) (active_panel s) tab (inspector_set_active (inspector s) tab) (input s) (status s) (tabs_set_active (tabbar s) tab) (inspector_keys s).
Definition with_status (s : TuiState) (text : list Z) : TuiState :=
  mkTui (parser s) (active_panel s) (inspector_tab s) (inspector s) (input s) (set_left (status s) text) (tabbar s) (inspector_keys s).

Definition handle_key_event (key : KeyEvent) (s : TuiState) : option TuiState :=
  match key, active_panel s with
  | KEscape, 1%nat =>
    Some (with_status (mkTui (parser s) 0 (inspector_tab s) (inspector s) (input s) (status s) (tabbar s) (inspector_keys s)) S_OUTPUT)
  | KEscape, _ =>
    Some (with_status (mkTui (parser s) 1 0 (inspector_set_active (inspector s) 0) (input s) (status s) (tabbar s) (inspector_keys s)) S_INSPECTOR)
  | KTab, 1%nat =>
    let s := with_tab s ((inspector_tab s + 1) mod length (titles (inspector s)))%nat in
    let name := active_title (inspector s) in
    let text := take 40 (S_PREFIX ++ name) in
    Some (with_status s (if utf8_chars text is Some _ then text else S_TUI))
  | KShiftTab, 1%nat =>
    Some (with_tab s (if (0 <? inspector_tab s)%nat then inspector_tab s - 1 else length (titles (inspector s)) - 1)%nat)
  | _, 1%nat =>
    Some (mkTui (parser s) (active_panel s) (inspector_tab s) (inspector s) (input s) (status s) (tabbar s) (inspector_keys s ++ [key]))
  | _, _ =>
    r ← handle_key (input s) key;
    Some (mkTui (parser s) (active_panel s) (inspector_tab s) (inspector s) (snd r) (status s) (tabbar s) (inspector_keys s))
  end.

(** The bytes read in one call of [process_input_tui]. *)
Fixpoint tui_bytes (s : TuiState) (bytes : list Z) : option TuiState :=
  match bytes with
  | [] => Some s
  | b :: rest =>
    let '(key, p) := feed (parser s) b in
    let s := mkTui p (active_panel s) (inspector_tab s) (inspector s) (input s) (status s) (tabbar s) (inspector_keys s) in
    s ← (if key is Some k then handle_key_event k s else Some s);
    tui_bytes s rest
  end.

(** ["Tasks"], ["CPUs"], ["Memory"], ["IRQs"]; ["Tab:switch  Esc:exit"] *)
Definition TAB_NAMES : list (list Z) :=
  [[84; 97; 115; 107; 115]; [67; 80; 85; 115]; [77; 101; 109; 111; 114; 121]; [73; 82; 81; 115]].
Definition S_HELP : list Z := [84; 97; 98; 58; 115; 119; 105; 116; 99; 104; 32; 32; 69; 115; 99; 58; 101; 120; 105; 116].

(** The titles of the inspectors are the names of the tabs. *)
Definition create_tui_state : TuiState :=
  mkTui parser_new 0 0 (mkInspector TAB_NAMES 0) input_new (set_right (set_left (status_new 22) S_OUTPUT) S_HELP) (tabs_new 0 TAB_NAMES) [].
