(* ===== verification/TermThms.v ===== *)
(** Theorems of the terminal panels: editing, history, scrollback, the panels on
    the screen, and the keys that reach them. *)
From stdpp Require Import base tactics numbers list.
From Stdlib Require Import ZArith Lia ZifyNat.
From S2P Require Import Prelude TermInput TermScreen TermEdit.

Local Open Scope Z_scope.

(** ** Editing *)

Lemma move_byte_ok i j buf : (i < length buf)%nat -> (j < length buf)%nat ->
  exists v, buf !! j = Some v /\ move_byte i j buf = Some (<[i := v]> buf).
Proof.
  intros Hi Hj. destruct (lookup_lt_is_Some_2 buf j Hj) as [v Hv]. exists v. split; [done|]. unfold move_byte, store_at. rewrite Hv. cbn [mbind option_bind].
  by rewrite (proj2 (Nat.ltb_lt _ _)).
Qed.

Lemma shift_right_ok n : forall a buf, (a + n < length buf)%nat ->
  exists buf', shift_right a (a + n) buf = Some buf' /\ length buf' = length buf /\
    forall j, buf' !! j = if decide (a < j <= a + n)%nat then buf !! (j - 1)%nat else buf !! j.
Proof.
  unfold shift_right. intros a. replace (a + n - a)%nat with n by lia. induction n as [|n IH]; intros buf Hl.
  { exists buf. split; [done|]. split; [done|]. intros j. by rewrite decide_False by lia. }
  rewrite seq_S, rev_app_distr. cbn [rev app oloop]. destruct (move_byte_ok (S (a + n)) (a + n) buf) as (v & Hv & ->); [lia|lia|]. cbn [mbind option_bind].
  destruct (IH (<[S (a + n) := v]> buf)) as (buf' & -> & Hlen & Hget); [rewrite length_insert; lia|].
  exists buf'. split; [done|]. rewrite length_insert in Hlen. split; [done|]. intros j. rewrite Hget. destruct (decide (j = S (a + n))) as [->|Hne].
  - rewrite decide_False, decide_True, list_lookup_insert_eq by lia. by replace (S (a + n) - 1)%nat with (a + n)%nat by lia.
  - repeat case_decide; try lia; by rewrite list_lookup_insert_ne by lia.
Qed.

Lemma oloop_app {A B} (l k : list A) (f : A -> B -> option B) : forall s, oloop (l ++ k) f s = oloop l f s ≫= oloop k f.
Proof. induction l as [|x l IH]; intros s; simpl; [done|]. destruct (f x s); simpl; [apply IH|done]. Qed.

Lemma oloop_map {A C B} (g : A -> C) (f : C -> B -> option B) (l : list A) : forall s, oloop (map g l) f s = oloop l (fun x => f (g x)) s.
Proof. induction l as [|x l IH]; intros s; simpl; [done|]. by destruct (f (g x) s); simpl. Qed.

Lemma shift_down_ok n : forall a buf, (a + n < length buf)%nat \/ n = 0%nat ->
  exists buf', shift_down a (a + n) buf = Some buf' /\ length buf' = length buf /\
    forall j, buf' !! j = if decide (a <= j < a + n)%nat then buf !! S j else buf !! j.
Proof.
  unfold shift_down. intros a buf. replace (a + n - a)%nat with n by lia. induction n as [|n IH]; intros Hl.
  { exists buf. split; [done|]. split; [done|]. intros j. by rewrite decide_False by lia. }
  destruct IH as (b1 & E & Hlen & Hget); [lia|]. rewrite seq_S, oloop_app, E. cbn [mbind option_bind oloop].
  destruct (move_byte_ok (a + n) (S (a + n)) b1) as (v & Hv & ->); [lia|lia|]. cbn [mbind option_bind]. eexists. split; [done|].
  rewrite length_insert. split; [done|]. intros j. rewrite Hget, decide_False in Hv by lia. destruct (decide (j = a + n)%nat) as [->|Hne].
  - rewrite list_lookup_insert_eq, decide_True by lia. by rewrite Hv.
  - rewrite list_lookup_insert_ne, Hget by lia. repeat case_decide; (done || lia).
Qed.

(** The two loops that close a gap do the same. *)
Lemma shift_left_down a b buf : shift_left (S a) b buf = shift_down a (b - 1) buf.
Proof. unfold shift_left, shift_down. rewrite <-seq_shift, oloop_map. by replace (b - S a)%nat with (b - 1 - a)%nat by lia. Qed.

Record input_ok (s : InputLine) : Prop := {
  io_buf : length (ibuf s) = 256%nat;
  io_cursor : (icursor s <= ilen s <= 256)%nat;
  io_hist : length (history s) = 32%nat;
  io_entries : Forall (fun h => length h = 256%nat) (history s);
  io_lens : length (history_lens s) = 32%nat;
  io_lens_le : Forall (fun n => n <= 256)%nat (history_lens s);
  io_count : (history_count s <= 32)%nat;
  io_pos : (history_pos s <= history_count s)%nat;
}.

Definition text (s : InputLine) : list Z := take (ilen s) (ibuf s).

(** The text before and after the cursor. *)
Definition zipper (s : InputLine) : list Z * list Z := (take (icursor s) (text s), drop (icursor s) (text s)).

(** Editing of a text with a cursor. *)
Definition edit_key (key : KeyEvent) (z : list Z * list Z) : list Z * list Z :=
  let '(b, a) := z in
  match key with
  | KChar c => if (length b + length a <? 256)%nat then (b ++ [c mod 256], a) else z
  | KBackspace => (take (length b - 1) b, a)
  | KDelete => (b, drop 1 a)
  | KLeft => (take (length b - 1) b, drop (length b - 1) b ++ a)
  | KRight => (b ++ take 1 a, drop 1 a)
  | KHome => ([], b ++ a)
  | KEnd => (b ++ a, [])
  | KEnter => ([], [])
  | _ => z
  end.

Lemma text_length s : input_ok s -> length (text s) = ilen s.
Proof. intros [Hb Hc]. unfold text. rewrite length_take. lia. Qed.

(** A state with a new text and cursor. *)
Lemma zipper_with s b n c :
  zipper (with_text s b n c) = (take c (take n b), drop c (take n b)).
Proof. done. Qed.

Lemma with_text_ok s b n c : input_ok s -> length b = 256%nat -> (c <= n <= 256)%nat -> input_ok (with_text s b n c).
Proof. intros []. by split. Qed.

(** Inserting shifts the rest up. *)
Lemma insert_char_ok s c : input_ok s -> (ilen s < 256)%nat ->
  exists b, insert_char s c = Some (with_text s b (S (ilen s)) (S (icursor s))) /\ length b = 256%nat /\
    take (S (ilen s)) b = take (icursor s) (text s) ++ c mod 256 :: drop (icursor s) (text s).
Proof.
  intros [Hb Hc _ _ _ _ _ _] Hl. destruct (shift_right_ok (ilen s - icursor s) (icursor s) (ibuf s)) as (b & E & Hlen & Hget); [lia|].
  replace (icursor s + (ilen s - icursor s))%nat with (ilen s) in E, Hget by lia. unfold insert_char. rewrite E. cbn [mbind option_bind].
  unfold store_at. rewrite (proj2 (Nat.ltb_lt _ _)) by lia. cbn [mbind option_bind]. eexists. split; [done|]. rewrite length_insert. split; [lia|].
  apply list_eq. intros j. unfold text. destruct (decide (j < S (ilen s))%nat) as [Hj|Hj].
  - rewrite lookup_take_lt by done. destruct (decide (j < icursor s)%nat) as [H1|H1].
    + rewrite list_lookup_insert_ne, Hget, decide_False by lia. rewrite lookup_app_l by (rewrite !length_take; lia).
      by rewrite !lookup_take_lt by lia.
    + rewrite lookup_app_r by (rewrite !length_take; lia). rewrite !length_take.
      replace (icursor s `min` (ilen s `min` length (ibuf s)))%nat with (icursor s) by lia.
      destruct (decide (j = icursor s)) as [->|H2].
      * rewrite list_lookup_insert_eq by lia. by rewrite Nat.sub_diag.
      * rewrite list_lookup_insert_ne, Hget, decide_True by lia. rewrite lookup_cons_ne_0 by lia.
        rewrite lookup_drop, lookup_take_lt by lia. f_equal. lia.
  - rewrite lookup_take_ge by lia. symmetry. apply lookup_ge_None_2. rewrite length_app. cbn [length]. rewrite length_take, length_drop, length_take. lia.
Qed.

(** Removing byte [a] closes the gap. *)
Lemma remove_byte_ok s a : input_ok s -> (a < ilen s)%nat ->
  exists b, shift_down a (ilen s - 1) (ibuf s) = Some b /\ length b = 256%nat /\ take (ilen s - 1) b = take a (text s) ++ drop (S a) (text s).
Proof.
  intros [Hb Hc _ _ _ _ _ _] Hl. destruct (shift_down_ok (ilen s - 1 - a) a (ibuf s)) as (b & E & Hlen & Hget); [lia|].
  replace (a + (ilen s - 1 - a))%nat with (ilen s - 1)%nat in E, Hget by lia. exists b. split; [done|]. split; [lia|].
  apply list_eq. intros j. unfold text. destruct (decide (j < ilen s - 1)%nat) as [Hj|Hj].
  - rewrite lookup_take_lt, Hget by done. destruct (decide (j < a)%nat) as [H1|H1].
    + rewrite decide_False by lia. rewrite lookup_app_l by (rewrite !length_take; lia). by rewrite !lookup_take_lt by lia.
    + rewrite decide_True by lia. rewrite lookup_app_r by (rewrite !length_take; lia). rewrite !length_take.
      replace (a `min` (ilen s `min` length (ibuf s)))%nat with a by lia. rewrite lookup_drop, lookup_take_lt by lia. f_equal. lia.
  - rewrite lookup_take_ge by lia. symmetry. apply lookup_ge_None_2. rewrite length_app, !length_take, length_drop, length_take. lia.
Qed.

Lemma backspace_ok s : input_ok s -> (0 < icursor s)%nat ->
  exists b, backspace s = Some (with_text s b (ilen s - 1) (icursor s - 1)) /\ length b = 256%nat /\
    take (ilen s - 1) b = take (icursor s - 1) (text s) ++ drop (icursor s) (text s).
Proof.
  intros Hs Hc. pose proof Hs as [_ Hlc _ _ _ _ _ _]. destruct (remove_byte_ok s (icursor s - 1) Hs ltac:(lia)) as (b & E & Hl & Ht).
  exists b. unfold backspace. destruct (icursor s) as [|k] eqn:Ek; [lia|]. replace (S k - 1)%nat with k in * by lia.
  rewrite shift_left_down, E. cbn [mbind option_bind less_one]. by destruct (ilen s) as [|n]; [lia|]; cbn [less_one mbind option_bind]; replace (S n - 1)%nat with n in * by lia.
Qed.

Lemma delete_char_ok s : input_ok s -> (icursor s < ilen s)%nat ->
  exists b, delete_char s = Some (with_text s b (ilen s - 1) (icursor s)) /\ length b = 256%nat /\
    take (ilen s - 1) b = take (icursor s) (text s) ++ drop (S (icursor s)) (text s).
Proof.
  intros Hs Hc. destruct (remove_byte_ok s (icursor s) Hs Hc) as (b & E & Hl & Ht). exists b. unfold delete_char.
  destruct (ilen s) as [|n] eqn:En; [lia|]. cbn [less_one mbind option_bind]. replace (S n - 1)%nat with n in * by lia. by rewrite E.
Qed.

Lemma copy_slice_ok dst src len : (len <= length dst)%nat -> (len <= length src)%nat ->
  copy_slice dst src len = Some (copy_prefix dst src len) /\ length (copy_prefix dst src len) = length dst /\ take len (copy_prefix dst src len) = take len src.
Proof.
  intros Hd Hsrc. unfold copy_slice. rewrite !(proj2 (Nat.leb_le _ _)) by done. split; [done|]. unfold copy_prefix. split.
  - rewrite length_app, length_take, length_drop. lia.
  - apply take_app_length'. rewrite length_take. lia.
Qed.

Lemma push_history_ok s : input_ok s -> exists s', push_history s = Some s' /\ input_ok s' /\ ibuf s' = ibuf s /\ submitted s' = submitted s /\
  (ilen s <> 0%nat -> exists h, history s !! (history_count s mod 32)%nat = Some h /\
    history s' = <[(history_count s mod 32)%nat := copy_prefix h (ibuf s) (ilen s)]> (history s) /\
    history_lens s' = <[(history_count s mod 32)%nat := ilen s]> (history_lens s) /\
    history_count s' = (if (history_count s <? 32)%nat then S (history_count s) else history_count s) /\ history_pos s' = history_count s').
Proof.
  intros Hs. pose proof Hs as [Hb Hc H1 H2 H3 H4 H5 H6]. unfold push_history.
  destruct (Nat.eqb_spec (ilen s) 0) as [E|E]; [by exists s|]. pose proof (Nat.mod_upper_bound (history_count s) 32 ltac:(lia)) as Hm.
  destruct (lookup_lt_is_Some_2 (history s) (history_count s mod 32)) as [h Hh]; [lia|]. rewrite Hh. cbn [mbind option_bind].
  pose proof H2 as H2'. rewrite Forall_lookup in H2'. specialize (H2' _ _ Hh). simpl in H2'.
  destruct (copy_slice_ok h (ibuf s) (ilen s)) as (-> & Hl & _); [lia|lia|]. cbn [mbind option_bind]. unfold store_at.
  rewrite (proj2 (Nat.ltb_lt _ (length (history s)))), (proj2 (Nat.ltb_lt _ (length (history_lens s)))) by lia. cbn [mbind option_bind].
  eexists. split; [done|]. split; [|split; [done|split; [done|intros _; by exists h]]].
  split; cbn -[Nat.modulo take drop Nat.ltb]; rewrite ?length_insert; try done; try lia.
  - apply Forall_insert; [done|lia].
  - apply Forall_insert; [done|lia].
  - destruct (Nat.ltb_spec (history_count s) 32); lia.
Qed.

Lemma submit_ok s : input_ok s -> exists s', submit s = Some s' /\ input_ok s' /\ zipper s' = ([], []) /\
  submitted s' = submitted s ++ [str_or_empty (text s)] /\
  exists p, push_history s = Some p /\ ibuf s' = ibuf p /\ history s' = history p /\ history_lens s' = history_lens p /\
    history_count s' = history_count p /\ history_pos s' = history_pos p.
Proof.
  intros Hs. pose proof Hs as [Hb Hc _ _ _ _ _ _]. unfold submit. rewrite Nat.min_l by lia.
  destruct (copy_slice_ok (replicate 256 0) (ibuf s) (ilen s)) as (-> & _ & Et); [rewrite length_replicate; lia|lia|]. cbn [mbind option_bind]. rewrite Et.
  destruct (push_history_ok s Hs) as (p & -> & Hp & Eb & Es & _). cbn [mbind option_bind]. eexists. split; [done|]. destruct Hp.
  split; [by split; simpl; try lia|]. split; [done|]. split; [by rewrite Es|]. by exists p.
Qed.

Lemma recall_ok s : input_ok s -> exists n h s', history_lens s !! (history_pos s mod 32)%nat = Some n /\ history s !! (history_pos s mod 32)%nat = Some h /\
  recall s = Some s' /\ input_ok s' /\ submitted s' = submitted s /\ text s' = take n h.
Proof.
  intros Hs. pose proof Hs as [Hb Hc H1 H2 H3 H4 H5 H6]. unfold recall. pose proof (Nat.mod_upper_bound (history_pos s) 32 ltac:(lia)).
  destruct (lookup_lt_is_Some_2 (history s) (history_pos s mod 32)) as [h Hh]; [lia|].
  destruct (lookup_lt_is_Some_2 (history_lens s) (history_pos s mod 32)) as [n Hn]; [lia|]. rewrite Hh, Hn. cbn [mbind option_bind].
  rewrite Forall_lookup in H2. rewrite Forall_lookup in H4. specialize (H2 _ _ Hh). specialize (H4 _ _ Hn). simpl in H2, H4.
  destruct (copy_slice_ok (ibuf s) h n) as (-> & Hl & Et); [lia|lia|]. cbn [mbind option_bind]. eexists n, h, _. split; [done|]. split; [done|]. split; [done|].
  split; [apply with_text_ok; [done|lia|lia]|done].
Qed.

Lemma with_pos_ok s p : input_ok s -> (p <= history_count s)%nat -> input_ok (with_pos s p).
Proof. intros []. by split. Qed.

(** What a key must do to the line: no panic, bounds kept, the edit, and nothing submitted but by Enter. *)
Definition refined (s : InputLine) (key : KeyEvent) : Prop :=
  exists used s', handle_key s key = Some (used, s') /\ input_ok s' /\ (key <> KUp -> key <> KDown -> zipper s' = edit_key key (zipper s)) /\
    (key <> KEnter -> submitted s' = submitted s).

Section keys.
Context (s : InputLine) (Hs : input_ok s).

Lemma key_bounds : length (ibuf s) = 256%nat /\ (icursor s <= ilen s <= 256)%nat /\ length (text s) = ilen s /\
  length (take (icursor s) (text s)) = icursor s /\ length (drop (icursor s) (text s)) = (ilen s - icursor s)%nat.
Proof.
  pose proof (text_length s Hs) as Htl. pose proof Hs as [Hb Hc _ _ _ _ _ _]. rewrite length_take, length_drop. split_and!; (done || lia).
Qed.

Lemma key_done b n c key :
  length b = 256%nat -> (c <= n <= 256)%nat -> zipper (with_text s b n c) = edit_key key (zipper s) ->
  handle_key s key = Some (true, with_text s b n c) -> refined s key.
Proof. intros Hb Hc Hz E. exists true, (with_text s b n c). split; [done|]. split; [by apply with_text_ok|done]. Qed.

Lemma key_ignored used key : edit_key key (zipper s) = zipper s -> handle_key s key = Some (used, s) -> refined s key.
Proof. intros Hz E. exists used, s. by rewrite Hz. Qed.

Lemma key_char c : refined s (KChar c).
Proof.
  destruct key_bounds as (Hb & Hc & Htl & Hlb & Hla).
  assert (length (take (icursor s) (text s)) + length (drop (icursor s) (text s)) = ilen s)%nat as El by lia.
  destruct (decide (ilen s < 256)%nat) as [Hl|Hl].
  - destruct (insert_char_ok s c Hs Hl) as (b & E & Hlb' & Ht). apply (key_done b (S (ilen s)) (S (icursor s))); [done|lia| |].
    + rewrite zipper_with, Ht. unfold zipper. cbn [edit_key]. rewrite El, (proj2 (Nat.ltb_lt _ _)) by done.
      rewrite cons_middle, (assoc_L (++)). f_equal; [apply take_app_length'|apply drop_app_length']; rewrite length_app; simpl; lia.
    + cbn [handle_key]. unfold MAX_INPUT. rewrite (proj2 (Nat.ltb_lt _ _)) by done. by rewrite E.
  - apply (key_ignored true).
    + unfold zipper. cbn [edit_key]. by rewrite El, (proj2 (Nat.ltb_ge _ _)) by lia.
    + cbn [handle_key]. unfold MAX_INPUT. by rewrite (proj2 (Nat.ltb_ge _ _)) by lia.
Qed.

Lemma key_backspace : refined s KBackspace.
Proof.
  destruct key_bounds as (Hb & Hc & Htl & Hlb & Hla). destruct (decide (0 < icursor s)%nat) as [Hl|Hl].
  - destruct (backspace_ok s Hs Hl) as (b & E & Hlb' & Ht). apply (key_done b (ilen s - 1) (icursor s - 1)); [done|lia| |].
    + rewrite zipper_with, Ht. unfold zipper. cbn [edit_key]. rewrite Hlb, take_take, Nat.min_l by lia.
      f_equal; [apply take_app_length'|apply drop_app_length']; rewrite length_take; lia.
    + cbn [handle_key]. rewrite (proj2 (Nat.ltb_lt _ _)) by done. by rewrite E.
  - apply (key_ignored true).
    + unfold zipper. cbn [edit_key]. replace (icursor s) with 0%nat by lia. done.
    + cbn [handle_key]. by rewrite (proj2 (Nat.ltb_ge _ _)) by lia.
Qed.

Lemma key_delete : refined s KDelete.
Proof.
  destruct key_bounds as (Hb & Hc & Htl & Hlb & Hla). destruct (decide (icursor s < ilen s)%nat) as [Hl|Hl].
  - destruct (delete_char_ok s Hs Hl) as (b & E & Hlb' & Ht). apply (key_done b (ilen s - 1) (icursor s)); [done|lia| |].
    + rewrite zipper_with, Ht. unfold zipper. cbn [edit_key]. rewrite drop_drop, Nat.add_1_r.
      f_equal; [apply take_app_length'|apply drop_app_length']; lia.
    + cbn [handle_key]. rewrite (proj2 (Nat.ltb_lt _ _)) by done. by rewrite E.
  - apply (key_ignored true).
    + unfold zipper. cbn [edit_key]. by rewrite !(drop_ge (text s)) by lia.
    + cbn [handle_key]. by rewrite (proj2 (Nat.ltb_ge _ _)) by lia.
Qed.

Lemma key_left : refined s KLeft.
Proof.
  destruct key_bounds as (Hb & Hc & Htl & Hlb & Hla). destruct (decide (0 < icursor s)%nat) as [Hl|Hl].
  - apply (key_done (ibuf s) (ilen s) (icursor s - 1)); [done|lia| |by cbn [handle_key]; rewrite (proj2 (Nat.ltb_lt _ _))].
    rewrite zipper_with. fold (text s). unfold zipper. cbn [edit_key]. rewrite Hlb, take_take, Nat.min_l by lia. f_equal.
    rewrite <-(take_drop (icursor s) (text s)) at 1. rewrite drop_app_le by lia. done.
  - apply (key_ignored true); [|by cbn [handle_key]; rewrite (proj2 (Nat.ltb_ge _ _)) by lia].
    unfold zipper. cbn [edit_key]. replace (icursor s) with 0%nat by lia. done.
Qed.

Lemma key_right : refined s KRight.
Proof.
  destruct key_bounds as (Hb & Hc & Htl & Hlb & Hla). destruct (decide (icursor s < ilen s)%nat) as [Hl|Hl].
  - apply (key_done (ibuf s) (ilen s) (S (icursor s))); [done|lia| |by cbn [handle_key]; rewrite (proj2 (Nat.ltb_lt _ _))].
    rewrite zipper_with. fold (text s). unfold zipper. cbn [edit_key]. rewrite drop_drop, Nat.add_1_r. f_equal.
    rewrite <-(take_drop (icursor s) (text s)) at 1. rewrite take_app_ge, Hlb by lia. do 2 f_equal. lia.
  - apply (key_ignored true); [|by cbn [handle_key]; rewrite (proj2 (Nat.ltb_ge _ _)) by lia].
    unfold zipper. cbn [edit_key]. rewrite (drop_ge (text s)) by lia. by rewrite app_nil_r.
Qed.

Lemma key_home : refined s KHome.
Proof.
  destruct key_bounds as (Hb & Hc & Htl & Hlb & Hla). apply (key_done (ibuf s) (ilen s) 0); [done|lia| |done].
  unfold zipper at 2. cbn [edit_key]. by rewrite take_drop.
Qed.

Lemma key_end : refined s KEnd.
Proof.
  destruct key_bounds as (Hb & Hc & Htl & Hlb & Hla). apply (key_done (ibuf s) (ilen s) (ilen s)); [done|lia| |done].
  unfold zipper at 2. cbn [edit_key]. rewrite take_drop, zipper_with. fold (text s). by rewrite take_ge, drop_ge by lia.
Qed.

Lemma key_up : refined s KUp.
Proof.
  pose proof Hs as [_ Hc _ _ _ _ Hcnt Hpos]. unfold refined. cbn [handle_key]. unfold history_up.
  destruct (Nat.eqb_spec (history_count s) 0); [by exists true, s|].
  set (s1 := if (0 <? history_pos s)%nat then _ else _).
  assert (input_ok s1 /\ submitted s1 = submitted s) as [H1 E1] by (unfold s1; case_match; [split; [apply with_pos_ok; [done|lia]|done]|done]).
  destruct (recall_ok s1 H1) as (_ & _ & s' & _ & _ & -> & Hok & Es & _). exists true, s'. split; [done|]. split; [done|]. split; [done|]. by rewrite Es.
Qed.

Lemma key_down : refined s KDown.
Proof.
  pose proof Hs as [_ Hc _ _ _ _ Hcnt Hpos]. unfold refined. cbn [handle_key]. unfold history_down.
  set (s1 := if (history_pos s <? history_count s)%nat then _ else _).
  assert (input_ok s1 /\ submitted s1 = submitted s) as [H1 E1]
    by (unfold s1; destruct (Nat.ltb_spec (history_pos s) (history_count s)); [split; [apply with_pos_ok; [done|lia]|done]|done]).
  case_match.
  - exists true, (with_text s1 (ibuf s1) 0 0). split; [done|]. split; [apply with_text_ok; [done|apply H1|lia]|done].
  - destruct (recall_ok s1 H1) as (_ & _ & s' & _ & _ & -> & Hok & Es & _). exists true, s'. split; [done|]. split; [done|]. split; [done|]. by rewrite Es.
Qed.

Lemma key_enter : refined s KEnter.
Proof.
  destruct (submit_ok s Hs) as (s' & E & Hok & Hz & _). exists true, s'. cbn [handle_key]. rewrite E. split; [done|]. split; [done|]. split; [|done].
  intros _ _. rewrite Hz. unfold zipper. done.
Qed.
End keys.

Lemma key_refined s key : input_ok s -> refined s key.
Proof.
  intros Hs. destruct key; auto using key_char, key_backspace, key_delete, key_left, key_right, key_home, key_end, key_up, key_down, key_enter.
  all: apply (key_ignored s Hs false); [by destruct (zipper s)|done].
Qed.

(** C40: The input line refines editing of a text with a cursor: no key makes the terminal panic on an index out of range; inserting, deleting,
    moving and submitting do exactly that, however the bytes are shifted in the
    256-byte array; an insertion into a full line is ignored. Enter, and no other key, submits: the text
    if it is well-formed UTF-8, the empty string if it is not. The bounds of every array are kept by every key, the history
    keys included. *)
Theorem input_line_refines s key :
  input_ok s ->
  exists used s', handle_key s key = Some (used, s') /\ input_ok s' /\
    (key <> KUp -> key <> KDown -> zipper s' = edit_key key (zipper s)) /\
    submitted s' = submitted s ++ (if key is KEnter then [if utf8_chars (text s) then text s else []] else []).
Proof.
  intros Hs. assert (key = KEnter \/ key <> KEnter) as [->|Hne] by (destruct key; (by left) || (by right)).
  - destruct (submit_ok s Hs) as (s' & E & Hok & Hz & Es & _). destruct (key_enter s Hs) as (u & s2 & E2 & _ & Hz2 & _).
    cbn [handle_key] in *. rewrite E in *. simplify_eq/=. exists true, s2. rewrite Es. unfold str_or_empty. by destruct (utf8_chars (text s)).
  - destruct (key_refined s key Hs) as (u & s' & E & Hok & Hz & Es). exists u, s'. split; [done|]. split; [done|]. split; [done|].
    rewrite Es by done. destruct key; (done || by rewrite app_nil_r).
Qed.

Lemma input_new_ok : input_ok input_new.
Proof.
  split; cbn -[replicate]; rewrite ?length_replicate; try done; try lia; apply Forall_replicate; rewrite ?length_replicate; (done || lia).
Qed.

Lemma input_line_refines_witness :
  exists s1 s2, handle_key input_new (KChar 97) = Some (true, s1) /\ handle_key s1 KLeft = Some (true, s2) /\ zipper s2 = ([], [97]) /\ submitted s2 = [].
Proof.
  destruct (input_line_refines input_new (KChar 97) input_new_ok) as (u1 & s1 & E1 & Ok1 & Z1 & S1).
  destruct (input_line_refines s1 KLeft Ok1) as (u2 & s2 & E2 & _ & Z2 & S2). exists s1, s2.
  assert (u1 = true) as -> by (cbn in E1; by simplify_eq). assert (u2 = true) as -> by (cbn in E2; by simplify_eq).
  split; [done|]. split; [done|]. rewrite Z2, Z1, S2, S1 by done. split; reflexivity.
Defined.

(** ** History *)

(** A submitted line is recalled by the Up key that follows, as long as fewer
    than 32 lines were submitted. *)
Theorem history_recall s :
  input_ok s -> (0 < ilen s)%nat -> (history_count s < 32)%nat ->
  exists s', submit s ≫= history_up = Some s' /\ text s' = text s.
Proof.
  intros Hs Hl Hn. pose proof Hs as [Hb Hc H1 H2 H3 H4 H5 H6].
  destruct (submit_ok s Hs) as (s1 & -> & Hok & _ & _ & p & Ep & Eb & Eh & El & Ec & Epos). cbn [mbind option_bind].
  destruct (push_history_ok s Hs) as (p' & Ep' & _ & Ebp & _ & Hpush). rewrite Ep in Ep'. injection Ep' as <-.
  destruct Hpush as (h & Hh & Ehp & Elp & Ecp & Epp); [lia|]. rewrite Nat.mod_small in Hh, Ehp, Elp by lia. rewrite (proj2 (Nat.ltb_lt _ 32)) in Ecp by done.
  unfold history_up. rewrite Epos, Ec, Epp, Ecp. cbn [Nat.eqb Nat.ltb Nat.leb]. replace (S (history_count s) - 1)%nat with (history_count s) by lia.
  destruct (recall_ok (with_pos s1 (history_count s))) as (n & h' & s' & Hn' & Hh' & -> & _ & _ & Et); [apply with_pos_ok; [done|rewrite Ec, Ecp; lia]|].
  cbn [with_pos history_pos history history_lens] in Hn', Hh'. rewrite Nat.mod_small in Hn', Hh' by lia.
  rewrite Eh, Ehp, list_lookup_insert_eq in Hh' by lia. rewrite El, Elp, list_lookup_insert_eq in Hn' by lia. injection Hn' as <-. injection Hh' as <-.
  exists s'. split; [done|]. rewrite Et. rewrite Forall_lookup in H2. specialize (H2 _ _ Hh). simpl in H2. apply copy_slice_ok; lia.
Qed.

Lemma history_recall_witness :
  exists s1 s', handle_key input_new (KChar 97) = Some (true, s1) /\ submit s1 ≫= history_up = Some s' /\ text s' = [97].
Proof.
  destruct (insert_char_ok input_new 97 input_new_ok ltac:(cbn; lia)) as (b & E & Hb & Ht). exists (with_text input_new b 1 1).
  destruct (history_recall (with_text input_new b 1 1)) as (s' & E' & Et);
    [apply with_text_ok; [apply input_new_ok|done|lia]|cbn; lia|cbn; lia|].
  exists s'. cbn [handle_key ilen input_new MAX_INPUT Nat.ltb Nat.leb]. fold input_new. rewrite E. split; [done|]. split; [done|]. rewrite Et. exact Ht.
Defined.

(** Once 32 lines were submitted the newest line goes to the first slot for ever,
    and Up recalls the entry of the last slot instead, whatever was typed. *)
Theorem full_history_not_recalled s :
  input_ok s -> (0 < ilen s)%nat -> history_count s = 32%nat ->
  exists s', submit s ≫= history_up = Some s' /\
    text s' = take (default 0%nat (history_lens s !! 31%nat)) (default [] (history s !! 31%nat)).
Proof.
  intros Hs Hl Hn. pose proof Hs as [Hb Hc H1 H2 H3 H4 H5 H6].
  destruct (submit_ok s Hs) as (s1 & -> & Hok & _ & _ & p & Ep & Eb & Eh & El & Ec & Epos). cbn [mbind option_bind].
  destruct (push_history_ok s Hs) as (p' & Ep' & _ & Ebp & _ & Hpush). rewrite Ep in Ep'. injection Ep' as <-.
  destruct Hpush as (h & Hh & Ehp & Elp & Ecp & Epp); [lia|]. rewrite Hn in Hh, Ehp, Elp, Ecp. change (32 mod 32)%nat with 0%nat in *. change (32 <? 32)%nat with false in Ecp.
  cbn iota in Ecp. unfold history_up. rewrite Epos, Epp, Ec, Ecp. cbn [Nat.eqb Nat.ltb Nat.leb]. change (32 - 1)%nat with 31%nat.
  destruct (recall_ok (with_pos s1 31)) as (n & h' & s' & Hn' & Hh' & -> & _ & _ & Et); [apply with_pos_ok; [done|rewrite Ec, Ecp; lia]|].
  cbn [with_pos history_pos history history_lens] in Hn', Hh'. change (31 mod 32)%nat with 31%nat in *.
  rewrite Eh, Ehp, list_lookup_insert_ne in Hh' by done. rewrite El, Elp, list_lookup_insert_ne in Hn' by done.
  exists s'. split; [done|]. by rewrite Et, Hn', Hh'.
Qed.

Definition full_input : InputLine :=
  mkInput (122 :: replicate 255 0) 1 1 (replicate 32 (replicate 256 97)) (replicate 32 1%nat) 32 32 true [].

Lemma full_history_not_recalled_witness : exists s', submit full_input ≫= history_up = Some s' /\ text s' = [97].
Proof.
  apply (full_history_not_recalled full_input); [|cbn; lia|reflexivity].
  split; cbn -[replicate]; rewrite ?length_replicate; try done; try lia; apply Forall_replicate; rewrite ?length_replicate; (done || lia).
Defined.

(** ** Scrollback *)

Record pane_rep (p : OutputPane) (l : list (list Z * Style)) : Prop := {
  pr_lines : length (lines p) = MAX_LINES;
  pr_width : Forall (fun r => length r = MAX_LINE_LEN) (lines p);
  pr_lens : length (line_lens p) = MAX_LINES;
  pr_styles : length (line_styles p) = MAX_LINES;
  pr_head : (phead p < MAX_LINES)%nat;
  pr_count : pcount p = length l;
  pr_room : (length l <= MAX_LINES)%nat;
  pr_elem : forall i t st, l !! i = Some (t, st) ->
    let idx := ((phead p + i) mod MAX_LINES)%nat in
    line_lens p !! idx = Some (length t) /\ (exists r, lines p !! idx = Some r /\ take (length t) r = t) /\ line_styles p !! idx = Some st;
}.

(** The last 200 lines, each cut to 256 bytes. *)
Definition add_line (l : list (list Z * Style)) (t : list Z * Style) : list (list Z * Style) :=
  drop (S (length l) - MAX_LINES) (l ++ [(take MAX_LINE_LEN (fst t), snd t)]).

(** Arithmetic modulo on [nat]. *)
Ltac nat_div_lia := zify; Z.to_euclidean_division_equations; lia.

Lemma ring_slot h i j : (h < 200)%nat -> (i < 200)%nat -> (j < 200)%nat -> i <> j -> ((h + i) mod 200 <> (h + j) mod 200)%nat.
Proof. intros. nat_div_lia. Qed.

Lemma push_line_arrays p t st :
  let idx := ((phead p + pcount p) mod MAX_LINES)%nat in
  lines (push_line p t st) = <[idx := copy_prefix (default [] (lines p !! idx)) t (Nat.min (length t) MAX_LINE_LEN)]> (lines p) /\
  line_lens (push_line p t st) = <[idx := Nat.min (length t) MAX_LINE_LEN]> (line_lens p) /\
  line_styles (push_line p t st) = <[idx := st]> (line_styles p) /\
  phead (push_line p t st) = (if (pcount p <? MAX_LINES)%nat then phead p else S (phead p) mod MAX_LINES)%nat /\
  pcount (push_line p t st) = (if (pcount p <? MAX_LINES)%nat then S (pcount p) else pcount p).
Proof. unfold push_line. by destruct (pcount p <? MAX_LINES)%nat. Qed.

(** The arrays after a line is written, read at the position of a line kept. *)
Lemma pane_written p l t st i t' st' :
  pane_rep p l -> (l ++ [(take MAX_LINE_LEN t, st)]) !! i = Some (t', st') -> (length l - MAX_LINES < i \/ length l < MAX_LINES)%nat ->
  let p' := push_line p t st in
  let idx := ((phead p + i) mod MAX_LINES)%nat in
  line_lens p' !! idx = Some (length t') /\ (exists r, lines p' !! idx = Some r /\ take (length t') r = t') /\ line_styles p' !! idx = Some st'.
Proof.
  intros [H1 H2 H3 H4 H5 H6 H7 H8] Hi Hpos p' idx. destruct (push_line_arrays p t st) as (E1 & E2 & E3 & _). fold p' in E1, E2, E3. rewrite E1, E2, E3.
  assert ((phead p + pcount p) mod MAX_LINES < MAX_LINES)%nat as Hm by (apply Nat.mod_upper_bound; done).
  destruct (decide (i = length l)) as [->|Hne].
  - rewrite lookup_app_r, Nat.sub_diag in Hi by lia. injection Hi as <- <-. subst idx. rewrite <-H6.
    destruct (lookup_lt_is_Some_2 (lines p) ((phead p + pcount p) mod MAX_LINES)) as [r Hr]; [lia|]. rewrite Hr.
    rewrite !list_lookup_insert_eq by lia. rewrite length_take. split; [f_equal; lia|]. split; [|done]. eexists. split; [done|]. cbn [from_option id].
    unfold copy_prefix. rewrite take_app_length' by (rewrite length_take; lia). rewrite Nat.min_comm. unfold MAX_LINE_LEN.
    destruct (decide (length t <= 256)%nat); [rewrite !take_ge by lia; done|]. f_equal. lia.
  - pose proof (lookup_lt_Some _ _ _ Hi) as Hlt. rewrite length_app in Hlt. simpl in Hlt. rewrite lookup_app_l in Hi by lia.
    assert (idx <> (phead p + pcount p) mod MAX_LINES)%nat as Hn.
    { subst idx. rewrite H6. unfold MAX_LINES in *. nat_div_lia. }
    rewrite !list_lookup_insert_ne by done. by apply H8.
Qed.

Lemma push_line_rep p l t st : pane_rep p l -> pane_rep (push_line p t st) (add_line l (t, st)).
Proof.
  intros Hp. pose proof (pane_written p l t st) as Hw. pose proof Hp as [H1 H2 H3 H4 H5 H6 H7 H8].
  destruct (push_line_arrays p t st) as (E1 & E2 & E3 & E4 & E5).
  assert ((phead p + pcount p) mod MAX_LINES < MAX_LINES)%nat as Hm by (apply Nat.mod_upper_bound; done).
  destruct (lookup_lt_is_Some_2 (lines p) ((phead p + pcount p) mod MAX_LINES)) as [r Hr]; [lia|]. rewrite Hr in E1.
  assert (Forall (fun r => length r = MAX_LINE_LEN) (lines (push_line p t st))) as Hwid.
  { rewrite E1. apply Forall_insert; [done|]. rewrite Forall_lookup in H2. specialize (H2 _ _ Hr). cbn [from_option id].
    unfold copy_prefix. rewrite length_app, length_take, length_drop. simpl in H2. lia. }
  unfold add_line. cbn [fst snd]. rewrite H6 in E4, E5. destruct (Nat.ltb_spec (length l) MAX_LINES) as [Hlt|Hge].
  - replace (S (length l) - MAX_LINES)%nat with 0%nat by lia. rewrite drop_0.
    split; rewrite ?E1, ?E2, ?E3, ?E4, ?E5, ?length_insert, ?length_app; try done; try (simpl; lia); [by rewrite <-E1|].
    intros i t' st' Hi. rewrite <-E1, <-E2, <-E3. apply Hw; [done|done|by right].
  - assert (length l = MAX_LINES) as Hl by lia. replace (S (length l) - MAX_LINES)%nat with 1%nat by lia.
    split; rewrite ?E1, ?E2, ?E3, ?E4, ?E5, ?length_insert, ?length_drop, ?length_app; try done; try (simpl; lia).
    + by rewrite <-E1.
    + apply Nat.mod_upper_bound. done.
    + intros i t' st' Hi. rewrite lookup_drop in Hi. specialize (Hw (1 + i)%nat t' st' Hp Hi ltac:(lia)). rewrite <-E1, <-E2, <-E3.
      replace ((S (phead p) mod MAX_LINES + i) mod MAX_LINES)%nat with ((phead p + (1 + i)) mod MAX_LINES)%nat; [exact Hw|].
      unfold MAX_LINES. nat_div_lia.
Qed.

Lemma pane_new_rep a : pane_rep (pane_new a) [].
Proof.
  split; cbn -[replicate]; rewrite ?length_replicate; try done; try (unfold MAX_LINES; lia). apply Forall_replicate. by rewrite length_replicate.
Qed.

(** The lines a pane shows, oldest first. *)
Definition pane_text (p : OutputPane) : list (list Z) :=
  (fun i => let idx := ((phead p + i) mod MAX_LINES)%nat in take (default 0%nat (line_lens p !! idx)) (default [] (lines p !! idx))) <$> seq 0 (pcount p).

Lemma pane_text_rep p l : pane_rep p l -> pane_text p = fst <$> l.
Proof.
  intros [H1 H2 H3 H4 H5 H6 H7 H8]. apply list_eq. intros i. unfold pane_text. rewrite !list_lookup_fmap. destruct (l !! i) as [[t st]|] eqn:Ei.
  - pose proof (lookup_lt_Some _ _ _ Ei). rewrite H6, lookup_seq_lt by lia. destruct (H8 i t st Ei) as (E1 & (r & E2 & E3) & _).
    cbn [fmap option_fmap option_map fst]. rewrite Nat.add_0_l, E1, E2. cbn [from_option id]. by rewrite E3.
  - apply lookup_ge_None in Ei. by rewrite H6, lookup_seq_ge by lia.
Qed.

(** The output pane holds the last 200 lines pushed, each cut to 256 bytes, in
    order, through any number of wrap-arounds of its arrays. *)
Theorem output_keeps_last_lines a pushed :
  pane_text (fold_left (fun p t => push_line p (fst t) (snd t)) pushed (pane_new a)) =
  take MAX_LINE_LEN <$> drop (length pushed - MAX_LINES) (fst <$> pushed).
Proof.
  assert (forall k, pane_rep (fold_left (fun p t => push_line p (fst t) (snd t)) k (pane_new a))
    (drop (length k - MAX_LINES) ((fun t => (take MAX_LINE_LEN (fst t), snd t)) <$> k))) as Hrep.
  { induction k as [|[t st] k IH] using rev_ind; [apply pane_new_rep|]. rewrite fold_left_app. cbn [fold_left fst snd].
    apply (push_line_rep _ _ t st) in IH. revert IH. unfold add_line. rewrite length_drop, length_fmap. cbn [fst snd]. intros IH.
    rewrite fmap_app, length_app. cbn [length]. replace (length k + 1 - MAX_LINES)%nat with ((length k - MAX_LINES) + (S (length k - (length k - MAX_LINES)) - MAX_LINES))%nat by lia.
    rewrite <-drop_drop, (drop_app_le _ _ (length k - MAX_LINES)) by (rewrite length_fmap; lia). exact IH. }
  rewrite (pane_text_rep _ _ (Hrep pushed)). rewrite fmap_drop, <-list_fmap_compose, fmap_drop, <-list_fmap_compose. done.
Qed.

(** ** Keys *)

(** No input ever leaves the output panel: the decoder never reports Escape, the
    only key that switches to the inspectors, so for every stream of bytes the
    inspectors get no key and the decoder stays within its arrays. *)
Theorem inspectors_unreachable bytes :
  Forall (fun b => 0 <= b < 256) bytes ->
  exists s, tui_bytes create_tui_state bytes = Some s /\
    active_panel s = 0%nat /\ inspector_keys s = [] /\ parser_ok (parser s) /\ input_ok (input s).
Proof.
  intros Hb. assert (forall s, active_panel s = 0%nat -> inspector_keys s = [] -> parser_ok (parser s) -> input_ok (input s) ->
    exists s', tui_bytes s bytes = Some s' /\ active_panel s' = 0%nat /\ inspector_keys s' = [] /\ parser_ok (parser s') /\ input_ok (input s')) as Hgen.
  2: { apply Hgen; [done|done| |apply input_new_ok]. split_and!; [done|simpl; lia|]. by apply Forall_replicate. }
  induction Hb as [|b bytes Hb _ IH]; intros s Hp Hk Hok Hin; [by exists s|]. cbn [tui_bytes].
  pose proof (feed_ok (parser s) b Hok Hb) as Hok'. pose proof (feed_escape (parser s) b) as He.
  destruct (feed (parser s) b) as [[k|] p1]; [|by apply IH]. simpl in Hok', He.
  set (s1 := mkTui p1 _ _ _ _ _ _ _). assert (k <> KEscape) as Hne by congruence. destruct (key_refined (input s) k Hin) as (u & i' & E & Hi' & _).
  assert (handle_key_event k s1 = Some (mkTui p1 0 (inspector_tab s) (inspector s) i' (status s) (tabbar s) [])) as ->.
  { unfold handle_key_event. subst s1. cbn [active_panel input]. rewrite Hp, Hk, E. by destruct k. }
  cbn [mbind option_bind]. by apply IH.
Qed.

Lemma inspectors_unreachable_witness : exists s, tui_bytes create_tui_state [27; 27; 27; 91; 90] = Some s /\ active_panel s = 0%nat.
Proof. destruct (inspectors_unreachable [27; 27; 27; 91; 90]) as (s & E & H & _); [repeat constructor; lia|]. by exists s. Defined.

(** ** Drawing *)

(** A screen of 25 rows of 80 cells. *)
Definition sized (s : Screen) : Prop := length (cells s) = HEIGHT /\ Forall (fun row => length row = WIDTH) (cells s).

(** [m] draws without leaving the screen and touches row [y] alone. *)
Definition draws (y : nat) (s s' : Screen) : Prop :=
  sized s' /\ forall y', y' <> y -> cells s' !! y' = cells s !! y'.

Lemma draws_refl y s : sized s -> draws y s s.
Proof. by split. Qed.

Lemma draws_trans y s1 s2 s3 : draws y s1 s2 -> draws y s2 s3 -> draws y s1 s3.
Proof. intros [_ H1] [H2 H3]. split; [done|]. intros y' Hy. by rewrite H3, H1. Qed.

Lemma put_cell_draws y x c s : sized s -> (y < HEIGHT)%nat -> (x < WIDTH)%nat -> exists s', put_cell y x c s = Some s' /\ draws y s s'.
Proof.
  intros [Hl Hw] Hy Hx. unfold put_cell. destruct (lookup_lt_is_Some_2 (cells s) y) as [row Hrow]; [lia|]. rewrite Hrow. simpl.
  rewrite Forall_lookup in Hw. pose proof (Hw _ _ Hrow) as Hr. simpl in Hr. rewrite (proj2 (Nat.ltb_lt x (length row))) by lia.
  eexists. split; [done|]. split; [split|]; cbn [with_cells cells].
  - by rewrite length_insert.
  - apply Forall_insert; [by apply Forall_lookup|]. by rewrite length_insert.
  - intros y' Hne. by rewrite list_lookup_insert_ne by done.
Qed.

Lemma oloop_draws {A} y (l : list A) f s :
  sized s -> (forall x s, x ∈ l -> sized s -> exists s', f x s = Some s' /\ draws y s s') -> exists s', oloop l f s = Some s' /\ draws y s s'.
Proof.
  revert s. induction l as [|x l IH]; intros s Hs Hf; simpl; [exists s; by split; [|apply draws_refl]|].
  destruct (Hf x s ltac:(by constructor) Hs) as (s1 & -> & H1). simpl.
  destruct (IH s1 (proj1 H1)) as (s2 & -> & H2); [intros; apply Hf; [by constructor|done]|]. exists s2. split; [done|]. by eapply draws_trans.
Qed.

Lemma put_text_draws y limit text st : (y < HEIGHT)%nat -> (limit <= WIDTH)%nat -> forall cx s, sized s ->
  exists cx' s', put_text y cx limit text st s = Some (cx', s') /\ draws y s s'.
Proof.
  intros Hy Hl. induction text as [|c text IH]; intros cx s Hs; simpl; [exists cx, s; by split; [|apply draws_refl]|].
  destruct (Nat.ltb_spec cx limit); [|by apply IH]. destruct (put_cell_draws y cx (mkCell c st) s Hs Hy) as (s1 & -> & H1); [lia|]. simpl.
  destruct (IH (S cx) s1 (proj1 H1)) as (cx' & s2 & E & H2). rewrite E. exists cx', s2. split; [done|]. by eapply draws_trans.
Qed.

Lemma fill_row_draws x y w c st s :
  sized s -> 0 <= x -> 0 <= y < Z.of_nat HEIGHT -> exists s', fill (mkRect x y w 1) c st s = Some s' /\ draws (Z.to_nat y) s s'.
Proof.
  intros Hs Hx Hy. unfold fill. cbn [ry rh rx rw]. unfold HEIGHT in Hy.
  destruct (oloop_draws (Z.to_nat y) (span y 1 (Z.of_nat HEIGHT))
    (fun y => oloop (span x w (Z.of_nat WIDTH)) (fun x => put_cell y x (mkCell c st))) s Hs) as (s' & E & Hd).
  - intros y' s0 Hy' Hs0. unfold span in Hy'. apply list_elem_of_fmap in Hy' as (z & -> & Hz%elem_of_seqZ).
    unfold saturating_add, HEIGHT in Hz. assert (z = y) as -> by lia.
    apply oloop_draws; [done|]. intros x' s2 Hx' Hs2. unfold span in Hx'. apply list_elem_of_fmap in Hx' as (z & -> & Hz'%elem_of_seqZ).
    apply put_cell_draws; [done|unfold HEIGHT; lia|]. unfold WIDTH in *. lia.
  - rewrite E. eexists. split; [done|exact Hd].
Qed.

Section bars.
Context (y : Z) (s : Screen) (Hy : 0 <= y < Z.of_nat HEIGHT) (Hs : sized s).

Lemma draw_tab_draws act p n s1 : sized s1 -> exists n' s', draw_tab (Z.to_nat y) act p (n, s1) = Some (n', s') /\ draws (Z.to_nat y) s1 s'.
Proof.
  intros Hs1. destruct p as [i tab]. unfold draw_tab. assert (Z.to_nat y < HEIGHT)%nat as Hy' by lia.
  set (st := if (i =? act)%nat then style_reverse _ else _). set (pad := if (i =? act)%nat then [32] else []). cbn [fst snd].
  destruct (put_text_draws (Z.to_nat y) 80 pad st Hy' (le_n _) n s1 Hs1) as (n2 & s2 & -> & H2). cbn [mbind option_bind fst snd].
  destruct (put_text_draws (Z.to_nat y) 80 tab st Hy' (le_n _) n2 s2 (proj1 H2)) as (n3 & s3 & -> & H3). cbn [mbind option_bind fst snd].
  destruct (put_text_draws (Z.to_nat y) 80 pad st Hy' (le_n _) n3 s3 (proj1 H3)) as (n4 & s4 & -> & H4). cbn [mbind option_bind fst snd].
  destruct (put_text_draws (Z.to_nat y) 80 [32] (colored BLACK BLUE) Hy' (le_n _) n4 s4 (proj1 H4)) as (n5 & s5 & -> & H5).
  exists n5, s5. split; [done|]. eauto using draws_trans.
Qed.

Lemma tabs_draw names act : exists s', render_tabs (mkTabs (mkRect 0 y 80 1) names act) s = Some s' /\ draws (Z.to_nat y) s s'.
Proof.
  unfold render_tabs. cbn [tarea tabs tactive ry]. destruct (fill_row_draws 0 y 80 32 (colored BLACK BLUE) s Hs) as (s1 & -> & H1); [lia|done|].
  cbn [mbind option_bind]. generalize 1%nat. generalize (imap pair names). intros l n. revert n s1 H1.
  induction l as [|p l IH]; intros n s1 H1; cbn [oloop]; [by exists s1|].
  destruct (draw_tab_draws act p n s1 (proj1 H1)) as (n2 & s2 & -> & H2). cbn [mbind option_bind]. apply IH. eauto using draws_trans.
Qed.

Lemma status_draws lt ln rt rn : exists s', render_status (mkStatus (mkRect 0 y 80 1) lt ln rt rn) s = Some s' /\ draws (Z.to_nat y) s s'.
Proof.
  unfold render_status. cbn [sarea left_text left_len right_text right_len ry]. assert (Z.to_nat y < HEIGHT)%nat as Hy' by lia.
  destruct (fill_row_draws 0 y 80 32 (colored BLACK WHITE) s Hs) as (s1 & -> & H1); [lia|done|]. cbn [mbind option_bind].
  destruct (put_text_draws (Z.to_nat y) 79 (chars_or_empty (take ln lt)) (colored BLACK WHITE) Hy' ltac:(unfold WIDTH; lia) 0%nat s1 (proj1 H1)) as (n2 & s2 & -> & H2).
  cbn [mbind option_bind snd]. set (right := str_or_empty _).
  destruct (put_text_draws (Z.to_nat y) 80 (chars_or_empty right) (colored BLACK WHITE) Hy' (le_n _) (80 - length right)%nat s2 (proj1 H2)) as (n3 & s3 & -> & H3).
  cbn [mbind option_bind snd]. destruct (_ && _) eqn:E; [|exists s3; split; [done|by eauto using draws_trans]].
  apply andb_prop in E as [_ E%Nat.ltb_lt]. destruct (put_cell_draws (Z.to_nat y) (ln + 2) (mkCell 124 (colored BLACK CYAN)) s3 (proj1 H3) Hy' E) as (s4 & -> & H4).
  exists s4. split; [done|]. by eauto using draws_trans.
Qed.

Lemma input_draws prompt i : exists s', render_input (Z.to_nat y) prompt i s = Some s' /\ draws (Z.to_nat y) s s'.
Proof.
  unfold render_input. assert (Z.to_nat y < HEIGHT)%nat as Hy' by lia.
  destruct (oloop_draws (Z.to_nat y) (seq 0 80) (fun x => put_cell (Z.to_nat y) x (mkCell 32 (colored BLACK WHITE))) s Hs) as (s1 & -> & H1).
  { intros x s0 Hx Hs0. apply elem_of_seq in Hx. apply put_cell_draws; [done|done|unfold WIDTH; lia]. }
  cbn [mbind option_bind]. destruct (put_text_draws (Z.to_nat y) 80 prompt (colored BLACK GREEN) Hy' (le_n _) 0%nat s1 (proj1 H1)) as (n2 & s2 & -> & H2).
  cbn [mbind option_bind fst snd].
  destruct (put_text_draws (Z.to_nat y) 79 (take (ilen i) (ibuf i)) (colored BLACK WHITE) Hy' ltac:(unfold WIDTH; lia) n2 s2 (proj1 H2)) as (n3 & s3 & -> & H3).
  exists s3. split; [done|]. by eauto using draws_trans.
Qed.
End bars.

(** The tab bar, the status bar and the input line draw within the screen whatever
    their texts, tabs and lengths are, and each touches its own row only. *)
Theorem bars_stay_on_their_row y s names act lt ln rt rn prompt i :
  0 <= y < Z.of_nat HEIGHT -> sized s ->
  (exists s', render_tabs (mkTabs (mkRect 0 y 80 1) names act) s = Some s' /\ draws (Z.to_nat y) s s') /\
  (exists s', render_status (mkStatus (mkRect 0 y 80 1) lt ln rt rn) s = Some s' /\ draws (Z.to_nat y) s s') /\
  (exists s', render_input (Z.to_nat y) prompt i s = Some s' /\ draws (Z.to_nat y) s s').
Proof. intros Hy Hs. auto using tabs_draw, status_draws, input_draws. Qed.

Lemma bars_stay_on_their_row_witness :
  exists s', render_input 21 [62; 32] input_new screen_new = Some s' /\ draws 21 screen_new s'.
Proof.
  apply (bars_stay_on_their_row 21 screen_new [] 0 [] 0 [] 0 [62; 32] input_new); [unfold HEIGHT; lia|].
  split; [reflexivity|]. apply Forall_replicate. apply length_replicate.
Defined.
