(* ===== verification/TermCmd.v ===== *)
(** The command interpreter of the terminal: src/kernel/src/katerm/termexec.rs and
    the modes of termcmds/mod.rs.

    Command lines are lists of ASCII bytes; names of commands are written as
    strings and compared through [bs].  What a command does is not modelled:
    [execute] yields which entry of the table is run and with which arguments. *)
From Stdlib Require Import String Ascii ZArith Lia.
From stdpp Require Import base tactics numbers list.
From S2P Require Import Prelude.

Local Open Scope Z_scope.

(** The bytes of a string. *)
Fixpoint bs (s : string) : list Z :=
  match s with
  | EmptyString => []
  | String c s => Z.of_nat (nat_of_ascii c) :: bs s
  end.

(** ** [str] operations, on ASCII *)

Definition is_whitespace (c : Z) : bool := (c =? 32) || ((9 <=? c) && (c <=? 13)).

Fixpoint trim_start_while (f : Z -> bool) (l : list Z) : list Z :=
  match l with
  | [] => []
  | c :: l' => if f c then trim_start_while f l' else l
  end.
Definition trim_start (l : list Z) : list Z := trim_start_while is_whitespace l.
Definition trim_end (l : list Z) : list Z := rev (trim_start (rev l)).
Definition trim (l : list Z) : list Z := trim_end (trim_start l).

(** [find] and [rfind]. *)
Definition find (f : Z -> bool) (l : list Z) : option nat := first_index f l.
Definition rfind (f : Z -> bool) (l : list Z) : option nat :=
  (fun i => length l - 1 - i)%nat <$> first_index f (rev l).

Definition to_digit (radix c : Z) : option Z :=
  let d := if (48 <=? c) && (c <=? 57) then Some (c - 48)
           else if (97 <=? c) && (c <=? 122) then Some (c - 97 + 10)
           else if (65 <=? c) && (c <=? 90) then Some (c - 65 + 10) else None in
  match d with Some v => if v <? radix then Some v else None | None => None end.

Fixpoint parse_digits (radix acc : Z) (l : list Z) : option Z :=
  match l with
  | [] => Some acc
  | c :: l =>
    d ← to_digit radix c;
    let v := acc * radix + d in
    if v <? 2 ^ 64 then parse_digits radix v l else None
  end.

(** [u64::from_str_radix] *)
Definition from_str_radix (l : list Z) (radix : Z) : option Z :=
  match l with
  | [] => None
  | [c] => if (c =? 43) || (c =? 45) then None else parse_digits radix 0 l
  | c :: l' => if c =? 43 then parse_digits radix 0 l' else parse_digits radix 0 l
  end.

Definition starts_with (p l : list Z) : bool := bool_decide (take (length p) l = p).

(** ** Modes *)

Inductive Mode := ModeRoot | ModeMem | ModeTasks | ModeSched | ModeDrv | ModeHw | ModeIo | ModeSym | ModeDbg | ModeCpu | ModeDiag.
#[export] Instance mode_eq_dec : EqDecision Mode.
Proof. solve_decision. Defined.

Local Open Scope string_scope.

Definition prompt_for_mode (m : Mode) : list Z :=
  bs match m with
     | ModeRoot => "KERNEL$ "
     | ModeMem => "KERNEL/mem$ "
     | ModeTasks => "KERNEL/tasks$ "
     | ModeSched => "KERNEL/sched$ "
     | ModeDrv => "KERNEL/drv$ "
     | ModeHw => "KERNEL/hw$ "
     | ModeIo => "KERNEL/io$ "
     | ModeSym => "KERNEL/sym$ "
     | ModeDbg => "KERNEL/dbg$ "
     | ModeCpu => "KERNEL/cpu$ "
     | ModeDiag => "KERNEL/diag$ "
     end.

Definition MODE_COMMANDS : list (Mode * string * list string) :=
  [
   (ModeMem, "mem", ["dump"; "peek"; "poke"; "meminfo"; "translate"; "pte"; "vmas"; "pagestat"]);
   (ModeTasks, "tasks", ["ps"; "trace"; "vcpus"; "slabstat"]);
   (ModeSched, "sched", ["loadavg"; "rq"]);
   (ModeDrv, "drv", ["drivers"; "services"; "drv_call"]);
   (ModeHw, "hw", ["cpuinfo"; "lapic"; "ioapic_dump"; "irq"; "ticks"; "dumpcpu"; "dumpremote"; "dumpall"; "irqstat"]);
   (ModeIo, "io", ["read"; "write"; "read16"; "read32"; "write16"; "write32"; "poke"]);
   (ModeSym, "sym", ["symbols"; "lookup"; "disasm"]);
   (ModeDbg, "dbg", ["set"; "bt"; "stack"; "break"; "del"; "bpl"; "cont"; "step"; "watch"; "cli"; "sti"; "rdmsr"; "wrmsr"; "invlpg"]);
   (ModeCpu, "cpu", ["poke_code"; "load_code"; "exec_page"; "jump"; "force_next"; "recover"; "map"; "hlt"]);
   (ModeDiag, "diag", ["pagestat"; "slabstat"; "irqstat"; "map"; "hlt"])
  ].

Definition ALWAYS_AVAILABLE : list string := ["cm"; "help"; "listmodes"; "clear"; "echo"; "reboot"].

(** The names of [COMMANDS], in order. *)
Definition COMMANDS : list string :=
  [
   "cm"; "listmodes"; "tui"; "cli"; "help"; "clear"; "echo"; "symbols"; "lookup"; "disasm"; "dump"; "peek"; "poke";
   "meminfo"; "translate"; "pte"; "vmas"; "ps"; "trace"; "vcpus"; "loadavg"; "rq"; "drivers"; "services"; "drv_call";
   "cpuinfo"; "lapic"; "ioapic_dump"; "irq"; "ticks"; "dumpcpu"; "dumpremote"; "dumpall"; "read"; "write"; "reboot";
   "set"; "bt"; "stack"; "read16"; "read32"; "write16"; "write32"; "cli"; "sti"; "rdmsr"; "wrmsr"; "invlpg"; "break";
   "del"; "bpl"; "cont"; "step"; "watch"; "poke_code"; "load_code"; "exec_page"; "jump"; "force_next"; "recover";
   "pagestat"; "slabstat"; "irqstat"; "map"; "hlt"; "freeze"
  ].

Definition cmd_is (name : list Z) (s : string) : bool := bool_decide (bs s = name).

Definition is_command_available (name : list Z) (mode : Mode) : bool :=
  if bool_decide (mode = ModeRoot) then true
  else if existsb (cmd_is name) ALWAYS_AVAILABLE then true
  else match list_find (fun mc => mc.1.1 = mode) MODE_COMMANDS with
       | Some (_, (_, _, cmds)) => existsb (cmd_is name) cmds
       | None => false
       end.

(** [cm(arg)]: the mode it switches to. *)
Definition cm_modes : list (string * Mode) :=
  [("root", ModeRoot); ("..", ModeRoot); ("mem", ModeMem); ("tasks", ModeTasks); ("ps", ModeTasks); ("sched", ModeSched);
   ("drv", ModeDrv); ("drivers", ModeDrv); ("hw", ModeHw); ("hardware", ModeHw); ("io", ModeIo); ("symbols", ModeSym); ("sym", ModeSym);
   ("debug", ModeDbg); ("dbg", ModeDbg); ("cpu", ModeCpu); ("control", ModeCpu); ("diag", ModeDiag); ("diagnostics", ModeDiag)].

Definition cmd_cm (mode : Mode) (args : list Z) : Mode :=
  let arg := trim args in
  if bool_decide (arg = []) then mode
  else match list_find (fun p => bs p.1 = arg) cm_modes with
       | Some (_, (_, m)) => m
       | None => mode
       end.

Local Close Scope string_scope.

(** ** Executing a line *)

Inductive Outcome :=
  | Quiet | NoOpen | NoClose | Mismatched | Unavailable (name : list Z) | Unknown (name : list Z)
  | Run (i : nat) (args : list Z).

Definition is_open (c : Z) : bool := c =? 40.
Definition is_close (c : Z) : bool := c =? 41.

(** With an active connector, in the current mode. *)
Definition execute (mode : Mode) (line : list Z) : Outcome :=
  let line := trim line in
  if bool_decide (line = []) then Quiet
  else match find is_open line with
  | None => NoOpen
  | Some paren_open =>
    match rfind is_close line with
    | None => NoClose
    | Some paren_close =>
      if (paren_close <=? paren_open)%nat then Mismatched
      else
        let cmd_name := trim (take paren_open line) in
        let args_str := take (paren_close - (paren_open + 1)) (drop (paren_open + 1) line) in
        match first_index (cmd_is cmd_name) COMMANDS with
        | Some i => if is_command_available cmd_name mode then Run i args_str else Unavailable cmd_name
        | None => Unknown cmd_name
        end
    end
  end.

(** ** Arguments *)

Definition args_new (s : list Z) : list Z := trim s.

(** What remains after a token. *)
Definition after_token (rest : list Z) : list Z :=
  trim (trim_start_while (fun c => c =? 41) (trim_start_while (fun c => c =? 44) rest)).

Definition parse_u64 (inner : list Z) : option Z * list Z :=
  let inner := trim inner in
  if bool_decide (inner = []) then (None, inner)
  else
    let '(token, rest) := match find (fun c => (c =? 44) || (c =? 41) || (c =? 32)) inner with
                          | Some i => (take i inner, drop i inner)
                          | None => (inner, []) end in
    let token := trim token in
    let val := if starts_with [48; 120] token || starts_with [48; 88] token then from_str_radix (drop 2 token) 16
               else from_str_radix token 10 in
    (val, after_token rest).

Definition parse_str (inner : list Z) : option (list Z) * list Z :=
  let inner := trim inner in
  if bool_decide (inner = []) then (None, inner)
  else
    let '(token, rest) := match find (fun c => (c =? 44) || (c =? 41)) inner with
                          | Some i => (take i inner, drop i inner)
                          | None => (inner, []) end in
    (Some (trim token), after_token rest).

Definition args_empty (inner : list Z) : bool := bool_decide (trim inner = []).

(** ** Breakpoints *)

Definition MAX_BPS : nat := 8.

(** The slot of an address, or the first free one (address 0), whichever comes
    first. *)
Definition find_bp (bps : list Z) (addr : Z) : option nat := first_index (fun a => (a =? addr) || (a =? 0)) bps.

(** * Theorems *)

(** ** Dispatch *)

Definition plain_char (c : Z) : bool := negb (is_whitespace c).

(** Text without white space at its ends. *)
Definition trimmed (l : list Z) : Prop :=
  (forall c l', l = c :: l' -> is_whitespace c = false) /\ (forall c l', l = l' ++ [c] -> is_whitespace c = false).

Lemma trim_start_trimmed l : (forall c l', l = c :: l' -> is_whitespace c = false) -> trim_start l = l.
Proof. intros H. destruct l as [|c l]; [done|]. unfold trim_start. simpl. by rewrite (H c l). Qed.

Lemma trim_trimmed l : trimmed l -> trim l = l.
Proof.
  intros [H1 H2]. unfold trim, trim_end. rewrite (trim_start_trimmed l) by done. rewrite trim_start_trimmed; [apply rev_involutive|].
  intros c l' He. apply (H2 c (rev l')). rewrite <-(rev_involutive l), He. done.
Qed.

Lemma first_index_here {A} (f : A -> bool) (l k : list A) x :
  Forall (fun y => f y = false) l -> f x = true -> first_index f (l ++ x :: k) = Some (length l).
Proof. intros H Hx. induction H as [|y l Hy _ IH]; simpl; [by rewrite Hx|]. by rewrite Hy, IH. Qed.

(** What becomes of a command name. *)
Definition dispatch (mode : Mode) (name args : list Z) : Outcome :=
  match first_index (cmd_is name) COMMANDS with
  | Some i => if is_command_available name mode then Run i args else Unavailable name
  | None => Unknown name
  end.

(** A line of the form name(args) runs the first command of that name with
    exactly those arguments, if it is available in the current mode, and is
    reported as unavailable or unknown otherwise; the arguments may themselves
    contain parentheses. *)
Theorem execute_call mode name args :
  trimmed name -> name <> [] -> Forall (fun c => is_open c = false) name ->
  execute mode (name ++ [40] ++ args ++ [41]) = dispatch mode name args.
Proof.
  intros Ht Hne Hop. set (line := name ++ _).
  assert (trimmed line) as Htl.
  { split; intros c l' He.
    - destruct name as [|c' name]; [done|]. injection He as <- _. by apply (proj1 Ht c' name).
    - unfold line in He. rewrite !(assoc_L (++)) in He. apply app_inj_tail in He as [_ <-]. done. }
  assert (find is_open line = Some (length name)) as Ef by (by apply first_index_here).
  assert (length line = length name + 1 + length args + 1)%nat as Hlen by (unfold line; rewrite !length_app; simpl; lia).
  assert (rfind is_close line = Some (length name + 1 + length args)%nat) as Er.
  { unfold rfind. rewrite Hlen. assert (first_index is_close (rev line) = Some 0%nat) as ->; [|simpl; f_equal; lia].
    unfold line. by rewrite !(assoc_L (++)), rev_app_distr. }
  unfold execute. rewrite (trim_trimmed line Htl), bool_decide_eq_false_2, Ef, Er by (unfold line; by destruct name).
  rewrite (proj2 (Nat.leb_gt _ _)) by lia. unfold dispatch.
  assert (take (length name) line = name) as -> by (unfold line; by rewrite take_app_length).
  rewrite (trim_trimmed name Ht). replace (length name + 1 + length args - (length name + 1))%nat with (length args) by lia.
  assert (drop (length name + 1) line = args ++ [41]) as ->.
  { unfold line. rewrite (assoc_L (++)). apply drop_app_length'. rewrite length_app. simpl. lia. }
  by rewrite take_app_length.
Qed.

Lemma execute_call_witness : execute ModeMem (bs "dump(0x1000, (16))") = Run 10 (bs "0x1000, (16)").
Proof.
  apply (execute_call ModeMem (bs "dump") (bs "0x1000, (16)")); [|done|repeat constructor].
  split; intros c l' He; [by injection He as <- _|]. change (bs "dump") with ([100; 117; 109] ++ [112]) in He. by apply app_inj_tail in He as [_ <-].
Defined.

(** A command that runs is the first of its name. *)
Lemma execute_first mode line i args :
  execute mode line = Run i args -> exists name, first_index (cmd_is name) COMMANDS = Some i /\ is_command_available name mode = true.
Proof.
  unfold execute. case_bool_decide; [done|]. destruct (find _ _) as [o|]; [|done]. destruct (rfind _ _) as [c|]; [|done].
  destruct (c <=? o)%nat; [done|]. destruct (first_index _ COMMANDS) as [j|] eqn:E; [|done]. destruct (is_command_available _ _) eqn:Ea; [|done].
  intros [= <- _]. eauto.
Qed.

Lemma find_same {A} (f : A -> bool) l i j x : first_index f l = Some j -> l !! i = Some x -> f x = true -> (j <= i)%nat.
Proof.
  intros (_ & _ & _ & Hlt)%first_index_Some Hi Hf. destruct (decide (j <= i)%nat) as [|Hn]; [done|].
  rewrite (Hlt i x) in Hf by (done || lia). done.
Qed.

(** The second command named cli, the one of the debug mode that disables
    interrupts, can never be run: the table has an earlier entry of that name,
    which leaves the full-screen interface. *)
Theorem second_cli_never_runs mode line args :
  (exists i, (i < 43)%nat /\ COMMANDS !! i = Some "cli"%string) /\ COMMANDS !! 43%nat = Some "cli"%string /\ execute mode line <> Run 43 args.
Proof.
  split; [exists 3%nat; split; [lia|done]|]. split; [done|]. intros (name & Hi & _)%execute_first.
  pose proof (first_index_Some _ _ _ Hi) as (x & Hx & Hf & Hlt). injection Hx as <-.
  apply bool_decide_eq_true_1 in Hf. subst name. by vm_compute in Hi.
Qed.

(** Every command that some mode offers, and every one that is always available,
    is in the table, so [dispatch] never refuses it as unknown. *)
Theorem mode_commands_exist mode name :
  mode <> ModeRoot -> is_command_available name mode = true -> exists i, first_index (cmd_is name) COMMANDS = Some i.
Proof.
  intros Hm Ha. assert (exists s, bs s = name /\ s ∈ ALWAYS_AVAILABLE ++ (MODE_COMMANDS ≫= snd)) as (s & <- & Hs).
  { unfold is_command_available in Ha. rewrite bool_decide_eq_false_2 in Ha by done.
    destruct (existsb (cmd_is name) ALWAYS_AVAILABLE) eqn:E1.
    - apply existsb_exists in E1 as (s & Hs & He%bool_decide_eq_true_1). exists s. split; [done|]. apply elem_of_app. left. by apply list_elem_of_In.
    - destruct (list_find _ _) as [[i [[m n] cmds]]|] eqn:E2; [|done]. apply list_find_Some in E2 as (E2 & _).
      apply existsb_exists in Ha as (s & Hs & He%bool_decide_eq_true_1). exists s. split; [done|]. apply elem_of_app. right. apply list_elem_of_bind.
      exists (m, n, cmds). split; [by apply list_elem_of_In|]. by eapply list_elem_of_lookup_2. }
  assert (forallb (fun s => if first_index (cmd_is (bs s)) COMMANDS is Some _ then true else false) (ALWAYS_AVAILABLE ++ (MODE_COMMANDS ≫= snd)) = true) as Hall
    by (vm_compute; reflexivity).
  rewrite forallb_forall in Hall. specialize (Hall s ltac:(by apply list_elem_of_In)). destruct (first_index _ _) as [i|]; [by exists i|done].
Qed.

Lemma mode_commands_exist_witness : exists i, first_index (cmd_is (bs "rq")) COMMANDS = Some i.
Proof. apply (mode_commands_exist ModeSched); [done|reflexivity]. Defined.

(** ** Numbers *)

Definition digit_char (d : Z) : Z := if d <? 10 then 48 + d else 87 + d.

Fixpoint print_fuel (fuel : nat) (radix n : Z) : list Z :=
  match fuel with
  | O => []
  | S fuel => if n <? radix then [digit_char n] else print_fuel fuel radix (n / radix) ++ [digit_char (n mod radix)]
  end.

(** A number as text, without leading zeros. *)
Definition print_radix (radix n : Z) : list Z := print_fuel (S (Z.to_nat (Z.log2 n))) radix n.

Lemma to_digit_char radix d : 0 <= d < radix -> radix <= 36 -> to_digit radix (digit_char d) = Some d.
Proof.
  intros Hd Hr. unfold to_digit, digit_char. destruct (Z.ltb_spec d 10).
  - rewrite (proj2 (Z.leb_le 48 (48 + d))), (proj2 (Z.leb_le (48 + d) 57)) by lia. simpl. replace (48 + d - 48) with d by lia.
    by rewrite (proj2 (Z.ltb_lt d radix)) by lia.
  - rewrite (proj2 (Z.leb_gt (87 + d) 57)) by lia. rewrite andb_false_r.
    rewrite (proj2 (Z.leb_le 97 (87 + d))), (proj2 (Z.leb_le (87 + d) 122)) by lia. simpl. replace (87 + d - 97 + 10) with d by lia.
    by rewrite (proj2 (Z.ltb_lt d radix)) by lia.
Qed.

Lemma parse_digits_app radix l k acc :
  parse_digits radix acc (l ++ k) = v ← parse_digits radix acc l; parse_digits radix v k.
Proof.
  revert acc. induction l as [|c l IH]; intros acc; simpl; [done|]. destruct (to_digit radix c); simpl; [|done]. by destruct (_ <? _).
Qed.

Lemma parse_print_fuel radix fuel n :
  2 <= radix <= 36 -> 0 <= n < radix ^ Z.of_nat fuel ->
  parse_digits radix 0 (print_fuel fuel radix n) = if n <? 2 ^ 64 then Some n else None.
Proof.
  intros Hr. revert n. induction fuel as [|fuel IH]; intros n Hn; [simpl in Hn; destruct (Z.ltb_spec n (2 ^ 64)); simpl; [f_equal|]; lia|].
  cbn [print_fuel]. rewrite Nat2Z.inj_succ, Z.pow_succ_r in Hn by lia. destruct (Z.ltb_spec n radix) as [Hlt|Hge].
  - cbn [parse_digits]. rewrite to_digit_char by lia. cbn [mbind option_bind]. rewrite Z.mul_0_l, Z.add_0_l. done.
  - assert (n = radix * (n / radix) + n mod radix) as Hdiv by (apply Z.div_mod; lia). pose proof (Z.mod_pos_bound n radix ltac:(lia)) as Hmod.
    assert (0 <= n / radix < radix ^ Z.of_nat fuel) as Hq by (split; [apply Z.div_pos; lia|apply Z.div_lt_upper_bound; lia]).
    rewrite parse_digits_app, IH by done. destruct (Z.ltb_spec (n / radix) (2 ^ 64)); cbn [mbind option_bind].
    + cbn [parse_digits]. rewrite to_digit_char by lia. cbn [mbind option_bind]. replace (n / radix * radix + n mod radix) with n by lia. done.
    + destruct (Z.ltb_spec n (2 ^ 64)); [|done]. assert (n / radix <= n) by (apply Z.div_le_upper_bound; nia). lia.
Qed.

Lemma print_enough radix n : 2 <= radix -> 0 <= n -> n < radix ^ Z.of_nat (S (Z.to_nat (Z.log2 n))).
Proof.
  intros Hr Hn. rewrite Nat2Z.inj_succ, Z2Nat.id by apply Z.log2_nonneg. destruct (decide (n = 0)) as [->|]; [simpl; lia|].
  pose proof (Z.log2_spec n ltac:(lia)) as [_ H]. eapply Z.lt_le_trans; [exact H|]. apply Z.pow_le_mono_l. lia.
Qed.

(** The characters of a number are digits. *)
Lemma print_digits radix fuel n : 2 <= radix <= 36 -> 0 <= n -> Forall (fun c => 48 <= c <= 57 \/ 10 < radix /\ 97 <= c <= 122) (print_fuel fuel radix n).
Proof.
  intros Hr. revert n. induction fuel as [|fuel IH]; intros n Hn; cbn [print_fuel]; [constructor|].
  assert (forall d, 0 <= d < radix -> 48 <= digit_char d <= 57 \/ 10 < radix /\ 97 <= digit_char d <= 122) as Hd
    by (intros d Hd; unfold digit_char; destruct (Z.ltb_spec d 10); lia).
  destruct (Z.ltb_spec n radix); [constructor; [|constructor]; apply Hd; lia|]. apply Forall_app. split.
  - apply IH, Z.div_pos; lia.
  - constructor; [|constructor]. apply Hd, Z.mod_pos_bound. lia.
Qed.

(** Letters and digits. *)
Definition alnum (c : Z) : Prop := 48 <= c <= 57 \/ 97 <= c <= 122.

Lemma print_alnum radix n : 2 <= radix <= 36 -> 0 <= n -> Forall alnum (print_radix radix n).
Proof. intros Hr Hn. eapply Forall_impl; [by apply print_digits|]. unfold alnum. intros c Hc. simpl in Hc. lia. Qed.

Lemma print_nonempty radix n : print_radix radix n <> [].
Proof. unfold print_radix. simpl. case_match; [done|]. by intros [_ ?]%app_nil. Qed.

Lemma from_str_radix_digits l radix :
  l <> [] -> Forall alnum l -> from_str_radix l radix = parse_digits radix 0 l.
Proof.
  intros Hl Hd. destruct l as [|c l]; [done|]. apply Forall_cons in Hd as [Hc _]. unfold alnum in Hc. unfold from_str_radix.
  rewrite (proj2 (Z.eqb_neq c 43)), (proj2 (Z.eqb_neq c 45)) by lia. by destruct l.
Qed.

Lemma from_str_print radix n : 2 <= radix <= 36 -> 0 <= n ->
  from_str_radix (print_radix radix n) radix = if n <? 2 ^ 64 then Some n else None.
Proof.
  intros Hr Hn. rewrite from_str_radix_digits; [|apply print_nonempty|by apply print_alnum].
  apply parse_print_fuel; [done|]. split; [done|]. apply print_enough; lia.
Qed.

Lemma trim_start_stop l x k : is_whitespace x = false -> trim_start (l ++ x :: k) = trim_start l ++ x :: k.
Proof. intros Hx. unfold trim_start. induction l as [|c l IH]; simpl; [by rewrite Hx|]. by destruct (is_whitespace c). Qed.

Lemma trim_end_stop l x k : is_whitespace x = false -> trim_end (l ++ x :: k) = l ++ x :: trim_end k.
Proof.
  intros Hx. unfold trim_end. rewrite rev_app_distr. simpl. rewrite <-(assoc_L (++)). simpl. rewrite trim_start_stop by done.
  rewrite rev_app_distr. simpl. by rewrite rev_involutive, <-(assoc_L (++)).
Qed.

Lemma alnum_not_space c : alnum c -> is_whitespace c = false.
Proof. unfold alnum, is_whitespace. lia. Qed.

Lemma alnum_trimmed tok : Forall alnum tok -> trimmed tok.
Proof.
  intros H. split; intros c l' ->; apply alnum_not_space.
  - by apply Forall_cons in H as [? _].
  - apply Forall_app in H as [_ H]. by apply Forall_cons in H as [? _].
Qed.

Definition token_value (tok : list Z) : option Z :=
  if starts_with [48; 120] tok || starts_with [48; 88] tok then from_str_radix (drop 2 tok) 16 else from_str_radix tok 10.

(** The first argument of a list of arguments. *)
Lemma parse_first tok rest :
  tok <> [] -> Forall alnum tok -> parse_u64 (tok ++ 44 :: rest) = (token_value tok, after_token (44 :: trim_end rest)).
Proof.
  intros Hne Ha. unfold parse_u64. assert (trim (tok ++ 44 :: rest) = tok ++ 44 :: trim_end rest) as ->.
  { unfold trim. rewrite trim_start_trimmed; [by rewrite trim_end_stop|]. intros c l' He. destruct tok as [|c' tok]; [done|].
    injection He as <- _. apply alnum_not_space. by apply Forall_cons in Ha as [? _]. }
  rewrite bool_decide_eq_false_2 by (by destruct tok).
  assert (find (fun c => (c =? 44) || (c =? 41) || (c =? 32)) (tok ++ 44 :: trim_end rest) = Some (length tok)) as ->.
  { apply first_index_here; [|done]. eapply Forall_impl; [exact Ha|]. unfold alnum. intros c Hc. simpl. lia. }
  rewrite take_app_length, drop_app_length. by rewrite (trim_trimmed tok) by (by apply alnum_trimmed).
Qed.

Lemma parse_hex n : 0 <= n -> token_value (48 :: 120 :: print_radix 16 n) = if n <? 2 ^ 64 then Some n else None.
Proof. intros Hn. unfold token_value. simpl. apply from_str_print; lia. Qed.

Lemma parse_dec n : 0 <= n -> token_value (print_radix 10 n) = if n <? 2 ^ 64 then Some n else None.
Proof.
  intros Hn. unfold token_value. rewrite from_str_print by lia.
  assert (forall x, 57 < x -> starts_with [48; x] (print_radix 10 n) = false) as Hs.
  { intros x Hx. apply bool_decide_eq_false_2. intros He.
    pose proof (print_digits 10 (S (Z.to_nat (Z.log2 n))) n ltac:(lia) Hn) as Hd. fold (print_radix 10 n) in Hd.
    rewrite <-(take_drop 2 (print_radix 10 n)) in Hd. simpl length in He. rewrite He in Hd. inversion_clear Hd as [|? ? _ Hd']. inversion_clear Hd'. lia. }
  rewrite !Hs by lia. done.
Qed.

(** Numbers typed as arguments are read back exactly: the decimal or 0x text of
    any number below 2^64 yields that number and leaves the rest of the
    arguments, and larger numbers are refused, never truncated. *)
Theorem parse_u64_roundtrip n rest :
  0 <= n ->
  let r := (if n <? 2 ^ 64 then Some n else None, after_token (44 :: trim_end rest)) in
  parse_u64 (print_radix 10 n ++ 44 :: rest) = r /\ parse_u64 ((48 :: 120 :: print_radix 16 n) ++ 44 :: rest) = r.
Proof.
  intros Hn r. subst r. rewrite !parse_first; [by rewrite parse_dec, parse_hex|done| |apply print_nonempty|by apply print_alnum].
  repeat (constructor; [unfold alnum; lia|]). by apply print_alnum.
Qed.

Lemma parse_u64_roundtrip_witness : parse_u64 (bs "18446744073709551615, 7") = (Some (2 ^ 64 - 1), bs "7").
Proof. apply (parse_u64_roundtrip (2 ^ 64 - 1) (bs " 7")). lia. Defined.
